(* ===== verification/_CoqProject ===== *)
-Q . S2P
Prelude.v
Status.v
LittleEndian.v
Crc32.v
Framing.v
PendingEntryCodec.v
Posix.v
GroupCommit.v
PendingLog.v
PendingLogTheory.v
WriteCoordinator.v
UnitStores.v
WriteCoordinatorTheory.v
WriteCoordinatorCalls.v
WriteCoordinatorRecovery.v
WalEntryCodec.v
WalLog.v
WalLogTheory.v
Hnsw.v
Snapshot.v
Phnsw.v
PhnswTheory.v
PhnswWrites.v
PhnswFaults.v
BlockHeader.v
SparseCodec.v
BloomFilter.v
CircuitBreaker.v
Ulid.v
Degradation.v
Iso8601.v
F42Error.v
TaskManager.v
TaskManagerTheory.v
TaskScheduler.v
TaskSchedulerTheory.v
TaskOutcomes.v
CppStd.v
DocumentParser.v
SpcStages.v
DocumentProcessor.v
TaskForward.v
DocumentProcessorTheory.v
DocumentOutcomes.v
Sqlite.v
Documents.v
DocumentsTheory.v
FtsQuery.v
CortrixStore.v
EnrichState.v
StoreVersions.v
CortrixStoreTheory.v
DocumentGc.v
DocumentGcTheory.v
RecursiveChunker.v
RecursiveChunkerTheory.v
ParentChildChunker.v
ParentChildTheory.v
ChildParentDedup.v
SpcPipeline.v
NamespacePool.v
NamespacePoolTheory.v
TtlLruCache.v
NsRouter.v
NsRouterTheory.v
ContentRefs.v
ContentRefsTheory.v
GcManager.v
GcManagerTheory.v
MemoryQueue.v
SqlProgram.v
SecurityErrors.v
Permissions.v
PermissionsTheory.v
Tenants.v
TenantsTheory.v
ApiKeys.v
ApiKeysTheory.v
JwtSecrets.v
NsLocks.v
