(* ===== verification/Prelude.v ===== *)
(** * Cortrix: verification of the storage, ingestion, task and access core

    Cortrix is a semantic storage server: documents are parsed and cut into
    chunks, each block has a row in SQLite, a blob and a vector, and a query is
    answered from a vector index, a keyword index and a SQL route.  This library
    models the parts that have to survive crashes and concurrent requests, and
    the algorithms around them whose correctness does not show in a test: two
    write-ahead logs with group commit, the transaction coordinator, the
    persistent vector index, the task queue with its workers, the ingestion
    pipeline with its stages and its ledger of owed enrichments, the document
    store with its versions and its garbage collection, the namespace catalog and
    pool, the reference counts of stored files, tenants, permissions and API keys,
    the chunkers, the binary formats, and some small state machines.

    ** How the parts fit together

    A write of a document goes through [WriteCoordinator]: [BeginWrite] locks the
    document and appends a PENDING record to the pending write log, the caller
    writes blob, rows and vectors, and [Commit] or [Rollback] appends the
    terminal record.  After a crash [Recover] reads the log, asks the stores
    which writes are complete, finishes or undoes each, and compacts the log.
    The log ([PendingLogWriter]) is the sink of a [GroupCommitWriter], whose
    worker thread turns concurrent appends into one write and one sync.  The
    vector store is [PHnsw]: an insert is a record of its own log ([WalWriter],
    also behind a group commit), applied to the vendored HNSW graph only after
    the sync; [SnapshotManager] saves the graph with the LSN it reflects, the log
    is truncated behind it, and the constructor recovers from both.

    An upload becomes a row of the task table ([TaskManager]).  [TaskScheduler]
    merges repeated uploads and hands tasks out, one per document at a time; a
    worker's turn parses the document ([DocumentProcessor], [Parser]) and
    finalises the task; a cron sweeps what died.  The parsed pages go through
    [SpcPipeline]: [ParentChildChunker] chunks them, splitting with
    [RecursiveChunker] and minting identifiers with [Ulid]; [MetadataGenerator],
    [EnricherChain], [DataCleaner] and [Scoring] prepare the blocks; the write
    goes to the vector index and the document store between a BeginWrite and a
    Commit of the coordinator, which it reaches through the class [Coordinator].
    What enrichment owes is a row of the ledger [EnrichState], which retries and
    audits work off.  The hits of a search are put back together by
    [ChildParentDedup].

    [CortrixStoreSqlite] keeps documents, their versions, blocks and full text;
    [Documents] decides which version is visible, [DocumentGcSweeper] deletes and
    restores.  A namespace is created in the catalog ([NsRouter]) and loaded by
    the pool ([NamespacePool]), which runs the recoveries above; requests borrow
    it and a deletion waits for them.  Its stored files are counted by
    [ContentRefs] and collected by [GcManager].

    A request passes the gate of its route ([ApiKeyAuth.WithAuth]): a configured
    key or a key of [ApiKeys] gives it permission bits and a namespace.  Which
    namespaces it may read, write or administer is decided by [PermissionService]
    from owners and grants, a query's list of namespaces by [QueryAuthorization]
    over the class [QueryPermissions]; [TenantService] keeps the members of a
    tenant.  The statements of concurrent calls on one connection interleave
    ([SqlProgram]).

    ** Files

    - Prelude.v: byte buffers, machine widths, slices and their lemmas, the hint
      database [cortrix].  Status.v (src/common/status.{h,cpp}, result.h,
      store/pwl_errors.h, store/phnsw_errors.h): statuses, and the outcome type
      [Run] of fallible code: [Ret], [Fail] and [Undef], the last for a read
      outside a buffer, so that memory safety is a theorem and not a convention.
      LittleEndian.v, Crc32.v, Framing.v: integer fields, the checksum and the
      length-body-checksum frame that both logs use.
    - PendingEntryCodec.v (store/pending_entry.{h,cpp}), PendingLog.v and
      PendingLogTheory.v (store/pending_log_writer.{h,cpp}): record format and log file.
    - Posix.v: the file interface of the two logs.  A file has durable contents
      and pending operations; a call consumes one outcome (success, a short
      write, an error); a crash keeps an arbitrary subset of the pending
      operations, each possibly torn.
    - GroupCommit.v (store/group_commit_writer.{h,cpp}): the committer as a step
      relation, against the class [IWalSink], which PendingLogTheory.v
      instantiates with the real log.
    - WriteCoordinator.v (store/write_coordinator.{h,cpp}): all operations; and
      WriteCoordinatorTheory.v (interleaved callers, one step per critical
      section), WriteCoordinatorCalls.v (each call on each branch),
      WriteCoordinatorRecovery.v (recovery).  UnitStores.v
      (resource/namespace_pool.cpp, the callback wiring): the stores and the
      clean-up callback.
    - WalEntryCodec.v, WalLog.v, WalLogTheory.v (store/phnsw/wal_entry.{h,cpp},
      wal_writer.{h,cpp}), Hnsw.v (the graph's label table in hnswlib/hnswalg.h),
      Snapshot.v (snapshot_manager.{h,cpp}), Phnsw.v (phnsw.{h,cpp}) with PhnswTheory.v
      (recovery), PhnswWrites.v (writes, snapshots, reads) and PhnswFaults.v
      (runs that lose data).
    - BlockHeader.v (store/block_header.cpp), SparseCodec.v
      (retrieval/sparse_codec.cpp), BloomFilter.v (catalog/bloom_filter.cpp),
      CircuitBreaker.v (reranker/circuit_breaker.cpp), Ulid.v (id/ulid.cpp),
      Degradation.v (query/degradation_manager.cpp).
    - The task subsystem (src/async): Iso8601.v (timestamps as text), F42Error.v
      (error identities), TaskManager.v and TaskManagerTheory.v (the table of
      tasks, task_manager.cpp), TaskScheduler.v and TaskSchedulerTheory.v
      (task_scheduler.cpp, managed_input.cpp, task_finalizer.cpp,
      task_cleanup_cron.cpp, interleaved workers),
      TaskOutcomes.v (each call on each branch); CppStd.v (what the parsers use of
      the C++ library: JSON values, doubles), DocumentParser.v (spc/parser*.cpp),
      DocumentProcessor.v (document_processor.cpp, document_task_handler.cpp,
      worker_pool.cpp, spc/spc_router.cpp), TaskForward.v and
      DocumentProcessorTheory.v (a task only moves forward), DocumentOutcomes.v
      (what a worker's turn ends with).
    - The document store (src/store): Sqlite.v (connections, transactions, query
      plans), Documents.v and DocumentsTheory.v (doc_status_lookup.cpp: which
      version is visible), FtsQuery.v (the sanitiser and LIKE patterns),
      CortrixStore.v (cortrix_store_sqlite.cpp), StoreVersions.v (invariants
      along its methods, one served version per source), CortrixStoreTheory.v
      (crash recovery, prefix deletion, rows), DocumentGc.v
      and DocumentGcTheory.v (catalog/gc/document_gc_sweeper.cpp).
    - Chunking: RecursiveChunker.v and RecursiveChunkerTheory.v
      (spc/recursive_chunker.cpp), ParentChildChunker.v and ParentChildTheory.v
      (src/chunker), ChildParentDedup.v (chunker/child_parent_dedup.cpp).
    - Ingestion (src/spc): SpcStages.v (data_cleaner.cpp, index_gates.h,
      enricher_chain.cpp, scoring/score_map.cpp, scoring/semantic_scorer.cpp,
      metadata/rule_based_metadata_generator.cpp), EnrichState.v (the ledger of
      enrich_state_store.cpp, the columns of a block that contextual_store.cpp,
      enricher_store.cpp, scoring_store.cpp, sparse_vec_store.cpp and
      doc_fts5_index.cpp write, and a part of enrich_backfill_worker.cpp),
      SpcPipeline.v (spc_pipeline.cpp, block_assembler.cpp, hype_block.cpp, with
      the theorems about a run).
    - Namespaces: NamespacePool.v and NamespacePoolTheory.v
      (resource/namespace_pool.cpp), TtlLruCache.v (catalog/ttl_lru_cache.h),
      NsRouter.v and NsRouterTheory.v (catalog/default_ns_router.cpp), NsLocks.v
      (the two locks that pool and router take).  ContentRefs.v and
      ContentRefsTheory.v (catalog/default_content_ref_store.cpp), GcManager.v and
      GcManagerTheory.v (catalog/gc/gc_manager.cpp): files, references, blobs.
    - Access: SqlProgram.v (a call as a tree of statements, alone or interleaved
      with others), SecurityErrors.v (tenant/tenant_error.cpp and the errors of
      src/auth), Permissions.v and PermissionsTheory.v
      (tenant/permission_service.cpp, query/authorize_namespaces.cpp), Tenants.v
      and TenantsTheory.v (tenant/tenant_service.cpp, quota_service.cpp),
      ApiKeys.v and ApiKeysTheory.v (auth/api_key_service.cpp,
      bootstrap_handler.cpp, api_key_auth.cpp, auth_middleware.cpp), JwtSecrets.v
      (auth/jwt_secret_service.cpp).
    - MemoryQueue.v (memory/memory_queue.cpp): the queue as a step relation.

    A class with state is a record with the same fields; a method is a function
    from arguments and state to result and new state, with the name it has in
    the source.  Mutexes do not appear in the state: a critical section is one
    step.  NsLocks.v is the exception: there the locks are the state.

    ** What the theorems show

    - Atomicity of documents: after recovery every transaction is completely
      there or completely gone, whatever the order of its writes
      ([Recover_atomic]), recovery ends and leaves an empty log
      ([Recover_completes]); no two transactions hold one document, a transaction
      is decided once, locks are released
      ([WriteCoordinator_mutual_exclusion], [..._decided_once],
      [..._locks_released]), and every outcome of every call is described.
    - Durability of the logs: an acknowledged append survives every crash
      ([PendingLog_append_durable], [WalWriter_append_durable],
      [GroupCommit_ok_is_durable]); a crash in the middle of an append does not
      cost older records; compaction is atomic under crashes; readers repair a
      torn tail; a waiter is answered once and shutdown drains the queue.
    - The vector index: the state after recovery is the replay of the
      acknowledged history ([PHnsw_recovery_exact]), writes extend it durably
      ([PHnsw_write_durable]), snapshots and truncation keep it
      ([PHnsw_snapshot_keeps_history]), reads report it
      ([PHnsw_reads_exact]), and applying one record refines an update of a
      finite map ([ApplyEntry_refines]).
    - Tasks: the rows are well formed under every call ([Task_lifecycle]), a
      worker's turn ends with its task in a final state ([WorkerTurn_ends]), no
      two workers have one document ([Scheduler_doc_exclusive]), an input that a
      task still needs is not removed ([ManagedInput_release_safe]), and every
      outcome of the calls is described.
    - The document store: at most one version of a source is served
      ([Store_one_ready_version], [Visible_version_unique]); publishing, crash
      recovery, deletion by prefix, restoration and the sweep do exactly what
      they say ([Publish_version_outcomes], [RecoverCrashedDocs_exact],
      [Delete_by_prefix_exact], [DecideRestore_decides], [Sweep_safe_exact]); rows
      are read back as they were written; a sanitised query is literal.
    - Ingestion: a write that reports success stored its blocks, parents, labels
      and points ([Write_stores_everything]); every transaction that a run begins
      is ended, and no document stays locked ([process_closed],
      [Ingest_releases_document]); a failing enricher costs only its own fields
      ([Chain_fail_soft]), and of equal chunks the first is kept
      ([Dedup_keeps_first]).  A delivery does not undo what happened to its row
      meanwhile ([Flip_respects_transitions]), and a chunk has ten deliveries at
      most ([Deliveries_bounded]).
    - Access: a handler runs only for a caller with the bits and the namespace of
      its route ([Access_authorized]), a revoked key opens nothing
      ([Revoked_key_refused]), the decisions are those of a written policy
      ([Permission_policy]), grants and tenants change only for those entitled
      ([Acl_calls_authorized], [Tenant_calls_authorized]), a query reads only what
      its caller may ([Query_namespaces_readable]), a tenant keeps an owner when
      calls do not overlap ([Tenant_keeps_owner]), and a rotation keeps accepting
      the secret before it ([Rotation_keeps_window]).
    - Files and memory: the counts never fall behind the references
      ([Counts_never_behind]), the store refines a set of references
      ([Refs_refine_set]), only what nothing references is collected
      ([Run_collects_dead]); every item that the memory queue accepted is waiting,
      held, handled or given up ([Queue_accounts]), and a stop drains it
      ([Stop_drains]).
    - Chunking: chunks are bounded and lose nothing but separators
      ([Split_bounded_lossless], [Chunk_overlaps]); the tree of a document
      ([Chunk_tree]); the groups of hits ([Dedup_groups]).
    - Namespaces: a borrowed namespace stays what it was and a deletion is
      completed by its last borrower ([Pool_borrow_safe]), admission and creation
      on every branch ([AdmitCreate_outcomes], [CreateNamespace_outcomes]), no
      deadlock without deletions ([Ns_locks_progress]), and the cache against the
      map it stands for ([Cache_answers_last_write]).
    - Formats: round trips, rejection of a damaged byte, and no read out of
      bounds on any input, for both record formats, blocks and sparse vectors;
      the table-driven CRC equals the bitwise one; timestamps sort as text.
    - State machines and algorithms: the Bloom filter has no false negatives,
      the circuit breaker refines its specification when calls do not overlap,
      identifiers sort in the order of minting, better route results never
      worsen the degradation level.
    - Where a run of the code departs from what its comments promise, a theorem
      exhibits that run, next to the property it limits (for the vector index in
      PhnswFaults.v, for the others in modules at the end of their files, such as
      [PipelineRuns] and [LedgerRuns]); the hypotheses of the positive theorems exclude those
      runs.

    ** Bounds and fuel

    The scan of a log has one unit of fuel more than the image has bytes: a
    record takes at least one byte, and [ScanRecords_terminates] shows that the
    fuel is enough on every image.  The splittings of a text have as much fuel as
    the text has bytes ([split_at_fuel], [split_chars_fuel], [hard_cut_fuel],
    [walk_back_enough]); the loop over the units of a document has one unit per
    unit, and [build_parents_spec] shows that all are used.  The retry of
    [PwriteAll] recurses on the outcomes of the system calls, of which each call
    consumes one, as the statements of a connection do; when the list is used up
    calls succeed.  Integers are [Z] with the wrap-around written out ([u8] to
    [u64], [i64]) where it can happen; positions in a text are exact below 2^31
    bytes.  The thresholds of the task and query parts are bit patterns of which
    only the comparison is used; the cleaner and the scores compute with the
    binary32 and binary64 numbers of the Standard Library's SpecFloat.

    ** What is not modelled

    The links of the HNSW graph and its distance computations: the ranking of a
    search is an argument.  SQLite itself: Sqlite.v has the documented behaviour
    of connections and transactions, and each statement is written as a function
    on the rows; JSON text is read and written by the class [Nlohmann].  SHA-256,
    SipHash and random bytes are parameters, and so are the embedder, the parsers
    behind their bridges and the providers of the enrichers: they are libraries,
    processes or services.  Left out because they are routes, wiring, logging or
    metrics around the parts above: the HTTP server and its handlers, the
    bootstrap, the configuration, the connectors and the imports.  Left out
    because what they do is ranking on floats over answers of a model: the fusion
    of query results, reranking, the sparse retriever.  Left out for their size:
    user accounts and access tokens, the rate limiter, the memory store, the
    sweep of the retry worker over namespaces, and, of the pool, the vectors that
    a load drops for crashed documents. *)
From Stdlib Require Export ZArith Lia.
From stdpp Require Export base list gmap strings numbers sorting.

(** ** Scope, automation and rewrite databases *)

#[global] Open Scope Z_scope.

Create HintDb cortrix.
#[export] Hint Constants Opaque : cortrix.
#[export] Hint Variables Opaque : cortrix.

(** ** Updating one field of a record

    [r <| proj := v |>] for a record type that declares its [Eta] expansion. *)
Class Eta (R : Type) := eta : R -> R.
Class Setter {R E : Type} (proj : R -> E) := set_field : (E -> E) -> R -> R.
#[global] Arguments set_field {R E} proj {Setter} f r : simpl nomatch.

Ltac solve_setter :=
  match goal with
  | |- @Setter ?R ?E ?proj =>
      let e := constr:(_ : Eta R) in
      let f := fresh "f" in let r := fresh "r" in
      intros f r;
      let b := eval hnf in (e r) in
      match b with
      | context C [proj r] => let b := context C [f (proj r)] in exact b
      end
  end.
#[export] Hint Extern 1 (Setter _) => solve_setter : typeclass_instances.

Notation "r <| proj := v |>" := (set_field proj (fun _ => v) r)
  (at level 12, left associativity, proj at level 0, v at level 99) : Z_scope.

(** ** Byte buffers

    A [std::vector<uint8_t>] (or a file image) is a list of integers.  The
    predicate [bytes_ok] is the type invariant of its elements. *)

Abbreviation bytes := (list Z).

Definition byte_ok (b : Z) : Prop := 0 <= b < 256.
Definition bytes_ok (l : bytes) : Prop := Forall byte_ok l.

Lemma bytes_ok_app a b : bytes_ok (a ++ b) <-> bytes_ok a /\ bytes_ok b.
Proof. apply Forall_app. Qed.

Definition len {A} (l : list A) : Z := Z.of_nat (length l).

(** Machine-width truncation, as [static_cast] to an unsigned type. *)
Definition u8 (v : Z) : Z := v mod 2 ^ 8.
Definition u16 (v : Z) : Z := v mod 2 ^ 16.
Definition u32 (v : Z) : Z := v mod 2 ^ 32.
Definition u64 (v : Z) : Z := v mod 2 ^ 64.
(** [static_cast<int64_t>] of a 64-bit pattern. *)
Definition i64 (v : Z) : Z := (v + 2 ^ 63) mod 2 ^ 64 - 2 ^ 63.
Definition i32 (v : Z) : Z := (v + 2 ^ 31) mod 2 ^ 32 - 2 ^ 31.

(** [sub data off n] is the [n] bytes of [data] at [off]; [None] is a read
    outside the buffer, which is undefined behaviour in C++. *)
Definition sub {A} (data : list A) (off n : Z) : option (list A) :=
  if decide (0 <= off /\ 0 <= n /\ off + n <= len data)
  then Some (take (Z.to_nat n) (drop (Z.to_nat off) data))
  else None.

(** [splice data off buf]: what [pwrite(fd, buf, off)] leaves in the file; a
    gap between the old end and [off] reads as zeros. *)
Definition splice (data : bytes) (off : Z) (buf : bytes) : bytes :=
  let o := Z.to_nat off in
  if decide (buf = []) then data else
  take o (data ++ replicate (o - length data) 0) ++ buf
  ++ drop (o + length buf) data.

#[global] Arguments len : simpl never.
#[global] Arguments sub : simpl never.
#[global] Arguments splice : simpl never.
#[global] Arguments u8 : simpl never.
#[global] Arguments u16 : simpl never.
#[global] Arguments u32 : simpl never.
#[global] Arguments u64 : simpl never.
#[global] Arguments i64 : simpl never.
#[global] Arguments i32 : simpl never.

(** ** Lengths *)

Lemma len_nonneg {A} (l : list A) : 0 <= len l.
Proof. unfold len. lia. Qed.
Lemma len_nil {A} : len (@nil A) = 0.
Proof. reflexivity. Qed.
Lemma len_cons {A} (x : A) l : len (x :: l) = 1 + len l.
Proof. unfold len. simpl. lia. Qed.
Lemma len_app {A} (l k : list A) : len (l ++ k) = len l + len k.
Proof. unfold len. rewrite length_app. lia. Qed.
Lemma len_fmap {A B} (f : A -> B) l : len (f <$> l) = len l.
Proof. unfold len. by rewrite length_fmap. Qed.
Lemma len_replicate {A} n (x : A) : len (replicate n x) = Z.of_nat n.
Proof. unfold len. by rewrite length_replicate. Qed.
Lemma len_take {A} n (l : list A) : len (take n l) = Z.min (Z.of_nat n) (len l).
Proof. unfold len. rewrite length_take. lia. Qed.
Lemma len_drop {A} n (l : list A) :
  len (drop n l) = Z.max 0 (len l - Z.of_nat n).
Proof. unfold len. rewrite length_drop. lia. Qed.
Lemma len_seqZ m n : 0 <= n -> len (seqZ m n) = n.
Proof. intros. unfold len. rewrite length_seqZ. lia. Qed.
Lemma len_0_nil {A} (l : list A) : len l = 0 -> l = [].
Proof. destruct l; [done|]. rewrite len_cons. pose proof (len_nonneg l). lia. Qed.
Lemma length_len {A} (l : list A) : length l = Z.to_nat (len l).
Proof. unfold len. lia. Qed.

Create Rewrite HintDb len.
#[export] Hint Rewrite @len_nil @len_cons @len_app @len_fmap @len_replicate
  @len_take @len_drop : len.
#[export] Hint Resolve len_nonneg : cortrix.

(** [slen] normalises the lengths of a goal and closes it by arithmetic. *)
Ltac pose_lens :=
  repeat match goal with
  | |- context [len ?l] =>
      lazymatch goal with
      | _ : 0 <= len l |- _ => fail
      | _ => pose proof (len_nonneg l)
      end
  | H : context [len ?l] |- _ =>
      lazymatch goal with
      | _ : 0 <= len l |- _ => fail
      | _ => pose proof (len_nonneg l)
      end
  end.
Ltac slen := autorewrite with len in *; pose_lens; lia.

(** ** Reading slices *)

Lemma sub_app {A} (a b c : list A) off n :
  off = len a -> n = len b -> sub (a ++ b ++ c) off n = Some b.
Proof.
  intros -> ->. unfold sub. rewrite decide_True by slen.
  f_equal. unfold len. rewrite !Nat2Z.id, drop_app_length.
  by rewrite take_app_length.
Qed.

Lemma sub_all {A} (l : list A) n : n = len l -> sub l 0 n = Some l.
Proof.
  intros ->. rewrite <- (app_nil_r l) at 1.
  by rewrite <- (app_nil_l (l ++ [])), (sub_app [] l []).
Qed.

Lemma sub_shift {A} (a b : list A) off k n :
  off = len a + k -> 0 <= k -> sub (a ++ b) off n = sub b k n.
Proof.
  intros -> Hk. unfold sub. repeat case_decide; try slen; [|done].
  do 2 f_equal. unfold len in *.
  replace (Z.to_nat (Z.of_nat (length a) + k)) with (length a + Z.to_nat k)%nat by lia.
  by rewrite drop_app_add.
Qed.

Lemma sub_app_l {A} (a b : list A) off n :
  off + n <= len a -> sub (a ++ b) off n = sub a off n.
Proof.
  intros. unfold sub. repeat case_decide; try slen; [|done].
  f_equal. rewrite drop_app_le by (unfold len in *; lia).
  rewrite take_app_le; [done|]. rewrite length_drop. unfold len in *. lia.
Qed.

Lemma sub_is_Some {A} (l : list A) off n :
  0 <= off -> 0 <= n -> off + n <= len l -> is_Some (sub l off n).
Proof. intros. unfold sub. rewrite decide_True by lia. eauto. Qed.

Lemma sub_Some_len {A} (l k : list A) off n : sub l off n = Some k -> len k = n.
Proof.
  unfold sub. case_decide as H; [|done]. intros [= <-]. slen.
Qed.

Lemma sub_Some_elem {A} (l k : list A) off n P :
  sub l off n = Some k -> Forall P l -> Forall P k.
Proof.
  unfold sub. case_decide; [|done]. intros [= <-] HF.
  by apply Forall_take, Forall_drop.
Qed.

Lemma sub_app_inv {A} (l k : list A) off n :
  sub l off n = Some k ->
  exists a c, l = a ++ k ++ c /\ len a = off.
Proof.
  unfold sub. case_decide as H; [|done]. intros [= <-].
  exists (take (Z.to_nat off) l), (drop (Z.to_nat n) (drop (Z.to_nat off) l)).
  rewrite !take_drop. split; [done|slen].
Qed.

(** ** Overwriting slices *)

Lemma splice_end data buf : splice data (len data) buf = data ++ buf.
Proof.
  unfold splice. case_decide as H; [subst; by rewrite app_nil_r|].
  unfold len. rewrite Nat2Z.id, Nat.sub_diag. simpl.
  rewrite app_nil_r, take_ge by lia. by rewrite drop_ge, app_nil_r by lia.
Qed.

Lemma splice_overwrite a b c buf :
  length buf = length b -> splice (a ++ b ++ c) (len a) buf = a ++ buf ++ c.
Proof.
  intros Hl. unfold splice. case_decide as H.
  { subst. destruct b; [done|simpl in *; lia]. }
  unfold len. rewrite Nat2Z.id, <- app_assoc, take_app_length.
  rewrite drop_app_add, Hl, drop_app_length. done.
Qed.

Lemma splice_splice data off b1 b2 :
  0 <= off -> off <= len data ->
  splice (splice data off b1) (off + len b1) b2 = splice data off (b1 ++ b2).
Proof.
  intros Ho Hl. unfold splice at 2 3.
  destruct (decide (b1 = [])) as [->|H1].
  { simpl. unfold splice. repeat case_decide; try done.
    by rewrite len_nil, Z.add_0_r. }
  rewrite (decide_False (P := b1 ++ b2 = [])) by (intros [??]%app_nil; done).
  unfold splice. case_decide as H2; [subst; by rewrite !app_nil_r|].
  unfold len in *.
  set (o := Z.to_nat off). assert (o <= length data)%nat as Ho' by lia.
  replace (Z.to_nat (off + Z.of_nat (length b1))) with (o + length b1)%nat by lia.
  replace (o - length data)%nat with O by lia. simpl replicate. rewrite !app_nil_r.
  assert (length (take o data) = o) as Hto by (rewrite length_take; lia).
  set (t := take o data) in *.
  rewrite !app_assoc. set (d := drop _ data).
  replace (o + length b1 - length ((t ++ b1) ++ d))%nat with O
    by (rewrite !length_app; lia).
  simpl. rewrite app_nil_r.
  replace (o + length b1)%nat with (length (t ++ b1)) by (rewrite length_app; lia).
  rewrite take_app_length, drop_app_add. unfold d.
  rewrite drop_drop, length_app. f_equal. f_equal. lia.
Qed.

(** ** Truncation arithmetic *)

Lemma u64_small v : 0 <= v < 2 ^ 64 -> u64 v = v.
Proof. apply Z.mod_small. Qed.
Lemma u32_small v : 0 <= v < 2 ^ 32 -> u32 v = v.
Proof. apply Z.mod_small. Qed.
Lemma u16_small v : 0 <= v < 2 ^ 16 -> u16 v = v.
Proof. apply Z.mod_small. Qed.
Lemma u8_small v : 0 <= v < 2 ^ 8 -> u8 v = v.
Proof. apply Z.mod_small. Qed.
Lemma i64_u64 v : - 2 ^ 63 <= v < 2 ^ 63 -> i64 (u64 v) = v.
Proof.
  intros. unfold i64, u64. rewrite Zplus_mod_idemp_l, Z.mod_small by lia. lia.
Qed.
Create Rewrite HintDb width.
#[export] Hint Rewrite u64_small u32_small u16_small u8_small i64_u64
  using lia : width.

Lemma len_splice data off buf :
  0 <= off <= len data -> len (splice data off buf) = Z.max (len data) (off + len buf).
Proof.
  intros Ho. unfold splice. case_decide as H; [subst; slen|].
  autorewrite with len. unfold len in *. rewrite length_len. unfold len. lia.
Qed.

(** ** Filters *)

Lemma sublist_fmap {A B} (f : A -> B) l k : l `sublist_of` k -> f <$> l `sublist_of` f <$> k.
Proof. induction 1; rewrite ?fmap_cons; by constructor. Qed.

Lemma filter_id {A} (P : A -> Prop) `{!forall x, Decision (P x)} (l : list A) :
  Forall P l -> filter P l = l.
Proof. induction 1; [done|]. rewrite filter_cons_True by done. by f_equal. Qed.

Lemma filter_none {A} (P : A -> Prop) `{!forall x, Decision (P x)} (l : list A) :
  Forall (fun x => ~ P x) l -> filter P l = [].
Proof. induction 1; [done|]. by rewrite filter_cons_False. Qed.

Lemma filter_ext_in {A} (P Q : A -> Prop) `{!forall x, Decision (P x)} `{!forall x, Decision (Q x)}
    (l : list A) :
  (forall x, x ∈ l -> P x <-> Q x) -> filter P l = filter Q l.
Proof.
  induction l as [|x l IH]; intros HPQ; [done|]. rewrite !filter_cons, IH by set_solver.
  pose proof (HPQ x (list_elem_of_here _ _)). repeat case_decide; naive_solver.
Qed.

(** Elements with different images are told apart by them. *)
Lemma NoDup_fmap_inj {A B} (f : A -> B) (l : list A) x y :
  NoDup (f <$> l) -> x ∈ l -> y ∈ l -> f x = f y -> x = y.
Proof.
  intros Hn [i Hi]%list_elem_of_lookup [j Hj]%list_elem_of_lookup Hf.
  assert (i = j) as ->; [|by simplify_eq].
  eapply NoDup_lookup; [exact Hn| |]; rewrite list_lookup_fmap; [by rewrite Hi|by rewrite Hj, Hf].
Qed.

Lemma filter_fmap_eq {A} (P : A -> Prop) `{!forall x, Decision (P x)} (f : A -> A) (l : list A) :
  (forall x, P (f x) <-> P x) -> filter P (f <$> l) = f <$> filter P l.
Proof.
  intros Hf. induction l as [|x l IH]; [done|]. rewrite fmap_cons, !filter_cons, IH.
  repeat case_decide; naive_solver.
Qed.

Lemma existsb_fmap {A B} (P : B -> bool) (Q : A -> bool) (f : A -> B) (l : list A) :
  (forall x, P (f x) = Q x) -> existsb P (f <$> l) = existsb Q l.
Proof. intros Hf. induction l as [|x l IH]; [done|]. rewrite fmap_cons. simpl. by rewrite Hf, IH. Qed.

Lemma len_filter_fmap {A B} (P : B -> Prop) (Q : A -> Prop) `{!forall x, Decision (P x)}
    `{!forall x, Decision (Q x)} (f : A -> B) (l : list A) :
  (forall x, P (f x) <-> Q x) -> len (filter P (f <$> l)) = len (filter Q l).
Proof.
  intros Hf. induction l as [|x l IH]; [done|]. rewrite fmap_cons, !filter_cons.
  repeat case_decide; rewrite ?len_cons, ?IH; naive_solver.
Qed.
