(* ===== verification/Status.v ===== *)
(** * Status and Result (include/cortrix/common/status.h, result.h)

    The single error model of the code base, the stable [CX_ERR_*] identities
    of the two storage subsystems, and the outcome type of the byte-level
    readers, which adds the undefined outcome of a read outside its buffer.
    Only the fixed part of a message is kept: the text that [strerror] or an
    identifier adds after it is not modelled. *)
From S2P Require Import Prelude.

Inductive StatusCode :=
| kOk
| kInvalidArgument
| kNotFound
| kAlreadyExists
| kPermissionDenied
| kUnauthenticated
| kInternal
| kUnavailable.

#[export] Instance StatusCode_eq_dec : EqDecision StatusCode.
Proof. solve_decision. Defined.

Record Status := MkStatus { status_code : StatusCode; status_message : string }.

#[export] Instance Status_eq_dec : EqDecision Status.
Proof. solve_decision. Defined.

Definition Status_Ok : Status := MkStatus kOk "".
Definition status_ok (s : Status) : bool := bool_decide (status_code s = kOk).

(** [Status::Unavailable] and friends. *)
Definition Status_InvalidArgument (msg : string) : Status := MkStatus kInvalidArgument msg.
Definition Status_Internal (msg : string) : Status := MkStatus kInternal msg.
Definition Status_Unavailable (msg : string) : Status := MkStatus kUnavailable msg.

(** [Status::http_status]. *)
Definition http_status (s : Status) : Z :=
  match status_code s with
  | kOk => 200
  | kNotFound => 404
  | kInvalidArgument => 400
  | kInternal => 500
  | kUnauthenticated => 401
  | kPermissionDenied => 403
  | kUnavailable => 503
  | kAlreadyExists => 409
  end.

(** [std::string::find(needle) != npos]. *)
Fixpoint contains (needle hay : string) : bool :=
  String.prefix needle hay ||
  match hay with
  | EmptyString => false
  | String _ rest => contains needle rest
  end.

(** [Status::error_code_string]. *)
Definition error_code_string (s : Status) : string :=
  let msg := status_message s in
  match status_code s with
  | kOk => "OK"
  | kNotFound => "NOT_FOUND"
  | kInvalidArgument => "INVALID_ARGUMENT"
  | kInternal => "INTERNAL_ERROR"
  | kUnauthenticated =>
      if contains "expired" msg || contains "Expired" msg then "EXPIRED_API_KEY"
      else if contains "Invalid API key" msg || contains "invalid API key" msg
              || contains "Invalid api key" msg then "INVALID_API_KEY"
      else "UNAUTHORIZED"
  | kPermissionDenied =>
      if contains "namespace" msg || contains "Namespace" msg
      then "NAMESPACE_DENIED" else "FORBIDDEN"
  | kUnavailable => "SERVICE_UNAVAILABLE"
  | kAlreadyExists => "CONFLICT"
  end%string.

(** [Result<T>]: a value, or an error status. *)
Inductive Result (A : Type) :=
| Value (a : A)
| Error (s : Status).
Arguments Value {A} a.
Arguments Error {A} s.

Definition result_ok {A} (r : Result A) : bool :=
  match r with Value _ => true | Error _ => false end.

(** ** Identities of the storage errors *)

Module pwl_errors.
Definition kWriteFailed : string := "CX_ERR_PWL_WRITE_FAILED".
Definition kCorrupted : string := "CX_ERR_PWL_CORRUPTED".
Definition kTxnNotFound : string := "CX_ERR_PWL_TXN_NOT_FOUND".
Definition kTxnAlreadyCommitted : string := "CX_ERR_PWL_TXN_ALREADY_COMMITTED".
Definition kTxnAlreadyRollback : string := "CX_ERR_PWL_TXN_ALREADY_ROLLBACK".
Definition kRollbackCallbackFailed : string := "CX_ERR_PWL_ROLLBACK_CALLBACK_FAILED".
Definition kRecoveryFailed : string := "CX_ERR_PWL_RECOVERY_FAILED".
Definition kDocWriteInProgress : string := "CX_ERR_PWL_DOC_WRITE_IN_PROGRESS".
End pwl_errors.

Module phnsw_errors.
Definition kVectorDimMismatch : string := "CX_ERR_PHNSW_VECTOR_DIM_MISMATCH".
Definition kWalWriteFailed : string := "CX_ERR_PHNSW_WAL_WRITE_FAILED".
Definition kWalCorrupted : string := "CX_ERR_PHNSW_WAL_CORRUPTED".
Definition kWalSyncFailed : string := "CX_ERR_PHNSW_WAL_SYNC_FAILED".
Definition kSnapshotFailed : string := "CX_ERR_PHNSW_SNAPSHOT_FAILED".
Definition kSnapshotCorrupted : string := "CX_ERR_PHNSW_SNAPSHOT_CORRUPTED".
Definition kNotReady : string := "CX_ERR_PHNSW_NOT_READY".
End phnsw_errors.

(** [PwlStatus] and [PhnswStatus]: ["<code>: <detail>"]. *)
Definition PwlStatus (sc : StatusCode) (code detail : string) : Status :=
  MkStatus sc (code +:+ ": " +:+ detail)%string.
Definition PhnswStatus (sc : StatusCode) (code detail : string) : Status :=
  MkStatus sc (code +:+ ": " +:+ detail)%string.

(** ** Outcomes of a byte-level reader

    [Ret] and [Fail] are the two cases of a [Result]; [Undef] is a read outside
    the buffer. *)
Inductive Run (A : Type) :=
| Ret (a : A)
| Fail (s : Status)
| Undef.
Arguments Ret {A} a.
Arguments Fail {A} s.
Arguments Undef {A}.

Definition run_bind {A B} (m : Run A) (k : A -> Run B) : Run B :=
  match m with Ret a => k a | Fail s => Fail s | Undef => Undef end.

(** A raw load: outside the buffer it is undefined. *)
Definition load {A} (o : option A) : Run A :=
  match o with Some a => Ret a | None => Undef end.

(** An early [return error;] guarded by a condition. *)
Definition guard_err (bad : bool) (s : Status) : Run unit :=
  if bad then Fail s else Ret tt.

Declare Scope run_scope.
Delimit Scope run_scope with run.
Notation "'let!' x := m 'in' k" := (run_bind m (fun x => k))
  (at level 200, x pattern, m at level 100, k at level 200, right associativity) : run_scope.
Notation "'reject!' s 'when' c 'in' k" := (run_bind (guard_err c s) (fun _ => k))
  (at level 200, s at level 100, c at level 100, k at level 200,
   right associativity) : run_scope.

Definition run_defined {A} (m : Run A) : Prop :=
  match m with Undef => False | _ => True end.

Definition run_result {A} (m : Run A) : option (Result A) :=
  match m with Ret a => Some (Value a) | Fail s => Some (Error s) | Undef => None end.

Lemma run_bind_Ret {A B} (a : A) (k : A -> Run B) : run_bind (Ret a) k = k a.
Proof. reflexivity. Qed.

Lemma guard_err_false s {B} (k : unit -> Run B) :
  run_bind (guard_err false s) k = k tt.
Proof. reflexivity. Qed.

(** The failing reader of a guard: the only way to pass is [bad = false]. *)
Lemma guard_inv {B} bad s (k : unit -> Run B) b :
  run_bind (guard_err bad s) k = Ret b -> bad = false /\ k tt = Ret b.
Proof. destruct bad; simpl; [done|]. by split. Qed.

Lemma load_inv {A B} (o : option A) (k : A -> Run B) b :
  run_bind (load o) k = Ret b -> exists a, o = Some a /\ k a = Ret b.
Proof. destruct o; simpl; [|done]. eauto. Qed.

Lemma guard_defined {B} bad s (k : unit -> Run B) :
  (bad = false -> run_defined (k tt)) -> run_defined (run_bind (guard_err bad s) k).
Proof. destruct bad; simpl; auto. Qed.

Lemma load_defined {A B} (o : option A) (k : A -> Run B) :
  is_Some o -> (forall a, o = Some a -> run_defined (k a)) ->
  run_defined (run_bind (load o) k).
Proof. intros [a ->]. simpl. auto. Qed.

Lemma status_ok_PwlStatus sc c d : sc <> kOk -> status_ok (PwlStatus sc c d) = false.
Proof. intros. apply bool_decide_eq_false. done. Qed.
Lemma status_ok_PhnswStatus sc c d : sc <> kOk -> status_ok (PhnswStatus sc c d) = false.
Proof. intros. apply bool_decide_eq_false. done. Qed.

(** [pass] steps over a guard whose condition is false. *)
Ltac pass :=
  match goal with
  | |- context [run_bind (guard_err (?a <? ?b) ?s) ?k] =>
      replace (a <? b) with false by (symmetry; apply Z.ltb_ge; slen);
      rewrite (guard_err_false s k)
  | |- context [run_bind (guard_err false ?s) ?k] => rewrite (guard_err_false s k)
  end; cbv beta.

(** [defined] steps over the next guard or load of a [run_defined] goal,
    keeping what the guard established; a load leaves its bounds to prove. *)
Ltac defined :=
  match goal with
  | |- run_defined (run_bind (guard_err _ _) _) =>
      let H := fresh "G" in
      apply guard_defined; intros H; try apply Z.ltb_ge in H; cbv beta
  | |- run_defined (run_bind (load _) _) =>
      let a := fresh "v" in let H := fresh "L" in
      apply load_defined; [|intros a H; cbv beta]
  end.

Lemma run_bind_defined {A B} (m : Run A) (k : A -> Run B) :
  run_defined m -> (forall a, m = Ret a -> run_defined (k a)) -> run_defined (run_bind m k).
Proof. destruct m; simpl; auto. Qed.
