(* ===== verification/LittleEndian.v ===== *)
(** * Little-endian fields

    The [PutU16/32/64] and [GetU16/32/64] helpers that pending_entry.cpp,
    wal_entry.cpp, wal_writer.cpp, pending_log_writer.cpp and
    snapshot_manager.cpp each define in an anonymous namespace. *)
From S2P Require Import Prelude.

(** [for (i = 0; i < n; ++i) out.push_back((v >> (8 * i)) & 0xFF)]. *)
Definition put_le (n : Z) (v : Z) : bytes :=
  (fun i => Z.land (Z.shiftr v (8 * i)) 255) <$> seqZ 0 n.

(** [for (i = 0; i < n; ++i) v |= T(p[i]) << (8 * i)], from [v = 0]. *)
Definition get_le (p : bytes) : Z :=
  foldl Z.lor 0 (imap (fun i b => Z.shiftl b (8 * Z.of_nat i)) p).

Definition PutU8 (v : Z) : bytes := [u8 v].
Definition PutU16 (v : Z) : bytes := put_le 2 v.
Definition PutU32 (v : Z) : bytes := put_le 4 v.
Definition PutU64 (v : Z) : bytes := put_le 8 v.

(** [GetU*(data + off)]; a read outside the buffer is [None]. *)
Definition GetU8 (data : bytes) (off : Z) : option Z :=
  sub data off 1 ≫= head.
Definition GetU16 (data : bytes) (off : Z) : option Z := get_le <$> sub data off 2.
Definition GetU32 (data : bytes) (off : Z) : option Z := get_le <$> sub data off 4.
Definition GetU64 (data : bytes) (off : Z) : option Z := get_le <$> sub data off 8.

#[global] Arguments put_le : simpl never.
#[global] Arguments get_le : simpl never.
#[global] Arguments PutU8 : simpl never.
#[global] Arguments PutU16 : simpl never.
#[global] Arguments PutU32 : simpl never.
#[global] Arguments PutU64 : simpl never.
#[global] Arguments GetU8 : simpl never.
#[global] Arguments GetU16 : simpl never.
#[global] Arguments GetU32 : simpl never.
#[global] Arguments GetU64 : simpl never.

(** ** Structure of the two loops *)

Lemma seqZ_succ_fmap m n : seqZ (Z.succ m) n = Z.succ <$> seqZ m n.
Proof.
  unfold seqZ. rewrite <- list_fmap_compose. apply list_fmap_ext.
  intros. simpl. lia.
Qed.

Lemma put_le_0 v : put_le 0 v = [].
Proof. reflexivity. Qed.

Lemma put_le_succ n v :
  0 <= n -> put_le (Z.succ n) v = v mod 256 :: put_le n (v / 256).
Proof.
  intros. unfold put_le. rewrite seqZ_cons by lia. rewrite Z.pred_succ. simpl.
  f_equal.
  - rewrite Z.shiftr_0_r. change 255 with (Z.ones 8). by rewrite Z.land_ones.
  - rewrite (seqZ_succ_fmap 0), <- list_fmap_compose. apply list_fmap_ext.
    intros i x Hx. apply lookup_seqZ in Hx. simpl. f_equal.
    change 256 with (2 ^ 8). rewrite <- Z.shiftr_div_pow2, Z.shiftr_shiftr by lia.
    f_equal. lia.
Qed.

Lemma foldl_lor_acc (l : list Z) acc : foldl Z.lor acc l = Z.lor acc (foldl Z.lor 0 l).
Proof.
  revert acc. induction l as [|x l IH]; intros acc; cbn [foldl]; [by rewrite Z.lor_0_r|].
  rewrite Z.lor_0_l, (IH (Z.lor acc x)), (IH x). by rewrite Z.lor_assoc.
Qed.

Lemma foldl_lor_shiftl (l : list Z) k :
  foldl Z.lor 0 ((fun x => Z.shiftl x k) <$> l) = Z.shiftl (foldl Z.lor 0 l) k.
Proof.
  induction l as [|x l IH]; cbn [foldl fmap list_fmap]; [by rewrite Z.shiftl_0_l|].
  rewrite !Z.lor_0_l, (foldl_lor_acc _ x), (foldl_lor_acc _ (Z.shiftl x k)), IH.
  by rewrite Z.shiftl_lor.
Qed.

Lemma lor_shiftl_8 b x : 0 <= b < 256 -> 0 <= x -> Z.lor b (Z.shiftl x 8) = b + 256 * x.
Proof.
  intros Hb Hx.
  assert (Z.land b (Z.shiftl x 8) = 0) as Hd.
  { apply Z.bits_inj'. intros i Hi. rewrite Z.land_spec, Z.bits_0.
    destruct (decide (i < 8)).
    - rewrite (Z.shiftl_spec_low x) by lia. by rewrite andb_false_r.
    - rewrite <- (Z.mod_small b (2 ^ 8)) by lia.
      by rewrite Z.mod_pow2_bits_high by lia. }
  rewrite <- Z.lxor_lor, <- Z.add_nocarry_lxor by done.
  rewrite Z.shiftl_mul_pow2 by lia. lia.
Qed.

Lemma get_le_cons b p : get_le (b :: p) = Z.lor b (Z.shiftl (get_le p) 8).
Proof.
  unfold get_le. rewrite imap_cons. cbn [foldl].
  rewrite Z.lor_0_l, foldl_lor_acc, Z.mul_0_r, Z.shiftl_0_r. f_equal.
  rewrite <- foldl_lor_shiftl. f_equal. rewrite fmap_imap. apply imap_ext.
  intros i x _. simpl. rewrite Z.shiftl_shiftl by lia. f_equal. lia.
Qed.

Lemma get_le_range p : bytes_ok p -> 0 <= get_le p < 256 ^ len p.
Proof.
  induction 1 as [|b p Hb HF IH]; [done|].
  rewrite get_le_cons, lor_shiftl_8 by (unfold byte_ok in *; lia).
  rewrite len_cons, Z.pow_add_r by (pose proof (len_nonneg p); lia).
  unfold byte_ok in Hb. nia.
Qed.

(** ** Round trips *)

Lemma get_put_le n v : 0 <= n -> get_le (put_le n v) = v mod 256 ^ n.
Proof.
  intros Hn. revert v. pattern n. apply natlike_ind; [|clear n Hn|done].
  { intros v. by rewrite Z.mod_1_r. }
  intros n Hn IH v. rewrite put_le_succ, get_le_cons, IH by done.
  rewrite lor_shiftl_8; [| apply Z.mod_pos_bound; lia
                         | apply Z.mod_pos_bound; apply Z.pow_pos_nonneg; lia].
  rewrite Z.pow_succ_r by done.
  rewrite Z.rem_mul_r by (try apply Z.pow_nonzero; lia). lia.
Qed.

Lemma put_le_ok n v : bytes_ok (put_le n v).
Proof.
  unfold put_le, bytes_ok. apply Forall_fmap, Forall_forall. intros i _. simpl.
  change 255 with (Z.ones 8). rewrite Z.land_ones by lia. apply Z.mod_pos_bound. lia.
Qed.

Lemma len_put_le n v : 0 <= n -> len (put_le n v) = n.
Proof. intros. unfold put_le. by rewrite len_fmap, len_seqZ. Qed.

Lemma len_PutU8 v : len (PutU8 v) = 1.
Proof. reflexivity. Qed.
Lemma len_PutU16 v : len (PutU16 v) = 2.
Proof. by apply len_put_le. Qed.
Lemma len_PutU32 v : len (PutU32 v) = 4.
Proof. by apply len_put_le. Qed.
Lemma len_PutU64 v : len (PutU64 v) = 8.
Proof. by apply len_put_le. Qed.
#[export] Hint Rewrite len_PutU8 len_PutU16 len_PutU32 len_PutU64 : len.

Lemma get_PutU16 v : get_le (PutU16 v) = u16 v.
Proof. by apply get_put_le. Qed.
Lemma get_PutU32 v : get_le (PutU32 v) = u32 v.
Proof. by apply get_put_le. Qed.
Lemma get_PutU64 v : get_le (PutU64 v) = u64 v.
Proof. by apply get_put_le. Qed.

Lemma PutU8_ok v : bytes_ok (PutU8 v).
Proof. constructor; [|done]. apply Z.mod_pos_bound. done. Qed.

(** Reading back a field written at the offset it was appended at. *)
Lemma GetU8_put a v c off : off = len a -> GetU8 (a ++ PutU8 v ++ c) off = Some (u8 v).
Proof. intros. unfold GetU8. by rewrite (sub_app a (PutU8 v) c). Qed.
Lemma GetU16_put a v c off : off = len a -> GetU16 (a ++ PutU16 v ++ c) off = Some (u16 v).
Proof.
  intros. unfold GetU16. rewrite (sub_app a (PutU16 v) c) by (done || slen).
  simpl. by rewrite get_PutU16.
Qed.
Lemma GetU32_put a v c off : off = len a -> GetU32 (a ++ PutU32 v ++ c) off = Some (u32 v).
Proof.
  intros. unfold GetU32. rewrite (sub_app a (PutU32 v) c) by (done || slen).
  simpl. by rewrite get_PutU32.
Qed.
Lemma GetU64_put a v c off : off = len a -> GetU64 (a ++ PutU64 v ++ c) off = Some (u64 v).
Proof.
  intros. unfold GetU64. rewrite (sub_app a (PutU64 v) c) by (done || slen).
  simpl. by rewrite get_PutU64.
Qed.

(** Walking a right-nested concatenation of fields: skip the fields before the
    offset, then read the one at it. *)
Lemma sub_skip {A} (x r : list A) off n :
  0 <= off - len x -> sub (x ++ r) off n = sub r (off - len x) n.
Proof. intros. apply sub_shift; lia. Qed.
Lemma sub_head {A} (x r : list A) off n : off = 0 -> n = len x -> sub (x ++ r) off n = Some x.
Proof. intros -> ->. rewrite sub_app_l by lia. by apply sub_all. Qed.
Lemma GetU8_skip x r off : 0 <= off - len x -> GetU8 (x ++ r) off = GetU8 r (off - len x).
Proof. intros. unfold GetU8. by rewrite sub_skip. Qed.
Lemma GetU16_skip x r off : 0 <= off - len x -> GetU16 (x ++ r) off = GetU16 r (off - len x).
Proof. intros. unfold GetU16. by rewrite sub_skip. Qed.
Lemma GetU32_skip x r off : 0 <= off - len x -> GetU32 (x ++ r) off = GetU32 r (off - len x).
Proof. intros. unfold GetU32. by rewrite sub_skip. Qed.
Lemma GetU64_skip x r off : 0 <= off - len x -> GetU64 (x ++ r) off = GetU64 r (off - len x).
Proof. intros. unfold GetU64. by rewrite sub_skip. Qed.
Lemma GetU8_head v r off : off = 0 -> GetU8 (PutU8 v ++ r) off = Some (u8 v).
Proof. apply (GetU8_put []). Qed.
Lemma GetU16_head v r off : off = 0 -> GetU16 (PutU16 v ++ r) off = Some (u16 v).
Proof. apply (GetU16_put []). Qed.
Lemma GetU32_head v r off : off = 0 -> GetU32 (PutU32 v ++ r) off = Some (u32 v).
Proof. apply (GetU32_put []). Qed.
Lemma GetU64_head v r off : off = 0 -> GetU64 (PutU64 v ++ r) off = Some (u64 v).
Proof. apply (GetU64_put []). Qed.

(** [read_fields] evaluates the loads of a goal on such a concatenation. *)
Ltac read_fields :=
  repeat first
    [ rewrite GetU8_head by slen | rewrite GetU16_head by slen
    | rewrite GetU32_head by slen | rewrite GetU64_head by slen
    | rewrite sub_head by slen
    | rewrite GetU8_skip by slen | rewrite GetU16_skip by slen
    | rewrite GetU32_skip by slen | rewrite GetU64_skip by slen
    | rewrite sub_skip by slen ].

(** The loads succeed exactly inside the buffer, and yield a value of their width. *)
Lemma GetU8_is_Some d off : 0 <= off -> off + 1 <= len d -> is_Some (GetU8 d off).
Proof.
  intros. unfold GetU8. destruct (sub_is_Some d off 1) as [k Hk]; [lia..|].
  rewrite Hk. simpl. apply sub_Some_len in Hk. destruct k; [done|]. simpl. eauto.
Qed.
Lemma GetU16_is_Some d off : 0 <= off -> off + 2 <= len d -> is_Some (GetU16 d off).
Proof. intros. apply fmap_is_Some, sub_is_Some; lia. Qed.
Lemma GetU32_is_Some d off : 0 <= off -> off + 4 <= len d -> is_Some (GetU32 d off).
Proof. intros. apply fmap_is_Some, sub_is_Some; lia. Qed.
Lemma GetU64_is_Some d off : 0 <= off -> off + 8 <= len d -> is_Some (GetU64 d off).
Proof. intros. apply fmap_is_Some, sub_is_Some; lia. Qed.

Lemma get_sub_range d off n k :
  bytes_ok d -> sub d off n = Some k -> 0 <= get_le k < 256 ^ n.
Proof.
  intros Hd Hs. rewrite <- (sub_Some_len _ _ _ _ Hs).
  apply get_le_range. by eapply sub_Some_elem.
Qed.

Lemma GetU16_range d off v : bytes_ok d -> GetU16 d off = Some v -> 0 <= v < 2 ^ 16.
Proof. intros Hd (k & Hs & ->)%fmap_Some. by apply (get_sub_range d off 2). Qed.
Lemma GetU32_range d off v : bytes_ok d -> GetU32 d off = Some v -> 0 <= v < 2 ^ 32.
Proof. intros Hd (k & Hs & ->)%fmap_Some. by apply (get_sub_range d off 4). Qed.
Lemma GetU64_range d off v : bytes_ok d -> GetU64 d off = Some v -> 0 <= v < 2 ^ 64.
Proof. intros Hd (k & Hs & ->)%fmap_Some. by apply (get_sub_range d off 8). Qed.
#[export] Hint Resolve GetU8_is_Some GetU16_is_Some GetU32_is_Some GetU64_is_Some
  put_le_ok PutU8_ok : cortrix.

(** A decoded field is the only value whose encoding is those bytes. *)
Lemma put_get_le p : bytes_ok p -> put_le (len p) (get_le p) = p.
Proof.
  induction 1 as [|b p Hb HF IH]; [done|]. unfold byte_ok in *.
  pose proof (get_le_range p HF). pose proof (len_nonneg p).
  rewrite len_cons. replace (1 + len p) with (Z.succ (len p)) by lia.
  rewrite get_le_cons, lor_shiftl_8, put_le_succ by lia.
  replace (b + 256 * get_le p) with (b + get_le p * 256) by lia.
  rewrite Z.mod_add, Z.div_add by lia.
  rewrite (Z.mod_small b), (Z.div_small b), Z.add_0_l by lia. by rewrite IH.
Qed.
