(* ===== verification/Crc32.v ===== *)
(** * CRC-32 (src/store/group_commit_writer.cpp)

    The table-driven IEEE 802.3 checksum that frames every log record, its
    agreement with the bit-serial definition of the polynomial division, and
    what it detects: a change confined to one byte always changes the sum. *)
From S2P Require Import Prelude.

(** One turn of the table builder's inner loop:
    [c = (c & 1u) ? (0xEDB88320u ^ (c >> 1)) : (c >> 1)]. *)
Definition crc_bit (c : Z) : Z :=
  if bool_decide (Z.land c 1 = 0) then Z.shiftr c 1
  else Z.lxor 0xEDB88320 (Z.shiftr c 1).

(** The eight turns [for (k = 0; k < 8; ++k)]. *)
Definition crc_bits8 (c : Z) : Z := Nat.iter 8 crc_bit c.

Definition Crc32Table : list Z := crc_bits8 <$> seqZ 0 256.

(** [crc = table[(crc ^ data[i]) & 0xFFu] ^ (crc >> 8)]. *)
Definition crc_step (crc b : Z) : Z :=
  Z.lxor (default 0 (Crc32Table !! Z.to_nat (Z.land (Z.lxor crc b) 255)))
         (Z.shiftr crc 8).

Definition Crc32 (data : bytes) : Z :=
  Z.lxor (foldl crc_step 0xFFFFFFFF data) 0xFFFFFFFF.

#[global] Arguments Crc32 : simpl never.

(** The bit-serial reference: shift the message through the polynomial. *)
Definition crc_step_bits (crc b : Z) : Z := crc_bits8 (Z.lxor crc b).
Definition Crc32_reference (data : bytes) : Z :=
  Z.lxor (foldl crc_step_bits 0xFFFFFFFF data) 0xFFFFFFFF.

Example Crc32_check : Crc32 [49;50;51;52;53;54;55;56;57] = 0xCBF43926.
Proof. vm_compute. reflexivity. Qed.

(** ** The bit step is linear over exclusive or *)

Lemma land_1_odd c : Z.land c 1 = if Z.odd c then 1 else 0.
Proof.
  change 1 with (Z.ones 1) at 1. rewrite Z.land_ones by lia.
  change (2 ^ 1) with 2. rewrite Zmod_odd. done.
Qed.

Lemma crc_bit_odd c :
  crc_bit c = Z.lxor (if Z.odd c then 0xEDB88320 else 0) (Z.shiftr c 1).
Proof.
  unfold crc_bit. rewrite land_1_odd. destruct (Z.odd c); simpl; done.
Qed.

Lemma lxor_shuffle a b c d :
  Z.lxor (Z.lxor a b) (Z.lxor c d) = Z.lxor (Z.lxor a c) (Z.lxor b d).
Proof.
  rewrite !Z.lxor_assoc. f_equal. rewrite <- !Z.lxor_assoc. f_equal. apply Z.lxor_comm.
Qed.

Lemma crc_bit_lxor a b : crc_bit (Z.lxor a b) = Z.lxor (crc_bit a) (crc_bit b).
Proof.
  rewrite !crc_bit_odd, Z.shiftr_lxor, lxor_shuffle. f_equal.
  rewrite <- !Z.bit0_odd, Z.lxor_spec.
  destruct (Z.testbit a 0), (Z.testbit b 0); reflexivity.
Qed.

Lemma crc_bits8_lxor a b : crc_bits8 (Z.lxor a b) = Z.lxor (crc_bits8 a) (crc_bits8 b).
Proof. unfold crc_bits8. simpl. by rewrite !crc_bit_lxor. Qed.

(** Eight bit steps of a multiple of 256 only shift it. *)
Lemma crc_bit_even c : Z.odd c = false -> crc_bit c = Z.shiftr c 1.
Proof. intros H. by rewrite crc_bit_odd, H, Z.lxor_0_l. Qed.

Lemma crc_bits8_shiftl h : crc_bits8 (Z.shiftl h 8) = h.
Proof.
  unfold crc_bits8.
  assert (forall k, 0 < k -> crc_bit (Z.shiftl h k) = Z.shiftl h (k - 1)) as Hs.
  { intros k Hk. rewrite crc_bit_even.
    - rewrite Z.shiftr_shiftl_l by lia. done.
    - rewrite <- Z.bit0_odd. by apply Z.shiftl_spec_low. }
  simpl. rewrite !Hs by lia. apply Z.shiftl_0_r.
Qed.

Lemma split_low_byte c : c = Z.lxor (Z.land c 255) (Z.shiftl (Z.shiftr c 8) 8).
Proof.
  apply Z.bits_inj'. intros i Hi. rewrite Z.lxor_spec, Z.land_spec.
  change 255 with (Z.ones 8). destruct (decide (i < 8)).
  - rewrite Z.ones_spec_low, Z.shiftl_spec_low by lia. by destruct (Z.testbit c i).
  - rewrite Z.ones_spec_high, Z.shiftl_spec_high, Z.shiftr_spec by lia.
    rewrite andb_false_r, xorb_false_l. f_equal. lia.
Qed.

Lemma land_255_range c : 0 <= Z.land c 255 < 256.
Proof.
  change 255 with (Z.ones 8). rewrite Z.land_ones by lia. apply Z.mod_pos_bound. lia.
Qed.

Lemma Crc32Table_lookup i :
  0 <= i < 256 -> Crc32Table !! Z.to_nat i = Some (crc_bits8 i).
Proof.
  intros Hi. unfold Crc32Table. rewrite list_lookup_fmap.
  rewrite (proj2 (lookup_seqZ _ _ _ i)) by lia. done.
Qed.

Lemma crc_step_table crc b :
  crc_step crc b = Z.lxor (crc_bits8 (Z.land (Z.lxor crc b) 255)) (Z.shiftr crc 8).
Proof. unfold crc_step. by rewrite Crc32Table_lookup by apply land_255_range. Qed.

Lemma shiftr_lxor_byte c b : byte_ok b -> Z.shiftr (Z.lxor c b) 8 = Z.shiftr c 8.
Proof.
  intros Hb. rewrite Z.shiftr_lxor, (Z.shiftr_div_pow2 b) by lia.
  rewrite (Z.div_small b) by exact Hb. apply Z.lxor_0_r.
Qed.

Lemma crc_step_eq crc b : byte_ok b -> crc_step crc b = crc_step_bits crc b.
Proof.
  intros Hb. rewrite crc_step_table. unfold crc_step_bits.
  rewrite (split_low_byte (Z.lxor crc b)) at 2.
  rewrite crc_bits8_lxor, crc_bits8_shiftl. by rewrite shiftr_lxor_byte.
Qed.

Lemma crc_fold_eq data acc :
  bytes_ok data -> foldl crc_step acc data = foldl crc_step_bits acc data.
Proof.
  intros HF. revert acc. induction HF as [|b l Hb HF IH]; intros acc; [done|].
  simpl. by rewrite IH, crc_step_eq.
Qed.

(** The table-driven [Crc32] of the log framing computes the bit-serial
    CRC of the reflected polynomial 0xEDB88320 on every byte string. *)
Theorem Crc32_correct (data : bytes) :
  bytes_ok data -> Crc32 data = Crc32_reference data.
Proof. intros. unfold Crc32, Crc32_reference. by rewrite crc_fold_eq. Qed.

Lemma Crc32_correct_witness :
  bytes_ok [67; 82; 84; 88] /\ Crc32 [67; 82; 84; 88] = Crc32_reference [67; 82; 84; 88].
Proof.
  assert (bytes_ok [67; 82; 84; 88]) as H by (repeat constructor; done).
  split; [exact H | exact (Crc32_correct _ H)].
Defined.

(** ** Range *)

Lemma lxor_range a b n : 0 <= n -> 0 <= a < 2 ^ n -> 0 <= b < 2 ^ n -> 0 <= Z.lxor a b < 2 ^ n.
Proof.
  intros Hn Ha Hb. enough (Z.lxor a b = Z.lxor a b mod 2 ^ n) as ->.
  { apply Z.mod_pos_bound, Z.pow_pos_nonneg; lia. }
  apply Z.bits_inj'. intros i Hi. destruct (decide (i < n)).
  { by rewrite Z.mod_pow2_bits_low by lia. }
  rewrite Z.mod_pow2_bits_high, Z.lxor_spec by lia.
  rewrite <- (Z.mod_small a (2 ^ n)), <- (Z.mod_small b (2 ^ n)) by lia.
  by rewrite !Z.mod_pow2_bits_high by lia.
Qed.

Lemma shiftr_range c k n : 0 <= k -> 0 <= c < n -> 0 <= Z.shiftr c k < n.
Proof.
  intros Hk Hc. rewrite Z.shiftr_div_pow2 by done.
  pose proof (Z.pow_pos_nonneg 2 k ltac:(lia) Hk).
  split; [apply Z.div_pos; lia|]. apply Z.div_lt_upper_bound; nia.
Qed.

Lemma crc_bit_range c : 0 <= c < 2 ^ 32 -> 0 <= crc_bit c < 2 ^ 32.
Proof.
  intros Hc. rewrite crc_bit_odd. apply lxor_range; [lia|by destruct (Z.odd c)|].
  by apply shiftr_range.
Qed.

Lemma crc_bits8_range c : 0 <= c < 2 ^ 32 -> 0 <= crc_bits8 c < 2 ^ 32.
Proof. intros. unfold crc_bits8. simpl. by repeat apply crc_bit_range. Qed.

Lemma crc_step_range c b : 0 <= c < 2 ^ 32 -> 0 <= crc_step c b < 2 ^ 32.
Proof.
  intros Hc. rewrite crc_step_table. apply lxor_range; [lia| |].
  - apply crc_bits8_range. pose proof (land_255_range (Z.lxor c b)). lia.
  - by apply shiftr_range.
Qed.

Lemma crc_fold_range l acc :
  0 <= acc < 2 ^ 32 -> 0 <= foldl crc_step acc l < 2 ^ 32.
Proof.
  revert acc. induction l as [|b l IH]; intros acc Ha; [done|].
  simpl. apply IH. by apply crc_step_range.
Qed.

Lemma Crc32_range l : 0 <= Crc32 l < 2 ^ 32.
Proof. apply lxor_range; [lia| |lia]. apply crc_fold_range. lia. Qed.
#[export] Hint Resolve Crc32_range : cortrix.

(** ** Detection *)

(** The top byte of a table entry determines its index. *)
Definition table_top (i : Z) : Z := Z.shiftr (crc_bits8 i) 24.

Lemma table_top_NoDup : NoDup (table_top <$> seqZ 0 256).
Proof. apply (bool_decide_unpack _). vm_compute. exact I. Qed.

Lemma table_top_inj i j :
  0 <= i < 256 -> 0 <= j < 256 -> table_top i = table_top j -> i = j.
Proof.
  intros Hi Hj Heq.
  assert (forall k, 0 <= k < 256 ->
    (table_top <$> seqZ 0 256) !! Z.to_nat k = Some (table_top k)) as Hl.
  { intros k Hk. rewrite list_lookup_fmap.
    by rewrite (proj2 (lookup_seqZ _ _ _ k)) by lia. }
  enough (Z.to_nat i = Z.to_nat j) by lia.
  eapply NoDup_lookup; [exact table_top_NoDup|by apply Hl|rewrite Heq; by apply Hl].
Qed.

Lemma crc_step_top c b :
  0 <= c < 2 ^ 32 -> Z.shiftr (crc_step c b) 24 = table_top (Z.land (Z.lxor c b) 255).
Proof.
  intros Hc. rewrite crc_step_table, Z.shiftr_lxor, Z.shiftr_shiftr by lia.
  rewrite (Z.shiftr_div_pow2 c), Z.div_small by lia.
  unfold table_top. by rewrite Z.lxor_0_r.
Qed.

Lemma lxor_cancel_r a b c : Z.lxor a c = Z.lxor b c -> a = b.
Proof.
  intros H. apply (f_equal (fun x => Z.lxor x c)) in H.
  by rewrite !Z.lxor_assoc, Z.lxor_nilpotent, !Z.lxor_0_r in H.
Qed.

Lemma lxor_cancel_l a b c : Z.lxor c a = Z.lxor c b -> a = b.
Proof. rewrite !(Z.lxor_comm c). apply lxor_cancel_r. Qed.

Lemma land_lxor_distr a b c : Z.land (Z.lxor a b) c = Z.lxor (Z.land a c) (Z.land b c).
Proof.
  apply Z.bits_inj'. intros i _. rewrite Z.lxor_spec, !Z.land_spec, Z.lxor_spec.
  by destruct (Z.testbit a i), (Z.testbit b i), (Z.testbit c i).
Qed.

Lemma land_255_byte b : byte_ok b -> Z.land b 255 = b.
Proof.
  intros. change 255 with (Z.ones 8). rewrite Z.land_ones by lia. by apply Z.mod_small.
Qed.

Lemma crc_step_inj c c' b b' :
  0 <= c < 2 ^ 32 -> 0 <= c' < 2 ^ 32 -> crc_step c b = crc_step c' b' ->
  Z.land (Z.lxor c b) 255 = Z.land (Z.lxor c' b') 255 /\ Z.shiftr c 8 = Z.shiftr c' 8.
Proof.
  intros Hc Hc' H.
  assert (Z.land (Z.lxor c b) 255 = Z.land (Z.lxor c' b') 255) as Hidx.
  { apply table_top_inj; [apply land_255_range..|].
    rewrite <- !crc_step_top by done. by rewrite H. }
  split; [done|]. rewrite !crc_step_table, Hidx in H. by apply lxor_cancel_l in H.
Qed.

(** Different states stay different, whatever byte follows. *)
Lemma crc_step_state_inj c c' b :
  0 <= c < 2 ^ 32 -> 0 <= c' < 2 ^ 32 -> crc_step c b = crc_step c' b -> c = c'.
Proof.
  intros Hc Hc' [Hl Hh]%crc_step_inj; [|done..].
  rewrite (split_low_byte c), (split_low_byte c'), Hh. f_equal.
  rewrite !land_lxor_distr in Hl.
  by apply lxor_cancel_r in Hl.
Qed.

(** Different bytes lead to different states. *)
Lemma crc_step_byte_inj c b b' :
  0 <= c < 2 ^ 32 -> byte_ok b -> byte_ok b' -> crc_step c b = crc_step c b' -> b = b'.
Proof.
  intros Hc Hb Hb' [Hl _]%crc_step_inj; [|done..].
  rewrite !land_lxor_distr in Hl.
  apply lxor_cancel_l in Hl. by rewrite !land_255_byte in Hl.
Qed.

Lemma crc_fold_state_inj l c c' :
  0 <= c < 2 ^ 32 -> 0 <= c' < 2 ^ 32 ->
  foldl crc_step c l = foldl crc_step c' l -> c = c'.
Proof.
  revert c c'. induction l as [|b l IH]; intros c c' Hc Hc' H; [done|].
  simpl in H. apply IH in H; [|by apply crc_step_range..].
  by apply crc_step_state_inj in H.
Qed.

Lemma Crc32_byte_change (pre post : bytes) (x y : Z) :
  byte_ok x -> byte_ok y -> x <> y ->
  Crc32 (pre ++ x :: post) <> Crc32 (pre ++ y :: post).
Proof.
  intros Hx Hy Hne H. unfold Crc32 in H. apply lxor_cancel_r in H.
  rewrite !foldl_app in H. simpl in H.
  assert (0 <= foldl crc_step 0xFFFFFFFF pre < 2 ^ 32) as Hr by (apply crc_fold_range; lia).
  apply crc_fold_state_inj in H; [|by apply crc_step_range..].
  by apply crc_step_byte_inj in H.
Qed.

(** [Crc32] detects every corruption confined to a single byte: two
    strings that differ in exactly one byte have different checksums. *)
Theorem Crc32_detects_byte (pre post : bytes) (x y : Z) :
  byte_ok x -> byte_ok y -> x <> y ->
  Crc32 (pre ++ x :: post) <> Crc32 (pre ++ y :: post).
Proof. apply Crc32_byte_change. Qed.

Lemma Crc32_detects_byte_witness :
  byte_ok 84 /\ byte_ok 85 /\ Crc32 [67; 82; 84; 88] <> Crc32 [67; 82; 85; 88].
Proof.
  split; [done|]. split; [done|].
  apply (Crc32_detects_byte [67; 82] [88] 84 85); [done|done|lia].
Defined.

(** What a reader concludes from equal checksums of two same-length strings
    that agree everywhere but at one position. *)
Lemma Crc32_detects_insert (l : bytes) (i : nat) (x y : Z) :
  bytes_ok l -> l !! i = Some x -> byte_ok y -> x <> y ->
  Crc32 (<[i := y]> l) <> Crc32 l.
Proof.
  intros HF Hi Hy Hne. pose proof (lookup_lt_Some _ _ _ Hi).
  rewrite (insert_take_drop l i y) by done.
  rewrite <- (take_drop_middle l i x Hi) at 3.
  apply Crc32_byte_change; [done| |done].
  by eapply Forall_lookup_1.
Qed.
