(* ===== verification/Framing.v ===== *)
(** * Record framing shared by the two write-ahead logs

    Both pending.wal and hnsw.wal store a record as
    [u32 size | body | u32 crc], the size counting the body and the checksum.
    This file has the frame builder (wal_entry.cpp, [FrameFromBody]; the same
    three appends end [PendingEntry::Serialize]) and the facts a reader of a
    file image needs: where the parts of a frame are found inside a larger
    buffer, and that a damaged frame never passes the checksum. *)
From S2P Require Import Prelude LittleEndian Crc32.

Definition FrameFromBody (body : bytes) : bytes :=
  PutU32 (u32 (len body + 4)) ++ body ++ PutU32 (Crc32 body).

(** The reader's stop condition for a frame whose prefix is intact. *)
Definition frame_fits (body : bytes) : Prop := len body + 4 < 2 ^ 32.

Lemma len_FrameFromBody body : len (FrameFromBody body) = 8 + len body.
Proof. unfold FrameFromBody. slen. Qed.
#[export] Hint Rewrite len_FrameFromBody : len.

Lemma FrameFromBody_ok body : bytes_ok body -> bytes_ok (FrameFromBody body).
Proof.
  intros. unfold FrameFromBody, bytes_ok. rewrite !Forall_app.
  split; [apply put_le_ok|]. split; [done|apply put_le_ok].
Qed.

Section located.
Context (pre body post : bytes).
Let img : bytes := pre ++ FrameFromBody body ++ post.

Lemma frame_size off :
  frame_fits body -> off = len pre -> GetU32 img off = Some (len body + 4).
Proof.
  intros Hf Ho. unfold img, FrameFromBody. rewrite <- app_assoc.
  rewrite GetU32_put by done. unfold frame_fits in Hf.
  pose proof (len_nonneg body). by rewrite !(u32_small (len body + 4)) by lia.
Qed.

Lemma frame_body off n :
  off = len pre + 4 -> n = len body -> sub img off n = Some body.
Proof.
  intros -> ->. unfold img, FrameFromBody.
  replace (pre ++ (PutU32 (u32 (len body + 4)) ++ body ++ PutU32 (Crc32 body)) ++ post)
    with ((pre ++ PutU32 (u32 (len body + 4))) ++ body ++ (PutU32 (Crc32 body) ++ post))
    by (rewrite <- !app_assoc; done).
  apply sub_app; slen.
Qed.

Lemma frame_crc off :
  off = len pre + 4 + len body -> GetU32 img off = Some (Crc32 body).
Proof.
  intros ->. unfold img, FrameFromBody.
  replace (pre ++ (PutU32 (u32 (len body + 4)) ++ body ++ PutU32 (Crc32 body)) ++ post)
    with ((pre ++ PutU32 (u32 (len body + 4)) ++ body) ++ PutU32 (Crc32 body) ++ post)
    by (rewrite <- !app_assoc; done).
  rewrite GetU32_put by slen. rewrite u32_small by apply Crc32_range. done.
Qed.

(** A field inside the body is read as from the body alone. *)
Lemma frame_sub off k n :
  off = len pre + 4 + k -> 0 <= k -> k + n <= len body ->
  sub img off n = sub body k n.
Proof.
  intros -> Hk Hn. unfold img, FrameFromBody.
  rewrite (sub_shift pre _ _ (4 + k)) by lia.
  rewrite <- app_assoc, (sub_shift (PutU32 _) _ _ k) by (slen || lia).
  by rewrite <- app_assoc, sub_app_l.
Qed.

Lemma frame_U8 off k :
  off = len pre + 4 + k -> 0 <= k -> k + 1 <= len body -> GetU8 img off = GetU8 body k.
Proof. intros. unfold GetU8. by rewrite (frame_sub off k). Qed.
Lemma frame_U16 off k :
  off = len pre + 4 + k -> 0 <= k -> k + 2 <= len body -> GetU16 img off = GetU16 body k.
Proof. intros. unfold GetU16. by rewrite (frame_sub off k). Qed.
Lemma frame_U32 off k :
  off = len pre + 4 + k -> 0 <= k -> k + 4 <= len body -> GetU32 img off = GetU32 body k.
Proof. intros. unfold GetU32. by rewrite (frame_sub off k). Qed.
Lemma frame_U64 off k :
  off = len pre + 4 + k -> 0 <= k -> k + 8 <= len body -> GetU64 img off = GetU64 body k.
Proof. intros. unfold GetU64. by rewrite (frame_sub off k). Qed.

End located.

(** ** Damage

    [damaged body body' crc']: what is left of a frame's body and checksum
    after one byte of the two was changed. *)
Inductive damaged (body : bytes) : bytes -> bytes -> Prop :=
| damaged_body i x y :
    body !! i = Some x -> byte_ok y -> x <> y ->
    damaged body (<[i := y]> body) (PutU32 (Crc32 body))
| damaged_crc i x y :
    PutU32 (Crc32 body) !! i = Some x -> byte_ok y -> x <> y ->
    damaged body body (<[i := y]> (PutU32 (Crc32 body))).

Lemma bytes_ok_insert l i y : bytes_ok l -> byte_ok y -> bytes_ok (<[i := y]> l).
Proof. intros. by apply Forall_insert. Qed.

Lemma len_insert {A} (l : list A) i x : len (<[i := x]> l) = len l.
Proof. unfold len. by rewrite length_insert. Qed.
#[export] Hint Rewrite @len_insert : len.

Lemma damaged_len body body' crc' :
  damaged body body' crc' -> len body' = len body /\ len crc' = 4.
Proof. intros []; slen. Qed.

(** One damaged byte never leaves a body and checksum that agree. *)
Lemma damaged_crc_mismatch body body' crc' :
  bytes_ok body -> damaged body body' crc' -> get_le crc' <> Crc32 body'.
Proof.
  intros Hok []; [rewrite get_PutU32, u32_small by apply Crc32_range|].
  - intros Heq. by eapply Crc32_detects_insert.
  - intros Heq.
    assert (bytes_ok (<[i := y]> (PutU32 (Crc32 body)))) as Hb
      by (apply bytes_ok_insert; [apply put_le_ok|done]).
    pose proof (put_get_le _ Hb) as Hp. rewrite Heq in Hp.
    replace (len (<[i := y]> (PutU32 (Crc32 body)))) with 4 in Hp by slen.
    fold (PutU32 (Crc32 body)) in Hp. rewrite Hp in H at 1.
    rewrite list_lookup_insert_eq in H; [congruence|].
    rewrite <- Hp in H. by apply lookup_lt_Some in H.
Qed.
