(* ===== verification/PendingEntryCodec.v ===== *)
(** * Pending-write-log records (src/store/pending_entry.cpp)

    The transaction records of pending.wal and their codec.  Strings are byte
    lists.  [DeserializeFrom] is the reader of the recovery scan: it takes the
    whole file image and an offset, and reads every field through [load], so
    that a read outside the buffer would show up as [Undef]. *)
From S2P Require Import Prelude Status LittleEndian Crc32 Framing.
Open Scope run_scope.

Module PendingEntry.

Inductive State := kPending | kCommitted | kRollback.
Inductive Scope := kDocument | kBlocksOnly.

#[export] Instance State_eq_dec : EqDecision State.
Proof. solve_decision. Defined.
#[export] Instance Scope_eq_dec : EqDecision Scope.
Proof. solve_decision. Defined.

Record PendingEntry := MkPendingEntry {
  state : State;
  txn_id : Z;
  timestamp_ms : Z;
  doc_id : bytes;
  block_ids : list Z;
  has_blob : bool;
  scope : Scope
}.

#[export] Instance PendingEntry_eq_dec : EqDecision PendingEntry.
Proof. solve_decision. Defined.

(** [PendingEntry{}]. *)
Definition empty_entry : PendingEntry :=
  MkPendingEntry kPending 0 0 [] [] false kDocument.

(** The enumerators' underlying values. *)
Definition state_byte (s : State) : Z :=
  match s with kPending => 1 | kCommitted => 2 | kRollback => 3 end.
Definition scope_byte (s : Scope) : Z :=
  match s with kDocument => 0 | kBlocksOnly => 1 end.

Definition kSizePrefixLen : Z := 4.
Definition kChecksumLen : Z := 4.
Definition kBodyHeadLen : Z := 1 + 8 + 8 + 2.
Definition kBlockCountLen : Z := 4.

(** The CRC-covered body [Serialize] assembles. *)
Definition SerializeBody (e : PendingEntry) : bytes :=
  let is_pending := bool_decide (state e = kPending) in
  let did := if is_pending then doc_id e else [] in
  let block_count := if is_pending then len (block_ids e) else 0 in
  PutU8 (state_byte (state e))
  ++ PutU64 (txn_id e)
  ++ PutU64 (u64 (timestamp_ms e))
  ++ PutU16 (u16 (len did))
  ++ did
  ++ PutU32 (u32 block_count)
  ++ (if is_pending
      then concat (PutU64 <$> block_ids e)
           ++ PutU8 (if has_blob e then 1 else 0)
           ++ PutU8 (scope_byte (scope e))
      else []).

Definition Serialize (e : PendingEntry) : bytes :=
  let body := SerializeBody e in
  PutU32 (u32 (len body + kChecksumLen)) ++ body ++ PutU32 (Crc32 body).

(** [for (i = 0; i < block_count; ++i) push_back(GetU64(p + pos)); pos += 8]. *)
Fixpoint read_block_ids (data : bytes) (pos : Z) (count : nat) : Run (list Z) :=
  match count with
  | O => Ret []
  | S n =>
      let! b := load (GetU64 data pos) in
      let! rest := read_block_ids data (pos + 8) n in
      Ret (b :: rest)
  end.

Definition corrupted (detail : string) : Status :=
  PwlStatus kInternal pwl_errors.kCorrupted detail.

Definition state_of_byte (raw : Z) : State :=
  if decide (raw = 1) then kPending
  else if decide (raw = 2) then kCommitted else kRollback.

Definition DeserializeFrom (data : bytes) (offset : Z) : Run (PendingEntry * Z) :=
  let size := len data in
  let start := offset in
  reject! corrupted "truncated entry_size prefix" when size <? start + kSizePrefixLen in
  let! follow := load (GetU32 data start) in
  reject! corrupted "entry_size smaller than checksum" when follow <? kChecksumLen in
  let frame_end := start + kSizePrefixLen + follow in
  reject! corrupted "entry_size overruns buffer" when size <? frame_end in
  let body_begin := start + kSizePrefixLen in
  let body_len := follow - kChecksumLen in
  let! stored_crc := load (GetU32 data (body_begin + body_len)) in
  let! covered := load (sub data body_begin body_len) in
  let actual_crc := Crc32 covered in
  reject! corrupted "CRC mismatch" when negb (stored_crc =? actual_crc) in
  reject! corrupted "body shorter than header" when body_len <? kBodyHeadLen in
  let p := body_begin in
  let! raw_state := load (GetU8 data p) in
  reject! corrupted "unknown entry_type" when (raw_state <? 1) || (3 <? raw_state) in
  let st := state_of_byte raw_state in
  let! txn := load (GetU64 data (p + 1)) in
  let! ts := load (GetU64 data (p + 9)) in
  let! doc_id_len := load (GetU16 data (p + 17)) in
  let pos := 19 in
  reject! corrupted "doc_id overruns body" when body_len <? pos + doc_id_len + kBlockCountLen in
  let! did := load (sub data (p + pos) doc_id_len) in
  let pos := pos + doc_id_len in
  let! block_count := load (GetU32 data (p + pos)) in
  let pos := pos + kBlockCountLen in
  reject! corrupted "block_ids overrun body" when body_len <? pos + block_count * 8 in
  let! blocks := read_block_ids data (p + pos) (Z.to_nat block_count) in
  let pos := pos + block_count * 8 in
  let! tail :=
    (if decide (st = kPending) then
       reject! corrupted "has_blob overruns body" when body_len <? pos + 1 in
       let! hb := load (GetU8 data (p + pos)) in
       let pos := pos + 1 in
       if pos + 1 <=? body_len then
         let! sc := load (GetU8 data (p + pos)) in
         Ret (negb (hb =? 0), if decide (sc = scope_byte kBlocksOnly) then kBlocksOnly else kDocument)
       else Ret (negb (hb =? 0), kDocument)
     else Ret (false, kDocument)) in
  Ret (MkPendingEntry st txn (i64 ts) did blocks tail.1 tail.2, frame_end).

Definition Deserialize (data : bytes) : Run PendingEntry :=
  let! r := DeserializeFrom data 0 in
  reject! corrupted "trailing bytes after single entry" when negb (r.2 =? len data) in
  Ret r.1.

(** ** Well-formed records and what a record reads back as *)

Definition u64_ok (v : Z) : Prop := 0 <= v < 2 ^ 64.

(** The field widths of the C++ struct, and the two length fields that
    [Serialize] narrows: a doc_id fits its u16 length and the frame its u32
    size. *)
Record valid (e : PendingEntry) : Prop := {
  valid_txn : u64_ok (txn_id e);
  valid_ts : - 2 ^ 63 <= timestamp_ms e < 2 ^ 63;
  valid_doc : bytes_ok (doc_id e);
  valid_doc_len : len (doc_id e) < 2 ^ 16;
  valid_blocks : Forall u64_ok (block_ids e);
  valid_count : len (block_ids e) < 2 ^ 28
}.

(** A terminal record carries no payload. *)
Definition wire (e : PendingEntry) : PendingEntry :=
  match state e with
  | kPending => e
  | s => MkPendingEntry s (txn_id e) (timestamp_ms e) [] [] false kDocument
  end.

Lemma Serialize_frame e : Serialize e = FrameFromBody (SerializeBody e).
Proof. reflexivity. Qed.

Lemma len_concat_u64 (l : list Z) : len (concat (PutU64 <$> l)) = 8 * len l.
Proof. induction l as [|x l IH]; [done|]. rewrite fmap_cons, concat_cons. slen. Qed.
#[local] Hint Rewrite len_concat_u64 : len.

Lemma len_SerializeBody e :
  len (SerializeBody e) =
    match state e with
    | kPending => 25 + len (doc_id e) + 8 * len (block_ids e)
    | _ => 23
    end.
Proof. unfold SerializeBody. destruct (state e); simpl; slen. Qed.

Lemma concat_u64_ok (l : list Z) : bytes_ok (concat (PutU64 <$> l)).
Proof.
  induction l; [constructor|]. rewrite fmap_cons, concat_cons.
  rewrite bytes_ok_app. split; [apply put_le_ok|done].
Qed.

Lemma SerializeBody_ok e : valid e -> bytes_ok (SerializeBody e).
Proof.
  intros []. unfold SerializeBody. rewrite !bytes_ok_app.
  repeat split; try apply put_le_ok; try apply PutU8_ok.
  - case_bool_decide; [done|constructor].
  - case_bool_decide; [|constructor]. rewrite !bytes_ok_app.
    repeat split; try apply PutU8_ok. apply concat_u64_ok.
Qed.

Lemma Serialize_fits e : valid e -> frame_fits (SerializeBody e).
Proof.
  intros []. unfold frame_fits. rewrite len_SerializeBody.
  destruct (state e); lia.
Qed.

Lemma read_block_ids_put a l c off :
  Forall u64_ok l -> off = len a ->
  read_block_ids (a ++ concat (PutU64 <$> l) ++ c) off (length l) = Ret l.
Proof.
  intros HF. revert a off. induction HF as [|x l Hx HF IH]; intros a off ->; [done|].
  rewrite fmap_cons, concat_cons, <- app_assoc. cbn [read_block_ids length].
  rewrite GetU64_put by done. cbn [load run_bind].
  rewrite (u64_small x) by exact Hx.
  replace (a ++ PutU64 x ++ concat (PutU64 <$> l) ++ c)
    with ((a ++ PutU64 x) ++ concat (PutU64 <$> l) ++ c) by (by rewrite <- app_assoc).
  by rewrite IH by slen.
Qed.

(** [read_block_ids] stays inside the region the bounds check admitted. *)
Lemma read_block_ids_defined data pos n :
  0 <= pos -> pos + 8 * Z.of_nat n <= len data ->
  exists l, read_block_ids data pos n = Ret l.
Proof.
  revert pos. induction n as [|n IH]; intros pos Hp Hn; [by eexists|].
  simpl. destruct (GetU64_is_Some data pos) as [b ->]; [lia..|].
  destruct (IH (pos + 8)) as [l Hl]; [lia..|]. simpl. rewrite Hl. by eexists.
Qed.

(** ** Reading a frame *)

Lemma read_block_ids_shift a d off k n :
  off = len a + k -> 0 <= k -> read_block_ids (a ++ d) off n = read_block_ids d k n.
Proof.
  revert off k. induction n as [|n IH]; intros off k -> Hk; [done|]. simpl.
  unfold GetU64. rewrite (sub_shift a d _ k) by lia.
  destruct (get_le <$> sub d k 8); simpl; [|done]. by rewrite (IH _ (k + 8)) by lia.
Qed.

Lemma frame_read_blocks pre body post off k n :
  off = len pre + 4 + k -> 0 <= k -> k + 8 * Z.of_nat n <= len body ->
  read_block_ids (pre ++ FrameFromBody body ++ post) off n = read_block_ids body k n.
Proof.
  revert off k. induction n as [|n IH]; intros off k Ho Hk Hn; [done|].
  cbn [read_block_ids]. rewrite (frame_U64 pre body post off k) by lia.
  by rewrite (IH _ (k + 8)) by lia.
Qed.

(** What each field of a serialized body reads back as. *)
Lemma SerializeBody_wire e :
  SerializeBody e =
    PutU8 (state_byte (state e)) ++ PutU64 (txn_id e) ++ PutU64 (u64 (timestamp_ms e))
    ++ PutU16 (u16 (len (doc_id (wire e)))) ++ doc_id (wire e)
    ++ PutU32 (u32 (len (block_ids (wire e))))
    ++ concat (PutU64 <$> block_ids (wire e))
    ++ match state e with
       | kPending => PutU8 (if has_blob e then 1 else 0) ++ PutU8 (scope_byte (scope e))
       | _ => []
       end.
Proof. unfold SerializeBody, wire. destruct (state e); reflexivity. Qed.

Lemma wire_valid e : valid e -> valid (wire e).
Proof.
  intros []. unfold wire. destruct (state e); (constructor; simpl; try done; constructor).
Qed.

Lemma body_head e :
  valid e ->
  let body := SerializeBody e in
  let did := doc_id (wire e) in
  GetU8 body 0 = Some (state_byte (state e)) /\
  GetU64 body 1 = Some (txn_id e) /\
  GetU64 body 9 = Some (u64 (timestamp_ms e)) /\
  GetU16 body 17 = Some (len did) /\
  sub body 19 (len did) = Some did /\
  GetU32 body (19 + len did) = Some (len (block_ids (wire e))) /\
  read_block_ids body (23 + len did) (length (block_ids (wire e))) = Ret (block_ids (wire e)).
Proof.
  intros Hv%wire_valid body did. destruct Hv as [Htx Hts Hd Hdl Hb Hc].
  assert (txn_id (wire e) = txn_id e /\ timestamp_ms (wire e) = timestamp_ms e) as [Et Es]
    by (unfold wire; destruct (state e); done).
  rewrite Et in Htx. unfold body. rewrite SerializeBody_wire. fold did in Hd, Hdl |- *.
  set (bl := block_ids (wire e)) in *. pose proof (len_nonneg did). pose proof (len_nonneg bl).
  unfold u64_ok in Htx.
  split; [read_fields; by destruct (state e)|].
  split; [read_fields; by rewrite u64_small|].
  split; [read_fields; rewrite u64_small; [done|apply Z.mod_pos_bound; done]|].
  split; [read_fields; by rewrite !(u16_small (len did)) by lia|].
  split; [read_fields; done|].
  split; [read_fields; by rewrite !(u32_small (len bl)) by lia|].
  match goal with |- read_block_ids (?a ++ ?b ++ ?c ++ ?d ++ did ++ ?n ++ ?r) _ _ = _ =>
    replace (a ++ b ++ c ++ d ++ did ++ n ++ r) with ((a ++ b ++ c ++ d ++ did ++ n) ++ r)
      by (rewrite <- !app_assoc; done) end.
  apply read_block_ids_put; [done|slen].
Qed.

Lemma body_tail e :
  valid e -> state e = kPending ->
  let body := SerializeBody e in
  let pos := 23 + len (doc_id e) + len (block_ids e) * 8 in
  GetU8 body pos = Some (if has_blob e then 1 else 0) /\
  GetU8 body (pos + 1) = Some (scope_byte (scope e)).
Proof.
  intros _ Hp body pos. unfold body, pos. rewrite SerializeBody_wire. unfold wire. rewrite Hp.
  pose proof (len_nonneg (doc_id e)). pose proof (len_nonneg (block_ids e)).
  rewrite <- (app_nil_r (PutU8 (scope_byte _))).
  split; read_fields; [by destruct (has_blob e)|by destruct (scope e)].
Qed.

(** Roundtrip in place. *)
Lemma DeserializeFrom_Serialize pre e post :
  valid e ->
  DeserializeFrom (pre ++ Serialize e ++ post) (len pre)
  = Ret (wire e, len pre + len (Serialize e)).
Proof.
  intros Hv. pose proof (Serialize_fits e Hv) as Hf.
  destruct (body_head e Hv) as (R1 & R2 & R3 & R4 & R5 & R6 & R7).
  pose proof (body_tail e Hv) as Htail.
  rewrite Serialize_frame. set (body := SerializeBody e) in *.
  pose proof (len_SerializeBody e) as Hlb. fold body in Hlb.
  assert (23 + len (doc_id (wire e)) + 8 * len (block_ids (wire e)) <= len body) as Hlw.
  { unfold wire. destruct (state e); simpl; slen. }
  pose proof (len_nonneg (doc_id (wire e))). pose proof (len_nonneg (block_ids (wire e))).
  unfold DeserializeFrom, kSizePrefixLen, kChecksumLen, kBodyHeadLen, kBlockCountLen.
  pass. rewrite (frame_size pre body post) by done. cbn [load run_bind].
  pass. pass. replace (len body + 4 - 4) with (len body) by lia.
  rewrite (frame_crc pre body post) by lia.
  rewrite (frame_body pre body post) by lia. cbn [load run_bind].
  rewrite Z.eqb_refl. cbn [negb]. pass. pass.
  rewrite (frame_U8 pre body post _ 0), R1 by lia.
  rewrite (frame_U64 pre body post _ 1), R2 by lia.
  rewrite (frame_U64 pre body post _ 9), R3 by lia.
  rewrite (frame_U16 pre body post _ 17), R4 by lia. cbn [load run_bind].
  replace ((state_byte (state e) <? 1) || (3 <? state_byte (state e))) with false
    by (destruct (state e); done).
  pass. pass.
  rewrite (frame_sub pre body post _ 19), R5 by lia. cbn [load run_bind].
  rewrite (frame_U32 pre body post _ (19 + len (doc_id (wire e)))), R6 by lia.
  cbn [load run_bind]. pass.
  rewrite (frame_read_blocks pre body post _ (23 + len (doc_id (wire e)))) by lia.
  rewrite <- length_len, R7. cbn [run_bind].
  assert (state_of_byte (state_byte (state e)) = state e) as -> by (by destruct (state e)).
  rewrite len_FrameFromBody, i64_u64 by apply Hv.
  destruct (state e) eqn:Hst.
  - destruct (Htail eq_refl) as [T1 T2].
    assert (wire e = e) as Hw by (unfold wire; by rewrite Hst). rewrite Hw in *.
    rewrite decide_True by done. pass.
    rewrite (frame_U8 pre body post _ (19 + len (doc_id e) + 4 + len (block_ids e) * 8)) by lia.
    replace (19 + len (doc_id e) + 4 + len (block_ids e) * 8)
      with (23 + len (doc_id e) + len (block_ids e) * 8) by lia.
    rewrite T1. cbn [load run_bind].
    rewrite (proj2 (Z.leb_le _ _)) by lia.
    rewrite (frame_U8 pre body post _ (23 + len (doc_id e) + len (block_ids e) * 8 + 1)), T2 by lia.
    cbn [load run_bind fst snd]. f_equal. f_equal; [|lia].
    destruct e as [st tx ts di bl hb sc]; simpl in *. subst st.
    destruct hb, sc; reflexivity.
  - unfold wire. rewrite Hst, decide_False by done. cbn. do 2 f_equal. lia.
  - unfold wire. rewrite Hst, decide_False by done. cbn. do 2 f_equal. lia.
Qed.

(** C38: encode/decode round trip at any place of a file image: reading the
    frame [Serialize] produced, wherever it was appended, gives the entry back
    (a terminal record without its payload fields) and stops at its end. *)
Theorem PendingEntry_roundtrip (pre post : bytes) (e : PendingEntry) :
  valid e ->
  DeserializeFrom (pre ++ Serialize e ++ post) (len pre)
  = Ret (wire e, len pre + len (Serialize e)).
Proof. apply DeserializeFrom_Serialize. Qed.

Definition sample : PendingEntry :=
  MkPendingEntry kPending 7 1700000000000 [100; 49] [3; 2 ^ 63] true kBlocksOnly.

Lemma sample_valid : valid sample.
Proof. constructor; repeat constructor; unfold u64_ok; simpl; lia. Qed.

Lemma PendingEntry_roundtrip_witness :
  valid sample /\
  DeserializeFrom ([1; 2; 3] ++ Serialize sample ++ [9]) 3
  = Ret (wire sample, 3 + len (Serialize sample)).
Proof. split; [exact sample_valid|exact (PendingEntry_roundtrip [1; 2; 3] [9] sample sample_valid)]. Defined.

(** ** Memory safety *)

Lemma DeserializeFrom_defined (data : bytes) (offset : Z) :
  bytes_ok data -> 0 <= offset -> run_defined (DeserializeFrom data offset).
Proof.
  intros Hok Ho. unfold DeserializeFrom, kSizePrefixLen, kChecksumLen, kBodyHeadLen, kBlockCountLen.
  defined. defined; [apply GetU32_is_Some; lia|].
  apply GetU32_range in L as Hv; [|done].
  defined. defined.
  defined; [apply GetU32_is_Some; lia|].
  defined; [apply sub_is_Some; lia|].
  defined. defined.
  defined; [apply GetU8_is_Some; lia|].
  defined.
  defined; [apply GetU64_is_Some; lia|].
  defined; [apply GetU64_is_Some; lia|].
  defined; [apply GetU16_is_Some; lia|].
  apply GetU16_range in L5 as Hd; [|done].
  defined.
  defined; [apply sub_is_Some; lia|].
  defined; [apply GetU32_is_Some; lia|].
  apply GetU32_range in L7 as Hb; [|done].
  defined.
  edestruct read_block_ids_defined as [l ->]; [| |cbn [run_bind]]; [lia..|].
  apply run_bind_defined; [|by intros]. case_decide; [|exact I].
  defined. defined; [apply GetU8_is_Some; lia|].
  case_match; [|exact I]. defined; [apply GetU8_is_Some; lia|exact I].
Qed.

(** A successful read consumes a non-empty frame inside the buffer. *)
Lemma DeserializeFrom_progress data offset e next :
  bytes_ok data -> 0 <= offset ->
  DeserializeFrom data offset = Ret (e, next) -> offset + 8 <= next <= len data.
Proof.
  intros Hok Ho H. unfold DeserializeFrom, kSizePrefixLen, kChecksumLen in H.
  apply guard_inv in H as [G H]. apply Z.ltb_ge in G.
  apply load_inv in H as (follow & L & H). apply GetU32_range in L; [|done].
  apply guard_inv in H as [G1 H]. apply Z.ltb_ge in G1.
  apply guard_inv in H as [G2 H]. apply Z.ltb_ge in G2.
  enough (next = offset + 4 + follow) by lia.
  repeat first
    [ apply guard_inv in H as [_ H]
    | apply load_inv in H as (? & _ & H)
    | match type of H with run_bind ?m _ = _ => destruct m; simpl in H; [|done..] end ].
  by injection H as _ <-.
Qed.

(** Memory safety of the recovery reader: on an arbitrary byte image and
    offset, [DeserializeFrom] never reads outside the buffer; it returns an
    entry or a clean error. *)
Theorem PendingEntry_DeserializeFrom_safe (data : bytes) (offset : Z) :
  bytes_ok data -> 0 <= offset -> run_defined (DeserializeFrom data offset).
Proof. apply DeserializeFrom_defined. Qed.

Lemma PendingEntry_DeserializeFrom_safe_witness :
  run_defined (DeserializeFrom [255; 0; 0; 0; 1] 0).
Proof. apply PendingEntry_DeserializeFrom_safe; [repeat constructor; done|lia]. Defined.

(** ** Damage *)

(** Integrity of a stored record: after any one byte of the frame's body
    or checksum has changed on disk, the reader reports corruption; it never
    returns an altered entry. *)
Theorem PendingEntry_damage_detected (pre post body' crc' : bytes) (e : PendingEntry) :
  valid e -> damaged (SerializeBody e) body' crc' ->
  DeserializeFrom
    (pre ++ (PutU32 (u32 (len (SerializeBody e) + 4)) ++ body' ++ crc') ++ post) (len pre)
  = Fail (corrupted "CRC mismatch").
Proof.
  intros Hv Hd. pose proof (Serialize_fits e Hv) as Hf. unfold frame_fits in Hf.
  destruct (damaged_len _ _ _ Hd) as [Hl Hc].
  pose proof (damaged_crc_mismatch _ _ _ (SerializeBody_ok e Hv) Hd) as Hne.
  set (sz := len (SerializeBody e)) in *. pose proof (len_nonneg (SerializeBody e)).
  unfold DeserializeFrom, kSizePrefixLen, kChecksumLen.
  replace (pre ++ (PutU32 (u32 (sz + 4)) ++ body' ++ crc') ++ post)
    with (pre ++ PutU32 (u32 (sz + 4)) ++ body' ++ crc' ++ post)
    by (rewrite <- !app_assoc; done).
  pass. rewrite GetU32_put by done. rewrite !(u32_small (sz + 4)) by lia.
  cbn [load run_bind]. pass. pass. replace (sz + 4 - 4) with sz by lia.
  unfold GetU32. read_fields. cbn [load run_bind fmap option_fmap option_map].
  rewrite (proj2 (Z.eqb_neq _ _) Hne). reflexivity.
Qed.

Lemma PendingEntry_damage_detected_witness :
  valid sample /\
  DeserializeFrom
    ([] ++ (PutU32 (u32 (len (SerializeBody sample) + 4))
            ++ <[1%nat := 8]> (SerializeBody sample)
            ++ PutU32 (Crc32 (SerializeBody sample))) ++ [1]) 0
  = Fail (corrupted "CRC mismatch").
Proof.
  split; [exact sample_valid|].
  apply (PendingEntry_damage_detected [] [1]); [exact sample_valid|].
  apply (damaged_body _ 1 7 8); [reflexivity|done|lia].
Defined.

End PendingEntry.
