(* ===== verification/Posix.v ===== *)
(** * Files, system calls and crashes

    The part of POSIX the two logs rely on.  A file is its content on stable
    storage plus the writes and truncations issued since the last successful
    sync; a crash keeps any sub-sequence of those, a write possibly torn.
    Every system call takes its outcome from a script, so that a theorem over
    all scripts covers every combination of I/O faults, short transfers and
    interruptions.  An exhausted script means that the remaining calls
    succeed. *)
From S2P Require Import Prelude.

(** ** Files *)

Inductive wop :=
| WWrite (off : Z) (buf : bytes)
| WTrunc (n : Z).

Definition truncate_to (data : bytes) (n : Z) : bytes :=
  take (Z.to_nat n) data ++ replicate (Z.to_nat n - length data) 0.

Definition apply_wop (data : bytes) (w : wop) : bytes :=
  match w with
  | WWrite off buf => splice data off buf
  | WTrunc n => truncate_to data n
  end.

Record file := MkFile { f_durable : bytes; f_pending : list wop }.

(** What a reader of the file sees now. *)
Definition f_data (f : file) : bytes := foldl apply_wop (f_durable f) (f_pending f).

Definition f_do (f : file) (w : wop) : file := MkFile (f_durable f) (f_pending f ++ [w]).
Definition f_sync (f : file) : file := MkFile (f_data f) [].
Definition f_stored (data : bytes) : file := MkFile data [].

(** ** Crashes *)

Inductive survives : list wop -> list wop -> Prop :=
| survives_nil : survives [] []
| survives_kept w l l' : survives l l' -> survives (w :: l) (w :: l')
| survives_lost w l l' : survives l l' -> survives (w :: l) l'
| survives_torn off buf k l l' :
    survives l l' -> survives (WWrite off buf :: l) (WWrite off (take k buf) :: l').

(** [crash f img]: [img] can be the content of [f] after a power loss. *)
Definition crash (f : file) (img : bytes) : Prop :=
  exists l, survives (f_pending f) l /\ img = foldl apply_wop (f_durable f) l.

(** ** Scripted system calls *)

Inductive io :=
| IoOk            (* the call succeeds; a transfer is complete *)
| IoShort (n : Z) (* a transfer of about [n] bytes *)
| IoEintr         (* -1 with errno = EINTR *)
| IoErr.          (* -1 with any other errno *)

Notation script := (list io).

(** Outcome of a call that transfers no data. *)
Definition sys (s : script) : bool * script :=
  match s with
  | [] => (true, [])
  | (IoOk | IoShort _) :: s' => (true, s')
  | (IoErr | IoEintr) :: s' => (false, s')
  end.

(** [PwriteAll] (both logs): loop over short writes, retry EINTR.  The result
    says whether every byte was written. *)
Fixpoint PwriteAll (s : script) (f : file) (off : Z) (buf : bytes) : bool * file * script :=
  if decide (buf = []) then (true, f, s) else
  match s with
  | [] => (true, f_do f (WWrite off buf), [])
  | IoOk :: s' => (true, f_do f (WWrite off buf), s')
  | IoShort n :: s' =>
      let k := Z.to_nat (Z.min n (len buf)) in
      PwriteAll s' (f_do f (WWrite off (take k buf))) (off + Z.of_nat k) (drop k buf)
  | IoEintr :: s' => PwriteAll s' f off buf
  | IoErr :: s' => (false, f, s')
  end.

(** The [pread] loop of [ReadFileLocked]: [want] bytes are left to read at
    [done].  The kernel returns 0 only at end of file, which [want] excludes,
    so a short read transfers at least one byte. *)
Fixpoint PreadAll (s : script) (data : bytes) (done : nat) (want : nat) : option bytes * script :=
  match want with
  | O => (Some (take done data), s)
  | S _ =>
      match s with
      | [] => (Some data, [])
      | IoOk :: s' => (Some data, s')
      | IoShort n :: s' =>
          let k := Nat.min want (Nat.max 1 (Z.to_nat n)) in
          PreadAll s' data (done + k) (want - k)
      | IoEintr :: s' => PreadAll s' data done want
      | IoErr :: s' => (None, s')
      end
  end.

(** ** Facts *)

Lemma f_data_stored d : f_data (f_stored d) = d.
Proof. reflexivity. Qed.
Lemma f_data_do f w : f_data (f_do f w) = apply_wop (f_data f) w.
Proof. unfold f_data, f_do. simpl. by rewrite foldl_app. Qed.
Lemma f_data_sync f : f_data (f_sync f) = f_data f.
Proof. reflexivity. Qed.

Lemma truncate_to_le d n :
  0 <= n <= len d -> truncate_to d n = take (Z.to_nat n) d.
Proof.
  intros. unfold truncate_to, len in *.
  replace (Z.to_nat n - length d)%nat with O by lia. apply app_nil_r.
Qed.

Lemma truncate_to_prefix a b : truncate_to (a ++ b) (len a) = a.
Proof.
  rewrite truncate_to_le by slen. unfold len. by rewrite Nat2Z.id, take_app_length.
Qed.

(** A successful [PwriteAll] writes the buffer; a failed one writes some
    prefix of it.  Neither touches stable storage. *)
Lemma PwriteAll_spec s f off buf ok f' s' :
  PwriteAll s f off buf = (ok, f', s') ->
  0 <= off <= len (f_data f) ->
  f_durable f' = f_durable f /\
  exists k, f_data f' = splice (f_data f) off (take k buf) /\
            (ok = true -> take k buf = buf).
Proof.
  revert f off buf. induction s as [|e s IH]; intros f off buf H Ho; simpl in H;
    (destruct (decide (buf = [])) as [->|Hb];
     [injection H as <- <- <-; split; [done|]; exists O; split; [|done];
      unfold splice; by rewrite decide_True|]).
  { injection H as <- <- <-. split; [done|]. exists (length buf).
    rewrite f_data_do, firstn_all. done. }
  destruct e as [|n| |].
  - injection H as <- <- <-. split; [done|]. exists (length buf).
    rewrite f_data_do, firstn_all. done.
  - set (k := Z.to_nat (Z.min n (len buf))) in *.
    assert (k <= length buf)%nat as Hk by (unfold k, len; lia).
    assert (len (take k buf) = Z.of_nat k) as Hlk by (unfold len; rewrite length_take; lia).
    apply IH in H as (Hd & j & Hj & Hok).
    + split; [done|]. exists (k + j)%nat.
      rewrite Hj, f_data_do. simpl. rewrite <- Hlk, splice_splice by lia.
      assert (take k buf ++ take j (drop k buf) = take (k + j) buf) as Hc.
      { by rewrite <- take_take_drop. }
      rewrite Hc. split; [done|]. intros Ht. specialize (Hok Ht).
      rewrite <- Hc, Hok. apply take_drop.
    + rewrite f_data_do. simpl. rewrite len_splice by lia. slen.
  - by apply IH.
  - injection H as <- <- <-. split; [done|]. exists O. split; [|done].
    unfold splice. by rewrite decide_True.
Qed.

Lemma PwriteAll_nil f off buf :
  buf <> [] -> PwriteAll [] f off buf = (true, f_do f (WWrite off buf), []).
Proof. intros. simpl. by rewrite decide_False. Qed.

(** Appending at the end of the file. *)
Lemma PwriteAll_append s f buf ok f' s' :
  PwriteAll s f (len (f_data f)) buf = (ok, f', s') ->
  f_durable f' = f_durable f /\
  exists k, f_data f' = f_data f ++ take k buf /\ (ok = true -> take k buf = buf).
Proof.
  intros (Hd & k & Hk & Hok)%PwriteAll_spec; [|pose proof (len_nonneg (f_data f)); lia].
  split; [done|]. exists k. by rewrite Hk, splice_end.
Qed.

(** A whole-file read returns the file's content, or an error. *)
Lemma PreadAll_spec s data done want img s' :
  (done + want = length data)%nat ->
  PreadAll s data done want = (Some img, s') -> img = data.
Proof.
  revert done want. induction s as [|e s IH]; intros done want Hl H;
    destruct want as [|w]; cbn [PreadAll] in H.
  - injection H as <- <-. by rewrite take_ge by lia.
  - by injection H as <- <-.
  - injection H as <- <-. by rewrite take_ge by lia.
  - destruct e as [|n| |].
    + by injection H as <- <-.
    + eapply IH; [|exact H]. lia.
    + by eapply IH.
    + done.
Qed.

Lemma PreadAll_nil data : PreadAll [] data 0 (length data) = (Some data, []).
Proof. by destruct data. Qed.

(** ** Crash images *)

(** Writes at or after [n] leave the first [n] bytes alone. *)
Definition beyond (n : Z) (w : wop) : Prop :=
  match w with WWrite off _ => n <= off | WTrunc m => n <= m end.

Lemma take_splice n d off buf :
  Z.of_nat n <= off -> take n (splice d off buf) = take n (d ++ replicate (Z.to_nat off - length d) 0) \/ splice d off buf = d.
Proof.
  intros. unfold splice. case_decide; [by right|left].
  set (o := Z.to_nat off). assert (n <= o)%nat by lia.
  rewrite take_app_le by (rewrite length_take, length_app, length_replicate; lia).
  rewrite take_take. by replace (n `min` o)%nat with n by lia.
Qed.

Lemma apply_beyond n d w :
  (n <= length d)%nat -> beyond (Z.of_nat n) w ->
  take n (apply_wop d w) = take n d /\ (n <= length (apply_wop d w))%nat.
Proof.
  intros Hn Hb. destruct w as [off buf|m]; simpl in *.
  - destruct (take_splice n d off buf Hb) as [Ht| ->]; [|done].
    rewrite Ht, take_app_le by lia. split; [done|].
    rewrite take_app_le in Ht by lia. apply (f_equal length) in Ht.
    rewrite !length_take in Ht. lia.
  - unfold truncate_to. rewrite length_app, length_replicate, length_take.
    split; [|lia]. destruct (decide (Z.to_nat m <= length d)%nat).
    + rewrite take_app_le, take_take by (rewrite length_take; lia).
      by replace (n `min` Z.to_nat m)%nat with n by lia.
    + rewrite (take_ge d (Z.to_nat m)), take_app_le by lia. done.
Qed.

Lemma survives_beyond n l l' : survives l l' -> Forall (beyond n) l -> Forall (beyond n) l'.
Proof.
  induction 1; intros HF; [done| | |]; inversion HF; subst; auto.
Qed.

Lemma apply_all_beyond n d l :
  (n <= length d)%nat -> Forall (beyond (Z.of_nat n)) l ->
  take n (foldl apply_wop d l) = take n d.
Proof.
  intros Hn HF. revert d Hn. induction HF as [|w l Hw HF IH]; intros d Hn; [done|].
  simpl. destruct (apply_beyond n d w Hn Hw) as [Ht Hl]. by rewrite IH, Ht.
Qed.

(** After a crash of an append-only file, what was synced is still its prefix. *)
Lemma crash_prefix f img :
  crash f img -> Forall (beyond (len (f_durable f))) (f_pending f) ->
  exists junk, img = f_durable f ++ junk.
Proof.
  intros (l & Hs & ->) HF. eapply survives_beyond in HF; [|done].
  exists (drop (length (f_durable f)) (foldl apply_wop (f_durable f) l)).
  rewrite <- (take_drop (length (f_durable f)) (foldl apply_wop _ _)) at 1.
  f_equal. rewrite apply_all_beyond by done. apply firstn_all.
Qed.

Lemma crash_synced f img : f_pending f = [] -> crash f img -> img = f_durable f.
Proof. intros Hp (l & Hs & ->). rewrite Hp in Hs. by inversion Hs. Qed.

(** The writes [PwriteAll] issues: all at or after [off], with bytes of the
    buffer. *)
Lemma PwriteAll_pending s f off buf ok f' s' :
  PwriteAll s f off buf = (ok, f', s') -> bytes_ok buf -> 0 <= off ->
  exists ws, f_pending f' = f_pending f ++ ws /\
    Forall (fun w => exists o b, w = WWrite o b /\ off <= o /\ bytes_ok b) ws.
Proof.
  revert f off buf. induction s as [|e s IH]; intros f off buf H Hok Ho; simpl in H;
    (destruct (decide (buf = [])) as [->|Hb];
     [injection H as <- <- <-; exists []; rewrite app_nil_r; auto|]).
  { injection H as <- <- <-. eexists. split; [done|]. constructor; eauto 10 with lia. }
  destruct e as [|n| |].
  - injection H as <- <- <-. eexists. split; [done|]. constructor; eauto 10 with lia.
  - set (k := Z.to_nat (Z.min n (len buf))) in *.
    apply IH in H as (ws & Hw & HF); [|by apply Forall_drop|lia].
    exists (WWrite off (take k buf) :: ws). simpl in Hw. rewrite Hw, <- app_assoc.
    split; [done|]. constructor.
    + exists off, (take k buf). split; [done|]. split; [lia|]. by apply Forall_take.
    + eapply Forall_impl; [exact HF|]. simpl. intros w (o & b & -> & ? & ?).
      exists o, b. split; [done|]. split; [lia|done].
  - by eapply IH.
  - injection H as <- <- <-. exists []. rewrite app_nil_r; auto.
Qed.

Definition wop_ok (w : wop) : Prop :=
  match w with WWrite _ b => bytes_ok b | WTrunc _ => True end.

Lemma apply_wop_ok d w : bytes_ok d -> wop_ok w -> bytes_ok (apply_wop d w).
Proof.
  assert (forall n, bytes_ok (replicate n 0)) as Hz by (intros; by apply Forall_replicate).
  intros Hd Hw. destruct w as [off b|m]; simpl in *.
  - unfold splice. case_decide; [done|]. rewrite !bytes_ok_app. split; [|split; [done|by apply Forall_drop]].
    apply Forall_take. rewrite Forall_app. split; [done|apply Hz].
  - unfold truncate_to. apply bytes_ok_app. split; [by apply Forall_take|apply Hz].
Qed.

Lemma crash_ok f img :
  crash f img -> bytes_ok (f_durable f) -> Forall wop_ok (f_pending f) -> bytes_ok img.
Proof.
  intros (l & Hs & ->) Hd HF.
  assert (Forall wop_ok l) as HF'.
  { clear Hd. revert HF. induction Hs; intros HF; [done| | |]; inversion HF; subst; auto.
    constructor; [|auto]. simpl in *. by apply Forall_take. }
  clear Hs HF. revert Hd. generalize (f_durable f). induction HF' as [|w l Hw _ IH]; intros d Hd; [done|].
  simpl. apply IH. by apply apply_wop_ok.
Qed.

Lemma crash_nothing_lost f : f_pending f = [] -> crash f (f_data f).
Proof. intros H. exists []. rewrite H. unfold f_data. rewrite H. split; [constructor|done]. Qed.

(** The writes [PwriteAll] issues are pieces of the buffer, each at its place. *)
Definition piece (off : Z) (buf : bytes) (w : wop) : Prop :=
  exists o b, w = WWrite o b /\ off <= o /\ b `prefix_of` drop (Z.to_nat (o - off)) buf.

Lemma piece_shift off buf k w :
  piece (off + Z.of_nat k) (drop k buf) w -> piece off buf w.
Proof.
  intros (o & b & -> & Ho & Hb). exists o, b. split; [done|]. split; [lia|].
  rewrite drop_drop in Hb.
  by replace (k + Z.to_nat (o - (off + Z.of_nat k)))%nat with (Z.to_nat (o - off)) in Hb by lia.
Qed.

Lemma PwriteAll_pieces s f off buf ok f' s' :
  PwriteAll s f off buf = (ok, f', s') ->
  exists ws, f_pending f' = f_pending f ++ ws /\ Forall (piece off buf) ws.
Proof.
  assert (forall o b c, c `prefix_of` b -> piece o b (WWrite o c)) as Hhere.
  { intros o b c Hc. exists o, c. split; [done|]. split; [lia|]. by rewrite Z.sub_diag. }
  revert f off buf. induction s as [|e s IH]; intros f off buf H; simpl in H;
    (destruct (decide (buf = [])) as [->|Hb];
     [injection H as <- <- <-; exists []; rewrite app_nil_r; auto|]).
  { injection H as <- <- <-. eexists. split; [done|]. constructor; auto. }
  destruct e as [|n| |].
  - injection H as <- <- <-. eexists. split; [done|]. constructor; auto.
  - set (k := Z.to_nat (Z.min n (len buf))) in *. apply IH in H as (ws & Hw & HF).
    exists (WWrite off (take k buf) :: ws). simpl in Hw. rewrite Hw, <- app_assoc.
    split; [done|]. constructor; [apply Hhere; apply prefix_take|].
    eapply Forall_impl; [exact HF|]. intros w. apply piece_shift.
  - by eapply IH.
  - injection H as <- <- <-. exists []. rewrite app_nil_r; auto.
Qed.

Lemma piece_torn off buf o b k : piece off buf (WWrite o b) -> piece off buf (WWrite o (take k b)).
Proof.
  intros (o' & b' & [= <- <-] & Ho & Hb). exists o, (take k b). split; [done|]. split; [done|].
  etrans; [apply prefix_take|done].
Qed.

(** A piece written over the head of a file changes nothing behind the buffer,
    and only bytes in which the head differs from the buffer. *)
Lemma apply_piece buf h rest w :
  piece 0 buf w -> length h = length buf ->
  exists h', apply_wop (h ++ rest) w = h' ++ rest /\ length h' = length h /\
    forall i, h' !! i = h !! i \/ h' !! i = buf !! i.
Proof.
  intros (o & b & -> & Ho & Hb) Hl. rewrite Z.sub_0_r in Hb.
  destruct (decide (b = [])) as [->|Hne].
  { exists h. simpl. unfold splice. rewrite decide_True by done. auto. }
  set (k := Z.to_nat o) in *. pose proof (prefix_length _ _ Hb) as Hlen. rewrite length_drop in Hlen.
  assert (0 < length b)%nat by (destruct b; [done|simpl; lia]).
  exists (take k h ++ b ++ drop (k + length b) h). simpl. unfold splice. rewrite decide_False by done. fold k.
  assert (length (take k h) = k) as Htk by (rewrite length_take; lia).
  split; [|split].
  - replace (k - length (h ++ rest))%nat with O by (rewrite length_app; lia). simpl. rewrite app_nil_r.
    rewrite take_app_le by lia. rewrite drop_app_le by lia. by rewrite <- !app_assoc.
  - rewrite !length_app, length_drop, Htk. lia.
  - intros i. destruct (decide (i < k)%nat); [left; rewrite lookup_app_l, lookup_take_lt by lia; done|].
    rewrite lookup_app_r by lia. rewrite Htk.
    destruct (decide (i - k < length b)%nat).
    + right. rewrite lookup_app_l by lia. destruct Hb as [t Ht].
      assert (b !! (i - k)%nat = drop k buf !! (i - k)%nat) as -> by (rewrite Ht, lookup_app_l by lia; done).
      rewrite lookup_drop. f_equal. lia.
    + left. rewrite lookup_app_r, lookup_drop by lia. f_equal. lia.
Qed.
