(* ===== verification/GroupCommit.v ===== *)
(** * Group commit (src/store/group_commit_writer.cpp)

    [GroupCommitWriter] turns concurrent [Submit] calls into batches and runs
    one [WriteBatch] and one [Sync] of its sink per batch.  The sink is the
    interface [IWalSink]: a class of operations with the laws that a log file
    gives, so that the durability theorem is proved once, for both logs.

    The threads interleave at the mutex: [Submit], the worker's batch take, the
    worker's flush (which runs without the mutex), [Shutdown] and the worker's
    exit are the atomic steps of [step]. *)
From S2P Require Import Prelude Status.

(** [IWalSink]: [None] is an exception thrown by the sink. *)
Class IWalSink (K : Type) := {
  sink_WriteBatch : list bytes -> K -> option Status * K;
  sink_Sync : K -> option Status * K
}.

(** What the committer relies on.  [sink_written] is the log as a reader would
    see it now, [sink_durable] the part that survives a power loss. *)
Class IWalSinkLaws (K : Type) `{IWalSink K} := {
  sink_inv : K -> Prop;
  sink_written : K -> bytes;
  sink_durable : K -> bytes;
  sink_durable_prefix k : sink_inv k -> exists rest, sink_written k = sink_durable k ++ rest;
  sink_write_spec es k r k' :
    sink_inv k -> sink_WriteBatch es k = (r, k') ->
    sink_inv k' /\ sink_durable k' = sink_durable k /\
    (exists tail, sink_written k' = sink_written k ++ tail) /\
    (forall st, r = Some st -> status_ok st = true ->
       sink_written k' = sink_written k ++ concat es);
  sink_sync_spec k r k' :
    sink_inv k -> sink_Sync k = (r, k') ->
    sink_inv k' /\ sink_written k' = sink_written k /\
    (exists more, sink_durable k' = sink_durable k ++ more) /\
    (forall st, r = Some st -> status_ok st = true -> sink_durable k' = sink_written k)
}.

Module GroupCommitWriter.

Record GroupCommitStats := MkStats {
  submitted : Z;
  batches : Z;
  synced : Z;
  failed : Z;
  pending : Z
}.

(** A queued entry; the promise is identified by the number of the [Submit]
    call that made it. *)
Record Pending := MkPending { p_ticket : nat; p_bytes : bytes }.

Section writer.
Context {K : Type} `{Sink : IWalSink K}.

Record GroupCommitWriter := MkGCW {
  sink_ : K;
  max_batch_ : nat;
  queue_ : list Pending;
  inflight_ : list Pending;            (* the worker's local [batch] *)
  shutdown_ : bool;
  running_ : bool;                     (* the worker thread has not returned *)
  stats_ : GroupCommitStats;
  next_ticket_ : nat;
  resolved_ : list (nat * Status)      (* promises set so far, oldest first *)
}.

(** The constructor clamps [max_batch] to at least 1. *)
Definition Make (sink : K) (max_batch : Z) : GroupCommitWriter :=
  MkGCW sink (if max_batch <? 1 then 1%nat else Z.to_nat max_batch)
    [] [] false true (MkStats 0 0 0 0 0) 0 [].

Definition Submit (entry_bytes : bytes) (w : GroupCommitWriter) : nat * GroupCommitWriter :=
  let t := next_ticket_ w in
  if shutdown_ w then
    (t, MkGCW (sink_ w) (max_batch_ w) (queue_ w) (inflight_ w) (shutdown_ w) (running_ w)
          (stats_ w) (S t)
          (resolved_ w ++ [(t, Status_Unavailable "GroupCommitWriter is shut down")]))
  else
    let st := stats_ w in
    (t, MkGCW (sink_ w) (max_batch_ w) (queue_ w ++ [MkPending t entry_bytes]) (inflight_ w)
          (shutdown_ w) (running_ w)
          (MkStats (u64 (submitted st + 1)) (batches st) (synced st) (failed st) (pending st))
          (S t) (resolved_ w)).

Definition Shutdown (w : GroupCommitWriter) : GroupCommitWriter :=
  MkGCW (sink_ w) (max_batch_ w) (queue_ w) (inflight_ w) true (running_ w)
    (stats_ w) (next_ticket_ w) (resolved_ w).

Definition GetStats (w : GroupCommitWriter) : GroupCommitStats :=
  let st := stats_ w in
  MkStats (submitted st) (batches st) (synced st) (failed st) (len (queue_ w)).

(** The critical section of [FlushLoop]: move up to [max_batch_] entries from
    the front of the queue into the local batch. *)
Definition TakeBatch (w : GroupCommitWriter) : GroupCommitWriter :=
  let take_n := Nat.min (length (queue_ w)) (max_batch_ w) in
  MkGCW (sink_ w) (max_batch_ w) (drop take_n (queue_ w)) (take take_n (queue_ w))
    (shutdown_ w) (running_ w) (stats_ w) (next_ticket_ w) (resolved_ w).

(** [FlushBatch]: write, then sync only if the write succeeded; a throwing sink
    becomes an error status; every waiter gets the status of the batch. *)
Definition FlushBatch (w : GroupCommitWriter) : GroupCommitWriter :=
  let batch := inflight_ w in
  let '(wr, k1) := sink_WriteBatch (p_bytes <$> batch) (sink_ w) in
  let threw := Status_Unavailable "GroupCommitWriter sink threw during flush" in
  let '(st, k2) :=
    match wr with
    | None => (threw, k1)
    | Some s =>
        if status_ok s then
          let '(sr, k2) := sink_Sync k1 in (default threw sr, k2)
        else (s, k1)
    end in
  let c := stats_ w in
  let n := len batch in
  MkGCW k2 (max_batch_ w) (queue_ w) [] (shutdown_ w) (running_ w)
    (if status_ok st
     then MkStats (submitted c) (u64 (batches c + 1)) (u64 (synced c + n)) (failed c) (pending c)
     else MkStats (submitted c) (u64 (batches c + 1)) (synced c) (u64 (failed c + n)) (pending c))
    (next_ticket_ w) (resolved_ w ++ ((fun p => (p_ticket p, st)) <$> batch)).

(** The worker returns from [FlushLoop]. *)
Definition Exit (w : GroupCommitWriter) : GroupCommitWriter :=
  MkGCW (sink_ w) (max_batch_ w) (queue_ w) (inflight_ w) (shutdown_ w) false
    (stats_ w) (next_ticket_ w) (resolved_ w).

(** The interleavings.  A take needs a non-empty queue; how long the worker
    waits for the batch to fill is left open. *)
Inductive internal : GroupCommitWriter -> GroupCommitWriter -> Prop :=
| step_shutdown w : internal w (Shutdown w)
| step_take w :
    running_ w = true -> inflight_ w = [] -> queue_ w <> [] -> internal w (TakeBatch w)
| step_flush w :
    running_ w = true -> inflight_ w <> [] -> internal w (FlushBatch w)
| step_exit w :
    running_ w = true -> inflight_ w = [] -> queue_ w = [] -> shutdown_ w = true ->
    internal w (Exit w).

(** [run k m h w]: the writer made on sink [k] with batch bound [m] can be in
    state [w] after the [Submit] calls with the entries [h], in this order. *)
Inductive run (k : K) (m : Z) : list bytes -> GroupCommitWriter -> Prop :=
| run_make : run k m [] (Make k m)
| run_submit h w b : run k m h w -> run k m (h ++ [b]) (Submit b w).2
| run_internal h w w' : run k m h w -> internal w w' -> run k m h w'.

(** ** Every accepted entry is resolved exactly once, in order *)

(** The tickets of entries that were accepted and the ones refused because of
    the shutdown, both in call order. *)
Definition placed (w : GroupCommitWriter) : list nat :=
  (p_ticket <$> inflight_ w) ++ (p_ticket <$> queue_ w).

Record wf (w : GroupCommitWriter) : Prop := {
  wf_batch : (1 <= max_batch_ w)%nat;
  wf_once : NoDup ((resolved_ w).*1 ++ placed w);
  wf_all : forall t, (t < next_ticket_ w)%nat <-> t ∈ (resolved_ w).*1 ++ placed w;
  wf_fifo : StronglySorted lt (placed w);
  wf_stopped : running_ w = false -> placed w = [] /\ shutdown_ w = true
}.

Lemma placed_take w :
  inflight_ w = [] -> placed (TakeBatch w) = placed w.
Proof.
  intros Hi. unfold placed, TakeBatch. simpl. rewrite Hi. simpl.
  by rewrite <- fmap_app, take_drop.
Qed.

Lemma FlushBatch_resolved w :
  exists st, resolved_ (FlushBatch w) = resolved_ w ++ ((fun p => (p_ticket p, st)) <$> inflight_ w) /\
    queue_ (FlushBatch w) = queue_ w /\ inflight_ (FlushBatch w) = [] /\
    max_batch_ (FlushBatch w) = max_batch_ w /\ running_ (FlushBatch w) = running_ w /\
    shutdown_ (FlushBatch w) = shutdown_ w /\ next_ticket_ (FlushBatch w) = next_ticket_ w.
Proof.
  unfold FlushBatch. destruct (sink_WriteBatch _ _) as [wr k1].
  destruct wr as [s|]; [destruct (status_ok s); [destruct (sink_Sync k1)|]|]; eauto 10.
Qed.

Lemma StronglySorted_app_r {A} (R : A -> A -> Prop) l k :
  StronglySorted R (l ++ k) -> StronglySorted R k.
Proof. induction l; simpl; [done|]. inversion 1; auto. Qed.

Lemma StronglySorted_snoc (l : list nat) n :
  StronglySorted lt l -> Forall (fun m => m < n)%nat l -> StronglySorted lt (l ++ [n]).
Proof.
  induction 1 as [|a l Hs IH Ha]; intros Hn; simpl; [repeat constructor|].
  inversion Hn; subst. constructor; [auto|]. rewrite Forall_app. auto.
Qed.

Lemma wf_Make k m : wf (Make k m).
Proof.
  unfold Make. constructor; simpl; try done.
  - destruct (m <? 1) eqn:E; [lia|]. apply Z.ltb_ge in E. lia.
  - apply NoDup_nil_2.
  - intros t. split; [lia|]. by intros ?%not_elem_of_nil.
  - constructor.
Qed.

Lemma placed_submit b w :
  placed (Submit b w).2 = placed w ++ (if shutdown_ w then [] else [next_ticket_ w]).
Proof.
  unfold Submit, placed. destruct (shutdown_ w); simpl; [by rewrite app_nil_r|].
  by rewrite fmap_app, app_assoc.
Qed.

Lemma wf_Submit b w : wf w -> wf (Submit b w).2.
Proof.
  intros [Hb Ho Ha Hf Hs].
  assert ((resolved_ (Submit b w).2).*1 ++ placed (Submit b w).2
          ≡ₚ next_ticket_ w :: ((resolved_ w).*1 ++ placed w)) as Hp.
  { rewrite placed_submit. unfold Submit. destruct (shutdown_ w); simpl.
    - rewrite app_nil_r, fmap_app, <- app_assoc. simpl. by rewrite <- Permutation_middle.
    - by rewrite app_assoc, <- Permutation_cons_append. }
  assert (next_ticket_ (Submit b w).2 = S (next_ticket_ w)) as Hn
    by (unfold Submit; by destruct (shutdown_ w)).
  constructor.
  - unfold Submit. by destruct (shutdown_ w).
  - rewrite Hp. apply NoDup_cons_2; [|done]. intros Hin%Ha. lia.
  - intros t. rewrite Hp, Hn, elem_of_cons, <- Ha. lia.
  - rewrite placed_submit. destruct (shutdown_ w); [by rewrite app_nil_r|].
    apply StronglySorted_snoc; [done|]. apply Forall_forall. intros t Ht.
    apply Ha, elem_of_app. by right.
  - intros Hr. rewrite placed_submit. unfold Submit in *.
    destruct (shutdown_ w) eqn:E; simpl in *; [by rewrite app_nil_r; split; [apply Hs|]|].
    destruct (Hs Hr); congruence.
Qed.

Lemma wf_internal w w' : wf w -> internal w w' -> wf w'.
Proof.
  intros Hw Hstep. destruct Hstep as [w|w Hr Hi Hq|w Hr Hi|w Hr Hi Hq Hs].
  - destruct Hw. constructor; try done. intros Hr. by split; [apply wf_stopped0|].
  - pose proof (placed_take w Hi) as Hp. destruct Hw. constructor; rewrite ?Hp; try done.
  - destruct (FlushBatch_resolved w) as (st & Er & Eq & Ei & Em & Eru & Es & En).
    destruct Hw as [Hb Ho Ha Hf Hst].
    assert (placed (FlushBatch w) = p_ticket <$> queue_ w) as Ep
      by (unfold placed; by rewrite Eq, Ei).
    assert ((resolved_ (FlushBatch w)).*1 ++ placed (FlushBatch w)
            = (resolved_ w).*1 ++ placed w) as E.
    { rewrite Er, Ep, fmap_app, <- app_assoc. f_equal. unfold placed. f_equal.
      rewrite <- list_fmap_compose. by apply list_fmap_ext. }
    constructor; rewrite ?E, ?Em, ?En; try done.
    + rewrite Ep. by eapply StronglySorted_app_r.
    + rewrite Eru. congruence.
  - destruct Hw. constructor; try done. intros _. unfold placed. simpl.
    by rewrite Hi, Hq.
Qed.

Lemma wf_run k m h w : run k m h w -> wf w.
Proof. induction 1; [apply wf_Make|by apply wf_Submit|by eapply wf_internal]. Qed.

Lemma run_length k m h w : run k m h w -> next_ticket_ w = length h.
Proof.
  induction 1 as [|h w b H IH|h w w' H IH Hi]; [done| |].
  - rewrite length_app. unfold Submit. destruct (shutdown_ w); simpl; lia.
  - rewrite <- IH. destruct Hi; try done.
    by destruct (FlushBatch_resolved w) as (? & _ & _ & _ & _ & _ & _ & ->).
Qed.

(** In every interleaving, every promise handed out by [Submit] is in
    exactly one place: already resolved (once), in the worker's batch, or
    queued behind the earlier entries in submission order. *)
Theorem GroupCommit_exactly_once (k : K) (m : Z) (h : list bytes) (w : GroupCommitWriter) :
  run k m h w ->
  NoDup ((resolved_ w).*1 ++ placed w) /\
  (forall t, (t < length h)%nat <-> t ∈ (resolved_ w).*1 ++ placed w) /\
  StronglySorted lt (placed w).
Proof.
  intros H. rewrite <- (run_length _ _ _ _ H). by destruct (wf_run _ _ _ _ H).
Qed.

(** ** Shutdown drains *)

(** The worker alone, after [Shutdown]: take and flush until it returns. *)
Fixpoint drain (fuel : nat) (w : GroupCommitWriter) : GroupCommitWriter :=
  match fuel with
  | O => w
  | S n =>
      if decide (inflight_ w = []) then
        if decide (queue_ w = []) then Exit w else drain n (FlushBatch (TakeBatch w))
      else drain n (FlushBatch w)
  end.

Lemma TakeBatch_inflight w :
  wf w -> queue_ w <> [] -> inflight_ (TakeBatch w) <> [].
Proof.
  intros Hw Hq. unfold TakeBatch. simpl. destruct (queue_ w); [done|].
  destruct Hw. destruct (max_batch_ w); simpl; [lia|done].
Qed.

(** A run of [drain] is a run of the worker, and ends it. *)
Lemma drain_spec fuel w :
  wf w -> running_ w = true -> shutdown_ w = true ->
  (length (queue_ w) + (if decide (inflight_ w = []) then 0 else 1) < fuel)%nat ->
  rtc internal w (drain fuel w) /\ running_ (drain fuel w) = false.
Proof.
  revert w. induction fuel as [|n IH]; intros w Hw Hr Hs Hf; [lia|]. simpl.
  destruct (decide (inflight_ w = [])) as [Hi|Hi] in Hf |- *.
  - destruct (decide (queue_ w = [])) as [Hq|Hq].
    { split; [|done]. apply rtc_once. by constructor. }
    pose proof (TakeBatch_inflight w Hw Hq) as Hti.
    assert (internal w (TakeBatch w)) as S1 by (by constructor).
    assert (internal (TakeBatch w) (FlushBatch (TakeBatch w))) as S2 by (by constructor).
    assert (wf (TakeBatch w)) as Hw1 by (by eapply wf_internal).
    destruct (FlushBatch_resolved (TakeBatch w)) as (st & _ & Eq & Ei & _ & Eru & Es & _).
    destruct (IH (FlushBatch (TakeBatch w))) as [Hrtc Hrun].
    + by eapply wf_internal.
    + by rewrite Eru.
    + by rewrite Es.
    + rewrite Eq, Ei. rewrite decide_True by done. unfold TakeBatch. simpl.
      rewrite length_drop. pose proof (wf_batch w Hw).
      assert (length (queue_ w) <> 0%nat) by (by destruct (queue_ w)). lia.
    + split; [|done]. eapply rtc_l; [done|]. by eapply rtc_l.
  - assert (internal w (FlushBatch w)) as S2 by (by constructor).
    destruct (FlushBatch_resolved w) as (st & _ & Eq & Ei & _ & Eru & Es & _).
    destruct (IH (FlushBatch w)) as [Hrtc Hrun].
    + by eapply wf_internal.
    + by rewrite Eru.
    + by rewrite Es.
    + rewrite Eq, Ei. rewrite decide_True by done. lia.
    + split; [|done]. by eapply rtc_l.
Qed.

Lemma run_rtc k m h w w' : run k m h w -> rtc internal w w' -> run k m h w'.
Proof. intros H Hr. induction Hr; [done|]. apply IHHr. by eapply run_internal. Qed.

(** Shutting down loses nothing: from any reachable state, once [Shutdown]
    was called the worker terminates after at most one round per queued entry,
    and then every promise ever handed out has been resolved. *)
Theorem GroupCommit_shutdown_drains (k : K) (m : Z) (h : list bytes) (w : GroupCommitWriter) :
  run k m h w -> running_ w = true ->
  let w' := drain (length (queue_ w) + 2) (Shutdown w) in
  run k m h w' /\ running_ w' = false /\
  forall t, (t < length h)%nat -> t ∈ (resolved_ w').*1.
Proof.
  intros H Hr w'. assert (run k m h (Shutdown w)) as Hs
    by (eapply run_internal; [exact H|constructor]).
  destruct (drain_spec (length (queue_ w) + 2) (Shutdown w)) as [Hrtc Hrun]; try done.
  { by eapply wf_run. }
  { simpl. case_decide; lia. }
  assert (run k m h w') as H' by (by eapply run_rtc).
  split; [done|]. split; [done|]. intros t Ht.
  destruct (wf_run _ _ _ _ H') as [_ _ Ha _ Hst]. destruct (Hst Hrun) as [Hp _].
  rewrite Hp, app_nil_r in Ha. apply Ha. by rewrite (run_length _ _ _ _ H').
Qed.

(** ** An Ok future is durable *)

Context `{Laws : !IWalSinkLaws K}.

Definition stored_in (b d : bytes) : Prop := exists a c, d = a ++ b ++ c.

Lemma stored_in_app b d more : stored_in b d -> stored_in b (d ++ more).
Proof. intros (a & c & ->). exists a, (c ++ more). by rewrite <- !app_assoc. Qed.

Lemma stored_in_concat b l d : b ∈ l -> stored_in b (d ++ concat l).
Proof.
  intros (l1 & l2 & ->)%list_elem_of_split. exists (d ++ concat l1), (concat l2).
  by rewrite concat_app, concat_cons, <- !app_assoc.
Qed.

Record acked (h : list bytes) (w : GroupCommitWriter) : Prop := {
  ack_sink : sink_inv (sink_ w);
  ack_len : next_ticket_ w = length h;
  ack_placed : Forall (fun p => h !! p_ticket p = Some (p_bytes p)) (inflight_ w ++ queue_ w);
  ack_ok : Forall (fun r => status_ok r.2 = true ->
             exists b, h !! r.1 = Some b /\ stored_in b (sink_durable (sink_ w))) (resolved_ w)
}.

Lemma acked_submit h w b : acked h w -> acked (h ++ [b]) (Submit b w).2.
Proof.
  intros [Hk Hl Hp Ho].
  assert (forall t x, h !! t = Some x -> (h ++ [b]) !! t = Some x) as Hext
    by (intros t x Ht; by apply lookup_app_l_Some).
  assert (Forall (fun p => (h ++ [b]) !! p_ticket p = Some (p_bytes p)) (inflight_ w ++ queue_ w))
    as Hp' by (eapply Forall_impl; [exact Hp|auto]).
  assert (Forall (fun r => status_ok r.2 = true -> exists b0,
    (h ++ [b]) !! r.1 = Some b0 /\ stored_in b0 (sink_durable (sink_ w))) (resolved_ w)) as Ho'.
  { eapply Forall_impl; [exact Ho|]. simpl. intros r Hr Hs.
    destruct (Hr Hs) as (b0 & H1 & H2). eauto. }
  unfold Submit. destruct (shutdown_ w); constructor; simpl; try done.
  - rewrite length_app. simpl. lia.
  - apply Forall_app. split; [done|]. repeat constructor. done.
  - rewrite length_app. simpl. lia.
  - rewrite app_assoc. apply Forall_app. split; [done|]. repeat constructor. simpl.
    rewrite Hl. by apply list_lookup_middle.
Qed.

Lemma FlushBatch_sink w :
  sink_inv (sink_ w) ->
  sink_inv (sink_ (FlushBatch w)) /\
  (exists more, sink_durable (sink_ (FlushBatch w)) = sink_durable (sink_ w) ++ more) /\
  exists st,
    resolved_ (FlushBatch w) = resolved_ w ++ ((fun p => (p_ticket p, st)) <$> inflight_ w) /\
    (status_ok st = true ->
     sink_durable (sink_ (FlushBatch w)) =
       sink_written (sink_ w) ++ concat (p_bytes <$> inflight_ w)).
Proof.
  intros Hk. unfold FlushBatch. destruct (sink_WriteBatch _ _) as [wr k1] eqn:Ew.
  destruct (sink_write_spec _ _ _ _ Hk Ew) as (Hk1 & Hd1 & _ & Hw1).
  assert (exists more, sink_durable k1 = sink_durable (sink_ w) ++ more) as Hm1
    by (exists []; by rewrite app_nil_r).
  destruct wr as [s|]; simpl; [|split; [done|]; split; [done|]; eexists; split; [done|done]].
  destruct (status_ok s) eqn:Es; simpl;
    [|split; [done|]; split; [done|]; eexists; split; [done|congruence]].
  destruct (sink_Sync k1) as [sr k2] eqn:Ey. simpl.
  destruct (sink_sync_spec _ _ _ Hk1 Ey) as (Hk2 & Hw2 & Hm2 & Hd2).
  split; [done|]. rewrite Hd1 in Hm2. split; [done|].
  eexists. split; [done|]. intros Hs. destruct sr as [st|]; [|done].
  rewrite (Hd2 st eq_refl Hs). by apply (Hw1 s).
Qed.

Lemma acked_internal h w w' : acked h w -> internal w w' -> acked h w'.
Proof.
  intros [Hk Hl Hp Ho] Hi. destruct Hi as [w|w Hr Hi Hq|w Hr Hi|w Hr Hi Hq Hs].
  - by constructor.
  - constructor; try done. unfold TakeBatch. simpl. rewrite Hi in Hp. simpl in Hp.
    by rewrite take_drop.
  - destruct (FlushBatch_sink w Hk) as (Hk' & [more Hm] & st & Er & Hst).
    destruct (FlushBatch_resolved w) as (st' & _ & Eq & Ei & _ & _ & _ & En).
    apply Forall_app in Hp as [Hpi Hpq].
    constructor; [done|by rewrite En|by rewrite Eq, Ei|].
    rewrite Er. apply Forall_app. split.
    + eapply Forall_impl; [exact Ho|]. simpl. intros r Hr' Hs.
      destruct (Hr' Hs) as (b & H1 & H2). exists b. split; [done|].
      rewrite Hm. by apply stored_in_app.
    + apply Forall_fmap. rewrite Forall_forall in Hpi |- *.
      simpl. intros p Hin Hs. pose proof (Hpi p Hin) as Hlk. exists (p_bytes p). split; [done|].
      rewrite (Hst Hs). apply stored_in_concat. by apply list_elem_of_fmap_2.
  - by constructor.
Qed.

Lemma acked_run k m h w : sink_inv k -> run k m h w -> acked h w.
Proof.
  intros Hk. induction 1.
  - constructor; simpl; try done; constructor.
  - by apply acked_submit.
  - by eapply acked_internal.
Qed.

(** C6: durability handoff: whatever the interleaving and whatever faults the
    sink reports, a promise resolved with an Ok status means that the entry
    its [Submit] was called with is contained in the sink's stable storage. *)
Theorem GroupCommit_ok_is_durable
    (k : K) (m : Z) (h : list bytes) (w : GroupCommitWriter) (t : nat) (st : Status) :
  sink_inv k -> run k m h w -> (t, st) ∈ resolved_ w -> status_ok st = true ->
  exists b, h !! t = Some b /\ stored_in b (sink_durable (sink_ w)).
Proof.
  intros Hk H Hin Hs. destruct (acked_run _ _ _ _ Hk H) as [_ _ _ Ho].
  rewrite Forall_forall in Ho. by apply (Ho (t, st)).
Qed.

End writer.
Arguments GroupCommitWriter K : clear implicits.
End GroupCommitWriter.
