(* ===== verification/PendingLog.v ===== *)
(** * The pending write log file (src/store/pending_log_writer.cpp)

    [PendingLogWriter] owns pending.wal: a 32-byte header followed by framed
    records.  Its state is the file behind [fd_], the file the path names when
    a failed reopen after [Compact] made the two differ, the cached size, the
    fault-injection counter and the script of I/O outcomes.  The file mutex
    makes every method one atomic step. *)
From S2P Require Import Prelude Status LittleEndian Crc32 Framing PendingEntryCodec Posix GroupCommit.
Open Scope run_scope.

Module PendingLogWriter.
Import PendingEntry.

Definition kMagic : bytes := [80; 87; 76; 71]. (* "PWLG" *)
Definition kVersion : Z := 1.
Definition kHeaderSize : Z := 32.

(** magic(4) version(2) reserved(22) header_crc(4). *)
Definition MakeHeader : bytes :=
  let h := kMagic ++ PutU16 kVersion ++ replicate 22 0 in
  h ++ PutU32 (Crc32 h).

Record PendingLogWriter := MkPLW {
  fd_ : file;
  path_ : option file;  (* what the path names, when not [fd_]'s inode *)
  file_size_ : Z;
  append_failures_ : Z;
  io_ : script
}.

Definition write_failed (detail : string) : Status :=
  PwlStatus kUnavailable pwl_errors.kWriteFailed detail.

(** The header checks of [Open] on an existing file. *)
Definition CheckHeader (hdr : bytes) : Run unit :=
  let! magic := load (sub hdr 0 4) in
  reject! corrupted "bad WAL magic" when negb (bool_decide (magic = kMagic)) in
  let! version := load (GetU16 hdr 4) in
  reject! corrupted "unsupported WAL version" when negb (version =? kVersion) in
  let! crc := load (GetU32 hdr 28) in
  let! covered := load (sub hdr 0 28) in
  reject! corrupted "header CRC mismatch" when negb (crc =? Crc32 covered) in
  Ret tt.

(** [PendingLogWriter::Open] on the file [f] found at the path (the empty file
    if there was none); on an error the file may have been written to. *)
Definition Open (f : file) (s : script) : Run PendingLogWriter * file * script :=
  let '(ok, s) := sys s in
  if negb ok then (Fail (write_failed "open "), f, s) else
  let '(ok, s) := sys s in
  if negb ok then (Fail (write_failed "lseek: "), f, s) else
  let size := len (f_data f) in
  if size =? 0 then
    let '(ok, f, s) := PwriteAll s f 0 MakeHeader in
    if negb ok then (Fail (write_failed "pwrite: "), f, s) else
    let '(ok, s) := sys s in
    if negb ok then (Fail (write_failed "sync header: "), f, s) else
    let f := f_sync f in
    (Ret (MkPLW f None kHeaderSize 0 s), f, s)
  else if size <? kHeaderSize then
    (Fail (corrupted "pending.wal smaller than header"), f, s)
  else
    (* one pread of the header: anything but 32 bytes is an error *)
    let '(full, s) :=
      match s with
      | [] => (true, [])
      | IoOk :: s' => (true, s')
      | IoShort n :: s' => (kHeaderSize <=? n, s')
      | (IoEintr | IoErr) :: s' => (false, s')
      end in
    if negb full then (Fail (write_failed "short header read"), f, s) else
    (let! hdr := load (sub (f_data f) 0 kHeaderSize) in
     let! _ := CheckHeader hdr in
     Ret (MkPLW f None size 0 s), f, s).

Definition set_io (w : PendingLogWriter) (s : script) : PendingLogWriter :=
  MkPLW (fd_ w) (path_ w) (file_size_ w) (append_failures_ w) s.
Definition set_fd (w : PendingLogWriter) (f : file) (s : script) : PendingLogWriter :=
  MkPLW f (path_ w) (file_size_ w) (append_failures_ w) s.

(** The record loop of [WriteBatch]: [off] advances by each record's size. *)
Fixpoint WriteRecords (entries : list bytes) (off : Z) (w : PendingLogWriter)
    : Status * Z * PendingLogWriter :=
  match entries with
  | [] => (Status_Ok, off, w)
  | e :: rest =>
      let '(ok, f, s) := PwriteAll (io_ w) (fd_ w) off e in
      let w := set_fd w f s in
      if ok then WriteRecords rest (off + len e) w
      else (write_failed "pwrite: ", off, w)
  end.

Definition WriteBatch (entries : list bytes) (w : PendingLogWriter) : Status * PendingLogWriter :=
  let '(ok, s) := sys (io_ w) in
  let w := set_io w s in
  if negb ok then (write_failed "lseek end: ", w) else
  let '(st, off, w) := WriteRecords entries (len (f_data (fd_ w))) w in
  if status_ok st
  then (Status_Ok, MkPLW (fd_ w) (path_ w) off (append_failures_ w) (io_ w))
  else (st, w).

Definition Sync (w : PendingLogWriter) : Status * PendingLogWriter :=
  let '(ok, s) := sys (io_ w) in
  if ok then (Status_Ok, set_fd w (f_sync (fd_ w)) s)
  else (write_failed "sync: ", set_io w s).

Definition TryConsumeInjectedFault (w : PendingLogWriter) : bool * PendingLogWriter :=
  if 0 <? append_failures_ w
  then (true, MkPLW (fd_ w) (path_ w) (file_size_ w) (append_failures_ w - 1) (io_ w))
  else (false, w).

(** [Append] of a caller with no other append in flight: the committer flushes
    a batch of one, [WriteBatch] then [Sync] (see [Append_group_commit]). *)
Definition Append (entry : PendingEntry) (w : PendingLogWriter) : Status * PendingLogWriter :=
  let '(fault, w) := TryConsumeInjectedFault w in
  if fault then (write_failed "injected append failure", w) else
  let '(st, w) := WriteBatch [Serialize entry] w in
  if status_ok st then Sync w else (st, w).

(** The submit loop of [AppendBatch]: the frames submitted and the first error. *)
Fixpoint SubmitAll (entries : list PendingEntry) (w : PendingLogWriter)
    : list bytes * Status * PendingLogWriter :=
  match entries with
  | [] => ([], Status_Ok, w)
  | e :: rest =>
      let '(fault, w) := TryConsumeInjectedFault w in
      let '(fs, err, w) := SubmitAll rest w in
      if fault then (fs, write_failed "injected append failure", w) else (Serialize e :: fs, err, w)
  end.

(** The batches flushed in order; every future is waited for. *)
Fixpoint FlushAll (batches : list (list bytes)) (w : PendingLogWriter) : Status * PendingLogWriter :=
  match batches with
  | [] => (Status_Ok, w)
  | b :: rest =>
      let '(st, w) := WriteBatch b w in
      let '(st, w) := if status_ok st then Sync w else (st, w) in
      let '(st', w) := FlushAll rest w in
      (if status_ok st then st' else st, w)
  end.

(** [batching] is how the committer cuts the submitted frames into batches. *)
Definition AppendBatch (batching : list bytes -> list (list bytes)) (entries : list PendingEntry)
    (w : PendingLogWriter) : Status * PendingLogWriter :=
  let '(fs, first_err, w) := SubmitAll entries w in
  let '(st, w) := FlushAll (batching fs) w in
  (if status_ok first_err then st else first_err, w).

Definition ReadFileLocked (w : PendingLogWriter) : Run bytes * PendingLogWriter :=
  let '(ok, s) := sys (io_ w) in
  if negb ok then (Fail (write_failed "lseek: "), set_io w s) else
  let data := f_data (fd_ w) in
  let '(r, s) := PreadAll s data 0 (length data) in
  match r with
  | Some buf => (Ret buf, set_io w s)
  | None => (Fail (write_failed "pread: "), set_io w s)
  end.

(** The [while (off < image.size())] loop of [ScanRecords]. *)
Fixpoint scan_from (fuel : nat) (image : bytes) (off : Z) : Run (list PendingEntry * Z) :=
  match fuel with
  | O => Undef
  | S n =>
      if off <? len image then
        match DeserializeFrom image off with
        | Ret (e, next) =>
            let! r := scan_from n image next in Ret (e :: r.1, r.2)
        | Fail _ => Ret ([], off)
        | Undef => Undef
        end
      else Ret ([], off)
  end.

Definition ScanRecords (image : bytes) : Run (list PendingEntry * Z) :=
  let off := if kHeaderSize <=? len image then kHeaderSize else len image in
  scan_from (S (length image)) image off.

Definition ReadAll (w : PendingLogWriter) : Run (list PendingEntry) * PendingLogWriter :=
  let '(img, w) := ReadFileLocked w in
  match img with
  | Fail s => (Fail s, w)
  | Undef => (Undef, w)
  | Ret img =>
      match ScanRecords img with
      | Fail s => (Fail s, w)
      | Undef => (Undef, w)
      | Ret (entries, valid_end) =>
          if valid_end <? len img then
            let '(ok, s) := sys (io_ w) in
            if negb ok then (Fail (write_failed "ftruncate tail: "), set_io w s) else
            let f := f_do (fd_ w) (WTrunc valid_end) in
            let '(ok, s) := sys s in
            let f := if ok then f_sync f else f in
            (Ret entries, MkPLW f (path_ w) valid_end (append_failures_ w) s)
          else (Ret entries, w)
      end
  end.

(** The txns with a terminal record, and the records [Compact] keeps. *)
Definition is_terminal (e : PendingEntry) : bool :=
  bool_decide (state e = kCommitted) || bool_decide (state e = kRollback).
Definition finalized (entries : list PendingEntry) : gset Z :=
  list_to_set (txn_id <$> filter (fun e => is_terminal e = true) entries).
Definition unfinished (entries : list PendingEntry) : list PendingEntry :=
  filter (fun e => state e = kPending /\ txn_id e ∉ finalized entries) entries.

Definition Compact (w : PendingLogWriter) : Run unit * PendingLogWriter :=
  let '(img, w) := ReadFileLocked w in
  match img with
  | Fail s => (Fail s, w)
  | Undef => (Undef, w)
  | Ret img =>
      match ScanRecords img with
      | Fail s => (Fail s, w)
      | Undef => (Undef, w)
      | Ret (entries, _) =>
          let out := MakeHeader ++ concat (Serialize <$> unfinished entries) in
          let '(ok, s) := sys (io_ w) in
          if negb ok then (Fail (write_failed "open tmp: "), set_io w s) else
          let '(ok, tmp, s) := PwriteAll s (f_stored []) 0 out in
          if negb ok then (Fail (write_failed "pwrite: "), set_io w s) else
          let '(ok, s) := sys s in
          if negb ok then (Fail (write_failed "sync tmp: "), set_io w s) else
          let tmp := f_sync tmp in
          let '(ok, s) := sys s in
          if negb ok then (Fail (write_failed "rename: "), set_io w s) else
          let '(ok, s) := sys s in
          if negb ok then
            (Fail (write_failed "reopen after compact: "),
             MkPLW (fd_ w) (Some tmp) (file_size_ w) (append_failures_ w) s)
          else (Ret tt, MkPLW tmp None (len out) (append_failures_ w) s)
      end
  end.

Definition SizeBytes (w : PendingLogWriter) : Z := file_size_ w.

Record WalStats := MkWalStats { ws_pending : Z; ws_committed : Z; ws_rollback : Z }.

Definition count_state (st : State) (entries : list PendingEntry) : Z :=
  len (filter (fun e => state e = st) entries).

Definition GetStats (w : PendingLogWriter) : Run WalStats * PendingLogWriter :=
  let '(img, w) := ReadFileLocked w in
  (let! img := img in
   let! r := ScanRecords img in
   Ret (MkWalStats (len (unfinished r.1)) (count_state kCommitted r.1) (count_state kRollback r.1)),
   w).

(** What a restart finds at the path. *)
Definition disk (w : PendingLogWriter) : file := default (fd_ w) (path_ w).

(** ** The recovery scan *)

Definition frames (es : list PendingEntry) : bytes := concat (Serialize <$> es).
Definition log_image (es : list PendingEntry) : bytes := MakeHeader ++ frames es.

Lemma len_MakeHeader : len MakeHeader = kHeaderSize.
Proof. reflexivity. Qed.
Lemma MakeHeader_ok : bytes_ok MakeHeader.
Proof.
  unfold MakeHeader. rewrite !bytes_ok_app.
  split; [split; [repeat constructor; done|split]|]; try apply put_le_ok.
  by apply Forall_replicate.
Qed.

Lemma frames_cons e es : frames (e :: es) = Serialize e ++ frames es.
Proof. reflexivity. Qed.
Lemma frames_app es fs : frames (es ++ fs) = frames es ++ frames fs.
Proof. unfold frames. by rewrite fmap_app, concat_app. Qed.
Lemma frames_snoc es e : frames (es ++ [e]) = frames es ++ Serialize e.
Proof. rewrite frames_app, frames_cons. unfold frames. simpl. by rewrite app_nil_r. Qed.

Lemma len_Serialize e : len (Serialize e) = 8 + len (SerializeBody e).
Proof. rewrite Serialize_frame. apply len_FrameFromBody. Qed.

Lemma Serialize_ok e : valid e -> bytes_ok (Serialize e).
Proof. intros. rewrite Serialize_frame. by apply FrameFromBody_ok, SerializeBody_ok. Qed.

Lemma frames_ok es : Forall valid es -> bytes_ok (frames es).
Proof.
  induction 1; [constructor|]. rewrite frames_cons, bytes_ok_app.
  split; [by apply Serialize_ok|done].
Qed.

Lemma log_image_ok es : Forall valid es -> bytes_ok (log_image es).
Proof. intros. apply bytes_ok_app. split; [apply MakeHeader_ok|by apply frames_ok]. Qed.

Lemma len_frames_ge es : 8 * len es <= len (frames es).
Proof.
  induction es as [|e es IH]; [done|]. rewrite frames_cons.
  autorewrite with len. rewrite len_Serialize. slen.
Qed.

(** The loop ends within one turn per byte, whatever the bytes are. *)
Lemma scan_from_total image fuel off :
  bytes_ok image -> 0 <= off <= len image -> len image - off < Z.of_nat fuel ->
  exists es stop, scan_from fuel image off = Ret (es, stop) /\ off <= stop <= len image.
Proof.
  intros Hok. revert off. induction fuel as [|n IH]; intros off Ho Hf; [lia|].
  cbn [scan_from]. destruct (off <? len image) eqn:E; [|exists [], off; split; [done|lia]].
  pose proof (DeserializeFrom_defined image off Hok ltac:(lia)) as Hd.
  destruct (DeserializeFrom image off) as [[e next]|st|] eqn:Er; [|exists [], off; split; [done|lia]|done].
  apply DeserializeFrom_progress in Er; [|done|lia].
  destruct (IH next) as (es & stop & Hs & Hb); [lia..|].
  rewrite Hs. exists (e :: es), stop. split; [done|lia].
Qed.

(** More turns than needed change nothing. *)
Lemma scan_from_fuel image n m off r :
  scan_from n image off = Ret r -> (n <= m)%nat -> scan_from m image off = Ret r.
Proof.
  revert m off r. induction n as [|n IH]; intros m off r H Hle; [done|].
  destruct m as [|m]; [lia|]. cbn [scan_from] in *.
  destruct (off <? len image); [|done].
  destruct (DeserializeFrom image off) as [[e next]| |]; [|done..].
  destruct (scan_from n image next) as [r'| |] eqn:E; [|done..].
  by rewrite (IH m next r' E) by lia.
Qed.

Lemma ScanRecords_total image :
  bytes_ok image ->
  exists es stop, ScanRecords image = Ret (es, stop) /\ Z.min kHeaderSize (len image) <= stop <= len image.
Proof.
  intros Hok. pose proof (len_nonneg image). unfold ScanRecords.
  set (off := if _ <=? _ then _ else _).
  assert (off = Z.min kHeaderSize (len image)) as E
    by (unfold off; destruct (Z.leb_spec kHeaderSize (len image)); unfold kHeaderSize in *; lia).
  rewrite E. apply scan_from_total; [done|unfold kHeaderSize; lia|].
  unfold len, kHeaderSize in *. lia.
Qed.

(** Intact records are read back in order, whatever follows them. *)
Lemma scan_from_frames es a junk n :
  Forall valid es ->
  scan_from (length es + n) (a ++ frames es ++ junk) (len a)
  = let! r := scan_from n (a ++ frames es ++ junk) (len a + len (frames es)) in
    Ret ((wire <$> es) ++ r.1, r.2).
Proof.
  intros HF. revert a. induction HF as [|e es He HF IH]; intros a.
  { replace (len a + len (frames [])) with (len a) by (unfold frames; slen).
    cbn [length Nat.add fmap list_fmap app].
    destruct (scan_from n _ (len a)) as [[? ?]| |]; done. }
  cbn [length Nat.add scan_from]. rewrite frames_cons, <- app_assoc.
  pose proof (len_Serialize e) as Hl.
  replace (len a <? _) with true by (symmetry; apply Z.ltb_lt; slen).
  rewrite DeserializeFrom_Serialize by done.
  replace (a ++ Serialize e ++ frames es ++ junk)
    with ((a ++ Serialize e) ++ frames es ++ junk) by (by rewrite <- app_assoc).
  replace (len a + len (Serialize e)) with (len (a ++ Serialize e)) by slen.
  rewrite IH.
  replace (len (a ++ Serialize e) + len (frames es))
    with (len a + len (Serialize e ++ frames es)) by slen.
  destruct (scan_from n _ _) as [[? ?]| |]; done.
Qed.

Lemma ScanRecords_frames es junk :
  Forall valid es -> bytes_ok junk ->
  exists extra stop,
    ScanRecords (log_image es ++ junk) = Ret ((wire <$> es) ++ extra, stop) /\
    scan_from (S (length (log_image es ++ junk))) (log_image es ++ junk)
      (len (log_image es)) = Ret (extra, stop).
Proof.
  intros HF Hj. unfold log_image. rewrite <- app_assoc.
  set (img := MakeHeader ++ frames es ++ junk).
  assert (bytes_ok img) as Hok.
  { unfold img. rewrite !bytes_ok_app. repeat split; [apply MakeHeader_ok|by apply frames_ok|done]. }
  pose proof len_MakeHeader as Hm. pose proof (len_frames_ge es) as Hg.
  pose proof (len_nonneg (frames es)). pose proof (len_nonneg junk). pose proof (len_nonneg es).
  assert (len img = kHeaderSize + len (frames es) + len junk) as Hli by (unfold img; slen).
  assert (0 <= kHeaderSize) as Hk0 by (unfold kHeaderSize; lia).
  unfold ScanRecords. rewrite (proj2 (Z.leb_le _ _)) by lia. rewrite <- Hm.
  replace (len (MakeHeader ++ frames es)) with (len MakeHeader + len (frames es)) by slen.
  destruct (scan_from_total img (S (length img) - length es)
    (len MakeHeader + len (frames es))) as (extra & stop & Hs & _); [done|lia|unfold len in *; lia|].
  exists extra, stop. split.
  - replace (S (length img)) with (length es + (S (length img) - length es))%nat
      by (unfold len in *; lia).
    unfold img at 2. rewrite scan_from_frames by done. fold img. by rewrite Hs.
  - eapply scan_from_fuel; [exact Hs|lia].
Qed.

(** The recovery scan is total: on every byte image, however corrupt,
    [ScanRecords] terminates without reading out of bounds and stops inside
    the image. *)
Theorem ScanRecords_terminates (image : bytes) :
  bytes_ok image ->
  exists es stop, ScanRecords image = Ret (es, stop) /\
    Z.min kHeaderSize (len image) <= stop <= len image.
Proof. apply ScanRecords_total. Qed.

Lemma ScanRecords_terminates_witness :
  exists es stop, ScanRecords [1; 2; 3] = Ret (es, stop) /\ Z.min kHeaderSize 3 <= stop <= 3.
Proof. apply (ScanRecords_terminates [1; 2; 3]). repeat constructor; done. Defined.

(** ** A torn record is dropped *)

Lemma DeserializeFrom_torn pre e k :
  valid e -> (k < length (Serialize e))%nat ->
  exists st, DeserializeFrom (pre ++ take k (Serialize e)) (len pre) = Fail st.
Proof.
  intros Hv Hk. pose proof (Serialize_fits e Hv) as Hf. unfold frame_fits in Hf.
  pose proof (len_Serialize e) as Hl. pose proof (len_nonneg (SerializeBody e)).
  assert (len (take k (Serialize e)) = Z.of_nat k) as Hlk by (unfold len; rewrite length_take; lia).
  unfold DeserializeFrom, kSizePrefixLen, kChecksumLen.
  rewrite len_app, Hlk.
  destruct (Z.ltb_spec (len pre + Z.of_nat k) (len pre + 4)); [by eexists|]. cbn [guard_err run_bind].
  assert (GetU32 (pre ++ take k (Serialize e)) (len pre) = Some (len (SerializeBody e) + 4)) as ->.
  { unfold GetU32. rewrite sub_skip by lia.
    rewrite <- (sub_app_l _ (drop k (Serialize e))) by lia. rewrite take_drop.
    change (GetU32 (Serialize e) (len pre - len pre) = Some (len (SerializeBody e) + 4)).
    unfold Serialize. rewrite GetU32_head by lia. unfold kChecksumLen.
    by rewrite !(u32_small (len (SerializeBody e) + 4)) by lia. }
  cbn [load run_bind]. pass.
  rewrite (proj2 (Z.ltb_lt _ _)); [by eexists|]. unfold len in *. lia.
Qed.

Lemma ScanRecords_torn es e k :
  Forall valid es -> valid e -> (k < length (Serialize e))%nat ->
  ScanRecords (log_image es ++ take k (Serialize e)) = Ret (wire <$> es, len (log_image es)).
Proof.
  intros HF He Hk.
  destruct (ScanRecords_frames es (take k (Serialize e))) as (x & y & H & H2); [done| |].
  { by apply Forall_take, Serialize_ok. }
  rewrite H. cbn [scan_from] in H2.
  destruct (len (log_image es) <? _); [|injection H2 as <- <-; by rewrite app_nil_r].
  destruct (DeserializeFrom_torn (log_image es) e k He Hk) as [st Hst].
  rewrite Hst in H2. injection H2 as <- <-. by rewrite app_nil_r.
Qed.

Lemma ScanRecords_exact es :
  Forall valid es -> ScanRecords (log_image es) = Ret (wire <$> es, len (log_image es)).
Proof.
  intros HF. pose proof (ScanRecords_torn es sample 0 HF sample_valid) as H.
  rewrite take_0, app_nil_r in H. apply H. vm_compute. lia.
Qed.

(** An interrupted append is rolled back: when the file ends in a proper
    prefix of one more record, the scan returns exactly the intact records and
    the offset to truncate the file to. *)
Theorem ScanRecords_torn_tail (es : list PendingEntry) (e : PendingEntry) (k : nat) :
  Forall valid es -> valid e -> (k < length (Serialize e))%nat ->
  ScanRecords (log_image es ++ take k (Serialize e)) = Ret (wire <$> es, len (log_image es)).
Proof. apply ScanRecords_torn. Qed.

Lemma ScanRecords_torn_tail_witness :
  ScanRecords (log_image [sample] ++ take 20 (Serialize sample))
  = Ret (wire <$> [sample], len (log_image [sample])).
Proof.
  apply ScanRecords_torn_tail; [|exact sample_valid|vm_compute; lia].
  constructor; [exact sample_valid|constructor].
Defined.

(** ** The log file as a sink *)

Lemma WriteRecords_spec es off w st off' w' :
  off = len (f_data (fd_ w)) -> WriteRecords es off w = (st, off', w') ->
  path_ w' = path_ w /\ append_failures_ w' = append_failures_ w /\
  f_durable (fd_ w') = f_durable (fd_ w) /\
  exists tail, f_data (fd_ w') = f_data (fd_ w) ++ tail /\
    (status_ok st = true -> tail = concat es /\ off' = len (f_data (fd_ w'))).
Proof.
  revert off w. induction es as [|e es IH]; intros off w -> H; simpl in H.
  { injection H as <- <- <-. repeat split. exists []. by rewrite app_nil_r. }
  destruct (PwriteAll (io_ w) (fd_ w) _ e) as [[ok f] s] eqn:E.
  apply PwriteAll_append in E as (Hd & k & Hk & Hok).
  destruct ok; [|injection H as <- <- <-; repeat split; [done|]; exists (take k e); done].
  specialize (Hok eq_refl). rewrite Hok in Hk.
  apply IH in H as (H1 & H2 & H3 & tail & H4 & H5); [|simpl; rewrite Hk; slen].
  simpl in *. rewrite H1, H2, H3. repeat split; [done|].
  exists (e ++ tail). rewrite H4, Hk, <- app_assoc. split; [done|].
  intros Hs. destruct (H5 Hs) as [-> ->]. split; [done|]. by rewrite H4, Hk, <- app_assoc.
Qed.

Lemma WriteBatch_spec es w st w' :
  WriteBatch es w = (st, w') ->
  path_ w' = path_ w /\ append_failures_ w' = append_failures_ w /\
  f_durable (fd_ w') = f_durable (fd_ w) /\
  exists tail, f_data (fd_ w') = f_data (fd_ w) ++ tail /\
    (status_ok st = true -> tail = concat es /\ file_size_ w' = len (f_data (fd_ w'))).
Proof.
  unfold WriteBatch. intros H. destruct (sys (io_ w)) as [ok s].
  destruct ok; simpl in H;
    [|injection H as <- <-; repeat split; exists []; by rewrite app_nil_r].
  destruct (WriteRecords es _ _) as [[st0 off'] w0] eqn:E.
  apply WriteRecords_spec in E as (H1 & H2 & H3 & tail & H4 & H5); [|done].
  destruct (status_ok st0) eqn:Es; injection H as <- <-; simpl in *.
  - repeat split; try done. exists tail. split; [done|]. intros _. by apply H5.
  - repeat split; try done. exists tail. split; [done|]. congruence.
Qed.

Lemma Sync_spec w st w' :
  Sync w = (st, w') ->
  path_ w' = path_ w /\ append_failures_ w' = append_failures_ w /\
  file_size_ w' = file_size_ w /\ f_data (fd_ w') = f_data (fd_ w) /\
  (if status_ok st then fd_ w' = f_sync (fd_ w) else fd_ w' = fd_ w).
Proof.
  unfold Sync. intros H. destruct (sys (io_ w)) as [[] s]; injection H as <- <-; done.
Qed.

#[export] Instance PendingLog_sink : IWalSink PendingLogWriter := {|
  sink_WriteBatch es w := let '(st, w') := WriteBatch es w in (Some st, w');
  sink_Sync w := let '(st, w') := Sync w in (Some st, w')
|}.

(** pending.wal is a lawful sink: a failed write leaves a torn tail but never
    changes what was there, and a successful sync makes everything durable. *)
#[export] Program Instance PendingLog_sink_laws : IWalSinkLaws PendingLogWriter := {|
  sink_inv w := exists rest, f_data (fd_ w) = f_durable (fd_ w) ++ rest;
  sink_written w := f_data (fd_ w);
  sink_durable w := f_durable (fd_ w)
|}.
Next Obligation. done. Qed.
Next Obligation.
  intros es k r k' [rest Hr] H. simpl in H. destruct (WriteBatch es k) as [st w] eqn:E.
  injection H as <- <-. apply WriteBatch_spec in E as (_ & _ & Hd & tail & Ht & Hok).
  repeat split; [exists (rest ++ tail); by rewrite Ht, Hd, Hr, app_assoc|done|eauto|].
  intros st' [= <-] Hs. destruct (Hok Hs) as [-> _]. done.
Qed.
Next Obligation.
  intros k r k' [rest Hr] H. simpl in H. destruct (Sync k) as [st w] eqn:E.
  injection H as <- <-. apply Sync_spec in E as (_ & _ & _ & Hd & Hs).
  destruct (status_ok st) eqn:Est.
  - rewrite Hs. simpl. split; [exists []; by rewrite app_nil_r|]. split; [done|]. split; [exists rest; done|done].
  - rewrite Hs. split; [eauto|]. split; [done|]. split; [exists []; by rewrite app_nil_r|].
    intros st' [= <-]. congruence.
Qed.

(** [Append] is what the committer does with a lone caller: the future of the
    one submitted entry resolves with the status [Append] returns, and the
    file ends up the same. *)
Lemma Append_group_commit entry w m st w' :
  append_failures_ w = 0 -> Append entry w = (st, w') ->
  let c1 := (GroupCommitWriter.Submit (Serialize entry) (GroupCommitWriter.Make w m)).2 in
  let c2 := GroupCommitWriter.FlushBatch (GroupCommitWriter.TakeBatch c1) in
  GroupCommitWriter.resolved_ c2 = [(0%nat, st)] /\ GroupCommitWriter.sink_ c2 = w'.
Proof.
  intros Hf H c1 c2. unfold Append, TryConsumeInjectedFault in H. rewrite Hf in H. simpl in H.
  unfold c2, c1, GroupCommitWriter.Make. simpl.
  unfold GroupCommitWriter.TakeBatch. cbn [GroupCommitWriter.queue_ GroupCommitWriter.max_batch_ length].
  replace (Nat.min 1 (if m <? 1 then 1%nat else Z.to_nat m)) with 1%nat
    by (destruct (Z.ltb_spec m 1); lia).
  unfold GroupCommitWriter.FlushBatch. simpl.
  destruct (WriteBatch [Serialize entry] w) as [s0 w0].
  destruct (status_ok s0); [destruct (Sync w0) as [s1 w1]|]; injection H as <- <-; done.
Qed.

(** ** Appending *)

(** [log w es]: the open file holds exactly the records [es]. *)
Definition log (w : PendingLogWriter) (es : list PendingEntry) : Prop :=
  path_ w = None /\ f_data (fd_ w) = log_image es /\ Forall valid es.

(** Nothing is waiting for a sync. *)
Definition clean (w : PendingLogWriter) : Prop := f_pending (fd_ w) = [].

Lemma clean_durable w es : log w es -> clean w -> f_durable (fd_ w) = log_image es.
Proof. intros (_ & Hd & _) Hc. unfold clean, f_data in *. by rewrite Hc in Hd. Qed.

Lemma write_failed_not_ok d : status_ok (write_failed d) = false.
Proof. reflexivity. Qed.

Lemma Append_spec e w st w' :
  Append e w = (st, w') ->
  path_ w' = path_ w /\
  if status_ok st
  then f_data (fd_ w') = f_data (fd_ w) ++ Serialize e /\ clean w'
  else f_durable (fd_ w') = f_durable (fd_ w) /\
       exists tail, f_data (fd_ w') = f_data (fd_ w) ++ tail.
Proof.
  unfold Append, TryConsumeInjectedFault. intros H. destruct (0 <? append_failures_ w).
  { injection H as <- <-. split; [done|]. rewrite write_failed_not_ok.
    split; [done|]. exists []. by rewrite app_nil_r. }
  destruct (WriteBatch [Serialize e] w) as [s0 w0] eqn:E.
  apply WriteBatch_spec in E as (Hp & _ & Hd & tail & Ht & Hok).
  destruct (status_ok s0) eqn:E0.
  - destruct (Hok eq_refl) as [Htail _]. simpl in Htail. rewrite app_nil_r in Htail. subst tail.
    apply Sync_spec in H as (Hp' & _ & _ & Hd' & Hs). rewrite Hp', Hp. split; [done|].
    destruct (status_ok st); [split; [by rewrite Hd'|unfold clean; by rewrite Hs]|].
    rewrite Hs. eauto.
  - injection H as <- <-. rewrite E0. eauto.
Qed.

Lemma Append_log e w es st w' :
  log w es -> valid e -> Append e w = (st, w') -> status_ok st = true ->
  log w' (es ++ [e]) /\ clean w'.
Proof.
  intros (Hp & Hd & HF) Hv H Hs. apply Append_spec in H as [Hp' H]. rewrite Hs in H.
  destruct H as [Hd' Hc]. split; [|done].
  split; [congruence|]. split.
  - rewrite Hd', Hd. unfold log_image. by rewrite frames_snoc, app_assoc.
  - apply Forall_app. auto.
Qed.

(** An acknowledged [AppendBatch] appended all its records, in order. *)
Lemma FlushAll_ok bs : forall w st w',
  FlushAll bs w = (st, w') -> status_ok st = true ->
  path_ w' = path_ w /\ f_data (fd_ w') = f_data (fd_ w) ++ concat (concat bs) /\ (clean w -> clean w').
Proof.
  induction bs as [|b bs IH]; intros w st w' H Hs; cbn [FlushAll] in H.
  { injection H as <- <-. by rewrite app_nil_r. }
  destruct (WriteBatch b w) as [s1 w1] eqn:E1. apply WriteBatch_spec in E1 as (Hp1 & _ & _ & tail & Ht & Hok).
  destruct (status_ok s1) eqn:Es1.
  - destruct (Sync w1) as [s2 w2] eqn:E2. apply Sync_spec in E2 as (Hp2 & _ & _ & Hd2 & Hs2).
    destruct (FlushAll bs w2) as [s3 w3] eqn:E3. injection H as <- <-.
    destruct (status_ok s2) eqn:Es2; [|congruence]. destruct (IH _ _ _ E3 Hs) as (Hp & Hd & Hc).
    destruct (Hok eq_refl) as [-> _]. split; [congruence|].
    split; [by rewrite Hd, Hd2, Ht, concat_cons, concat_app, app_assoc|].
    intros _. apply Hc. unfold clean. by rewrite Hs2.
  - destruct (FlushAll bs w1) as [s3 w3]. injection H as <- <-. rewrite Es1 in Hs. congruence.
Qed.

Lemma SubmitAll_ok es : forall w fs err w',
  SubmitAll es w = (fs, err, w') -> status_ok err = true ->
  fs = (Serialize <$> es) /\ path_ w' = path_ w /\ fd_ w' = fd_ w.
Proof.
  induction es as [|e es IH]; intros w fs err w' H He; cbn [SubmitAll] in H; [by injection H as <- <- <-|].
  unfold TryConsumeInjectedFault in H.
  destruct (0 <? append_failures_ w); destruct (SubmitAll es _) as [[fs1 err1] w1] eqn:E; injection H as <- <- <-;
    [by rewrite write_failed_not_ok in He|].
  destruct (IH _ _ _ _ E He) as (-> & ? & ?). done.
Qed.

Lemma AppendBatch_log batching new w es st w' :
  log w es -> clean w -> Forall valid new -> (forall fs, concat (batching fs) = fs) ->
  AppendBatch batching new w = (st, w') -> status_ok st = true -> log w' (es ++ new) /\ clean w'.
Proof.
  intros (Hp & Hd & HF) Hcl Hv Hb H Hs. unfold AppendBatch in H.
  destruct (SubmitAll new w) as [[fs err] w1] eqn:E1. destruct (FlushAll _ w1) as [s2 w2] eqn:E2. injection H as <- <-.
  destruct (status_ok err) eqn:Ee; [|congruence].
  apply SubmitAll_ok in E1 as (-> & Hp1 & Hf1); [|done].
  destruct (FlushAll_ok _ _ _ _ E2 Hs) as (Hp2 & Hd2 & Hc2). rewrite Hb, Hf1 in Hd2.
  split; [|apply Hc2; unfold clean; by rewrite Hf1]. split; [congruence|]. split; [|by apply Forall_app].
  rewrite Hd2, Hd. unfold log_image, frames. by rewrite fmap_app, concat_app, app_assoc.
Qed.

(** The pending writes of a failed append start at the end of the log. *)
Lemma Append_pending e w st w' :
  Append e w = (st, w') -> valid e -> clean w ->
  Forall (beyond (len (f_data (fd_ w)))) (f_pending (fd_ w')) /\
  Forall wop_ok (f_pending (fd_ w')).
Proof.
  unfold Append, TryConsumeInjectedFault. intros H Hv Hc.
  destruct (0 <? append_failures_ w).
  { injection H as <- <-. simpl. rewrite Hc. auto. }
  unfold WriteBatch in H. destruct (sys (io_ w)) as [[] s]; simpl in H;
    [|injection H as <- <-; simpl; rewrite Hc; auto].
  destruct (PwriteAll s (fd_ w) (len (f_data (fd_ w))) (Serialize e)) as [[ok f] s1] eqn:E.
  apply PwriteAll_pending in E as (ws & Hw & HF); [|by apply Serialize_ok|slen].
  rewrite Hc in Hw. simpl in Hw.
  assert (Forall (beyond (len (f_data (fd_ w)))) (f_pending f) /\ Forall wop_ok (f_pending f)) as HG.
  { rewrite Hw. split; (eapply Forall_impl; [exact HF|]); simpl; intros x (o & b & -> & ? & ?); done. }
  destruct ok; simpl in H; [|injection H as <- <-; exact HG].
  unfold Sync in H. simpl in H.
  destruct (sys s1) as [[] s2]; injection H as <- <-; simpl; [auto|exact HG].
Qed.

(** C4: an acknowledged record survives a power loss: after [Append] returned
    Ok, under any script of short writes and interruptions, every possible
    crash image of the file reads back as the old records plus the new one. *)
Theorem PendingLog_append_durable
    (w w' : PendingLogWriter) (es : list PendingEntry) (e : PendingEntry) (st : Status) (img : bytes) :
  log w es -> valid e -> Append e w = (st, w') -> status_ok st = true ->
  crash (disk w') img ->
  ScanRecords img = Ret (wire <$> (es ++ [e]), len img).
Proof.
  intros Hl Hv H Hs Hcr. destruct (Append_log _ _ _ _ _ Hl Hv H Hs) as [Hl' Hc].
  pose proof Hl' as (Hp & Hd & HF). unfold disk in Hcr. rewrite Hp in Hcr. simpl in Hcr.
  apply crash_synced in Hcr; [|done]. rewrite (clean_durable _ _ Hl' Hc) in Hcr.
  subst img. by apply ScanRecords_exact.
Qed.

(** A fresh log, as [Open] leaves it on an empty file. *)
Definition fresh (s : script) : PendingLogWriter := MkPLW (f_stored MakeHeader) None kHeaderSize 0 s.

Lemma fresh_log s : log (fresh s) [].
Proof. split; [done|]. split; [reflexivity|constructor]. Qed.

Lemma PendingLog_append_durable_witness :
  let w := fresh [IoOk; IoShort 5; IoEintr] in
  ScanRecords (f_data (disk (Append sample w).2)) = Ret (wire <$> [sample], len (f_data (disk (Append sample w).2))).
Proof.
  set (w := fresh [IoOk; IoShort 5; IoEintr]).
  apply (PendingLog_append_durable w (Append sample w).2 [] sample (Append sample w).1).
  - apply fresh_log.
  - exact sample_valid.
  - apply surjective_pairing.
  - vm_compute. reflexivity.
  - apply crash_nothing_lost. vm_compute. reflexivity.
Defined.

(** A power loss in the middle of an append, at any I/O script and with
    the unsynced writes lost, reordered away or torn, never costs a record
    that was synced before: the scan returns all of them first. *)
Theorem PendingLog_crash_keeps_synced
    (w w' : PendingLogWriter) (es : list PendingEntry) (e : PendingEntry) (st : Status) (img : bytes) :
  log w es -> clean w -> valid e -> Append e w = (st, w') -> crash (disk w') img ->
  exists extra stop, ScanRecords img = Ret ((wire <$> es) ++ extra, stop).
Proof.
  intros Hl Hc Hv H Hcr. pose proof (clean_durable _ _ Hl Hc) as Hd. pose proof Hl as (Hp & Hda & HF).
  destruct (Append_pending _ _ _ _ H Hv Hc) as [Hb Hok].
  destruct (Append_spec _ _ _ _ H) as [Hp' Hs]. unfold disk in Hcr. rewrite Hp', Hp in Hcr. simpl in Hcr.
  destruct (status_ok st) eqn:Est.
  - destruct (Append_log _ _ _ _ _ Hl Hv H Est) as [Hl' Hc'].
    apply crash_synced in Hcr; [|done]. rewrite (clean_durable _ _ Hl' Hc') in Hcr. subst img.
    rewrite ScanRecords_exact by apply Hl'. rewrite fmap_app. eauto.
  - destruct Hs as [Hdur _]. rewrite Hd in Hdur.
    assert (bytes_ok img) as Hi.
    { eapply crash_ok; [exact Hcr|rewrite Hdur; by apply log_image_ok|done]. }
    apply crash_prefix in Hcr as [junk ->]; [|rewrite Hdur, <- Hda; exact Hb].
    rewrite Hdur in *. apply bytes_ok_app in Hi as [_ Hj].
    destruct (ScanRecords_frames es junk HF Hj) as (x & y & Hx & _). eauto.
Qed.

Lemma PendingLog_crash_keeps_synced_witness :
  let w1 := (Append sample (fresh [])).2 in
  let w2 := MkPLW (fd_ w1) None (file_size_ w1) 0 [IoOk; IoShort 9; IoErr] in
  exists extra stop,
    ScanRecords (log_image [sample] ++ take 4 (Serialize sample)) = Ret ((wire <$> [sample]) ++ extra, stop).
Proof.
  set (w1 := (Append sample (fresh [])).2).
  set (w2 := MkPLW (fd_ w1) None (file_size_ w1) 0 [IoOk; IoShort 9; IoErr]).
  apply (PendingLog_crash_keeps_synced w2 (Append sample w2).2 [sample] sample (Append sample w2).1).
  - split; [reflexivity|]. split; [vm_compute; reflexivity|].
    constructor; [exact sample_valid|constructor].
  - vm_compute. reflexivity.
  - exact sample_valid.
  - apply surjective_pairing.
  - exists [WWrite 83 (take 4 [47; 0; 0; 0; 1; 7; 0; 0; 0])]. split; [|vm_compute; reflexivity].
    assert (f_pending (disk (Append sample w2).2) = [WWrite 83 [47; 0; 0; 0; 1; 7; 0; 0; 0]]) as ->
      by (vm_compute; reflexivity).
    apply survives_torn. constructor.
Defined.

End PendingLogWriter.
