(* ===== verification/PendingLogTheory.v ===== *)
(** * What pending.wal guarantees (src/store/pending_log_writer.cpp)

    Theorems on [PendingLogWriter]: reading truncates a torn tail, compaction
    is atomic and keeps exactly the unfinished transactions, opening a file
    that the writer made succeeds; the group-commit theorems instantiated at
    the log file; and two concrete runs in which an acknowledged record is
    lost. *)
From S2P Require Import Prelude Status LittleEndian Crc32 Framing PendingEntryCodec Posix GroupCommit PendingLog.
Open Scope run_scope.

Import PendingEntry.
Import PendingLogWriter.

(** ** Reading *)

Lemma ReadFileLocked_spec w r w' :
  ReadFileLocked w = (r, w') ->
  (exists s, w' = set_io w s) /\ (r = Ret (f_data (fd_ w)) \/ exists st, r = Fail st).
Proof.
  unfold ReadFileLocked. destruct (sys (io_ w)) as [[] s]; simpl; [|intros [= <- <-]; eauto].
  destruct (PreadAll _ _ _ _) as [[img|] s'] eqn:E; intros [= <- <-]; [|eauto].
  apply PreadAll_spec in E as ->; [|lia]. eauto.
Qed.

Lemma state_wire e : state (wire e) = state e.
Proof. unfold wire. by destruct (state e) eqn:?. Qed.
Lemma txn_id_wire e : txn_id (wire e) = txn_id e.
Proof. unfold wire. by destruct (state e). Qed.

Lemma finalized_wire es : finalized (wire <$> es) = finalized es.
Proof.
  unfold finalized. rewrite filter_fmap_eq by (intros; unfold is_terminal; by rewrite state_wire).
  f_equal. rewrite <- list_fmap_compose. apply list_fmap_ext. intros; apply txn_id_wire.
Qed.

Lemma unfinished_wire_id es : wire <$> unfinished es = unfinished es.
Proof.
  unfold unfinished. generalize (finalized es). intros fin. induction es as [|e es IH]; [done|].
  rewrite filter_cons. case_decide as H; [|done]. rewrite fmap_cons, IH. f_equal.
  unfold wire. by rewrite (proj1 H).
Qed.

Lemma unfinished_wire es : unfinished (wire <$> es) = unfinished es.
Proof.
  etransitivity; [|apply unfinished_wire_id]. unfold unfinished. rewrite finalized_wire.
  apply filter_fmap_eq. intros e. by rewrite state_wire, txn_id_wire.
Qed.

Lemma unfinished_valid es : Forall valid es -> Forall valid (unfinished es).
Proof. rewrite !Forall_forall. intros H e [_ He]%list_elem_of_filter. auto. Qed.

Lemma unfinished_pending es : Forall (fun e => state e = kPending) (unfinished es).
Proof. apply Forall_forall. by intros e [[? _] _]%list_elem_of_filter. Qed.

Lemma finalized_pending es : Forall (fun e => state e = kPending) es -> finalized es = ∅.
Proof.
  intros HF. unfold finalized. rewrite filter_none; [done|].
  eapply Forall_impl; [exact HF|]. simpl. intros e He. unfold is_terminal. by rewrite He.
Qed.

(** Compacting twice is compacting once. *)
Lemma unfinished_idem es : unfinished (unfinished es) = unfinished es.
Proof.
  unfold unfinished at 1. rewrite (finalized_pending _ (unfinished_pending es)).
  apply filter_id. eapply Forall_impl; [apply unfinished_pending|]. simpl. set_solver.
Qed.

(** ** Compaction *)

(** What the path names while the log is intact. *)
Lemma disk_log w es : log w es -> disk w = fd_ w.
Proof. intros (Hp & _). unfold disk. by rewrite Hp. Qed.

Lemma Compact_spec w es r w' :
  log w es -> Compact w = (r, w') ->
  match r with
  | Ret _ => log w' (unfinished es) /\ clean w' /\ file_size_ w' = len (f_data (fd_ w'))
  | Fail _ => fd_ w' = fd_ w /\ (path_ w' = None \/ path_ w' = Some (f_stored (log_image (unfinished es))))
  | Undef => False
  end.
Proof.
  intros (Hp & Hd & HF) H. unfold Compact in H.
  destruct (ReadFileLocked w) as [img w0] eqn:E.
  apply ReadFileLocked_spec in E as [[s0 ->] [->|[st ->]]]; [|injection H as <- <-; auto].
  rewrite Hd, ScanRecords_exact in H by done. rewrite unfinished_wire in H. simpl in H.
  fold (frames (unfinished es)) in H. fold (log_image (unfinished es)) in H.
  destruct (sys s0) as [[] s1]; simpl in H; [|injection H as <- <-; auto].
  destruct (PwriteAll s1 (f_stored []) 0 _) as [[ok tmp] s2] eqn:Ew.
  change 0 with (len (f_data (f_stored []))) in Ew.
  apply PwriteAll_append in Ew as (_ & k & Hk & Hok).
  destruct ok; simpl in H; [|injection H as <- <-; auto].
  rewrite (Hok eq_refl) in Hk. simpl in Hk.
  assert (f_data (f_sync tmp) = log_image (unfinished es)) as Hs by (rewrite f_data_sync; exact Hk).
  destruct (sys s2) as [[] s3]; simpl in H; [|injection H as <- <-; auto].
  destruct (sys s3) as [[] s4]; simpl in H; [|injection H as <- <-; auto].
  destruct (sys s4) as [[] s5]; simpl in H; injection H as <- <-; simpl.
  - split; [|split; [done|by rewrite Hs]].
    split; [done|]. split; [exact Hs|by apply unfinished_valid].
  - split; [done|]. right. unfold f_sync, f_stored. by rewrite Hk.
Qed.



(** ** Reading the log truncates a torn tail *)

(** [torn w es]: the records [es], then a proper prefix of one more record. *)
Definition torn (w : PendingLogWriter) (es : list PendingEntry) : Prop :=
  Forall valid es /\ path_ w = None /\
  exists e k, valid e /\ (k < length (Serialize e))%nat /\
    f_data (fd_ w) = log_image es ++ take k (Serialize e).

Lemma log_torn w es : log w es -> torn w es.
Proof.
  intros (Hp & Hd & HF). split; [done|]. split; [done|]. exists sample, 0%nat.
  split; [exact sample_valid|]. split; [vm_compute; lia|]. by rewrite take_0, app_nil_r.
Qed.

Lemma ReadAll_torn w es r w' :
  torn w es -> ReadAll w = (r, w') ->
  match r with
  | Ret l => l = wire <$> es /\ log w' es
  | Fail _ => f_data (fd_ w') = f_data (fd_ w) /\ path_ w' = None
  | Undef => False
  end.
Proof.
  intros (HF & Hp & e & k & He & Hk & Hd) H. unfold ReadAll in H.
  destruct (ReadFileLocked w) as [img w0] eqn:E.
  apply ReadFileLocked_spec in E as [[s0 ->] [->|[st ->]]]; [|by injection H as <- <-].
  rewrite Hd, ScanRecords_torn in H by done.
  set (t := take k (Serialize e)) in *. lazy beta iota delta [set_io io_] in H.
  autorewrite with len in H.
  destruct (Z.ltb_spec (len (log_image es)) (len (log_image es) + len t)) as [Hlt|Hge].
  - destruct (sys s0) as [[] s1]; lazy beta iota delta [negb] in H; [|injection H as <- <-; done].
    destruct (sys s1) as [ok s2]. injection H as <- <-. split; [done|].
    split; [done|]. split; [|done]. simpl.
    assert (f_data (f_do (fd_ w) (WTrunc (len (log_image es)))) = log_image es) as Ht
      by (rewrite f_data_do, Hd; apply truncate_to_prefix).
    destruct ok; [by rewrite f_data_sync|done].
  - injection H as <- <-. split; [done|]. split; [done|]. split; [|done]. simpl.
    assert (t = []) as Htn by (apply length_zero_iff_nil; unfold len in *; lia).
    by rewrite Hd, Htn, app_nil_r.
Qed.

(** Reading repairs: when the file is the records plus an interrupted
    append, [ReadAll] never reads out of bounds, and whenever it returns Ok it
    has returned exactly the intact records and cut the tail off, so that the
    next append continues a well-formed log. *)
Theorem PendingLog_ReadAll_repairs
    (w w' : PendingLogWriter) (es : list PendingEntry) (r : Run (list PendingEntry)) :
  torn w es -> ReadAll w = (r, w') ->
  run_defined r /\ (forall l, r = Ret l -> l = wire <$> es /\ log w' es).
Proof.
  intros Ht H. apply (ReadAll_torn _ es) in H; [|done].
  destruct r as [l| |]; [|done..]. split; [done|]. by intros ? [= <-].
Qed.

Lemma PendingLog_ReadAll_repairs_witness :
  let w := MkPLW (f_stored (log_image [sample] ++ take 11 (Serialize sample))) None 0 0 [] in
  (ReadAll w).1 = Ret [sample] /\ log (ReadAll w).2 [sample].
Proof.
  set (w := MkPLW (f_stored (log_image [sample] ++ take 11 (Serialize sample))) None 0 0 []).
  assert ((ReadAll w).1 = Ret [sample]) as Hr by (vm_compute; reflexivity).
  split; [exact Hr|].
  destruct (PendingLog_ReadAll_repairs w (ReadAll w).2 [sample] (ReadAll w).1) as [_ H].
  - split; [constructor; [exact sample_valid|constructor]|]. split; [reflexivity|].
    exists sample, 11%nat. split; [exact sample_valid|]. split; [vm_compute; lia|reflexivity].
  - apply surjective_pairing.
  - apply (H [sample] Hr).
Defined.

(** ** Opening *)

Lemma CheckHeader_MakeHeader : CheckHeader MakeHeader = Ret tt.
Proof. vm_compute. reflexivity. Qed.

Lemma log_image_header es : sub (log_image es) 0 kHeaderSize = Some MakeHeader.
Proof. unfold log_image. rewrite <- len_MakeHeader. rewrite sub_app_l by (pose proof (len_nonneg MakeHeader); lia). by apply sub_all. Qed.

Lemma len_log_image es : kHeaderSize <= len (log_image es).
Proof. unfold log_image. autorewrite with len. rewrite len_MakeHeader. slen. Qed.

Lemma Open_existing es :
  Open (f_stored (log_image es)) [] =
  (Ret (MkPLW (f_stored (log_image es)) None (len (log_image es)) 0 []), f_stored (log_image es), []).
Proof.
  pose proof (len_log_image es) as Hl. unfold kHeaderSize in Hl.
  unfold Open. lazy beta iota delta [sys negb]. rewrite f_data_stored.
  rewrite (proj2 (Z.eqb_neq _ _)), (proj2 (Z.ltb_ge _ _)) by (unfold kHeaderSize; lia).
  rewrite log_image_header. cbn [load run_bind]. by rewrite CheckHeader_MakeHeader.
Qed.

Lemma Open_new s r f s' :
  Open (f_stored []) s = (r, f, s') ->
  run_defined r /\ (forall w, r = Ret w -> log w [] /\ clean w /\ fd_ w = f).
Proof.
  unfold Open. intros H. destruct (sys s) as [[] s0]; [|injection H as <- <- <-; done].
  lazy beta iota delta [negb] in H.
  destruct (sys s0) as [[] s1]; [|injection H as <- <- <-; done].
  lazy beta iota delta [negb] in H. rewrite f_data_stored in H.
  change (len [] =? 0) with true in H. cbv iota in H.
  destruct (PwriteAll s1 (f_stored []) 0 MakeHeader) as [[ok f1] s2] eqn:Ew.
  change 0 with (len (f_data (f_stored []))) in Ew.
  apply PwriteAll_append in Ew as (_ & k & Hk & Hok).
  destruct ok; lazy beta iota delta [negb] in H; [|injection H as <- <- <-; done].
  rewrite (Hok eq_refl) in Hk.
  destruct (sys s2) as [[] s3]; lazy beta iota delta [negb] in H; injection H as <- <- <-; [|done].
  split; [done|]. intros w [= <-]. split; [|done].
  split; [done|]. split; [|constructor]. cbn [fd_]. by rewrite f_data_sync, Hk.
Qed.

(** Restart: opening no file yields the empty log or an error, and opening
    any crash image of a synced log succeeds with the same records. *)
Theorem PendingLog_reopen (w : PendingLogWriter) (es : list PendingEntry) (img : bytes) :
  log w es -> clean w -> crash (disk w) img ->
  (forall s r f s', Open (f_stored []) s = (r, f, s') ->
     run_defined r /\ (forall w', r = Ret w' -> log w' [])) /\
  exists w', Open (f_stored img) [] = (Ret w', f_stored img, []) /\ log w' es /\ clean w' /\
             SizeBytes w' = len img.
Proof.
  intros Hl Hc Hcr. split.
  { intros s r f s' [Hd Hw]%Open_new. split; [done|]. intros w' Hr. by apply Hw. }
  rewrite (disk_log _ _ Hl) in Hcr. apply crash_synced in Hcr; [|done].
  rewrite (clean_durable _ _ Hl Hc) in Hcr. subst img. rewrite Open_existing.
  eexists. split; [done|]. split; [|done]. split; [done|]. split; [done|]. apply Hl.
Qed.

Lemma PendingLog_reopen_witness :
  exists w', Open (f_stored (log_image [])) [] = (Ret w', f_stored (log_image []), []) /\
    log w' [] /\ clean w' /\ SizeBytes w' = 32.
Proof.
  apply (PendingLog_reopen (fresh []) [] (log_image [])).
  - apply fresh_log.
  - reflexivity.
  - exact (crash_nothing_lost (fd_ (fresh [])) eq_refl).
Defined.

(** ** Statistics *)

(** [GetStats] on an intact log counts the live backlog (PENDING records
    whose transaction has no terminal record) and the terminal records, and
    agrees with what [Compact] would keep. *)
Theorem PendingLog_GetStats_exact
    (w w' : PendingLogWriter) (es : list PendingEntry) (r : Run WalStats) :
  log w es -> GetStats w = (r, w') ->
  (forall s, r = Ret s ->
     s = MkWalStats (len (unfinished es)) (count_state kCommitted es) (count_state kRollback es)) /\
  run_defined r /\ fd_ w' = fd_ w.
Proof.
  intros (Hp & Hd & HF) H. unfold GetStats in H.
  destruct (ReadFileLocked w) as [img w0] eqn:E.
  apply ReadFileLocked_spec in E as [[s0 ->] Hr]. injection H as <- <-.
  destruct Hr as [->|[st ->]]; [|done]. rewrite Hd. cbn [run_bind].
  rewrite ScanRecords_exact by done. cbn [run_bind fst]. rewrite unfinished_wire.
  assert (forall st, count_state st (wire <$> es) = count_state st es) as Hc.
  { intros st. unfold count_state. rewrite filter_fmap_eq by (intros; by rewrite state_wire).
    unfold len. by rewrite length_fmap. }
  rewrite !Hc. by split; [intros s [= <-]|].
Qed.

Lemma PendingLog_GetStats_exact_witness :
  let w := (Append sample (fresh [])).2 in (GetStats w).1 = Ret (MkWalStats 1 0 0).
Proof.
  intros w.
  destruct (PendingLog_GetStats_exact w (GetStats w).2 [sample] (GetStats w).1) as (H & _ & _).
  - apply (Append_log sample (fresh []) [] (Append sample (fresh [])).1);
      [apply fresh_log|exact sample_valid|apply surjective_pairing|vm_compute; reflexivity].
  - apply surjective_pairing.
  - assert (exists s, (GetStats w).1 = Ret s) as [s Hs] by (eexists; vm_compute; reflexivity).
    rewrite Hs. f_equal. rewrite (H s Hs). vm_compute. reflexivity.
Defined.

(** ** Group commit on pending.wal *)

Section group_commit_demo.
Import GroupCommitWriter.
Local Notation GCW := (GroupCommitWriter PendingLogWriter).

(** Two submits, flushed as one batch on a fresh log. *)
Definition demo_queued : GCW :=
  (Submit (Serialize sample) (Submit [1; 2] (Make (fresh []) 8)).2).2.
Definition demo_flushed : GCW := FlushBatch (TakeBatch demo_queued).

Lemma demo_queued_run : run (fresh []) 8 [[1; 2]; Serialize sample] demo_queued.
Proof. apply (run_submit _ _ [[1; 2]]), (run_submit _ _ []), run_make. Qed.

Lemma demo_flushed_run : run (fresh []) 8 [[1; 2]; Serialize sample] demo_flushed.
Proof.
  eapply run_internal; [eapply run_internal; [apply demo_queued_run|]|].
  - by apply step_take.
  - by apply step_flush.
Qed.
End group_commit_demo.

Lemma GroupCommit_exactly_once_witness :
  NoDup ((GroupCommitWriter.resolved_ demo_flushed).*1 ++ GroupCommitWriter.placed demo_flushed).
Proof. apply (GroupCommitWriter.GroupCommit_exactly_once _ _ _ _ demo_flushed_run). Defined.

Lemma GroupCommit_shutdown_drains_witness :
  GroupCommitWriter.running_ (GroupCommitWriter.drain 4 (GroupCommitWriter.Shutdown demo_queued)) = false.
Proof.
  apply (GroupCommitWriter.GroupCommit_shutdown_drains _ _ _ demo_queued demo_queued_run). reflexivity.
Defined.

Lemma GroupCommit_ok_is_durable_witness :
  exists b, [[1; 2]; Serialize sample] !! 1%nat = Some b /\
    GroupCommitWriter.stored_in b (sink_durable (GroupCommitWriter.sink_ demo_flushed)).
Proof.
  apply (GroupCommitWriter.GroupCommit_ok_is_durable (fresh []) 8 _ demo_flushed 1 Status_Ok).
  - exists []. reflexivity.
  - exact demo_flushed_run.
  - vm_compute. right. left.
  - reflexivity.
Defined.

(** ** Two runs that lose an acknowledged record *)

(** A short write followed by an error leaves part of a record at the end of
    the file; the next [Append] writes after it and returns Ok, but a reader
    stops at the torn record and then cuts both off. *)
Theorem PendingLog_append_after_torn_append_lost :
  let '(st1, w1) := Append sample (fresh [IoOk; IoShort 10; IoErr]) in
  let '(st2, w2) := Append sample w1 in
  status_ok st1 = false /\ status_ok st2 = true /\
  (ReadAll w2).1 = Ret [] /\ f_data (fd_ (ReadAll w2).2) = MakeHeader.
Proof. vm_compute. auto. Qed.

(** When the reopen at the end of [Compact] fails, [fd_] still names the
    replaced file: a later [Append] returns Ok and is gone at the restart. *)
Theorem PendingLog_append_after_failed_reopen_lost :
  let '(r1, w1) := Compact (fresh [IoOk; IoOk; IoOk; IoOk; IoOk; IoOk; IoErr]) in
  let '(st2, w2) := Append sample w1 in
  r1 = Fail (write_failed "reopen after compact: ") /\ status_ok st2 = true /\
  ScanRecords (f_data (disk w2)) = Ret ([], kHeaderSize).
Proof. vm_compute. auto. Qed.
