(* ===== verification/WriteCoordinator.v ===== *)
(** * The write coordinator (src/store/write_coordinator.cpp)

    The PENDING -> COMMITTED / ROLLBACK state machine of a document write: the
    tables [active_txns_] and [active_docs_], the transaction calls on top of
    pending.wal and crash recovery.  The three stores recovery consults are
    the class [RecoverStores]; the registered cleanup is a function on the
    same store state.  Each call is written as the composition of its critical
    sections ([BeginReserve], [BeginUndo], [CheckAndMarkFinalizing],
    [ReleaseDoc], [CommitFinish], [Sweep]), which are also the steps of the
    concurrent machine of WriteCoordinatorTheory. *)
From S2P Require Import Prelude Status PendingEntryCodec Posix PendingLog.
Open Scope run_scope.

Import PendingEntry.

(** [IVectorStore::Exists], [IMetadataStore::BlockExists] and
    [IBlobStore::BlobExists] over the state [S] of the stores. *)
Class RecoverStores (S : Type) := {
  BlobExists : bytes -> S -> bool;
  BlockExists : list Z -> S -> bool;
  VectorExists : Z -> S -> bool
}.

Module WriteCoordinator.
Import PendingLogWriter(PendingLogWriter, WalStats).

Record WriteCoordinatorConfig := MkConfig {
  group_commit_max_batch : Z;
  group_commit_timeout_ms : Z;
  commit_max_retries : Z;
  commit_retry_base_ms : Z;
  compact_threshold : Z;
  max_recovery_entries : Z;
  strict_recovery : bool
}.

Definition default_config : WriteCoordinatorConfig := MkConfig 32 5 3 1 1000 10000 false.

Record TxnHandle := MkTxnHandle { h_txn_id : Z; h_lsn : Z }.

Record TxnState := MkTxnState {
  ts_state : State;
  ts_doc_id : bytes;
  ts_block_ids : list Z;
  ts_scope : Scope
}.

Record WriteCoordinator := MkWC {
  config_ : WriteCoordinatorConfig;
  wal_ : option PendingLogWriter;
  next_txn_id_ : Z;
  active_txns_ : gmap Z TxnState;
  active_docs_ : gmap bytes Z;
  committed_since_compact_ : Z
}.

Definition New (config : WriteCoordinatorConfig) : WriteCoordinator :=
  MkWC config None 1 ∅ ∅ 0.

Definition set_wal (c : WriteCoordinator) (w : PendingLogWriter) : WriteCoordinator :=
  MkWC (config_ c) (Some w) (next_txn_id_ c) (active_txns_ c) (active_docs_ c)
    (committed_since_compact_ c).
Definition set_tables (c : WriteCoordinator) (txns : gmap Z TxnState) (docs : gmap bytes Z)
    : WriteCoordinator :=
  MkWC (config_ c) (wal_ c) (next_txn_id_ c) txns docs (committed_since_compact_ c).

Definition not_initialized : Status :=
  PwlStatus kUnavailable pwl_errors.kWriteFailed "WriteCoordinator not initialized".

(** [Init] on the file found at <data_dir>/pending.wal. *)
Definition Init (f : file) (s : script) (c : WriteCoordinator) : Run unit * WriteCoordinator :=
  match (PendingLogWriter.Open f s).1.1 with
  | Ret w => (Ret tt, set_wal c w)
  | Fail st => (Fail st, c)
  | Undef => (Undef, c)
  end.

(** ** The critical sections *)

(** The locked block of [BeginWrite]: reserve the doc and allocate the txn. *)
Definition BeginReserve (doc_id : bytes) (block_ids : list Z) (scope : Scope)
    (c : WriteCoordinator) : option (Z * WriteCoordinator) :=
  match active_docs_ c !! doc_id with
  | Some _ => None
  | None =>
      let txn_id := next_txn_id_ c in
      Some (txn_id,
        MkWC (config_ c) (wal_ c) (u64 (txn_id + 1))
          (<[txn_id := MkTxnState kPending doc_id block_ids scope]> (active_txns_ c))
          (<[doc_id := txn_id]> (active_docs_ c)) (committed_since_compact_ c))
  end.

(** The undo of the reservation when the append failed. *)
Definition BeginUndo (txn_id : Z) (doc_id : bytes) (c : WriteCoordinator) : WriteCoordinator :=
  set_tables c (delete txn_id (active_txns_ c)) (delete doc_id (active_docs_ c)).

Definition CheckAndMarkFinalizing (txn_id : Z) (new_state : State) (c : WriteCoordinator)
    : Run TxnState * WriteCoordinator :=
  match active_txns_ c !! txn_id with
  | None => (Fail (PwlStatus kNotFound pwl_errors.kTxnNotFound "no such transaction"), c)
  | Some ts =>
      match ts_state ts with
      | kCommitted =>
          (Fail (PwlStatus kAlreadyExists pwl_errors.kTxnAlreadyCommitted
                   "transaction already committed"), c)
      | kRollback =>
          (Fail (PwlStatus kAlreadyExists pwl_errors.kTxnAlreadyRollback
                   "transaction already rolled back"), c)
      | kPending =>
          (Ret ts,
           set_tables c (<[txn_id := MkTxnState new_state (ts_doc_id ts) [] (ts_scope ts)]>
                           (active_txns_ c)) (active_docs_ c))
      end
  end.

(** [if (!orig.doc_id.empty()) active_docs_.erase(orig.doc_id);] *)
Definition ReleaseDoc (doc_id : bytes) (c : WriteCoordinator) : WriteCoordinator :=
  if decide (doc_id = []) then c
  else set_tables c (active_txns_ c) (delete doc_id (active_docs_ c)).

(** The locked block of a successful [Commit]; the flag is [do_compact]. *)
Definition CommitFinish (orig : TxnState) (c : WriteCoordinator) : bool * WriteCoordinator :=
  let c := ReleaseDoc (ts_doc_id orig) c in
  let n := u32 (committed_since_compact_ c + 1) in
  let threshold := compact_threshold (config_ c) in
  let do_compact := (0 <? threshold) && (u32 threshold <=? n) in
  (do_compact,
   MkWC (config_ c) (wal_ c) (next_txn_id_ c) (active_txns_ c) (active_docs_ c)
     (if do_compact then 0 else n)).

(** Drop the terminal entries of the table after an inline compaction. *)
Definition Sweep (c : WriteCoordinator) : WriteCoordinator :=
  set_tables c (filter (fun kv => ts_state kv.2 = kPending) (active_txns_ c)) (active_docs_ c).

(** ** The transaction interface *)

Definition pending_entry (txn_id now : Z) (doc_id : bytes) (block_ids : list Z)
    (writes_blob : bool) (scope : Scope) : PendingEntry :=
  MkPendingEntry kPending txn_id now doc_id block_ids writes_blob scope.
Definition terminal_entry (st : State) (txn_id now : Z) : PendingEntry :=
  MkPendingEntry st txn_id now [] [] false kDocument.

Definition BeginWrite (now : Z) (doc_id : bytes) (block_ids : list Z) (writes_blob : bool)
    (scope : Scope) (c : WriteCoordinator) : Run TxnHandle * WriteCoordinator :=
  match wal_ c with
  | None => (Fail not_initialized, c)
  | Some wal =>
      match BeginReserve doc_id block_ids scope c with
      | None =>
          (Fail (PwlStatus kAlreadyExists pwl_errors.kDocWriteInProgress
                   "doc_id already has a live transaction: "), c)
      | Some (txn_id, c) =>
          let e := pending_entry txn_id now doc_id block_ids writes_blob scope in
          let '(w, wal) := PendingLogWriter.Append e wal in
          let c := set_wal c wal in
          if negb (status_ok w) then
            (Fail (PwlStatus kUnavailable pwl_errors.kWriteFailed "append PENDING failed: "),
             BeginUndo txn_id doc_id c)
          else (Ret (MkTxnHandle txn_id txn_id), c)
      end
  end.

(** The retry loop of [Commit]; [attempts] is how many are left.  The delay is
    an [int]: its overflow is undefined behaviour. *)
Fixpoint AppendRetry (attempts : nat) (delay_ms : Z) (e : PendingEntry) (wal : PendingLogWriter)
    : Run Status * PendingLogWriter :=
  match attempts with
  | O => (Ret Status_Ok, wal)
  | S n =>
      let '(w, wal) := PendingLogWriter.Append e wal in
      if status_ok w then (Ret w, wal) else
      match n with
      | O => (Ret w, wal)
      | S _ =>
          let next := delay_ms * 10 in
          if (next <? - 2 ^ 31) || (2 ^ 31 <=? next) then (Undef, wal)
          else AppendRetry n next e wal
      end
  end.

Definition Commit (now : Z) (txn : TxnHandle) (c : WriteCoordinator) : Run unit * WriteCoordinator :=
  match wal_ c with
  | None => (Fail not_initialized, c)
  | Some wal =>
      match CheckAndMarkFinalizing (h_txn_id txn) kCommitted c with
      | (Fail s, c) => (Fail s, c)
      | (Undef, c) => (Undef, c)
      | (Ret orig, c) =>
          let e := terminal_entry kCommitted (h_txn_id txn) now in
          let attempts := Z.to_nat (commit_max_retries (config_ c) + 1) in
          let '(r, wal) := AppendRetry attempts (commit_retry_base_ms (config_ c)) e wal in
          let c := set_wal c wal in
          match r with
          | Fail s => (Fail s, c)
          | Undef => (Undef, c)
          | Ret w =>
              if negb (status_ok w) then
                (Fail (PwlStatus kUnavailable pwl_errors.kWriteFailed
                         "append COMMITTED failed after retries: "),
                 ReleaseDoc (ts_doc_id orig) c)
              else
                let '(do_compact, c) := CommitFinish orig c in
                if do_compact then
                  let '(cr, wal) := PendingLogWriter.Compact wal in
                  let c := set_wal c wal in
                  match cr with
                  | Ret _ => (Ret tt, Sweep c)
                  | Fail _ => (Ret tt, c)
                  | Undef => (Undef, c)
                  end
                else (Ret tt, c)
          end
      end
  end.

Section stores.
Context {S : Type} `{RecoverStores S}.

(** The registered [RollbackCallback]; [None] when none was set. *)
Definition RollbackCallback : Type := option (PendingEntry -> S -> Status * S).

Definition Rollback (cb : RollbackCallback) (now : Z) (txn : TxnHandle)
    (c : WriteCoordinator) (s : S) : Run unit * WriteCoordinator * S :=
  match wal_ c with
  | None => (Fail not_initialized, c, s)
  | Some wal =>
      match CheckAndMarkFinalizing (h_txn_id txn) kRollback c with
      | (Fail st, c) => (Fail st, c, s)
      | (Undef, c) => (Undef, c, s)
      | (Ret orig, c) =>
          let '(w, wal) := PendingLogWriter.Append (terminal_entry kRollback (h_txn_id txn) now) wal in
          let c := set_wal c wal in
          if negb (status_ok w) then
            (Fail (PwlStatus kUnavailable pwl_errors.kWriteFailed "append ROLLBACK failed: "), c, s)
          else
            let c := ReleaseDoc (ts_doc_id orig) c in
            match cb with
            | None => (Ret tt, c, s)
            | Some f =>
                let payload := MkPendingEntry kPending (h_txn_id txn) 0 (ts_doc_id orig)
                                 (ts_block_ids orig) false (ts_scope orig) in
                let '(r, s) := f payload s in
                if negb (status_ok r) then
                  (Fail (PwlStatus kInternal pwl_errors.kRollbackCallbackFailed
                           "rollback callback failed: "), c, s)
                else (Ret tt, c, s)
            end
      end
  end.

(** ** Crash recovery *)

Definition AllStoresHave (pending : PendingEntry) (s : S) : bool :=
  if has_blob pending && negb (BlobExists (doc_id pending) s) then false
  else if negb (bool_decide (block_ids pending = [])) && negb (BlockExists (block_ids pending) s)
  then false
  else forallb (fun b => VectorExists b s) (block_ids pending).

Record TxnRecord := MkTxnRecord {
  has_pending : bool;
  has_committed : bool;
  has_rollback : bool;
  r_pending : PendingEntry
}.

Definition NewTxnRecord : TxnRecord := MkTxnRecord false false false empty_entry.

(** One turn of the grouping loop. *)
Definition NoteRecord (m : gmap Z TxnRecord) (e : PendingEntry) : gmap Z TxnRecord :=
  let r := default NewTxnRecord (m !! txn_id e) in
  <[txn_id e :=
      match state e with
      | kPending => MkTxnRecord true (has_committed r) (has_rollback r) e
      | kCommitted => MkTxnRecord (has_pending r) true (has_rollback r) (r_pending r)
      | kRollback => MkTxnRecord (has_pending r) (has_committed r) true (r_pending r)
      end]> m.

Definition GroupByTxn (entries : list PendingEntry) : gmap Z TxnRecord :=
  foldl NoteRecord ∅ entries.
Definition MaxTxn (entries : list PendingEntry) : Z :=
  foldl (fun m e => Z.max m (txn_id e)) 0 entries.

Definition recovery_failed (detail : string) : Status :=
  PwlStatus kInternal pwl_errors.kRecoveryFailed detail.

(** The body of the resolve loop for one transaction. *)
Definition ResolveTxn (strict : bool) (cb : RollbackCallback) (now : Z -> Z)
    (txn_id : Z) (r : TxnRecord) (wal : PendingLogWriter) (s : S)
    : Run unit * PendingLogWriter * S :=
  if has_committed r then (Ret tt, wal, s) else
  let '(needs_cleanup, infer_committed) :=
    if has_rollback r then (true, false)
    else if has_pending r then
      let present := AllStoresHave (r_pending r) s in (negb present, present)
    else (false, false) in
  let '(cb_failed, s) :=
    match cb with
    | Some f =>
        if needs_cleanup then
          let p := if has_pending r then r_pending r else empty_entry in
          let payload := MkPendingEntry kPending txn_id (timestamp_ms p) (doc_id p)
                           (block_ids p) (has_blob p) (scope p) in
          let '(st, s) := f payload s in (negb (status_ok st), s)
        else (false, s)
    | None => (false, s)
    end in
  if cb_failed && strict then
    (Fail (recovery_failed "strict recovery: cleanup failed for txn "), wal, s)
  else if has_pending r && negb (has_rollback r) then
    let term := terminal_entry (if infer_committed then kCommitted else kRollback)
                  txn_id (now txn_id) in
    let '(w, wal) := PendingLogWriter.Append term wal in
    if negb (status_ok w) && strict then
      (Fail (recovery_failed "strict recovery: failed to finalize txn "), wal, s)
    else (Ret tt, wal, s)
  else (Ret tt, wal, s).

Fixpoint ResolveAll (strict : bool) (cb : RollbackCallback) (now : Z -> Z)
    (kvs : list (Z * TxnRecord)) (wal : PendingLogWriter) (s : S)
    : Run unit * PendingLogWriter * S :=
  match kvs with
  | [] => (Ret tt, wal, s)
  | (txn_id, r) :: rest =>
      let '(res, wal, s) := ResolveTxn strict cb now txn_id r wal s in
      match res with
      | Ret _ => ResolveAll strict cb now rest wal s
      | err => (err, wal, s)
      end
  end.

(** [iter] is the iteration order of the [unordered_map], [stores_set] whether
    the three store pointers are non-null. *)
Definition Recover (iter : gmap Z TxnRecord -> list (Z * TxnRecord)) (stores_set : bool)
    (cb : RollbackCallback) (now : Z -> Z) (c : WriteCoordinator) (s : S)
    : Run unit * WriteCoordinator * S :=
  match wal_ c with
  | None => (Fail not_initialized, c, s)
  | Some wal =>
      if negb stores_set then
        (Fail (PwlStatus kInvalidArgument pwl_errors.kRecoveryFailed
                 "Recover requires vector/metadata/blob stores"), c, s)
      else
      let '(all, wal) := PendingLogWriter.ReadAll wal in
      let c := set_wal c wal in
      match all with
      | Fail st => (Fail st, c, s)
      | Undef => (Undef, c, s)
      | Ret entries =>
          if max_recovery_entries (config_ c) <? i32 (len entries) then
            (Fail (recovery_failed "pending.wal record count exceeds max_recovery_entries"), c, s)
          else
          let '(res, wal, s) := ResolveAll (strict_recovery (config_ c)) cb now
                                  (iter (GroupByTxn entries)) wal s in
          let c := set_wal c wal in
          match res with
          | Fail st => (Fail st, c, s)
          | Undef => (Undef, c, s)
          | Ret _ =>
              let '(cr, wal) := PendingLogWriter.Compact wal in
              let c := set_wal c wal in
              match cr with
              | Fail st => (Fail st, c, s)
              | Undef => (Undef, c, s)
              | Ret _ =>
                  (Ret tt, MkWC (config_ c) (wal_ c) (u64 (MaxTxn entries + 1)) ∅ ∅ 0, s)
              end
          end
      end
  end.

End stores.
Arguments RollbackCallback S : clear implicits.

(** ** Diagnostics *)

Definition GetStats (c : WriteCoordinator) : Run WalStats * WriteCoordinator :=
  match wal_ c with
  | None => (Fail not_initialized, c)
  | Some wal => let '(r, wal) := PendingLogWriter.GetStats wal in (r, set_wal c wal)
  end.

Definition GetPwlSizeBytes (c : WriteCoordinator) : Z :=
  match wal_ c with Some wal => PendingLogWriter.SizeBytes wal | None => 0 end.

End WriteCoordinator.
