(* ===== verification/UnitStores.v ===== *)
(** * The stores of one unit (src/resource/namespace_pool.cpp)

    The recovery adapters and the rollback cleanup that the namespace pool
    registers with the write coordinator of a unit.  SQLite tables are sets of
    rows, the vector index is the set of its live labels; the database handle
    may be null and the index may refuse deletes.  The statements themselves
    are taken to succeed on an open handle. *)
From S2P Require Import Prelude Status PendingEntryCodec WriteCoordinator.

Module UnitStores.
Import PendingEntry.

Record UnitStores := MkUnit {
  vec_ready : bool;           (* IVectorStore::MarkDelete is accepted *)
  db_open : bool;             (* the sqlite3 handle is not null *)
  points : gset Z;            (* labels that Exists() reports *)
  blocks : gset Z;            (* blocks.block_id *)
  label_rows : gmap Z Z;      (* contextual_vec_labels: label -> block_id *)
  parents : gset bytes;       (* parents.doc_id *)
  doc_fts : gset bytes;       (* doc_fts5_index.doc_id *)
  blobs : gset bytes          (* files of <unit_dir>/blob *)
}.

Definition set_points (u : UnitStores) (p : gset Z) : UnitStores :=
  MkUnit (vec_ready u) (db_open u) p (blocks u) (label_rows u) (parents u) (doc_fts u) (blobs u).
Definition set_blocks (u : UnitStores) (b : gset Z) : UnitStores :=
  MkUnit (vec_ready u) (db_open u) (points u) b (label_rows u) (parents u) (doc_fts u) (blobs u).
Definition set_label_rows (u : UnitStores) (l : gmap Z Z) : UnitStores :=
  MkUnit (vec_ready u) (db_open u) (points u) (blocks u) l (parents u) (doc_fts u) (blobs u).
Definition set_docs (u : UnitStores) (p f : gset bytes) : UnitStores :=
  MkUnit (vec_ready u) (db_open u) (points u) (blocks u) (label_rows u) p f (blobs u).

(** [MetadataRecoverAdapter::BlockExists]: the COUNT of the rows IN the list
    against the length of the list. *)
Definition MetadataBlockExists (block_ids : list Z) (u : UnitStores) : bool :=
  if decide (block_ids = []) then true
  else if negb (db_open u) then false
  else Z.of_nat (size (list_to_set block_ids ∩ blocks u)) =? len block_ids.

(** [BlobRecoverAdapter::BlobExists]. *)
Definition AdapterBlobExists (doc_id : bytes) (u : UnitStores) : bool :=
  bool_decide (doc_id ∈ blobs u).

#[global] Instance UnitStores_recover : RecoverStores UnitStores := {|
  BlobExists := AdapterBlobExists;
  BlockExists := MetadataBlockExists;
  VectorExists b u := bool_decide (b ∈ points u)
|}.

(** [IVectorStore::MarkDelete]: idempotent, an absent label is Ok. *)
Definition MarkDelete (label : Z) (u : UnitStores) : bool * UnitStores :=
  if vec_ready u then (true, set_points u (points u ∖ {[label]})) else (false, u).

Definition DeleteLabelRows (labels : list Z) (u : UnitStores) : UnitStores :=
  if negb (db_open u) || bool_decide (labels = []) then u
  else set_label_rows u (foldr delete (label_rows u) labels).

(** The loop that deletes the points and remembers the deleted ones. *)
Fixpoint DropLabels (labels : list Z) (u : UnitStores) : list Z * Z * UnitStores :=
  match labels with
  | [] => ([], 0, u)
  | l :: rest =>
      let '(ok, u) := MarkDelete l u in
      let '(dropped, failed, u) := DropLabels rest u in
      if ok then (l :: dropped, failed, u) else (dropped, failed + 1, u)
  end.

(** SELECT label ... WHERE block_id IN (...). *)
Definition labels_of (block_ids : list Z) (u : UnitStores) : list Z :=
  (map_to_list (filter (fun kv => kv.2 ∈ block_ids) (label_rows u))).*1.

Definition DropContextualPointsOf (block_ids : list Z) (u : UnitStores) : Z * UnitStores :=
  if negb (db_open u) || bool_decide (block_ids = []) then (0, u) else
  let '(dropped, failed, u) := DropLabels (labels_of block_ids u) u in
  (failed, DeleteLabelRows dropped u).

(** The lambda registered by [SetRollbackCallback]. *)
Definition RollbackCleanup (e : PendingEntry) (u : UnitStores) : Status * UnitStores :=
  let u := foldl (fun u b => (MarkDelete b u).2) u (block_ids e) in
  let u := (DropContextualPointsOf (block_ids e) u).2 in
  let u := if db_open u && negb (bool_decide (block_ids e = []))
           then set_blocks u (blocks u ∖ list_to_set (block_ids e)) else u in
  let doc_scoped := bool_decide (scope e = kDocument) in
  let u := if db_open u && doc_scoped && negb (bool_decide (doc_id e = []))
           then set_docs u (parents u ∖ {[doc_id e]}) (doc_fts u ∖ {[doc_id e]}) else u in
  (Status_Ok, u).

(** ** What the cleanup does *)

Definition ready (u : UnitStores) : Prop := vec_ready u = true /\ db_open u = true.

Lemma MarkDelete_all bs u :
  ready u ->
  foldl (fun u b => (MarkDelete b u).2) u bs = set_points u (points u ∖ list_to_set bs).
Proof.
  revert u. induction bs as [|b bs IH]; intros u [Hv Hd]; simpl.
  - destruct u. unfold set_points. simpl. f_equal. set_solver.
  - unfold MarkDelete at 2. rewrite Hv. simpl. rewrite IH by done. unfold set_points. simpl. f_equal. set_solver.
Qed.

Lemma DropLabels_ready ls u :
  ready u -> DropLabels ls u = (ls, 0, set_points u (points u ∖ list_to_set ls)).
Proof.
  revert u. induction ls as [|l ls IH]; intros u [Hv Hd]; simpl.
  - destruct u. unfold set_points. simpl. do 2 f_equal. set_solver.
  - unfold MarkDelete. rewrite Hv, IH by done. unfold set_points. simpl. do 2 f_equal. set_solver.
Qed.

Lemma foldr_delete_lookup (m : gmap Z Z) ls k :
  foldr delete m ls !! k = if decide (k ∈ ls) then None else m !! k.
Proof.
  induction ls as [|l ls IH]; cbn [foldr]; [by rewrite decide_False by apply not_elem_of_nil|].
  destruct (decide (k = l)) as [->|Hne].
  - rewrite lookup_delete_eq. clear IH. by rewrite decide_True by set_solver.
  - rewrite lookup_delete_ne, IH by done. apply decide_ext. rewrite elem_of_cons. naive_solver.
Qed.

Lemma elem_of_labels_of bs u l :
  l ∈ labels_of bs u <-> exists b, label_rows u !! l = Some b /\ b ∈ bs.
Proof.
  unfold labels_of. rewrite list_elem_of_fmap. split.
  - intros ([l' b] & -> & [H1 H2]%elem_of_map_to_list%map_lookup_filter_Some). eauto.
  - intros (b & H1 & H2). exists (l, b). split; [done|].
    by apply elem_of_map_to_list, map_lookup_filter_Some.
Qed.

Lemma DropContextualPointsOf_ready bs u :
  ready u ->
  DropContextualPointsOf bs u =
  (0, set_label_rows (set_points u (points u ∖ list_to_set (labels_of bs u)))
        (foldr delete (label_rows u) (labels_of bs u))).
Proof.
  intros [Hv Hd]. unfold DropContextualPointsOf. rewrite Hd, DropLabels_ready by done.
  assert (labels_of bs u = [] -> u =
    set_label_rows (set_points u (points u ∖ list_to_set (labels_of bs u)))
      (foldr delete (label_rows u) (labels_of bs u))) as Hnil.
  { intros ->. destruct u. unfold set_label_rows, set_points. simpl. f_equal. set_solver. }
  case_bool_decide as Hb; simpl.
  - f_equal. apply Hnil. destruct (labels_of bs u) as [|l ls] eqn:E; [done|].
    destruct (proj1 (elem_of_labels_of bs u l)) as (b & _ & Hin); [rewrite E; left|]. subst bs. set_solver.
  - f_equal. unfold DeleteLabelRows. simpl. rewrite Hd. case_bool_decide as Hl; simpl; [|done].
    rewrite Hl. by destruct u.
Qed.

(** Everything the cleanup changes, on a unit whose index and database are up. *)
Lemma RollbackCleanup_ready e u :
  ready u ->
  let u' := (RollbackCleanup e u).2 in
  ready u' /\
  points u' = points u ∖ list_to_set (block_ids e) ∖ list_to_set (labels_of (block_ids e) u) /\
  blocks u' = blocks u ∖ list_to_set (block_ids e) /\
  (forall l b, label_rows u' !! l = Some b <-> label_rows u !! l = Some b /\ b ∉ block_ids e) /\
  blobs u' = blobs u /\
  (scope e = kBlocksOnly -> parents u' = parents u /\ doc_fts u' = doc_fts u).
Proof.
  intros [Hv Hd]. unfold RollbackCleanup. rewrite MarkDelete_all by done.
  set (u1 := set_points u _). rewrite DropContextualPointsOf_ready by done. cbn [snd].
  change (labels_of (block_ids e) u1) with (labels_of (block_ids e) u).
  set (ls := labels_of (block_ids e) u). set (u2 := set_label_rows _ _).
  change (db_open u2) with (db_open u). rewrite Hd. cbn [andb].
  set (u3 := if negb _ then _ else u2).
  assert (vec_ready u3 = true /\ db_open u3 = true /\ points u3 = points u2 /\
    blocks u3 = blocks u ∖ list_to_set (block_ids e) /\ label_rows u3 = label_rows u2 /\
    blobs u3 = blobs u /\ parents u3 = parents u /\ doc_fts u3 = doc_fts u) as (E1 & E2 & E3 & E4 & E5 & E6 & E7 & E8).
  { unfold u3. case_bool_decide as Hb; simpl; [rewrite Hb|by auto 10].
    repeat split; try done. simpl. set_solver. }
  set (u4 := if _ && _ then _ else u3).
  assert (points u4 = points u3 /\ blocks u4 = blocks u3 /\ label_rows u4 = label_rows u3 /\
    blobs u4 = blobs u3 /\ vec_ready u4 = vec_ready u3 /\ db_open u4 = db_open u3 /\
    (scope e = kBlocksOnly -> parents u4 = parents u3 /\ doc_fts u4 = doc_fts u3))
    as (F1 & F2 & F3 & F4 & F5 & F6 & F7).
  { unfold u4. destruct (_ && _) eqn:Eb; [|by auto 10]. simpl.
    do 6 (split; [done|]). intros Hs. exfalso. rewrite Hs in Eb. by rewrite E2 in Eb. }
  rewrite F1, F2, F3, F4. unfold ready. rewrite F5, F6, E1, E2, E3, E4, E5, E6.
  split; [done|]. split; [done|]. split; [done|]. split; [|split; [done|]].
  - intros l b. unfold u2. cbn [label_rows set_label_rows]. rewrite foldr_delete_lookup.
    change (label_rows u1) with (label_rows u). case_decide as Hin.
    + split; [done|]. intros [H1 H2]. apply elem_of_labels_of in Hin as (b' & H3 & H4). congruence.
    + split; [|by intros [? _]]. intros H. split; [done|]. intros Hb. apply Hin, elem_of_labels_of. eauto.
  - intros Hs. destruct (F7 Hs) as [-> ->]. by rewrite E7, E8.
Qed.

End UnitStores.
