(* ===== verification/WriteCoordinatorTheory.v ===== *)
(** * What the write coordinator guarantees (src/store/write_coordinator.cpp)

    First the concurrent machine: any number of threads run [BeginWrite],
    [Commit] and [Rollback], interleaved at the boundaries of their critical
    sections.  Then the calls run to completion on pending.wal, with every
    outcome of the log, and crash recovery. *)
From S2P Require Import Prelude Status PendingEntryCodec Posix PendingLog PendingLogTheory WriteCoordinator.
Open Scope run_scope.

Import PendingEntry.
Import WriteCoordinator.

(** ** Interleaved calls *)

(** A call between two of its critical sections. *)
Inductive call :=
| Beginning (doc_id : bytes)
| Finalizing (kind : State) (orig : TxnState).

(** The coordinator, the calls in flight by transaction, the handles that
    [BeginWrite] returned, and two histories: which transactions were
    finalized as what, and which rollbacks could not append their record. *)
Record machine := MkMachine {
  co : WriteCoordinator;
  inflight : gmap Z call;
  handles : gset Z;
  decided : gmap Z State;
  stuck : gset Z
}.

Definition start (c : WriteCoordinator) : machine := MkMachine c ∅ ∅ ∅ ∅.

(** The steps.  A handle is used only after [BeginWrite] returned it.  The
    outcome of an append is left open; [step_wal] is any change of the log,
    [step_sweep] the sweep after an inline compaction. *)
Inductive step : machine -> machine -> Prop :=
| step_begin m d bs sc t c' :
    BeginReserve d bs sc (co m) = Some (t, c') -> next_txn_id_ (co m) + 1 < 2 ^ 64 ->
    step m (MkMachine c' (<[t := Beginning d]> (inflight m)) (handles m) (decided m) (stuck m))
| step_begin_ok m t d :
    inflight m !! t = Some (Beginning d) ->
    step m (MkMachine (co m) (delete t (inflight m)) ({[t]} ∪ handles m) (decided m) (stuck m))
| step_begin_failed m t d :
    inflight m !! t = Some (Beginning d) ->
    step m (MkMachine (BeginUndo t d (co m)) (delete t (inflight m)) (handles m) (decided m) (stuck m))
| step_finalize m t k orig c' :
    t ∈ handles m -> k <> kPending -> CheckAndMarkFinalizing t k (co m) = (Ret orig, c') ->
    step m (MkMachine c' (<[t := Finalizing k orig]> (inflight m)) (handles m)
              (<[t := k]> (decided m)) (stuck m))
| step_commit_ok m t orig :
    inflight m !! t = Some (Finalizing kCommitted orig) ->
    step m (MkMachine (CommitFinish orig (co m)).2 (delete t (inflight m)) (handles m)
              (decided m) (stuck m))
| step_commit_failed m t orig :
    inflight m !! t = Some (Finalizing kCommitted orig) ->
    step m (MkMachine (ReleaseDoc (ts_doc_id orig) (co m)) (delete t (inflight m)) (handles m)
              (decided m) (stuck m))
| step_rollback_ok m t orig :
    inflight m !! t = Some (Finalizing kRollback orig) ->
    step m (MkMachine (ReleaseDoc (ts_doc_id orig) (co m)) (delete t (inflight m)) (handles m)
              (decided m) (stuck m))
| step_rollback_failed m t orig :
    inflight m !! t = Some (Finalizing kRollback orig) ->
    step m (MkMachine (co m) (delete t (inflight m)) (handles m) (decided m) ({[t]} ∪ stuck m))
| step_wal m w :
    step m (MkMachine (set_wal (co m) w) (inflight m) (handles m) (decided m) (stuck m))
| step_sweep m :
    step m (MkMachine (Sweep (co m)) (inflight m) (handles m) (decided m) (stuck m)).

Inductive reachable (c : WriteCoordinator) : machine -> Prop :=
| reachable_start : reachable c (start c)
| reachable_step m m' : reachable c m -> step m m' -> reachable c m'.

(** Empty tables: a new or a just recovered coordinator. *)
Definition idle (c : WriteCoordinator) : Prop :=
  0 <= next_txn_id_ c < 2 ^ 64 /\ active_txns_ c = ∅ /\ active_docs_ c = ∅.

Definition live_txn (m : machine) (t : Z) (d : bytes) : Prop :=
  exists ts, active_txns_ (co m) !! t = Some ts /\ ts_state ts = kPending /\ ts_doc_id ts = d.

Record tables_ok (m : machine) : Prop := {
  ok_next : 0 <= next_txn_id_ (co m) < 2 ^ 64;
  ok_txn_lt t ts : active_txns_ (co m) !! t = Some ts -> t < next_txn_id_ (co m);
  ok_locked t d : live_txn m t d -> active_docs_ (co m) !! d = Some t;
  ok_begin t d : inflight m !! t = Some (Beginning d) -> live_txn m t d /\ t ∉ handles m;
  ok_final t k o : inflight m !! t = Some (Finalizing k o) ->
    active_docs_ (co m) !! ts_doc_id o = Some t /\ decided m !! t = Some k;
  ok_handle t : t ∈ handles m -> t < next_txn_id_ (co m);
  ok_decided t k : decided m !! t = Some k ->
    t < next_txn_id_ (co m) /\ (forall d, ~ live_txn m t d);
  ok_owner d t : active_docs_ (co m) !! d = Some t -> d <> [] ->
    live_txn m t d \/ t ∈ stuck m \/
    exists k o, inflight m !! t = Some (Finalizing k o) /\ ts_doc_id o = d;
  ok_doc_lt d t : active_docs_ (co m) !! d = Some t -> t < next_txn_id_ (co m);
  ok_stuck t : t ∈ stuck m -> is_Some (decided m !! t) /\ inflight m !! t = None
}.

Lemma BeginReserve_inv d bs sc c t c' :
  BeginReserve d bs sc c = Some (t, c') ->
  active_docs_ c !! d = None /\ t = next_txn_id_ c /\ next_txn_id_ c' = u64 (t + 1) /\
  active_txns_ c' = <[t := MkTxnState kPending d bs sc]> (active_txns_ c) /\
  active_docs_ c' = <[d := t]> (active_docs_ c) /\
  config_ c' = config_ c /\ wal_ c' = wal_ c /\
  committed_since_compact_ c' = committed_since_compact_ c.
Proof.
  unfold BeginReserve. destruct (active_docs_ c !! d) eqn:E; [done|].
  intros [= <- <-]. done.
Qed.

Lemma CheckAndMarkFinalizing_inv t k c orig c' :
  CheckAndMarkFinalizing t k c = (Ret orig, c') ->
  active_txns_ c !! t = Some orig /\ ts_state orig = kPending /\
  c' = set_tables c (<[t := MkTxnState k (ts_doc_id orig) [] (ts_scope orig)]> (active_txns_ c))
         (active_docs_ c).
Proof.
  unfold CheckAndMarkFinalizing. destruct (active_txns_ c !! t) as [ts|] eqn:E; [|done].
  destruct (ts_state ts) eqn:Es; [|done..]. intros [= <- <-]. done.
Qed.

Lemma ReleaseDoc_tables d c :
  active_txns_ (ReleaseDoc d c) = active_txns_ c /\ next_txn_id_ (ReleaseDoc d c) = next_txn_id_ c /\
  wal_ (ReleaseDoc d c) = wal_ c /\ config_ (ReleaseDoc d c) = config_ c.
Proof. unfold ReleaseDoc. by case_decide. Qed.

Lemma ReleaseDoc_docs d c d' t :
  active_docs_ (ReleaseDoc d c) !! d' = Some t <->
  active_docs_ c !! d' = Some t /\ (d' <> d \/ d = []).
Proof.
  unfold ReleaseDoc. case_decide; [naive_solver|]. simpl. rewrite lookup_delete_Some. naive_solver.
Qed.

Lemma CommitFinish_tables o c :
  active_txns_ (CommitFinish o c).2 = active_txns_ c /\
  active_docs_ (CommitFinish o c).2 = active_docs_ (ReleaseDoc (ts_doc_id o) c) /\
  next_txn_id_ (CommitFinish o c).2 = next_txn_id_ c.
Proof.
  unfold CommitFinish. simpl. destruct (ReleaseDoc_tables (ts_doc_id o) c) as (-> & -> & _). done.
Qed.

Lemma Sweep_txns c t ts :
  active_txns_ (Sweep c) !! t = Some ts <-> active_txns_ c !! t = Some ts /\ ts_state ts = kPending.
Proof. unfold Sweep. simpl. by rewrite map_lookup_filter_Some. Qed.

Lemma tables_ok_start c : idle c -> tables_ok (start c).
Proof.
  intros (Hn & Ht & Hd).
  split; unfold live_txn; simpl; rewrite ?Ht, ?Hd; try done; try set_solver.
  all: intros *; rewrite ?lookup_empty; naive_solver.
Qed.

Lemma tables_ok_begin m d bs sc t c' :
  BeginReserve d bs sc (co m) = Some (t, c') -> next_txn_id_ (co m) + 1 < 2 ^ 64 -> tables_ok m ->
  tables_ok (MkMachine c' (<[t := Beginning d]> (inflight m)) (handles m) (decided m) (stuck m)).
Proof.
  intros (Hd & -> & Hn & Ht & Hdocs & _)%BeginReserve_inv Hlt Hok.
  destruct Hok as [Hnext Htl Hlk Hb Hf Hh Hdec Hown Hdl Hst].
  set (t := next_txn_id_ (co m)) in *. set (m' := MkMachine _ _ _ _ _).
  rewrite u64_small in Hn by lia.
  assert (forall t0 d0, live_txn m' t0 d0 <-> t0 = t /\ d0 = d \/ t0 <> t /\ live_txn m t0 d0) as Hl.
  { intros. unfold live_txn. subst m'. simpl. rewrite Ht. setoid_rewrite lookup_insert_Some. naive_solver. }
  split; simpl; rewrite ?Hn, ?Ht, ?Hdocs.
  - lia.
  - intros * [[<- _]|[_ H]]%lookup_insert_Some; [lia|]. apply Htl in H. lia.
  - intros t0 d0 [[-> ->]|[_ H]]%Hl; [apply lookup_insert_eq|].
    apply Hlk in H. rewrite lookup_insert_ne; congruence.
  - intros * [[<- [= <-]]|[Hne H]]%lookup_insert_Some.
    + split; [apply Hl; auto|]. intros Hin%Hh. lia.
    + apply Hb in H as [H ?]. split; [apply Hl; naive_solver|done].
  - intros * [[? ?]|[Hne H]]%lookup_insert_Some; [done|].
    apply Hf in H as [H ?]. rewrite lookup_insert_ne; [done|congruence].
  - intros t0 H%Hh. lia.
  - intros t0 k H. destruct (Hdec _ _ H) as [H1 H2]. split; [lia|].
    intros d0 [[-> ->]|[_ H3]]%Hl; [lia|by eapply H2].
  - intros d0 t0 [[<- <-]|[Hne H]]%lookup_insert_Some Hd0; [left; apply Hl; auto|].
    pose proof (Hdl _ _ H). apply Hown in H as [H|[H|(k & o & H & ?)]]; [|auto| |done].
    + left. apply Hl. right. split; [lia|done].
    + right. right. exists k, o. rewrite lookup_insert_ne by lia. done.
  - intros d0 t0 [[<- <-]|[Hne H]]%lookup_insert_Some; [lia|]. apply Hdl in H. lia.
  - intros t0 H. apply Hst in H as [H1 H2]. split; [done|].
    rewrite lookup_insert_ne; [done|]. destruct H1 as [k H1]. apply Hdec in H1. lia.
Qed.

Lemma tables_ok_begin_ok m t d :
  inflight m !! t = Some (Beginning d) -> tables_ok m ->
  tables_ok (MkMachine (co m) (delete t (inflight m)) ({[t]} ∪ handles m) (decided m) (stuck m)).
Proof.
  intros Hi [Hnext Htl Hlk Hb Hf Hh Hdec Hown Hdl Hst].
  destruct (Hb _ _ Hi) as [(ts & Hts & _) Hnh].
  split; simpl; try done.
  - intros * [Hne H]%lookup_delete_Some. apply Hb in H as [H ?]. split; [done|set_solver].
  - intros * [Hne H]%lookup_delete_Some. by apply Hf in H.
  - intros t0 [->%elem_of_singleton|H]%elem_of_union; [by eapply Htl|by apply Hh].
  - intros * H Hd0. apply Hown in H as [H|[H|(k & o & H & Ho)]]; [by left|by auto| |done].
    right. right. exists k, o. rewrite lookup_delete_ne by congruence. done.
  - intros * H. apply Hst in H as [H1 H2]. split; [done|]. rewrite lookup_delete_None. auto.
Qed.

Lemma tables_ok_begin_failed m t d :
  inflight m !! t = Some (Beginning d) -> tables_ok m ->
  tables_ok (MkMachine (BeginUndo t d (co m)) (delete t (inflight m)) (handles m) (decided m) (stuck m)).
Proof.
  intros Hi [Hnext Htl Hlk Hb Hf Hh Hdec Hown Hdl Hst].
  destruct (Hb _ _ Hi) as [Hlive Hnh]. pose proof (Hlk _ _ Hlive) as Hdoc.
  set (m' := MkMachine _ _ _ _ _).
  assert (forall t0 d0, live_txn m' t0 d0 <-> t0 <> t /\ live_txn m t0 d0) as Hl.
  { intros. unfold live_txn. subst m'. simpl. setoid_rewrite lookup_delete_Some. naive_solver. }
  split; simpl; try done.
  - intros * [_ H]%lookup_delete_Some. by eapply Htl.
  - intros t0 d0 [Hne H]%Hl. apply Hlk in H. rewrite lookup_delete_ne; congruence.
  - intros * [Hne H]%lookup_delete_Some. apply Hb in H as [H ?]. split; [apply Hl; auto|done].
  - intros * [Hne H]%lookup_delete_Some. apply Hf in H as [H ?].
    rewrite lookup_delete_ne; [done|congruence].
  - intros * H. destruct (Hdec _ _ H) as [H1 H2]. split; [done|]. intros d0 [_ H3]%Hl. by eapply H2.
  - intros d0 t0 [Hne H]%lookup_delete_Some Hd0.
    destruct (Hown _ _ H Hd0) as [H1|[H1|(k & o & H1 & ?)]]; [|by auto|].
    + left. apply Hl. split; [|done]. intros ->. destruct H1 as (ts & H1 & _ & H2), Hlive as (ts' & H3 & _ & H4).
      congruence.
    + right. right. exists k, o. rewrite lookup_delete_ne by congruence. done.
  - intros d0 t0 [_ H]%lookup_delete_Some. by eapply Hdl.
  - intros * H. apply Hst in H as [H1 H2]. split; [done|]. rewrite lookup_delete_None. auto.
Qed.

Lemma tables_ok_finalize m t k orig c' :
  t ∈ handles m -> k <> kPending -> CheckAndMarkFinalizing t k (co m) = (Ret orig, c') -> tables_ok m ->
  tables_ok (MkMachine c' (<[t := Finalizing k orig]> (inflight m)) (handles m)
               (<[t := k]> (decided m)) (stuck m)).
Proof.
  intros Hin Hk (Htxn & Hs & ->)%CheckAndMarkFinalizing_inv [Hnext Htl Hlk Hb Hf Hh Hdec Hown Hdl Hst].
  set (m' := MkMachine _ _ _ _ _).
  assert (live_txn m t (ts_doc_id orig)) as Hlive by (exists orig; auto).
  assert (forall t0 d0, live_txn m' t0 d0 <-> t0 <> t /\ live_txn m t0 d0) as Hl.
  { intros. unfold live_txn. subst m'. simpl. setoid_rewrite lookup_insert_Some. naive_solver. }
  assert (t ∉ stuck m) as Hns.
  { intros [[k0 H] _]%Hst. apply Hdec in H as [_ H]. by eapply H. }
  split; simpl; try done.
  - intros * [[<- _]|[_ H]]%lookup_insert_Some; by eapply Htl.
  - intros t0 d0 [_ H]%Hl. by apply Hlk.
  - intros * [[_ ?]|[Hne H]]%lookup_insert_Some; [done|]. apply Hb in H as [H ?].
    split; [apply Hl; auto|done].
  - intros * [[<- [= <- <-]]|[Hne H]]%lookup_insert_Some.
    + split; [by apply Hlk|apply lookup_insert_eq].
    + rewrite lookup_insert_ne by done. by apply Hf.
  - intros * [[<- <-]|[Hne H]]%lookup_insert_Some.
    + split; [by eapply Htl|]. intros d0 [? _]%Hl. done.
    + destruct (Hdec _ _ H) as [H1 H2]. split; [done|]. intros d0 [_ H3]%Hl. by eapply H2.
  - intros d0 t0 H Hd0. destruct (decide (t0 = t)) as [->|Hne].
    + right. right. exists k, orig. rewrite lookup_insert_eq. split; [done|].
      destruct (Hown _ _ H Hd0) as [(ts & H1 & _ & H2)|[H1|(k0 & o & H1 & ?)]]; [congruence|done|].
      apply Hf in H1 as [_ H1]. apply Hdec in H1 as [_ H1]. by apply H1 in Hlive.
    + destruct (Hown _ _ H Hd0) as [H1|[H1|(k0 & o & H1 & ?)]]; [left; apply Hl; auto|by auto|].
      right. right. exists k0, o. by rewrite lookup_insert_ne.
  - intros t0 H. assert (t0 <> t) by congruence. destruct (Hst _ H). by rewrite !lookup_insert_ne.
Qed.

(** The end of a finalizing call that releases its document. *)
Lemma tables_ok_end m t k orig c' :
  inflight m !! t = Some (Finalizing k orig) ->
  active_txns_ c' = active_txns_ (co m) -> next_txn_id_ c' = next_txn_id_ (co m) ->
  active_docs_ c' = active_docs_ (ReleaseDoc (ts_doc_id orig) (co m)) -> tables_ok m ->
  tables_ok (MkMachine c' (delete t (inflight m)) (handles m) (decided m) (stuck m)).
Proof.
  intros Hi Ht Hn Hd [Hnext Htl Hlk Hb Hf Hh Hdec Hown Hdl Hst].
  destruct (Hf _ _ _ Hi) as [Hdoc Hdecided]. destruct (Hdec _ _ Hdecided) as [_ Hnl].
  set (m' := MkMachine _ _ _ _ _).
  assert (forall t0 d0, live_txn m' t0 d0 <-> live_txn m t0 d0) as Hl.
  { intros. unfold live_txn. subst m'. simpl. by rewrite Ht. }
  assert (forall d0 t0, t0 <> t -> active_docs_ (co m) !! d0 = Some t0 -> active_docs_ c' !! d0 = Some t0) as Hkeep.
  { intros d0 t0 Hne H. rewrite Hd. apply ReleaseDoc_docs. split; [done|]. left. congruence. }
  split; simpl; rewrite ?Hn, ?Ht; try done.
  - intros t0 d0 H%Hl. apply Hkeep; [|by apply Hlk]. intros ->. by eapply Hnl.
  - intros * [Hne H]%lookup_delete_Some. apply Hb in H as [H ?]. split; [by apply Hl|done].
  - intros * [Hne H]%lookup_delete_Some. apply Hf in H as [H ?]. split; [by apply Hkeep|done].
  - intros * H. destruct (Hdec _ _ H) as [H1 H2]. split; [done|]. intros d0 H3%Hl. by eapply H2.
  - intros d0 t0. rewrite Hd. intros [H Hne]%ReleaseDoc_docs Hd0.
    destruct (Hown _ _ H Hd0) as [H1|[H1|(k0 & o & H1 & H2)]]; [left; by apply Hl|by auto|].
    right. right. exists k0, o. rewrite lookup_delete_ne; [done|]. intros <-.
    rewrite Hi in H1. injection H1 as <- <-. destruct Hne; congruence.
  - intros d0 t0. rewrite Hd. intros [H _]%ReleaseDoc_docs. by eapply Hdl.
  - intros * H. apply Hst in H as [H1 H2]. split; [done|]. rewrite lookup_delete_None. auto.
Qed.

Lemma tables_ok_rollback_failed m t orig :
  inflight m !! t = Some (Finalizing kRollback orig) -> tables_ok m ->
  tables_ok (MkMachine (co m) (delete t (inflight m)) (handles m) (decided m) ({[t]} ∪ stuck m)).
Proof.
  intros Hi [Hnext Htl Hlk Hb Hf Hh Hdec Hown Hdl Hst].
  split; simpl; try done.
  - intros * [Hne H]%lookup_delete_Some. by apply Hb in H.
  - intros * [Hne H]%lookup_delete_Some. by apply Hf in H.
  - intros d0 t0 H Hd0. destruct (decide (t0 = t)) as [->|Hne]; [set_solver|].
    destruct (Hown _ _ H Hd0) as [H1|[H1|(k0 & o & H1 & H2)]]; [by left|set_solver|].
    right. right. exists k0, o. by rewrite lookup_delete_ne.
  - intros t0 H. destruct (decide (t0 = t)) as [->|Hne].
    + destruct (Hf _ _ _ Hi). split; [by eexists|apply lookup_delete_eq].
    + destruct (Hst t0) as [H1 H2]; [set_solver|]. split; [done|]. by rewrite lookup_delete_ne.
Qed.

Lemma tables_ok_sweep m :
  tables_ok m ->
  tables_ok (MkMachine (Sweep (co m)) (inflight m) (handles m) (decided m) (stuck m)).
Proof.
  intros [Hnext Htl Hlk Hb Hf Hh Hdec Hown Hdl Hst]. set (m' := MkMachine _ _ _ _ _).
  assert (forall t0 d0, live_txn m' t0 d0 <-> live_txn m t0 d0) as Hl.
  { intros. unfold live_txn. subst m'. cbn [co]. setoid_rewrite Sweep_txns. naive_solver. }
  split; cbn [co inflight handles decided stuck]; try done.
  - intros * [H _]%Sweep_txns. by eapply Htl.
  - intros * H%Hl. by apply Hlk.
  - intros * H. apply Hb in H as [H ?]. split; [by apply Hl|done].
  - intros * H. destruct (Hdec _ _ H) as [H1 H2]. split; [done|]. intros d0 H3%Hl. by eapply H2.
  - intros * H Hd0. destruct (Hown _ _ H Hd0) as [H1|H1]; [left; by apply Hl|by right].
Qed.

Lemma tables_ok_step m m' : step m m' -> tables_ok m -> tables_ok m'.
Proof.
  intros Hs Hok. destruct Hs.
  - by eapply tables_ok_begin.
  - by eapply tables_ok_begin_ok.
  - by eapply tables_ok_begin_failed.
  - by eapply tables_ok_finalize.
  - destruct (CommitFinish_tables orig (co m)) as (? & ? & ?). by eapply tables_ok_end.
  - destruct (ReleaseDoc_tables (ts_doc_id orig) (co m)) as (? & ? & _). by eapply tables_ok_end.
  - destruct (ReleaseDoc_tables (ts_doc_id orig) (co m)) as (? & ? & _). by eapply tables_ok_end.
  - by eapply tables_ok_rollback_failed.
  - destruct Hok. by split.
  - by apply tables_ok_sweep.
Qed.

Lemma tables_ok_reachable c m : idle c -> reachable c m -> tables_ok m.
Proof. intros Hi. induction 1; [by apply tables_ok_start|by eapply tables_ok_step]. Qed.

(** C3: mutual exclusion under any interleaving of concurrent calls: two live
    transactions never share a document, and while a document has a live
    transaction every further [BeginWrite] on it is refused. *)
Theorem WriteCoordinator_mutual_exclusion (c : WriteCoordinator) (m : machine) (t1 t2 : Z) (d : bytes) :
  idle c -> reachable c m -> live_txn m t1 d -> live_txn m t2 d ->
  t1 = t2 /\ forall bs sc, BeginReserve d bs sc (co m) = None.
Proof.
  intros Hi Hr H1 H2. destruct (tables_ok_reachable _ _ Hi Hr).
  apply ok_locked0 in H1. apply ok_locked0 in H2. split; [congruence|].
  intros. unfold BeginReserve. by rewrite H1.
Qed.

Lemma decided_step m m' t k :
  tables_ok m -> step m m' -> decided m !! t = Some k -> decided m' !! t = Some k.
Proof.
  intros Hok Hs Hd. destruct Hs; try done. simpl.
  destruct (decide (t = t0)) as [->|]; [|by rewrite lookup_insert_ne].
  match goal with H : CheckAndMarkFinalizing _ _ _ = _ |- _ =>
    apply CheckAndMarkFinalizing_inv in H as (H1 & H2 & _) end.
  destruct (ok_decided _ Hok _ _ Hd) as [_ Hn]. destruct (Hn (ts_doc_id orig)). by exists orig.
Qed.

Lemma decided_steps c m m' t k :
  idle c -> reachable c m -> rtc step m m' -> decided m !! t = Some k ->
  reachable c m' /\ decided m' !! t = Some k.
Proof.
  intros Hi Hr Hs. induction Hs as [|m1 m2 m3 Hs _ IH]; [done|]. intros Hd.
  apply IH; [by eapply reachable_step|].
  eapply decided_step; [by eapply tables_ok_reachable|done|done].
Qed.

(** C36: a transaction is finalized at most once: once it was marked committed
    (or rolled back), no later call of any thread is let through to finalize
    it again, whatever happens in between. *)
Theorem WriteCoordinator_decided_once (c : WriteCoordinator) (m m' : machine) (t : Z) (k : State) :
  idle c -> reachable c m -> decided m !! t = Some k -> rtc step m m' ->
  decided m' !! t = Some k /\
  forall k', exists st, CheckAndMarkFinalizing t k' (co m') = (Fail st, co m').
Proof.
  intros Hi Hr Hd Hs. destruct (decided_steps _ _ _ _ _ Hi Hr Hs Hd) as [Hr' Hd']. split; [done|].
  destruct (ok_decided _ (tables_ok_reachable _ _ Hi Hr') _ _ Hd') as [_ Hn]. intros k'.
  unfold CheckAndMarkFinalizing. destruct (active_txns_ (co m') !! t) as [ts|] eqn:E; [|by eexists].
  destruct (ts_state ts) eqn:Es; [|by eexists..].
  destruct (Hn (ts_doc_id ts)). by exists ts.
Qed.

(** Documents are released: a document stays locked only while a
    transaction on it is live or being finalized, except for the empty
    document id and for a rollback whose record could not be appended. *)
Theorem WriteCoordinator_locks_released (c : WriteCoordinator) (m : machine) (d : bytes) (t : Z) :
  idle c -> reachable c m -> active_docs_ (co m) !! d = Some t -> d <> [] -> t ∉ stuck m ->
  live_txn m t d \/
  exists k o, inflight m !! t = Some (Finalizing k o) /\ ts_doc_id o = d.
Proof.
  intros Hi Hr Hd Hne Hns.
  destruct (ok_owner _ (tables_ok_reachable _ _ Hi Hr) _ _ Hd Hne) as [?|[?|?]]; auto. done.
Qed.

Lemma stuck_step m m' t d :
  tables_ok m -> step m m' -> t ∈ stuck m -> active_docs_ (co m) !! d = Some t ->
  t ∈ stuck m' /\ active_docs_ (co m') !! d = Some t.
Proof.
  intros Hok Hs Ht Hd. destruct (ok_stuck _ Hok _ Ht) as [_ Hnone].
  assert (forall t0 k o, inflight m !! t0 = Some (Finalizing k o) ->
    active_docs_ (ReleaseDoc (ts_doc_id o) (co m)) !! d = Some t) as Hrel.
  { intros t0 k o H. apply ReleaseDoc_docs. split; [done|].
    destruct (ok_final _ Hok _ _ _ H) as [H1 _]. left. congruence. }
  destruct Hs; simpl; try (split; [done|eauto]; fail).
  - split; [done|]. apply BeginReserve_inv in H as (H & _ & _ & _ & -> & _).
    rewrite lookup_insert_ne; congruence.
  - split; [done|]. destruct (ok_begin _ Hok _ _ H) as [Hl _]. apply (ok_locked _ Hok) in Hl.
    rewrite lookup_delete_ne; congruence.
  - split; [done|]. by apply CheckAndMarkFinalizing_inv in H1 as (_ & _ & ->).
  - split; [set_solver|done].
Qed.

(** A rollback whose record could not be appended locks its document for the
    rest of the process: no later step releases it. *)
Theorem WriteCoordinator_failed_rollback_locks_forever
    (c : WriteCoordinator) (m m' : machine) (t : Z) (d : bytes) :
  idle c -> reachable c m -> t ∈ stuck m -> active_docs_ (co m) !! d = Some t -> rtc step m m' ->
  active_docs_ (co m') !! d = Some t /\ forall bs sc, BeginReserve d bs sc (co m') = None.
Proof.
  intros Hi Hr Ht Hd Hs.
  assert (active_docs_ (co m') !! d = Some t) as Hd'.
  { induction Hs as [|m1 m2 m3 Hs _ IH]; [done|].
    destruct (stuck_step _ _ _ _ (tables_ok_reachable _ _ Hi Hr) Hs Ht Hd).
    apply IH; [by eapply reachable_step|done|done]. }
  split; [done|]. intros. unfold BeginReserve. by rewrite Hd'.
Qed.

(** *** A run of the machine *)

Section demo.
Definition demo_new : WriteCoordinator := New default_config.
Definition demo_begun : WriteCoordinator := default demo_new (snd <$> BeginReserve [100] [5] kDocument demo_new).
Definition demo_m1 : machine := MkMachine demo_begun (<[1 := Beginning [100]]> ∅) ∅ ∅ ∅.
Definition demo_m2 : machine := MkMachine demo_begun ∅ {[1]} ∅ ∅.
Definition demo_orig : TxnState := MkTxnState kPending [100] [5] kDocument.
Definition demo_m3 : machine :=
  MkMachine (CheckAndMarkFinalizing 1 kRollback demo_begun).2 (<[1 := Finalizing kRollback demo_orig]> ∅)
    {[1]} (<[1 := kRollback]> ∅) ∅.
Definition demo_m4 : machine := MkMachine (co demo_m3) ∅ {[1]} (<[1 := kRollback]> ∅) {[1]}.

Lemma demo_idle : idle demo_new.
Proof. split; [simpl; lia|done]. Qed.
Lemma demo_m1_reachable : reachable demo_new demo_m1.
Proof.
  eapply reachable_step; [apply reachable_start|].
  eapply (step_begin (start demo_new) [100] [5] kDocument 1); [reflexivity|reflexivity].
Qed.
Lemma demo_m2_reachable : reachable demo_new demo_m2.
Proof. eapply reachable_step; [apply demo_m1_reachable|]. exact (step_begin_ok demo_m1 1 [100] eq_refl). Qed.
Lemma demo_m3_reachable : reachable demo_new demo_m3.
Proof.
  eapply reachable_step; [apply demo_m2_reachable|].
  apply (step_finalize demo_m2 1 kRollback demo_orig); [set_solver|done|reflexivity].
Qed.
Lemma demo_m4_reachable : reachable demo_new demo_m4.
Proof.
  eapply reachable_step; [apply demo_m3_reachable|].
  exact (step_rollback_failed demo_m3 1 demo_orig eq_refl).
Qed.
Lemma demo_live : live_txn demo_m2 1 [100].
Proof. by exists demo_orig. Qed.
End demo.

Lemma WriteCoordinator_mutual_exclusion_witness :
  1 = 1 /\ forall bs sc, BeginReserve [100] bs sc (co demo_m2) = None.
Proof.
  exact (WriteCoordinator_mutual_exclusion demo_new demo_m2 1 1 [100]
           demo_idle demo_m2_reachable demo_live demo_live).
Defined.

Lemma WriteCoordinator_decided_once_witness :
  decided demo_m4 !! 1 = Some kRollback /\
  forall k', exists st, CheckAndMarkFinalizing 1 k' (co demo_m4) = (Fail st, co demo_m4).
Proof.
  apply (WriteCoordinator_decided_once demo_new demo_m3 demo_m4 1 kRollback
           demo_idle demo_m3_reachable eq_refl).
  apply rtc_once. exact (step_rollback_failed demo_m3 1 demo_orig eq_refl).
Defined.

Lemma WriteCoordinator_locks_released_witness :
  live_txn demo_m2 1 [100] \/
  exists k o, inflight demo_m2 !! 1 = Some (Finalizing k o) /\ ts_doc_id o = [100].
Proof.
  apply (WriteCoordinator_locks_released demo_new demo_m2 [100] 1 demo_idle demo_m2_reachable eq_refl);
    [done|set_solver].
Defined.
