(* ===== verification/WriteCoordinatorCalls.v ===== *)
(** * The calls of the write coordinator on pending.wal

    What [BeginWrite], [Commit] and [Rollback] of
    src/store/write_coordinator.cpp do to the tables and to the log when they
    run to completion, on every branch: refusals, append failures (injected
    through the writer's own fault counter), retries and inline compaction. *)
From S2P Require Import Prelude Status PendingEntryCodec Posix PendingLog PendingLogTheory WriteCoordinator WriteCoordinatorTheory.
Open Scope run_scope.

Import PendingEntry.
Import PendingLogWriter(PendingLogWriter, io_, append_failures_, fd_, path_, log, clean).
Import WriteCoordinator.

(** The log is intact, the device does not fail, and the next [n] appends are
    made to fail by [SetAppendFailures]. *)
Record intact (w : PendingLogWriter) (es : list PendingEntry) (n : Z) : Prop := {
  intact_log : log w es;
  intact_clean : clean w;
  intact_io : io_ w = [];
  intact_faults : append_failures_ w = n
}.

Lemma Append_fault w es n e :
  intact w es n -> 0 < n ->
  exists st w', PendingLogWriter.Append e w = (st, w') /\ status_ok st = false /\ intact w' es (n - 1).
Proof.
  intros [Hl Hc Hi Hf] Hn. unfold PendingLogWriter.Append, PendingLogWriter.TryConsumeInjectedFault.
  rewrite Hf, (proj2 (Z.ltb_lt _ _)) by lia.
  eexists _, _. split; [done|]. split; [done|]. split; [exact Hl|exact Hc|exact Hi|done].
Qed.

Lemma Append_quiet w es e :
  intact w es 0 -> valid e ->
  exists w', PendingLogWriter.Append e w = (Status_Ok, w') /\ intact w' (es ++ [e]) 0.
Proof.
  intros [Hl Hc Hi Hf] Hv.
  assert (exists w', PendingLogWriter.Append e w = (Status_Ok, w') /\ io_ w' = [] /\ append_failures_ w' = 0)
    as (w' & Ha & Hio & Hf').
  { unfold PendingLogWriter.Append, PendingLogWriter.TryConsumeInjectedFault. rewrite Hf.
    change (0 <? 0) with false. cbv iota beta.
    unfold PendingLogWriter.WriteBatch. rewrite Hi. cbv [sys negb]. unfold PendingLogWriter.set_io.
    cbn [PendingLogWriter.WriteRecords PendingLogWriter.io_ PendingLogWriter.fd_].
    rewrite PwriteAll_nil by (intros Hn; pose proof (PendingLogWriter.len_Serialize e) as Hle;
      rewrite Hn in Hle; pose proof (len_nonneg (SerializeBody e)); change (len []) with 0 in Hle; lia).
    cbn. eexists. split; [done|]. done. }
  exists w'. split; [done|].
  destruct (PendingLogWriter.Append_log e w es Status_Ok w' Hl Hv Ha eq_refl) as [Hl' Hc'].
  by split.
Qed.

Lemma ReadFileLocked_quiet w :
  io_ w = [] -> PendingLogWriter.ReadFileLocked w = (Ret (f_data (fd_ w)), PendingLogWriter.set_io w []).
Proof.
  intros Hi. unfold PendingLogWriter.ReadFileLocked. rewrite Hi. cbv [sys negb].
  rewrite PreadAll_nil. done.
Qed.

Lemma Compact_quiet w es :
  intact w es 0 ->
  exists w', PendingLogWriter.Compact w = (Ret tt, w') /\ intact w' (PendingLogWriter.unfinished es) 0.
Proof.
  intros [Hl Hc Hi Hf].
  assert (exists w', PendingLogWriter.Compact w = (Ret tt, w') /\ io_ w' = [] /\ append_failures_ w' = 0)
    as (w' & Ha & Hio & Hf').
  { unfold PendingLogWriter.Compact. rewrite ReadFileLocked_quiet by done.
    rewrite (proj1 (proj2 Hl)), PendingLogWriter.ScanRecords_exact by apply Hl.
    cbn [PendingLogWriter.set_io PendingLogWriter.io_]. cbv [sys negb].
    rewrite PwriteAll_nil by done. eexists. split; [done|]. done. }
  exists w'. split; [done|].
  pose proof (Compact_spec _ _ _ _ Hl Ha) as (Hl' & Hc' & _). by split.
Qed.

Lemma terminal_valid st t now : u64_ok t -> - 2 ^ 63 <= now < 2 ^ 63 -> valid (terminal_entry st t now).
Proof. intros. split; simpl; try done; constructor. Qed.

(** ** BeginWrite *)

(** [BeginWrite] on every branch: a document with a live transaction is
    refused without any change; a failed append leaves both tables as they
    were; otherwise the handle is fresh, the document is locked by it and the
    PENDING record is durable. *)
Theorem BeginWrite_outcomes
    (now : Z) (d : bytes) (bs : list Z) (blob : bool) (sc : Scope)
    (c : WriteCoordinator) (w : PendingLogWriter) (es : list PendingEntry) (n : Z) :
  wal_ c = Some w -> intact w es n -> 0 <= n -> active_txns_ c !! next_txn_id_ c = None ->
  let e := pending_entry (next_txn_id_ c) now d bs blob sc in
  valid e ->
  let '(r, c') := BeginWrite now d bs blob sc c in
  if decide (active_docs_ c !! d = None) then
    exists w', wal_ c' = Some w' /\
    if decide (0 < n) then
      (exists st, r = Fail st) /\ active_txns_ c' = active_txns_ c /\ active_docs_ c' = active_docs_ c /\
      intact w' es (n - 1)
    else
      r = Ret (MkTxnHandle (next_txn_id_ c) (next_txn_id_ c)) /\
      active_docs_ c' = <[d := next_txn_id_ c]> (active_docs_ c) /\
      active_txns_ c' = <[next_txn_id_ c := MkTxnState kPending d bs sc]> (active_txns_ c) /\
      intact w' (es ++ [e]) 0
  else (exists st, r = Fail st) /\ c' = c.
Proof.
  intros Hw Hin Hn Hfresh e Hv. unfold BeginWrite. rewrite Hw. unfold BeginReserve.
  destruct (active_docs_ c !! d) eqn:Ed; [rewrite decide_False by done; eauto|].
  fold e. destruct (decide (0 < n)) as [Hpos|Hpos].
  - destruct (Append_fault _ _ _ e Hin Hpos) as (st & w' & -> & Hst & Hin'). rewrite Hst. cbn.
    exists w'. split; [done|]. split; [eauto|].
    rewrite !delete_insert_id by done. done.
  - replace n with 0 in Hin by lia. destruct (Append_quiet _ _ _ Hin Hv) as (w' & -> & Hin').
    cbn. exists w'. split; [done|]. split; [done|]. split; [done|]. split; [done|exact Hin'].
Qed.

(** The sample log and coordinator of the witnesses. *)
Definition sample_wc (faults : Z) (txns : gmap Z TxnState) (docs : gmap bytes Z) : WriteCoordinator :=
  MkWC default_config (Some (PendingLogWriter.MkPLW (f_stored PendingLogWriter.MakeHeader) None 32 faults [])) 4 txns docs 0.

Lemma sample_wc_intact faults :
  intact (PendingLogWriter.MkPLW (f_stored PendingLogWriter.MakeHeader) None 32 faults []) [] faults.
Proof. split; [|done..]. split; [done|]. split; [reflexivity|constructor]. Qed.

Lemma sample_pending_valid : valid (pending_entry 4 9 [100] [5] true kDocument).
Proof. split; repeat constructor; unfold u64_ok; simpl; lia. Qed.

Lemma BeginWrite_outcomes_witness :
  active_docs_ (BeginWrite 9 [100] [5] true kDocument (sample_wc 0 ∅ ∅)).2 = <[[100] := 4]> ∅ /\
  active_docs_ (BeginWrite 9 [100] [5] true kDocument (sample_wc 1 ∅ ∅)).2 = ∅.
Proof.
  split.
  - generalize (BeginWrite_outcomes 9 [100] [5] true kDocument (sample_wc 0 ∅ ∅) _ [] 0 eq_refl
      (sample_wc_intact 0) ltac:(lia) eq_refl sample_pending_valid).
    destruct (BeginWrite 9 [100] [5] true kDocument (sample_wc 0 ∅ ∅)) as [r c'].
    rewrite decide_True by done. intros (w' & _ & H'). rewrite decide_False in H' by lia. apply H'.
  - generalize (BeginWrite_outcomes 9 [100] [5] true kDocument (sample_wc 1 ∅ ∅) _ [] 1 eq_refl
      (sample_wc_intact 1) ltac:(lia) eq_refl sample_pending_valid).
    destruct (BeginWrite 9 [100] [5] true kDocument (sample_wc 1 ∅ ∅)) as [r c'].
    rewrite decide_True by done. intros (w' & _ & H'). rewrite decide_True in H' by lia. apply H'.
Defined.

(** ** Commit *)

(** The retry loop: it succeeds iff fewer appends fail than there are
    attempts, and it appends the record exactly once. *)
Lemma AppendRetry_spec n delay w es e f :
  intact w es f -> 0 <= f -> valid e -> 0 <= delay -> delay * 10 ^ Z.of_nat n < 2 ^ 31 ->
  exists st w', AppendRetry (S n) delay e w = (Ret st, w') /\
    if decide (f <= Z.of_nat n) then st = Status_Ok /\ intact w' (es ++ [e]) 0
    else status_ok st = false /\ intact w' es (f - Z.of_nat n - 1).
Proof.
  revert delay w f. induction n as [|n IH]; intros delay w f Hin Hf Hv Hd Hov.
  - cbn [AppendRetry]. destruct (decide (f <= Z.of_nat 0)) as [Hle|Hgt].
    + replace f with 0 in * by lia. destruct (Append_quiet _ _ _ Hin Hv) as (w' & -> & Hin'). eauto.
    + destruct (Append_fault _ _ _ e Hin ltac:(lia)) as (st & w' & -> & Hst & Hin'). rewrite Hst.
      exists st, w'. split; [done|]. split; [done|]. by replace (f - Z.of_nat 0 - 1) with (f - 1) by lia.
  - remember (S n) as n' eqn:En. cbn [AppendRetry]. subst n'.
    destruct (decide (f = 0)) as [->|Hne].
    + destruct (Append_quiet _ _ _ Hin Hv) as (w' & -> & Hin'). exists Status_Ok, w'.
      split; [done|]. by rewrite decide_True by lia.
    + destruct (Append_fault _ _ _ e Hin ltac:(lia)) as (st & w' & -> & Hst & Hin'). rewrite Hst.
      assert (delay * 10 * 10 ^ Z.of_nat n < 2 ^ 31) as Hov'.
      { rewrite Nat2Z.inj_succ, Z.pow_succ_r in Hov by lia. lia. }
      assert (delay * 10 < 2 ^ 31).
      { eapply Z.le_lt_trans; [|exact Hov']. pose proof (Z.pow_pos_nonneg 10 (Z.of_nat n)). nia. }
      rewrite (proj2 (Z.ltb_ge _ _)), (proj2 (Z.leb_gt _ _)) by lia. cbn [orb].
      destruct (IH (delay * 10) w' (f - 1) Hin' ltac:(lia) Hv ltac:(lia) Hov') as (st' & w'' & -> & Hr).
      exists st', w''. split; [done|]. rewrite Nat2Z.inj_succ.
      repeat case_decide; try lia; [done|]. 
      by replace (f - Z.succ (Z.of_nat n) - 1) with (f - 1 - Z.of_nat n - 1) by lia.
Qed.

(** The configurations whose retry delays fit an [int]. *)
Definition retries_fit (g : WriteCoordinatorConfig) : Prop :=
  0 <= commit_max_retries g /\ 0 <= commit_retry_base_ms g /\
  commit_retry_base_ms g * 10 ^ commit_max_retries g < 2 ^ 31.

(** The log after a commit: compacted once enough transactions committed. *)
Definition after_commit (c : WriteCoordinator) (es : list PendingEntry) : list PendingEntry :=
  let n := u32 (committed_since_compact_ c + 1) in
  let th := compact_threshold (config_ c) in
  if (0 <? th) && (u32 th <=? n) then PendingLogWriter.unfinished es else es.

(** [Commit] on every branch.  A transaction that is not PENDING is
    refused without any change.  Otherwise the document is released; if fewer
    injected failures than attempts are left, the call succeeds and the
    COMMITTED record is durable (or, when the threshold is reached, already
    compacted away with its transaction); if not, it reports the failure and
    the log is unchanged. *)
Theorem Commit_outcomes
    (now : Z) (txn : TxnHandle) (c : WriteCoordinator) (w : PendingLogWriter)
    (es : list PendingEntry) (f : Z) :
  wal_ c = Some w -> intact w es f -> 0 <= f -> retries_fit (config_ c) ->
  let e := terminal_entry kCommitted (h_txn_id txn) now in
  valid e ->
  let '(r, c') := Commit now txn c in
  match active_txns_ c !! h_txn_id txn with
  | Some (MkTxnState kPending d bs sc) =>
      active_docs_ c' = active_docs_ (ReleaseDoc d c) /\
      next_txn_id_ c' = next_txn_id_ c /\
      exists w', wal_ c' = Some w' /\
      if decide (f <= commit_max_retries (config_ c)) then
        r = Ret tt /\ intact w' (after_commit c (es ++ [e])) 0
      else (exists st, r = Fail st) /\ exists f', intact w' es f'
  | _ => (exists st, r = Fail st) /\ c' = c
  end.
Proof.
  intros Hw Hin Hf (Hr0 & Hb & Hov) e Hv. unfold Commit. rewrite Hw.
  unfold CheckAndMarkFinalizing.
  destruct (active_txns_ c !! h_txn_id txn) as [[[] d bs sc]|]; cbn [ts_state]; [|eauto..].
  cbn [config_ set_tables]. fold e.
  set (n := Z.to_nat (commit_max_retries (config_ c))).
  replace (Z.to_nat (commit_max_retries (config_ c) + 1)) with (S n) by lia.
  destruct (AppendRetry_spec n (commit_retry_base_ms (config_ c)) w es e f Hin Hf Hv Hb)
    as (st & w' & -> & Hres); [unfold n; by rewrite Z2Nat.id|].
  replace (Z.of_nat n) with (commit_max_retries (config_ c)) in Hres by lia.
  destruct (decide (f <= _)).
  - destruct Hres as [-> Hin']. change (negb (status_ok Status_Ok)) with false. cbv iota.
    destruct (Compact_quiet _ _ Hin') as (w2 & Hc2 & Hin2).
    unfold after_commit, CommitFinish, ReleaseDoc, set_wal, set_tables.
    cbn [ts_doc_id]. destruct (decide (d = [])) as [->|Hd]; cbn -[PendingLogWriter.Compact];
      (destruct ((0 <? _) && _); cbn -[PendingLogWriter.Compact]; [rewrite Hc2; cbn|]; eauto 10).
  - destruct Hres as [Hst Hin']. rewrite Hst. unfold ReleaseDoc, set_wal, set_tables.
    cbn [ts_doc_id]. destruct (decide (d = [])) as [->|Hd]; cbn; eauto 10.
Qed.

Definition sample_txns : gmap Z TxnState := {[ 3 := MkTxnState kPending [100] [5] kDocument ]}.
Definition sample_docs : gmap bytes Z := {[ [100] := 3 ]}.

Lemma Commit_outcomes_witness :
  (Commit 9 (MkTxnHandle 3 3) (sample_wc 3 sample_txns sample_docs)).1 = Ret tt /\
  active_docs_ (Commit 9 (MkTxnHandle 3 3) (sample_wc 4 sample_txns sample_docs)).2 = ∅.
Proof.
  assert (retries_fit default_config) as Hg by (split; [done|]; split; [done|]; reflexivity).
  assert (valid (terminal_entry kCommitted 3 9)) as Hv
    by (apply terminal_valid; unfold u64_ok; lia).
  split.
  - generalize (Commit_outcomes 9 (MkTxnHandle 3 3) (sample_wc 3 sample_txns sample_docs) _ [] 3
      eq_refl (sample_wc_intact 3) ltac:(lia) Hg Hv).
    destruct (Commit _ _ _) as [r c']. change (active_txns_ (sample_wc 3 sample_txns sample_docs) !! _)
      with (Some (MkTxnState kPending [100] [5] kDocument)).
    intros (_ & _ & w' & _ & H). rewrite decide_True in H by (simpl; lia). apply H.
  - generalize (Commit_outcomes 9 (MkTxnHandle 3 3) (sample_wc 4 sample_txns sample_docs) _ [] 4
      eq_refl (sample_wc_intact 4) ltac:(lia) Hg Hv).
    destruct (Commit _ _ _) as [r c']. change (active_txns_ (sample_wc 4 sample_txns sample_docs) !! _)
      with (Some (MkTxnState kPending [100] [5] kDocument)).
    intros (H & _). cbn [snd]. rewrite H. reflexivity.
Defined.

(** ** Rollback *)

(** [Rollback] on every branch: refusals change nothing; a failed append
    leaves the document locked and does not run the cleanup; otherwise the
    ROLLBACK record is durable and the document released before the cleanup
    runs, with the payload of the original PENDING record, and the result
    reports whether the cleanup succeeded. *)
Theorem Rollback_outcomes {S : Type} `{RecoverStores S}
    (cb : PendingEntry -> S -> Status * S) (now : Z) (txn : TxnHandle) (c : WriteCoordinator) (s : S)
    (w : PendingLogWriter) (es : list PendingEntry) (f : Z) :
  wal_ c = Some w -> intact w es f -> 0 <= f ->
  let e := terminal_entry kRollback (h_txn_id txn) now in
  valid e ->
  let '(r, c', s') := Rollback (Some cb) now txn c s in
  match active_txns_ c !! h_txn_id txn with
  | Some (MkTxnState kPending d bs sc) =>
      exists w', wal_ c' = Some w' /\
      if decide (f = 0) then
        let payload := MkPendingEntry kPending (h_txn_id txn) 0 d bs false sc in
        intact w' (es ++ [e]) 0 /\ active_docs_ c' = active_docs_ (ReleaseDoc d c) /\
        s' = (cb payload s).2 /\
        (if status_ok (cb payload s).1 then r = Ret tt else exists st, r = Fail st)
      else (exists st, r = Fail st) /\ intact w' es (f - 1) /\
           active_docs_ c' = active_docs_ c /\ s' = s
  | _ => (exists st, r = Fail st) /\ c' = c /\ s' = s
  end.
Proof.
  intros Hw Hin Hf e Hv. unfold Rollback. rewrite Hw. unfold CheckAndMarkFinalizing.
  destruct (active_txns_ c !! h_txn_id txn) as [[[] d bs sc]|]; cbn [ts_state]; [|eauto..].
  fold e. destruct (decide (f = 0)) as [->|Hne].
  - destruct (Append_quiet _ _ _ Hin Hv) as (w' & -> & Hin').
    change (negb (status_ok Status_Ok)) with false. cbv iota.
    unfold ReleaseDoc, set_wal, set_tables. cbn [ts_doc_id ts_block_ids ts_scope].
    destruct (cb _ s) as [r1 s1] eqn:Ecb.
    destruct (decide (d = [])) as [->|Hd]; cbn; destruct (status_ok r1) eqn:Er; cbn; rewrite ?Ecb, ?Er;
      eauto 12.
  - destruct (Append_fault _ _ _ e Hin ltac:(lia)) as (st & w' & -> & Hst & Hin'). rewrite Hst.
    cbn. eauto 10.
Qed.

(** Stores of which only "is the document there" matters. *)
#[local] Instance unit_stores : RecoverStores (list bytes) := {|
  BlobExists d s := bool_decide (d ∈ s);
  BlockExists _ _ := true;
  VectorExists _ _ := true
|}.

Lemma Rollback_outcomes_witness :
  let cb (e : PendingEntry) (s : list bytes) := (Status_Ok, filter (fun d => d <> doc_id e) s) in
  (Rollback (Some cb) 9 (MkTxnHandle 3 3) (sample_wc 0 sample_txns sample_docs) [[100]; [7]]).2 = [[7]].
Proof.
  intros cb.
  assert (valid (terminal_entry kRollback 3 9)) as Hv by (apply terminal_valid; unfold u64_ok; lia).
  generalize (Rollback_outcomes cb 9 (MkTxnHandle 3 3) (sample_wc 0 sample_txns sample_docs)
    [[100]; [7]] _ [] 0 eq_refl (sample_wc_intact 0) ltac:(lia) Hv).
  destruct (Rollback _ _ _ _ _) as [[r c'] s']. change (active_txns_ (sample_wc 0 sample_txns sample_docs) !! _)
    with (Some (MkTxnState kPending [100] [5] kDocument)).
  intros (w' & _ & H). rewrite decide_True in H by done. destruct H as (_ & _ & H & _). cbn [snd]. rewrite H. reflexivity.
Defined.

(** ** A commit that reports success and is not readable *)

(** With a short write before the first error, the retry of [Commit] writes its
    record after the torn one: the call returns Ok, but the log reads back
    without the COMMITTED record. *)
Theorem Commit_retry_after_torn_write_lost :
  let pending := pending_entry 3 9 [100] [5] true kDocument in
  let w := PendingLogWriter.MkPLW (f_stored (PendingLogWriter.log_image [pending])) None 0 0
             [IoOk; IoShort 10; IoErr] in
  let c := MkWC default_config (Some w) 4 sample_txns sample_docs 0 in
  let '(r, c') := Commit 9 (MkTxnHandle 3 3) c in
  r = Ret tt /\
  option_map (fun w' => (PendingLogWriter.ReadAll w').1) (wal_ c') = Some (Ret [pending]).
Proof. vm_compute. auto. Qed.

(** The empty document id is never released: after a successful commit of a
    transaction on it, every further [BeginWrite] on it is refused. *)
Theorem Commit_keeps_empty_doc_locked :
  let c := sample_wc 0 {[ 3 := MkTxnState kPending [] [5] kDocument ]} {[ [] := 3 ]} in
  let '(r, c') := Commit 9 (MkTxnHandle 3 3) c in
  r = Ret tt /\ BeginReserve [] [6] kDocument c' = None.
Proof. vm_compute. auto. Qed.
