(* ===== verification/WriteCoordinatorRecovery.v ===== *)
(** * Crash recovery of document writes

    [WriteCoordinator::Recover] of src/store/write_coordinator.cpp: after it,
    every transaction of the log is all there or not there at all, and the log
    is empty.  The effect of the cleanup on the stores is stated as the class
    [RollbackLaws], proved here for the cleanup that the namespace pool
    registers. *)
From S2P Require Import Prelude Status PendingEntryCodec Posix PendingLog PendingLogTheory WriteCoordinator UnitStores WriteCoordinatorTheory WriteCoordinatorCalls.
Open Scope run_scope.

Import PendingEntry.
Import PendingLogWriter(PendingLogWriter, io_, append_failures_, fd_, path_, log, clean).
Import WriteCoordinator.

(** ** Grouping *)

Lemma GroupByTxn_snoc es e : GroupByTxn (es ++ [e]) = NoteRecord (GroupByTxn es) e.
Proof. unfold GroupByTxn. by rewrite foldl_app. Qed.

(** Transaction [t] has a record with state [st]. *)
Definition seen (st : State) (es : list PendingEntry) (t : Z) : Prop :=
  exists e, e ∈ es /\ txn_id e = t /\ state e = st.

Lemma seen_snoc st es e t :
  seen st (es ++ [e]) t <-> seen st es t \/ (txn_id e = t /\ state e = st).
Proof.
  unfold seen. split.
  - intros (e' & [H| ->%list_elem_of_singleton]%elem_of_app & H'); eauto.
  - intros [(e' & H & H')|H]; [exists e'|exists e]; rewrite elem_of_app, list_elem_of_singleton; auto.
Qed.

(** What the grouping loop knows about a transaction. *)
Record grouped (es : list PendingEntry) (t : Z) (r : TxnRecord) : Prop := {
  g_pending : has_pending r = true <-> seen kPending es t;
  g_committed : has_committed r = true <-> seen kCommitted es t;
  g_rollback : has_rollback r = true <-> seen kRollback es t;
  g_payload : has_pending r = true ->
    r_pending r ∈ es /\ txn_id (r_pending r) = t /\ state (r_pending r) = kPending
}.

Lemma GroupByTxn_spec es t :
  match GroupByTxn es !! t with
  | Some r => grouped es t r
  | None => forall e, e ∈ es -> txn_id e <> t
  end.
Proof.
  induction es as [|e es IH] using rev_ind.
  { change (GroupByTxn []) with (∅ : gmap Z TxnRecord). rewrite lookup_empty. by intros e ?%not_elem_of_nil. }
  rewrite GroupByTxn_snoc. unfold NoteRecord.
  destruct (decide (txn_id e = t)) as [Ht|Hne].
  - rewrite Ht, lookup_insert_eq.
    assert (grouped es t (default NewTxnRecord (GroupByTxn es !! t))) as Hg.
    { destruct (GroupByTxn es !! t); [done|]. simpl.
      split; simpl; try done; (split; [done|]); intros (e' & H1 & H2 & _); by apply IH in H1. }
    set (r := default _ _) in *. clearbody r. clear IH. destruct Hg as [G1 G2 G3 G4].
    destruct (state e) eqn:Es; split; simpl; rewrite ?seen_snoc, ?elem_of_app, ?list_elem_of_singleton;
      rewrite ?Es; try (intros Hp; destruct (G4 Hp) as (? & ? & ?)); auto; intuition congruence.
  - rewrite lookup_insert_ne by done. destruct (GroupByTxn es !! t) as [r|].
    + destruct IH as [G1 G2 G3 G4].
      split; rewrite ?seen_snoc, ?elem_of_app; [rewrite G1|rewrite G2|rewrite G3|
        intros Hp; destruct (G4 Hp) as (? & ? & ?); auto]; intuition congruence.
    + intros e' [H| ->%list_elem_of_singleton]%elem_of_app; [auto|done].
Qed.

(** ** The cleanup callback as an interface *)

Definition nothing_of (t : Z) : PendingEntry := MkPendingEntry kPending t 0 [] [] false kDocument.

(** What recovery relies on: a successful cleanup removes what the transaction
    may have written, and leaves separate transactions alone. *)
Class RollbackLaws (S : Type) `{RecoverStores S} (cb : PendingEntry -> S -> Status * S) := {
  store_inv : S -> Prop;
  cleaned : PendingEntry -> S -> Prop;
  separate : PendingEntry -> PendingEntry -> S -> Prop;
  cb_inv p s : store_inv s -> store_inv (cb p s).2;
  cb_cleans p s : store_inv s -> status_ok (cb p s).1 = true -> cleaned p (cb p s).2;
  cb_frame_have p q s :
    store_inv s -> separate p q s -> AllStoresHave q (cb p s).2 = AllStoresHave q s;
  cb_frame_cleaned p q s : store_inv s -> cleaned q s -> cleaned q (cb p s).2;
  cb_separate p q o s : store_inv s -> separate p q s -> separate p q (cb o s).2;
  separate_nothing t q s : separate (nothing_of t) q s
}.

Section recovery.
Context {S : Type} {RS : RecoverStores S} (cb : PendingEntry -> S -> Status * S) {RL : RollbackLaws S cb}.

(** A record whose payload is the transaction's own PENDING entry. *)
Definition own_payload (t : Z) (r : TxnRecord) : Prop :=
  has_pending r = true -> txn_id (r_pending r) = t /\ state (r_pending r) = kPending.

Definition payload (t : Z) (r : TxnRecord) : PendingEntry :=
  if has_pending r then r_pending r else nothing_of t.

Definition needs_cleanup (r : TxnRecord) (s : S) : bool :=
  negb (has_committed r) &&
  (has_rollback r || has_pending r && negb (AllStoresHave (r_pending r) s)).

(** The effect of one resolved transaction on the stores. *)
Lemma ResolveTxn_store strict now t r wal s res wal' s' :
  own_payload t r -> ResolveTxn strict (Some cb) now t r wal s = (res, wal', s') ->
  s' = (if needs_cleanup r s then (cb (payload t r) s).2 else s) /\
  (res = Ret tt -> strict = true -> needs_cleanup r s = true ->
   status_ok (cb (payload t r) s).1 = true) /\
  run_defined res.
Proof.
  intros Hown H. unfold ResolveTxn in H. unfold needs_cleanup.
  destruct (has_committed r); [injection H as <- <- <-; done|]. cbn [negb andb].
  set (p := MkPendingEntry kPending t _ _ _ _ _) in H.
  assert (p = payload t r) as Hp.
  { unfold p, payload. destruct (has_pending r) eqn:E; [|done].
    destruct (Hown E) as [H1 H2]. destruct (r_pending r). simpl in *. congruence. }
  rewrite Hp in H. clear p Hp.
  assert (forall nc inf,
    (let '(cb_failed, s0) :=
       if nc : bool then let '(st, s0) := cb (payload t r) s in (negb (status_ok st), s0) else (false, s) in
     if cb_failed && strict then
       (Fail (recovery_failed "strict recovery: cleanup failed for txn "), wal, s0)
     else if has_pending r && negb (has_rollback r) then
       let '(w, wal1) := PendingLogWriter.Append
         (terminal_entry (if inf : bool then kCommitted else kRollback) t (now t)) wal in
       if negb (status_ok w) && strict then
         (Fail (recovery_failed "strict recovery: failed to finalize txn "), wal1, s0)
       else (Ret tt, wal1, s0)
     else (Ret tt, wal, s0)) = (res, wal', s') ->
    s' = (if nc then (cb (payload t r) s).2 else s) /\
    (res = Ret tt -> strict = true -> nc = true -> status_ok (cb (payload t r) s).1 = true) /\
    run_defined res) as Hgen.
  { clear H. intros nc inf H. destruct (cb (payload t r) s) as [st s1]. cbn [fst snd].
    destruct nc, (status_ok st), strict; cbn [negb andb] in H;
      try destruct (has_pending r && negb (has_rollback r)); try (destruct (PendingLogWriter.Append _ _) as [w wal1]);
      try (destruct (negb (status_ok w))); cbn in H; injection H as <- <- <-; done. }
  destruct (has_rollback r); [exact (Hgen true false H)|]. cbn [orb].
  destruct (has_pending r) eqn:Ep; [|exact (Hgen false false H)]. cbn [andb].
  exact (Hgen _ _ H).
Qed.

(** The outcome of recovery for one transaction, from the stores as the crash
    left them ([s]) to the stores after recovery ([s']). *)
Definition settled (r : TxnRecord) (s s' : S) : Prop :=
  has_pending r = true ->
  if has_committed r then AllStoresHave (r_pending r) s' = AllStoresHave (r_pending r) s
  else if has_rollback r then cleaned (r_pending r) s'
  else if AllStoresHave (r_pending r) s then AllStoresHave (r_pending r) s' = true
  else cleaned (r_pending r) s'.

(** The callback can be relied on: failures abort, or there are none. *)
Definition trusted (strict : bool) : Prop :=
  strict = true \/ forall p s, store_inv s -> status_ok (cb p s).1 = true.

Lemma ResolveTxn_frame strict now t r wal s res wal' s' q :
  own_payload t r -> store_inv s -> ResolveTxn strict (Some cb) now t r wal s = (res, wal', s') ->
  store_inv s' /\
  (separate (payload t r) q s -> AllStoresHave q s' = AllStoresHave q s) /\
  (cleaned q s -> cleaned q s') /\
  (forall p, separate p q s -> separate p q s').
Proof.
  intros Hown Hinv H. apply ResolveTxn_store in H as (-> & _ & _); [|done].
  destruct (needs_cleanup r s); [|done]. split; [by apply cb_inv|].
  split; [by apply cb_frame_have|]. split; [by apply cb_frame_cleaned|]. intros p. by apply cb_separate.
Qed.

Lemma ResolveAll_frame strict now kvs wal s res wal' s' q :
  Forall (fun kv => own_payload kv.1 kv.2 /\ separate (payload kv.1 kv.2) q s) kvs -> store_inv s ->
  ResolveAll strict (Some cb) now kvs wal s = (res, wal', s') ->
  AllStoresHave q s' = AllStoresHave q s /\ (cleaned q s -> cleaned q s').
Proof.
  revert wal s. induction kvs as [|[t r] kvs IH]; intros wal s HF Hinv H; cbn [ResolveAll] in H.
  { injection H as _ _ <-. done. }
  inversion HF as [|? ? [Hown Hsep] HF']; subst. simpl in *.
  destruct (ResolveTxn _ _ _ _ _ _ _) as [[res1 wal1] s1] eqn:E.
  destruct (ResolveTxn_frame _ _ _ _ _ _ _ _ _ q Hown Hinv E) as (Hinv1 & Hh & Hc & Hs).
  specialize (Hh Hsep).
  destruct res1; [|injection H as _ _ <-; auto..].
  apply IH in H as [H1 H2]; [|eapply Forall_impl; [exact HF'|]; simpl; naive_solver|done].
  rewrite H1, Hh. auto.
Qed.

Lemma ResolveAll_settled strict now kvs wal s wal' s' :
  NoDup kvs.*1 -> Forall (fun kv => own_payload kv.1 kv.2) kvs -> store_inv s -> trusted strict ->
  (forall t1 r1 t2 r2, (t1, r1) ∈ kvs -> (t2, r2) ∈ kvs -> t1 <> t2 ->
     separate (payload t1 r1) (payload t2 r2) s) ->
  ResolveAll strict (Some cb) now kvs wal s = (Ret tt, wal', s') ->
  forall t r, (t, r) ∈ kvs -> settled r s s'.
Proof.
  intros Hnd HF Hinv Htr. revert wal s Hinv HF.
  induction kvs as [|[t0 r0] kvs IH]; intros wal s Hinv HF Hsep H t r Hin; cbn [ResolveAll] in H.
  { by apply not_elem_of_nil in Hin. }
  inversion HF as [|? ? Hown HF']; subst. apply NoDup_cons in Hnd as [Hn0 Hnd]. simpl in *.
  destruct (ResolveTxn _ _ _ _ _ _ _) as [[res1 wal1] s1] eqn:E. destruct res1 as [[]| |]; [|done..].
  assert (forall t1 r1, (t1, r1) ∈ kvs -> t1 <> t0) as Hne.
  { intros t1 r1 Hin1 ->. apply Hn0, list_elem_of_fmap. by exists (t0, r1). }
  assert (forall q, store_inv s1 /\ _) as Hfr
    by (intros q; exact (ResolveTxn_frame _ _ _ _ _ _ _ _ _ q Hown Hinv E)).
  destruct (ResolveTxn_store _ _ _ _ _ _ _ _ _ Hown E) as (Hs1 & Hok & _).
  apply elem_of_cons in Hin as [[= -> ->]|Hin].
  - intros Hp. destruct (ResolveAll_frame strict now kvs wal1 s1 (Ret tt) wal' s' (r_pending r0)) as [H1 H2].
    { apply Forall_forall. intros [t1 r1] Hin1. rewrite Forall_forall in HF'. split; [by apply HF'|].
      apply Hfr. pose proof (Hsep t1 r1 t0 r0 ltac:(by right) ltac:(left) (Hne _ _ Hin1)) as Hs0.
      unfold payload at 2 in Hs0. by rewrite Hp in Hs0. }
    { apply Hfr. exact empty_entry. }
    { done. }
    assert (needs_cleanup r0 s = true -> cleaned (r_pending r0) s1) as Hcl.
    { intros Hnc. rewrite Hs1, Hnc. unfold payload in *. rewrite Hp in *. apply cb_cleans; [done|].
      destruct Htr as [Htr|Htr]; [by apply Hok|by apply Htr]. }
    rewrite H1. unfold needs_cleanup in *. rewrite Hp in *.
    destruct (has_committed r0); cbn in *; [by rewrite Hs1|].
    destruct (has_rollback r0); cbn in *; [auto|].
    destruct (AllStoresHave (r_pending r0) s) eqn:Eh; cbn in *; [by rewrite Hs1|auto].
  - intros Hp. assert (AllStoresHave (r_pending r) s1 = AllStoresHave (r_pending r) s) as Hh.
    { apply Hfr. pose proof (Hsep t0 r0 t r ltac:(left) ltac:(by right) ltac:(intros ->; by eapply Hne)) as Hs0.
      unfold payload at 2 in Hs0. by rewrite Hp in Hs0. }
    rewrite <- Hh. apply (IH Hnd wal1 s1) with t; try done.
    + apply Hfr. exact empty_entry.
    + intros t1 r1 t2 r2 Hi1 Hi2 Hne12. apply Hfr. apply Hsep; [by right|by right|done].
Qed.


End recovery.

(** ** The log after recovery *)

Lemma ReadAll_quiet w es :
  intact w es 0 -> exists w', PendingLogWriter.ReadAll w = (Ret (wire <$> es), w') /\ intact w' es 0.
Proof.
  intros [Hl Hc Hi Hf]. unfold PendingLogWriter.ReadAll. rewrite ReadFileLocked_quiet by done.
  rewrite (proj1 (proj2 Hl)), PendingLogWriter.ScanRecords_exact by apply Hl. rewrite Z.ltb_irrefl.
  eexists. split; [done|]. split; [exact Hl|exact Hc|done|exact Hf].
Qed.

Section log_after.
Context {S : Type} {RS : RecoverStores S} (cb : RollbackCallback S) (now : Z -> Z).
Hypothesis clock_ok : forall t, - 2 ^ 63 <= now t < 2 ^ 63.

(** The terminal record that resolving a transaction appends, if any. *)
Definition resolved_by (t : Z) (r : TxnRecord) (l : list PendingEntry) : Prop :=
  (has_pending r && negb (has_committed r) && negb (has_rollback r) = true ->
   exists e, l = [e] /\ txn_id e = t) /\
  Forall (fun e => PendingLogWriter.is_terminal e = true) l.

Lemma ResolveTxn_quiet t r w es s :
  intact w es 0 -> u64_ok t ->
  exists w' s' l, ResolveTxn false cb now t r w s = (Ret tt, w', s') /\
    intact w' (es ++ l) 0 /\ resolved_by t r l.
Proof.
  intros Hin Ht. unfold ResolveTxn, resolved_by.
  destruct (has_committed r) eqn:Ec.
  { exists w, s, []. rewrite app_nil_r. split; [done|]. split; [done|].
    split; [|constructor]. cbn [negb]. by rewrite andb_false_r. }
  set (pr := if has_rollback r then _ else _). destruct pr as [nc inf].
  set (c1 := match cb with Some _ => _ | None => _ end). destruct c1 as [cf s1].
  rewrite andb_false_r. cbn [negb]. rewrite andb_true_r.
  destruct (has_pending r && negb (has_rollback r)).
  - set (e := terminal_entry _ _ _). assert (valid e) as Hv by (apply terminal_valid; auto).
    destruct (Append_quiet _ _ _ Hin Hv) as (w' & -> & Hin'). exists w', s1, [e].
    split; [done|]. split; [done|]. split; [by exists e|].
    constructor; [|constructor]. unfold e. by destruct inf.
  - exists w, s1, []. rewrite app_nil_r. split; [done|]. split; [done|]. by split; [|constructor].
Qed.

Lemma ResolveAll_quiet kvs w es s :
  intact w es 0 -> Forall (fun kv => u64_ok kv.1) kvs ->
  exists w' s' l, ResolveAll false cb now kvs w s = (Ret tt, w', s') /\
    intact w' (es ++ l) 0 /\ Forall (fun e => PendingLogWriter.is_terminal e = true) l /\
    forall t r, (t, r) ∈ kvs -> has_pending r && negb (has_committed r) && negb (has_rollback r) = true ->
      exists e, e ∈ l /\ txn_id e = t.
Proof.
  intros Hin HF. revert w es s Hin. induction HF as [|[t r] kvs Ht HF IH]; intros w es s Hin.
  { exists w, s, []. rewrite app_nil_r. split; [done|]. split; [done|]. split; [constructor|].
    by intros t r ?%not_elem_of_nil. }
  cbn [ResolveAll]. destruct (ResolveTxn_quiet t r w es s Hin Ht) as (w1 & s1 & l1 & -> & Hin1 & Hr & HF1).
  destruct (IH w1 (es ++ l1) s1 Hin1) as (w2 & s2 & l2 & -> & Hin2 & HF2 & Hl2).
  exists w2, s2, (l1 ++ l2). rewrite <- app_assoc in Hin2.
  split; [done|]. split; [done|]. split; [by apply Forall_app|].
  intros t' r' [[= -> ->]|Hk]%elem_of_cons Hp.
  - destruct (Hr Hp) as (e & -> & He). exists e. split; [set_solver|done].
  - destruct (Hl2 _ _ Hk Hp) as (e & He1 & He2). exists e. split; [set_solver|done].
Qed.
End log_after.

Lemma seen_wire st es t : seen st (wire <$> es) t <-> seen st es t.
Proof.
  unfold seen. split.
  - intros (e & (e' & -> & Hin)%list_elem_of_fmap & H1 & H2). exists e'.
    rewrite txn_id_wire in H1. by rewrite state_wire in H2.
  - intros (e & Hin & H1 & H2). exists (wire e). rewrite txn_id_wire, state_wire.
    split; [by apply list_elem_of_fmap_2|done].
Qed.

(** Nothing is left to keep once every transaction has a terminal record. *)
Lemma unfinished_nil es :
  (forall e, e ∈ es -> state e = kPending ->
     exists e', e' ∈ es /\ PendingLogWriter.is_terminal e' = true /\ txn_id e' = txn_id e) ->
  PendingLogWriter.unfinished es = [].
Proof.
  intros H. apply filter_none, Forall_forall. intros e He [Hs Hf].
  destruct (H e He Hs) as (e' & H1 & H2 & H3). apply Hf.
  unfold PendingLogWriter.finalized. rewrite elem_of_list_to_set, list_elem_of_fmap.
  exists e'. split; [done|]. by apply list_elem_of_filter.
Qed.

Lemma MaxTxn_ge es e : e ∈ es -> txn_id e <= MaxTxn es.
Proof.
  unfold MaxTxn. generalize 0. induction es as [|x es IH]; intros m; [by intros ?%not_elem_of_nil|].
  assert (forall l n, n <= foldl (fun m e => Z.max m (txn_id e)) n l) as Hmono.
  { clear. induction l as [|x l IH]; intros n; simpl; [lia|]. pose proof (IH (Z.max n (txn_id x))). lia. }
  intros [->|Hin]%elem_of_cons; simpl; [|by apply IH]. pose proof (Hmono es (Z.max m (txn_id x))). lia.
Qed.

Lemma Recover_quiet {S} `{RecoverStores S} iter cb now (c : WriteCoordinator) (s : S) w es :
  (forall m, iter m ≡ₚ map_to_list m) -> (forall t, - 2 ^ 63 <= now t < 2 ^ 63) ->
  wal_ c = Some w -> intact w es 0 -> strict_recovery (config_ c) = false ->
  len es <= max_recovery_entries (config_ c) -> len es < 2 ^ 31 ->
  exists c' s' w', Recover iter true cb now c s = (Ret tt, c', s') /\ wal_ c' = Some w' /\
    intact w' [] 0 /\ active_txns_ c' = ∅ /\ active_docs_ c' = ∅ /\
    next_txn_id_ c' = u64 (MaxTxn (wire <$> es) + 1) /\ config_ c' = config_ c.
Proof.
  intros Hit Hclk Hw Hin Hst Hmax H31. unfold Recover. rewrite Hw. cbn [negb].
  destruct (ReadAll_quiet _ _ Hin) as (w1 & -> & Hin1). cbn [config_ set_wal].
  assert (len (wire <$> es) = len es) as Hlen by (unfold len; by rewrite length_fmap).
  rewrite Hlen. pose proof (len_nonneg es).
  replace (i32 (len es)) with (len es) by (unfold i32; rewrite Z.mod_small; lia).
  rewrite (proj2 (Z.ltb_ge _ _)) by done. rewrite Hst.
  pose proof (intact_log _ _ _ Hin) as (_ & _ & Hval).
  assert (forall t r, GroupByTxn (wire <$> es) !! t = Some r -> grouped es t r) as Hgrp.
  { intros t r Hr. pose proof (GroupByTxn_spec (wire <$> es) t) as Hg. rewrite Hr in Hg.
    destruct Hg as [G1 G2 G3 G4]. rewrite !seen_wire in *. split; [done..|].
    intros Hp. destruct (G4 Hp) as (Hi & H1 & H2). split; [|done].
    apply list_elem_of_fmap in Hi as (e & He & Hi). rewrite He in *. rewrite state_wire in H2.
    unfold wire. by rewrite H2. }
  assert (forall t r, GroupByTxn (wire <$> es) !! t = Some r -> exists e, e ∈ es /\ txn_id e = t) as Hsome.
  { intros t r Hr. clear - Hr. revert t r Hr. induction es as [|e es IH] using rev_ind; intros t r Hr.
    { change (GroupByTxn (wire <$> [])) with (∅ : gmap Z TxnRecord) in Hr. by rewrite lookup_empty in Hr. }
    rewrite fmap_app in Hr. cbn in Hr. rewrite GroupByTxn_snoc in Hr. unfold NoteRecord in Hr.
    rewrite txn_id_wire in Hr. apply lookup_insert_Some in Hr as [[<- _]|[_ Hr]]; [exists e; set_solver|].
    destruct (IH _ _ Hr) as (e' & ? & ?). exists e'. set_solver. }
  destruct (ResolveAll_quiet cb now Hclk (iter (GroupByTxn (wire <$> es))) w1 es s Hin1)
    as (w2 & s2 & l & -> & Hin2 & Hterm & Hres).
  { apply Forall_forall. intros [t r]. rewrite Hit, elem_of_map_to_list. intros Hr.
    destruct (Hsome _ _ Hr) as (e & He & <-). rewrite Forall_forall in Hval. by apply (Hval e). }
  destruct (Compact_quiet _ _ Hin2) as (w3 & -> & Hin3).
  eexists _, s2, w3. split; [done|]. cbn. split; [done|]. split; [|done].
  rewrite unfinished_nil in Hin3; [done|].
  intros e [He|He]%elem_of_app Hs; [|rewrite Forall_forall in Hterm; specialize (Hterm e He);
    unfold PendingLogWriter.is_terminal in Hterm; by rewrite Hs in Hterm].
  pose proof (GroupByTxn_spec (wire <$> es) (txn_id e)) as Hg.
  destruct (GroupByTxn (wire <$> es) !! txn_id e) as [r|] eqn:Er;
    [|by destruct (Hg (wire e) ltac:(by apply list_elem_of_fmap_2)); rewrite txn_id_wire].
  destruct (Hgrp _ _ Er) as [G1 G2 G3 _].
  assert (forall st, st <> kPending -> seen st es (txn_id e) ->
    exists e', e' ∈ es ++ l /\ PendingLogWriter.is_terminal e' = true /\ txn_id e' = txn_id e) as Hseen.
  { intros st Hnp (e' & H1 & H2 & H3). exists e'. split; [set_solver|]. split; [|done].
    unfold PendingLogWriter.is_terminal. rewrite H3. by destruct st. }
  destruct (has_committed r) eqn:Ec; [apply (Hseen kCommitted); [done|by apply G2]|].
  destruct (has_rollback r) eqn:Eb; [apply (Hseen kRollback); [done|by apply G3]|].
  destruct (Hres (txn_id e) r) as (e' & H1 & H2).
  - by rewrite Hit, elem_of_map_to_list.
  - rewrite (proj2 G1); [by rewrite Ec, Eb|]. by exists e.
  - exists e'. split; [set_solver|]. rewrite Forall_forall in Hterm. auto.
Qed.


(** ** The namespace pool's cleanup satisfies the interface *)

Section unit_stores.
Import UnitStores.

Definition unit_cleaned (p : PendingEntry) (u : UnitStores) : Prop :=
  forall b, b ∈ block_ids p -> b ∉ points u /\ b ∉ blocks u.
(** Transactions mint fresh block ids, and contextual labels are no block ids. *)
Definition unit_separate (p q : PendingEntry) (u : UnitStores) : Prop :=
  (forall b, b ∈ block_ids p -> b ∉ block_ids q) /\
  (forall l b, label_rows u !! l = Some b -> b ∈ block_ids p -> l ∉ block_ids q).

Lemma AllStoresHave_ext q u u' :
  db_open u = db_open u' -> blobs u = blobs u' ->
  (forall b, b ∈ block_ids q -> (b ∈ points u <-> b ∈ points u') /\ (b ∈ blocks u <-> b ∈ blocks u')) ->
  AllStoresHave q u = AllStoresHave q u'.
Proof.
  intros Hd Hb Hq. unfold AllStoresHave. simpl. unfold AdapterBlobExists, MetadataBlockExists.
  rewrite Hd, Hb.
  assert ((list_to_set (block_ids q) : gset Z) ∩ blocks u = list_to_set (block_ids q) ∩ blocks u') as -> by set_solver.
  assert (forallb (fun b => bool_decide (b ∈ points u)) (block_ids q)
        = forallb (fun b => bool_decide (b ∈ points u')) (block_ids q)) as ->; [|done].
  clear -Hq. induction (block_ids q) as [|b bs IH]; [done|]. simpl.
  rewrite IH by set_solver. f_equal. apply bool_decide_ext. apply Hq. set_solver.
Qed.

#[global] Program Instance UnitStores_laws : RollbackLaws UnitStores RollbackCleanup := {|
  store_inv := ready;
  cleaned := unit_cleaned;
  separate := unit_separate
|}.
Next Obligation. intros p u Hu. by apply RollbackCleanup_ready. Qed.
Next Obligation.
  intros p u Hu _ b Hb. destruct (RollbackCleanup_ready p u Hu) as (_ & -> & -> & _). set_solver.
Qed.
Next Obligation.
  intros p q u Hu [Hs Hl]. destruct (RollbackCleanup_ready p u Hu) as ([_ Hd] & Hp & Hb & _ & Hbl & _).
  destruct Hu as [_ Hu]. apply AllStoresHave_ext; [congruence|done|].
  intros b Hq. rewrite Hp, Hb. rewrite !elem_of_difference, !elem_of_list_to_set, elem_of_labels_of.
  split; [|naive_solver]. split; [naive_solver|]. intros H. split; [naive_solver|].
  intros (b' & H1 & H2). by eapply Hl.
Qed.
Next Obligation.
  intros p q u Hu Hc b Hb. destruct (RollbackCleanup_ready p u Hu) as (_ & -> & -> & _).
  specialize (Hc b Hb). set_solver.
Qed.
Next Obligation.
  intros p q o u Hu [Hs Hl]. destruct (RollbackCleanup_ready o u Hu) as (_ & _ & _ & Hr & _).
  split; [done|]. intros l b [H _]%Hr. by apply Hl.
Qed.
Next Obligation. intros t q u. split; simpl; set_solver. Qed.
End unit_stores.

(** *** Two interrupted ingests *)

Section interrupted.
Import UnitStores.

Definition ingest (t : Z) (d : bytes) (b : Z) : PendingEntry := pending_entry t 9 d [b] true kDocument.
Definition log_with (es : list PendingEntry) : PendingLogWriter :=
  PendingLogWriter.MkPLW (f_stored (PendingLogWriter.log_image es)) None 0 0 [].
Definition wc_with (es : list PendingEntry) : WriteCoordinator :=
  MkWC default_config (Some (log_with es)) 1 ∅ ∅ 0.

Lemma ingest_valid t d b : 0 <= t < 100 -> 0 <= d < 100 -> 0 <= b < 100 -> valid (ingest t [d] b).
Proof. intros. split; repeat constructor; unfold u64_ok; simpl; lia. Qed.
Lemma log_with_log es : Forall valid es -> log (log_with es) es.
Proof. by split. Qed.

(** The first ingest reached all three stores, the second only the blob and
    the block row. *)
Definition crash_stores : UnitStores :=
  MkUnit true true {[5]} {[5; 6]} ∅ {[[50]; [60]]} ∅ {[[50]; [60]]}.
Definition crash_log : list PendingEntry := [ingest 1 [50] 5; ingest 2 [60] 6].

Lemma crash_log_valid : Forall valid crash_log.
Proof. constructor; [apply ingest_valid; lia|]. constructor; [apply ingest_valid; lia|constructor]. Qed.
End interrupted.

Definition crash_groups : gmap Z TxnRecord :=
  <[1 := MkTxnRecord true false false (ingest 1 [50] 5)]>
    {[2 := MkTxnRecord true false false (ingest 2 [60] 6)]}.
Lemma crash_groups_eq : GroupByTxn (wire <$> crash_log) = crash_groups.
Proof. vm_compute. reflexivity. Qed.

Lemma crash_separate t1 r1 t2 r2 :
  GroupByTxn (wire <$> crash_log) !! t1 = Some r1 -> GroupByTxn (wire <$> crash_log) !! t2 = Some r2 ->
  t1 <> t2 -> unit_separate (payload t1 r1) (payload t2 r2) crash_stores.
Proof.
  rewrite crash_groups_eq. unfold crash_groups. rewrite !lookup_insert_Some, !lookup_singleton_Some.
  intros [[<- <-]|[_ [<- <-]]] [[<- <-]|[_ [<- <-]]] Hne; try (by destruct Hne).
  all: split; [|intros l b Hl; cbn in Hl; by rewrite lookup_empty in Hl].
  all: cbn; intros b ->%list_elem_of_singleton; by intros ?%list_elem_of_singleton.
Qed.



(** ** Two recoveries that lose data *)

(** A rolled back ingest of a document that was ingested again and committed:
    recovery replays the cleanup of the first transaction and deletes the
    parent rows that the second one committed. *)
Theorem Recover_replays_rollback_of_reingested_doc :
  let es := [ingest 1 [50] 5; terminal_entry kRollback 1 9; ingest 2 [50] 6; terminal_entry kCommitted 2 9] in
  let s := UnitStores.MkUnit true true {[6]} {[6]} ∅ {[[50]]} {[[50]]} {[[50]]} in
  let '(r, _, s') := Recover map_to_list true (Some UnitStores.RollbackCleanup) (fun _ => 9) (wc_with es) s in
  r = Ret tt /\ UnitStores.blocks s' = {[6]} /\
  UnitStores.parents s' = ∅ /\ UnitStores.doc_fts s' = ∅.
Proof. vm_compute. auto. Qed.

(** A metadata-only transaction (a block without a vector) whose COMMITTED
    record was lost: everything it wrote is there, yet the three-way check
    fails on the vector store and recovery deletes the block. *)
Theorem Recover_undoes_vectorless_commit :
  let es := [pending_entry 1 9 [50] [5] false kDocument] in
  let s := UnitStores.MkUnit true true ∅ {[5]} ∅ {[[50]]} ∅ ∅ in
  let '(r, _, s') := Recover map_to_list true (Some UnitStores.RollbackCleanup) (fun _ => 9) (wc_with es) s in
  r = Ret tt /\ UnitStores.blocks s' = ∅.
Proof. vm_compute. auto. Qed.

(** A rollback whose cleanup failed is reported as "recovery will retry"; the
    next inline compaction drops its records, and recovery has nothing left to
    retry: the partial write stays. *)
Theorem Compaction_forgets_failed_cleanup :
  let failing (_ : PendingEntry) (s : UnitStores.UnitStores) := (Status_Internal "down", s) in
  let config := MkConfig 32 5 3 1 1 10000 false in
  let txns := {[ 1 := MkTxnState kPending [50] [5] kDocument; 2 := MkTxnState kPending [60] [6] kDocument ]} in
  let c := MkWC config (Some (log_with crash_log)) 3 txns {[ [50] := 1; [60] := 2 ]} 0 in
  let '(r1, c1, s1) := Rollback (Some failing) 9 (MkTxnHandle 1 1) c crash_stores in
  let '(r2, c2) := Commit 9 (MkTxnHandle 2 2) c1 in
  let '(r3, _, s3) := Recover map_to_list true (Some UnitStores.RollbackCleanup) (fun _ => 9) c2 s1 in
  r1 = Fail (PwlStatus kInternal pwl_errors.kRollbackCallbackFailed "rollback callback failed: ") /\
  r2 = Ret tt /\ r3 = Ret tt /\ UnitStores.blocks s3 = {[5; 6]}.
Proof. vm_compute. auto. Qed.
