(* ===== verification/WalEntryCodec.v ===== *)
(** * The records of hnsw.wal (src/store/phnsw/wal_entry.cpp)

    INSERT and DELETE records of the vector index log.  A [float] is its
    32-bit pattern: the codec only copies the pattern.  [now] is the reading
    of the clock that [NowMsOrGiven] takes for a negative timestamp. *)
From S2P Require Import Prelude Status LittleEndian Crc32 Framing.
Open Scope run_scope.

Module WalEntry.

Inductive Type_ := kInsert | kDelete.

#[export] Instance Type_eq_dec : EqDecision Type_.
Proof. solve_decision. Defined.

Record WalEntry := MkWalEntry {
  type : Type_;
  timestamp_ms : Z;
  block_id : Z;
  vector : list Z
}.

#[export] Instance WalEntry_eq_dec : EqDecision WalEntry.
Proof. solve_decision. Defined.

Definition type_byte (t : Type_) : Z := match t with kInsert => 1 | kDelete => 2 end.

Definition NowMsOrGiven (now timestamp_ms : Z) : Z :=
  if 0 <=? timestamp_ms then timestamp_ms else now.

Definition kEntrySizeBytes : Z := 4.
Definition kTypeBytes : Z := 1.
Definition kTimestampBytes : Z := 8.
Definition kIdBytes : Z := 8.
Definition kCrcBytes : Z := 4.
Definition kFixedBodyBytes : Z := kTypeBytes + kTimestampBytes + kIdBytes.

Definition InsertBody (block_id : Z) (vec : list Z) (now timestamp_ms : Z) : bytes :=
  PutU8 (type_byte kInsert)
  ++ PutU64 (u64 (NowMsOrGiven now timestamp_ms))
  ++ PutU64 block_id
  ++ concat (PutU32 <$> vec).

Definition DeleteBody (block_id now timestamp_ms : Z) : bytes :=
  PutU8 (type_byte kDelete)
  ++ PutU64 (u64 (NowMsOrGiven now timestamp_ms))
  ++ PutU64 block_id.

(** [vec] holds the [dim] floats the pointer argument points to. *)
Definition SerializeInsert (block_id : Z) (vec : list Z) (now timestamp_ms : Z) : bytes :=
  FrameFromBody (InsertBody block_id vec now timestamp_ms).
Definition SerializeDelete (block_id now timestamp_ms : Z) : bytes :=
  FrameFromBody (DeleteBody block_id now timestamp_ms).

Definition corrupted (detail : string) : Status :=
  PhnswStatus kInvalidArgument phnsw_errors.kWalCorrupted detail.

(** [for (i = 0; i < vec_dim; ++i) GetU32(vp + i * 4)]. *)
Fixpoint read_floats (data : bytes) (pos : Z) (count : nat) : Run (list Z) :=
  match count with
  | O => Ret []
  | S n =>
      let! f := load (GetU32 data pos) in
      let! rest := read_floats data (pos + 4) n in
      Ret (f :: rest)
  end.

Definition DeserializeFrom (data : bytes) (offset expected_dim : Z) : Run (WalEntry * Z) :=
  let size := len data in
  let start := offset in
  reject! corrupted "WalEntry: truncated entry_size" when size <? start + kEntrySizeBytes in
  let! entry_size := load (GetU32 data start) in
  reject! corrupted "WalEntry: entry_size below minimum"
    when entry_size <? kFixedBodyBytes + kCrcBytes in
  let frame_end := start + kEntrySizeBytes + entry_size in
  reject! corrupted "WalEntry: frame extends past buffer" when size <? frame_end in
  let body_begin := start + kEntrySizeBytes in
  let body_len := entry_size - kCrcBytes in
  let! stored_crc := load (GetU32 data (body_begin + body_len)) in
  let! covered := load (sub data body_begin body_len) in
  let actual_crc := Crc32 covered in
  reject! corrupted "WalEntry: CRC mismatch" when negb (stored_crc =? actual_crc) in
  let bp := body_begin in
  let! type_raw := load (GetU8 data bp) in
  reject! corrupted "WalEntry: unknown entry_type"
    when negb (type_raw =? type_byte kInsert) && negb (type_raw =? type_byte kDelete) in
  let ty := if type_raw =? type_byte kInsert then kInsert else kDelete in
  let! ts := load (GetU64 data (bp + kTypeBytes)) in
  let! id := load (GetU64 data (bp + kTypeBytes + kTimestampBytes)) in
  let! vec :=
    match ty with
    | kInsert =>
        let vec_bytes := body_len - kFixedBodyBytes in
        reject! corrupted "WalEntry: INSERT vector not float-aligned"
          when negb (vec_bytes mod 4 =? 0) in
        let vec_dim := vec_bytes / 4 in
        reject! PhnswStatus kInvalidArgument phnsw_errors.kVectorDimMismatch
                  "WalEntry: INSERT dim mismatch"
          when (0 <? expected_dim) && negb (vec_dim =? expected_dim) in
        read_floats data (bp + kFixedBodyBytes) (Z.to_nat vec_dim)
    | kDelete =>
        reject! corrupted "WalEntry: DELETE carries unexpected payload"
          when negb (body_len =? kFixedBodyBytes) in
        Ret []
    end in
  Ret (MkWalEntry ty (i64 ts) id vec, frame_end).

Definition Deserialize (data : bytes) (expected_dim : Z) : Run WalEntry :=
  let! r := DeserializeFrom data 0 expected_dim in
  reject! corrupted "WalEntry::Deserialize: trailing bytes after one record"
    when negb (r.2 =? len data) in
  Ret r.1.

(** ** What a record is *)

(** The frame of an entry, as the two serializers write it. *)
Definition Serialize (e : WalEntry) : bytes :=
  match type e with
  | kInsert => SerializeInsert (block_id e) (vector e) 0 (timestamp_ms e)
  | kDelete => SerializeDelete (block_id e) 0 (timestamp_ms e)
  end.
Definition SerializeBody (e : WalEntry) : bytes :=
  match type e with
  | kInsert => InsertBody (block_id e) (vector e) 0 (timestamp_ms e)
  | kDelete => DeleteBody (block_id e) 0 (timestamp_ms e)
  end.

Definition u32_ok (v : Z) : Prop := 0 <= v < 2 ^ 32.
Definition u64_ok (v : Z) : Prop := 0 <= v < 2 ^ 64.

(** An entry of an index of [dim] dimensions. *)
Record valid (dim : Z) (e : WalEntry) : Prop := {
  valid_ts : 0 <= timestamp_ms e < 2 ^ 63;
  valid_id : u64_ok (block_id e);
  valid_vec : Forall u32_ok (vector e);
  valid_dim : 0 < dim < 2 ^ 29;
  valid_len : len (vector e) = match type e with kInsert => dim | kDelete => 0 end
}.

Lemma WalEntry_Serialize_frame e : Serialize e = FrameFromBody (SerializeBody e).
Proof. unfold Serialize, SerializeBody. by destruct (type e). Qed.

Lemma len_concat_u32 (l : list Z) : len (concat (PutU32 <$> l)) = 4 * len l.
Proof. induction l as [|x l IH]; [done|]. rewrite fmap_cons, concat_cons. slen. Qed.
#[local] Hint Rewrite len_concat_u32 : len.

Lemma concat_u32_ok (l : list Z) : bytes_ok (concat (PutU32 <$> l)).
Proof.
  induction l; [constructor|]. rewrite fmap_cons, concat_cons, bytes_ok_app.
  split; [apply put_le_ok|done].
Qed.

Lemma WalEntry_len_SerializeBody dim e : valid dim e -> len (SerializeBody e) = 17 + 4 * len (vector e).
Proof.
  intros [_ _ _ _ Hl]. unfold SerializeBody, InsertBody, DeleteBody.
  destruct (type e); [slen|]. rewrite Hl. slen.
Qed.

Lemma WalEntry_SerializeBody_ok e : bytes_ok (SerializeBody e).
Proof.
  unfold SerializeBody, InsertBody, DeleteBody.
  destruct (type e); rewrite !bytes_ok_app; repeat split;
    try apply put_le_ok; try apply PutU8_ok; apply concat_u32_ok.
Qed.

Lemma WalEntry_Serialize_ok e : bytes_ok (Serialize e).
Proof. rewrite WalEntry_Serialize_frame. apply FrameFromBody_ok, WalEntry_SerializeBody_ok. Qed.

Lemma WalEntry_Serialize_fits dim e : valid dim e -> frame_fits (SerializeBody e).
Proof.
  intros Hv. unfold frame_fits. rewrite (WalEntry_len_SerializeBody dim) by done.
  destruct Hv as [_ _ _ Hd ->]. destruct (type e); lia.
Qed.

Lemma WalEntry_len_Serialize e : len (Serialize e) = 8 + len (SerializeBody e).
Proof. rewrite WalEntry_Serialize_frame. apply len_FrameFromBody. Qed.

Lemma read_floats_put a l c off :
  Forall u32_ok l -> off = len a ->
  read_floats (a ++ concat (PutU32 <$> l) ++ c) off (length l) = Ret l.
Proof.
  intros HF. revert a off. induction HF as [|x l Hx HF IH]; intros a off ->; [done|].
  rewrite fmap_cons, concat_cons, <- app_assoc. cbn [read_floats length].
  rewrite GetU32_put by done. cbn [load run_bind]. rewrite (u32_small x) by exact Hx.
  replace (a ++ PutU32 x ++ concat (PutU32 <$> l) ++ c)
    with ((a ++ PutU32 x) ++ concat (PutU32 <$> l) ++ c) by (by rewrite <- app_assoc).
  by rewrite IH by slen.
Qed.

Lemma read_floats_defined data pos n :
  0 <= pos -> pos + 4 * Z.of_nat n <= len data -> exists l, read_floats data pos n = Ret l.
Proof.
  revert pos. induction n as [|n IH]; intros pos Hp Hn; [by eexists|].
  simpl. destruct (GetU32_is_Some data pos) as [b ->]; [lia..|].
  destruct (IH (pos + 4)) as [l Hl]; [lia..|]. simpl. rewrite Hl. by eexists.
Qed.

Lemma frame_read_floats pre body post off k n :
  off = len pre + 4 + k -> 0 <= k -> k + 4 * Z.of_nat n <= len body ->
  read_floats (pre ++ FrameFromBody body ++ post) off n = read_floats body k n.
Proof.
  revert off k. induction n as [|n IH]; intros off k Ho Hk Hn; [done|].
  cbn [read_floats]. rewrite (frame_U32 pre body post off k) by lia.
  by rewrite (IH _ (k + 4)) by lia.
Qed.

(** What each field of a serialized body reads back as. *)
Lemma body_fields dim e :
  valid dim e ->
  let body := SerializeBody e in
  GetU8 body 0 = Some (type_byte (type e)) /\
  GetU64 body 1 = Some (u64 (timestamp_ms e)) /\
  GetU64 body 9 = Some (block_id e) /\
  (type e = kInsert -> read_floats body 17 (length (vector e)) = Ret (vector e)).
Proof.
  intros [Ht Hi Hvec Hd Hl] body. unfold u64_ok in Hi. unfold body, SerializeBody.
  assert (NowMsOrGiven 0 (timestamp_ms e) = timestamp_ms e) as Hn
    by (unfold NowMsOrGiven; rewrite (proj2 (Z.leb_le _ _)) by lia; done).
  assert (u64 (u64 (timestamp_ms e)) = u64 (timestamp_ms e)) as Hu by (rewrite !(u64_small (timestamp_ms e)) by lia; done).
  destruct (type e); unfold InsertBody, DeleteBody; rewrite Hn.
  - split; [read_fields; done|]. split; [read_fields; by rewrite Hu|].
    split; [read_fields; by rewrite (u64_small (block_id e)) by lia|]. intros _.
    rewrite <- (app_nil_r (concat _)), !app_assoc, <- (app_assoc _ (concat _)).
    rewrite read_floats_put; [done|done|slen].
  - rewrite <- (app_nil_r (PutU64 (block_id e))).
    split; [read_fields; done|]. split; [read_fields; by rewrite Hu|].
    split; [read_fields; by rewrite (u64_small (block_id e)) by lia|done].
Qed.

(** Round trip in place, for the dimension the index has or for any (0). *)
Lemma WalEntry_DeserializeFrom_Serialize pre e post dim d :
  valid dim e -> d = dim \/ d <= 0 ->
  DeserializeFrom (pre ++ Serialize e ++ post) (len pre) d
  = Ret (e, len pre + len (Serialize e)).
Proof.
  intros Hv Hdim. pose proof (WalEntry_Serialize_fits dim e Hv) as Hf.
  destruct (body_fields dim e Hv) as (R1 & R2 & R3 & R4).
  pose proof (WalEntry_len_SerializeBody dim e Hv) as Hlb. pose proof (WalEntry_len_Serialize e) as Hls.
  rewrite WalEntry_Serialize_frame in *. set (body := SerializeBody e) in *.
  pose proof (len_nonneg (vector e)). pose proof (valid_len _ _ Hv) as Hl. pose proof (valid_dim _ _ Hv).
  unfold DeserializeFrom, kFixedBodyBytes, kEntrySizeBytes, kTypeBytes, kTimestampBytes, kIdBytes, kCrcBytes.
  pass. rewrite (frame_size pre body post) by done. cbn [load run_bind].
  pass. pass. replace (len body + 4 - 4) with (len body) by lia.
  rewrite (frame_crc pre body post) by lia.
  rewrite (frame_body pre body post) by lia. cbn [load run_bind].
  rewrite Z.eqb_refl. cbn [negb]. pass.
  rewrite (frame_U8 pre body post _ 0), R1 by lia.
  rewrite (frame_U64 pre body post _ 1), R2 by lia.
  rewrite (frame_U64 pre body post _ 9), R3 by lia. cbn [load run_bind].
  rewrite i64_u64 by (pose proof (valid_ts _ _ Hv); lia).
  destruct e as [ty ts id vec]. cbn [type vector timestamp_ms block_id] in *.
  destruct ty; cbn [type_byte Z.eqb negb andb Pos.eqb guard_err run_bind].
  - replace ((len body - (1 + 8 + 8)) mod 4) with 0
      by (rewrite Hlb; replace (17 + 4 * len vec - (1 + 8 + 8)) with (len vec * 4) by lia; by rewrite Z.mod_mul).
    replace ((len body - (1 + 8 + 8)) / 4) with (len vec)
      by (rewrite Hlb; replace (17 + 4 * len vec - (1 + 8 + 8)) with (len vec * 4) by lia; by rewrite Z.div_mul).
    rewrite Z.eqb_refl. cbn [negb guard_err run_bind].
    replace ((0 <? d) && negb (len vec =? d)) with false
      by (destruct Hdim as [->|Hd]; [by rewrite Hl, Z.eqb_refl, andb_false_r|by rewrite (proj2 (Z.ltb_ge _ _))]).
    cbn [guard_err run_bind].
    rewrite (frame_read_floats pre body post _ 17) by (rewrite <- ?length_len; unfold len in *; lia).
    rewrite <- length_len, R4 by done. cbn [run_bind]. rewrite Hls. do 2 f_equal. lia.
  - rewrite Hls, Hlb, Hl, Z.eqb_refl. cbn [negb guard_err run_bind].
    destruct vec; [|exfalso; unfold len in Hl; simpl in Hl; lia].
    do 2 f_equal. lia.
Qed.

(** A record without a timestamp is stamped with the clock. *)
Lemma SerializeInsert_stamped id vec now :
  0 <= now -> SerializeInsert id vec now (-1) = Serialize (MkWalEntry kInsert now id vec).
Proof.
  intros. unfold Serialize, SerializeInsert, InsertBody, NowMsOrGiven. cbn [type block_id vector timestamp_ms].
  by rewrite (proj2 (Z.leb_le 0 now)) by done.
Qed.
Lemma SerializeDelete_stamped id now :
  0 <= now -> SerializeDelete id now (-1) = Serialize (MkWalEntry kDelete now id []).
Proof.
  intros. unfold Serialize, SerializeDelete, DeleteBody, NowMsOrGiven. cbn [type block_id vector timestamp_ms].
  by rewrite (proj2 (Z.leb_le 0 now)) by done.
Qed.

(** Encode/decode round trip of the index log's records, at any place of a
    file image: INSERT gives back every float bit pattern, DELETE an empty
    vector, and the reader stops at the end of the frame. *)
Theorem WalEntry_roundtrip (pre post : bytes) (dim now : Z) (id : Z) (vec : list Z) :
  valid dim (MkWalEntry kInsert now id vec) ->
  DeserializeFrom (pre ++ SerializeInsert id vec now (-1) ++ post) (len pre) dim
  = Ret (MkWalEntry kInsert now id vec, len pre + len (SerializeInsert id vec now (-1))) /\
  DeserializeFrom (pre ++ SerializeDelete id now (-1) ++ post) (len pre) dim
  = Ret (MkWalEntry kDelete now id [], len pre + len (SerializeDelete id now (-1))).
Proof.
  intros Hv. pose proof (valid_ts _ _ Hv) as Ht. cbn in Ht.
  rewrite SerializeInsert_stamped, SerializeDelete_stamped by lia.
  split; eapply WalEntry_DeserializeFrom_Serialize; [exact Hv|by left| |by left].
  destruct Hv. by split.
Qed.

Definition sample : WalEntry := MkWalEntry kInsert 1700000000000 (2 ^ 63 + 1) [1065353216; 3212836864].
Lemma WalEntry_sample_valid : valid 2 sample.
Proof. split; repeat constructor; unfold u64_ok, u32_ok; simpl; lia. Qed.

Lemma WalEntry_roundtrip_witness :
  DeserializeFrom ([9] ++ SerializeInsert (2 ^ 63 + 1) [1065353216; 3212836864] 1700000000000 (-1) ++ []) 1 2
  = Ret (sample, 1 + len (SerializeInsert (2 ^ 63 + 1) [1065353216; 3212836864] 1700000000000 (-1))).
Proof.
  destruct (WalEntry_roundtrip [9] [] 2 1700000000000 (2 ^ 63 + 1) [1065353216; 3212836864]) as [H _].
  - split; repeat constructor; unfold u64_ok, u32_ok; simpl; lia.
  - exact H.
Defined.

(** ** Memory safety *)

Lemma WalEntry_DeserializeFrom_defined data offset dim :
  bytes_ok data -> 0 <= offset -> run_defined (DeserializeFrom data offset dim).
Proof.
  intros Hok Ho.
  unfold DeserializeFrom, kFixedBodyBytes, kEntrySizeBytes, kTypeBytes, kTimestampBytes, kIdBytes, kCrcBytes.
  defined. defined; [apply GetU32_is_Some; lia|].
  apply GetU32_range in L as Hv; [|done].
  defined. defined.
  defined; [apply GetU32_is_Some; lia|].
  defined; [apply sub_is_Some; lia|].
  defined.
  defined; [apply GetU8_is_Some; lia|].
  defined.
  defined; [apply GetU64_is_Some; lia|].
  defined; [apply GetU64_is_Some; lia|].
  apply run_bind_defined; [|by intros]. destruct (v2 =? type_byte kInsert); [|by defined].
  defined. defined.
  set (n := Z.to_nat _).
  destruct (read_floats_defined data (offset + 4 + (1 + 8 + 8)) n) as [l ->]; [lia| |exact I].
  unfold n. pose proof (Z.div_mod (v - 4 - (1 + 8 + 8)) 4 ltac:(lia)).
  apply negb_false_iff, Z.eqb_eq in G4. rewrite Z2Nat.id by (apply Z.div_pos; lia). lia.
Qed.

Lemma WalEntry_DeserializeFrom_progress data offset dim e next :
  bytes_ok data -> 0 <= offset ->
  DeserializeFrom data offset dim = Ret (e, next) -> offset + 25 <= next <= len data.
Proof.
  intros Hok Ho H.
  unfold DeserializeFrom, kFixedBodyBytes, kEntrySizeBytes, kTypeBytes, kTimestampBytes, kIdBytes, kCrcBytes in H.
  apply guard_inv in H as [G H]. apply Z.ltb_ge in G.
  apply load_inv in H as (sz & L & H). apply GetU32_range in L; [|done].
  apply guard_inv in H as [G1 H]. apply Z.ltb_ge in G1.
  apply guard_inv in H as [G2 H]. apply Z.ltb_ge in G2.
  enough (next = offset + 4 + sz) by lia.
  repeat first
    [ apply guard_inv in H as [_ H]
    | apply load_inv in H as (? & _ & H)
    | match type of H with run_bind ?m _ = _ => destruct m; cbn [run_bind] in H; [|done..] end ].
  by injection H as _ <-.
Qed.

(** Memory safety and integrity of the index log reader: on arbitrary bytes
    [DeserializeFrom] reads only inside the buffer, and after any one byte of a
    record's body or checksum changed it reports corruption. *)
Theorem WalEntry_reader_safe (data pre post body' crc' : bytes) (offset dim d : Z) (e : WalEntry) :
  bytes_ok data -> 0 <= offset -> valid dim e -> damaged (SerializeBody e) body' crc' ->
  run_defined (DeserializeFrom data offset d) /\
  DeserializeFrom
    (pre ++ (PutU32 (u32 (len (SerializeBody e) + 4)) ++ body' ++ crc') ++ post) (len pre) d
  = Fail (corrupted "WalEntry: CRC mismatch").
Proof.
  intros Hok Ho Hv Hd. split; [by apply WalEntry_DeserializeFrom_defined|].
  pose proof (WalEntry_Serialize_fits dim e Hv) as Hf. unfold frame_fits in Hf.
  destruct (damaged_len _ _ _ Hd) as [Hl Hc].
  pose proof (damaged_crc_mismatch _ _ _ (WalEntry_SerializeBody_ok e) Hd) as Hne.
  pose proof (WalEntry_len_SerializeBody dim e Hv) as Hlb. pose proof (len_nonneg (vector e)).
  set (sz := len (SerializeBody e)) in *.
  unfold DeserializeFrom, kFixedBodyBytes, kEntrySizeBytes, kTypeBytes, kTimestampBytes, kIdBytes, kCrcBytes.
  replace (pre ++ (PutU32 (u32 (sz + 4)) ++ body' ++ crc') ++ post)
    with (pre ++ PutU32 (u32 (sz + 4)) ++ body' ++ crc' ++ post)
    by (rewrite <- !app_assoc; done).
  pass. rewrite GetU32_put by done. rewrite !(u32_small (sz + 4)) by lia.
  cbn [load run_bind]. pass. pass. replace (sz + 4 - 4) with sz by lia.
  unfold GetU32. read_fields. cbn [load run_bind fmap option_fmap option_map].
  rewrite (proj2 (Z.eqb_neq _ _) Hne). reflexivity.
Qed.

Lemma WalEntry_reader_safe_witness :
  run_defined (DeserializeFrom [25; 0; 0; 0; 7] 0 2) /\
  DeserializeFrom
    ([] ++ (PutU32 (u32 (len (SerializeBody sample) + 4))
            ++ <[0%nat := 2]> (SerializeBody sample)
            ++ PutU32 (Crc32 (SerializeBody sample))) ++ []) 0 2
  = Fail (corrupted "WalEntry: CRC mismatch").
Proof.
  apply (WalEntry_reader_safe [25; 0; 0; 0; 7] [] [] _ _ 0 2 2 sample);
    [repeat constructor; done|lia|exact WalEntry_sample_valid|].
  apply (damaged_body _ 0 1 2); [reflexivity|done|lia].
Defined.

End WalEntry.
