(* ===== verification/WalLog.v ===== *)
(** * The vector index log file (src/store/phnsw/wal_writer.cpp)

    [WalWriter] owns hnsw.wal: a 32-byte header with the record count and the
    last LSN, rewritten in place at every append, then framed records.  The
    record at position [i] of the file (from 1) has the LSN
    [committed_lsn - entry_count + i].  The file mutex makes every method one
    atomic step; I/O outcomes come from the script [io_]. *)
From S2P Require Import Prelude Status LittleEndian Crc32 Framing WalEntryCodec Posix GroupCommit.
Open Scope run_scope.

Module WalWriter.
Import WalEntry(WalEntry, valid).

Definition kMagic : bytes := [80; 87; 65; 76]. (* "PWAL" *)
Definition kVersion : Z := 1.
Definition kHeaderSize : Z := 32.

(** magic(4) version(2) dim(4) entry_count(8) committed_lsn(8) reserved(2) crc(4). *)
Definition HeaderBody (dim entry_count committed_lsn : Z) : bytes :=
  kMagic ++ PutU16 kVersion ++ PutU32 (u32 dim) ++ PutU64 entry_count ++ PutU64 committed_lsn
  ++ replicate 2 0.
Definition MakeHeader (dim entry_count committed_lsn : Z) : bytes :=
  let h := HeaderBody dim entry_count committed_lsn in h ++ PutU32 (Crc32 h).

Record WalWriter := MkWal {
  fd_ : file;
  dim_ : Z;
  entry_count_ : Z;
  committed_lsn_ : Z;
  header_trusted_ : bool;
  io_ : script
}.

Definition set_io (w : WalWriter) (s : script) : WalWriter :=
  MkWal (fd_ w) (dim_ w) (entry_count_ w) (committed_lsn_ w) (header_trusted_ w) s.
Definition set_fd (w : WalWriter) (f : file) (s : script) : WalWriter :=
  MkWal f (dim_ w) (entry_count_ w) (committed_lsn_ w) (header_trusted_ w) s.

Definition write_failed (d : string) : Status :=
  PhnswStatus kUnavailable phnsw_errors.kWalWriteFailed d.
Definition sync_failed (d : string) : Status :=
  PhnswStatus kUnavailable phnsw_errors.kWalSyncFailed d.
Definition unreadable (d : string) : Status :=
  PhnswStatus kUnavailable phnsw_errors.kWalCorrupted d.
Definition corrupted (d : string) : Status :=
  PhnswStatus kInvalidArgument phnsw_errors.kWalCorrupted d.

(** The header checks of [Open]: [(trusted, entry_count, committed_lsn)]. *)
Definition CheckHeader (hdr : bytes) (dim : Z) : Run (bool * Z * Z) :=
  let! magic := load (sub hdr 0 4) in
  reject! corrupted "WalWriter::Open: bad magic" when negb (bool_decide (magic = kMagic)) in
  let! version := load (GetU16 hdr 4) in
  reject! corrupted "WalWriter::Open: unsupported version" when negb (version =? kVersion) in
  let! file_dim := load (GetU32 hdr 6) in
  reject! corrupted "WalWriter::Open: dim mismatch (file vs requested)"
    when negb (file_dim =? u32 dim) in
  let! stored_crc := load (GetU32 hdr 28) in
  let! covered := load (sub hdr 0 28) in
  if negb (stored_crc =? Crc32 covered) then Ret (false, 0, 0) else
  let! entry_count := load (GetU64 hdr 10) in
  let! committed_lsn := load (GetU64 hdr 18) in
  Ret (true, entry_count, committed_lsn).

(** [Open] on the file [f] found at the path (empty if there was none). *)
Definition Open (f : file) (dim : Z) (s : script) : Run WalWriter * file :=
  if dim <=? 0 then
    (Fail (PhnswStatus kInvalidArgument phnsw_errors.kVectorDimMismatch
             "WalWriter::Open: dim must be > 0"), f) else
  let '(ok, s) := sys s in
  if negb ok then (Fail (write_failed "WalWriter::Open: open "), f) else
  let '(ok, s) := sys s in
  if negb ok then (Fail (write_failed "WalWriter::Open: lseek: "), f) else
  let end_ := len (f_data f) in
  if end_ =? 0 then
    let '(ok, f, s) := PwriteAll s f 0 (MakeHeader dim 0 0) in
    if negb ok then (Fail (write_failed "WalWriter::Open header pwrite: "), f) else
    let '(ok, s) := sys s in
    if negb ok then (Fail (sync_failed "WalWriter::Open header sync: "), f) else
    let f := f_sync f in (Ret (MkWal f dim 0 0 true s), f)
  else if end_ <? kHeaderSize then
    (Fail (corrupted "WalWriter::Open: file smaller than header"), f)
  else
    let '(full, s) :=
      match s with
      | [] => (true, [])
      | IoOk :: s' => (true, s')
      | IoShort n :: s' => (kHeaderSize <=? n, s')
      | (IoEintr | IoErr) :: s' => (false, s')
      end in
    if negb full then (Fail (unreadable "WalWriter::Open: short header read"), f) else
    (let! hdr := load (sub (f_data f) 0 kHeaderSize) in
     let! h := CheckHeader hdr dim in
     let '(trusted, ec, lsn) := h in
     Ret (MkWal f dim ec lsn trusted s), f).

(** The record loop of [WriteRecordsLocked]. *)
Fixpoint WriteFrames (records : list bytes) (off : Z) (w : WalWriter) : Status * WalWriter :=
  match records with
  | [] => (Status_Ok, w)
  | r :: rest =>
      let '(ok, f, s) := PwriteAll (io_ w) (fd_ w) off r in
      let w := set_fd w f s in
      if ok then WriteFrames rest (off + len r) w
      else (write_failed "WalWriter::WriteRecords pwrite: ", w)
  end.

Definition WriteRecordsLocked (records : list bytes) (w : WalWriter) : Status * WalWriter :=
  if decide (records = []) then (Status_Ok, w) else
  let '(ok, s) := sys (io_ w) in
  let w := set_io w s in
  if negb ok then (write_failed "WalWriter: lseek end: ", w) else
  let '(st, w) := WriteFrames records (len (f_data (fd_ w))) w in
  if status_ok st then
    (Status_Ok, MkWal (fd_ w) (dim_ w) (u64 (entry_count_ w + len records))
                  (u64 (committed_lsn_ w + len records)) (header_trusted_ w) (io_ w))
  else (st, w).

Definition RewriteHeaderLocked (w : WalWriter) : Status * WalWriter :=
  let '(ok, f, s) := PwriteAll (io_ w) (fd_ w) 0 (MakeHeader (dim_ w) (entry_count_ w) (committed_lsn_ w)) in
  if ok then (Status_Ok, MkWal f (dim_ w) (entry_count_ w) (committed_lsn_ w) true s)
  else (write_failed "WalWriter::RewriteHeader pwrite: ", set_fd w f s).

Definition SyncLocked (w : WalWriter) : Status * WalWriter :=
  let '(ok, s) := sys (io_ w) in
  if ok then (Status_Ok, set_fd w (f_sync (fd_ w)) s)
  else (sync_failed "WalWriter: fdatasync: ", set_io w s).

Definition WriteBatch (entries : list bytes) (w : WalWriter) : Status * WalWriter :=
  let '(st, w) := WriteRecordsLocked entries w in
  if status_ok st then RewriteHeaderLocked w else (st, w).

Definition Sync (w : WalWriter) : Status * WalWriter := SyncLocked w.

Definition AppendBatch (records : list bytes) (w : WalWriter) : Status * WalWriter :=
  if decide (records = []) then (Status_Ok, w) else
  let '(st, w) := WriteRecordsLocked records w in
  if negb (status_ok st) then (st, w) else
  let '(st, w) := RewriteHeaderLocked w in
  if negb (status_ok st) then (st, w) else SyncLocked w.

Definition Append (record : bytes) (w : WalWriter) : Status * WalWriter := AppendBatch [record] w.

Definition ReadFileLocked (w : WalWriter) : Run bytes * WalWriter :=
  let '(ok, s) := sys (io_ w) in
  if negb ok then (Fail (unreadable "WalWriter: lseek end: "), set_io w s) else
  let data := f_data (fd_ w) in
  let '(r, s) := PreadAll s data 0 (length data) in
  match r with
  | Some buf => (Ret buf, set_io w s)
  | None => (Fail (unreadable "WalWriter: pread: "), set_io w s)
  end.

(** The [while (offset < img.size())] loop of [ReadAll]. *)
Fixpoint scan_from (fuel : nat) (img : bytes) (offset dim_check : Z) : Run (list WalEntry * Z) :=
  match fuel with
  | O => Undef
  | S n =>
      if offset <? len img then
        match WalEntry.DeserializeFrom img offset dim_check with
        | Ret (e, next) =>
            let! r := scan_from n img next dim_check in Ret (e :: r.1, r.2)
        | Fail _ => Ret ([], offset)
        | Undef => Undef
        end
      else Ret ([], offset)
  end.

(** The repair of [ReadAll]: cut the tail, re-derive the counts, rewrite the
    header and sync. *)
Definition Repair (count valid_end : Z) (tail : bool) (w : WalWriter) : Status * WalWriter :=
  let '(ok, w) :=
    if tail then
      let '(ok, s) := sys (io_ w) in
      if ok then (true, set_fd w (f_do (fd_ w) (WTrunc valid_end)) s) else (false, set_io w s)
    else (true, w) in
  if negb ok then (unreadable "WalWriter::ReadAll ftruncate tail: ", w) else
  let base := u64 (committed_lsn_ w - entry_count_ w) in
  let w := MkWal (fd_ w) (dim_ w) count (u64 (base + count)) (header_trusted_ w) (io_ w) in
  let '(h, w) := RewriteHeaderLocked w in
  if negb (status_ok h) then (h, w) else
  let '(ok, s) := sys (io_ w) in
  if ok then (Status_Ok, set_fd w (f_sync (fd_ w)) s)
  else (sync_failed "WalWriter::ReadAll sync after repair: ", set_io w s).

Definition ReadAll (expected_dim : Z) (w : WalWriter) : Run (list WalEntry) * WalWriter :=
  let '(file, w) := ReadFileLocked w in
  match file with
  | Fail s => (Fail s, w)
  | Undef => (Undef, w)
  | Ret img =>
      if len img <? kHeaderSize then (Ret [], w) else
      let dim_check := if 0 <? expected_dim then expected_dim else dim_ w in
      match scan_from (S (length img)) img kHeaderSize dim_check with
      | Fail s => (Fail s, w)
      | Undef => (Undef, w)
      | Ret (out, valid_end) =>
          let tail := valid_end <? len img in
          if tail || negb (header_trusted_ w) then
            let '(st, w) := Repair (len out) valid_end tail w in
            if status_ok st then (Ret out, w) else (Fail st, w)
          else (Ret out, w)
      end
  end.

Definition Truncate (w : WalWriter) : Status * WalWriter :=
  let '(ok, s) := sys (io_ w) in
  if negb ok then (write_failed "WalWriter::Truncate ftruncate: ", set_io w s) else
  let w := MkWal (f_do (fd_ w) (WTrunc kHeaderSize)) (dim_ w) 0 (committed_lsn_ w) (header_trusted_ w) s in
  let '(h, w) := RewriteHeaderLocked w in
  if negb (status_ok h) then (h, w) else SyncLocked w.

Record WalWriterStats := MkWalWriterStats { s_entry_count : Z; s_committed_lsn : Z; s_file_size : Z }.

Definition GetStats (w : WalWriter) : Run WalWriterStats * WalWriter :=
  let '(ok, s) := sys (io_ w) in
  if negb ok then (Fail (unreadable "WalWriter::GetStats lseek: "), set_io w s)
  else (Ret (MkWalWriterStats (entry_count_ w) (committed_lsn_ w) (len (f_data (fd_ w)))), set_io w s).

Definition committed_lsn (w : WalWriter) : Z := committed_lsn_ w.
Definition entry_count (w : WalWriter) : Z := entry_count_ w.

(** The LSN just before the first record of the file. *)
Definition base_lsn (w : WalWriter) : Z := u64 (committed_lsn w - entry_count w).

(** ** The header *)

Lemma len_kMagic : len kMagic = 4.
Proof. reflexivity. Qed.
#[local] Hint Rewrite len_kMagic : len.

Lemma len_HeaderBody dim ec lsn : len (HeaderBody dim ec lsn) = 28.
Proof. unfold HeaderBody. slen. Qed.
#[local] Hint Rewrite len_HeaderBody : len.

Lemma Wal_len_MakeHeader dim ec lsn : len (MakeHeader dim ec lsn) = kHeaderSize.
Proof. unfold MakeHeader, kHeaderSize. slen. Qed.
#[local] Hint Rewrite Wal_len_MakeHeader : len.

Lemma Wal_MakeHeader_ok dim ec lsn : bytes_ok (MakeHeader dim ec lsn).
Proof.
  unfold MakeHeader, HeaderBody. rewrite !bytes_ok_app.
  repeat split; try apply put_le_ok; [repeat constructor; done|by apply Forall_replicate].
Qed.

Lemma Wal_CheckHeader_MakeHeader dim ec lsn :
  0 <= ec < 2 ^ 64 -> 0 <= lsn < 2 ^ 64 ->
  CheckHeader (MakeHeader dim ec lsn) dim = Ret (true, ec, lsn).
Proof.
  intros He Hl. set (h := HeaderBody dim ec lsn).
  assert (sub (MakeHeader dim ec lsn) 0 28 = Some h) as Hcov.
  { unfold MakeHeader. fold h. pose proof (len_HeaderBody dim ec lsn) as Hb. fold h in Hb.
    rewrite sub_app_l by lia. by apply sub_all. }
  assert (GetU32 (MakeHeader dim ec lsn) 28 = Some (Crc32 h)) as Hcrc.
  { unfold MakeHeader. fold h. rewrite <- (app_nil_r (PutU32 (Crc32 h))).
    rewrite GetU32_put by (symmetry; apply len_HeaderBody). by rewrite u32_small by apply Crc32_range. }
  unfold CheckHeader. rewrite Hcov, Hcrc. unfold MakeHeader, HeaderBody. rewrite <- !app_assoc.
  rewrite sub_head by slen. cbn [load run_bind].
  rewrite bool_decide_true by done. cbn [negb guard_err run_bind].
  read_fields. cbn [load run_bind]. rewrite (u16_small kVersion) by done. rewrite Z.eqb_refl.
  cbn [negb guard_err run_bind]. assert (u32 (u32 dim) = u32 dim) as ->.
  { apply u32_small. unfold u32. apply Z.mod_pos_bound. lia. }
  rewrite !Z.eqb_refl. cbn [negb guard_err run_bind]. by rewrite !u64_small by done.
Qed.

(** ** The records *)

Definition frames (es : list WalEntry) : bytes := concat (WalEntry.Serialize <$> es).

Lemma Wal_frames_cons e es : frames (e :: es) = WalEntry.Serialize e ++ frames es.
Proof. reflexivity. Qed.
Lemma Wal_frames_app es fs : frames (es ++ fs) = frames es ++ frames fs.
Proof. unfold frames. by rewrite fmap_app, concat_app. Qed.

Lemma Wal_frames_ok es : bytes_ok (frames es).
Proof.
  induction es; [constructor|]. rewrite Wal_frames_cons, bytes_ok_app.
  split; [apply WalEntry.WalEntry_Serialize_ok|done].
Qed.

Lemma Wal_len_frames_ge es : 8 * len es <= len (frames es).
Proof.
  induction es as [|e es IH]; [done|]. rewrite Wal_frames_cons. autorewrite with len.
  rewrite WalEntry.WalEntry_len_Serialize. slen.
Qed.

Lemma Wal_scan_from_total img fuel off dim :
  bytes_ok img -> 0 <= off <= len img -> len img - off < Z.of_nat fuel ->
  exists es stop, scan_from fuel img off dim = Ret (es, stop) /\ off <= stop <= len img.
Proof.
  intros Hok. revert off. induction fuel as [|n IH]; intros off Ho Hf; [lia|].
  cbn [scan_from]. destruct (off <? len img) eqn:E; [|exists [], off; split; [done|lia]].
  pose proof (WalEntry.WalEntry_DeserializeFrom_defined img off dim Hok ltac:(lia)) as Hd.
  destruct (WalEntry.DeserializeFrom img off dim) as [[e next]|st|] eqn:Er;
    [|exists [], off; split; [done|lia]|done].
  apply WalEntry.WalEntry_DeserializeFrom_progress in Er; [|done|lia].
  destruct (IH next) as (es & stop & Hs & Hb); [lia..|].
  rewrite Hs. exists (e :: es), stop. split; [done|lia].
Qed.

Lemma Wal_scan_from_fuel img n m off dim r :
  scan_from n img off dim = Ret r -> (n <= m)%nat -> scan_from m img off dim = Ret r.
Proof.
  revert m off r. induction n as [|n IH]; intros m off r H Hle; [done|].
  destruct m as [|m]; [lia|]. cbn [scan_from] in *.
  destruct (off <? len img); [|done].
  destruct (WalEntry.DeserializeFrom img off dim) as [[e next]| |]; [|done..].
  destruct (scan_from n img next dim) as [r'| |] eqn:E; [|done..].
  by rewrite (IH m next r' E) by lia.
Qed.

(** Intact records are read back in order, whatever follows them. *)
Lemma Wal_scan_from_frames es a junk n dim :
  Forall (valid dim) es ->
  scan_from (length es + n) (a ++ frames es ++ junk) (len a) dim
  = let! r := scan_from n (a ++ frames es ++ junk) (len a + len (frames es)) dim in
    Ret (es ++ r.1, r.2).
Proof.
  intros HF. revert a. induction HF as [|e es He HF IH]; intros a.
  { replace (len a + len (frames [])) with (len a) by (unfold frames; slen).
    cbn [length Nat.add app]. destruct (scan_from n _ (len a) dim) as [[? ?]| |]; done. }
  cbn [length Nat.add scan_from]. rewrite Wal_frames_cons, <- app_assoc.
  pose proof (WalEntry.WalEntry_len_Serialize e) as Hl.
  replace (len a <? _) with true by (symmetry; apply Z.ltb_lt; slen).
  rewrite (WalEntry.WalEntry_DeserializeFrom_Serialize a e _ dim dim) by auto.
  replace (a ++ WalEntry.Serialize e ++ frames es ++ junk)
    with ((a ++ WalEntry.Serialize e) ++ frames es ++ junk) by (by rewrite <- app_assoc).
  replace (len a + len (WalEntry.Serialize e)) with (len (a ++ WalEntry.Serialize e)) by slen.
  rewrite IH.
  replace (len (a ++ WalEntry.Serialize e) + len (frames es))
    with (len a + len (WalEntry.Serialize e ++ frames es)) by slen.
  destruct (scan_from n _ _ dim) as [[? ?]| |]; done.
Qed.

(** The whole scan of a file with any 32-byte header. *)
Definition scan (img : bytes) (dim : Z) : Run (list WalEntry * Z) :=
  scan_from (S (length img)) img kHeaderSize dim.

Lemma scan_frames h es junk dim :
  len h = kHeaderSize -> bytes_ok h -> Forall (valid dim) es -> bytes_ok junk ->
  exists extra stop, scan (h ++ frames es ++ junk) dim = Ret (es ++ extra, stop) /\
    len (h ++ frames es) <= stop <= len (h ++ frames es ++ junk) /\
    (junk = [] -> extra = [] /\ stop = len (h ++ frames es)).
Proof.
  intros Hh Hhok HF Hj. set (img := h ++ frames es ++ junk).
  assert (bytes_ok img) as Hok by (unfold img; rewrite !bytes_ok_app; auto using Wal_frames_ok).
  pose proof (Wal_len_frames_ge es). pose proof (len_nonneg (frames es)). pose proof (len_nonneg junk).
  assert (len img = kHeaderSize + len (frames es) + len junk) as Hli by (unfold img; slen).
  assert (0 <= kHeaderSize) as Hk0 by (unfold kHeaderSize; lia).
  destruct (Wal_scan_from_total img (S (length img) - length es)
    (len h + len (frames es)) dim) as (extra & stop & Hs & Hb); [done|lia|unfold len in *; lia|].
  exists extra, stop. split; [|split].
  - unfold scan. rewrite <- Hh.
    replace (S (length img)) with (length es + (S (length img) - length es))%nat by (unfold len in *; lia).
    unfold img at 2. rewrite Wal_scan_from_frames by done. fold img. by rewrite Hs.
  - rewrite len_app. lia.
  - intros ->. rewrite len_app in *. change (len []) with 0 in *.
    assert (exists n, (S (length img) - length es)%nat = S n) as [n Hn]
      by (exists (length img - length es)%nat; unfold len in *; lia).
    rewrite Hn in Hs. cbn [scan_from] in Hs. rewrite (proj2 (Z.ltb_ge _ _)) in Hs by lia.
    by injection Hs as <- <-.
Qed.

End WalWriter.
