(* ===== verification/WalLogTheory.v ===== *)
(** * What hnsw.wal guarantees (src/store/phnsw/wal_writer.cpp)

    Appends are durable once acknowledged and never cost a record that was
    synced before, although the header is overwritten in place; LSNs ascend
    across [Truncate] and reopening; and two concrete crashes after which the
    LSN base is wrong. *)
From S2P Require Import Prelude Status LittleEndian Crc32 Framing WalEntryCodec Posix GroupCommit WalLog.
Open Scope run_scope.

Import WalEntry(WalEntry, valid).
Import WalWriter.

#[local] Hint Rewrite len_kMagic len_HeaderBody Wal_len_MakeHeader : len.

Definition wal_image (dim base : Z) (es : list WalEntry) : bytes :=
  MakeHeader dim (len es) (base + len es) ++ frames es.

(** The writer and its file hold the records [es], numbered from [base + 1]. *)
Record holds (w : WalWriter) (base : Z) (es : list WalEntry) : Prop := {
  holds_data : f_data (fd_ w) = wal_image (dim_ w) base es;
  holds_count : entry_count_ w = len es;
  holds_lsn : committed_lsn_ w = base + len es;
  holds_trusted : header_trusted_ w = true;
  holds_dim : 0 < dim_ w;
  holds_valid : Forall (valid (dim_ w)) es;
  holds_base : 0 <= base;
  holds_bound : base + len es < 2 ^ 64
}.

Definition synced (w : WalWriter) : Prop := f_pending (fd_ w) = [].

Lemma holds_base_lsn w base es : holds w base es -> base_lsn w = base.
Proof.
  intros []. unfold base_lsn, committed_lsn, entry_count. pose proof (len_nonneg es).
  rewrite holds_lsn0, holds_count0. replace (base + len es - len es) with base by lia.
  apply u64_small. lia.
Qed.

Lemma WriteFrames_spec recs off w st w' :
  off = len (f_data (fd_ w)) -> WriteFrames recs off w = (st, w') ->
  (dim_ w' = dim_ w /\ entry_count_ w' = entry_count_ w /\ committed_lsn_ w' = committed_lsn_ w /\
   header_trusted_ w' = header_trusted_ w) /\
  f_durable (fd_ w') = f_durable (fd_ w) /\
  (exists tail, f_data (fd_ w') = f_data (fd_ w) ++ tail /\ (status_ok st = true -> tail = concat recs)) /\
  (Forall bytes_ok recs -> exists ws, f_pending (fd_ w') = f_pending (fd_ w) ++ ws /\
     Forall (beyond off) ws /\ Forall wop_ok ws).
Proof.
  revert off w. induction recs as [|r recs IH]; intros off w -> H; simpl in H.
  { injection H as <- <-. split; [done|]. split; [done|].
    split; [exists []; by rewrite app_nil_r|]. intros _. exists []. rewrite app_nil_r. auto. }
  destruct (PwriteAll (io_ w) (fd_ w) _ r) as [[ok f] s] eqn:E.
  pose proof E as Hp. apply PwriteAll_append in E as (Hd & k & Hk & Hok).
  assert (bytes_ok r -> exists ws, f_pending f = f_pending (fd_ w) ++ ws /\
     Forall (beyond (len (f_data (fd_ w)))) ws /\ Forall wop_ok ws) as Hpend.
  { intros Hr. apply PwriteAll_pending in Hp as (ws & Hw & HF); [|done|slen].
    exists ws. split; [done|]. split; (eapply Forall_impl; [exact HF|]);
      simpl; intros x (o & b & -> & ? & ?); done. }
  destruct ok.
  - specialize (Hok eq_refl). rewrite Hok in Hk.
    apply IH in H as (H1 & H2 & (tail & H3 & H4) & H5); [|simpl; rewrite Hk; slen].
    simpl in *. split; [done|]. split; [by rewrite H2|]. split.
    + exists (r ++ tail). rewrite H3, Hk, <- app_assoc. split; [done|]. intros Hs. by rewrite (H4 Hs).
    + intros HF. inversion HF as [|? ? Hr HF']; subst.
      destruct (Hpend Hr) as (ws & Hw & Hb & Ho). destruct (H5 HF') as (ws' & Hw' & Hb' & Ho').
      exists (ws ++ ws'). rewrite Hw', Hw, <- app_assoc. split; [done|].
      split; [|by apply Forall_app]. apply Forall_app. split; [done|].
      eapply Forall_impl; [exact Hb'|]. intros [o b|m]; simpl; pose proof (len_nonneg r); lia.
  - injection H as <- <-. split; [done|]. split; [done|]. split.
    + exists (take k r). done.
    + intros HF. inversion HF; subst. auto.
Qed.

(** Rewriting the header: complete on success, pieces of the new header
    otherwise; the records stay. *)
Lemma RewriteHeaderLocked_spec w st w' h rest :
  f_data (fd_ w) = h ++ rest -> len h = kHeaderSize ->
  RewriteHeaderLocked w = (st, w') ->
  (dim_ w' = dim_ w /\ entry_count_ w' = entry_count_ w /\ committed_lsn_ w' = committed_lsn_ w) /\
  f_durable (fd_ w') = f_durable (fd_ w) /\
  (exists ws, f_pending (fd_ w') = f_pending (fd_ w) ++ ws /\
     Forall (piece 0 (MakeHeader (dim_ w) (entry_count_ w) (committed_lsn_ w))) ws) /\
  (status_ok st = true -> header_trusted_ w' = true /\
     f_data (fd_ w') = MakeHeader (dim_ w) (entry_count_ w) (committed_lsn_ w) ++ rest).
Proof.
  intros Hd Hh H. unfold RewriteHeaderLocked in H.
  set (hdr := MakeHeader _ _ _) in *. assert (len hdr = kHeaderSize) as Hl by apply Wal_len_MakeHeader.
  destruct (PwriteAll _ _ 0 hdr) as [[ok f] s] eqn:E.
  pose proof (PwriteAll_pieces _ _ _ _ _ _ _ E) as Hp.
  apply PwriteAll_spec in E as (Hdur & k & Hk & Hok); [|slen].
  destruct ok; injection H as <- <-; simpl;
    (split; [done|]); (split; [done|]); (split; [exact Hp|]); [|done].
  intros _. split; [done|]. rewrite Hk, (Hok eq_refl), Hd.
  apply (splice_overwrite [] h rest hdr). unfold len in *. lia.
Qed.

Lemma SyncLocked_spec w st w' :
  SyncLocked w = (st, w') ->
  (dim_ w' = dim_ w /\ entry_count_ w' = entry_count_ w /\ committed_lsn_ w' = committed_lsn_ w /\
   header_trusted_ w' = header_trusted_ w) /\
  fd_ w' = if status_ok st then f_sync (fd_ w) else fd_ w.
Proof. unfold SyncLocked. destruct (sys (io_ w)) as [[] s]; intros [= <- <-]; done. Qed.

(** ** Appending *)

Lemma Serialize_all_ok es : Forall bytes_ok (WalEntry.Serialize <$> es).
Proof. apply Forall_fmap, Forall_forall. intros e _. apply WalEntry.WalEntry_Serialize_ok. Qed.

(** What a batch of appends leaves behind: on success the longer log; in any
    case only writes behind the old end and pieces of one header. *)
Lemma Wal_WriteBatch_spec w base es recs st w' :
  holds w base es -> Forall (valid (dim_ w)) recs -> base + len es + len recs < 2 ^ 64 ->
  WriteBatch (WalEntry.Serialize <$> recs) w = (st, w') ->
  f_durable (fd_ w') = f_durable (fd_ w) /\ dim_ w' = dim_ w /\
  (exists ws1 ws2 ec lsn, f_pending (fd_ w') = f_pending (fd_ w) ++ ws1 ++ ws2 /\
     Forall (beyond (len (f_data (fd_ w)))) ws1 /\ Forall wop_ok ws1 /\
     Forall (piece 0 (MakeHeader (dim_ w) ec lsn)) ws2) /\
  (status_ok st = true -> holds w' base (es ++ recs)).
Proof.
  intros Hh HF Hb H. pose proof Hh as [Hd Hc Hl Ht Hdim Hv Hb0 Hbd]. unfold WriteBatch in H.
  destruct (WriteRecordsLocked _ w) as [st1 w1] eqn:E1.
  assert ((dim_ w1 = dim_ w /\ f_durable (fd_ w1) = f_durable (fd_ w)) /\
    (exists ws, f_pending (fd_ w1) = f_pending (fd_ w) ++ ws /\
       Forall (beyond (len (f_data (fd_ w)))) ws /\ Forall wop_ok ws) /\
    (status_ok st1 = true -> entry_count_ w1 = len (es ++ recs) /\
       committed_lsn_ w1 = base + len (es ++ recs) /\
       f_data (fd_ w1) = f_data (fd_ w) ++ frames recs)) as ([Hd1 Hdur1] & (ws1 & Hp1 & Hby & Hwo) & Hok1).
  { unfold WriteRecordsLocked in E1. case_decide as Hnil.
    { injection E1 as <- <-. apply fmap_nil_inv in Hnil as ->. split; [done|].
      split; [exists []; rewrite app_nil_r; auto|]. change (frames []) with (@nil Z). by rewrite !app_nil_r. }
    destruct (sys (io_ w)) as [[] s]; simpl in E1;
      [|injection E1 as <- <-; split; [done|]; split; [exists []; rewrite app_nil_r; auto|done]].
    destruct (WriteFrames _ _ _) as [st0 w0] eqn:E0.
    apply WriteFrames_spec in E0 as ((A1 & A2 & A3 & A4) & A5 & (tail & A6 & A7) & A8); [|done].
    destruct (A8 (Serialize_all_ok recs)) as (ws & A9 & A10 & A11). simpl in *.
    destruct (status_ok st0) eqn:Es; injection E1 as <- <-; simpl.
    - split; [done|]. split; [exists ws; done|]. intros _. rewrite A2, A3, A6, Hc, Hl, (A7 eq_refl).
      pose proof (len_nonneg es). pose proof (len_nonneg recs). autorewrite with len.
      rewrite !u64_small by lia. split; [lia|]. split; [lia|done].
    - split; [done|]. split; [exists ws; done|]. congruence. }
  destruct (status_ok st1) eqn:Es1.
  - destruct (Hok1 eq_refl) as (Hc1 & Hl1 & Hda1). rewrite Hd in Hda1. unfold wal_image in Hda1.
    rewrite <- app_assoc in Hda1.
    destruct (RewriteHeaderLocked_spec w1 st w' _ _ Hda1 (Wal_len_MakeHeader _ _ _) H)
      as ((B1 & B2 & B3) & B4 & (ws2 & B5 & B6) & B7).
    split; [by rewrite B4|]. split; [by rewrite B1|]. split.
    + exists ws1, ws2, (entry_count_ w1), (committed_lsn_ w1). rewrite B5, Hp1, <- app_assoc, <- Hd1. done.
    + intros Hs. destruct (B7 Hs) as [B8 B9]. rewrite Hc1, Hl1, Hd1, <- Wal_frames_app in B9.
      split; try congruence.
      * rewrite B9, B1, Hd1. done.
      * rewrite B1, Hd1. by apply Forall_app.
      * autorewrite with len. lia.
  - injection H as <- <-. split; [done|]. split; [done|]. split; [|congruence].
    exists ws1, [], 0, 0. rewrite app_nil_r. auto.
Qed.

Lemma AppendBatch_spec w base es recs st w' :
  holds w base es -> synced w -> Forall (valid (dim_ w)) recs -> base + len es + len recs < 2 ^ 64 ->
  AppendBatch (WalEntry.Serialize <$> recs) w = (st, w') ->
  dim_ w' = dim_ w /\
  (status_ok st = true -> holds w' base (es ++ recs) /\ synced w') /\
  (status_ok st = false -> f_durable (fd_ w') = f_durable (fd_ w) /\
   exists ws1 ws2 ec lsn, f_pending (fd_ w') = ws1 ++ ws2 /\
     Forall (beyond (len (f_data (fd_ w)))) ws1 /\ Forall wop_ok ws1 /\
     Forall (piece 0 (MakeHeader (dim_ w) ec lsn)) ws2).
Proof.
  intros Hh Hsy HF Hb H.
  assert (recs = [] /\ st = Status_Ok /\ w' = w \/
          (let '(st1, w1) := WriteBatch (WalEntry.Serialize <$> recs) w in
           if status_ok st1 then SyncLocked w1 = (st, w') else (st, w') = (st1, w1))) as Hcases.
  { unfold AppendBatch in H. case_decide as Hnil.
    - left. apply fmap_nil_inv in Hnil as ->. by injection H as <- <-.
    - right. unfold WriteBatch. destruct (WriteRecordsLocked _ w) as [st1 w1].
      destruct (status_ok st1) eqn:E1; cbn [negb] in H; [|rewrite E1; by injection H as <- <-].
      destruct (RewriteHeaderLocked w1) as [st2 w2].
      destruct (status_ok st2) eqn:E2; cbn [negb] in H; [done|by injection H as <- <-]. }
  destruct Hcases as [(-> & -> & ->)|Hcases].
  { rewrite app_nil_r. split; [done|]. split; [done|]. done. }
  destruct (WriteBatch _ w) as [st1 w1] eqn:Ew.
  destruct (Wal_WriteBatch_spec _ _ _ _ _ _ Hh HF Hb Ew) as (Hdur & Hdim & (ws1 & ws2 & ec & lsn & Hp & Hrest) & Hok).
  rewrite Hsy in Hp. simpl in Hp.
  destruct (status_ok st1) eqn:E1.
  - apply SyncLocked_spec in Hcases as ((A1 & A2 & A3 & A4) & A5). rewrite A1.
    destruct (status_ok st) eqn:Es.
    + split; [done|]. split; [|done]. intros _. destruct (Hok eq_refl).
      split; [|unfold synced; by rewrite A5].
      split; rewrite ?A1, ?A2, ?A3, ?A4, ?A5; try done.
    + split; [done|]. split; [done|]. intros _. rewrite A5. split; [done|]. exists ws1, ws2, ec, lsn. done.
  - injection Hcases as -> ->. split; [done|]. split; [congruence|]. intros _.
    split; [done|]. exists ws1, ws2, ec, lsn. done.
Qed.

(** ** Crash images *)

Section mixed.
Context (hdr body : bytes).

(** A write behind the header and the synced records, or a piece of a header. *)
Definition mixed (w : wop) : Prop :=
  (beyond (len hdr + len body) w /\ wop_ok w) \/ piece 0 hdr w.

Lemma mixed_survives l l' : survives l l' -> Forall mixed l -> Forall mixed l'.
Proof.
  induction 1 as [|w l l' Hs IH|w l l' Hs IH|off buf k l l' Hs IH]; intros HF; [done| | |];
    inversion HF as [|? ? Hm HF']; subst; auto.
  constructor; [|auto]. destruct Hm as [[Hb Ho]|Hp].
  - left. split; [done|]. simpl in *. by apply Forall_take.
  - right. by apply piece_torn.
Qed.

Lemma apply_mixed l : Forall mixed l -> forall h junk,
  length h = length hdr -> bytes_ok (h ++ body ++ junk) -> bytes_ok hdr ->
  exists h' junk', foldl apply_wop (h ++ body ++ junk) l = h' ++ body ++ junk' /\
    length h' = length hdr /\ bytes_ok (h' ++ body ++ junk') /\
    forall i, h' !! i = h !! i \/ h' !! i = hdr !! i.
Proof.
  induction 1 as [|w l Hm _ IH]; intros h junk Hl Hok Hhok.
  { exists h, junk. auto. }
  simpl.
  assert (exists h1 junk1, apply_wop (h ++ body ++ junk) w = h1 ++ body ++ junk1 /\
    length h1 = length hdr /\ bytes_ok (h1 ++ body ++ junk1) /\
    forall i, h1 !! i = h !! i \/ h1 !! i = hdr !! i) as (h1 & junk1 & -> & Hl1 & Hok1 & Hi1).
  { destruct Hm as [[Hb Ho]|Hp].
    - set (n := (length h + length body)%nat).
      destruct (apply_beyond n (h ++ body ++ junk) w) as [Ht Hn].
      { rewrite !length_app. lia. }
      { replace (Z.of_nat n) with (len hdr + len body) by (unfold n, len; lia). done. }
      assert (take n (h ++ body ++ junk) = h ++ body) as Htk.
      { rewrite app_assoc. apply take_app_length'. unfold n. by rewrite length_app. }
      exists h, (drop n (apply_wop (h ++ body ++ junk) w)).
      assert (apply_wop (h ++ body ++ junk) w = h ++ body ++ drop n (apply_wop (h ++ body ++ junk) w)) as Heq.
      { rewrite <- (take_drop n (apply_wop _ w)) at 1. by rewrite Ht, Htk, <- app_assoc. }
      split; [exact Heq|]. split; [done|]. split; [|auto]. rewrite <- Heq. by apply apply_wop_ok.
    - destruct (apply_piece hdr h (body ++ junk) w Hp Hl) as (h1 & Ha & Hl1 & Hi).
      exists h1, junk. split; [done|]. split; [lia|]. split; [|done].
      rewrite bytes_ok_app in *. destruct Hok as [Hh Hr]. split; [|done].
      apply Forall_lookup. intros i x Hx. destruct (Hi i) as [He|He]; rewrite He in Hx;
        [by eapply Forall_lookup_1 in Hh|by eapply Forall_lookup_1 in Hhok]. }
  destruct (IH h1 junk1 Hl1 Hok1 Hhok) as (h2 & junk2 & -> & Hl2 & Hok2 & Hi2).
  exists h2, junk2. split; [done|]. split; [done|]. split; [done|].
  intros i. destruct (Hi2 i) as [->|?]; auto.
Qed.
End mixed.

(** Headers of one dimension agree in their first ten bytes. *)
Lemma MakeHeader_take10 dim ec lsn ec' lsn' :
  take 10 (MakeHeader dim ec lsn) = take 10 (MakeHeader dim ec' lsn').
Proof. reflexivity. Qed.

Lemma mixed_header dim ec lsn ec' lsn' h :
  length h = 32%nat ->
  (forall i, h !! i = MakeHeader dim ec lsn !! i \/ h !! i = MakeHeader dim ec' lsn' !! i) ->
  take 10 h = take 10 (MakeHeader dim ec lsn).
Proof.
  intros Hl Hi. apply list_eq. intros i. destruct (decide (i < 10)%nat) as [Hlt|Hge].
  - rewrite (lookup_take_lt h) by done. destruct (Hi i) as [->| ->]; [by rewrite lookup_take_lt|].
    rewrite (MakeHeader_take10 dim ec lsn ec' lsn'). by rewrite lookup_take_lt.
  - rewrite !lookup_take_ge by lia. done.
Qed.

Lemma sub_take (d : bytes) n off m :
  (Z.to_nat off + Z.to_nat m <= n)%nat -> 0 <= off -> 0 <= m -> off + m <= len d ->
  sub d off m = sub (take n d) off m.
Proof.
  intros H Ho Hm Hl. rewrite <- (take_drop n d) at 1. rewrite sub_app_l; [done|].
  unfold len in *. rewrite length_take. lia.
Qed.

Lemma header_fields dim ec lsn :
  sub (MakeHeader dim ec lsn) 0 4 = Some kMagic /\
  GetU16 (MakeHeader dim ec lsn) 4 = Some kVersion /\
  GetU32 (MakeHeader dim ec lsn) 6 = Some (u32 dim).
Proof.
  unfold MakeHeader, HeaderBody. rewrite <- !app_assoc.
  split; [by rewrite sub_head by slen|]. split; [read_fields; by rewrite (u16_small kVersion)|].
  read_fields. f_equal. apply u32_small. unfold u32. apply Z.mod_pos_bound. lia.
Qed.

(** A header of which only the counters or the checksum are damaged is
    accepted, trusted or not. *)
Lemma CheckHeader_damaged dim ec lsn h :
  length h = 32%nat -> bytes_ok h -> take 10 h = take 10 (MakeHeader dim ec lsn) ->
  exists trusted ec' lsn', CheckHeader h dim = Ret (trusted, ec', lsn') /\
    (trusted = false -> ec' = 0 /\ lsn' = 0) /\ 0 <= ec' < 2 ^ 64 /\ 0 <= lsn' < 2 ^ 64.
Proof.
  intros Hl Hok Ht. destruct (header_fields dim ec lsn) as (F1 & F2 & F3).
  assert (len h = 32) as Hl' by (unfold len; lia).
  pose proof (Wal_len_MakeHeader dim ec lsn) as HM. unfold kHeaderSize in HM.
  assert (forall off m, 0 <= off -> 0 <= m -> off + m <= 10 ->
    sub h off m = sub (MakeHeader dim ec lsn) off m) as Hsub.
  { intros off m H1 H2 H3. rewrite (sub_take h 10), (sub_take (MakeHeader dim ec lsn) 10) by lia.
    by rewrite Ht. }
  unfold GetU16, GetU32 in *. unfold CheckHeader, GetU16, GetU32.
  rewrite !Hsub, F1, F2, F3 by lia. cbn [load run_bind].
  rewrite bool_decide_true, !Z.eqb_refl by done. cbn [negb guard_err run_bind].
  destruct (GetU32_is_Some h 28) as [crc Hcrc]; [lia..|]. unfold GetU32 in Hcrc. rewrite Hcrc.
  destruct (sub_is_Some h 0 28) as [cov ->]; [lia..|]. cbn [load run_bind].
  destruct (negb (crc =? Crc32 cov)); [eexists _, _, _; split; [done|]; done|].
  destruct (GetU64_is_Some h 10) as [x Hx]; [lia..|]. destruct (GetU64_is_Some h 18) as [y Hy]; [lia..|].
  rewrite Hx, Hy. cbn [load run_bind]. eexists _, _, _. split; [done|]. split; [done|].
  split; [by eapply GetU64_range in Hx|by eapply GetU64_range in Hy].
Qed.

(** [Open] on an image with such a header. *)
Lemma Open_image dim ec lsn h rest :
  0 < dim -> length h = 32%nat -> bytes_ok h -> take 10 h = take 10 (MakeHeader dim ec lsn) ->
  exists trusted ec' lsn',
    Open (f_stored (h ++ rest)) dim []
    = (Ret (MkWal (f_stored (h ++ rest)) dim ec' lsn' trusted []), f_stored (h ++ rest)) /\
    CheckHeader h dim = Ret (trusted, ec', lsn').
Proof.
  intros Hd Hl Hok Ht. destruct (CheckHeader_damaged dim ec lsn h Hl Hok Ht) as (tr & ec' & lsn' & Hc & _).
  exists tr, ec', lsn'. split; [|done]. unfold Open. rewrite (proj2 (Z.leb_gt _ _)) by lia.
  lazy beta iota delta [sys negb]. rewrite f_data_stored.
  assert (len (h ++ rest) = 32 + len rest) as Hlen by (autorewrite with len; unfold len; lia).
  pose proof (len_nonneg rest).
  rewrite (proj2 (Z.eqb_neq _ _)), (proj2 (Z.ltb_ge _ _)) by (unfold kHeaderSize; lia).
  replace (sub (h ++ rest) 0 kHeaderSize) with (Some h).
  2:{ symmetry. rewrite sub_app_l by (unfold kHeaderSize, len; lia). apply sub_all.
      unfold kHeaderSize, len. lia. }
  cbn [load run_bind]. rewrite Hc. done.
Qed.

(** A read of the reopened image: the records, then whatever of the tail still
    decodes; without faults it succeeds. *)
Lemma ReadAll_image dim h es junk ec lsn trusted :
  0 < dim -> length h = 32%nat -> bytes_ok (h ++ frames es ++ junk) -> Forall (valid dim) es ->
  exists extra w', ReadAll dim (MkWal (f_stored (h ++ frames es ++ junk)) dim ec lsn trusted [])
                   = (Ret (es ++ extra), w').
Proof.
  intros Hd Hl Hok HF. rewrite !bytes_ok_app in Hok. destruct Hok as (Hh & _ & Hj).
  assert (len h = kHeaderSize) as Hlh by (unfold kHeaderSize, len; lia).
  destruct (scan_frames h es junk dim Hlh Hh HF Hj) as (extra & stop & Hs & Hst & _).
  pose proof (len_nonneg (frames es ++ junk)).
  set (img := h ++ frames es ++ junk) in *. exists extra.
  assert (len img = 32 + len (frames es ++ junk)) as Hli
    by (unfold img; rewrite len_app, Hlh; reflexivity).
  unfold ReadAll, ReadFileLocked. cbn [io_ fd_ set_io dim_]. lazy beta iota delta [sys]. cbn [negb].
  rewrite f_data_stored, PreadAll_nil. lazy beta iota. cbn [dim_ header_trusted_ set_io].
  rewrite (proj2 (Z.ltb_ge _ _)) by (unfold kHeaderSize; lia).
  rewrite (proj2 (Z.ltb_lt 0 dim)) by done. unfold scan in Hs. rewrite Hs.
  destruct ((stop <? len img) || negb trusted); [|by eexists].
  unfold Repair. cbn [io_ set_io]. lazy beta iota delta [sys].
  assert (forall w0 : WalWriter, io_ w0 = [] -> exists w', RewriteHeaderLocked w0 = (Status_Ok, w') /\ io_ w' = []) as Hrw.
  { intros w0 Hi0. unfold RewriteHeaderLocked. rewrite Hi0, PwriteAll_nil; [by eexists|].
    intros Hnil. pose proof (Wal_len_MakeHeader (dim_ w0) (entry_count_ w0) (committed_lsn_ w0)) as Hm.
    rewrite Hnil in Hm. by vm_compute in Hm. }
  destruct (stop <? len img); cbn [negb];
    (match goal with |- context [RewriteHeaderLocked ?w0] =>
       destruct (Hrw w0 eq_refl) as (w1 & -> & Hi1) end);
    change (negb (status_ok Status_Ok)) with false; cbv iota; rewrite Hi1; by eexists.
Qed.

(** An acknowledged batch of index records survives a power loss, with
    its LSNs: after [AppendBatch] returned Ok under any I/O script, every crash
    image of the file opens with the right LSN base and reads back exactly the
    old and the new records. *)
Theorem WalWriter_append_durable
    (w w' : WalWriter) (base : Z) (es recs : list WalEntry) (st : Status) (img : bytes) :
  holds w base es -> synced w -> Forall (valid (dim_ w)) recs -> base + len es + len recs < 2 ^ 64 ->
  AppendBatch (WalEntry.Serialize <$> recs) w = (st, w') -> status_ok st = true ->
  crash (fd_ w') img ->
  exists w2, (Open (f_stored img) (dim_ w) []).1 = Ret w2 /\ base_lsn w2 = base /\
    (ReadAll (dim_ w) w2).1 = Ret (es ++ recs).
Proof.
  intros Hh Hsy HF Hb H Hs Hcr.
  destruct (AppendBatch_spec _ _ _ _ _ _ Hh Hsy HF Hb H) as (Hdim & Hok & _).
  destruct (Hok Hs) as [Hh' Hsy']. apply crash_synced in Hcr; [|done].
  pose proof Hh' as [Hd Hc Hl Ht Hdm Hv Hb0 Hbd].
  assert (img = wal_image (dim_ w) base (es ++ recs)) as ->.
  { rewrite Hcr, <- Hdim, <- Hd. unfold f_data. by rewrite Hsy'. }
  rewrite Hdim in *. unfold wal_image. set (l := es ++ recs) in *. pose proof (len_nonneg l).
  set (h := MakeHeader (dim_ w) (len l) (base + len l)).
  assert (length h = 32%nat) as Hlh by (apply Nat2Z.inj; exact (Wal_len_MakeHeader (dim_ w) (len l) (base + len l))).
  destruct (Open_image (dim_ w) (len l) (base + len l) h (frames l)) as (tr & ec & lsn & HO & HC);
    [done|done|apply Wal_MakeHeader_ok|done|].
  unfold h in HC. rewrite Wal_CheckHeader_MakeHeader in HC by lia. injection HC as <- <- <-.
  rewrite HO. eexists. split; [done|]. split.
  - unfold base_lsn, committed_lsn, entry_count. simpl. replace (base + len l - len l) with base by lia.
    apply u64_small. lia.
  - unfold ReadAll, ReadFileLocked. cbn [io_ fd_ set_io dim_]. lazy beta iota delta [sys negb].
    rewrite f_data_stored, PreadAll_nil. lazy beta iota. cbn [dim_ header_trusted_ set_io].
    assert (len h = kHeaderSize) as Hlk by apply Wal_len_MakeHeader.
    rewrite (proj2 (Z.ltb_ge _ _)) by (autorewrite with len; pose proof (len_nonneg (frames l)); lia).
    rewrite (proj2 (Z.ltb_lt 0 (dim_ w))) by done.
    destruct (scan_frames h l [] (dim_ w) Hlk (Wal_MakeHeader_ok _ _ _) Hv ltac:(constructor))
      as (extra & stop & Hscan & _ & Hnil). destruct (Hnil eq_refl) as [-> ->].
    rewrite app_nil_r in Hscan. unfold scan in Hscan. rewrite Hscan.
    rewrite Z.ltb_irrefl. by rewrite app_nil_r.
Qed.

(** A fresh log of dimension 2, as [Open] leaves it. *)
Definition fresh_wal (s : script) : WalWriter := MkWal (f_stored (MakeHeader 2 0 0)) 2 0 0 true s.

Lemma fresh_wal_holds s : holds (fresh_wal s) 0 [].
Proof. split; simpl; try done; try lia. Qed.

Lemma WalWriter_append_durable_witness :
  let w' := (AppendBatch [WalEntry.Serialize WalEntry.sample] (fresh_wal [IoOk; IoShort 5])).2 in
  exists w2, (Open (f_stored (f_data (fd_ w'))) 2 []).1 = Ret w2 /\ base_lsn w2 = 0 /\
    (ReadAll 2 w2).1 = Ret ([] ++ [WalEntry.sample]).
Proof.
  set (w := fresh_wal [IoOk; IoShort 5]).
  apply (WalWriter_append_durable w (AppendBatch [WalEntry.Serialize WalEntry.sample] w).2 0 []
    [WalEntry.sample] (AppendBatch [WalEntry.Serialize WalEntry.sample] w).1).
  - apply fresh_wal_holds.
  - reflexivity.
  - constructor; [exact WalEntry.WalEntry_sample_valid|constructor].
  - reflexivity.
  - apply surjective_pairing.
  - vm_compute. reflexivity.
  - apply crash_nothing_lost. vm_compute. reflexivity.
Defined.

(** A power loss in the middle of an append never costs a synced record:
    whatever subset of the unsynced record and header writes reached the disk,
    torn or not, the file opens again and [ReadAll] returns all the records
    that were synced before, first and in order. *)
Theorem WalWriter_crash_keeps_synced
    (w w' : WalWriter) (base : Z) (es recs : list WalEntry) (st : Status) (img : bytes) :
  holds w base es -> synced w -> Forall (valid (dim_ w)) recs -> base + len es + len recs < 2 ^ 64 ->
  AppendBatch (WalEntry.Serialize <$> recs) w = (st, w') -> crash (fd_ w') img ->
  exists w2 extra, (Open (f_stored img) (dim_ w) []).1 = Ret w2 /\
    (ReadAll (dim_ w) w2).1 = Ret (es ++ extra).
Proof.
  intros Hh Hsy HF Hb H Hcr.
  destruct (AppendBatch_spec _ _ _ _ _ _ Hh Hsy HF Hb H) as (Hdim & Hok & Hfail).
  pose proof Hh as [Hd _ _ _ Hdm Hv _ _].
  assert (exists h extra_es junk ec lsn, img = h ++ frames (es ++ extra_es) ++ junk /\ length h = 32%nat /\
    bytes_ok img /\ take 10 h = take 10 (MakeHeader (dim_ w) ec lsn) /\ Forall (valid (dim_ w)) extra_es)
    as (h & more & junk & ec & lsn & -> & Hlh & Hbok & Ht10 & Hmore).
  { destruct (status_ok st) eqn:Es.
    - destruct (Hok eq_refl) as [Hh' Hsy']. apply crash_synced in Hcr; [|done].
      exists (MakeHeader (dim_ w) (len (es ++ recs)) (base + len (es ++ recs))), recs, [],
        (len (es ++ recs)), (base + len (es ++ recs)).
      assert (img = wal_image (dim_ w) base (es ++ recs)) as Himg.
      { rewrite Hcr, <- Hdim, <- (holds_data _ _ _ Hh'). unfold f_data. by rewrite Hsy'. }
      rewrite app_nil_r. split; [done|].
      split; [apply Nat2Z.inj; exact (Wal_len_MakeHeader (dim_ w) (len (es ++ recs)) (base + len (es ++ recs)))|].
      split; [|done]. rewrite Himg. unfold wal_image. rewrite bytes_ok_app. split; [apply Wal_MakeHeader_ok|apply Wal_frames_ok].
    - destruct (Hfail eq_refl) as (Hdur & ws1 & ws2 & ec & lsn & Hp & Hby & Hwo & Hpc).
      assert (f_durable (fd_ w) = wal_image (dim_ w) base es) as Hw
        by (rewrite <- Hd; unfold f_data; by rewrite Hsy).
      set (hdr := MakeHeader (dim_ w) ec lsn) in *. set (h0 := MakeHeader (dim_ w) (len es) (base + len es)).
      destruct Hcr as (l & Hsv & ->). rewrite Hp in Hsv. rewrite Hdur, Hw. unfold wal_image. fold h0.
      assert (length hdr = 32%nat) as Hl1 by (apply Nat2Z.inj; exact (Wal_len_MakeHeader (dim_ w) ec lsn)).
      assert (length h0 = 32%nat) as Hl0
        by (apply Nat2Z.inj; exact (Wal_len_MakeHeader (dim_ w) (len es) (base + len es))).
      destruct (apply_mixed hdr (frames es) l) with (h := h0) (junk := @nil Z) as (h' & junk & Ha & Hl' & Hb' & Hi).
      + apply (mixed_survives _ _ _ _ Hsv). apply Forall_app. split.
        * apply Forall_forall. intros x Hx. left. rewrite Forall_forall in Hby, Hwo. split; [|auto].
          assert (len hdr + len (frames es) = len (f_data (fd_ w))) as ->; [|auto].
          rewrite Hd. unfold wal_image. rewrite !len_app. unfold hdr. by rewrite !Wal_len_MakeHeader.
        * eapply Forall_impl; [exact Hpc|]. intros x Hx. by right.
      + lia.
      + rewrite app_nil_r, bytes_ok_app. split; [apply Wal_MakeHeader_ok|apply Wal_frames_ok].
      + apply Wal_MakeHeader_ok.
      + rewrite app_nil_r in Ha. exists h', [], junk, (len es), (base + len es).
        rewrite app_nil_r. rewrite Ha. split; [done|]. split; [lia|]. split; [done|]. split; [|constructor].
        eapply mixed_header; [lia|exact Hi]. }
  destruct (Open_image (dim_ w) ec lsn h (frames (es ++ more) ++ junk)) as (tr & ec' & lsn' & HO & _);
    [done|done| |done|].
  { rewrite bytes_ok_app in Hbok. by destruct Hbok. }
  destruct (ReadAll_image (dim_ w) h (es ++ more) junk ec' lsn' tr) as (extra & w2 & HR);
    [done|done|done|by apply Forall_app|].
  rewrite HO. eexists _, (more ++ extra). split; [done|]. rewrite HR. by rewrite app_assoc.
Qed.

Lemma WalWriter_crash_keeps_synced_witness :
  let w1 := (AppendBatch [WalEntry.Serialize WalEntry.sample] (fresh_wal [])).2 in
  let w2 := MkWal (fd_ w1) 2 1 1 true [IoOk; IoOk; IoShort 12; IoErr] in
  let w3 := (AppendBatch [WalEntry.Serialize WalEntry.sample] w2).2 in
  exists w4 extra, (Open (f_stored (f_data (fd_ w3))) 2 []).1 = Ret w4 /\
    (ReadAll 2 w4).1 = Ret ([WalEntry.sample] ++ extra).
Proof.
  set (w1 := (AppendBatch [WalEntry.Serialize WalEntry.sample] (fresh_wal [])).2).
  set (w2 := MkWal (fd_ w1) 2 1 1 true [IoOk; IoOk; IoShort 12; IoErr]).
  apply (WalWriter_crash_keeps_synced w2 (AppendBatch [WalEntry.Serialize WalEntry.sample] w2).2 0
    [WalEntry.sample] [WalEntry.sample] (AppendBatch [WalEntry.Serialize WalEntry.sample] w2).1).
  - split; try (vm_compute; reflexivity); try done.
    constructor; [exact WalEntry.WalEntry_sample_valid|constructor].
  - vm_compute. reflexivity.
  - constructor; [exact WalEntry.WalEntry_sample_valid|constructor].
  - reflexivity.
  - apply surjective_pairing.
  - exists (f_pending (fd_ (AppendBatch [WalEntry.Serialize WalEntry.sample] w2).2)).
    split; [|reflexivity]. induction (f_pending _); constructor; done.
Defined.

(** ** Truncation and LSNs *)

Lemma Truncate_spec w base es st w' :
  holds w base es -> Truncate w = (st, w') ->
  committed_lsn_ w' = committed_lsn_ w /\
  (status_ok st = true -> holds w' (base + len es) [] /\ synced w').
Proof.
  intros [Hd Hc Hl Ht Hdm Hv Hb0 Hbd] H. unfold Truncate in H.
  destruct (sys (io_ w)) as [[] s]; [|injection H as <- <-; done].
  lazy beta iota delta [negb] in H. set (w1 := MkWal _ _ _ _ _ _) in H.
  assert (f_data (fd_ w1) = MakeHeader (dim_ w) (len es) (base + len es) ++ []) as Hw1.
  { unfold w1. cbn [fd_]. rewrite f_data_do, Hd. unfold wal_image.
    rewrite app_nil_r. cbn [apply_wop].
    rewrite <- (Wal_len_MakeHeader (dim_ w) (len es) (base + len es)). apply truncate_to_prefix. }
  destruct (RewriteHeaderLocked w1) as [st1 w2] eqn:E.
  destruct (RewriteHeaderLocked_spec w1 st1 w2 _ _ Hw1 (Wal_len_MakeHeader _ _ _) E) as ((A1 & A2 & A3) & _ & _ & A4).
  destruct (status_ok st1) eqn:Es1; [|injection H as <- <-; split; [exact A3|congruence]].
  apply SyncLocked_spec in H as ((B1 & B2 & B3 & B4) & B5). destruct (A4 eq_refl) as [C1 C2].
  rewrite B3, A3. split; [done|]. intros Hs. rewrite Hs in B5.
  split; [|unfold synced; by rewrite B5]. pose proof (len_nonneg es).
  unfold w1 in *. cbn [dim_ entry_count_ committed_lsn_] in *.
  split; rewrite ?B1, ?B2, ?B3, ?B4, ?A1, ?A2, ?A3; try done.
  - rewrite B5, f_data_sync, C2. unfold wal_image. rewrite Hl. change (len []) with 0. by rewrite Z.add_0_r.
  - rewrite Hl. change (len []) with 0. lia.
  - lia.
  - change (len []) with 0. lia.
Qed.

Lemma Truncate_dim w st w' : Truncate w = (st, w') -> dim_ w' = dim_ w.
Proof.
  unfold Truncate, RewriteHeaderLocked, SyncLocked. intros H.
  repeat (case_match; simplify_eq/=; try done).
Qed.

(** LSNs never restart: [Truncate], whatever its outcome, keeps
    [committed_lsn]; when it succeeds the file is empty with the old LSN as its
    base, so the next batch continues the sequence without a gap. *)
Theorem WalWriter_truncate_keeps_lsn
    (w w1 w2 : WalWriter) (base : Z) (es recs : list WalEntry) (st1 st2 : Status) :
  holds w base es -> Forall (valid (dim_ w1)) recs -> base + len es + len recs < 2 ^ 64 ->
  Truncate w = (st1, w1) -> status_ok st1 = true ->
  AppendBatch (WalEntry.Serialize <$> recs) w1 = (st2, w2) -> status_ok st2 = true ->
  committed_lsn w1 = committed_lsn w /\ entry_count w1 = 0 /\
  holds w2 (committed_lsn w) recs /\ committed_lsn w2 = committed_lsn w + len recs.
Proof.
  intros Hh HF Hb H1 Hs1 H2 Hs2. pose proof (holds_lsn _ _ _ Hh) as Hl.
  destruct (Truncate_spec _ _ _ _ _ Hh H1) as [Hk Hok]. destruct (Hok Hs1) as [Hh1 Hsy1].
  destruct (AppendBatch_spec _ _ _ _ _ _ Hh1 Hsy1 HF ltac:(change (len []) with 0; lia) H2) as (_ & Hok2 & _).
  destruct (Hok2 Hs2) as [Hh2 _]. unfold committed_lsn, entry_count. rewrite Hl in *.
  split; [done|]. split; [apply (holds_count _ _ _ Hh1)|]. split; [done|]. apply (holds_lsn _ _ _ Hh2).
Qed.

Lemma WalWriter_truncate_keeps_lsn_witness :
  let w1 := (AppendBatch [WalEntry.Serialize WalEntry.sample] (fresh_wal [])).2 in
  let w2 := (Truncate w1).2 in
  committed_lsn (AppendBatch [WalEntry.Serialize WalEntry.sample] w2).2 = 2.
Proof.
  set (w1 := (AppendBatch [WalEntry.Serialize WalEntry.sample] (fresh_wal [])).2). set (w2 := (Truncate w1).2).
  assert (holds w1 0 [WalEntry.sample]) as Hh.
  { apply (AppendBatch_spec (fresh_wal []) 0 [] [WalEntry.sample]
      (AppendBatch [WalEntry.Serialize WalEntry.sample] (fresh_wal [])).1);
      [apply fresh_wal_holds|done|constructor; [exact WalEntry.WalEntry_sample_valid|constructor]|done
      |apply surjective_pairing|vm_compute; done]. }
  apply (WalWriter_truncate_keeps_lsn w1 w2 (AppendBatch [WalEntry.Serialize WalEntry.sample] w2).2 0
    [WalEntry.sample] [WalEntry.sample] (Truncate w1).1 (AppendBatch [WalEntry.Serialize WalEntry.sample] w2).1 Hh).
  - constructor; [exact WalEntry.WalEntry_sample_valid|constructor].
  - reflexivity.
  - apply surjective_pairing.
  - vm_compute. reflexivity.
  - apply surjective_pairing.
  - vm_compute. reflexivity.
Defined.
