(* ===== verification/Hnsw.v ===== *)
(** * The element table of the graph index (src/store/phnsw/hnswlib/hnswalg.h)

    The part of hnswlib that decides which labels are in the index: the element
    slots with their label, vector and delete mark, [label_lookup_],
    [num_deleted_] and [deleted_elements].  The neighbour lists, the levels and
    the search are not modelled: no operation below depends on them.  [None]
    is a thrown [std::runtime_error]; a vector is a list of 32-bit patterns. *)
From S2P Require Import Prelude.

Module HierarchicalNSW.

Record element := MkElement { el_label : Z; el_data : list Z; el_deleted : bool }.

Record HierarchicalNSW := MkHnsw {
  max_elements_ : nat;
  allow_replace_deleted_ : bool;
  elements : list element;             (* slot i is internal id i *)
  label_lookup_ : gmap Z nat;
  num_deleted_ : Z;
  deleted_elements : gset nat
}.

(** An empty graph, as the constructor makes it. *)
Definition New (max_elements : nat) (allow_replace_deleted : bool) : HierarchicalNSW :=
  MkHnsw max_elements allow_replace_deleted [] ∅ 0 ∅.

Definition cur_element_count (g : HierarchicalNSW) : nat := length (elements g).
Definition getCurrentElementCount (g : HierarchicalNSW) : nat := cur_element_count g.
Definition getDeletedCount (g : HierarchicalNSW) : Z := num_deleted_ g.

(** [None]: the slot does not exist. *)
Definition isMarkedDeleted (internalId : nat) (g : HierarchicalNSW) : option bool :=
  el_deleted <$> elements g !! internalId.

Definition set_deleted (b : bool) (e : element) : element := MkElement (el_label e) (el_data e) b.
Definition set_data (d : list Z) (e : element) : element := MkElement (el_label e) d (el_deleted e).

Definition markDeletedInternal (internalId : nat) (g : HierarchicalNSW) : option HierarchicalNSW :=
  match isMarkedDeleted internalId g with
  | Some false =>
      Some (MkHnsw (max_elements_ g) (allow_replace_deleted_ g)
              (alter (set_deleted true) internalId (elements g)) (label_lookup_ g)
              (num_deleted_ g + 1)
              (if allow_replace_deleted_ g then {[internalId]} ∪ deleted_elements g
               else deleted_elements g))
  | _ => None (* "The requested to delete element is already deleted" *)
  end.

Definition unmarkDeletedInternal (internalId : nat) (g : HierarchicalNSW) : option HierarchicalNSW :=
  match isMarkedDeleted internalId g with
  | Some true =>
      Some (MkHnsw (max_elements_ g) (allow_replace_deleted_ g)
              (alter (set_deleted false) internalId (elements g)) (label_lookup_ g)
              (num_deleted_ g - 1)
              (if allow_replace_deleted_ g then deleted_elements g ∖ {[internalId]}
               else deleted_elements g))
  | _ => None (* "The requested to undelete element is not deleted" *)
  end.

Definition markDelete (label : Z) (g : HierarchicalNSW) : option HierarchicalNSW :=
  match label_lookup_ g !! label with
  | None => None (* "Label not found" *)
  | Some internalId => markDeletedInternal internalId g
  end.

Definition unmarkDelete (label : Z) (g : HierarchicalNSW) : option HierarchicalNSW :=
  match label_lookup_ g !! label with
  | None => None
  | Some internalId => unmarkDeletedInternal internalId g
  end.

(** The effect of [updatePoint] on the element table. *)
Definition updatePoint (data : list Z) (internalId : nat) (g : HierarchicalNSW) : HierarchicalNSW :=
  MkHnsw (max_elements_ g) (allow_replace_deleted_ g)
    (alter (set_data data) internalId (elements g)) (label_lookup_ g) (num_deleted_ g)
    (deleted_elements g).

(** [addPoint(data_point, label, level)], which [addPoint(data_point, label)]
    with [replace_deleted = false] calls. *)
Definition addPoint (data : list Z) (label : Z) (g : HierarchicalNSW) : option HierarchicalNSW :=
  match label_lookup_ g !! label with
  | Some existing =>
      match isMarkedDeleted existing g with
      | Some true =>
          if allow_replace_deleted_ g then None
          else updatePoint data existing <$> unmarkDeletedInternal existing g
      | _ => Some (updatePoint data existing g)
      end
  | None =>
      if (max_elements_ g <=? cur_element_count g)%nat then None else
      let cur_c := cur_element_count g in
      Some (MkHnsw (max_elements_ g) (allow_replace_deleted_ g)
              (elements g ++ [MkElement label data false]) (<[label := cur_c]> (label_lookup_ g))
              (num_deleted_ g) (deleted_elements g))
  end.

(** ** Well-formed tables *)

Definition deleted_slots (g : HierarchicalNSW) : list element :=
  filter (fun e => el_deleted e = true) (elements g).

Record wf (g : HierarchicalNSW) : Prop := {
  wf_lookup l i : label_lookup_ g !! l = Some i <-> exists e, elements g !! i = Some e /\ el_label e = l;
  wf_deleted : num_deleted_ g = len (deleted_slots g);
  wf_capacity : (cur_element_count g <= max_elements_ g)%nat;
  wf_vacant i : allow_replace_deleted_ g = true ->
    i ∈ deleted_elements g <-> exists e, elements g !! i = Some e /\ el_deleted e = true
}.

(** What a client sees: the vector of each live label. *)
Definition point (g : HierarchicalNSW) (l : Z) : option (list Z) :=
  i ← label_lookup_ g !! l; e ← elements g !! i; if el_deleted e then None else Some (el_data e).
Definition known (g : HierarchicalNSW) (l : Z) : bool := bool_decide (is_Some (label_lookup_ g !! l)).

Lemma HNSW_New_wf n b : wf (New n b).
Proof.
  split; unfold cur_element_count; simpl; [| |lia|].
  - intros l i. rewrite lookup_empty, lookup_nil. naive_solver.
  - done.
  - intros i _. rewrite lookup_nil. set_solver.
Qed.

Lemma len_filter_alter (P : element -> Prop) `{!forall e, Decision (P e)} (f : element -> element) l i e :
  l !! i = Some e ->
  len (filter P (alter f i l)) =
  len (filter P l) - (if decide (P e) then 1 else 0) + (if decide (P (f e)) then 1 else 0).
Proof.
  revert i. induction l as [|x l IH]; intros [|i] Hi; [done..| |]; simpl in Hi.
  - injection Hi as ->. simpl. rewrite !filter_cons. repeat case_decide; autorewrite with len; lia.
  - change (alter f (S i) (x :: l)) with (x :: alter f i l).
    rewrite !filter_cons. destruct (decide (P x)); rewrite ?len_cons, (IH i Hi); lia.
Qed.

(** A change of one slot that keeps its label. *)
Lemma wf_alter g f i e nd de :
  wf g -> elements g !! i = Some e -> el_label (f e) = el_label e ->
  nd = num_deleted_ g - (if el_deleted e then 1 else 0) + (if el_deleted (f e) then 1 else 0) ->
  (allow_replace_deleted_ g = true ->
   forall j, j ∈ de <-> if decide (j = i) then el_deleted (f e) = true else j ∈ deleted_elements g) ->
  wf (MkHnsw (max_elements_ g) (allow_replace_deleted_ g) (alter f i (elements g)) (label_lookup_ g) nd de).
Proof.
  intros [H1 H2 H3 H4] He Hl -> Hde. split; simpl.
  - intros l j. rewrite H1. destruct (decide (j = i)) as [->|Hne].
    + rewrite list_lookup_alter_eq, He. simpl. naive_solver.
    + rewrite list_lookup_alter_ne by done. done.
  - unfold deleted_slots. simpl. rewrite (len_filter_alter _ _ _ _ e) by done. rewrite H2.
    unfold deleted_slots. destruct (el_deleted e), (el_deleted (f e)); simpl; repeat case_decide; try done; lia.
  - unfold cur_element_count in *. simpl. by rewrite length_alter.
  - intros j Ha. rewrite Hde by done. destruct (decide (j = i)) as [->|Hne].
    + rewrite list_lookup_alter_eq, He. simpl. naive_solver.
    + rewrite list_lookup_alter_ne by done. by apply H4.
Qed.

Lemma slot_of g l i : wf g -> label_lookup_ g !! l = Some i -> exists e, elements g !! i = Some e /\ el_label e = l.
Proof. intros Hw. by apply wf_lookup. Qed.

(** Slots of different labels are different. *)
Lemma lookup_inj g l l' i : wf g -> label_lookup_ g !! l = Some i -> label_lookup_ g !! l' = Some i -> l = l'.
Proof.
  intros Hw (e & H1 & <-)%(slot_of g l i Hw) (e' & H2 & <-)%(slot_of g l' i Hw). congruence.
Qed.

Lemma point_alter g f i l nd de l' :
  wf g -> label_lookup_ g !! l = Some i ->
  point (MkHnsw (max_elements_ g) (allow_replace_deleted_ g) (alter f i (elements g)) (label_lookup_ g) nd de) l'
  = if decide (l' = l)
    then e ← elements g !! i; if el_deleted (f e) then None else Some (el_data (f e))
    else point g l'.
Proof.
  intros Hw Hl. unfold point. simpl. case_decide as Heq; [subst|].
  - rewrite Hl. simpl. rewrite list_lookup_alter_eq. by destruct (elements g !! i).
  - destruct (label_lookup_ g !! l') as [j|] eqn:Ej; [|done]. simpl.
    rewrite list_lookup_alter_ne; [done|]. intros <-. apply Heq. by eapply lookup_inj.
Qed.

(** ** The operations on what a client sees *)

(** The labels and the limits, which deleting and undeleting keep. *)
Definition same_shape (g g' : HierarchicalNSW) : Prop :=
  label_lookup_ g' = label_lookup_ g /\ max_elements_ g' = max_elements_ g /\
  allow_replace_deleted_ g' = allow_replace_deleted_ g /\ cur_element_count g' = cur_element_count g.

Lemma markDelete_spec l g :
  wf g ->
  match markDelete l g with
  | Some g' => wf g' /\ same_shape g g' /\ is_Some (point g l) /\ num_deleted_ g' = num_deleted_ g + 1 /\
      forall l', point g' l' = if decide (l' = l) then None else point g l'
  | None => point g l = None
  end.
Proof.
  intros Hw. unfold markDelete. destruct (label_lookup_ g !! l) as [i|] eqn:El;
    [|unfold point; by rewrite El].
  destruct (slot_of _ _ _ Hw El) as (e & He & Hlab).
  unfold markDeletedInternal, isMarkedDeleted. rewrite He. simpl.
  destruct (el_deleted e) eqn:Ed; [unfold point; by rewrite El; simpl; rewrite He; simpl; rewrite Ed|].
  split; [|split; [|split; [|split; [done|]]]].
  - apply (wf_alter g _ _ e); simpl; try done; [rewrite Ed; lia|].
    intros -> j. case_decide; [subst; set_solver|set_solver].
  - unfold same_shape, cur_element_count. simpl. by rewrite length_alter.
  - exists (el_data e). unfold point. rewrite El. simpl. rewrite He. simpl. by rewrite Ed.
  - intros l'. rewrite (point_alter g _ i l) by done. case_decide; [|done]. by rewrite He.
Qed.

Lemma unmarkDelete_spec l g i :
  wf g -> label_lookup_ g !! l = Some i -> isMarkedDeleted i g = Some true ->
  exists g', unmarkDelete l g = Some g' /\ wf g' /\ same_shape g g' /\ num_deleted_ g' = num_deleted_ g - 1 /\
    is_Some (point g' l) /\ isMarkedDeleted i g' = Some false /\
    forall l', l' <> l -> point g' l' = point g l'.
Proof.
  intros Hw El Hd. unfold unmarkDelete. rewrite El.
  destruct (slot_of _ _ _ Hw El) as (e & He & Hlab).
  unfold unmarkDeletedInternal. rewrite Hd. unfold isMarkedDeleted in Hd. rewrite He in Hd.
  simpl in Hd. injection Hd as Hd. eexists. split; [done|].
  split; [|split; [|split; [done|split; [|split]]]].
  - apply (wf_alter g _ _ e); simpl; try done; [rewrite Hd; lia|].
    intros -> j. case_decide; set_solver.
  - unfold same_shape, cur_element_count. simpl. by rewrite length_alter.
  - rewrite (point_alter g _ i l), decide_True by done. rewrite He. simpl. by eexists.
  - unfold isMarkedDeleted. simpl. by rewrite list_lookup_alter_eq, He.
  - intros l' Hne. by rewrite (point_alter g _ i l), decide_False by done.
Qed.

Lemma addPoint_known data l g i :
  wf g -> label_lookup_ g !! l = Some i -> isMarkedDeleted i g = Some false ->
  exists g', addPoint data l g = Some g' /\ wf g' /\ same_shape g g' /\ num_deleted_ g' = num_deleted_ g /\
    forall l', point g' l' = if decide (l' = l) then Some data else point g l'.
Proof.
  intros Hw El Hd. unfold addPoint. rewrite El, Hd. destruct (slot_of _ _ _ Hw El) as (e & He & Hlab).
  unfold isMarkedDeleted in Hd. rewrite He in Hd. simpl in Hd. injection Hd as Hd.
  eexists. split; [done|]. unfold updatePoint.
  split; [|split; [|split; [done|]]].
  - apply (wf_alter g _ _ e); simpl; try done; [destruct (el_deleted e); lia|].
    intros Ha j. case_decide; [|done]. subst. rewrite (wf_vacant _ Hw) by done. naive_solver.
  - unfold same_shape, cur_element_count. simpl. by rewrite length_alter.
  - intros l'. rewrite (point_alter g _ i l) by done. case_decide; [|done]. rewrite He. simpl. by rewrite Hd.
Qed.

Lemma addPoint_new data l g :
  wf g -> label_lookup_ g !! l = None -> (cur_element_count g < max_elements_ g)%nat ->
  exists g', addPoint data l g = Some g' /\ wf g' /\ num_deleted_ g' = num_deleted_ g /\
    max_elements_ g' = max_elements_ g /\ allow_replace_deleted_ g' = allow_replace_deleted_ g /\
    cur_element_count g' = S (cur_element_count g) /\
    (forall l', label_lookup_ g' !! l' = if decide (l' = l) then Some (cur_element_count g) else label_lookup_ g !! l') /\
    forall l', point g' l' = if decide (l' = l) then Some data else point g l'.
Proof.
  intros Hw El Hc. unfold addPoint. rewrite El. rewrite (proj2 (Nat.leb_gt _ _)) by done.
  eexists. split; [done|]. set (n := cur_element_count g) in *.
  assert (elements g !! n = None) as Hn by (apply lookup_ge_None; unfold n, cur_element_count; lia).
  assert (forall j, (elements g ++ [MkElement l data false]) !! j =
    if decide (j = n) then Some (MkElement l data false) else elements g !! j) as Hlk.
  { intros j. case_decide as Hj; [subst; by rewrite lookup_app_r, Nat.sub_diag by done|].
    destruct (decide (j < n)%nat); [by rewrite lookup_app_l|].
    rewrite lookup_ge_None_2 by (rewrite length_app; simpl; fold (cur_element_count g); fold n; lia).
    symmetry. apply lookup_ge_None_2. fold (cur_element_count g). fold n. lia. }
  destruct Hw as [H1 H2 H3 H4].
  split; [|split; [done|split; [done|split; [done|split; [|split]]]]].
  - split; simpl.
    + intros l0 j. rewrite Hlk. rewrite lookup_insert_Some. case_decide as Hj.
      * subst. split; [intros [[<- _]|[_ H]]; [by eexists|]|intros (e & [= <-] & <-); auto].
        apply H1 in H as (e & H & _). congruence.
      * rewrite <- H1. split; [intros [[_ ?]|[_ ?]]; [done|done]|].
        intros H. right. split; [|done]. intros <-. congruence.
    + rewrite H2. unfold deleted_slots. simpl. rewrite filter_app, filter_cons_False by done.
      rewrite app_nil_r. done.
    + unfold cur_element_count. simpl. rewrite length_app. simpl. fold (cur_element_count g). fold n. lia.
    + intros j Ha. rewrite Hlk, H4 by done. case_decide; [|done]. subst. rewrite Hn. naive_solver.
  - unfold cur_element_count at 1. simpl. rewrite length_app. simpl. fold (cur_element_count g). fold n. lia.
  - intros l'. simpl. case_decide; [subst; apply lookup_insert_eq|by apply lookup_insert_ne].
  - intros l'. unfold point. simpl. case_decide as Hl'.
    + subst. rewrite lookup_insert_eq. simpl. rewrite Hlk, decide_True by done. done.
    + rewrite lookup_insert_ne by done. destruct (label_lookup_ g !! l') as [j|] eqn:Ej; [|done]. simpl.
      rewrite Hlk, decide_False; [done|]. intros ->. apply H1 in Ej as (e & He & _). congruence.
Qed.

Lemma addPoint_full data l g :
  label_lookup_ g !! l = None -> (max_elements_ g <= cur_element_count g)%nat -> addPoint data l g = None.
Proof. intros El Hc. unfold addPoint. rewrite El. by rewrite (proj2 (Nat.leb_le _ _)). Qed.

Lemma point_None_unknown g l : label_lookup_ g !! l = None -> point g l = None.
Proof. intros El. unfold point. by rewrite El. Qed.

Lemma labels_NoDup g : wf g -> NoDup (el_label <$> elements g).
Proof.
  intros [H1 _ _ _]. apply NoDup_alt. intros i j l Hi Hj. rewrite list_lookup_fmap in Hi, Hj.
  destruct (elements g !! i) as [e|] eqn:Ei; [|done]. destruct (elements g !! j) as [e'|] eqn:Ej; [|done].
  simpl in *. assert (label_lookup_ g !! l = Some i) by (apply H1; naive_solver).
  assert (label_lookup_ g !! l = Some j) by (apply H1; naive_solver). congruence.
Qed.

Lemma cur_element_count_lookup g : wf g -> size (label_lookup_ g) = cur_element_count g.
Proof.
  intros Hw. pose proof (labels_NoDup g Hw) as Hnd. destruct Hw as [H1 _ _ _].
  unfold cur_element_count. rewrite <- size_dom.
  rewrite <- (length_fmap el_label (elements g)), <- (size_list_to_set (C := gset Z)) by done.
  f_equal. apply set_eq. intros l. rewrite elem_of_dom, elem_of_list_to_set, list_elem_of_fmap. split.
  - intros [i (e & Hi & <-)%H1]. exists e. split; [done|]. by eapply list_elem_of_lookup_2.
  - intros (e & -> & [i Hi]%list_elem_of_lookup). exists i. apply H1. eauto.
Qed.

End HierarchicalNSW.
