(* ===== verification/Snapshot.v ===== *)
(** * Snapshots of the graph index (src/store/phnsw/snapshot_manager.cpp)

    A snapshot is an .index file, which hnswlib writes, and a 24-byte .meta
    footer that commits it.  The directory is the list of its snapshots as
    [ListSnapshotsNewestFirst] would sort them; the timestamp is in the file
    name.  hnswlib's file format is the class [IndexFormat]. *)
From S2P Require Import Prelude Status LittleEndian Crc32 Posix Hnsw.
Open Scope run_scope.

Import HierarchicalNSW(HierarchicalNSW).

(** What [loadIndex] rebuilds from the stored elements: the label table, the
    delete count and the vacant slots; the capacity is the larger request. *)
Definition reloaded (max_elements : nat) (g : HierarchicalNSW) : HierarchicalNSW :=
  HierarchicalNSW.MkHnsw
    (if (max_elements <? HierarchicalNSW.cur_element_count g)%nat
     then HierarchicalNSW.max_elements_ g else max_elements)
    true (HierarchicalNSW.elements g)
    (list_to_map (imap (fun i e => (HierarchicalNSW.el_label e, i)) (HierarchicalNSW.elements g)))
    (len (HierarchicalNSW.deleted_slots g))
    (list_to_set (omap (fun p : nat * HierarchicalNSW.element =>
        if HierarchicalNSW.el_deleted p.2 then Some p.1 else None)
        (imap pair (HierarchicalNSW.elements g)))).

(** [saveIndex] and [loadIndex]: the bytes of a complete file load again. *)
Class IndexFormat := {
  saveIndex : HierarchicalNSW -> bytes;
  loadIndex : nat -> bytes -> option HierarchicalNSW;
  loadIndex_saveIndex n g :
    HierarchicalNSW.wf g -> loadIndex n (saveIndex g) = Some (reloaded n g)
}.

Module SnapshotManager.

Record SnapshotFile := MkSnap { timestamp : Z; index_file : option bytes; meta_file : option bytes }.

Definition kFooterSize : Z := 24.

Record SnapshotManager := MkMgr { keep_count_ : Z; dir : list SnapshotFile }.

(** The constructor's clamp. *)
Definition New (keep_count : Z) (files : list SnapshotFile) : SnapshotManager :=
  MkMgr (if keep_count <? 1 then 1 else keep_count) files.

Definition has_index (f : SnapshotFile) : Prop := is_Some (index_file f).
#[export] Instance has_index_dec f : Decision (has_index f).
Proof. unfold has_index. apply _. Defined.

Definition ListSnapshotsNewestFirst (files : list SnapshotFile) : list SnapshotFile :=
  filter has_index files.

(** Set the two files of one timestamp. *)
Fixpoint put (ts : Z) (f : SnapshotFile -> SnapshotFile) (files : list SnapshotFile) : list SnapshotFile :=
  match files with
  | [] => [f (MkSnap ts None None)]
  | x :: rest =>
      if timestamp x <? ts then f (MkSnap ts None None) :: files
      else if timestamp x =? ts then f x :: rest
      else x :: put ts f rest
  end.

Definition set_index (o : option bytes) (f : SnapshotFile) : SnapshotFile :=
  MkSnap (timestamp f) o (meta_file f).
Definition set_meta (o : option bytes) (f : SnapshotFile) : SnapshotFile :=
  MkSnap (timestamp f) (index_file f) o.

Definition Footer (lsn entry_count dim M crc : Z) : bytes :=
  PutU64 lsn ++ PutU32 (u32 entry_count) ++ PutU32 (u32 dim) ++ PutU32 (u32 M) ++ PutU32 crc.

Definition snapshot_failed (d : string) : Status :=
  PhnswStatus kUnavailable phnsw_errors.kSnapshotFailed d.

(** [WriteFileAtomic]: the content of the final file when it succeeds. *)
Definition WriteFileAtomic (s : script) (data : bytes) : Run bytes * script :=
  let '(ok, s) := sys s in
  if negb ok then (Fail (snapshot_failed " open tmp: "), s) else
  let '(ok, f, s) := PwriteAll s (f_stored []) 0 data in
  if negb ok then (Fail (snapshot_failed " write tmp: "), s) else
  let '(ok, s) := sys s in
  if negb ok then (Fail (snapshot_failed " fsync tmp: "), s) else
  let '(ok, s) := sys s in
  if negb ok then (Fail (snapshot_failed " rename: "), s)
  else (Ret (f_data f), s).

(** The files [CleanOldSnapshots] keeps. *)
Definition CleanOldSnapshots (m : SnapshotManager) : SnapshotManager :=
  let snaps := ListSnapshotsNewestFirst (dir m) in
  let doomed := timestamp <$> drop (Z.to_nat (keep_count_ m)) snaps in
  MkMgr (keep_count_ m) (filter (fun f => timestamp f ∉ doomed) (dir m)).

Section format.
Context `{IndexFormat}.

(** [saveIndex] writes through an unchecked stream: a full disk leaves a
    prefix, an unopenable file nothing. *)
Definition SaveIndexFile (s : script) (g : HierarchicalNSW) : option bytes * script :=
  match s with
  | [] => (Some (saveIndex g), [])
  | IoOk :: s' => (Some (saveIndex g), s')
  | IoShort n :: s' => (Some (take (Z.to_nat n) (saveIndex g)), s')
  | (IoEintr | IoErr) :: s' => (None, s')
  end.

(** [Save] at the clock reading [ts]; the result of the fsync of the .index is
    not looked at. *)
Definition Save (ts : Z) (g : HierarchicalNSW) (lsn dim M : Z) (s : script) (m : SnapshotManager)
    : Status * SnapshotManager * script :=
  let '(written, s) := SaveIndexFile s g in
  let '(ok, s) := sys s in
  match (if ok then written else None) with
  | None =>
      (snapshot_failed "SnapshotManager::Save: cannot read temp index for CRC", m, s)
  | Some index_bytes =>
      let crc := Crc32 index_bytes in
      let entry_count := Z.of_nat (HierarchicalNSW.cur_element_count g) in
      let '(ok, s) := sys s in
      if negb ok then (snapshot_failed "SnapshotManager::Save rename index: ", m, s) else
      let m1 := MkMgr (keep_count_ m) (put ts (set_index (Some index_bytes)) (dir m)) in
      let '(r, s) := WriteFileAtomic s (Footer lsn entry_count dim M crc) in
      match r with
      | Ret footer =>
          (Status_Ok, CleanOldSnapshots (MkMgr (keep_count_ m1) (put ts (set_meta (Some footer)) (dir m1))), s)
      | Fail st => (st, MkMgr (keep_count_ m1) (put ts (set_index None) (dir m1)), s)
      | Undef => (snapshot_failed "", m1, s)
      end
  end.

(** The loop of [Load]; the flag is [any_seen]. *)
Fixpoint LoadFirst (max_elements : nat) (snaps : list SnapshotFile) (any_seen : bool)
    : Run (option HierarchicalNSW * Z) :=
  match snaps with
  | [] =>
      if any_seen
      then Fail (PhnswStatus kInternal phnsw_errors.kSnapshotCorrupted
                   "SnapshotManager::Load: all snapshots corrupt")
      else Ret (None, 0)
  | sf :: rest =>
      match meta_file sf with
      | Some meta =>
          if negb (len meta =? kFooterSize) then LoadFirst max_elements rest any_seen else
          let! snap_lsn := load (GetU64 meta 0) in
          let! footer_crc := load (GetU32 meta 20) in
          match index_file sf with
          | Some index_bytes =>
              if negb (Crc32 index_bytes =? footer_crc) then LoadFirst max_elements rest true else
              match loadIndex max_elements index_bytes with
              | Some g => Ret (Some g, snap_lsn)
              | None => LoadFirst max_elements rest true
              end
          | None => LoadFirst max_elements rest true
          end
      | None => LoadFirst max_elements rest any_seen
      end
  end.

Definition Load (max_elements : nat) (m : SnapshotManager) : Run (option HierarchicalNSW * Z) :=
  LoadFirst max_elements (ListSnapshotsNewestFirst (dir m)) false.

Record SnapshotMeta := MkMeta { sm_lsn : Z; sm_entry_count : Z; sm_dim : Z; sm_M : Z }.

(** The first complete .meta, newest first. *)
Definition newest_meta (m : SnapshotManager) : option bytes :=
  head (omap (fun f => match meta_file f with
                       | Some b => if len b =? kFooterSize then Some b else None
                       | None => None end) (ListSnapshotsNewestFirst (dir m))).

Definition PeekLatestMeta (m : SnapshotManager) : Run (option SnapshotMeta) :=
  match newest_meta m with
  | None => Ret None
  | Some meta =>
      let! lsn := load (GetU64 meta 0) in
      let! ec := load (GetU32 meta 8) in
      let! d := load (GetU32 meta 12) in
      let! mm := load (GetU32 meta 16) in
      Ret (Some (MkMeta lsn ec (i32 d) (i32 mm)))
  end.

Definition LatestSnapshotLsn (m : SnapshotManager) : Run Z :=
  match newest_meta m with
  | None => Ret 0
  | Some meta => load (GetU64 meta 0)
  end.
End format.

(** ** The footer *)

Lemma len_Footer lsn ec d m crc : len (Footer lsn ec d m crc) = kFooterSize.
Proof. unfold Footer, kFooterSize. slen. Qed.

Lemma Footer_fields lsn ec d m crc :
  0 <= lsn < 2 ^ 64 -> 0 <= crc < 2 ^ 32 ->
  GetU64 (Footer lsn ec d m crc) 0 = Some lsn /\
  GetU32 (Footer lsn ec d m crc) 8 = Some (u32 ec) /\
  GetU32 (Footer lsn ec d m crc) 12 = Some (u32 d) /\
  GetU32 (Footer lsn ec d m crc) 16 = Some (u32 m) /\
  GetU32 (Footer lsn ec d m crc) 20 = Some crc.
Proof.
  intros Hl Hc. unfold Footer. rewrite <- (app_nil_r (PutU32 crc)).
  assert (forall x, u32 (u32 x) = u32 x) as Hu.
  { intros x. apply u32_small. unfold u32. apply Z.mod_pos_bound. lia. }
  repeat split; read_fields; rewrite ?Hu, ?u64_small, ?(u32_small crc) by lia; done.
Qed.

Lemma WriteFileAtomic_spec s data r s' :
  WriteFileAtomic s data = (r, s') -> match r with Ret b => b = data | Fail st => status_ok st = false | Undef => False end.
Proof.
  unfold WriteFileAtomic. intros H. destruct (sys s) as [[] s0]; [|by injection H as <- <-].
  lazy beta iota delta [negb] in H.
  destruct (PwriteAll s0 (f_stored []) 0 data) as [[ok f] s1] eqn:E.
  change 0 with (len (f_data (f_stored []))) in E. apply PwriteAll_append in E as (_ & k & Hk & Hok).
  destruct ok; [|by injection H as <- <-]. lazy beta iota in H.
  destruct (sys s1) as [[] s2]; [|by injection H as <- <-]. lazy beta iota in H.
  destruct (sys s2) as [[] s3]; injection H as <- <-; [|done]. rewrite Hk, (Hok eq_refl). done.
Qed.

(** ** Saving is atomic *)

(** Timestamps are taken from the clock: a new one is above the old ones. *)
Definition fresh_ts (ts : Z) (m : SnapshotManager) : Prop := Forall (fun f => timestamp f < ts) (dir m).

Lemma put_fresh ts f files :
  Forall (fun x => timestamp x < ts) files -> put ts f files = f (MkSnap ts None None) :: files.
Proof. destruct 1 as [|x l Hx _]; simpl; [done|]. by rewrite (proj2 (Z.ltb_lt _ _)). Qed.

Lemma put_head ts f x files :
  timestamp x = ts -> put ts f (x :: files) = f x :: files.
Proof. intros <-. simpl. by rewrite Z.ltb_irrefl, Z.eqb_refl. Qed.

Lemma clean_keeps_head x files n :
  1 <= n -> has_index x -> Forall (fun f => timestamp f < timestamp x) files ->
  exists rest, ListSnapshotsNewestFirst (dir (CleanOldSnapshots (MkMgr n (x :: files)))) = x :: rest.
Proof.
  intros Hn Hx HF. unfold CleanOldSnapshots, ListSnapshotsNewestFirst. cbn [dir keep_count_].
  rewrite (filter_cons_True has_index) by done.
  set (snaps := filter has_index files). set (doomed := timestamp <$> drop (Z.to_nat n) (x :: snaps)).
  assert (timestamp x ∉ doomed) as Hnd.
  { unfold doomed. intros (f & Hf & Hin)%list_elem_of_fmap.
    destruct (Z.to_nat n) as [|k] eqn:Ek; [lia|]. simpl in Hin.
    apply (subseteq_drop k) in Hin. unfold snaps in Hin. apply list_elem_of_filter in Hin as [_ Hin].
    rewrite Forall_forall in HF. specialize (HF _ Hin). simpl in HF. lia. }
  rewrite filter_cons_True by done. rewrite filter_cons_True by done. by eexists.
Qed.

Section save.
Context `{IndexFormat}.

Lemma Load_orphan n m x :
  meta_file x = None \/ index_file x = None -> 
  Load n (MkMgr (keep_count_ m) (x :: dir m)) = Load n m.
Proof.
  unfold Load, ListSnapshotsNewestFirst. cbn [dir]. rewrite filter_cons.
  intros Hx. case_decide as Hd; [|done]. destruct Hx as [Hx|Hx].
  - cbn [LoadFirst]. by rewrite Hx.
  - destruct Hd as [b Hb]. congruence.
Qed.

Lemma Save_spec ts g lsn dim M s m st m' s' n :
  HierarchicalNSW.wf g -> fresh_ts ts m -> 1 <= keep_count_ m -> 0 <= lsn < 2 ^ 64 ->
  Save ts g lsn dim M s m = (st, m', s') ->
  if status_ok st
  then (forall k s0, s <> IoShort k :: s0) -> Load n m' = Ret (Some (reloaded n g), lsn)
  else Load n m' = Load n m.
Proof.
  intros Hw Hts Hk Hl Hs. unfold Save in Hs.
  destruct (SaveIndexFile s g) as [written s0] eqn:Ew. destruct (sys s0) as [ok s1].
  destruct (if ok then written else None) as [b|] eqn:Eb; [|by injection Hs as <- <- <-].
  destruct (sys s1) as [[] s2]; [|by injection Hs as <- <- <-]. lazy beta iota delta [negb] in Hs.
  rewrite (put_fresh _ _ _ Hts) in Hs. cbn [keep_count_ dir] in Hs.
  set (ft := Footer _ _ _ _ _) in Hs. set (x := set_index (Some b) (MkSnap ts None None)) in Hs.
  destruct (WriteFileAtomic s2 ft) as [r s3] eqn:Ef. apply WriteFileAtomic_spec in Ef.
  destruct r as [ft'|st'|]; [subst ft'| |done].
  - rewrite put_head in Hs by done. injection Hs as <- <- <-. intros Hns.
    assert (b = saveIndex g) as ->.
    { destruct ok; [|done]. unfold SaveIndexFile in Ew.
      destruct s as [|[] s]; injection Ew as <- <-; try congruence. by destruct (Hns n0 s). }
    set (y := set_meta (Some ft) x).
    destruct (clean_keeps_head y (dir m) (keep_count_ m) Hk) as (rest & Hr); [by eexists|done|].
    unfold Load. rewrite Hr. unfold y, x, set_meta, set_index. cbn [LoadFirst meta_file index_file timestamp].
    destruct (Footer_fields lsn (Z.of_nat (HierarchicalNSW.cur_element_count g)) dim M (Crc32 (saveIndex g)) Hl (Crc32_range _))
      as (F1 & _ & _ & _ & F5).
    unfold ft. rewrite len_Footer, Z.eqb_refl. cbn [negb]. rewrite F1, F5. cbn [load run_bind].
    rewrite Z.eqb_refl. cbn [negb]. by rewrite loadIndex_saveIndex.
  - rewrite put_head in Hs by done. injection Hs as <- <- <-. rewrite Ef.
    rewrite <- (Load_orphan n m (set_index None x)); [done|by right].
Qed.

(** Snapshots are atomic: for every outcome of the I/O calls, after [Save]
    reported an error, and also after a crash between the renames of the .index
    and the .meta, [Load] returns what it returned before; after a [Save] that
    reported Ok with a completely written .index, [Load] returns the saved graph
    and its LSN, whatever was pruned. *)
Theorem Snapshot_save_atomic ts g lsn dim M s m st m' s' n b :
  HierarchicalNSW.wf g -> fresh_ts ts m -> 1 <= keep_count_ m -> 0 <= lsn < 2 ^ 64 ->
  (forall k s0, s <> IoShort k :: s0) ->
  Save ts g lsn dim M s m = (st, m', s') ->
  Load n m' = (if status_ok st then Ret (Some (reloaded n g), lsn) else Load n m) /\
  Load n (MkMgr (keep_count_ m) (put ts (set_index (Some b)) (dir m))) = Load n m.
Proof.
  intros Hw Hts Hk Hl Hns Hs. split.
  - pose proof (Save_spec _ _ _ _ _ _ _ _ _ _ n Hw Hts Hk Hl Hs) as H1. destruct (status_ok st); auto.
  - rewrite (put_fresh _ _ _ Hts). apply Load_orphan. by left.
Qed.
End save.
End SnapshotManager.

(** ** A concrete file format

    One word per field; used to run the model. *)
Module WordFormat.
Import HierarchicalNSW.

Definition put_element (e : element) : list Z :=
  el_label e :: (if el_deleted e then 1 else 0) :: Z.of_nat (length (el_data e)) :: el_data e.

Fixpoint get_elements (fuel : nat) (b : list Z) : option (list element) :=
  match fuel, b with
  | _, [] => Some []
  | S n, l :: d :: k :: r =>
      let k := Z.to_nat k in
      if (k <=? length r)%nat
      then cons (MkElement l (take k r) (d =? 1)) <$> get_elements n (drop k r)
      else None
  | _, _ => None
  end.

Definition save (g : HierarchicalNSW) : bytes :=
  Z.of_nat (max_elements_ g) :: concat (put_element <$> elements g).
Definition load_words (n : nat) (b : bytes) : option HierarchicalNSW :=
  match b with
  | [] => None
  | m :: r => (fun els => reloaded n (MkHnsw (Z.to_nat m) true els ∅ 0 ∅)) <$> get_elements (length r) r
  end.

Lemma get_put els n :
  (length (concat (put_element <$> els)) <= n)%nat ->
  get_elements n (concat (put_element <$> els)) = Some els.
Proof.
  revert n. induction els as [|e els IH]; intros n Hn; [by destruct n|].
  rewrite fmap_cons, concat_cons in *. cbn [put_element app] in *. rewrite length_cons in Hn.
  destruct n as [|n]; [lia|]. cbn [get_elements]. rewrite Nat2Z.id, length_app.
  rewrite (proj2 (Nat.leb_le _ _)) by lia. rewrite take_app_length, drop_app_length.
  rewrite IH by (cbn [length] in Hn; rewrite length_app in Hn; lia).
  destruct e as [l d []]; done.
Qed.

#[global] Program Instance format : IndexFormat := {| saveIndex := save; loadIndex := load_words |}.
Next Obligation. intros n g _. simpl. rewrite get_put by done. simpl. by rewrite Nat2Z.id. Qed.
End WordFormat.

Definition one_point : HierarchicalNSW :=
  HierarchicalNSW.MkHnsw 4 true [HierarchicalNSW.MkElement 7 [1; 2] false] {[7 := 0%nat]} 0 ∅.

Lemma one_point_wf : HierarchicalNSW.wf one_point.
Proof.
  destruct (HierarchicalNSW.addPoint_new [1; 2] 7 (HierarchicalNSW.New 4 true)) as (g' & Hg & Hw & _);
    [apply HierarchicalNSW.HNSW_New_wf|apply lookup_empty|unfold HierarchicalNSW.cur_element_count; simpl; lia|].
  vm_compute in Hg. by injection Hg as <-.
Qed.

Lemma Snapshot_save_atomic_witness :
  let m := SnapshotManager.New 2 [] in
  let '(st, m', _) := SnapshotManager.Save 1700 one_point 3 2 16 [IoOk] m in
  SnapshotManager.Load 4 m' = Ret (Some (reloaded 4 one_point), 3).
Proof.
  intros m.
  assert (SnapshotManager.Save 1700 one_point 3 2 16 [IoOk] m =
    (Status_Ok, (SnapshotManager.Save 1700 one_point 3 2 16 [IoOk] m).1.2, [])) as E by (vm_compute; reflexivity).
  destruct (SnapshotManager.Snapshot_save_atomic 1700 one_point 3 2 16 [IoOk] m _ _ _ 4 []
    one_point_wf ltac:(constructor) ltac:(vm_compute; discriminate) ltac:(lia) ltac:(discriminate) E) as [H _].
  rewrite E. exact H.
Defined.

(** [saveIndex] does not look at the state of its stream, and the checksum is
    computed over what was read back: when the disk fills up while the .index
    is written, [Save] returns Ok, prunes the older snapshot, and the new one
    does not load. *)
Theorem Snapshot_full_disk_unnoticed :
  let '(_, m1, _) := SnapshotManager.Save 1700 one_point 3 2 16 [] (SnapshotManager.New 1 []) in
  let '(st, m2, _) := SnapshotManager.Save 1800 one_point 9 2 16 [IoShort 3] m1 in
  status_ok st = true /\ SnapshotManager.Load 4 m1 = Ret (Some (reloaded 4 one_point), 3) /\
  SnapshotManager.Load 4 m2 =
    Fail (PhnswStatus kInternal phnsw_errors.kSnapshotCorrupted "SnapshotManager::Load: all snapshots corrupt").
Proof. vm_compute. auto. Qed.
