(* ===== verification/Phnsw.v ===== *)
(** * The persistent vector index (src/store/phnsw.cpp)

    [PHnsw] puts the graph behind hnsw.wal and snapshots: a write is logged,
    synced and only then applied to the graph; recovery loads the newest
    snapshot and replays the log behind it.  The write lock makes each method
    one atomic step.  The nearest-neighbour search itself is hnswlib's. *)
From S2P Require Import Prelude Status WalEntryCodec Posix WalLog Hnsw Snapshot.
Open Scope run_scope.

Module PHnsw.
Import WalEntry(WalEntry).
Import WalWriter(WalWriter).
Import HierarchicalNSW(HierarchicalNSW).
Import SnapshotManager(SnapshotManager).

Record PhnswConfig := MkConfig {
  dim : Z;
  M : Z;
  max_elements : Z;
  snapshot_max_wal_size_mb : Z;
  snapshot_max_wal_entries : Z;
  snapshot_keep_count : Z
}.

Record PHnsw := MkPHnsw {
  config_ : PhnswConfig;
  index_ : option HierarchicalNSW;
  snapshot_mgr_ : SnapshotManager;
  wal_ : option WalWriter;
  deleted_count_ : Z;
  applied_lsn_ : Z;
  ready_ : bool;
  snapshot_requested_ : bool
}.

Definition set_graph (p : PHnsw) (g : HierarchicalNSW) (deleted applied : Z) : PHnsw :=
  MkPHnsw (config_ p) (Some g) (snapshot_mgr_ p) (wal_ p) deleted applied (ready_ p) (snapshot_requested_ p).
Definition set_wal (p : PHnsw) (w : WalWriter) : PHnsw :=
  MkPHnsw (config_ p) (index_ p) (snapshot_mgr_ p) (Some w) (deleted_count_ p) (applied_lsn_ p)
    (ready_ p) (snapshot_requested_ p).

(** ** Applying a record *)

Definition IsLabelMarkedDeletedLocked (label : Z) (g : HierarchicalNSW) : bool :=
  match HierarchicalNSW.label_lookup_ g !! label with
  | None => false
  | Some i => default false (HierarchicalNSW.isMarkedDeleted i g)
  end.

(** [ApplyInsertLocked]; an exception keeps what was done before it. *)
Definition ApplyInsertLocked (entry : WalEntry) (g : HierarchicalNSW) (deleted : Z)
    : HierarchicalNSW * Z :=
  let label := WalEntry.block_id entry in
  let '(g, deleted, threw) :=
    if IsLabelMarkedDeletedLocked label g then
      match HierarchicalNSW.unmarkDelete label g with
      | Some g' => (g', if 0 <? deleted then deleted - 1 else deleted, false)
      | None => (g, deleted, true)
      end
    else (g, deleted, false) in
  if threw then (g, deleted) else
  match HierarchicalNSW.addPoint (WalEntry.vector entry) label g with
  | Some g' => (g', deleted)
  | None => (g, deleted)
  end.

(** The graph part of [ApplyEntryLocked]. *)
Definition apply_graph (entry : WalEntry) (g : HierarchicalNSW) (deleted : Z) : HierarchicalNSW * Z :=
  match WalEntry.type entry with
  | WalEntry.kInsert => ApplyInsertLocked entry g deleted
  | WalEntry.kDelete =>
      match HierarchicalNSW.markDelete (WalEntry.block_id entry) g with
      | Some g' => (g', deleted + 1)
      | None => (g, deleted)
      end
  end.

Definition ApplyEntryLocked (entry : WalEntry) (p : PHnsw) : PHnsw :=
  match index_ p with
  | None => p (* never: the index exists before any record is applied *)
  | Some g =>
      let '(g, deleted) := apply_graph entry g (deleted_count_ p) in
      set_graph p g deleted (u64 (applied_lsn_ p + 1))
  end.

(** ** Recovery *)

(** The replay loop: the record at position [i] has LSN [base + i + 1]. *)
Fixpoint ReplayFrom (base i snapshot_lsn : Z) (entries : list WalEntry) (p : PHnsw) : PHnsw :=
  match entries with
  | [] => p
  | e :: rest =>
      let lsn := u64 (base + i + 1) in
      let p := if lsn <=? snapshot_lsn then p else ApplyEntryLocked e p in
      ReplayFrom base (i + 1) snapshot_lsn rest p
  end.

Section format.
Context `{IndexFormat}.

Definition RecoverInternal (p : PHnsw) : Run unit * PHnsw :=
  match wal_ p with
  | None =>
      (Fail (PhnswStatus kUnavailable phnsw_errors.kNotReady
               "Recover: WAL not open (index not ready); WalWriter::Open failed during construction"), p)
  | Some wal =>
      let n := Z.to_nat (max_elements (config_ p)) in
      match SnapshotManager.Load n (snapshot_mgr_ p) with
      | Fail s => (Fail s, p)
      | Undef => (Undef, p)
      | Ret (loaded, snapshot_lsn) =>
          let g := default (HierarchicalNSW.New n true) loaded in
          let p := set_graph p g (HierarchicalNSW.getDeletedCount g) snapshot_lsn in
          let '(recs, wal) := WalWriter.ReadAll (dim (config_ p)) wal in
          let p := set_wal p wal in
          match recs with
          | Fail s => (Fail s, p)
          | Undef => (Undef, p)
          | Ret entries =>
              let base := u64 (WalWriter.committed_lsn wal - WalWriter.entry_count wal) in
              (Ret tt, ReplayFrom base 0 snapshot_lsn entries p)
          end
      end
  end.

(** The constructor: open the log found in the unit directory and recover. *)
Definition New (config : PhnswConfig) (wal_file : file) (snaps : list SnapshotManager.SnapshotFile)
    (s : script) : PHnsw :=
  let mgr := SnapshotManager.New (snapshot_keep_count config) snaps in
  let p := MkPHnsw config None mgr None 0 0 false false in
  match (WalWriter.Open wal_file (dim config) s).1 with
  | Ret wal =>
      let '(r, p) := RecoverInternal (set_wal p wal) in
      match r with
      | Ret _ => MkPHnsw (config_ p) (index_ p) (snapshot_mgr_ p) (wal_ p) (deleted_count_ p)
                   (applied_lsn_ p) true false
      | _ => p
      end
  | _ => p
  end.

(** ** The write path *)

Definition MaybeRequestSnapshotLocked (p : PHnsw) : PHnsw :=
  match wal_ p with
  | None => p
  | Some wal =>
      let '(s, wal) := WalWriter.GetStats wal in
      let p := set_wal p wal in
      match s with
      | Ret st =>
          let c := config_ p in
          let over_entries := (0 <? snapshot_max_wal_entries c) &&
            (snapshot_max_wal_entries c <=? WalWriter.s_entry_count st) in
          let over_bytes := (0 <? snapshot_max_wal_size_mb c) &&
            (u64 (snapshot_max_wal_size_mb c * 1024 * 1024) <=? WalWriter.s_file_size st) in
          if negb over_entries && negb over_bytes then p
          else MkPHnsw (config_ p) (index_ p) (snapshot_mgr_ p) (wal_ p) (deleted_count_ p)
                 (applied_lsn_ p) (ready_ p) true
      | _ => p
      end
  end.

(** The decode-and-apply loop of [ApplySink::Sync]. *)
Fixpoint ApplyFrames (frames : list bytes) (p : PHnsw) : Run unit * PHnsw :=
  match frames with
  | [] => (Ret tt, p)
  | f :: rest =>
      match WalEntry.Deserialize f (dim (config_ p)) with
      | Ret e => ApplyFrames rest (ApplyEntryLocked e p)
      | Fail s => (Fail s, p)
      | Undef => (Undef, p)
      end
  end.

(** [ApplySink::WriteBatch] stashes the batch and [ApplySink::Sync] does the
    work: log, sync, apply, all under the write lock. *)
Definition SinkFlush (batch : list bytes) (p : PHnsw) : Run unit * PHnsw :=
  if decide (batch = []) then (Ret tt, p) else
  match wal_ p with
  | None => (Ret tt, p) (* never: the sink exists only with an open log *)
  | Some wal =>
      let '(w, wal) := WalWriter.WriteBatch batch wal in
      let p := set_wal p wal in
      if negb (status_ok w) then (Fail w, p) else
      let '(s, wal) := WalWriter.Sync wal in
      let p := set_wal p wal in
      if negb (status_ok s) then (Fail s, p) else
      let '(r, p) := ApplyFrames batch p in
      match r with
      | Ret _ => (Ret tt, MaybeRequestSnapshotLocked p)
      | err => (err, p)
      end
  end.

Definition not_ready (what : string) : Status :=
  PhnswStatus kUnavailable phnsw_errors.kNotReady what.

(** A caller with no other write in flight: the committer flushes a batch of
    one.  [vec = None] is a null pointer; otherwise it holds [dim] floats. *)
Definition AddPoint (now : Z) (vec : option (list Z)) (block_id : Z) (p : PHnsw) : Run unit * PHnsw :=
  match vec with
  | None => (Fail (Status_InvalidArgument "PHnsw::AddPoint: null vector"), p)
  | Some v =>
      if negb (ready_ p) then (Fail (not_ready "PHnsw::AddPoint: index not ready"), p)
      else SinkFlush [WalEntry.SerializeInsert block_id v now (-1)] p
  end.

Definition MarkDelete (now block_id : Z) (p : PHnsw) : Run unit * PHnsw :=
  if negb (ready_ p) then (Fail (not_ready "PHnsw::MarkDelete: index not ready"), p)
  else SinkFlush [WalEntry.SerializeDelete block_id now (-1)] p.

(** The batches of one [AddPoints] call, flushed in order; every future is
    waited for, the first error is returned. *)
Fixpoint FlushBatches (batches : list (list bytes)) (p : PHnsw) : Run unit * PHnsw :=
  match batches with
  | [] => (Ret tt, p)
  | b :: rest =>
      let '(r, p) := SinkFlush b p in
      match r with
      | Undef => (Undef, p)
      | _ => let '(r', p) := FlushBatches rest p in
             (match r, r' with
              | Fail s, Undef => Undef
              | Fail s, _ => Fail s
              | _, _ => r'
              end, p)
      end
  end.

(** The frames submitted before the first null vector, and whether there is one. *)
Fixpoint SubmitFrames (now : Z) (points : list (option (list Z) * Z)) : list bytes * bool :=
  match points with
  | [] => ([], false)
  | (None, _) :: _ => ([], true)
  | (Some v, id) :: rest =>
      let '(fs, null) := SubmitFrames now rest in (WalEntry.SerializeInsert id v now (-1) :: fs, null)
  end.

(** [batching] is how the committer cuts the submitted frames into batches. *)
Definition AddPoints (batching : list bytes -> list (list bytes)) (now : Z)
    (points : list (option (list Z) * Z)) (p : PHnsw) : Run unit * PHnsw :=
  if negb (ready_ p) then (Fail (not_ready "PHnsw::AddPoints: index not ready"), p) else
  let '(fs, null) := SubmitFrames now points in
  let '(r, p) := FlushBatches (batching fs) p in
  if null then (Fail (Status_InvalidArgument "PHnsw::AddPoints: null vector in batch"), p) else (r, p).

(** ** Reads and persistence *)

Definition Exists (block_id : Z) (p : PHnsw) : bool :=
  match index_ p with
  | None => false
  | Some g =>
      match HierarchicalNSW.label_lookup_ g !! block_id with
      | None => false
      | Some i => negb (default false (HierarchicalNSW.isMarkedDeleted i g))
      end
  end.

(** The [k] that [SearchLocked] asks hnswlib for. *)
Definition search_k (top_k : Z) (p : PHnsw) : Z :=
  match index_ p with
  | None => 0
  | Some g =>
      let total := Z.of_nat (HierarchicalNSW.getCurrentElementCount g) in
      if total =? 0 then 0 else
      let live := if deleted_count_ p <? total then total - deleted_count_ p else 0 in
      Z.min top_k live
  end.

(** hnswlib's [searchKnn] with the [ef] in force: the heap in the order it is
    popped, farthest first; [None] is an exception. *)
Definition SearchLocked {D} (searchKnn : HierarchicalNSW -> list Z -> Z -> option (list (D * Z)))
    (query : list Z) (top_k : Z) (p : PHnsw) : list (Z * D) :=
  match index_ p with
  | None => []
  | Some g =>
      let actual_k := search_k top_k p in
      if actual_k =? 0 then [] else
      match searchKnn g query actual_k with
      | Some heap => reverse ((fun x => (x.2, x.1)) <$> heap)
      | None => []
      end
  end.

(** [ef_search > 0] sets [ef] for this one search and restores it. *)
Definition Search {D} (searchKnn : Z -> HierarchicalNSW -> list Z -> Z -> option (list (D * Z)))
    (saved_ef : Z) (query : option (list Z)) (top_k ef_search : Z) (p : PHnsw) : list (Z * D) :=
  match query with
  | None => []
  | Some q =>
      if top_k <=? 0 then [] else
      SearchLocked (searchKnn (if 0 <? ef_search then ef_search else saved_ef)) q top_k p
  end.

Definition Snapshot (ts : Z) (s : script) (p : PHnsw) : Run unit * PHnsw :=
  match index_ p with
  | None => (Fail (SnapshotManager.snapshot_failed "PHnsw::Snapshot: index not initialized"), p)
  | Some g =>
      let '(st, mgr, _) := SnapshotManager.Save ts g (applied_lsn_ p) (dim (config_ p)) (M (config_ p)) s
                             (snapshot_mgr_ p) in
      let p := MkPHnsw (config_ p) (index_ p) mgr (wal_ p) (deleted_count_ p) (applied_lsn_ p)
                 (ready_ p) (snapshot_requested_ p) in
      if negb (status_ok st) then (Fail st, p) else
      match wal_ p with
      | None => (Ret tt, p)
      | Some wal =>
          let '(t, wal) := WalWriter.Truncate wal in
          let p := set_wal p wal in
          if negb (status_ok t) then (Fail t, p) else (Ret tt, p)
      end
  end.

(** One turn of [SnapshotLoop] after the wait: consume the request, snapshot;
    a failure is only logged. *)
Definition SnapshotLoopTurn (ts : Z) (s : script) (p : PHnsw) : PHnsw :=
  if snapshot_requested_ p then
    (Snapshot ts s (MkPHnsw (config_ p) (index_ p) (snapshot_mgr_ p) (wal_ p) (deleted_count_ p)
                      (applied_lsn_ p) (ready_ p) false)).2
  else p.

Definition Recover (p : PHnsw) : Run unit * PHnsw := RecoverInternal p.

Definition GetWalStats (p : PHnsw) : WalWriter.WalWriterStats * PHnsw :=
  match wal_ p with
  | None => (WalWriter.MkWalWriterStats 0 0 0, p)
  | Some wal =>
      let '(s, wal) := WalWriter.GetStats wal in
      (match s with Ret st => st | _ => WalWriter.MkWalWriterStats 0 0 0 end, set_wal p wal)
  end.

Record IndexStats := MkStats { st_dim : Z; vector_count : Z; deleted_count : Z; memory_footprint_bytes : Z }.

(** [sz] is sizeof(hnswlib::HierarchicalNSW<float>). *)
Definition GetMemoryFootprintBytesLocked (sz : Z) (p : PHnsw) : Z :=
  match index_ p with
  | None => 0
  | Some g =>
      let n := Z.of_nat (HierarchicalNSW.getCurrentElementCount g) in
      u64 (u64 (n * dim (config_ p) * 4) + u64 (n * M (config_ p) * 4) + u64 (sz + n * 8))
  end.

Definition GetStats (sz : Z) (p : PHnsw) : IndexStats :=
  match index_ p with
  | None => MkStats (dim (config_ p)) 0 0 (GetMemoryFootprintBytesLocked sz p)
  | Some g =>
      let total := Z.of_nat (HierarchicalNSW.getCurrentElementCount g) in
      MkStats (dim (config_ p)) (if deleted_count_ p <? total then total - deleted_count_ p else 0)
        (deleted_count_ p) (GetMemoryFootprintBytesLocked sz p)
  end.

End format.
End PHnsw.
