(* ===== verification/PhnswTheory.v ===== *)
(** * What the persistent index guarantees (src/store/phnsw.cpp)

    The abstract index is a finite map from block ids to vectors; a log is
    replayed by [replay].  The graph refines it record by record, a write that
    returned Ok is visible and survives a crash, and recovery from the newest
    snapshot and the log rebuilds exactly the acknowledged writes. *)
From S2P Require Import Prelude Status Posix WalEntryCodec WalLog WalLogTheory Hnsw Snapshot Phnsw.
Open Scope run_scope.

Import WalEntry(WalEntry, valid).
Import WalWriter(WalWriter).
Import HierarchicalNSW(HierarchicalNSW, point).
Import PHnsw.

(** ** The abstract index *)

Definition apply_spec (m : gmap Z (list Z)) (e : WalEntry) : gmap Z (list Z) :=
  match WalEntry.type e with
  | WalEntry.kInsert => <[WalEntry.block_id e := WalEntry.vector e]> m
  | WalEntry.kDelete => delete (WalEntry.block_id e) m
  end.
Definition replay (h : list WalEntry) : gmap Z (list Z) := foldl apply_spec ∅ h.

Lemma replay_snoc h e : replay (h ++ [e]) = apply_spec (replay h) e.
Proof. unfold replay. by rewrite foldl_app. Qed.

(** The block ids a log inserts. *)
Definition labels (h : list WalEntry) : gset Z := list_to_set (WalEntry.block_id <$> h).

(** The graph holds the replay of [h]; all labels come from [L], for which
    there is room. *)
Record graph_ok (L : gset Z) (h : list WalEntry) (g : HierarchicalNSW) (deleted : Z) : Prop := {
  go_wf : HierarchicalNSW.wf g;
  go_replace : HierarchicalNSW.allow_replace_deleted_ g = true;
  go_known : dom (HierarchicalNSW.label_lookup_ g) ⊆ L;
  go_room : (size L <= HierarchicalNSW.max_elements_ g)%nat;
  go_points : forall l, point g l = replay h !! l;
  go_deleted : deleted = HierarchicalNSW.num_deleted_ g
}.

Lemma num_deleted_pos g l i :
  HierarchicalNSW.wf g -> HierarchicalNSW.label_lookup_ g !! l = Some i ->
  HierarchicalNSW.isMarkedDeleted i g = Some true -> 0 < HierarchicalNSW.num_deleted_ g.
Proof.
  intros Hw _ Hd. rewrite (HierarchicalNSW.wf_deleted _ Hw). unfold HierarchicalNSW.isMarkedDeleted in Hd.
  destruct (HierarchicalNSW.elements g !! i) as [e|] eqn:He; [|done]. simpl in Hd. injection Hd as Hd.
  assert (e ∈ HierarchicalNSW.deleted_slots g) as Hin.
  { apply list_elem_of_filter. split; [done|]. by eapply list_elem_of_lookup_2. }
  unfold len. destruct (HierarchicalNSW.deleted_slots g); [by apply not_elem_of_nil in Hin|simpl; lia].
Qed.

(** A label that is not in the graph yet fits. *)
Lemma room_for L h g d l :
  graph_ok L h g d -> HierarchicalNSW.label_lookup_ g !! l = None -> l ∈ L ->
  (HierarchicalNSW.cur_element_count g < HierarchicalNSW.max_elements_ g)%nat.
Proof.
  intros [Hw _ Hk Hr _ _] El Hin. rewrite <- (HierarchicalNSW.cur_element_count_lookup g Hw), <- size_dom.
  assert (size ({[l]} ∪ dom (HierarchicalNSW.label_lookup_ g)) <= size L)%nat as Hle
    by (apply subseteq_size; set_solver).
  rewrite size_union, size_singleton in Hle; [lia|]. apply not_elem_of_dom in El. set_solver.
Qed.

Lemma graph_ok_delete L h g d e :
  graph_ok L h g d -> WalEntry.type e = WalEntry.kDelete ->
  graph_ok L (h ++ [e]) (apply_graph e g d).1 (apply_graph e g d).2.
Proof.
  intros Hg Ht. pose proof Hg as [Hw Hr Hk Hroom Hp Hd]. unfold apply_graph. rewrite Ht.
  assert (forall l, replay (h ++ [e]) !! l =
    if decide (l = WalEntry.block_id e) then None else replay h !! l) as Hrep.
  { intros l. rewrite replay_snoc. unfold apply_spec. rewrite Ht.
    case_decide; [subst; apply lookup_delete_eq|by apply lookup_delete_ne]. }
  pose proof (HierarchicalNSW.markDelete_spec (WalEntry.block_id e) g Hw) as Hm.
  destruct (HierarchicalNSW.markDelete _ g) as [g'|]; cbn [fst snd].
  - destruct Hm as (Hw' & (Hs1 & Hs2 & Hs3 & _) & _ & Hn & Hp').
    split; [done|congruence|by rewrite Hs1|by rewrite Hs2| |lia].
    intros l. rewrite Hp', Hrep, Hp. done.
  - split; try done. intros l. rewrite Hrep. case_decide; [by subst|done].
Qed.

Lemma graph_ok_insert L h g d e :
  graph_ok L h g d -> WalEntry.type e = WalEntry.kInsert -> WalEntry.block_id e ∈ L ->
  graph_ok L (h ++ [e]) (apply_graph e g d).1 (apply_graph e g d).2.
Proof.
  intros Hg Ht Hin. pose proof Hg as [Hw Hr Hk Hroom Hp Hd].
  unfold apply_graph, ApplyInsertLocked. rewrite Ht. set (l := WalEntry.block_id e) in *.
  assert (forall l', replay (h ++ [e]) !! l' =
    if decide (l' = l) then Some (WalEntry.vector e) else replay h !! l') as Hrep.
  { intros l'. rewrite replay_snoc. unfold apply_spec. rewrite Ht. fold l.
    case_decide; [subst; apply lookup_insert_eq|by apply lookup_insert_ne]. }
  unfold IsLabelMarkedDeletedLocked.
  destruct (HierarchicalNSW.label_lookup_ g !! l) as [i|] eqn:El.
  - destruct (HierarchicalNSW.slot_of _ _ _ Hw El) as (x & Hx & _).
    destruct (HierarchicalNSW.isMarkedDeleted i g) as [del|] eqn:Ed;
      [|unfold HierarchicalNSW.isMarkedDeleted in Ed; by rewrite Hx in Ed].
    cbn [default]. unfold id. destruct del; cbv beta iota zeta.
    + pose proof (num_deleted_pos _ _ _ Hw El Ed) as Hpos.
      destruct (HierarchicalNSW.unmarkDelete_spec l g i Hw El Ed)
        as (g1 & -> & Hw1 & (S1 & S2 & S3 & S4) & Hn1 & _ & Hd1 & Hp1).
      rewrite (proj2 (Z.ltb_lt 0 d)) by lia. cbv beta iota zeta.
      destruct (HierarchicalNSW.addPoint_known (WalEntry.vector e) l g1 i Hw1)
        as (g2 & -> & Hw2 & (T1 & T2 & T3 & T4) & Hn2 & Hp2); [congruence|done|]. cbn [fst snd].
      split; [done|congruence|by rewrite T1, S1|by rewrite T2, S2| |lia].
      intros l'. rewrite Hp2, Hrep. case_decide; [done|]. by rewrite Hp1, Hp.
    + destruct (HierarchicalNSW.addPoint_known (WalEntry.vector e) l g i Hw El Ed)
        as (g2 & -> & Hw2 & (T1 & T2 & T3 & T4) & Hn2 & Hp2). cbn [fst snd].
      split; [done|congruence|by rewrite T1|by rewrite T2| |lia].
      intros l'. by rewrite Hp2, Hrep, Hp.
  - destruct (HierarchicalNSW.addPoint_new (WalEntry.vector e) l g Hw El (room_for _ _ _ _ _ Hg El Hin))
      as (g2 & -> & Hw2 & Hn2 & Hm2 & Ha2 & _ & Hl2 & Hp2). cbn [fst snd].
    split; [done|congruence| |by rewrite Hm2| |lia].
    + intros x Hx. apply elem_of_dom in Hx as [j Hj]. rewrite Hl2 in Hj.
      case_decide; [by subst|]. apply Hk, elem_of_dom. eauto.
    + intros l'. by rewrite Hp2, Hrep, Hp.
Qed.

Lemma graph_ok_apply L h g d e :
  graph_ok L h g d -> WalEntry.block_id e ∈ L ->
  graph_ok L (h ++ [e]) (apply_graph e g d).1 (apply_graph e g d).2.
Proof.
  intros Hg Hin. destruct (WalEntry.type e) eqn:Et; [by apply graph_ok_insert|by apply graph_ok_delete].
Qed.

(** Record-level refinement: applying an INSERT or a DELETE to a graph that
    holds a finite map yields the graph of the updated map, for absent, live and
    marked-deleted labels alike (a rewrite of a deleted id brings back the same
    label), and [deleted_count_] stays equal to hnswlib's own count. *)
Theorem ApplyEntry_refines (L : gset Z) (h : list WalEntry) (g : HierarchicalNSW) (d : Z) (e : WalEntry) :
  graph_ok L h g d -> WalEntry.block_id e ∈ L ->
  let g' := (apply_graph e g d).1 in
  (forall l, point g' l = apply_spec (replay h) e !! l) /\
  (apply_graph e g d).2 = HierarchicalNSW.getDeletedCount g' /\ HierarchicalNSW.wf g'.
Proof.
  intros Hg Hin g'. destruct (graph_ok_apply L h g d e Hg Hin) as [Hw _ _ _ Hp Hd].
  rewrite replay_snoc in Hp. by split.
Qed.

Lemma New_graph_ok L n : (size L <= n)%nat -> graph_ok L [] (HierarchicalNSW.New n true) 0.
Proof.
  intros Hn. split; try done. apply HierarchicalNSW.HNSW_New_wf.
Qed.

Definition ins (id : Z) (v : list Z) : WalEntry := WalEntry.MkWalEntry WalEntry.kInsert 9 id v.
Definition del (id : Z) : WalEntry := WalEntry.MkWalEntry WalEntry.kDelete 9 id [].

Lemma ApplyEntry_refines_witness :
  let '(g, d) := apply_graph (ins 7 [1]) (HierarchicalNSW.New 1 true) 0 in
  let '(g, d) := apply_graph (del 7) g d in
  point (apply_graph (ins 7 [2]) g d).1 7 = Some [2] /\ (apply_graph (ins 7 [2]) g d).2 = 0.
Proof.
  destruct (apply_graph (ins 7 [1]) (HierarchicalNSW.New 1 true) 0) as [g1 d1] eqn:E1.
  destruct (apply_graph (del 7) g1 d1) as [g2 d2] eqn:E2.
  assert (graph_ok {[7]} [ins 7 [1]; del 7] g2 d2) as Hg.
  { pose proof (graph_ok_apply {[7]} [] _ _ (ins 7 [1]) (New_graph_ok {[7]} 1 ltac:(rewrite size_singleton; lia)) ltac:(set_solver)) as H1.
    rewrite E1 in H1. cbn [fst snd] in H1. pose proof (graph_ok_apply {[7]} _ _ _ (del 7) H1 ltac:(set_solver)) as H2.
    by rewrite E2 in H2. }
  destruct (ApplyEntry_refines {[7]} _ g2 d2 (ins 7 [2]) Hg ltac:(set_solver)) as (Hp & Hd & _).
  split; [rewrite Hp; reflexivity|]. rewrite Hd. vm_compute in E1. injection E1 as <- <-.
  vm_compute in E2. injection E2 as <- <-. reflexivity.
Defined.

(** ** Reloading a snapshot *)

Lemma reload_lookup n g :
  HierarchicalNSW.wf g -> HierarchicalNSW.label_lookup_ (reloaded n g) = HierarchicalNSW.label_lookup_ g.
Proof.
  intros Hw. apply map_eq. intros l. apply option_eq. intros i. rewrite (HierarchicalNSW.wf_lookup _ Hw).
  unfold reloaded. cbn [HierarchicalNSW.label_lookup_].
  rewrite <- elem_of_list_to_map.
  - rewrite elem_of_lookup_imap. split.
    + intros (j & e & [= -> ->] & He). eauto.
    + intros (e & He & <-). eauto.
  - rewrite fmap_imap. pose proof (HierarchicalNSW.labels_NoDup g Hw) as Hnd.
    rewrite <- (imap_const HierarchicalNSW.el_label) in Hnd. exact Hnd.
Qed.

Lemma reload_graph_ok L h g d n :
  graph_ok L h g d -> (size L <= n)%nat ->
  graph_ok L h (reloaded n g) (HierarchicalNSW.num_deleted_ (reloaded n g)).
Proof.
  intros [Hw Hr Hk Hroom Hp Hd] Hn. pose proof (reload_lookup n g Hw) as Hl.
  split; try done.
  - split.
    + intros l i. rewrite Hl. apply (HierarchicalNSW.wf_lookup _ Hw).
    + done.
    + unfold reloaded, HierarchicalNSW.cur_element_count. cbn [HierarchicalNSW.elements HierarchicalNSW.max_elements_].
      fold (HierarchicalNSW.cur_element_count g). pose proof (HierarchicalNSW.wf_capacity _ Hw).
      destruct (Nat.ltb_spec n (HierarchicalNSW.cur_element_count g)); lia.
    + intros i _. cbn [HierarchicalNSW.deleted_elements reloaded HierarchicalNSW.elements].
      rewrite elem_of_list_to_set, list_elem_of_omap. split.
      * intros ([j e] & (j' & e' & [= -> ->] & He)%elem_of_lookup_imap & Hsome). simpl in Hsome.
        destruct (HierarchicalNSW.el_deleted e') eqn:Ed; [|done]. injection Hsome as <-. eauto.
      * intros (e & He & Hed). exists (i, e). split; [apply elem_of_lookup_imap; eauto|]. simpl. by rewrite Hed.
  - by rewrite Hl.
  - cbn [HierarchicalNSW.max_elements_ reloaded]. destruct (n <? _)%nat; [done|done].
  - intros l. rewrite <- Hp. unfold point. rewrite Hl. done.
Qed.

Lemma graph_ok_weaken L L' h g d :
  graph_ok L h g d -> L ⊆ L' -> (size L' <= HierarchicalNSW.max_elements_ g)%nat -> graph_ok L' h g d.
Proof. intros [] Hs Hn. split; try done. set_solver. Qed.

(** ** Recovery *)

(** The running index holds the history [h]. *)
Record index_ok (n : nat) (h : list WalEntry) (p : PHnsw) : Prop := {
  ix_graph : exists g, index_ p = Some g /\ graph_ok (labels h) h g (deleted_count_ p) /\
               (n <= HierarchicalNSW.max_elements_ g)%nat;
  ix_applied : applied_lsn_ p = len h
}.

Lemma labels_app h h' : labels (h ++ h') = labels h ∪ labels h'.
Proof. unfold labels. by rewrite fmap_app, list_to_set_app_L. Qed.

Lemma ApplyEntryLocked_ok n h e p :
  index_ok n h p -> (size (labels (h ++ [e])) <= n)%nat -> len h + 1 < 2 ^ 64 ->
  index_ok n (h ++ [e]) (ApplyEntryLocked e p) /\
  wal_ (ApplyEntryLocked e p) = wal_ p /\ snapshot_mgr_ (ApplyEntryLocked e p) = snapshot_mgr_ p /\
  config_ (ApplyEntryLocked e p) = config_ p /\ ready_ (ApplyEntryLocked e p) = ready_ p.
Proof.
  intros [(g & Hi & Hg & Hm) Ha] Hs Hb. unfold ApplyEntryLocked. rewrite Hi.
  assert (graph_ok (labels (h ++ [e])) h g (deleted_count_ p)) as Hg'.
  { apply (graph_ok_weaken (labels h)); [done| |lia]. rewrite labels_app. set_solver. }
  pose proof (graph_ok_apply _ _ _ _ e Hg') as Hok.
  assert (HierarchicalNSW.max_elements_ (apply_graph e g (deleted_count_ p)).1 = HierarchicalNSW.max_elements_ g) as Hmax.
  { clear. unfold apply_graph, ApplyInsertLocked, IsLabelMarkedDeletedLocked, HierarchicalNSW.markDelete,
      HierarchicalNSW.unmarkDelete, HierarchicalNSW.addPoint, HierarchicalNSW.markDeletedInternal,
      HierarchicalNSW.unmarkDeletedInternal, HierarchicalNSW.updatePoint.
    repeat (case_match; simplify_eq/=; try done). }
  destruct (apply_graph e g (deleted_count_ p)) as [g' d']. cbn [fst snd] in *.
  split; [|done]. split; cbn.
  - exists g'. split; [done|]. split; [|lia]. apply Hok. rewrite labels_app. unfold labels. set_solver.
  - rewrite Ha. pose proof (len_nonneg h). rewrite u64_small by lia. autorewrite with len. lia.
Qed.

Lemma take_len {A} (a b : list A) : take (Z.to_nat (len a)) (a ++ b) = a.
Proof. unfold len. rewrite Nat2Z.id. apply take_app_length. Qed.

(** The replay loop skips what the snapshot has and applies the rest. *)
Lemma ReplayFrom_ok n rest : forall base i slsn pre h p,
  h = pre ++ rest -> len pre = base + i -> 0 <= base -> 0 <= i -> 0 <= slsn <= len h ->
  (size (labels h) <= n)%nat -> len h < 2 ^ 64 ->
  index_ok n (take (Z.to_nat (Z.max slsn (base + i))) h) p ->
  let p' := ReplayFrom base i slsn rest p in
  index_ok n h p' /\ wal_ p' = wal_ p /\ snapshot_mgr_ p' = snapshot_mgr_ p /\
  config_ p' = config_ p /\ ready_ p' = ready_ p.
Proof.
  induction rest as [|e rest IH]; intros base i slsn pre h p -> Hl Hb Hi Hs Hn H64 Hok; cbn [ReplayFrom].
  { rewrite app_nil_r in *. replace (Z.max slsn (base + i)) with (len pre) in Hok by lia.
    rewrite <- (app_nil_r pre) in Hok at 2. by rewrite take_len in Hok. }
  assert (len (pre ++ e :: rest) = len pre + 1 + len rest) as Hlen by (autorewrite with len; lia).
  pose proof (len_nonneg rest). rewrite u64_small by lia.
  assert (pre ++ e :: rest = (pre ++ [e]) ++ rest) as Hassoc by (by rewrite <- app_assoc).
  destruct (Z.leb_spec (base + i + 1) slsn) as [Hle|Hgt].
  - apply (IH base (i + 1) slsn (pre ++ [e])); try done; [autorewrite with len; lia|lia|].
    replace (Z.max slsn (base + (i + 1))) with (Z.max slsn (base + i)) by lia. done.
  - replace (Z.max slsn (base + i)) with (len pre) in Hok by lia. rewrite take_len in Hok.
    destruct (ApplyEntryLocked_ok n pre e p Hok) as (Hok' & W1 & W2 & W3 & W4).
    { eapply Nat.le_trans; [|exact Hn]. apply subseteq_size. rewrite Hassoc, (labels_app (pre ++ [e])). set_solver. }
    { lia. }
    rewrite <- W1, <- W2, <- W3, <- W4.
    apply (IH base (i + 1) slsn (pre ++ [e])); try done; [autorewrite with len; lia|lia|].
    replace (Z.max slsn (base + (i + 1))) with (len (pre ++ [e])) by (autorewrite with len; lia).
    rewrite Hassoc, take_len. done.
Qed.

(** The log and the snapshots together hold the history [h]: the newest
    loadable snapshot covers a prefix of it that reaches into the log. *)
Record stored `{IndexFormat} (c : PhnswConfig) (h : list WalEntry) (mgr : SnapshotManager.SnapshotManager)
    (w : WalWriter) : Prop := {
  sto_wal : exists pre es, h = pre ++ es /\ holds w (len pre) es /\ WalWriter.dim_ w = dim c;
  sto_snap : exists og slsn,
    SnapshotManager.Load (Z.to_nat (max_elements c)) mgr = Ret (og, slsn) /\
    WalWriter.base_lsn w <= slsn <= len h /\
    match og with
    | None => slsn = 0
    | Some g => graph_ok (labels (take (Z.to_nat slsn) h)) (take (Z.to_nat slsn) h) g (HierarchicalNSW.num_deleted_ g) /\
        (Z.to_nat (max_elements c) <= HierarchicalNSW.max_elements_ g)%nat
    end;
  sto_room : (size (labels h) <= Z.to_nat (max_elements c))%nat;
  sto_len : len h < 2 ^ 64
}.

Lemma ReadAll_holds w base es d r w' :
  holds w base es -> d = WalWriter.dim_ w -> WalWriter.ReadAll d w = (r, w') ->
  (exists s, w' = WalWriter.set_io w s) /\
  (r = Ret es \/ exists st, r = Fail st) /\ (WalWriter.io_ w = [] -> r = Ret es).
Proof.
  intros [Hd Hc Hl Ht Hdm Hv Hb0 Hbd] -> H. unfold WalWriter.ReadAll, WalWriter.ReadFileLocked in H.
  destruct (sys (WalWriter.io_ w)) as [ok s] eqn:Es.
  destruct ok; lazy beta iota delta [negb] in H;
    [|injection H as <- <-; split; [eauto|]; split; [eauto|]; intros Hi; rewrite Hi in Es; done].
  destruct (PreadAll s _ 0 _) as [[img|] s1] eqn:Ep;
    [|injection H as <- <-; split; [eauto|]; split; [eauto|]; intros Hi; rewrite Hi in Es;
      injection Es as <-; rewrite PreadAll_nil in Ep; done].
  apply PreadAll_spec in Ep as ->; [|lia]. rewrite Hd in H. unfold wal_image in H.
  cbn [WalWriter.dim_ WalWriter.header_trusted_ WalWriter.set_io] in H.
  pose proof (WalWriter.Wal_len_MakeHeader (WalWriter.dim_ w) (len es) (base + len es)) as Hlh.
  pose proof (len_nonneg (WalWriter.frames es)).
  rewrite (proj2 (Z.ltb_ge _ _)) in H by (rewrite len_app; lia).
  rewrite (proj2 (Z.ltb_lt 0 _)) in H by done.
  destruct (WalWriter.scan_frames _ es [] (WalWriter.dim_ w) Hlh (WalWriter.Wal_MakeHeader_ok _ _ _) Hv ltac:(constructor))
    as (extra & stop & Hscan & _ & Hnil). destruct (Hnil eq_refl) as [-> ->].
  rewrite app_nil_r in Hscan. unfold WalWriter.scan in Hscan. rewrite Hscan in H.
  rewrite Z.ltb_irrefl, Ht in H. cbn [orb negb] in H. injection H as <- <-. rewrite app_nil_r. eauto.
Qed.

Section recover.
Context `{IndexFormat}.

Lemma RecoverInternal_ok c h w p r p' :
  stored c h (snapshot_mgr_ p) w -> config_ p = c -> wal_ p = Some w ->
  RecoverInternal p = (r, p') ->
  (r = Ret tt \/ exists st, r = Fail st) /\ (WalWriter.io_ w = [] -> r = Ret tt) /\
  (r = Ret tt -> index_ok (Z.to_nat (max_elements c)) h p' /\ config_ p' = c /\
     snapshot_mgr_ p' = snapshot_mgr_ p /\ ready_ p' = ready_ p /\
     exists s, wal_ p' = Some (WalWriter.set_io w s)).
Proof.
  intros [(pre & es & -> & Hh & Hdim) (og & slsn & Hload & Hs & Hog) Hroom Hlen] Hc Hw HR.
  rewrite (holds_base_lsn _ _ _ Hh) in Hs. pose proof (len_nonneg pre). pose proof (len_nonneg es).
  unfold RecoverInternal in HR. rewrite Hw, Hc, Hload in HR.
  destruct (WalWriter.ReadAll _ w) as [recs w1] eqn:Er.
  cbn [config_ set_graph] in Er, HR. rewrite Hc in Er.
  destruct (ReadAll_holds _ _ _ _ _ _ Hh (eq_sym Hdim) Er) as ([s ->] & Hrecs & Hio).
  destruct Hrecs as [->|[st ->]].
  - set (g := default _ og) in *. set (n := Z.to_nat (max_elements c)) in *.
    match type of HR with context [ReplayFrom ?b 0] =>
      replace b with (len pre) in HR by (symmetry; exact (holds_base_lsn _ _ _ Hh)) end.
    injection HR as <- <-. split; [by left|]. split; [done|]. intros _.
    set (p1 := set_wal _ _).
    destruct (ReplayFrom_ok n es (len pre) 0 slsn pre (pre ++ es) p1) as (Hok & W1 & W2 & W3 & W4);
      try done; try lia.
    + replace (Z.max slsn (len pre + 0)) with slsn by lia.
      assert (len (take (Z.to_nat slsn) (pre ++ es)) = slsn) as Hlt.
      { unfold len in *. rewrite length_take. lia. }
      split; [|cbn; lia]. exists g. split; [done|]. destruct og as [g0|].
      * destruct Hog as [Hg Hm]. split; [exact Hg|exact Hm].
      * subst slsn. split; [|cbn; lia]. apply New_graph_ok.
        change (take (Z.to_nat 0) (pre ++ es)) with (@nil WalEntry).
        change (labels []) with (∅ : gset Z). rewrite size_empty. lia.
    + split; [done|]. rewrite W1, W2, W3, W4. split; [done|]. split; [done|]. split; [done|]. by exists s.
  - injection HR as <- <-. split; [eauto|]. split; [|done]. intros Hi. by specialize (Hio Hi).
Qed.

End recover.

(** ** A concrete run *)

Definition small_config : PhnswConfig := MkConfig 2 16 4 64 1000 2.
Definition logged : WalWriter := (WalWriter.AppendBatch [WalEntry.Serialize WalEntry.sample] (fresh_wal [])).2.

Lemma logged_holds : holds logged 0 [WalEntry.sample] /\ synced logged.
Proof.
  apply (AppendBatch_spec (fresh_wal []) 0 [] [WalEntry.sample]
    (WalWriter.AppendBatch [WalEntry.Serialize WalEntry.sample] (fresh_wal [])).1);
    [apply fresh_wal_holds|done|constructor; [exact WalEntry.WalEntry_sample_valid|constructor]|done
    |apply surjective_pairing|vm_compute; done].
Qed.

Lemma logged_stored `{IndexFormat} :
  stored small_config [WalEntry.sample] (SnapshotManager.New 2 []) logged.
Proof.
  destruct logged_holds as [Hh _]. split.
  - exists [], [WalEntry.sample]. done.
  - exists None, 0. rewrite (holds_base_lsn _ _ _ Hh). done.
  - vm_compute. lia.
  - done.
Qed.

