(* ===== verification/PhnswWrites.v ===== *)
(** * Writing to the persistent index (src/store/phnsw.cpp)

    A write that returned Ok is in the log and in the graph; a snapshot moves
    the history from the log to the snapshot directory without losing any of
    it; what a search may return is what the history holds. *)
From S2P Require Import Prelude Status Posix WalEntryCodec WalLog WalLogTheory Hnsw Snapshot Phnsw PhnswTheory.
Open Scope run_scope.

Import WalEntry(WalEntry, valid).
Import WalWriter(WalWriter).
Import HierarchicalNSW(HierarchicalNSW, point).
Import PHnsw.

(** ** The running index *)

(** The index is ready, its graph and its files hold the history [h], and the
    log is synced. *)
Record live `{IndexFormat} (c : PhnswConfig) (h : list WalEntry) (p : PHnsw) : Prop := {
  live_config : config_ p = c;
  live_ready : ready_ p = true;
  live_index : index_ok (Z.to_nat (max_elements c)) h p;
  live_files : exists w, wal_ p = Some w /\ synced w /\ stored c h (snapshot_mgr_ p) w
}.

Lemma Load_keep_count `{IndexFormat} n k k' d :
  SnapshotManager.Load n (SnapshotManager.MkMgr k d) = SnapshotManager.Load n (SnapshotManager.MkMgr k' d).
Proof. reflexivity. Qed.

(** A file holds one list of records. *)
Lemma holds_unique w base es es' : holds w base es -> holds w base es' -> es = es'.
Proof.
  assert (forall l, holds w base l -> (WalWriter.ReadAll (WalWriter.dim_ w) (WalWriter.set_io w [])).1 = Ret l) as Hread.
  { intros l [Hd Hc Hl Ht Hdm Hv Hb0 Hbd].
    destruct (WalWriter.ReadAll (WalWriter.dim_ w) (WalWriter.set_io w [])) as [r w'] eqn:E.
    destruct (ReadAll_holds (WalWriter.set_io w []) base l (WalWriter.dim_ w) r w' ltac:(by split) eq_refl E)
      as (_ & _ & Hr). exact (Hr eq_refl). }
  intros Ha Hb. apply Hread in Ha, Hb. congruence.
Qed.

(** A longer log under the same snapshots. *)
Lemma stored_grow `{IndexFormat} c h recs mgr w w' base es :
  stored c h mgr w -> holds w base es -> holds w' base (es ++ recs) -> WalWriter.dim_ w' = WalWriter.dim_ w ->
  (size (labels (h ++ recs)) <= Z.to_nat (max_elements c))%nat -> len (h ++ recs) < 2 ^ 64 ->
  stored c (h ++ recs) mgr w'.
Proof.
  intros [(pre & es0 & -> & Hh0 & Hd) (og & slsn & Hl & Hs & Hg) Hr Hn] Hh Hh' Hdim Hroom Hlen.
  assert (base = len pre) as -> by (rewrite <- (holds_base_lsn _ _ _ Hh); apply (holds_base_lsn _ _ _ Hh0)).
  rewrite (holds_base_lsn _ _ _ Hh0) in Hs. pose proof (len_nonneg recs). pose proof (len_nonneg pre).
  pose proof (holds_unique _ _ _ _ Hh0 Hh) as ->.
  split; try done.
  - exists pre, (es ++ recs). rewrite app_assoc. split; [done|]. split; [done|congruence].
  - exists og, slsn. split; [done|]. rewrite (holds_base_lsn _ _ _ Hh').
    split; [autorewrite with len in *; lia|]. destruct og as [g|]; [|done].
    rewrite take_app_le; [done|]. unfold len in Hs. lia.
Qed.

(** Reopening after a crash of a synced log. *)
Lemma New_live `{IndexFormat} c h mgr w img :
  stored c h mgr w -> synced w -> crash (WalWriter.fd_ w) img ->
  live c h (New c (f_stored img) (SnapshotManager.dir mgr) []).
Proof.
  intros Hst Hsy Hcr. apply crash_synced in Hcr; [|done]. subst img.
  pose proof Hst as [(pre & es & -> & Hh & Hd) (og & slsn & Hl & Hs & Hg) Hr Hn].
  pose proof Hh as [Hda Hc Hls Ht Hdm Hv Hb0 Hbd].
  assert (f_durable (WalWriter.fd_ w) = wal_image (WalWriter.dim_ w) (len pre) es) as Himg.
  { rewrite <- Hda. unfold f_data. by rewrite Hsy. }
  set (w2 := WalWriter.MkWal (f_stored (f_durable (WalWriter.fd_ w))) (dim c) (len es) (len pre + len es) true []).
  assert ((WalWriter.Open (f_stored (f_durable (WalWriter.fd_ w))) (dim c) []).1 = Ret w2) as Hopen.
  { unfold w2. rewrite Himg, <- Hd. unfold wal_image.
    destruct (Open_image (WalWriter.dim_ w) (len es) (len pre + len es)
      (WalWriter.MakeHeader (WalWriter.dim_ w) (len es) (len pre + len es)) (WalWriter.frames es) Hdm)
      as (tr & ec & lsn & Ho & Hch); [|apply WalWriter.Wal_MakeHeader_ok|done|].
    { pose proof (WalWriter.Wal_len_MakeHeader (WalWriter.dim_ w) (len es) (len pre + len es)) as Hm.
      unfold len, WalWriter.kHeaderSize in Hm. unfold len. lia. }
    rewrite Ho. cbn [fst]. pose proof (len_nonneg es).
    rewrite WalWriter.Wal_CheckHeader_MakeHeader in Hch by lia. by injection Hch as <- <- <-. }
  assert (holds w2 (len pre) es) as Hh2.
  { split; try done; cbn; [by rewrite Himg, Hd|by rewrite <- Hd|by rewrite <- Hd]. }
  unfold New. rewrite Hopen. set (p0 := set_wal _ w2).
  destruct (RecoverInternal p0) as [r p'] eqn:Er.
  destruct (RecoverInternal_ok c (pre ++ es) w2 p0 r p') as (_ & Hio & Hok); [|done|done|done|].
  - split; try done.
    + exists pre, es. done.
    + exists og, slsn. split; [exact Hl|]. rewrite (holds_base_lsn _ _ _ Hh2).
      rewrite (holds_base_lsn _ _ _ Hh) in Hs. done.
  - rewrite (Hio eq_refl) in *. destruct (Hok eq_refl) as ([Hi Ha] & Hcf & Hm & _ & s & Hw).
    split; cbn [config_ ready_ index_ deleted_count_ applied_lsn_ wal_ snapshot_mgr_]; [done|done|by split|].
    exists (WalWriter.set_io w2 s). split; [done|]. split; [done|]. split; try done.
    + exists pre, es. split; [done|]. split; [|done]. destruct Hh2; by split.
    + exists og, slsn. split; [rewrite Hm; exact Hl|].
      change (WalWriter.base_lsn (WalWriter.set_io w2 s)) with (WalWriter.base_lsn w2).
      rewrite (holds_base_lsn _ _ _ Hh2). rewrite (holds_base_lsn _ _ _ Hh) in Hs. done.
Qed.

(** ** The sink *)

Definition same_files (p p' : PHnsw) : Prop :=
  wal_ p' = wal_ p /\ snapshot_mgr_ p' = snapshot_mgr_ p /\ config_ p' = config_ p /\ ready_ p' = ready_ p.

Lemma Deserialize_Serialize dim e : valid dim e -> WalEntry.Deserialize (WalEntry.Serialize e) dim = Ret e.
Proof.
  intros Hv. unfold WalEntry.Deserialize.
  pose proof (WalEntry.WalEntry_DeserializeFrom_Serialize [] e [] dim dim Hv ltac:(auto)) as H.
  change (len []) with 0 in H. rewrite app_nil_r, app_nil_l, Z.add_0_l in H. rewrite H.
  cbn [run_bind fst snd]. by rewrite Z.eqb_refl.
Qed.

(** Decoding and applying a batch that was logged never fails. *)
Lemma ApplyFrames_ok n recs : forall h p,
  index_ok n h p -> Forall (valid (dim (config_ p))) recs ->
  (size (labels (h ++ recs)) <= n)%nat -> len (h ++ recs) < 2 ^ 64 ->
  exists p', ApplyFrames (WalEntry.Serialize <$> recs) p = (Ret tt, p') /\
    index_ok n (h ++ recs) p' /\ same_files p p'.
Proof.
  induction recs as [|e recs IH]; intros h p Hi HF Hr Hl.
  { exists p. rewrite app_nil_r. done. }
  inversion HF as [|? ? He HF']; subst. rewrite fmap_cons. cbn [ApplyFrames].
  rewrite Deserialize_Serialize by done.
  assert (h ++ e :: recs = (h ++ [e]) ++ recs) as Hassoc by (by rewrite <- app_assoc).
  rewrite Hassoc in *.
  destruct (ApplyEntryLocked_ok n h e p Hi) as (Hi' & W1 & W2 & W3 & W4).
  { eapply Nat.le_trans; [|exact Hr]. apply subseteq_size. rewrite (labels_app (h ++ [e])). set_solver. }
  { pose proof (len_nonneg recs). autorewrite with len in Hl. lia. }
  destruct (IH (h ++ [e]) (ApplyEntryLocked e p)) as (p' & Hp & Hip & V1 & V2 & V3 & V4);
    [done|by rewrite W3|done|done|].
  exists p'. split; [done|]. split; [done|]. unfold same_files. by rewrite V1, V2, V3, V4.
Qed.

Lemma stored_set_io `{IndexFormat} c h mgr w s : stored c h mgr w -> stored c h mgr (WalWriter.set_io w s).
Proof.
  intros [(pre & es & -> & Hh & Hd) Hs Hr Hl]. split; try done.
  exists pre, es. split; [done|]. split; [|done]. destruct Hh; by split.
Qed.

Lemma MaybeRequestSnapshotLocked_live `{IndexFormat} c h p :
  live c h p -> live c h (MaybeRequestSnapshotLocked p).
Proof.
  intros [Hc Hr [Hi Ha] (w & Hw & Hsy & Hst)]. unfold MaybeRequestSnapshotLocked. rewrite Hw.
  destruct (WalWriter.GetStats w) as [st w'] eqn:E.
  assert (exists s, w' = WalWriter.set_io w s) as [s ->].
  { unfold WalWriter.GetStats in E. destruct (sys (WalWriter.io_ w)) as [[] s]; injection E as <- <-; eauto. }
  pose proof (stored_set_io _ _ _ _ s Hst) as Hst'.
  assert (live c h (set_wal p (WalWriter.set_io w s))) as Hlive by (split; [done|done|by split|by eexists]).
  destruct st as [st| |]; [|exact Hlive..]. case_match; [exact Hlive|]. destruct Hlive as [? ? [? ?] ?]. by split.
Qed.

(** An acknowledged batch is logged, synced and applied. *)
Lemma SinkFlush_live `{IndexFormat} c h recs p p' :
  live c h p -> Forall (valid (dim c)) recs ->
  (size (labels (h ++ recs)) <= Z.to_nat (max_elements c))%nat -> len (h ++ recs) < 2 ^ 64 ->
  SinkFlush (WalEntry.Serialize <$> recs) p = (Ret tt, p') -> live c (h ++ recs) p'.
Proof.
  intros Hlv HF Hroom Hlen HS. pose proof Hlv as [Hc Hr Hi (w & Hw & Hsy & Hst)]. unfold SinkFlush in HS.
  case_decide as Hnil.
  { apply fmap_nil_inv in Hnil as ->. injection HS as <-. by rewrite app_nil_r. }
  rewrite Hw in HS. pose proof Hst as [(pre & es & -> & Hh & Hd) _ _ _].
  destruct (WalWriter.WriteBatch (WalEntry.Serialize <$> recs) w) as [st1 w1] eqn:E1.
  apply (Wal_WriteBatch_spec w (len pre) es recs) in E1 as (_ & Hd1 & _ & Hok1);
    [|done|by rewrite Hd|autorewrite with len in Hlen; lia].
  destruct (status_ok st1); [|done]. specialize (Hok1 eq_refl). cbn [negb] in HS.
  destruct (WalWriter.Sync w1) as [st2 w2] eqn:E2. apply SyncLocked_spec in E2 as ((D2 & C2 & L2 & T2) & F2).
  destruct (status_ok st2); [|done]. cbn [negb] in HS.
  assert (holds w2 (len pre) (es ++ recs)) as Hh2.
  { destruct Hok1. split; try congruence; rewrite ?F2, ?D2, ?f_data_sync; done. }
  pose proof (stored_grow c _ recs _ w w2 _ _ Hst Hh Hh2 ltac:(congruence) Hroom Hlen) as Hst2.
  destruct (ApplyFrames_ok (Z.to_nat (max_elements c)) recs (pre ++ es) (set_wal (set_wal p w1) w2))
    as (q & Hq & Hiq & V1 & V2 & V3 & V4); [destruct Hi; by split|cbn; by rewrite Hc|done|done|].
  rewrite Hq in HS. injection HS as <-. apply MaybeRequestSnapshotLocked_live.
  split; [by rewrite V3|by rewrite V4|done|].
  exists w2. rewrite V1, V2. split; [done|]. split; [|exact Hst2]. unfold synced. by rewrite F2.
Qed.

Lemma FlushBatches_live `{IndexFormat} c bs : forall h p p',
  live c h p -> Forall (Forall (valid (dim c))) bs ->
  (size (labels (h ++ concat bs)) <= Z.to_nat (max_elements c))%nat -> len (h ++ concat bs) < 2 ^ 64 ->
  FlushBatches (map (map WalEntry.Serialize) bs) p = (Ret tt, p') -> live c (h ++ concat bs) p'.
Proof.
  induction bs as [|b bs IH]; intros h p p' Hlv HF Hroom Hlen HS.
  { injection HS as <-. by rewrite app_nil_r. }
  cbn [map FlushBatches] in HS. rewrite concat_cons, app_assoc in *.
  inversion HF as [|? ? Hb HF']; subst.
  destruct (SinkFlush _ p) as [r q] eqn:Eq.
  destruct (FlushBatches _ q) as [r' q'] eqn:Eq'. 
  assert (r = Ret tt /\ r' = Ret tt /\ p' = q') as (-> & -> & ->).
  { destruct r as [[]| |], r' as [[]| |]; by injection HS. }
  apply (IH (h ++ b) q); try done. eapply SinkFlush_live; try done.
  - eapply Nat.le_trans; [|exact Hroom]. apply subseteq_size. rewrite (labels_app (h ++ b)). set_solver.
  - pose proof (len_nonneg (concat bs)). rewrite len_app in Hlen. lia.
Qed.

(** However the committer cuts the frames of one call into batches. *)
Lemma split_batches (fss : list (list bytes)) : forall recs,
  concat fss = map WalEntry.Serialize recs ->
  exists bs, fss = map (map WalEntry.Serialize) bs /\ concat bs = recs.
Proof.
  induction fss as [|fs fss IH]; intros recs E.
  { exists []. split; [done|]. by destruct recs. }
  rewrite concat_cons in E. symmetry in E. apply map_eq_app in E as (r1 & r2 & -> & <- & E2).
  destruct (IH r2 (eq_sym E2)) as (bs & -> & <-). by exists (r1 :: bs).
Qed.

Lemma SubmitFrames_all now (pts : list (list Z * Z)) : 0 <= now ->
  SubmitFrames now ((fun x => (Some x.1, x.2)) <$> pts)
  = (map WalEntry.Serialize ((fun x => WalEntry.MkWalEntry WalEntry.kInsert now x.2 x.1) <$> pts), false).
Proof.
  intros Hn. induction pts as [|[v id] pts IH]; [done|]. rewrite !fmap_cons. cbn [SubmitFrames fst snd map].
  rewrite IH. by rewrite WalEntry.SerializeInsert_stamped by done.
Qed.

(** An acknowledged [AddPoints] logged and applied all its points in order. *)
Lemma AddPoints_live `{IndexFormat} c h p p' batching now (pts : list (list Z * Z)) :
  live c h p -> 0 <= now -> (forall fs, concat (batching fs) = fs) ->
  let recs := (fun x => WalEntry.MkWalEntry WalEntry.kInsert now x.2 x.1) <$> pts in
  Forall (valid (dim c)) recs -> (size (labels (h ++ recs)) <= Z.to_nat (max_elements c))%nat ->
  len (h ++ recs) < 2 ^ 64 ->
  AddPoints batching now ((fun x => (Some x.1, x.2)) <$> pts) p = (Ret tt, p') -> live c (h ++ recs) p'.
Proof.
  intros Hlv Hn Hb recs HF Hr Hl HA. unfold AddPoints in HA. rewrite (live_ready _ _ _ Hlv) in HA. cbn [negb] in HA.
  rewrite SubmitFrames_all in HA by done. fold recs in HA.
  destruct (split_batches _ _ (Hb (map WalEntry.Serialize recs))) as (bs & Hbs & Hc). rewrite Hbs in HA.
  destruct (FlushBatches _ p) as [r q] eqn:E. injection HA as -> ->. rewrite <- Hc in *.
  eapply FlushBatches_live; try done.
  by apply Forall_concat.
Qed.

(** ** Acknowledged writes *)

Section writes.
Context `{IndexFormat}.

(** C2: a write that returned Ok is durable and visible: after an acknowledged
    [AddPoint] the graph has the vector under its block id and every other id
    as before, after an acknowledged [MarkDelete] the id is gone; and for every
    crash after that, opening the directory again gives a ready index with the
    same content.  The hypothesis [live] is what opening leaves; the
    room hypothesis says that the configured capacity covers the new id. *)
Theorem PHnsw_write_durable (c : PhnswConfig) (h : list WalEntry) (p p' : PHnsw) (now block_id : Z)
    (vec : option (list Z)) (img : bytes) :
  live c h p -> 0 <= now < 2 ^ 63 -> 0 <= block_id < 2 ^ 64 -> 0 < dim c < 2 ^ 29 ->
  (forall v, vec = Some v -> len v = dim c /\ Forall WalEntry.u32_ok v) ->
  (size ({[block_id]} ∪ labels h) <= Z.to_nat (max_elements c))%nat -> len h + 1 < 2 ^ 64 ->
  (match vec with Some v => AddPoint now vec block_id p | None => MarkDelete now block_id p end) = (Ret tt, p') ->
  match wal_ p' with Some w => crash (WalWriter.fd_ w) img | None => False end ->
  let content := match vec with
                 | Some v => <[block_id := v]> (replay h)
                 | None => delete block_id (replay h) end in
  (exists g, index_ p' = Some g /\ forall l, point g l = content !! l) /\
  let q := New c (f_stored img) (SnapshotManager.dir (snapshot_mgr_ p')) [] in
  ready_ q = true /\ exists g, index_ q = Some g /\ forall l, point g l = content !! l.
Proof.
  intros Hlv Hnow Hid Hdim Hvec Hroom Hlen HW Hcr content.
  pose (e := match vec with
             | Some v => WalEntry.MkWalEntry WalEntry.kInsert now block_id v
             | None => WalEntry.MkWalEntry WalEntry.kDelete now block_id [] end).
  assert (SinkFlush (WalEntry.Serialize <$> [e]) p = (Ret tt, p')) as HS.
  { unfold e. destruct vec as [v|]; [unfold AddPoint in HW|unfold MarkDelete in HW];
      rewrite (live_ready _ _ _ Hlv) in HW; cbn [negb] in HW.
    - by rewrite WalEntry.SerializeInsert_stamped in HW by lia.
    - by rewrite WalEntry.SerializeDelete_stamped in HW by lia. }
  assert (valid (dim c) e) as Hv.
  { unfold e. destruct vec as [v|]; [destruct (Hvec v eq_refl)|]; split; cbn; try done; try lia; constructor. }
  assert (replay (h ++ [e]) = content) as Hrep.
  { rewrite replay_snoc. unfold e, content. by destruct vec. }
  apply (SinkFlush_live c h [e]) in HS; [|done|by constructor| |autorewrite with len; lia].
  2: { rewrite labels_app. unfold labels at 2. cbn. replace (WalEntry.block_id e) with block_id by (unfold e; by destruct vec).
       by rewrite union_empty_r_L, union_comm_L. }
  pose proof HS as [_ _ [(g & Hg & [_ _ _ _ Hp _] & _) _] (w & Hw & Hsy & Hst)]. rewrite Hw in Hcr.
  split; [exists g; split; [done|]; intros l; by rewrite Hp, Hrep|].
  destruct (New_live _ _ _ _ _ Hst Hsy Hcr) as [_ Hr [(g2 & Hg2 & [_ _ _ _ Hp2 _] & _) _] _].
  split; [done|]. exists g2. split; [done|]. intros l. by rewrite Hp2, Hrep.
Qed.
(** A new snapshot of the whole history, over the old log. *)
Lemma Save_stored ts c h p g w s st mgr s' :
  live c h p -> wal_ p = Some w -> index_ p = Some g ->
  SnapshotManager.fresh_ts ts (snapshot_mgr_ p) -> 1 <= SnapshotManager.keep_count_ (snapshot_mgr_ p) ->
  (forall k s0, s <> IoShort k :: s0) ->
  SnapshotManager.Save ts g (applied_lsn_ p) (dim (config_ p)) (M (config_ p)) s (snapshot_mgr_ p) = (st, mgr, s') ->
  stored c h mgr w /\
  (status_ok st = true -> SnapshotManager.Load (Z.to_nat (max_elements c)) mgr
     = Ret (Some (reloaded (Z.to_nat (max_elements c)) g), len h)).
Proof.
  intros [Hc Hr [(g' & Hg' & Hok & Hm) Ha] (w' & Hw' & Hsy & Hst)] Hw Hg Hts Hk Hns HS.
  rewrite Hg' in Hg. injection Hg as ->. rewrite Hw' in Hw. injection Hw as ->.
  pose proof Hst as [(pre & es & -> & Hh & Hd) (og & slsn & Hl & Hs & Hgr) Hroom Hlen].
  pose proof (len_nonneg (pre ++ es)). set (n := Z.to_nat (max_elements c)) in *.
  apply (SnapshotManager.Save_spec _ _ _ _ _ _ _ _ _ _ n) in HS; [|apply Hok|done|done|lia].
  rewrite Ha in HS. destruct (status_ok st).
  - split; [|intros _; exact (HS Hns)]. split; try done; [by exists pre, es|].
    exists (Some (reloaded n g)), (len (pre ++ es)). split; [exact (HS Hns)|].
    split; [rewrite (holds_base_lsn _ _ _ Hh) in *; lia|].
    assert (take (Z.to_nat (len (pre ++ es))) (pre ++ es) = pre ++ es) as ->
      by (unfold len; rewrite Nat2Z.id; by apply take_ge).
    split; [by eapply reload_graph_ok|]. cbn [reloaded HierarchicalNSW.max_elements_]. clear Hgr. case_match; [exact Hm|done].
  - split; [|done]. split; try done; [by exists pre, es|]. exists og, slsn. split; [etrans; [exact HS|exact Hl]|done].
Qed.

(** After the log was truncated behind a snapshot of the whole history. *)
Lemma stored_truncated c h mgr w w' g :
  stored c h mgr w -> holds w' (len h) [] -> WalWriter.dim_ w' = dim c ->
  SnapshotManager.Load (Z.to_nat (max_elements c)) mgr = Ret (Some g, len h) -> stored c h mgr w'.
Proof.
  intros [_ (og & slsn & Hl & Hs & Hg) Hr Hn] Hh Hd HL. rewrite HL in Hl. injection Hl as <- <-. split; try done.
  - exists h, []. by rewrite app_nil_r.
  - exists (Some g), (len h). split; [done|]. rewrite (holds_base_lsn _ _ _ Hh). split; [lia|done].
Qed.

End writes.

(** ** What readers see *)

Lemma replay_points L h g d : graph_ok L h g d ->
  replay h = list_to_map ((fun e => (HierarchicalNSW.el_label e, HierarchicalNSW.el_data e)) <$>
    filter (fun e => HierarchicalNSW.el_deleted e = false) (HierarchicalNSW.elements g)) /\
  NoDup (HierarchicalNSW.el_label <$>
    filter (fun e => HierarchicalNSW.el_deleted e = false) (HierarchicalNSW.elements g)).
Proof.
  intros [Hw _ _ _ Hp _]. set (lv := filter _ _).
  assert (NoDup (HierarchicalNSW.el_label <$> lv)) as Hnd.
  { eapply sublist_NoDup; [exact (HierarchicalNSW.labels_NoDup g Hw)|apply fmap_sublist, sublist_filter]. }
  split; [|done]. apply map_eq. intros l. apply option_eq. intros v. rewrite <- Hp.
  rewrite <- elem_of_list_to_map by (rewrite <- list_fmap_compose; exact Hnd).
  rewrite list_elem_of_fmap. unfold point. split.
  - intros Hb. apply bind_Some in Hb as (i & Hi & Hb). apply bind_Some in Hb as (e & He & Hb).
    destruct (HierarchicalNSW.slot_of _ _ _ Hw Hi) as (e' & He' & Hl). rewrite He in He'. injection He' as <-.
    destruct (HierarchicalNSW.el_deleted e) eqn:Ed; [done|]. injection Hb as <-. exists e.
    split; [by rewrite Hl|]. apply list_elem_of_filter. split; [done|]. by eapply list_elem_of_lookup_2.
  - intros (e & [= -> ->] & Hin). apply list_elem_of_filter in Hin as [Hd [i Hi]%list_elem_of_lookup].
    assert (HierarchicalNSW.label_lookup_ g !! HierarchicalNSW.el_label e = Some i) as ->
      by (apply (HierarchicalNSW.wf_lookup _ Hw); eauto).
    simpl. rewrite Hi. simpl. by rewrite Hd.
Qed.

Lemma live_slots_count (els : list HierarchicalNSW.element) :
  len (filter (fun e => HierarchicalNSW.el_deleted e = false) els)
  = len els - len (filter (fun e => HierarchicalNSW.el_deleted e = true) els).
Proof.
  induction els as [|e els IH]; [done|]. rewrite !filter_cons, len_cons.
  destruct (HierarchicalNSW.el_deleted e); repeat case_decide; rewrite ?len_cons; congruence || lia.
Qed.

Section reads.
Context `{IndexFormat}.

(** Reads are exact: [Exists] is true of exactly the ids the history holds,
    [GetStats] reports their number as [vector_count], and the [k] asked of the
    graph search is the smaller of [top_k] and that number, so that deleted
    points never starve the result. *)
Theorem PHnsw_reads_exact (c : PhnswConfig) (h : list WalEntry) (p : PHnsw) (block_id top_k sz : Z) :
  live c h p -> 0 <= top_k ->
  Exists block_id p = bool_decide (is_Some (replay h !! block_id)) /\
  vector_count (GetStats sz p) = Z.of_nat (size (replay h)) /\
  search_k top_k p = Z.min top_k (Z.of_nat (size (replay h))).
Proof.
  intros [_ _ [(g & Hg & Hok & _) _] _] Hk. pose proof Hok as [Hw _ _ _ Hp Hd].
  destruct (replay_points _ _ _ _ Hok) as [Hrep Hnd].
  assert (Z.of_nat (size (replay h)) = Z.of_nat (HierarchicalNSW.cur_element_count g) - deleted_count_ p) as Hsz.
  { rewrite Hrep, map_size_list_to_map by (rewrite <- list_fmap_compose; exact Hnd).
    rewrite length_fmap. rewrite Hd, (HierarchicalNSW.wf_deleted _ Hw). unfold HierarchicalNSW.deleted_slots.
    pose proof (live_slots_count (HierarchicalNSW.elements g)) as Hc. unfold len, HierarchicalNSW.cur_element_count in *. lia. }
  split; [|split].
  - unfold Exists. rewrite Hg, <- Hp. unfold point, HierarchicalNSW.isMarkedDeleted.
    destruct (HierarchicalNSW.label_lookup_ g !! block_id) as [i|] eqn:Ei; [|done]. simpl.
    destruct (HierarchicalNSW.slot_of _ _ _ Hw Ei) as (e & -> & _). simpl.
    by destruct (HierarchicalNSW.el_deleted e).
  - unfold GetStats. rewrite Hg. cbn [vector_count]. unfold HierarchicalNSW.getCurrentElementCount.
    destruct (Z.ltb_spec (deleted_count_ p) (Z.of_nat (HierarchicalNSW.cur_element_count g))); lia.
  - unfold search_k. rewrite Hg. unfold HierarchicalNSW.getCurrentElementCount.
    pose proof (len_nonneg (HierarchicalNSW.deleted_slots g)) as H0.
    rewrite <- (HierarchicalNSW.wf_deleted _ Hw), <- Hd in H0.
    destruct (Z.eqb_spec (Z.of_nat (HierarchicalNSW.cur_element_count g)) 0); [lia|].
    destruct (Z.ltb_spec (deleted_count_ p) (Z.of_nat (HierarchicalNSW.cur_element_count g))); lia.
Qed.
End reads.

(** ** Concrete runs *)

(** The index opened on a directory with one logged vector. *)
Definition opened : PHnsw := New small_config (f_stored (f_data (WalWriter.fd_ logged))) [] [].

Lemma opened_live : live small_config [WalEntry.sample] opened.
Proof.
  apply (New_live small_config [WalEntry.sample] (SnapshotManager.New 2 []) logged);
    [apply logged_stored|apply logged_holds|apply crash_nothing_lost, logged_holds].
Qed.

Lemma PHnsw_write_durable_witness :
  let p' := (AddPoint 9 (Some [7; 8]) 5 opened).2 in
  let q := New small_config (f_stored (default [] ((fun w => f_data (WalWriter.fd_ w)) <$> wal_ p')))
             (SnapshotManager.dir (snapshot_mgr_ p')) [] in
  ready_ q = true /\ exists g, index_ q = Some g /\ point g 5 = Some [7; 8].
Proof.
  intros p'.
  destruct (PHnsw_write_durable small_config [WalEntry.sample] opened p' 9 5 (Some [7; 8])
    (default [] ((fun w => f_data (WalWriter.fd_ w)) <$> wal_ p'))) as [_ (Hr & g & Hi & Hp)].
  - exact opened_live.
  - lia.
  - lia.
  - vm_compute. done.
  - intros v [= <-]. split; [done|]. repeat constructor; done.
  - vm_compute. lia.
  - done.
  - vm_compute. reflexivity.
  - destruct (wal_ p') as [w|] eqn:Ew; [|vm_compute in Ew; discriminate].
    apply crash_nothing_lost. vm_compute in Ew. injection Ew as <-. reflexivity.
  - split; [exact Hr|]. exists g. split; [exact Hi|]. rewrite Hp. reflexivity.
Defined.


Lemma PHnsw_reads_exact_witness :
  Exists (2 ^ 63 + 1) opened = true /\ search_k 10 opened = 1.
Proof.
  destruct (PHnsw_reads_exact small_config [WalEntry.sample] opened (2 ^ 63 + 1) 10 0 opened_live) as (He & _ & Hk);
    [lia|]. split; [rewrite He|rewrite Hk]; vm_compute; reflexivity.
Defined.
