(* ===== verification/PhnswFaults.v ===== *)
(** * Histories in which the persistent index loses an acknowledged write

    Each theorem runs the model of src/store/phnsw.cpp on a concrete history of
    calls and faults, with the word format as the .index format, and exhibits
    an acknowledged write that is gone. *)
From S2P Require Import Prelude Status Posix WalEntryCodec WalLog WalLogTheory Hnsw Snapshot Phnsw PhnswTheory PhnswWrites.
Open Scope run_scope.

Import WalWriter(WalWriter).
Import PHnsw.

Definition the_wal (p : PHnsw) : WalWriter := default logged (wal_ p).
Definition reopen (c : PhnswConfig) (img : bytes) (p : PHnsw) : PHnsw :=
  New c (f_stored img) (SnapshotManager.dir (snapshot_mgr_ p)) [].

(** A snapshot and one acknowledged insert behind it. *)
Definition snapped : PHnsw := (Snapshot 1700 [] opened).2.
Definition behind : PHnsw := (AddPoint 9 (Some [7; 8]) 5 snapped).2.

(** The log while the next insert is written and not yet synced. *)
Definition in_flight : WalWriter :=
  (WalWriter.WriteBatch [WalEntry.SerializeInsert 6 [1; 1] 10 (-1)] (the_wal behind)).2.
Definition torn_header : bytes :=
  splice (f_durable (WalWriter.fd_ in_flight)) 0 (take 16 (WalWriter.MakeHeader 2 2 3)).

(** [RewriteHeaderLocked] overwrites the only copy of the counters in place.
    When the power fails while the header of the next append is on its way to
    the disk, [Open] does not trust it and starts from zero counts; the repair
    then numbers the records from LSN 1 and recovery skips those that carry the
    numbers of the snapshot: the insert of block 5, acknowledged and synced
    before, is not in the index, and the index reports ready. *)
Theorem Recovery_skips_synced_record_after_torn_header :
  (Snapshot 1700 [] opened).1 = Ret tt /\ (AddPoint 9 (Some [7; 8]) 5 snapped).1 = Ret tt /\
  Exists 5 behind = true /\ crash (WalWriter.fd_ in_flight) torn_header /\
  ready_ (reopen small_config torn_header behind) = true /\
  Exists 5 (reopen small_config torn_header behind) = false.
Proof.
  split; [vm_compute; reflexivity|]. split; [vm_compute; reflexivity|]. split; [vm_compute; reflexivity|].
  split; [|split; vm_compute; reflexivity].
  exists [WWrite 0 (take 16 (WalWriter.MakeHeader 2 2 3))]. split; [|reflexivity].
  assert (f_pending (WalWriter.fd_ in_flight) =
    [WWrite (len (f_durable (WalWriter.fd_ in_flight))) (WalEntry.SerializeInsert 6 [1; 1] 10 (-1));
     WWrite 0 (WalWriter.MakeHeader 2 2 3)]) as -> by (vm_compute; reflexivity).
  apply survives_lost, survives_torn, survives_nil.
Qed.

(** The log during [Truncate]: cut, and the header not rewritten yet. *)
Definition half_truncated : bytes := take 32 (f_data (WalWriter.fd_ logged)).
Definition resumed : PHnsw := reopen small_config half_truncated snapped.

(** [Truncate] cuts the file and then rewrites the header, without a sync in
    between.  A crash after the cut leaves a trusted header that counts a
    record the file no longer has; the count is not repaired, so the next
    acknowledged inserts are numbered as if they were in the snapshot and the
    recovery after them skips them. *)
Theorem Recovery_skips_records_after_half_truncate :
  crash (f_do (WalWriter.fd_ logged) (WTrunc WalWriter.kHeaderSize)) half_truncated /\
  ready_ resumed = true /\ (AddPoint 9 (Some [7; 8]) 5 resumed).1 = Ret tt /\
  let p := (AddPoint 9 (Some [7; 8]) 5 resumed).2 in
  Exists 5 p = true /\
  Exists 5 (reopen small_config (f_data (WalWriter.fd_ (the_wal p))) p) = false.
Proof.
  split; [|vm_compute; auto]. exists [WTrunc WalWriter.kHeaderSize]. split; [|vm_compute; reflexivity].
  assert (f_pending (f_do (WalWriter.fd_ logged) (WTrunc WalWriter.kHeaderSize)) = [WTrunc WalWriter.kHeaderSize])
    as -> by (vm_compute; reflexivity).
  apply survives_kept, survives_nil.
Qed.

(** A directory with two snapshots of which the newer one is damaged. *)
Definition twice : PHnsw := (Snapshot 1800 [] behind).2.
Definition rotten : list SnapshotManager.SnapshotFile :=
  SnapshotManager.put 1800 (SnapshotManager.set_index (Some [0])) (SnapshotManager.dir (snapshot_mgr_ twice)).

(** [Load] falls back to the next older snapshot, but the log was truncated
    behind the newer one and recovery does not compare the LSN of the snapshot
    with the first LSN of the log: the records between the two snapshots are
    missing and the index reports ready. *)
Theorem Recovery_from_older_snapshot_has_a_gap :
  (Snapshot 1800 [] behind).1 = Ret tt /\ Exists 5 twice = true /\
  let q := New small_config (f_stored (f_data (WalWriter.fd_ (the_wal twice)))) rotten [] in
  ready_ q = true /\ Exists (2 ^ 63 + 1) q = true /\ Exists 5 q = false /\ applied_lsn_ q = 1.
Proof. vm_compute. auto 10. Qed.

(** An index configured for one element. *)
Definition tiny_config : PhnswConfig := MkConfig 2 16 1 64 1000 2.
Definition full : PHnsw := (AddPoint 9 (Some [1; 2]) 4 (New tiny_config (f_stored []) [] [])).2.

(** When the graph is full, [addPoint] throws, [ApplyInsertLocked] logs the
    exception and goes on: the insert is acknowledged and is not visible. *)
Theorem AddPoint_acknowledged_when_full :
  Exists 4 full = true /\ (AddPoint 10 (Some [7; 8]) 5 full).1 = Ret tt /\
  Exists 5 (AddPoint 10 (Some [7; 8]) 5 full).2 = false.
Proof. vm_compute. auto. Qed.
