(* ===== verification/BlockHeader.v ===== *)
(** * Block blobs (src/store/block_header.cpp, common/block_header.h)

    A block is a packed 128-byte header followed by its text, its metadata and
    its processing chain, under a CRC that skips its own field.  zlib's [crc32]
    and OpenSSL's SHA-256 are parameters. *)
From S2P Require Import Prelude Status LittleEndian Crc32.
Open Scope run_scope.

(** zlib: [crc32(crc, buf, len)] continues a running IEEE CRC-32. *)
Class Zlib := {
  crc32 : Z -> bytes -> Z;
  crc32_running a b : crc32 (Crc32 a) b = Crc32 (a ++ b)
}.

Module BlockHeader.

Definition kBlockMagic : Z := 0x43525458.
Definition kHeaderVersion : Z := 1.
Definition kHeaderSize : Z := 128.

Definition kFlagHasContent : Z := 0x01.
Definition kFlagHasVector : Z := 0x02.
Definition kFlagHasFts : Z := 0x04.
Definition kFlagHasMetadata : Z := 0x08.
Definition kFlagHasChain : Z := 0x10.

Definition kLevelL2 : Z := 2.
Definition kLevelL3 : Z := 3.

Record cortrix_block_header_t := MkHeader {
  magic : Z; header_version : Z; header_size : Z;
  block_type : Z; processing_level : Z; flags : Z;
  content_offset : Z; content_length : Z;
  metadata_offset : Z; metadata_length : Z;
  chain_offset : Z; chain_length : Z;
  total_size : Z; content_hash_high : Z; content_hash_low : Z;
  embedding_model_id : Z; vector_dim : Z; chunk_strategy_id : Z;
  created_at_us : Z; updated_at_us : Z;
  hdr_crc32 : Z;
  flags_ext : Z; enrichment_source : Z; compression_algo : Z;
  reserved : bytes
}.

(** The packed layout: bytes 0-79, the checksum, bytes 84-127. *)
Definition head_bytes (h : cortrix_block_header_t) : bytes :=
  PutU32 (magic h) ++ PutU16 (header_version h) ++ PutU16 (header_size h)
  ++ PutU16 (block_type h) ++ PutU8 (processing_level h) ++ PutU8 (flags h)
  ++ PutU32 (content_offset h) ++ PutU32 (content_length h)
  ++ PutU32 (metadata_offset h) ++ PutU32 (metadata_length h)
  ++ PutU32 (chain_offset h) ++ PutU32 (chain_length h)
  ++ PutU32 (total_size h) ++ PutU64 (content_hash_high h) ++ PutU64 (content_hash_low h)
  ++ PutU32 (embedding_model_id h) ++ PutU16 (vector_dim h) ++ PutU16 (chunk_strategy_id h)
  ++ PutU64 (created_at_us h) ++ PutU64 (updated_at_us h).
Definition tail_bytes (h : cortrix_block_header_t) : bytes :=
  PutU8 (flags_ext h) ++ PutU8 (enrichment_source h) ++ PutU8 (compression_algo h) ++ reserved h.
Definition header_bytes (h : cortrix_block_header_t) : bytes :=
  head_bytes h ++ PutU32 (hdr_crc32 h) ++ tail_bytes h.

(** Reading the struct through a pointer into [d]. *)
Definition load_header (d : bytes) : option cortrix_block_header_t :=
  m ← GetU32 d 0; v ← GetU16 d 4; sz ← GetU16 d 6;
  bt ← GetU16 d 8; pl ← GetU8 d 10; fl ← GetU8 d 11;
  co ← GetU32 d 12; cl ← GetU32 d 16; mo ← GetU32 d 20; ml ← GetU32 d 24;
  ho ← GetU32 d 28; hl ← GetU32 d 32;
  ts ← GetU32 d 36; hh ← GetU64 d 40; hw ← GetU64 d 48;
  em ← GetU32 d 56; vd ← GetU16 d 60; cs ← GetU16 d 62;
  ca ← GetU64 d 64; ua ← GetU64 d 72; cr ← GetU32 d 80;
  fe ← GetU8 d 84; es ← GetU8 d 85; ca2 ← GetU8 d 86; rs ← sub d 87 41;
  Some (MkHeader m v sz bt pl fl co cl mo ml ho hl ts hh hw em vd cs ca ua cr fe es ca2 rs).

(** [memcpy] into the buffer; out of its bounds it is undefined. *)
Definition memcpy (buf : bytes) (off : Z) (src : bytes) : Run bytes :=
  if (0 <=? off) && (off + len src <=? len buf) then Ret (splice buf off src) else Undef.

(** One payload part: the buffer, the next free position, offset and length. *)
Definition place (buf : bytes) (abs_offset : Z) (text : bytes) : Run (bytes * Z * Z * Z) :=
  let n := u32 (len text) in
  if 0 <? n then
    let! buf := memcpy buf abs_offset (take (Z.to_nat n) text) in
    Ret (buf, u32 (abs_offset + n), u32 (abs_offset - kHeaderSize), n)
  else Ret (buf, abs_offset, 0, 0).

Definition bit_if (b : bool) (flag : Z) : Z := if b then flag else 0.

Section block.
Context `{Zlib}.
(** SHA-256 of a text; [None] when an OpenSSL call failed. *)
Variable sha256 : bytes -> option bytes.

Definition BlockComputeCrc32 (data : bytes) (l : Z) : Run Z :=
  let crc := 0 in
  let! crc := if 80 <=? l then (let! p := load (sub data 0 80) in Ret (crc32 crc p)) else Ret crc in
  let! crc := if kHeaderSize <=? l
    then (let! p := load (sub data 84 (kHeaderSize - 84)) in Ret (crc32 crc p)) else Ret crc in
  if kHeaderSize <? l
  then (let! p := load (sub data kHeaderSize (l - kHeaderSize)) in Ret (crc32 crc p))
  else Ret crc.

Definition digest_of (content : bytes) : bytes := default (replicate 32 0) (sha256 content).

(** [BlockBuild] at the clock reading [now]. *)
Definition BlockBuild (now type level : Z) (content_text metadata_json processing_chain : bytes)
    (vdim model_id fext source algo : Z) : Run bytes :=
  let content_len := u32 (len content_text) in
  let metadata_len := u32 (len metadata_json) in
  let chain_len := u32 (len processing_chain) in
  let total := u32 (kHeaderSize + content_len + metadata_len + chain_len) in
  let buf := replicate (Z.to_nat total) 0 in
  let fl := Z.lor (Z.lor (Z.lor (Z.lor
    (bit_if (0 <? content_len) kFlagHasContent) (bit_if (0 <? metadata_len) kFlagHasMetadata))
    (bit_if (0 <? chain_len) kFlagHasChain)) (bit_if (0 <? vdim) kFlagHasVector))
    (bit_if ((0 <? content_len) && ((level =? kLevelL2) || (level =? kLevelL3))) kFlagHasFts) in
  let! c := place buf kHeaderSize content_text in
  let '(buf, abs, co, cl) := c in
  let! m := place buf abs metadata_json in
  let '(buf, abs, mo, ml) := m in
  let! h := place buf abs processing_chain in
  let '(buf, _, ho, hl) := h in
  let digest := if 0 <? content_len then digest_of content_text else replicate 32 0 in
  let hdr := MkHeader kBlockMagic kHeaderVersion kHeaderSize type level fl co cl mo ml ho hl total
    (get_le (take 8 digest)) (get_le (take 8 (drop 8 digest))) model_id vdim 0 now now 0
    fext source algo (replicate 41 0) in
  let! buf := memcpy buf 0 (header_bytes hdr) in
  let! crc := BlockComputeCrc32 buf total in
  memcpy buf 80 (PutU32 crc).

(** [BlockParse]; [None] is the result [false]. *)
Definition BlockParse (data : bytes) : Run (option cortrix_block_header_t) :=
  if len data <? kHeaderSize then Ret None else
  let! h := load (load_header data) in
  if negb (magic h =? kBlockMagic) then Ret None else
  if negb (header_version h =? kHeaderVersion) then Ret None else
  if len data <? total_size h then Ret None else
  let! expected_crc := BlockComputeCrc32 data (total_size h) in
  if negb (expected_crc =? hdr_crc32 h) then Ret None else Ret (Some h).

End block.

Definition BlockTypeName (t : Z) : string :=
  match t with
  | 1 => "FILE" | 2 => "SCAN" | 3 => "DATABASE" | 4 => "AUDIO"
  | 5 => "VIDEO" | 6 => "IMAGE" | 7 => "MEMORY" | 8 => "META" | _ => "UNKNOWN"
  end.

Definition EnrichName (e : Z) : string :=
  match e with
  | 0 => "none" | 1 => "Docling" | 2 => "PaddleOCR" | 3 => "LLM" | 4 => "Vision" | _ => "unknown"
  end.

(** ** The packed layout *)

(** The values a header can hold. *)
Record header_ok (h : cortrix_block_header_t) : Prop := {
  ok_magic : 0 <= magic h < 2 ^ 32; ok_version : 0 <= header_version h < 2 ^ 16;
  ok_size : 0 <= header_size h < 2 ^ 16; ok_type : 0 <= block_type h < 2 ^ 16;
  ok_level : 0 <= processing_level h < 2 ^ 8; ok_flags : 0 <= flags h < 2 ^ 8;
  ok_co : 0 <= content_offset h < 2 ^ 32; ok_cl : 0 <= content_length h < 2 ^ 32;
  ok_mo : 0 <= metadata_offset h < 2 ^ 32; ok_ml : 0 <= metadata_length h < 2 ^ 32;
  ok_ho : 0 <= chain_offset h < 2 ^ 32; ok_hl : 0 <= chain_length h < 2 ^ 32;
  ok_total : 0 <= total_size h < 2 ^ 32; ok_hh : 0 <= content_hash_high h < 2 ^ 64;
  ok_hw : 0 <= content_hash_low h < 2 ^ 64; ok_model : 0 <= embedding_model_id h < 2 ^ 32;
  ok_dim : 0 <= vector_dim h < 2 ^ 16; ok_strategy : 0 <= chunk_strategy_id h < 2 ^ 16;
  ok_created : 0 <= created_at_us h < 2 ^ 64; ok_updated : 0 <= updated_at_us h < 2 ^ 64;
  ok_crc : 0 <= hdr_crc32 h < 2 ^ 32; ok_fext : 0 <= flags_ext h < 2 ^ 8;
  ok_source : 0 <= enrichment_source h < 2 ^ 8; ok_algo : 0 <= compression_algo h < 2 ^ 8;
  ok_reserved : len (reserved h) = 41
}.

Lemma len_head_bytes h : len (head_bytes h) = 80.
Proof. reflexivity. Qed.
Lemma len_tail_bytes h : len (reserved h) = 41 -> len (tail_bytes h) = 44.
Proof. intros Hr. unfold tail_bytes. autorewrite with len. lia. Qed.

(** The fields in order. *)
Definition fields (h : cortrix_block_header_t) : list bytes :=
  [PutU32 (magic h); PutU16 (header_version h); PutU16 (header_size h);
   PutU16 (block_type h); PutU8 (processing_level h); PutU8 (flags h);
   PutU32 (content_offset h); PutU32 (content_length h);
   PutU32 (metadata_offset h); PutU32 (metadata_length h);
   PutU32 (chain_offset h); PutU32 (chain_length h);
   PutU32 (total_size h); PutU64 (content_hash_high h); PutU64 (content_hash_low h);
   PutU32 (embedding_model_id h); PutU16 (vector_dim h); PutU16 (chunk_strategy_id h);
   PutU64 (created_at_us h); PutU64 (updated_at_us h); PutU32 (hdr_crc32 h);
   PutU8 (flags_ext h); PutU8 (enrichment_source h); PutU8 (compression_algo h); reserved h].

Lemma header_bytes_fields h : header_bytes h = concat (fields h).
Proof.
  unfold header_bytes, head_bytes, tail_bytes, fields. cbn [concat].
  rewrite <- !app_assoc. by rewrite app_nil_r.
Qed.

Lemma sub_field (cs : list bytes) (i : nat) c off n rest :
  cs !! i = Some c -> off = len (concat (take i cs)) -> n = len c ->
  sub (concat cs ++ rest) off n = Some c.
Proof.
  intros Hi -> ->. rewrite <- (take_drop_middle cs i c Hi) at 1.
  rewrite concat_app, concat_cons, <- !app_assoc. by apply sub_app.
Qed.

Ltac read_field h rest i off n :=
  rewrite (sub_field (fields h) i _ off n rest eq_refl eq_refl eq_refl).

Lemma load_header_bytes h rest : header_ok h -> load_header (header_bytes h ++ rest) = Some h.
Proof.
  intros []. rewrite header_bytes_fields. unfold load_header, GetU8, GetU16, GetU32, GetU64.
  read_field h rest 0%nat 0 4. read_field h rest 1%nat 4 2. read_field h rest 2%nat 6 2.
  read_field h rest 3%nat 8 2. read_field h rest 4%nat 10 1. read_field h rest 5%nat 11 1.
  read_field h rest 6%nat 12 4. read_field h rest 7%nat 16 4. read_field h rest 8%nat 20 4.
  read_field h rest 9%nat 24 4. read_field h rest 10%nat 28 4. read_field h rest 11%nat 32 4.
  read_field h rest 12%nat 36 4. read_field h rest 13%nat 40 8. read_field h rest 14%nat 48 8.
  read_field h rest 15%nat 56 4. read_field h rest 16%nat 60 2. read_field h rest 17%nat 62 2.
  read_field h rest 18%nat 64 8. read_field h rest 19%nat 72 8. read_field h rest 20%nat 80 4.
  read_field h rest 21%nat 84 1. read_field h rest 22%nat 85 1. read_field h rest 23%nat 86 1.
  rewrite (sub_field (fields h) 24 (reserved h) 87 41 rest eq_refl eq_refl (eq_sym ok_reserved0)).
  cbn [fmap option_fmap option_map mbind option_bind]. rewrite !get_PutU32, !get_PutU64, !get_PutU16.
  unfold PutU8. cbn [head mbind option_bind].
  rewrite !u64_small, !u32_small, !u16_small, !u8_small by assumption. by destruct h.
Qed.

Lemma load_header_inv d h :
  load_header d = Some h -> GetU32 d 36 = Some (total_size h) /\ GetU32 d 80 = Some (hdr_crc32 h).
Proof.
  unfold load_header. intros E. repeat (apply bind_Some in E as (? & ? & E)).
  injection E as <-. done.
Qed.

Lemma load_header_total d : kHeaderSize <= len d -> is_Some (load_header d).
Proof.
  unfold kHeaderSize. intros Hl. unfold load_header.
  repeat match goal with
  | |- context [GetU8 d ?o] => destruct (GetU8_is_Some d o) as [? ->]; [lia..|]
  | |- context [GetU16 d ?o] => destruct (GetU16_is_Some d o) as [? ->]; [lia..|]
  | |- context [GetU32 d ?o] => destruct (GetU32_is_Some d o) as [? ->]; [lia..|]
  | |- context [GetU64 d ?o] => destruct (GetU64_is_Some d o) as [? ->]; [lia..|]
  | |- context [sub d ?o ?n] => destruct (sub_is_Some d o n) as [? ->]; [lia..|]
  end. by eexists.
Qed.

(** ** Building *)

Lemma memcpy_ok a b c src off :
  off = len a -> len src = len b -> memcpy (a ++ b ++ c) off src = Ret (a ++ src ++ c).
Proof.
  intros -> Hl. unfold memcpy.
  rewrite (proj2 (Z.leb_le 0 (len a)) (len_nonneg a)), (proj2 (Z.leb_le (len a + len src) _)) by slen.
  cbn [andb]. rewrite splice_overwrite; [done|]. unfold len in Hl. lia.
Qed.

Lemma place_spec pre r text :
  kHeaderSize <= len pre -> len pre + len text < 2 ^ 32 ->
  place (pre ++ replicate (length text + r) 0) (len pre) text
  = Ret (pre ++ text ++ replicate r 0, len pre + len text,
         if 0 <? len text then len pre - kHeaderSize else 0, len text).
Proof.
  unfold kHeaderSize. intros Hp Hl. unfold place. pose proof (len_nonneg text). rewrite u32_small by lia.
  destruct (Z.ltb_spec 0 (len text)) as [Ht|Ht].
  - rewrite replicate_add, (memcpy_ok pre (replicate (length text) 0));
      [|done|rewrite take_ge by (unfold len; lia); by rewrite len_replicate].
    cbn [run_bind]. rewrite take_ge by (unfold len; lia). rewrite !u32_small by (unfold kHeaderSize; lia). done.
  - assert (text = []) as -> by (apply len_0_nil; lia).
    change (len []) with 0. by rewrite Z.add_0_r.
Qed.

Section proofs.
Context `{Zlib}.

Lemma BlockComputeCrc32_spec a c b p junk :
  len a = 80 -> len c = 4 -> len b = 44 ->
  BlockComputeCrc32 (a ++ c ++ b ++ p ++ junk) (kHeaderSize + len p) = Ret (Crc32 (a ++ b ++ p)).
Proof.
  intros Ha Hc Hb. unfold BlockComputeCrc32, kHeaderSize. pose proof (len_nonneg p).
  rewrite !(proj2 (Z.leb_le _ _)) by lia.
  rewrite (sub_head a) by lia. cbn [load run_bind].
  rewrite app_assoc, sub_skip, sub_head by (autorewrite with len; lia). cbn [load run_bind].
  rewrite (crc32_running [] a : crc32 0 a = Crc32 a), crc32_running.
  destruct (Z.ltb_spec 128 (128 + len p)) as [Hp|Hp].
  - rewrite sub_skip by (autorewrite with len; lia). rewrite sub_skip by (autorewrite with len; lia).
    rewrite sub_head by (autorewrite with len; lia). cbn [load run_bind]. by rewrite crc32_running, <- app_assoc.
  - assert (p = []) as -> by (apply len_0_nil; lia). by rewrite app_nil_r.
Qed.

Variable sha256 : bytes -> option bytes.

(** The header [BlockBuild] lays down, before its checksum is known. *)
Definition header_of (now type level : Z) (content metadata chain : bytes)
    (vdim model_id fext source algo crc : Z) : cortrix_block_header_t :=
  let c := len content in let m := len metadata in let h := len chain in
  MkHeader kBlockMagic kHeaderVersion kHeaderSize type level
    (Z.lor (Z.lor (Z.lor (Z.lor (bit_if (0 <? c) kFlagHasContent) (bit_if (0 <? m) kFlagHasMetadata))
      (bit_if (0 <? h) kFlagHasChain)) (bit_if (0 <? vdim) kFlagHasVector))
      (bit_if ((0 <? c) && ((level =? kLevelL2) || (level =? kLevelL3))) kFlagHasFts))
    0 c (if 0 <? m then c else 0) m (if 0 <? h then c + m else 0) h (kHeaderSize + c + m + h)
    (get_le (take 8 (if 0 <? c then digest_of sha256 content else replicate 32 0)))
    (get_le (take 8 (drop 8 (if 0 <? c then digest_of sha256 content else replicate 32 0))))
    model_id vdim 0 now now crc fext source algo (replicate 41 0).

Lemma BlockBuild_spec now type level content metadata chain vdim model_id fext source algo :
  kHeaderSize + len content + len metadata + len chain < 2 ^ 32 ->
  let h0 := header_of now type level content metadata chain vdim model_id fext source algo 0 in
  let payload := content ++ metadata ++ chain in
  let crc := Crc32 (head_bytes h0 ++ tail_bytes h0 ++ payload) in
  BlockBuild sha256 now type level content metadata chain vdim model_id fext source algo
  = Ret (header_bytes (header_of now type level content metadata chain vdim model_id fext source algo crc) ++ payload).
Proof.
  intros Ht h0 payload crc. pose proof (len_nonneg content). pose proof (len_nonneg metadata).
  pose proof (len_nonneg chain). unfold BlockBuild. rewrite !(u32_small (len _)) by (unfold kHeaderSize in *; lia).
  rewrite (u32_small (kHeaderSize + _ + _ + _)) by (unfold kHeaderSize in *; lia).
  set (z := replicate 128 0).
  assert (replicate (Z.to_nat (kHeaderSize + len content + len metadata + len chain)) 0
    = z ++ replicate (length content + (length metadata + (length chain + 0))) 0) as ->.
  { unfold z. rewrite <- replicate_add. f_equal. unfold kHeaderSize, len in *. lia. }
  assert (len z = kHeaderSize) as Hz by reflexivity.
  replace (place (z ++ _) kHeaderSize content) with
    (place (z ++ replicate (length content + (length metadata + (length chain + 0))) 0) (len z) content) by done.
  rewrite place_spec by (unfold kHeaderSize in *; lia). cbn [run_bind].
  rewrite (app_assoc z content).
  replace (len z + len content) with (len (z ++ content)) by slen.
  rewrite place_spec by (rewrite ?len_app; unfold kHeaderSize in *; lia). cbn [run_bind].
  rewrite (app_assoc (z ++ content) metadata).
  replace (len (z ++ content) + len metadata) with (len ((z ++ content) ++ metadata)) by slen.
  rewrite place_spec by (rewrite ?len_app; unfold kHeaderSize in *; lia). cbn [run_bind replicate].
  rewrite app_nil_r, <- !app_assoc. fold payload.
  rewrite !len_app, Hz, Z.sub_diag. replace (kHeaderSize + len content - kHeaderSize) with (len content) by lia.
  replace (kHeaderSize + (len content + len metadata) - kHeaderSize) with (len content + len metadata) by lia.
  assert ((if 0 <? len content then 0 else 0) = 0) as -> by (by destruct (0 <? len content)).
  set (hb := header_bytes _). assert (hb = header_bytes h0) as -> by reflexivity.
  assert (len (header_bytes h0) = 128) as Hh by reflexivity.
  rewrite <- (app_nil_l (z ++ payload)), (memcpy_ok [] z payload) by done. cbn [run_bind app].
  unfold header_bytes at 1. rewrite <- !app_assoc, <- (app_nil_r payload).
  replace (kHeaderSize + len content + len metadata + len chain) with (kHeaderSize + len payload)
    by (unfold payload; slen).
  rewrite BlockComputeCrc32_spec by reflexivity. cbn [run_bind]. rewrite !app_nil_r. fold crc.
  unfold header_bytes. rewrite <- !app_assoc.
  by rewrite (memcpy_ok (head_bytes h0) (PutU32 (hdr_crc32 h0))) by reflexivity.
Qed.

(** What the callers pass. *)
Record inputs_ok (now type level vdim model_id fext source algo : Z) : Prop := {
  in_now : 0 <= now < 2 ^ 64; in_type : 0 <= type < 2 ^ 16; in_level : 0 <= level < 2 ^ 8;
  in_dim : 0 <= vdim < 2 ^ 16; in_model : 0 <= model_id < 2 ^ 32; in_fext : 0 <= fext < 2 ^ 8;
  in_source : 0 <= source < 2 ^ 8; in_algo : 0 <= algo < 2 ^ 8
}.

(** SHA-256 yields bytes. *)
Hypothesis sha256_bytes : forall t d, sha256 t = Some d -> bytes_ok d.

Lemma hash_word_range (d : bytes) k : bytes_ok d -> 0 <= get_le (take 8 (drop k d)) < 2 ^ 64.
Proof.
  intros Hd. pose proof (get_le_range (take 8 (drop k d)) ltac:(by apply Forall_take, Forall_drop)) as Hr.
  assert (256 ^ len (take 8 (drop k d)) <= 256 ^ 8) as Hp.
  { apply Z.pow_le_mono_r; [lia|]. rewrite len_take. lia. }
  change (256 ^ 8) with (2 ^ 64) in Hp. lia.
Qed.

Lemma header_of_ok now type level content metadata chain vdim model_id fext source algo crc :
  inputs_ok now type level vdim model_id fext source algo -> 0 <= crc < 2 ^ 32 ->
  kHeaderSize + len content + len metadata + len chain < 2 ^ 32 ->
  header_ok (header_of now type level content metadata chain vdim model_id fext source algo crc).
Proof.
  intros [] Hc Ht. pose proof (len_nonneg content). pose proof (len_nonneg metadata). pose proof (len_nonneg chain).
  assert (forall b : bool, bytes_ok (if b then digest_of sha256 content else replicate 32 0)) as Hd.
  { intros []; [|by apply Forall_replicate]. unfold digest_of.
    destruct (sha256 content) eqn:E; [by apply (sha256_bytes content)|by apply Forall_replicate]. }
  unfold kHeaderSize in *.
  split; cbn -[Z.pow len get_le take drop]; try assumption; try lia;
    try (apply (hash_word_range _ 0), Hd); try (apply hash_word_range, Hd); try done.
  all: try (case_match; lia).
  - unfold bit_if. repeat case_match; vm_compute; intuition congruence.
  - unfold kHeaderSize. lia.
Qed.

Lemma sub_empty (d : bytes) off : 0 <= off <= len d -> sub d off (len (@nil Z)) = Some [].
Proof. intros. change (len []) with 0. unfold sub. rewrite decide_True by lia. done. Qed.

(** Reading a payload part back. *)
Definition part (blob : bytes) (off n : Z) : option bytes := sub blob (kHeaderSize + off) n.

Lemma parts_of h a b c :
  len (reserved h) = 41 ->
  part (header_bytes h ++ a ++ b ++ c) 0 (len a) = Some a /\
  part (header_bytes h ++ a ++ b ++ c) (if 0 <? len b then len a else 0) (len b) = Some b /\
  part (header_bytes h ++ a ++ b ++ c) (if 0 <? len c then len a + len b else 0) (len c) = Some c.
Proof.
  intros Hr. assert (len (header_bytes h) = 128) as Hh.
  { unfold header_bytes. rewrite !len_app, len_head_bytes, len_tail_bytes by done. reflexivity. }
  unfold part, kHeaderSize. pose proof (len_nonneg a). pose proof (len_nonneg b). pose proof (len_nonneg c).
  assert (forall l : bytes, ~ 0 < len l -> l = []) as Hnil by (intros l ?; apply len_0_nil; pose proof (len_nonneg l); lia).
  split; [|split].
  - rewrite sub_skip, sub_head by lia. done.
  - destruct (Z.ltb_spec 0 (len b)) as [Hb|Hb].
    + rewrite sub_skip, sub_skip, sub_head by lia. done.
    + rewrite (Hnil b) by lia. apply sub_empty. rewrite !len_app. change (len []) with 0. lia.
  - destruct (Z.ltb_spec 0 (len c)) as [Hb|Hb].
    + rewrite <- (app_nil_r c) at 1. rewrite sub_skip, sub_skip, sub_skip, sub_head by lia. done.
    + rewrite (Hnil c) by lia. apply sub_empty. rewrite !len_app. change (len []) with 0. lia.
Qed.

Lemma BlockParse_built h p junk :
  header_ok h -> magic h = kBlockMagic -> header_version h = kHeaderVersion ->
  total_size h = kHeaderSize + len p -> hdr_crc32 h = Crc32 (head_bytes h ++ tail_bytes h ++ p) ->
  BlockParse (header_bytes h ++ p ++ junk) = Ret (Some h).
Proof.
  intros Hok Hm Hv Ht Hc. pose proof (ok_reserved _ Hok) as Hr.
  pose proof (len_nonneg p). pose proof (len_nonneg junk).
  assert (len (header_bytes h) = 128) as Hh.
  { unfold header_bytes. rewrite !len_app, len_head_bytes, len_tail_bytes by done. reflexivity. }
  unfold BlockParse. rewrite (proj2 (Z.ltb_ge (len (header_bytes h ++ p ++ junk)) kHeaderSize))
    by (rewrite !len_app; unfold kHeaderSize; lia).
  rewrite load_header_bytes by done. cbn [load run_bind]. rewrite Hm, Hv, !Z.eqb_refl. cbn [negb].
  rewrite (proj2 (Z.ltb_ge (len (header_bytes h ++ p ++ junk)) (total_size h)))
    by (rewrite !len_app, Ht; unfold kHeaderSize; lia).
  rewrite Ht. unfold header_bytes. rewrite <- !app_assoc.
  rewrite BlockComputeCrc32_spec by (reflexivity || by apply len_tail_bytes). cbn [run_bind].
  by rewrite Hc, Z.eqb_refl.
Qed.

Lemma sub_insert_outside (d : bytes) (i : nat) y off n :
  (Z.of_nat i < off \/ off + n <= Z.of_nat i) -> sub (<[i := y]> d) off n = sub d off n.
Proof.
  intros Hi. unfold sub, len. rewrite length_insert. case_decide as Hd; [|done]. f_equal.
  apply list_eq. intros k. destruct (decide (k < Z.to_nat n)%nat) as [Hk|Hk].
  - rewrite !lookup_take_lt by done. rewrite !lookup_drop. apply list_lookup_insert_ne. lia.
  - rewrite !lookup_take_ge by lia. done.
Qed.

Lemma get_le_inj (c d : bytes) : bytes_ok c -> bytes_ok d -> len c = len d -> get_le c = get_le d -> c = d.
Proof. intros Hc Hd Hl E. rewrite <- (put_get_le c Hc), <- (put_get_le d Hd). congruence. Qed.

(** A changed byte of the four parts of a blob. *)
Lemma insert_parts (a c b p : bytes) (i : nat) (y : Z) :
  len a = 80 -> len c = 4 -> len b = 44 -> (i < length (a ++ c ++ b ++ p))%nat ->
  exists a' c' b' p', <[i := y]> (a ++ c ++ b ++ p) = a' ++ c' ++ b' ++ p' /\
    len a' = 80 /\ len c' = 4 /\ len b' = 44 /\ len p' = len p /\
    ((c' = c /\ exists j, a' ++ b' ++ p' = <[j := y]> (a ++ b ++ p) /\ (a ++ b ++ p) !! j = (a ++ c ++ b ++ p) !! i) \/
     (a' = a /\ b' = b /\ p' = p /\ exists j, c' = <[j := y]> c /\ c !! j = (a ++ c ++ b ++ p) !! i)).
Proof.
  intros Ha Hc Hb Hi. assert (length a = 80 /\ length c = 4 /\ length b = 44)%nat as (Na & Nc & Nb)
    by (unfold len in *; lia).
  destruct (decide (i < 80)%nat) as [H1|H1].
  { exists (<[i := y]> a), c, b, p. rewrite insert_app_l by lia. unfold len. rewrite length_insert.
    repeat split; try lia. left. split; [done|]. exists i. rewrite insert_app_l, !lookup_app_l by lia. done. }
  destruct (decide (i < 84)%nat) as [H2|H2].
  { exists a, (<[(i - 80)%nat := y]> c), b, p.
    rewrite insert_app_r_alt, Na, insert_app_l by lia. unfold len. rewrite length_insert.
    repeat split; try lia. right. repeat split; try done. exists (i - 80)%nat.
    rewrite lookup_app_r, Na, lookup_app_l by lia. done. }
  exists a, c, (take 44 (<[(i - 84)%nat := y]> (b ++ p))), (drop 44 (<[(i - 84)%nat := y]> (b ++ p))).
  assert (length (<[(i - 84)%nat := y]> (b ++ p)) = 44 + length p)%nat as Hl by (rewrite length_insert, length_app; lia).
  rewrite take_drop. rewrite insert_app_r_alt, Na, insert_app_r_alt, Nc by lia.
  replace (i - 80 - 4)%nat with (i - 84)%nat by lia.
  unfold len. rewrite length_take, length_drop, Hl. repeat split; try lia.
  left. split; [done|]. exists (i - 4)%nat.
  rewrite (insert_app_r_alt a (b ++ p)), Na by lia. replace (i - 4 - 80)%nat with (i - 84)%nat by lia. split; [done|].
  rewrite (lookup_app_r a (b ++ p)), (lookup_app_r a (c ++ b ++ p)), (lookup_app_r c) by lia. f_equal. lia.
Qed.

(** A header whose size field is intact and whose checksum does not match is
    rejected. *)
Lemma BlockParse_rejects a c b p :
  len a = 80 -> len c = 4 -> len b = 44 ->
  GetU32 (a ++ c ++ b ++ p) 36 = Some (kHeaderSize + len p) -> get_le c <> Crc32 (a ++ b ++ p) ->
  BlockParse (a ++ c ++ b ++ p) = Ret None.
Proof.
  intros Ha Hc Hb Ht Hne. pose proof (len_nonneg p).
  assert (len (a ++ c ++ b ++ p) = kHeaderSize + len p) as Hl by (rewrite !len_app; unfold kHeaderSize; lia).
  unfold BlockParse. rewrite Hl, (proj2 (Z.ltb_ge _ _)) by lia.
  destruct (load_header_total (a ++ c ++ b ++ p)) as [h Hh]; [rewrite Hl; lia|]. rewrite Hh. cbn [load run_bind].
  apply load_header_inv in Hh as [Hts Hcr]. rewrite Ht in Hts. injection Hts as <-.
  destruct (magic h =? kBlockMagic); [|done]. destruct (header_version h =? kHeaderVersion); [|done].
  cbn [negb]. rewrite Z.ltb_irrefl. rewrite <- (app_nil_r p) at 1.
  rewrite BlockComputeCrc32_spec by done. cbn [run_bind].
  unfold GetU32 in Hcr. rewrite (sub_app a c (b ++ p)) in Hcr by lia. injection Hcr as <-.
  by rewrite (proj2 (Z.eqb_neq _ _)) by done.
Qed.

(** A block blob reads back: for all texts that fit, [BlockBuild] is
    defined and [BlockParse] accepts its result, whatever bytes follow it in the
    buffer, with the type, level, model and flags that were put in and with
    offsets at which the three texts are found; and a blob of which any one byte
    outside the size field was changed is rejected. *)
Theorem Block_roundtrip now type level content metadata chain vdim model_id fext source algo (junk : bytes) :
  inputs_ok now type level vdim model_id fext source algo ->
  bytes_ok content -> bytes_ok metadata -> bytes_ok chain ->
  kHeaderSize + len content + len metadata + len chain < 2 ^ 32 ->
  exists blob h,
    BlockBuild sha256 now type level content metadata chain vdim model_id fext source algo = Ret blob /\
    BlockParse (blob ++ junk) = Ret (Some h) /\
    (block_type h, processing_level h, vector_dim h, embedding_model_id h) = (type, level, vdim, model_id) /\
    (flags_ext h, enrichment_source h, compression_algo h, total_size h) = (fext, source, algo, len blob) /\
    part blob (content_offset h) (content_length h) = Some content /\
    part blob (metadata_offset h) (metadata_length h) = Some metadata /\
    part blob (chain_offset h) (chain_length h) = Some chain /\
    Z.testbit (flags h) 2 = (0 <? len content) && ((level =? kLevelL2) || (level =? kLevelL3)) /\
    forall (i : nat) (x y : Z), blob !! i = Some x -> byte_ok y -> x <> y -> ~ (36 <= i < 40)%nat ->
      BlockParse (<[i := y]> blob) = Ret None.
Proof.
  intros Hin Hbc Hbm Hbh Ht.
  set (h0 := header_of now type level content metadata chain vdim model_id fext source algo 0).
  set (payload := content ++ metadata ++ chain).
  set (crc := Crc32 (head_bytes h0 ++ tail_bytes h0 ++ payload)).
  set (h := header_of now type level content metadata chain vdim model_id fext source algo crc).
  assert (header_ok h) as Hok by (apply header_of_ok; [done|apply Crc32_range|done]).
  assert (total_size h = kHeaderSize + len payload) as Hts by (unfold payload; cbn; rewrite !len_app; lia).
  exists (header_bytes h ++ payload), h.
  split; [by apply BlockBuild_spec|]. split; [rewrite <- app_assoc; by apply BlockParse_built|].
  split; [done|]. split; [rewrite Hts, len_app; done|].
  destruct (parts_of h content metadata chain eq_refl) as (P1 & P2 & P3).
  split; [exact P1|]. split; [exact P2|]. split; [exact P3|]. split.
  { cbn [flags header_of h]. rewrite !Z.lor_spec. unfold bit_if.
    destruct (0 <? len content), (0 <? len metadata), (0 <? len chain), (0 <? vdim),
      (level =? kLevelL2), (level =? kLevelL3); reflexivity. }
  intros i x y Hx Hy Hne Hi. unfold header_bytes in *. rewrite <- !app_assoc in *.
  set (a := head_bytes h) in *. set (b := tail_bytes h) in *. set (c := PutU32 (hdr_crc32 h)) in *.
  assert (len b = 44) as Hlb by reflexivity.
  assert (get_le c = Crc32 (a ++ b ++ payload)) as Hgc
    by (unfold c; rewrite get_PutU32; apply u32_small, Crc32_range).
  assert (bytes_ok (a ++ b ++ payload) /\ bytes_ok c) as [Hbok Hcok].
  { unfold a, b, c, payload, head_bytes, tail_bytes. rewrite !bytes_ok_app.
    repeat split; try apply put_le_ok; try apply PutU8_ok; try done. by apply Forall_replicate. }
  destruct (insert_parts a c b payload i y eq_refl eq_refl Hlb (lookup_lt_Some _ _ _ Hx))
    as (a' & c' & b' & p' & Heq & La & Lc & Lb & Lp & Hcase).
  assert (GetU32 (a' ++ c' ++ b' ++ p') 36 = Some (kHeaderSize + len p')) as H36.
  { rewrite <- Heq, Lp, <- Hts. unfold GetU32. rewrite sub_insert_outside by lia.
    pose proof (load_header_bytes h payload Hok) as Hld. unfold header_bytes in Hld. rewrite <- !app_assoc in Hld.
    exact (proj1 (load_header_inv _ _ Hld)). }
  rewrite Heq. apply BlockParse_rejects; try done.
  destruct Hcase as [(-> & j & -> & Hj)|(-> & -> & -> & j & -> & Hj)]; rewrite Hx in Hj.
  - rewrite Hgc. intros E. symmetry in E. revert E. by eapply Crc32_detects_insert.
  - rewrite <- Hgc. intros E. apply get_le_inj in E; [|by apply Forall_insert|done|done].
    pose proof (lookup_lt_Some _ _ _ Hj) as Hlt. apply Hne.
    rewrite <- E, list_lookup_insert_eq in Hj by done. congruence.
Qed.
End proofs.

(** zlib as the documented algorithm, and a constant digest. *)
#[local] Program Instance zlib_ieee : Zlib := {|
  crc32 c b := Z.lxor (foldl crc_step (Z.lxor c 0xFFFFFFFF) b) 0xFFFFFFFF
|}.
Next Obligation.
  intros a b. unfold Crc32. rewrite Z.lxor_assoc, Z.lxor_nilpotent, Z.lxor_0_r. by rewrite <- foldl_app.
Qed.

Definition no_digest : bytes -> option bytes := fun _ => None.

Lemma Block_roundtrip_witness :
  exists blob h, BlockBuild no_digest 1700000000 1 2 [72; 105] [123; 125] [] 3 7 0 0 0 = Ret blob /\
    BlockParse (blob ++ [1; 2; 3]) = Ret (Some h) /\ part blob (metadata_offset h) (metadata_length h) = Some [123; 125].
Proof.
  destruct (Block_roundtrip no_digest ltac:(done) 1700000000 1 2 [72; 105] [123; 125] [] 3 7 0 0 0 [1; 2; 3])
    as (blob & h & Hb & Hp & _ & _ & _ & Hm & _).
  - split; lia.
  - repeat constructor; done.
  - repeat constructor; done.
  - constructor.
  - reflexivity.
  - exists blob, h. auto.
Defined.

End BlockHeader.
