(* ===== verification/SparseCodec.v ===== *)
(** * Sparse vectors on disk (src/retrieval/sparse_codec.cpp)

    A [std::map<uint32_t, float>] is the list of its entries in key order; a
    weight is its 32-bit pattern, which the codec only copies. *)
From stdpp Require Import pretty.
From S2P Require Import Prelude Status LittleEndian.
Open Scope run_scope.

(** ** Error identities (src/retrieval/sparse_error.cpp) *)

Module SparseError.

Inductive SparseErrorCode :=
| kInferenceFailed | kSparseSerializeFailed | kInvertedIndexWriteFailed
| kSparseRetrieverFailed | kOnnxRuntimeInitFailed.

Inductive ErrorCategory := kTransient | kPermanent.

Record SparseErrorInfo := MkInfo {
  cx_code : string; category : ErrorCategory; retryable : bool; retry_after_ms : option Z }.

Definition GetSparseErrorInfo (code : SparseErrorCode) : SparseErrorInfo :=
  match code with
  | kInferenceFailed => MkInfo "CX_ERR_F40_INFERENCE_FAILED" kTransient true (Some 500)
  | kSparseSerializeFailed => MkInfo "CX_ERR_F40_SPARSE_SERIALIZE_FAILED" kTransient true (Some 100)
  | kInvertedIndexWriteFailed => MkInfo "CX_ERR_F40_INVERTED_INDEX_WRITE_FAILED" kTransient true (Some 1000)
  | kSparseRetrieverFailed => MkInfo "CX_ERR_F40_SPARSE_RETRIEVER_FAILED" kTransient true (Some 200)
  | kOnnxRuntimeInitFailed => MkInfo "CX_ERR_F40_ONNX_RUNTIME_INIT_FAILED" kPermanent false None
  end.

Definition SparseErrorCodeString (code : SparseErrorCode) : string := cx_code (GetSparseErrorInfo code).

Definition SparseErrorToStatusCode (code : SparseErrorCode) : StatusCode :=
  match code with
  | kOnnxRuntimeInitFailed => kInvalidArgument
  | _ => kUnavailable
  end.

Definition SparseStatus (code : SparseErrorCode) (detail : string) : Status :=
  let cx := SparseErrorCodeString code in
  MkStatus (SparseErrorToStatusCode code)
    (if decide (detail = "") then cx else (cx +:+ ": " +:+ detail)%string).

End SparseError.

Module SparseCodec.

Record SparseVector := MkSparse { terms : list (Z * Z) }.

(** The invariant of [std::map]: keys strictly ascending. *)
Definition sorted (l : list (Z * Z)) : Prop := StronglySorted (fun a b => a.1 < b.1) l.

(** [terms[term_id] = weight]. *)
Fixpoint map_set (k w : Z) (l : list (Z * Z)) : list (Z * Z) :=
  match l with
  | [] => [(k, w)]
  | (k', w') :: r =>
      if k <? k' then (k, w) :: l else if k =? k' then (k, w) :: r else (k', w') :: map_set k w r
  end.

Definition SerializedSparseVecSize (vec : SparseVector) : Z := 2 + len (terms vec) * 6.

Definition put_term (t : Z * Z) : bytes := PutU16 t.1 ++ PutU32 t.2.

(** The result and the value stored through [ok]. *)
Definition SerializeSparseVec (vec : SparseVector) : bytes * bool :=
  if 0xFFFF <? len (terms vec) then ([], false)
  else if existsb (fun t => 0xFFFF <? t.1) (terms vec) then ([], false)
  else (PutU16 (u16 (len (terms vec))) ++ concat (put_term <$> terms vec), true).

Definition serialize_failed (detail : string) : Status :=
  SparseError.SparseStatus SparseError.kSparseSerializeFailed detail.

Definition size_detail (what : string) (num_terms expected have : Z) : string :=
  ("blob " +:+ what +:+ ": declared " +:+ pretty num_terms +:+ " terms need " +:+ pretty expected
   +:+ " bytes, have " +:+ pretty have)%string.

(** The read loop. *)
Fixpoint read_terms (n : nat) (data : bytes) (off : Z) (acc : list (Z * Z)) : Run (list (Z * Z)) :=
  match n with
  | O => Ret acc
  | S n =>
      let! term_id := load (GetU16 data off) in
      let! weight := load (GetU32 data (off + 2)) in
      read_terms n data (off + 6) (map_set term_id weight acc)
  end.

(** [DeserializeSparseVec(data, len)]; an empty buffer is also what a null
    pointer or a NULL column gives. *)
Definition DeserializeSparseVec (data : bytes) : Run SparseVector :=
  if len data =? 0 then Ret (MkSparse []) else
  if len data <? 2 then Fail (serialize_failed "blob too short for num_terms header") else
  let! num_terms := load (GetU16 data 0) in
  let expected := 2 + num_terms * 6 in
  if len data <? expected then Fail (serialize_failed (size_detail "truncated" num_terms expected (len data))) else
  if expected <? len data then Fail (serialize_failed (size_detail "oversize" num_terms expected (len data))) else
  let! l := read_terms (Z.to_nat num_terms) data 2 [] in
  Ret (MkSparse l).

(** ** What is read back *)

Definition entry_ok (t : Z * Z) : Prop := 0 <= t.1 <= 0xFFFF /\ 0 <= t.2 < 2 ^ 32.

Lemma map_set_last k w l : Forall (fun t => t.1 < k) l -> map_set k w l = l ++ [(k, w)].
Proof.
  induction 1 as [|[k' w'] l Hk HF IH]; [done|]. cbn [map_set fst] in *.
  rewrite (proj2 (Z.ltb_ge _ _)), (proj2 (Z.eqb_neq _ _)) by lia. by rewrite IH.
Qed.

Lemma Forall_map_set (P : Z * Z -> Prop) k w l : P (k, w) -> Forall P l -> Forall P (map_set k w l).
Proof.
  intros Hk. induction 1 as [|[k' w'] l Hp HF IH]; cbn [map_set]; [by constructor|].
  repeat case_match; repeat constructor; done.
Qed.

Lemma map_set_sorted k w l : sorted l -> sorted (map_set k w l).
Proof.
  induction 1 as [|[k' w'] l Hs IH HF]; cbn [map_set]; [repeat constructor|].
  destruct (Z.ltb_spec k k') as [Hlt|Hge].
  - constructor; [by constructor|]. constructor; [done|].
    eapply Forall_impl; [exact HF|]. simpl. intros [] ?. simpl in *. lia.
  - destruct (Z.eqb_spec k k') as [->|Hne]; [by constructor|].
    constructor; [done|]. apply Forall_map_set; [simpl; lia|done].
Qed.

Lemma len_put_terms l : len (concat (put_term <$> l)) = 6 * len l.
Proof. induction l as [|t l IH]; [done|]. rewrite fmap_cons, concat_cons. unfold put_term at 1. slen. Qed.

Lemma read_terms_put l : forall pre off acc,
  off = len pre -> Forall entry_ok l -> sorted (acc ++ l) ->
  read_terms (length l) (pre ++ concat (put_term <$> l)) off acc = Ret (acc ++ l).
Proof.
  induction l as [|[k w] l IH]; intros pre off acc -> HF Hs;
    cbn [length read_terms]; [by rewrite (app_nil_r acc)|].
  inversion HF as [|? ? [Hk Hw] HF']; subst. cbn [fst snd] in *. rewrite fmap_cons, concat_cons.
  change (put_term (k, w)) with (PutU16 k ++ PutU32 w). cbn [length read_terms]. rewrite <- app_assoc.
  rewrite GetU16_put by done. cbn [load run_bind]. rewrite (app_assoc pre), GetU32_put by slen. cbn [load run_bind].
  rewrite u16_small, u32_small by lia. rewrite map_set_last.
  - assert (acc ++ (k, w) :: l = (acc ++ [(k, w)]) ++ l) as Hassoc by (by rewrite <- app_assoc).
    rewrite Hassoc in *. rewrite (app_assoc (pre ++ _)). apply IH; [slen|done|done].
  - apply Forall_forall. intros t Ht. apply StronglySorted_app in Hs as (Hs & _ & _).
    exact (Hs t (k, w) Ht ltac:(set_solver)).
Qed.

Lemma read_terms_total n : forall data off acc,
  0 <= off -> off + 6 * Z.of_nat n <= len data -> sorted acc ->
  exists l, read_terms n data off acc = Ret l /\ sorted l.
Proof.
  induction n as [|n IH]; intros data off acc Ho Hl Hs; cbn [read_terms]; [eauto|].
  destruct (GetU16_is_Some data off) as [k ->]; [lia..|]. cbn [load run_bind].
  destruct (GetU32_is_Some data (off + 2)) as [w ->]; [lia..|]. cbn [load run_bind].
  apply IH; [lia|lia|by apply map_set_sorted].
Qed.

Lemma DeserializeSparseVec_safe blob :
  bytes_ok blob ->
  match DeserializeSparseVec blob with Ret v => sorted (terms v) | Fail _ => True | Undef => False end.
Proof.
  intros Hok. pose proof (len_nonneg blob). unfold DeserializeSparseVec.
  destruct (Z.eqb_spec (len blob) 0) as [|Hn0]; [constructor|]. destruct (Z.ltb_spec (len blob) 2); [done|].
  destruct (GetU16_is_Some blob 0) as [n Hn]; [lia..|]. rewrite Hn. cbn [load run_bind].
  apply GetU16_range in Hn; [|done].
  destruct (Z.ltb_spec (len blob) (2 + n * 6)); [done|].
  destruct (Z.ltb_spec (2 + n * 6) (len blob)); [done|].
  destruct (read_terms_total (Z.to_nat n) blob 2 []) as (l & -> & Hl); [lia|lia|constructor|]. done.
Qed.

(** Round trip and robustness of the sparse-vector codec: a vector whose ids
    fit 16 bits is written in the announced size and read back unchanged; any
    other blob gives a well-formed vector or an error, never a read outside the
    buffer; and a blob of a length other than the declared one is an error. *)
Theorem SparseVec_roundtrip (vec : SparseVector) (blob : bytes) :
  sorted (terms vec) -> Forall entry_ok (terms vec) -> len (terms vec) <= 0xFFFF -> bytes_ok blob ->
  let '(out, ok) := SerializeSparseVec vec in
  ok = true /\ len out = SerializedSparseVecSize vec /\ DeserializeSparseVec out = Ret vec /\
  match DeserializeSparseVec blob with
  | Ret v => sorted (terms v)
  | Fail _ => True
  | Undef => False
  end /\
  forall n, GetU16 blob 0 = Some n -> len blob <> 2 + 6 * n -> exists st, DeserializeSparseVec blob = Fail st.
Proof.
  intros Hs HF Hl Hok. unfold SerializeSparseVec. rewrite (proj2 (Z.ltb_ge _ _)) by lia.
  assert (existsb (fun t => 0xFFFF <? t.1) (terms vec) = false) as ->.
  { apply not_true_iff_false. intros (t & Ht & Hlt)%existsb_exists. apply Z.ltb_lt in Hlt.
    apply list_elem_of_In in Ht. rewrite Forall_forall in HF. destruct (HF t Ht). lia. }
  pose proof (len_nonneg (terms vec)).
  rewrite (u16_small (len (terms vec))) by lia. set (out := PutU16 _ ++ _). assert (len out = 2 + 6 * len (terms vec)) as Hlo
    by (unfold out; rewrite len_app, len_put_terms; reflexivity).
  split; [done|]. split; [unfold SerializedSparseVecSize; lia|]. split; [|split].
  - unfold DeserializeSparseVec. rewrite Hlo, (proj2 (Z.eqb_neq _ _)), (proj2 (Z.ltb_ge _ _)) by lia.
    unfold out at 1. rewrite GetU16_head by done. cbn [load run_bind]. rewrite u16_small by lia.
    rewrite !(proj2 (Z.ltb_ge _ _)) by lia. unfold len at 1. rewrite Nat2Z.id. unfold out.
    rewrite read_terms_put by (done || by rewrite app_nil_l). cbn [run_bind app]. by destruct vec.
  - apply DeserializeSparseVec_safe. done.
  - intros n Hn Hne. unfold DeserializeSparseVec.
    assert (is_Some (GetU16 blob 0)) as Hsome by (by rewrite Hn).
    assert (2 <= len blob) as H2.
    { unfold GetU16, sub in Hn. case_decide as Hd; [lia|done]. }
    rewrite (proj2 (Z.eqb_neq _ _)), (proj2 (Z.ltb_ge _ _)), Hn by lia. cbn [load run_bind].
    destruct (Z.ltb_spec (len blob) (2 + n * 6)); [eauto|].
    rewrite (proj2 (Z.ltb_lt _ _)) by lia. eauto.
Qed.

Lemma SparseVec_roundtrip_witness :
  DeserializeSparseVec (SerializeSparseVec (MkSparse [(3, 1065353216); (70, 1056964608)])).1
  = Ret (MkSparse [(3, 1065353216); (70, 1056964608)]).
Proof.
  pose proof (SparseVec_roundtrip (MkSparse [(3, 1065353216); (70, 1056964608)]) []) as H.
  destruct (SerializeSparseVec _) as [out ok] eqn:E. destruct H as (_ & _ & H & _).
  - repeat constructor.
  - repeat constructor; done.
  - done.
  - constructor.
  - exact H.
Defined.

(** A vector that cannot be represented leaves an empty buffer, and an empty
    buffer reads back as the empty vector: a caller that does not pass [ok]
    loses the vector without an error. *)
Theorem SparseVec_rejected_reads_as_empty :
  let '(out, ok) := SerializeSparseVec (MkSparse [(65536, 1065353216)]) in
  ok = false /\ DeserializeSparseVec out = Ret (MkSparse []).
Proof. vm_compute. auto. Qed.

End SparseCodec.
