(* ===== verification/BloomFilter.v ===== *)
(** * The catalog's Bloom filter (src/catalog/bloom_filter.cpp)

    The filter guards the file-hash table of the catalog: "absent" must be
    reliable.  The words of the bit array are 64-bit integers, the hashes wrap
    at 64 bits.  SQLite is the sequence of results its calls return; the number
    of hash functions that the constructor derives from the target rate by
    floating-point logarithm is an argument of [New]. *)
From S2P Require Import Prelude Status.

Module BloomFilter.

Record BloomFilter := MkBloom {
  num_bits_ : Z;
  num_hashes_ : Z;
  words_ : list Z;
  added_count_ : Z;
  ready_ : bool;
  load_progress_ : Z * Z; (* a quotient *)
  last_rebuild_ms_ : Z;
  total_checks_ : Z;
  false_positive_count_ : Z
}.

(** One round of the FNV-1a loop, and the final avalanche. *)
Definition fnv_round (h c : Z) : Z := u64 (Z.lxor h c * 1099511628211).
Definition avalanche (h : Z) : Z :=
  let h := Z.lxor h (Z.shiftr h 33) in
  let h := u64 (h * 0xff51afd7ed558ccd) in
  Z.lxor h (Z.shiftr h 33).
Definition Fnv1a (salt : Z) (key : bytes) : Z :=
  avalanche (foldl fnv_round (Z.lxor 1469598103934665603 salt) key).

(** The constructor; [k] is [lround(-log2(p))]. *)
Definition New (capacity_bytes k : Z) : BloomFilter :=
  let bits := u64 ((if capacity_bytes =? 0 then 1 else capacity_bytes) * 8) in
  let words := u64 (bits + 63) / 64 in
  let words := if words =? 0 then 1 else words in
  let k := if k <? 1 then 1 else k in
  let k := if 30 <? k then 30 else k in
  MkBloom (u64 (words * 64)) k (replicate (Z.to_nat words) 0) 0 false (0, 1) (-1) 0 0.

Definition HashKey (key : bytes) : Z * Z :=
  let h1 := Fnv1a 0x9e3779b97f4a7c15 key in
  let h2 := Fnv1a 0xc2b2ae3d27d4eb4f key in
  (h1, if h2 =? 0 then 1 else h2).

(** A word outside the array would be undefined; [bit] is below [num_bits_]. *)
Definition TestBit (bit : Z) (f : BloomFilter) : bool :=
  let w := Z.to_nat (bit / 64) in
  let mask := Z.shiftl 1 (bit mod 64) in
  negb (Z.land (default 0 (words_ f !! w)) mask =? 0).

Definition set_words (f : BloomFilter) (ws : list Z) : BloomFilter :=
  MkBloom (num_bits_ f) (num_hashes_ f) ws (added_count_ f) (ready_ f) (load_progress_ f)
    (last_rebuild_ms_ f) (total_checks_ f) (false_positive_count_ f).

Definition SetBit (bit : Z) (f : BloomFilter) : BloomFilter :=
  let w := Z.to_nat (bit / 64) in
  let mask := Z.shiftl 1 (bit mod 64) in
  set_words f (alter (fun x => Z.lor x mask) w (words_ f)).

(** The bit the [i]-th hash function names. *)
Definition bit_of (key : bytes) (i : Z) (f : BloomFilter) : Z :=
  let '(h1, h2) := HashKey key in
  u64 (h1 + u64 (i * h2)) mod num_bits_ f.

Definition Add (file_hash : bytes) (f : BloomFilter) : BloomFilter :=
  let f := foldl (fun g i => SetBit (bit_of file_hash i g) g) f (seqZ 0 (num_hashes_ f)) in
  MkBloom (num_bits_ f) (num_hashes_ f) (words_ f) (u64 (added_count_ f + 1)) (ready_ f)
    (load_progress_ f) (last_rebuild_ms_ f) (total_checks_ f) (false_positive_count_ f).

Definition MightContain (file_hash : bytes) (f : BloomFilter) : bool * BloomFilter :=
  if negb (ready_ f) then (true, f) else
  if forallb (fun i => TestBit (bit_of file_hash i f) f) (seqZ 0 (num_hashes_ f)) then
    (true, MkBloom (num_bits_ f) (num_hashes_ f) (words_ f) (added_count_ f) (ready_ f) (load_progress_ f)
             (last_rebuild_ms_ f) (u64 (total_checks_ f + 1)) (false_positive_count_ f))
  else (false, f).

Definition EstimatedCount (f : BloomFilter) : Z := added_count_ f.
Definition IsReady (f : BloomFilter) : bool := ready_ f.
Definition GetLoadProgress (f : BloomFilter) : Z * Z := load_progress_ f.
Definition LastRebuildAt (f : BloomFilter) : option Z :=
  if last_rebuild_ms_ f <? 0 then None else Some (last_rebuild_ms_ f).

Definition ReportFalsePositive (f : BloomFilter) : BloomFilter :=
  MkBloom (num_bits_ f) (num_hashes_ f) (words_ f) (added_count_ f) (ready_ f) (load_progress_ f)
    (last_rebuild_ms_ f) (total_checks_ f) (u64 (false_positive_count_ f + 1)).

(** The counters and the quotient [runtime_fpr]. *)
Definition GetFalsePositiveStats (f : BloomFilter) : Z * Z * (Z * Z) :=
  (total_checks_ f, false_positive_count_ f,
   if 0 <? total_checks_ f then (false_positive_count_ f, total_checks_ f) else (0, 1)).

Definition set_load (f : BloomFilter) (ready : bool) (progress : Z * Z) (at_ : Z) : BloomFilter :=
  MkBloom (num_bits_ f) (num_hashes_ f) (words_ f) (added_count_ f) ready progress at_
    (total_checks_ f) (false_positive_count_ f).

Definition MarkReady (now_ms : Z) (f : BloomFilter) : BloomFilter := set_load f true (1, 1) now_ms.

(** What [sqlite3_step] returned: a row with its text (or NULL), the end, or an
    error. *)
Inductive step_result := SqlRow (file_hash : option bytes) | SqlDone | SqlError.

Record sqlite3 := MkDb { count_files : option Z; select_prepares : bool; select_steps : list step_result }.

(** The [while (sqlite3_step(stmt) == SQLITE_ROW)] loop. *)
Fixpoint load_rows (total loaded : Z) (steps : list step_result) (f : BloomFilter) : BloomFilter :=
  match steps with
  | SqlRow t :: rest =>
      let f := match t with Some h => Add h f | None => f end in
      let loaded := loaded + 1 in
      let f := if 0 <? total then set_load f (ready_ f) (loaded, total) (last_rebuild_ms_ f) else f in
      load_rows total loaded rest f
  | _ => f
  end.

Definition LoadFromCatalog (now_ms : Z) (db : option sqlite3) (f : BloomFilter) : Status * BloomFilter :=
  match db with
  | None => (Status_InvalidArgument "BloomFilter::LoadFromCatalog: null db", f)
  | Some db =>
      let f := set_load f false (0, 1) (last_rebuild_ms_ f) in
      let total := default 0 (count_files db) in
      if negb (select_prepares db) then (Status_Internal "LoadFromCatalog prepare: ", f) else
      (Status_Ok, MarkReady now_ms (load_rows total 0 (select_steps db) f))
  end.

(** ** The bit array *)

Definition bit_set (f : BloomFilter) (bit : Z) : Prop := TestBit bit f = true.

Record wf (f : BloomFilter) : Prop := {
  wf_bits : num_bits_ f = 64 * len (words_ f);
  wf_words : 0 < len (words_ f);
  wf_hashes : 1 <= num_hashes_ f <= 30
}.

Lemma land_bit x i : 0 <= i -> (Z.land x (Z.shiftl 1 i) =? 0) = negb (Z.testbit x i).
Proof.
  intros Hi. rewrite Z.shiftl_1_l. destruct (Z.testbit x i) eqn:E; cbn [negb].
  - apply Z.eqb_neq. intros H0. assert (Z.testbit (Z.land x (2 ^ i)) i = true) as Ht.
    { rewrite Z.land_spec, E, Z.pow2_bits_true by done. done. }
    rewrite H0, Z.bits_0 in Ht. done.
  - apply Z.eqb_eq. apply Z.bits_inj'. intros j Hj. rewrite Z.land_spec, Z.bits_0.
    destruct (decide (j = i)) as [->|Hne]; [by rewrite E|].
    rewrite Z.pow2_bits_false by done. by rewrite andb_false_r.
Qed.

Lemma TestBit_spec bit f :
  TestBit bit f = Z.testbit (default 0 (words_ f !! Z.to_nat (bit / 64))) (bit mod 64).
Proof.
  unfold TestBit. rewrite land_bit by (apply Z.mod_pos_bound; lia). by rewrite negb_involutive.
Qed.

Lemma SetBit_spec bit b f :
  0 <= bit < 64 * len (words_ f) -> 0 <= b ->
  TestBit b (SetBit bit f) = (bool_decide (b = bit) || TestBit b f)%bool.
Proof.
  intros Hbit Hb. rewrite !TestBit_spec. unfold SetBit, set_words. cbn [words_].
  pose proof (Z.div_mod bit 64 ltac:(lia)) as Db. pose proof (Z.mod_pos_bound bit 64 ltac:(lia)).
  pose proof (Z.div_mod b 64 ltac:(lia)). pose proof (Z.mod_pos_bound b 64 ltac:(lia)).
  pose proof (Z.div_pos b 64 Hb ltac:(lia)). pose proof (Z.div_pos bit 64 ltac:(lia) ltac:(lia)).
  destruct (decide (bit / 64 = b / 64)) as [Hw|Hw].
  - rewrite Hw, list_lookup_alter_eq.
    destruct (lookup_lt_is_Some_2 (words_ f) (Z.to_nat (b / 64))) as [x Hx]; [unfold len in *; lia|].
    rewrite Hx. cbn [fmap option_fmap option_map default]. unfold id.
    rewrite Z.lor_spec, Z.shiftl_1_l. rewrite orb_comm. f_equal.
    destruct (decide (b = bit)) as [->|Hne].
    + rewrite bool_decide_true by done. apply Z.pow2_bits_true. lia.
    + rewrite bool_decide_false by done. apply Z.pow2_bits_false. lia.
  - rewrite list_lookup_alter_ne by lia. rewrite bool_decide_false; [done|]. intros ->. done.
Qed.

(** Same shape, and no bit was cleared. *)
Record grows (f g : BloomFilter) : Prop := {
  grows_bits : num_bits_ g = num_bits_ f;
  grows_hashes : num_hashes_ g = num_hashes_ f;
  grows_len : len (words_ g) = len (words_ f);
  grows_set b : 0 <= b -> TestBit b f = true -> TestBit b g = true
}.

#[export] Instance grows_preorder : PreOrder grows.
Proof.
  split; [by split|]. intros f g h [] []. split; try congruence. auto.
Qed.

Lemma grows_wf f g : grows f g -> wf f -> wf g.
Proof. intros [] []. split; congruence. Qed.

Lemma SetBit_grows bit f : 0 <= bit < 64 * len (words_ f) -> grows f (SetBit bit f).
Proof.
  intros Hb. split; try done.
  - unfold SetBit, set_words, len. cbn [words_]. by rewrite length_alter.
  - intros b Hb0 Ht. rewrite SetBit_spec by done. by rewrite Ht, orb_true_r.
Qed.

Lemma bit_of_range key i f : wf f -> 0 <= bit_of key i f < 64 * len (words_ f).
Proof.
  intros [Hb Hw _]. unfold bit_of. destruct (HashKey key). rewrite Hb. apply Z.mod_pos_bound. lia.
Qed.

Lemma bit_of_grows key i f g : grows f g -> bit_of key i g = bit_of key i f.
Proof. intros []. unfold bit_of. destruct (HashKey key). congruence. Qed.

Lemma add_bits key l : forall f, wf f ->
  let g := foldl (fun g i => SetBit (bit_of key i g) g) f l in
  grows f g /\ forall i, i ∈ l -> TestBit (bit_of key i g) g = true.
Proof.
  induction l as [|i l IH]; intros f Hf; cbn [foldl].
  { split; [reflexivity|]. intros i Hi. by apply not_elem_of_nil in Hi. }
  pose proof (bit_of_range key i f Hf) as Hr.
  pose proof (SetBit_grows _ _ Hr) as Hg. destruct (IH _ (grows_wf _ _ Hg Hf)) as [Hg' Hall].
  split; [by etrans|]. intros j [->|Hj]%elem_of_cons; [|by apply Hall].
  rewrite (bit_of_grows key i _ _ Hg'), (bit_of_grows key i _ _ Hg).
  apply (grows_set _ _ Hg'); [lia|]. rewrite SetBit_spec by lia. by rewrite bool_decide_true.
Qed.

(** [f] answers "maybe" for [key], once it is ready. *)
Definition contains (key : bytes) (f : BloomFilter) : Prop :=
  forall i, 0 <= i < num_hashes_ f -> TestBit (bit_of key i f) f = true.

Lemma contains_grows key f g : wf f -> grows f g -> contains key f -> contains key g.
Proof.
  intros Hf Hg Hc i Hi. rewrite (bit_of_grows key i _ _ Hg). apply (grows_set _ _ Hg).
  - apply (bit_of_range key i f Hf).
  - apply Hc. by rewrite <- (grows_hashes _ _ Hg).
Qed.

Lemma MightContain_contains key f : contains key f -> (MightContain key f).1 = true.
Proof.
  intros Hc. unfold MightContain. destruct (ready_ f); [|done]. cbn [negb].
  replace (forallb _ _) with true; [done|]. symmetry. apply forallb_forall.
  intros i Hi%list_elem_of_In%elem_of_seqZ. apply Hc. lia.
Qed.

Lemma Add_spec key f : wf f -> grows f (Add key f) /\ contains key (Add key f).
Proof.
  intros Hf. destruct (add_bits key (seqZ 0 (num_hashes_ f)) f Hf) as [Hg Hall].
  split; [destruct Hg; by split|]. intros i Hi. apply Hall, elem_of_seqZ.
  assert (num_hashes_ (Add key f) = num_hashes_ f) as E by apply Hg. lia.
Qed.

(** ** Every filter a process can hold *)

Inductive op :=
| OpAdd (key : bytes)
| OpQuery (key : bytes)
| OpLoad (now : Z) (db : option sqlite3)
| OpMarkReady (now : Z)
| OpReport.

Definition apply_op (f : BloomFilter) (o : op) : BloomFilter :=
  match o with
  | OpAdd k => Add k f
  | OpQuery k => (MightContain k f).2
  | OpLoad now db => (LoadFromCatalog now db f).2
  | OpMarkReady now => MarkReady now f
  | OpReport => ReportFalsePositive f
  end.

(** The rows the scan loop sees. *)
Fixpoint rows_read (steps : list step_result) : list bytes :=
  match steps with
  | SqlRow (Some h) :: rest => h :: rows_read rest
  | SqlRow None :: rest => rows_read rest
  | _ => []
  end.

(** The keys an operation puts in. *)
Definition keys_of (o : op) : list bytes :=
  match o with
  | OpAdd k => [k]
  | OpLoad _ (Some db) => if select_prepares db then rows_read (select_steps db) else []
  | _ => []
  end.

Lemma load_rows_spec steps : forall total loaded f, wf f ->
  let g := load_rows total loaded steps f in
  grows f g /\ forall k, k ∈ rows_read steps -> contains k g.
Proof.
  induction steps as [|s steps IH]; intros total loaded f Hf; cbn [load_rows rows_read].
  { split; [reflexivity|]. intros k Hk. by apply not_elem_of_nil in Hk. }
  destruct s as [[h|]| |]; try (split; [reflexivity|]; intros k Hk; by apply not_elem_of_nil in Hk).
  - destruct (Add_spec h f Hf) as [Ha Hc].
    set (f1 := if 0 <? total then _ else _).
    assert (grows (Add h f) f1) as H1 by (unfold f1; case_match; [by split|reflexivity]).
    destruct (IH total (loaded + 1) f1) as [Hg Hall]; [eapply grows_wf; [exact H1|by eapply grows_wf]|].
    split; [by etrans; [exact Ha|etrans]|]. intros k [->|Hk]%elem_of_cons; [|by apply Hall].
    eapply (contains_grows h f1); [eapply grows_wf; [exact H1|by eapply grows_wf]|done|].
    eapply (contains_grows h (Add h f)); [by eapply grows_wf|done|done].
  - set (f1 := if 0 <? total then _ else _).
    assert (grows f f1) as H1 by (unfold f1; case_match; [by split|reflexivity]).
    destruct (IH total (loaded + 1) f1) as [Hg Hall]; [by eapply grows_wf|].
    split; [by etrans|done].
Qed.

Lemma apply_op_spec o f : wf f ->
  grows f (apply_op f o) /\ forall k, k ∈ keys_of o -> contains k (apply_op f o).
Proof.
  intros Hf. destruct o as [k|k|now [db|]|now|]; cbn [apply_op keys_of].
  - destruct (Add_spec k f Hf) as [Hg Hc]. split; [done|]. intros k' ->%list_elem_of_singleton. done.
  - split; [|intros ? Hk; by apply not_elem_of_nil in Hk].
    unfold MightContain. repeat case_match; try reflexivity. by split.
  - unfold LoadFromCatalog. set (f0 := set_load f false (0, 1) _).
    assert (grows f f0) as H0 by by split.
    destruct (select_prepares db); cbn [negb snd];
      [|split; [done|intros ? Hk; by apply not_elem_of_nil in Hk]].
    destruct (load_rows_spec (select_steps db) (default 0 (count_files db)) 0 f0) as [Hg Hall];
      [by eapply grows_wf|]. set (g := load_rows _ _ _ _) in *.
    assert (grows g (MarkReady now g)) as Hm by by split.
    split; [by etrans; [|etrans]|]. intros k Hk. eapply (contains_grows k g); [|done|by apply Hall].
    eapply grows_wf; [exact Hg|]. by eapply grows_wf.
  - split; [reflexivity|]. intros ? Hk; by apply not_elem_of_nil in Hk.
  - split; [by split|]. intros ? Hk; by apply not_elem_of_nil in Hk.
  - split; [by split|]. intros ? Hk; by apply not_elem_of_nil in Hk.
Qed.

Lemma New_wf capacity k : 0 <= capacity -> wf (New capacity k).
Proof.
  intros Hc. unfold New. set (bits := u64 ((if capacity =? 0 then 1 else capacity) * 8)).
  assert (0 <= bits < 2 ^ 64) as Hb by (unfold bits, u64; apply Z.mod_pos_bound; lia).
  set (w := u64 (bits + 63) / 64).
  assert (0 <= w < 2 ^ 58) as Hw.
  { unfold w, u64. pose proof (Z.mod_pos_bound (bits + 63) (2 ^ 64) ltac:(lia)) as Hm.
    split; [apply Z.div_pos; lia|apply Z.div_lt_upper_bound; lia]. }
  assert (1 <= (if w =? 0 then 1 else w) < 2 ^ 58) as Hw' by (destruct (Z.eqb_spec w 0); lia).
  set (n := if w =? 0 then 1 else w) in *. clearbody n. clear w Hw.
  split; cbn [num_bits_ words_ num_hashes_].
  - rewrite len_replicate, Z2Nat.id by lia. rewrite u64_small by lia. lia.
  - rewrite len_replicate. lia.
  - destruct (Z.ltb_spec k 1) as [H1|H1]; [done|]. destruct (Z.ltb_spec 30 k); lia.
Qed.

Lemma run_contains ops : forall f key, wf f ->
  (contains key f \/ exists o, o ∈ ops /\ key ∈ keys_of o) -> contains key (foldl apply_op f ops) /\ wf (foldl apply_op f ops).
Proof.
  induction ops as [|o ops IH]; intros f key Hf Hk; cbn [foldl].
  { destruct Hk as [Hk|(o & Ho & _)]; [done|by apply not_elem_of_nil in Ho]. }
  destruct (apply_op_spec o f Hf) as [Hg Hin]. pose proof (grows_wf _ _ Hg Hf) as Hf'.
  apply IH; [done|]. destruct Hk as [Hk|(o' & [->|Ho]%elem_of_cons & Hk)]; [left|left|right; eauto].
  - exact (contains_grows _ _ _ Hf Hg Hk).
  - by apply Hin.
Qed.

(** No false negatives: whatever sequence of insertions, catalog loads,
    queries and reports a filter of any capacity went through, it never denies
    a key that was added or that a load read from the catalog; before it is
    ready it denies nothing; and a ready filter that holds nothing denies
    everything, so that the answer is not always "maybe". *)
Theorem Bloom_no_false_negatives (capacity k : Z) (ops : list op) (key other : bytes) (o : op) :
  0 <= capacity -> o ∈ ops -> key ∈ keys_of o ->
  let f := foldl apply_op (New capacity k) ops in
  (MightContain key f).1 = true /\
  (ready_ f = false -> (MightContain other f).1 = true) /\
  (MightContain other (MarkReady 0 (New capacity k))).1 = false.
Proof.
  intros Hc Ho Hk f. destruct (run_contains ops (New capacity k) key) as [Hin _]; [by apply New_wf|eauto|].
  split; [by apply MightContain_contains|]. split; [unfold MightContain; by intros ->|].
  unfold MightContain. cbn [MarkReady set_load ready_ negb].
  destruct (New_wf capacity k Hc) as [_ _ Hh].
  rewrite seqZ_cons by (cbn in *; lia). cbn [forallb]. rewrite TestBit_spec.
  cbn [words_ New set_load]. match goal with |- context [?l !! ?i] => destruct (l !! i) eqn:E end;
    [apply lookup_replicate in E as [-> _]|]; cbn [default]; unfold id; by rewrite Z.bits_0.
Qed.

Lemma Bloom_no_false_negatives_witness :
  (MightContain [97; 98] (foldl apply_op (New 64 7)
     [OpAdd [99]; OpLoad 5 (Some (MkDb (Some 2) true [SqlRow (Some [97; 98]); SqlRow None; SqlDone]))])).1 = true.
Proof.
  destruct (Bloom_no_false_negatives 64 7
    [OpAdd [99]; OpLoad 5 (Some (MkDb (Some 2) true [SqlRow (Some [97; 98]); SqlRow None; SqlDone]))]
    [97; 98] [] (OpLoad 5 (Some (MkDb (Some 2) true [SqlRow (Some [97; 98]); SqlRow None; SqlDone])))) as [H _].
  - lia.
  - set_solver.
  - simpl. set_solver.
  - exact H.
Defined.

(** The scan loop stops at the first result that is not a row, an error
    included, and the filter is marked ready all the same: after a read error in
    the middle of the scan it denies a hash that the catalog has. *)
Theorem Bloom_partial_load_denies_known_hash :
  let db := MkDb (Some 2) true [SqlRow (Some [97]); SqlError] in
  let '(st, f) := LoadFromCatalog 5 (Some db) (New 64 7) in
  status_ok st = true /\ IsReady f = true /\ GetLoadProgress f = (1, 1) /\ (MightContain [98] f).1 = false.
Proof. vm_compute. auto. Qed.

End BloomFilter.
