(* ===== verification/CircuitBreaker.v ===== *)
(** * The reranker's circuit breaker (src/reranker/circuit_breaker.cpp)

    Three atomics.  A call is modelled twice: as the sequence of its atomic
    accesses ([tstep], for interleaved threads) and as a function (for a call
    that no other call overlaps); [run_call] relates the two.  The callback
    on a state change is the list of states it is called with. *)
From S2P Require Import Prelude.

Module CircuitBreaker.

Inductive CircuitBreakerState := kClosed | kOpen | kHalfOpen.

#[export] Instance CircuitBreakerState_eq_dec : EqDecision CircuitBreakerState.
Proof. solve_decision. Defined.

Record CircuitBreaker := MkBreaker {
  state_ : CircuitBreakerState;
  failure_count_ : Z;
  open_since_ms_ : Z;
  threshold_ : Z;
  cooldown_sec_ : Z;
  changes : list CircuitBreakerState
}.

Definition New (threshold cooldown_sec : Z) : CircuitBreaker :=
  MkBreaker kClosed 0 (-1) (if 0 <? threshold then threshold else 1)
    (if 0 <? cooldown_sec then cooldown_sec else 1) [].

Definition set_state (b : CircuitBreaker) (s : CircuitBreakerState) : CircuitBreaker :=
  MkBreaker s (failure_count_ b) (open_since_ms_ b) (threshold_ b) (cooldown_sec_ b) (changes b).
Definition set_failures (b : CircuitBreaker) (n : Z) : CircuitBreaker :=
  MkBreaker (state_ b) n (open_since_ms_ b) (threshold_ b) (cooldown_sec_ b) (changes b).
Definition set_since (b : CircuitBreaker) (t : Z) : CircuitBreaker :=
  MkBreaker (state_ b) (failure_count_ b) t (threshold_ b) (cooldown_sec_ b) (changes b).
Definition on_change (b : CircuitBreaker) (s : CircuitBreakerState) : CircuitBreaker :=
  MkBreaker (state_ b) (failure_count_ b) (open_since_ms_ b) (threshold_ b) (cooldown_sec_ b) (changes b ++ [s]).

(** ** Calls *)

Definition AllowRequest (now : Z) (b : CircuitBreaker) : bool * CircuitBreaker :=
  match state_ b with
  | kClosed | kHalfOpen => (true, b)
  | kOpen =>
      let opened := open_since_ms_ b in
      if (0 <=? opened) && (cooldown_sec_ b * 1000 <=? now - opened)
      then (true, on_change (set_state b kHalfOpen) kHalfOpen)
      else (false, b)
  end.

Definition RecordSuccess (b : CircuitBreaker) : CircuitBreaker :=
  let prev := state_ b in
  let b := set_since (set_failures (set_state b kClosed) 0) (-1) in
  if decide (prev = kClosed) then b else on_change b kClosed.

Definition TripOpen (now : Z) (b : CircuitBreaker) : CircuitBreaker :=
  on_change (set_state (set_since b now) kOpen) kOpen.

Definition RecordFailure (now : Z) (b : CircuitBreaker) : CircuitBreaker :=
  match state_ b with
  | kHalfOpen => TripOpen now b
  | kOpen => b
  | kClosed =>
      let count := i32 (failure_count_ b + 1) in
      let b := set_failures b count in
      if threshold_ b <=? count then TripOpen now b else b
  end.

Definition OpenSinceMs (b : CircuitBreaker) : Z :=
  if decide (state_ b = kClosed) then -1 else open_since_ms_ b.

(** ** Atomic accesses *)

Inductive pc :=
| AllowLoad
| AllowSince
| AllowCas
| AllowReload
| AllowDone (r : bool)
| SuccessExchange
| SuccessFailures (prev : CircuitBreakerState)
| SuccessSince (prev : CircuitBreakerState)
| SuccessNotify (prev : CircuitBreakerState)
| FailureLoad
| FailureAdd
| TripSince
| TripState
| TripNotify
| Finished.

(** The next atomic access of a thread, at the clock reading [now]. *)
Definition tstep (now : Z) (p : pc) (b : CircuitBreaker) : pc * CircuitBreaker :=
  match p with
  | AllowLoad => (if decide (state_ b = kOpen) then AllowSince else AllowDone true, b)
  | AllowSince =>
      (if (0 <=? open_since_ms_ b) && (cooldown_sec_ b * 1000 <=? now - open_since_ms_ b)
       then AllowCas else AllowDone false, b)
  | AllowCas =>
      if decide (state_ b = kOpen)
      then (AllowDone true, on_change (set_state b kHalfOpen) kHalfOpen) else (AllowReload, b)
  | AllowReload => (AllowDone (bool_decide (state_ b <> kOpen)), b)
  | SuccessExchange => (SuccessFailures (state_ b), set_state b kClosed)
  | SuccessFailures prev => (SuccessSince prev, set_failures b 0)
  | SuccessSince prev => (SuccessNotify prev, set_since b (-1))
  | SuccessNotify prev => (Finished, if decide (prev = kClosed) then b else on_change b kClosed)
  | FailureLoad =>
      (match state_ b with kHalfOpen => TripSince | kOpen => Finished | kClosed => FailureAdd end, b)
  | FailureAdd =>
      let count := i32 (failure_count_ b + 1) in
      (if threshold_ b <=? count then TripSince else Finished, set_failures b count)
  | TripSince => (TripState, set_since b now)
  | TripState => (TripNotify, set_state b kOpen)
  | TripNotify => (Finished, on_change b kOpen)
  | AllowDone r => (AllowDone r, b)
  | Finished => (Finished, b)
  end.

(** A schedule: which thread takes the next access, and when. *)
Fixpoint schedule (l : list (nat * Z)) (ts : list pc) (b : CircuitBreaker) : list pc * CircuitBreaker :=
  match l with
  | [] => (ts, b)
  | (i, now) :: l =>
      match ts !! i with
      | Some p => let '(p, b) := tstep now p b in schedule l (<[i := p]> ts) b
      | None => schedule l ts b
      end
  end.

Fixpoint run_call (n : nat) (now : Z) (p : pc) (b : CircuitBreaker) : pc * CircuitBreaker :=
  match n with
  | O => (p, b)
  | S n => let '(p, b) := tstep now p b in run_call n now p b
  end.

(** A call that nothing overlaps is its function; five accesses are enough. *)
Lemma AllowRequest_accesses now b :
  run_call 4 now AllowLoad b = (AllowDone (AllowRequest now b).1, (AllowRequest now b).2).
Proof.
  unfold AllowRequest. destruct b as [[] n t th c ch]; [done| |done].
  unfold run_call, tstep. cbn [state_ open_since_ms_ cooldown_sec_].
  rewrite decide_True by done. destruct ((0 <=? t) && (c * 1000 <=? now - t)); done.
Qed.
Lemma RecordSuccess_accesses now b :
  run_call 4 now SuccessExchange b = (Finished, RecordSuccess b).
Proof. unfold RecordSuccess. by destruct b as [[] n t th c ch]. Qed.
Lemma RecordFailure_accesses now b :
  run_call 5 now FailureLoad b = (Finished, RecordFailure now b).
Proof.
  unfold RecordFailure. destruct b as [[] n t th c ch]; cbn; [|done|done].
  by destruct (th <=? i32 (n + 1)).
Qed.

(** ** The documented state machine *)

Inductive spec_state :=
| Closed (failures : Z)
| Open (since : Z)
| HalfOpen.

Inductive event := Allow (now : Z) | Success | Failure (now : Z).

Section spec.
Variables threshold cooldown_ms : Z.

(** closed --(threshold consecutive failures)--> open --(cooldown)--> half open
    --(success)--> closed, or --(failure)--> open with the cooldown restarted. *)
Definition spec_step (s : spec_state) (e : event) : option bool * spec_state :=
  match s, e with
  | Closed n, Allow _ => (Some true, Closed n)
  | Closed n, Failure now => (None, if threshold <=? n + 1 then Open now else Closed (n + 1))
  | Open t, Allow now => if cooldown_ms <=? now - t then (Some true, HalfOpen) else (Some false, Open t)
  | Open t, Failure _ => (None, Open t)
  | HalfOpen, Allow _ => (Some true, HalfOpen)
  | HalfOpen, Failure now => (None, Open now)
  | _, Success => (None, Closed 0)
  end.

Fixpoint spec_run (s : spec_state) (es : list event) : list (option bool) * spec_state :=
  match es with
  | [] => ([], s)
  | e :: es => let '(r, s) := spec_step s e in let '(rs, s) := spec_run s es in (r :: rs, s)
  end.
End spec.

Definition impl_step (b : CircuitBreaker) (e : event) : option bool * CircuitBreaker :=
  match e with
  | Allow now => let '(r, b) := AllowRequest now b in (Some r, b)
  | Success => (None, RecordSuccess b)
  | Failure now => (None, RecordFailure now b)
  end.

Fixpoint impl_run (b : CircuitBreaker) (es : list event) : list (option bool) * CircuitBreaker :=
  match es with
  | [] => ([], b)
  | e :: es => let '(r, b) := impl_step b e in let '(rs, b) := impl_run b es in (r :: rs, b)
  end.

Definition time_ok (e : event) : Prop :=
  match e with Allow now | Failure now => 0 <= now | Success => True end.

(** What the three atomics stand for. *)
Definition abstracts (th c : Z) (s : spec_state) (b : CircuitBreaker) : Prop :=
  threshold_ b = th /\ cooldown_sec_ b = c /\
  match s with
  | Closed n => state_ b = kClosed /\ failure_count_ b = n /\ 0 <= n < th
  | Open t => state_ b = kOpen /\ open_since_ms_ b = t /\ 0 <= t
  | HalfOpen => state_ b = kHalfOpen
  end.

Lemma step_simulation th c s b e :
  abstracts th c s b -> th < 2 ^ 31 -> 1 <= th -> time_ok e ->
  (impl_step b e).1 = (spec_step th (c * 1000) s e).1 /\
  abstracts th c (spec_step th (c * 1000) s e).2 (impl_step b e).2.
Proof.
  intros (Ht & Hc & Hs) Hth H1 Htime. destruct b as [st n t th' c' ch]. cbn in Ht, Hc. subst th' c'.
  destruct s as [m|since|], e as [now| |now]; cbn in Hs, Htime;
    unfold impl_step, AllowRequest, RecordSuccess, RecordFailure, abstracts; cbn.
  - destruct Hs as (-> & -> & Hm). done.
  - destruct Hs as (-> & -> & Hm). cbn. repeat split; lia.
  - destruct Hs as (-> & -> & Hm). cbn. replace (i32 (m + 1)) with (m + 1).
    + destruct (Z.leb_spec th (m + 1)); cbn; repeat split; lia.
    + unfold i32. rewrite Z.mod_small by lia. lia.
  - destruct Hs as (-> & -> & Hm). rewrite (proj2 (Z.leb_le 0 since)) by done. cbn [andb].
    destruct (c * 1000 <=? now - since); cbn; done.
  - destruct Hs as (-> & -> & Hm). cbn. repeat split; lia.
  - destruct Hs as (-> & -> & Hm). done.
  - subst st. done.
  - subst st. cbn. repeat split; lia.
  - subst st. cbn. done.
Qed.

Lemma run_simulation th c es : forall s b,
  abstracts th c s b -> th < 2 ^ 31 -> 1 <= th -> Forall time_ok es ->
  (impl_run b es).1 = (spec_run th (c * 1000) s es).1 /\
  abstracts th c (spec_run th (c * 1000) s es).2 (impl_run b es).2.
Proof.
  induction es as [|e es IH]; intros s b Ha Hth H1 HF; [done|].
  inversion HF as [|? ? He HF']; subst. destruct (step_simulation th c s b e Ha Hth H1 He) as [Hr Ha'].
  cbn [impl_run spec_run]. destruct (impl_step b e) as [r b'], (spec_step th (c * 1000) s e) as [r' s'].
  cbn [fst snd] in Hr, Ha'. subst r'. destruct (IH s' b' Ha' Hth H1 HF') as [Hrs Hab].
  destruct (impl_run b' es) as [rs b2], (spec_run th (c * 1000) s' es) as [rs2 s2]. cbn [fst snd] in *. by subst.
Qed.

(** The breaker refines its documented state machine: for every sequence of
    calls that do not overlap, at any times, [AllowRequest] gives exactly the
    answers of the machine closed, open since t, half open; in particular it
    opens at the [threshold]-th consecutive failure, rejects until the cooldown
    has passed and closes on the next success. *)
Theorem Breaker_refines_machine (threshold cooldown_sec : Z) (es : list event) :
  threshold < 2 ^ 31 -> Forall time_ok es ->
  let b := New threshold cooldown_sec in
  (impl_run b es).1 = (spec_run (threshold_ b) (cooldown_sec_ b * 1000) (Closed 0) es).1 /\
  abstracts (threshold_ b) (cooldown_sec_ b)
    (spec_run (threshold_ b) (cooldown_sec_ b * 1000) (Closed 0) es).2 (impl_run b es).2.
Proof.
  intros Hth HF b. apply run_simulation; try done.
  - unfold b, New, abstracts. cbn. repeat split; try lia. destruct (Z.ltb_spec 0 threshold); lia.
  - unfold b, New. cbn. destruct (Z.ltb_spec 0 threshold); lia.
  - unfold b, New. cbn. destruct (Z.ltb_spec 0 threshold); lia.
Qed.

Lemma Breaker_refines_machine_witness :
  (impl_run (New 2 3) [Failure 10; Allow 11; Failure 12; Allow 13; Allow 3012; Success; Allow 3013]).1
  = [None; Some true; None; Some false; Some true; None; Some true].
Proof.
  destruct (Breaker_refines_machine 2 3 [Failure 10; Allow 11; Failure 12; Allow 13; Allow 3012; Success; Allow 3013])
    as [H _].
  - lia.
  - repeat constructor; simpl; lia.
  - rewrite H. vm_compute. reflexivity.
Defined.

(** ** Where the code departs from its documentation *)

(** In the half-open state every request is admitted, not one trial request. *)
Theorem Breaker_half_open_admits_all (b : CircuitBreaker) (nows : list Z) :
  state_ b = kHalfOpen -> (impl_run b (Allow <$> nows)).1 = (fun _ => Some true) <$> nows.
Proof.
  intros Hs. induction nows as [|n nows IH]; [done|]. rewrite !fmap_cons. cbn [impl_run impl_step].
  unfold AllowRequest. rewrite Hs. destruct (impl_run b _) as [rs b']. cbn [fst] in *. by rewrite IH.
Qed.

(** One thread records a success while another records a failure: between the
    exchange of the state and the reset of the other two atomics the failure
    count is stale, the breaker trips, and then [open_since_ms_] is reset to -1.
    The breaker is open and rejects requests at all later times. *)
Theorem Breaker_stuck_open :
  let b := RecordFailure 10 (New 2 30) in
  let '(ts, b') := schedule
    [(0%nat, 20); (1%nat, 20); (1%nat, 20); (1%nat, 20); (1%nat, 20); (1%nat, 20); (0%nat, 21); (0%nat, 21); (0%nat, 21)]
    [SuccessExchange; FailureLoad] b in
  ts = [Finished; Finished] /\ state_ b' = kOpen /\ forall now, (AllowRequest now b').1 = false.
Proof. vm_compute. auto. Qed.

End CircuitBreaker.
