(* ===== verification/Ulid.v ===== *)
(** * Identifier minting (src/id/ulid.cpp)

    An identifier is 26 characters of Crockford base 32: ten for the clock and
    sixteen for 80 random bits.  The random generator is the sequence [draw] of
    the numbers its distribution returns, with the count of draws made so far in
    the state; the two globals of the file are the rest of the state, and the
    mutex makes one call one step. *)
From S2P Require Import Prelude LittleEndian.
From Stdlib Require Import Ascii Sorted.

Module Ulid.

(** The alphabet, as character codes. *)
Definition kCrockford : list Z :=
  (fun c => Z.of_nat (nat_of_ascii c))
  <$> String.list_ascii_of_string "0123456789ABCDEFGHJKMNPQRSTVWXYZ".

Definition kTimeChars : nat := 10.

Record Globals := MkGlobals {
  g_last_ms : Z;
  g_last_rand : bytes;
  drawn : nat
}.

Definition initial : Globals := MkGlobals (-1) (replicate 10 0) 0.

(** [out->push_back(kCrockford[idx])] for [i] from [n - 1] down to 0. *)
Fixpoint EncodeBase32 (value bits : Z) (n : nat) : list Z :=
  match n with
  | O => []
  | S i =>
      let shift := Z.of_nat i * 5 in
      let idx := if shift <? bits then Z.land (Z.shiftr value shift) 31 else 0 in
      default 0 (kCrockford !! Z.to_nat idx) :: EncodeBase32 value bits i
  end.

(** [hi = (hi << 8) | r[i]] in a [uint64_t]. *)
Definition gather (bs : bytes) : Z :=
  foldl (fun acc b => Z.lor (u64 (Z.shiftl acc 8)) b) 0 bs.

Definition EncodeRandom (r : bytes) : list Z :=
  let hi := gather (take 5 r) in
  let lo := gather (take 5 (drop 5 r)) in
  EncodeBase32 hi 40 8 ++ EncodeBase32 lo 40 8.

(** The loop of [IncrementRandom] over the bytes below index [n]; the flag says
    that every byte overflowed. *)
Fixpoint IncrementLoop (n : nat) (r : bytes) : bytes * bool :=
  match n with
  | O => (r, true)
  | S i =>
      let b := u8 (default 0 (r !! i) + 1) in
      let r := <[i := b]> r in
      if negb (b =? 0) then (r, false) else IncrementLoop i r
  end.

Section Mint.
Context (draw : nat -> Z).

Definition FreshRandom (g : Globals) : Globals :=
  MkGlobals (g_last_ms g) ((fun k => u8 (draw k)) <$> seq (drawn g) 10) (drawn g + 10).

Definition IncrementRandom (g : Globals) : Globals :=
  let (r, overflow) := IncrementLoop (length (g_last_rand g)) (g_last_rand g) in
  let g := MkGlobals (g_last_ms g) r (drawn g) in
  if overflow then FreshRandom g else g.

Definition GenerateUlid (now_ms : Z) (g : Globals) : list Z * Globals :=
  let now_ms := if now_ms <? 0 then 0 else now_ms in
  let g :=
    if now_ms =? g_last_ms g then IncrementRandom g
    else FreshRandom (MkGlobals now_ms (g_last_rand g) (drawn g)) in
  (EncodeBase32 (u64 now_ms) 48 kTimeChars ++ EncodeRandom (g_last_rand g), g).

(** A run of calls: each identifier with the globals its call left. *)
Fixpoint mints (clock : list Z) (g : Globals) : list (list Z * Globals) :=
  match clock with
  | [] => []
  | now :: clock => let m := GenerateUlid now g in m :: mints clock m.2
  end.

End Mint.

(** [std::string::operator<] on character codes. *)
Fixpoint string_lt (a b : list Z) : bool :=
  match a, b with
  | [], [] => false
  | [], _ => true
  | _, [] => false
  | x :: a, y :: b => (x <? y) || ((x =? y) && string_lt a b)
  end.

Definition wf (g : Globals) : Prop :=
  length (g_last_rand g) = 10%nat /\ bytes_ok (g_last_rand g).

(** The big-endian number that the random bytes spell. *)
Definition be (bs : bytes) : Z := foldl (fun acc b => acc * 256 + b) 0 bs.

(** ** Numbers in base 32 *)

Definition digits_ok (ds : list Z) : Prop := Forall (fun d => 0 <= d < 32) ds.
Definition value32 (ds : list Z) : Z := foldl (fun acc d => acc * 32 + d) 0 ds.

(** The digits behind the characters of [EncodeBase32]. *)
Fixpoint digits (value : Z) (n : nat) : list Z :=
  match n with
  | O => []
  | S i => Z.shiftr value (Z.of_nat i * 5) mod 32 :: digits value i
  end.

Lemma foldl_base B (HB : 0 < B) ds (a : Z) :
  foldl (fun acc d => acc * B + d) a ds
  = a * B ^ len ds + foldl (fun acc d => acc * B + d) 0 ds.
Proof.
  revert a. induction ds as [|d ds IH]; intros a; simpl.
  - rewrite len_nil. lia.
  - rewrite (IH (a * B + d)), (IH (0 * B + d)), len_cons, Z.pow_add_r by (pose proof (len_nonneg ds); lia).
    lia.
Qed.

Lemma value32_cons d ds : value32 (d :: ds) = d * 32 ^ len ds + value32 ds.
Proof. unfold value32. simpl. by rewrite foldl_base. Qed.
Lemma value32_app a b : value32 (a ++ b) = value32 a * 32 ^ len b + value32 b.
Proof. unfold value32. by rewrite foldl_app, foldl_base. Qed.
Lemma be_app a b : be (a ++ b) = be a * 256 ^ len b + be b.
Proof. unfold be. by rewrite foldl_app, foldl_base. Qed.

Lemma base_range B ds : 0 < B -> Forall (fun d => 0 <= d < B) ds ->
  0 <= foldl (fun acc d => acc * B + d) 0 ds < B ^ len ds.
Proof.
  intros HB. induction ds as [|d ds IH]; intros Hds.
  - change (0 <= 0 < 1). lia.
  - apply Forall_cons in Hds as [Hd Hds]. specialize (IH Hds). simpl.
    rewrite (foldl_base B HB ds (0 * B + d)), len_cons, Z.pow_add_r by (pose proof (len_nonneg ds); lia). nia.
Qed.

Lemma digits_length v n : length (digits v n) = n.
Proof. induction n; simpl; congruence. Qed.
Lemma digits_len v n : len (digits v n) = Z.of_nat n.
Proof. unfold len. by rewrite digits_length. Qed.
Lemma digits_digits_ok v n : digits_ok (digits v n).
Proof.
  induction n; simpl; constructor; [apply Z.mod_pos_bound; lia | done].
Qed.

Lemma digits_value v n : 0 <= v -> value32 (digits v n) = v mod 32 ^ Z.of_nat n.
Proof.
  intros Hv. induction n as [|n IH].
  - by rewrite Z.mod_1_r.
  - cbn [digits]. rewrite value32_cons, digits_len, IH.
    rewrite Z.shiftr_div_pow2, (Z.mul_comm _ 5), Z.pow_mul_r by lia.
    change (2 ^ 5) with 32.
    rewrite Nat2Z.inj_succ, Z.pow_succ_r, (Z.mul_comm 32) by lia.
    rewrite (Z.rem_mul_r v (32 ^ Z.of_nat n) 32) by lia. lia.
Qed.

Lemma digits_lt a b : length a = length b -> digits_ok a -> digits_ok b ->
  value32 a < value32 b -> string_lt a b = true.
Proof.
  revert b. induction a as [|x a IH]; intros [|y b] Hl Ha Hb Hv; try done.
  apply Forall_cons in Ha as [Hx Ha]. apply Forall_cons in Hb as [Hy Hb].
  injection Hl as Hl. rewrite !value32_cons in Hv.
  pose proof (base_range 32 a ltac:(lia) Ha) as Ra.
  pose proof (base_range 32 b ltac:(lia) Hb) as Rb.
  fold (value32 a) in Ra. fold (value32 b) in Rb.
  assert (len a = len b) as El by (unfold len; lia). rewrite El in *.
  simpl. destruct (Z.ltb_spec x y); [done|]. simpl.
  assert (x = y) as -> by nia. rewrite Z.eqb_refl. simpl. apply IH; [done..|lia].
Qed.

(** ** From digits to characters *)

Definition crock (d : Z) : Z := default 0 (kCrockford !! Z.to_nat d).

(** The alphabet is in ascending order of its character codes. *)
Lemma crock_lt x y : 0 <= x < 32 -> 0 <= y < 32 -> x < y -> crock x < crock y.
Proof.
  assert (forallb (fun i => forallb (fun j => negb (i <? j) || (crock i <? crock j)) (seqZ 0 32))
            (seqZ 0 32) = true) as HB by (vm_compute; reflexivity).
  intros Hx Hy Hlt. rewrite forallb_forall in HB.
  specialize (HB x). rewrite forallb_forall in HB.
  assert (Hb : negb (x <? y) || (crock x <? crock y) = true).
  { apply HB; rewrite <-list_elem_of_In; apply elem_of_seqZ; lia. }
  apply Z.ltb_lt in Hlt. rewrite Hlt in Hb. simpl in Hb. by apply Z.ltb_lt.
Qed.

Lemma crock_string_lt a b : digits_ok a -> digits_ok b ->
  string_lt a b = true -> string_lt (crock <$> a) (crock <$> b) = true.
Proof.
  revert b. induction a as [|x a IH]; intros [|y b] Ha Hb; try done.
  apply Forall_cons in Ha as [Hx Ha]. apply Forall_cons in Hb as [Hy Hb].
  rewrite !fmap_cons. cbn [string_lt]. destruct (Z.ltb_spec x y) as [Hlt|]; simpl orb.
  - intros _. pose proof (crock_lt x y Hx Hy Hlt) as Hc. apply Z.ltb_lt in Hc. by rewrite Hc.
  - destruct (Z.eqb_spec x y) as [->|]; [|done]. simpl andb. intros Hab.
    rewrite Z.eqb_refl, (IH b Ha Hb Hab). apply orb_true_r.
Qed.

Lemma EncodeBase32_digits v bits n : (Z.of_nat n - 1) * 5 < bits ->
  EncodeBase32 v bits n = crock <$> digits v n.
Proof.
  induction n as [|n IH]; intros Hb; [done|].
  cbn [EncodeBase32 digits fmap list_fmap]. rewrite IH by lia.
  destruct (Z.ltb_spec (Z.of_nat n * 5) bits); [|lia].
  unfold crock at 1. change 31 with (Z.ones 5). by rewrite Z.land_ones by lia.
Qed.

(** ** The random half *)

Lemma gather_be bs : length bs = 5%nat -> bytes_ok bs -> gather bs = be bs.
Proof.
  intros Hl Hb. unfold gather, be.
  assert (forall bs (k : Z) (a : Z), 0 <= k -> len bs + k <= 7 -> 0 <= a < 256 ^ k -> bytes_ok bs ->
    foldl (fun acc b => Z.lor (u64 (Z.shiftl acc 8)) b) a bs
    = foldl (fun acc b => acc * 256 + b) a bs) as H.
  { clear. induction bs as [|b bs IH]; intros k a Hk Hl Ha Hb; [done|]. simpl.
    apply Forall_cons in Hb as [Hb0 Hb]. rewrite len_cons in Hl.
    pose proof (len_nonneg bs).
    assert (256 ^ (k + 1) <= 256 ^ 7) by (apply Z.pow_le_mono_r; lia).
    rewrite Z.pow_add_r in * by lia. change (256 ^ 7) with (2 ^ 56) in *.
    replace (Z.lor (u64 (Z.shiftl a 8)) b) with (a * 256 + b).
    - apply (IH (k + 1)); [lia|lia| |done]. rewrite Z.pow_add_r by lia. unfold byte_ok in Hb0. lia.
    - unfold u64, byte_ok in *. rewrite Z.lor_comm, Z.mod_small by (rewrite Z.shiftl_mul_pow2; lia).
      rewrite lor_shiftl_8; lia. }
  apply (H bs 0); [lia|unfold len; lia|lia|done].
Qed.

Lemma be_range bs : bytes_ok bs -> 0 <= be bs < 256 ^ len bs.
Proof. by apply base_range. Qed.

(** The identifier's digits spell the clock followed by the random bytes. *)
Definition id_digits (now : Z) (r : bytes) : list Z :=
  digits now 10 ++ digits (be (take 5 r)) 8 ++ digits (be (drop 5 r)) 8.

Lemma id_digits_value now r : 0 <= now < 2 ^ 48 -> length r = 10%nat -> bytes_ok r ->
  value32 (id_digits now r) = now * 2 ^ 80 + be r.
Proof.
  intros Hn Hl Hb. rewrite <-(take_drop 5 r) in Hb. apply bytes_ok_app in Hb as [Ht Hd].
  pose proof (be_range _ Ht) as Rt. pose proof (be_range _ Hd) as Rd.
  rewrite len_take in Rt. rewrite len_drop in Rd. unfold len in Rt, Rd. rewrite Hl in Rt, Rd.
  change (256 ^ Z.min (Z.of_nat 5) (Z.of_nat 10)) with 1099511627776 in Rt.
  change (256 ^ (Z.max 0 (Z.of_nat 10 - Z.of_nat 5))) with 1099511627776 in Rd.
  assert (be r = be (take 5 r) * 2 ^ 40 + be (drop 5 r)) as Er.
  { rewrite <-(take_drop 5 r) at 1. rewrite be_app, len_drop. unfold len. by rewrite Hl. }
  unfold id_digits. rewrite !value32_app, !len_app, !digits_len, !digits_value by lia.
  change (32 ^ (Z.of_nat 8 + Z.of_nat 8)) with (2 ^ 80). change (32 ^ Z.of_nat 8) with (2 ^ 40).
  change (32 ^ Z.of_nat 10) with (2 ^ 50). rewrite !Z.mod_small by lia. lia.
Qed.

Lemma id_digits_length now r : length (id_digits now r) = 26%nat.
Proof. unfold id_digits. by rewrite !length_app, !digits_length. Qed.
Lemma id_digits_ok now r : digits_ok (id_digits now r).
Proof. unfold id_digits, digits_ok. rewrite !Forall_app. split_and!; apply digits_digits_ok. Qed.

(** ** One call *)

Section MintTheory.
Context (draw : nat -> Z).

Lemma u8_ok v : byte_ok (u8 v).
Proof. apply Z.mod_pos_bound. lia. Qed.

Lemma FreshRandom_wf g : wf (FreshRandom draw g).
Proof.
  unfold wf, FreshRandom. cbn [g_last_rand]. split; [by rewrite length_fmap, length_seq|].
  apply Forall_fmap, Forall_true. intros. apply u8_ok.
Qed.

Lemma IncrementLoop_spec p s : bytes_ok p ->
  exists p' o, IncrementLoop (length p) (p ++ s) = (p' ++ s, o)
    /\ length p' = length p /\ bytes_ok p'
    /\ (be p + 1 < 256 ^ len p -> o = false /\ be p' = be p + 1).
Proof.
  revert s. induction p as [|b p IH] using rev_ind; intros s Hp.
  - exists [], true. split_and!; [done..|constructor|]. change (256 ^ len []) with 1. cbn. lia.
  - apply bytes_ok_app in Hp as [Hp Hb]. apply Forall_cons in Hb as [Hb _]. unfold byte_ok in Hb.
    rewrite length_app, Nat.add_comm. cbn [length plus IncrementLoop].
    rewrite <-app_assoc, lookup_app_r, Nat.sub_diag by lia. simpl default.
    rewrite insert_app_r_alt, Nat.sub_diag by lia. simpl insert.
    rewrite be_app, len_app. change (len [b]) with 1.
    rewrite Z.pow_add_r by (try apply len_nonneg; lia). change (256 ^ 1) with 256.
    change (be [b]) with b.
    destruct (Z.eqb_spec (u8 (b + 1)) 0) as [E|E]; simpl negb; cbv iota.
    + assert (b = 255) as -> by (unfold u8 in E; destruct (Z.eq_dec b 255); [done|];
        rewrite Z.mod_small in E; lia).
      destruct (IH (u8 (255 + 1) :: s) Hp) as (p' & o & -> & Hl & Hok & Hv).
      exists (p' ++ [u8 (255 + 1)]), o. rewrite <-app_assoc. split; [done|].
      rewrite length_app, Hl. split; [simpl; lia|].
      split; [apply bytes_ok_app; split; [done|repeat constructor; lia]|].
      intros Hlt. destruct Hv as [Ho Hv]; [lia|]. split; [done|].
      rewrite be_app. change (len [u8 (255 + 1)]) with 1.
      change (be [u8 (255 + 1)]) with 0. lia.
    + exists (p ++ [u8 (b + 1)]), false. rewrite <-app_assoc. split; [done|].
      rewrite length_app. split; [simpl; lia|].
      split; [apply bytes_ok_app; split; [done|repeat constructor; apply u8_ok]|].
      intros _. split; [done|]. rewrite be_app. change (len [u8 (b + 1)]) with 1.
      change (be [u8 (b + 1)]) with (u8 (b + 1)).
      assert (b <> 255) by (intros ->; done). unfold u8. rewrite Z.mod_small by lia. lia.
Qed.

Lemma IncrementRandom_spec g : wf g ->
  wf (IncrementRandom draw g) /\ g_last_ms (IncrementRandom draw g) = g_last_ms g
  /\ (be (g_last_rand g) + 1 < 2 ^ 80 ->
      be (g_last_rand (IncrementRandom draw g)) = be (g_last_rand g) + 1).
Proof.
  intros [Hl Hb]. destruct (IncrementLoop_spec _ [] Hb) as (p & o & E & Hp & Hok & Hv).
  rewrite !app_nil_r in E. unfold IncrementRandom. rewrite E. destruct o.
  - split; [apply FreshRandom_wf|]. split; [done|]. intros Hlt.
    destruct Hv as [? _]; [unfold len; rewrite Hl; exact Hlt|done].
  - split; [split; simpl; congruence|]. split; [done|]. intros Hlt. simpl.
    apply Hv. unfold len. rewrite Hl. exact Hlt.
Qed.

(** A call's text is the digits of its clock and random bytes; the clock never
    ties with the previous identifier unless the random part moved up by one. *)
Lemma GenerateUlid_spec now g : 0 <= now < 2 ^ 48 -> wf g ->
  let (id, g') := GenerateUlid draw now g in
  id = crock <$> id_digits now (g_last_rand g')
  /\ wf g' /\ g_last_ms g' = now
  /\ (now = g_last_ms g -> be (g_last_rand g) + 1 < 2 ^ 80 ->
      be (g_last_rand g') = be (g_last_rand g) + 1).
Proof.
  intros Hn Hg. unfold GenerateUlid.
  destruct (Z.ltb_spec now 0); [lia|].
  set (g' := if now =? g_last_ms g then _ else _).
  assert (wf g' /\ g_last_ms g' = now /\ (now = g_last_ms g -> be (g_last_rand g) + 1 < 2 ^ 80 ->
      be (g_last_rand g') = be (g_last_rand g) + 1)) as (Hw & Hms & Hinc).
  { subst g'. destruct (Z.eqb_spec now (g_last_ms g)) as [E|E].
    - destruct (IncrementRandom_spec g Hg) as (? & ? & ?). repeat split; try done; apply H0 || congruence.
    - split; [apply FreshRandom_wf|]. done. }
  split; [|done]. destruct Hw as [Hl Hb]. unfold EncodeRandom, u64, id_digits, kTimeChars.
  rewrite Z.mod_small by lia. rewrite !EncodeBase32_digits by lia.
  rewrite <-(take_drop 5 (g_last_rand g')) in Hb. apply bytes_ok_app in Hb as [Ht Hd].
  rewrite (take_ge (drop 5 _)) by (rewrite length_drop; lia).
  rewrite !gather_be by (rewrite ?length_take, ?length_drop; done || lia).
  by rewrite !fmap_app.
Qed.

(** ** Runs of calls *)

(** The number an identifier spells. *)
Definition id_value (g : Globals) : Z := g_last_ms g * 2 ^ 80 + be (g_last_rand g).

Definition has_room (g : Globals) : Prop := be (g_last_rand g) + 1 < 2 ^ 80.

(** What every mint of a run satisfies. *)
Definition minted (m : list Z * Globals) : Prop :=
  m.1 = crock <$> id_digits (g_last_ms m.2) (g_last_rand m.2)
  /\ wf m.2 /\ 0 <= g_last_ms m.2 < 2 ^ 48.

Lemma be_nonneg_lt g : wf g -> 0 <= be (g_last_rand g) < 2 ^ 80.
Proof.
  intros [Hl Hb]. pose proof (be_range _ Hb) as R. unfold len in R. rewrite Hl in R. exact R.
Qed.

Lemma GenerateUlid_minted now g : 0 <= now < 2 ^ 48 -> wf g ->
  minted (GenerateUlid draw now g) /\ g_last_ms (GenerateUlid draw now g).2 = now.
Proof.
  intros Hn Hg. pose proof (GenerateUlid_spec now g Hn Hg) as H.
  destruct (GenerateUlid draw now g) as [id g']. destruct H as (Hid & Hw & Hms & _).
  unfold minted. simpl. rewrite Hms. done.
Qed.

Lemma GenerateUlid_above now g : 0 <= now < 2 ^ 48 -> wf g -> has_room g ->
  g_last_ms g <= now -> id_value g < id_value (GenerateUlid draw now g).2.
Proof.
  intros Hn Hg Hroom Hle. pose proof (GenerateUlid_spec now g Hn Hg) as H.
  destruct (GenerateUlid draw now g) as [id g']. destruct H as (_ & Hw & Hms & Hinc). simpl.
  pose proof (be_nonneg_lt g Hg). pose proof (be_nonneg_lt g' Hw). unfold id_value. rewrite Hms.
  destruct (Z.eq_dec now (g_last_ms g)) as [E|]; [rewrite (Hinc E Hroom)|]; lia.
Qed.

Lemma minted_lt m n : minted m -> minted n -> id_value m.2 < id_value n.2 ->
  string_lt m.1 n.1 = true.
Proof.
  intros (-> & [Hml Hmb] & Hm) (-> & [Hnl Hnb] & Hn) Hlt.
  apply crock_string_lt; [apply id_digits_ok..|].
  apply digits_lt; [by rewrite !id_digits_length|apply id_digits_ok..|].
  by rewrite !id_digits_value.
Qed.

Lemma mints_minted clock g : Forall (fun now => 0 <= now < 2 ^ 48) clock -> wf g ->
  Forall minted (mints draw clock g).
Proof.
  revert g. induction clock as [|now clock IH]; intros g Hc Hg; [constructor|].
  apply Forall_cons in Hc as [Hn Hc]. cbn [mints].
  destruct (GenerateUlid_minted now g Hn Hg) as [Hm _].
  constructor; [done|]. apply IH; [done|]. apply Hm.
Qed.

Lemma mints_above clock g : Forall (fun now => 0 <= now < 2 ^ 48) clock ->
  StronglySorted Z.le (g_last_ms g :: clock) -> wf g -> has_room g ->
  Forall (fun m => has_room m.2) (mints draw clock g) ->
  Forall (fun m => id_value g < id_value m.2) (mints draw clock g).
Proof.
  revert g. induction clock as [|now clock IH]; intros g Hc Hs Hg Hr Hroom; [constructor|].
  apply Forall_cons in Hc as [Hn Hc]. cbn [mints] in *.
  apply Forall_cons in Hroom as [Hr' Hroom].
  apply StronglySorted_inv in Hs as [Hs Hle]. apply Forall_cons in Hle as [Hle _].
  destruct (GenerateUlid_minted now g Hn Hg) as [Hm Hms].
  pose proof (GenerateUlid_above now g Hn Hg Hr Hle) as Hv.
  constructor; [done|].
  eapply Forall_impl; [apply IH; [done|by rewrite Hms|apply Hm|done|done]|].
  cbn beta. intros m Hlt. lia.
Qed.

Lemma mints_sorted clock g : Forall (fun now => 0 <= now < 2 ^ 48) clock ->
  StronglySorted Z.le clock -> wf g ->
  Forall (fun m => has_room m.2) (mints draw clock g) ->
  StronglySorted (fun m n => string_lt m.1 n.1 = true) (mints draw clock g).
Proof.
  revert g. induction clock as [|now clock IH]; intros g Hc Hs Hg Hroom; [constructor|].
  pose proof (mints_minted (now :: clock) g Hc Hg) as Hall.
  apply Forall_cons in Hc as [Hn Hc]. cbn [mints] in *.
  apply Forall_cons in Hroom as [Hr Hroom]. apply Forall_cons in Hall as [Hm Hall].
  destruct (GenerateUlid_minted now g Hn Hg) as [_ Hms].
  constructor.
  - apply IH; [done|by apply StronglySorted_inv in Hs as [? _]|apply Hm|done].
  - pose proof (mints_above clock _ Hc ltac:(rewrite Hms; exact Hs) (proj1 (proj2 Hm)) Hr Hroom) as Hv.
    rewrite Forall_forall in *. intros n Hn'. apply minted_lt; auto.
Qed.

Lemma crock_in d : 0 <= d < 32 -> crock d ∈ kCrockford.
Proof.
  intros Hd. destruct (lookup_lt_is_Some_2 kCrockford (Z.to_nat d)) as [c Hc];
    [vm_compute length; lia|].
  unfold crock. rewrite Hc. by apply list_elem_of_lookup_2 in Hc.
Qed.

End MintTheory.

(** Identifiers have the documented form and sort in the order they were
    minted.  For any sequence of random draws, from any state of the globals,
    and for any run of calls whose clock does not go back and stays below 2^48
    milliseconds, every identifier is 26 characters of the alphabet and each
    is smaller than every later one in string order, as long as no call of the
    run mints the largest 80-bit random part. *)
Theorem Ulid_batch_sorted (draw : nat -> Z) (clock : list Z) (g : Globals)
  (Hclock : Forall (fun now => 0 <= now < 2 ^ 48) clock)
  (Hmono : StronglySorted Z.le clock)
  (Hg : wf g)
  (Hroom : Forall (fun m => has_room m.2) (mints draw clock g)) :
  StronglySorted (fun a b => string_lt a b = true) (fst <$> mints draw clock g)
  /\ Forall (fun id => length id = 26%nat /\ Forall (fun c => c ∈ kCrockford) id)
       (fst <$> mints draw clock g).
Proof.
  split.
  - pose proof (mints_sorted draw clock g Hclock Hmono Hg Hroom) as H. revert H.
    generalize (mints draw clock g). clear.
    induction 1 as [|m l _ IH Hall]; [constructor|].
    rewrite fmap_cons. constructor; [exact IH|]. by apply Forall_fmap.
  - apply Forall_fmap. eapply Forall_impl; [by apply mints_minted|].
    intros m (E & _). simpl. rewrite E, length_fmap, id_digits_length. split; [done|].
    apply Forall_fmap. eapply Forall_impl; [apply id_digits_ok|]. apply crock_in.
Qed.

(** Three identifiers of one millisecond and one of the next, from the state
    the process starts in. *)
Lemma Ulid_batch_sorted_witness :
  let ids := fst <$> mints (fun k => Z.of_nat k * 37) [7; 7; 7; 8] initial in
  length ids = 4%nat /\ StronglySorted (fun a b => string_lt a b = true) ids.
Proof.
  split; [reflexivity|].
  refine (proj1 (Ulid_batch_sorted (fun k => Z.of_nat k * 37) [7; 7; 7; 8] initial _ _ _ _)).
  - repeat constructor; lia.
  - repeat constructor; lia.
  - split; [reflexivity|]. repeat constructor; lia.
  - repeat constructor.
Defined.

(** The exclusion above is needed.  Two identifiers of the same millisecond are
    in the wrong order when the first has the largest random part: the increment
    overflows and the second takes fresh randomness under the same clock. *)
Theorem Ulid_overflow_breaks_order :
  exists draw now g, wf g
  /\ let (id1, g1) := GenerateUlid draw now g in
     let (id2, g2) := GenerateUlid draw now g1 in
     string_lt id2 id1 = true.
Proof.
  exists (fun _ => 0), 7, (MkGlobals 7 (replicate 9 255 ++ [254]) 0).
  split; [|reflexivity]. split; [reflexivity|]. repeat constructor; lia.
Qed.

End Ulid.
