(* ===== verification/Degradation.v ===== *)
(** * Degradation of a query (src/query/degradation_manager.cpp)

    A query runs up to three routes; the manager classifies what came back.
    Scores are kept as the bit pattern of the float, since the classification
    does not look at them. *)
From S2P Require Import Prelude.

Module DegradationManager.

Inductive RouteStatus := kSuccess | kTimeout | kError | kSkipped.
#[global] Instance RouteStatus_eq_dec : EqDecision RouteStatus.
Proof. solve_decision. Defined.

Record RouteResultItem := MkItem {
  block_id : Z;
  doc_id : string;
  chunk_index : Z;
  raw_score : Z
}.

Record RouteResult := MkRoute {
  route_name : string;
  status : RouteStatus;
  error_message : string;
  latency_us : Z;
  items : list RouteResultItem
}.

Definition ok (r : RouteResult) : bool := bool_decide (status r = kSuccess).

Record SearchConfig := MkConfig {
  enable_vector : bool;
  enable_bm25 : bool;
  enable_sql : bool
}.

Inductive DegradationLevel := kL0 | kL1 | kL2 | kL3.

Record DegradationInfo := MkInfo {
  level : DegradationLevel;
  degraded : bool;
  degraded_routes : list string;
  active_routes : list string
}.

Definition route_failed (enabled : bool) (r : RouteResult) : bool :=
  enabled && (bool_decide (status r = kTimeout) || bool_decide (status r = kError)).

Definition Evaluate (vector_result bm25_result sql_result : RouteResult)
    (search_config : SearchConfig) : DegradationInfo :=
  let vector_enabled := enable_vector search_config in
  let bm25_enabled := enable_bm25 search_config in
  let sql_enabled := enable_sql search_config in
  let vector_ok := vector_enabled && ok vector_result in
  let bm25_ok := bm25_enabled && ok bm25_result in
  let sql_ok := sql_enabled && ok sql_result in
  let vector_failed := route_failed vector_enabled vector_result in
  let bm25_failed := route_failed bm25_enabled bm25_result in
  let sql_failed := route_failed sql_enabled sql_result in
  let active := (if vector_ok then ["vector"] else []) ++ (if bm25_ok then ["bm25"] else [])
                ++ (if sql_ok then ["sql"] else []) in
  let failed := (if vector_failed then ["vector"] else []) ++ (if bm25_failed then ["bm25"] else [])
                ++ (if sql_failed then ["sql"] else []) in
  let any_enabled := vector_enabled || bm25_enabled || sql_enabled in
  if negb any_enabled then MkInfo kL0 false failed active
  else if bool_decide (failed = []) then MkInfo kL0 false failed active
  else if sql_failed && (vector_ok || bm25_ok) && (negb vector_enabled || vector_ok)
          && (negb bm25_enabled || bm25_ok)
  then MkInfo kL1 true failed active
  else if vector_ok || bm25_ok then MkInfo kL2 true failed active
  else MkInfo kL3 true failed active.

(** ** Properties *)

Definition rank (l : DegradationLevel) : Z :=
  match l with kL0 => 0 | kL1 => 1 | kL2 => 2 | kL3 => 3 end.

(** Replacing a route's result by a success. *)
Definition succeed (r : RouteResult) : RouteResult :=
  MkRoute (route_name r) kSuccess (error_message r) (latency_us r) (items r).

Ltac route_cases :=
  repeat match goal with
  | r : RouteResult |- _ => destruct r as [? [] ? ? ?]
  | c : SearchConfig |- _ => destruct c as [[] [] []]
  end.

(** The level never gets worse when one more route succeeds. *)
Theorem Evaluate_monotone v b s c :
  rank (level (Evaluate (succeed v) b s c)) <= rank (level (Evaluate v b s c))
  /\ rank (level (Evaluate v (succeed b) s c)) <= rank (level (Evaluate v b s c))
  /\ rank (level (Evaluate v b (succeed s) c)) <= rank (level (Evaluate v b s c)).
Proof. route_cases; vm_compute; split_and!; congruence. Qed.

(** A query is degraded exactly when an enabled route failed, which is exactly
    when its level is not the first one, and no route is reported both as active
    and as failed. *)
Theorem Evaluate_degraded v b s c :
  let info := Evaluate v b s c in
  degraded info = route_failed (enable_vector c) v || route_failed (enable_bm25 c) b
                  || route_failed (enable_sql c) s
  /\ (degraded info = false <-> level info = kL0)
  /\ (forall r, r ∈ active_routes info -> r ∉ degraded_routes info).
Proof.
  cbv zeta. assert (forall (l k : list string), forallb (fun x => bool_decide (x ∉ k)) l = true ->
    forall r, r ∈ l -> r ∉ k) as Hdisj.
  { intros l k H r Hr. rewrite forallb_forall in H. apply list_elem_of_In, H in Hr.
    by apply bool_decide_eq_true in Hr. }
  split; [|split]; [| |apply Hdisj]; route_cases; try reflexivity;
    vm_compute; split; intros; congruence.
Qed.

(** The last level, answered with status 503, means that no vector or keyword
    route answered; it does not mean that every route failed. *)
Theorem Evaluate_L3_with_sql_answer :
  let route st := MkRoute "" st "" 0 [] in
  let info := Evaluate (route kError) (route kError) (route kSuccess) (MkConfig true true true) in
  level info = kL3 /\ active_routes info = ["sql"].
Proof. done. Qed.

End DegradationManager.
