(* ===== verification/Iso8601.v ===== *)
(** * Timestamps (src/async/task_manager.cpp, [NowIso8601] and [UnixToIso8601])

    Rows of the task table carry their times as text and the queries compare the
    text.  This file models the formatting, [gmtime_r] included, and shows that
    the comparison of the text is the comparison of the times. *)
From S2P Require Import Prelude.
From stdpp Require Import pretty.
From Stdlib Require Import Ascii String.
Local Open Scope string_scope.
Local Open Scope Z_scope.

(** ** [gmtime_r] *)

Record tm := MkTm { tm_year : Z; tm_mon : Z; tm_mday : Z; tm_hour : Z; tm_min : Z; tm_sec : Z }.

Definition is_leap (y : Z) : bool :=
  (y mod 4 =? 0) && (negb (y mod 100 =? 0) || (y mod 400 =? 0)).
Definition days_in_year (y : Z) : Z := if is_leap y then 366 else 365.
Definition month_days (leap : bool) : list Z :=
  [31; if leap then 29 else 28; 31; 30; 31; 30; 31; 31; 30; 31; 30; 31].

Fixpoint find_year (fuel : nat) (y d : Z) : Z * Z :=
  match fuel with
  | O => (y, d)
  | S n => if d <? days_in_year y then (y, d) else find_year n (y + 1) (d - days_in_year y)
  end.

Fixpoint find_month (ms : list Z) (m d : Z) : Z * Z :=
  match ms with
  | [] => (m, d)
  | l :: ms => if d <? l then (m, d) else find_month ms (m + 1) (d - l)
  end.

(** Civil time of the seconds since 1970, by cycles of 400 years from year 1; the
    fields hold the calendar year and month, which the source gets by adding 1900
    and 1. *)
Definition gmtime (secs : Z) : tm :=
  let days := secs / 86400 + 719162 in
  let sod := secs mod 86400 in
  let '(y, doy) := find_year 400 (400 * (days / 146097) + 1) (days mod 146097) in
  let '(m, d) := find_month (month_days (is_leap y)) 1 doy in
  MkTm y m (d + 1) (sod / 3600) (sod mod 3600 / 60) (sod mod 60).

(** ** [snprintf] with [%0wd] *)

Definition digit (n : Z) : ascii := ascii_of_nat (48 + Z.to_nat n).

Fixpoint pad (w : nat) (n : Z) : string :=
  match w with
  | O => ""
  | S w => pad w (n / 10) ++ String (digit (n mod 10)) ""
  end.

Definition dec (w : nat) (n : Z) : string :=
  if n <? 0 then
    "-" ++ (if - n <? 10 ^ (Z.of_nat w - 1) then pad (w - 1) (- n) else pretty (Z.to_N (- n)))
  else if n <? 10 ^ Z.of_nat w then pad w n else pretty (Z.to_N n).

Definition format (t : tm) (ms : Z) : string :=
  dec 4 (tm_year t) ++ "-" ++ dec 2 (tm_mon t) ++ "-" ++ dec 2 (tm_mday t) ++ "T"
  ++ dec 2 (tm_hour t) ++ ":" ++ dec 2 (tm_min t) ++ ":" ++ dec 2 (tm_sec t) ++ "."
  ++ dec 3 ms ++ "Z".

(** [NowIso8601] at [now_ms] milliseconds since 1970. *)
Definition NowIso8601 (now_ms : Z) : string := format (gmtime (now_ms / 1000)) (now_ms mod 1000).

Definition UnixToIso8601 (unix_secs : Z) : string := format (gmtime unix_secs) 0.

Example iso_now : NowIso8601 1780221600123 = "2026-05-31T10:00:00.123Z".
Proof. vm_compute. reflexivity. Qed.
Example iso_leap : UnixToIso8601 951782400 = "2000-02-29T00:00:00.000Z".
Proof. vm_compute. reflexivity. Qed.

(** ** The calendar is monotone *)

Definition start_of_year (y : Z) : Z :=
  365 * (y - 1) + (y - 1) / 4 - (y - 1) / 100 + (y - 1) / 400.

Lemma start_of_year_succ y : start_of_year (y + 1) = start_of_year y + days_in_year y.
Proof.
  unfold start_of_year, days_in_year, is_leap. replace (y + 1 - 1) with y by lia.
  assert (forall k, 0 < k -> y / k = (y - 1) / k + (if y mod k =? 0 then 1 else 0)) as Hk.
  { intros k Hk. destruct (Z.eqb_spec (y mod k) 0) as [E|E].
    - pose proof (Z.div_mod y k). symmetry. apply Z.add_move_r. symmetry.
      apply (Z.div_unique _ _ _ (k - 1)); [lia|]. rewrite Z.add_comm. nia.
    - pose proof (Z.div_mod y k). pose proof (Z.mod_pos_bound y k).
      rewrite Z.add_0_r. apply (Z.div_unique _ _ _ (y mod k - 1)); lia. }
  rewrite (Hk 4), (Hk 100), (Hk 400) by lia.
  assert (y mod 400 = 0 -> y mod 100 = 0) by (intros; Z.to_euclidean_division_equations; lia).
  assert (y mod 100 = 0 -> y mod 4 = 0) by (intros; Z.to_euclidean_division_equations; lia).
  destruct (Z.eqb_spec (y mod 4) 0), (Z.eqb_spec (y mod 100) 0), (Z.eqb_spec (y mod 400) 0);
    simpl; lia.
Qed.

Lemma start_of_year_mono y y' : y < y' -> start_of_year y + days_in_year y <= start_of_year y'.
Proof.
  intros H. rewrite <-start_of_year_succ. unfold start_of_year.
  Z.to_euclidean_division_equations; lia.
Qed.

Lemma days_in_year_pos y : 365 <= days_in_year y <= 366.
Proof. unfold days_in_year. case_match; lia. Qed.

Lemma find_year_spec fuel : forall y d, 0 <= d < start_of_year (y + Z.of_nat fuel) - start_of_year y ->
  let '(y', d') := find_year fuel y d in
  start_of_year y' + d' = start_of_year y + d /\ 0 <= d' < days_in_year y'
  /\ y <= y' < y + Z.of_nat fuel.
Proof.
  induction fuel as [|n IH]; intros y d Hd; cbn [find_year].
  - rewrite Z.add_0_r in Hd. lia.
  - destruct (Z.ltb_spec d (days_in_year y)) as [Hlt|Hge]; [lia|].
    specialize (IH (y + 1) (d - days_in_year y)).
    pose proof (start_of_year_succ y). replace (y + 1 + Z.of_nat n) with (y + Z.of_nat (S n)) in IH by lia.
    destruct (find_year n _ _) as [y' d']. destruct IH as (H1 & H2 & H3); lia.
Qed.

Definition start_of_month (leap : bool) (m : Z) : Z :=
  foldr Z.add 0 (take (Z.to_nat (m - 1)) (month_days leap)).
Definition month_len (leap : bool) (m : Z) : Z := default 0 (month_days leap !! Z.to_nat (m - 1)).

Lemma month_cases m : 1 <= m <= 12 ->
  m = 1 \/ m = 2 \/ m = 3 \/ m = 4 \/ m = 5 \/ m = 6 \/ m = 7 \/ m = 8 \/ m = 9 \/ m = 10
  \/ m = 11 \/ m = 12.
Proof. lia. Qed.

Lemma start_of_month_mono leap m m' : 1 <= m -> m' <= 12 -> m < m' ->
  start_of_month leap m + month_len leap m <= start_of_month leap m'.
Proof.
  intros Hm Hm' Hlt.
  pose proof (month_cases m ltac:(lia)) as C. pose proof (month_cases m' ltac:(lia)) as C'.
  destruct leap; repeat destruct C as [->|C]; try subst m;
    repeat destruct C' as [->|C']; try subst m'; vm_compute; congruence || lia.
Qed.

Lemma month_len_le leap m : month_len leap m <= 31.
Proof.
  unfold month_len. generalize (Z.to_nat (m - 1)). intros n.
  destruct leap; do 12 (destruct n as [|n]; [vm_compute; congruence|]); vm_compute; congruence.
Qed.

Lemma find_month_gen ms : forall m d, 0 <= d < foldr Z.add 0 ms ->
  let '(m', d') := find_month ms m d in
  foldr Z.add 0 (take (Z.to_nat (m' - m)) ms) + d' = d
  /\ 0 <= d' < default 0 (ms !! Z.to_nat (m' - m)) /\ m <= m' < m + len ms.
Proof.
  induction ms as [|l ms IH]; intros m d Hd; cbn [find_month foldr] in *; [lia|].
  rewrite len_cons. pose proof (len_nonneg ms).
  destruct (Z.ltb_spec d l).
  - rewrite Z.sub_diag. simpl. split; [lia|]. split; lia.
  - specialize (IH (m + 1) (d - l) ltac:(lia)). destruct (find_month ms _ _) as [m' d'].
    destruct IH as (H1 & H2 & H3). replace (Z.to_nat (m' - m)) with (S (Z.to_nat (m' - (m + 1)))) by lia.
    cbn [take foldr lookup list_lookup]. split_and!; [|apply H2|apply H2|lia..].
    change (l + foldr Z.add 0 (take (Z.to_nat (m' - (m + 1))) ms) + d' = d). lia.
Qed.

Lemma find_month_spec (leap : bool) (doy : Z) : 0 <= doy < (if leap then 366 else 365) ->
  let '(m, d) := find_month (month_days leap) 1 doy in
  start_of_month leap m + d = doy /\ 0 <= d < month_len leap m /\ 1 <= m <= 12.
Proof.
  intros H. pose proof (find_month_gen (month_days leap) 1 doy) as G.
  destruct (find_month _ _ _) as [m d]. unfold start_of_month, month_len.
  change (len (month_days leap)) with 12 in G.
  assert (foldr Z.add 0 (month_days leap) = if leap then 366 else 365) as Hs by (by destruct leap).
  rewrite Hs in G. destruct (G H) as (G1 & G2 & G3). split_and!; [done|apply G2|apply G2|lia..].
Qed.

(** Calendar dates, by what [find_year] and [find_month] establish. *)
Lemma gmtime_date secs :
  let t := gmtime secs in
  exists doy, secs / 86400 + 719162 = start_of_year (tm_year t) + doy
  /\ 0 <= doy < days_in_year (tm_year t)
  /\ doy = start_of_month (is_leap (tm_year t)) (tm_mon t) + (tm_mday t - 1)
  /\ 0 <= tm_mday t - 1 < month_len (is_leap (tm_year t)) (tm_mon t)
  /\ 1 <= tm_mon t <= 12.
Proof.
  cbv zeta. unfold gmtime. set (days := secs / 86400 + 719162).
  pose proof (find_year_spec 400 (400 * (days / 146097) + 1) (days mod 146097)) as Hy.
  assert (start_of_year (400 * (days / 146097) + 1 + Z.of_nat 400)
          - start_of_year (400 * (days / 146097) + 1) = 146097
          /\ start_of_year (400 * (days / 146097) + 1) = days / 146097 * 146097) as [H1 H2].
  { unfold start_of_year. generalize (days / 146097). intros k.
    replace (400 * k + 1 + Z.of_nat 400 - 1) with (400 * (k + 1)) by lia.
    replace (400 * k + 1 - 1) with (400 * k) by lia.
    assert (forall k, 400 * k / 4 = 100 * k /\ 400 * k / 100 = 4 * k /\ 400 * k / 400 = k) as Hk.
    { intros j. split_and!; symmetry; apply Z.div_unique_exact; lia. }
    destruct (Hk k) as (-> & -> & ->), (Hk (k + 1)) as (-> & -> & ->). lia. }
  rewrite H1 in Hy. specialize (Hy (Z.mod_pos_bound days 146097 ltac:(lia))).
  destruct (find_year _ _ _) as [y doy]. destruct Hy as (Hy & Hdoy & _).
  pose proof (find_month_spec (is_leap y) doy Hdoy) as Hm.
  destruct (find_month _ _ _) as [m d]. destruct Hm as (Hm & Hd & Hr). cbn [tm_year tm_mon tm_mday].
  exists doy. split_and!; try lia. rewrite Hy, H2. pose proof (Z.div_mod days 146097). lia.
Qed.

(** The order on the fields, most significant first. *)
Definition lex (c d : comparison) : comparison :=
  match c with Eq => d | Lt => Lt | Gt => Gt end.

Definition tm_compare (t t' : tm) : comparison :=
  lex (tm_year t ?= tm_year t') (lex (tm_mon t ?= tm_mon t') (lex (tm_mday t ?= tm_mday t')
    (lex (tm_hour t ?= tm_hour t') (lex (tm_min t ?= tm_min t') (tm_sec t ?= tm_sec t'))))).

Lemma lex_lt x y d : x < y \/ (x = y /\ d = Lt) -> lex (x ?= y) d = Lt.
Proof.
  intros [H|[-> ->]]; [|by rewrite Z.compare_refl]. apply Z.compare_lt_iff in H. by rewrite H.
Qed.

Lemma gmtime_lt secs secs' : secs < secs' -> tm_compare (gmtime secs) (gmtime secs') = Lt.
Proof.
  intros Hlt.
  destruct (gmtime_date secs) as (doy & Hy & Hd & Hm & Hl & Hr).
  destruct (gmtime_date secs') as (doy' & Hy' & Hd' & Hm' & Hl' & Hr').
  assert (secs / 86400 < secs' / 86400
          \/ (secs / 86400 = secs' / 86400 /\ secs mod 86400 < secs' mod 86400)) as Hs.
  { Z.to_euclidean_division_equations; lia. }
  assert (lex (tm_hour (gmtime secs) ?= tm_hour (gmtime secs'))
            (lex (tm_min (gmtime secs) ?= tm_min (gmtime secs'))
              (tm_sec (gmtime secs) ?= tm_sec (gmtime secs'))) = Lt
          \/ secs / 86400 < secs' / 86400) as Ht.
  { destruct Hs as [|[_ Hs]]; [by right|left]. unfold gmtime.
    do 2 (destruct (find_year _ _ _), (find_month _ _ _)). cbn [tm_hour tm_min tm_sec].
    revert Hs. generalize (secs mod 86400), (secs' mod 86400). intros a b Hab.
    apply lex_lt.
    destruct (Z.eq_dec (a / 3600) (b / 3600)); [right|left; Z.to_euclidean_division_equations; lia].
    split; [done|]. apply lex_lt.
    destruct (Z.eq_dec (a mod 3600 / 60) (b mod 3600 / 60));
      [right|left; Z.to_euclidean_division_equations; lia].
    split; [done|]. apply Z.compare_lt_iff. Z.to_euclidean_division_equations; lia. }
  generalize dependent (gmtime secs'). generalize dependent (gmtime secs). intros t Hy Hd Hm Hl Hr t'
    Hy' Hd' Hm' Hl' Hr' Ht.
  unfold tm_compare. apply lex_lt.
  destruct (Z.lt_trichotomy (tm_year t) (tm_year t')) as [|[Ey|Hgt]]; [by left| |].
  - right. split; [done|]. rewrite <-Ey in *. apply lex_lt.
    destruct (Z.lt_trichotomy (tm_mon t) (tm_mon t')) as [|[Em|Hgt]]; [by left| |].
    + right. split; [done|]. rewrite <-Em in *. apply lex_lt.
      destruct Ht as [Ht|Ht]; [|left; lia].
      destruct (Z.eq_dec (tm_mday t) (tm_mday t')); [by right|left; lia].
    + pose proof (start_of_month_mono (is_leap (tm_year t)) (tm_mon t') (tm_mon t) ltac:(lia) ltac:(lia) Hgt). lia.
  - pose proof (start_of_year_mono _ _ Hgt). lia.
Qed.

(** ** The text is ordered like the fields *)

Lemma compare_app a b c d : String.length a = String.length b ->
  String.compare (a ++ c) (b ++ d) = lex (String.compare a b) (String.compare c d).
Proof.
  revert b. induction a as [|x a IH]; intros [|y b] Hl; try done.
  injection Hl as Hl. specialize (IH b Hl).
  change (lex (Ascii.compare x y) (String.compare (a ++ c) (b ++ d))
    = lex (lex (Ascii.compare x y) (String.compare a b)) (String.compare c d)).
  by rewrite IH; destruct (Ascii.compare x y).
Qed.

Lemma pad_length w n : String.length (pad w n) = w.
Proof.
  revert n. induction w as [|w IH]; intros n; [done|]. cbn [pad].
  assert (forall a b, String.length (a ++ b) = (String.length a + String.length b)%nat) as ->.
  { clear. intros a b. induction a as [|x a IH]; [done|].
    change (S (String.length (a ++ b)) = S (String.length a + String.length b)). by rewrite IH. }
  rewrite IH. simpl. lia.
Qed.

Lemma digit_compare x y : 0 <= x < 10 -> 0 <= y < 10 -> Ascii.compare (digit x) (digit y) = (x ?= y).
Proof.
  intros Hx Hy.
  assert (forallb (fun x => forallb (fun y => match Ascii.compare (digit x) (digit y), x ?= y with
    | Eq, Eq | Lt, Lt | Gt, Gt => true | _, _ => false end) (seqZ 0 10)) (seqZ 0 10) = true) as H
    by (vm_compute; reflexivity).
  rewrite forallb_forall in H. specialize (H x ltac:(apply list_elem_of_In, elem_of_seqZ; lia)).
  rewrite forallb_forall in H. specialize (H y ltac:(apply list_elem_of_In, elem_of_seqZ; lia)).
  cbv beta in H. by destruct (Ascii.compare _ _), (x ?= y).
Qed.

Lemma pad_compare w n m : 0 <= n < 10 ^ Z.of_nat w -> 0 <= m < 10 ^ Z.of_nat w ->
  String.compare (pad w n) (pad w m) = (n ?= m).
Proof.
  revert n m. induction w as [|w IH]; intros n m Hn Hm.
  - simpl in *. assert (n = 0 /\ m = 0) as [-> ->] by lia. done.
  - rewrite Nat2Z.inj_succ, Z.pow_succ_r in Hn, Hm by lia. cbn [pad].
    rewrite compare_app by (by rewrite !pad_length).
    rewrite IH by (Z.to_euclidean_division_equations; lia). cbn [String.compare].
    rewrite digit_compare by (apply Z.mod_pos_bound; lia).
    assert ((n / 10 < m / 10 -> n < m) /\ (m / 10 < n / 10 -> m < n)
            /\ (n / 10 = m / 10 -> (n mod 10 ?= m mod 10) = (n ?= m))) as (H1 & H2 & H3).
    { split; [|split]; [Z.to_euclidean_division_equations; lia..|]. intros E.
      pose proof (Z.div_mod n 10). pose proof (Z.div_mod m 10).
      destruct (Z.compare_spec (n mod 10) (m mod 10)) as [F|F|F]; symmetry;
        [apply Z.compare_eq_iff|apply Z.compare_lt_iff|apply Z.compare_gt_iff]; lia. }
    destruct (Z.compare_spec (n / 10) (m / 10)) as [E|E|E]; simpl.
    + rewrite (H3 E). by destruct (n ?= m).
    + symmetry. by apply Z.compare_lt_iff, H1.
    + symmetry. by apply Z.compare_gt_iff, H2.
Qed.

Lemma dec_compare w n m : 0 <= n < 10 ^ Z.of_nat w -> 0 <= m < 10 ^ Z.of_nat w ->
  String.compare (dec w n) (dec w m) = (n ?= m).
Proof.
  intros Hn Hm. unfold dec.
  destruct (Z.ltb_spec n 0), (Z.ltb_spec m 0), (Z.ltb_spec n (10 ^ Z.of_nat w)),
    (Z.ltb_spec m (10 ^ Z.of_nat w)); try lia. by apply pad_compare.
Qed.

Lemma dec_length w n : 0 <= n < 10 ^ Z.of_nat w -> String.length (dec w n) = w.
Proof.
  intros Hn. unfold dec. destruct (Z.ltb_spec n 0), (Z.ltb_spec n (10 ^ Z.of_nat w)); try lia.
  apply pad_length.
Qed.

Definition tm_ok (t : tm) : Prop :=
  0 <= tm_year t < 10000 /\ 0 <= tm_mon t < 100 /\ 0 <= tm_mday t < 100
  /\ 0 <= tm_hour t < 100 /\ 0 <= tm_min t < 100 /\ 0 <= tm_sec t < 100.

Lemma field_compare w n m c d : 0 <= n < 10 ^ Z.of_nat w -> 0 <= m < 10 ^ Z.of_nat w ->
  String.compare (dec w n ++ c) (dec w m ++ d) = lex (n ?= m) (String.compare c d).
Proof. intros. rewrite compare_app by (by rewrite !dec_length). by rewrite dec_compare. Qed.

Lemma sep_compare x c d : String.compare (String x "" ++ c) (String x "" ++ d) = String.compare c d.
Proof.
  rewrite compare_app by done. cbn.
  assert (Ascii.compare x x = Eq) as -> by (unfold Ascii.compare; apply N.compare_refl). done.
Qed.

Lemma lex_assoc a b c : lex (lex a b) c = lex a (lex b c).
Proof. by destruct a. Qed.

Lemma format_compare t t' ms ms' : tm_ok t -> tm_ok t' -> 0 <= ms < 1000 -> 0 <= ms' < 1000 ->
  String.compare (format t ms) (format t' ms') = lex (tm_compare t t') (ms ?= ms').
Proof.
  intros (?&?&?&?&?&?) (?&?&?&?&?&?) ??. unfold format, tm_compare.
  rewrite !lex_assoc.
  repeat (rewrite field_compare by (cbn; lia); try rewrite sep_compare).
  change (String.compare "Z" "Z") with Eq. by destruct (ms ?= ms').
Qed.

(** The times between the first instant of year 1 and the end of year 9999. *)
Definition in_range (ms : Z) : Prop := -62135596800000 <= ms < 253402300800000.

Lemma gmtime_ok ms : in_range ms -> tm_ok (gmtime (ms / 1000)).
Proof.
  intros [Hlo Hhi]. destruct (gmtime_date (ms / 1000)) as (doy & Hy & Hd & _ & Hl & Hm).
  pose proof (month_len_le (is_leap (tm_year (gmtime (ms / 1000)))) (tm_mon (gmtime (ms / 1000)))).
  assert (0 <= ms / 1000 / 86400 + 719162 < 3652059) as Hr
    by (rewrite Z.div_div by lia; split;
        [pose proof (Z.div_le_lower_bound ms (1000 * 86400) (-719162) ltac:(lia) ltac:(lia)); lia
        |pose proof (Z.div_lt_upper_bound ms (1000 * 86400) 2932897 ltac:(lia) ltac:(lia)); lia]).
  assert (1 <= tm_year (gmtime (ms / 1000)) < 10000) as Hyr.
  { destruct (Z.lt_ge_cases (tm_year (gmtime (ms / 1000))) 1) as [C|C].
    - pose proof (start_of_year_mono _ _ C) as M. change (start_of_year 1) with 0 in M. lia.
    - split; [done|]. apply Z.nle_gt. intros D.
      destruct (Z.eq_dec (tm_year (gmtime (ms / 1000))) 10000) as [E|E].
      + rewrite E in Hy. change (start_of_year 10000) with 3652059 in Hy. lia.
      + pose proof (start_of_year_mono 10000 (tm_year (gmtime (ms / 1000))) ltac:(lia)) as M.
        change (start_of_year 10000) with 3652059 in M.
        change (days_in_year 10000) with 366 in M. lia. }
  assert (0 <= tm_hour (gmtime (ms / 1000)) < 24 /\ 0 <= tm_min (gmtime (ms / 1000)) < 60
          /\ 0 <= tm_sec (gmtime (ms / 1000)) < 60).
  { unfold gmtime. destruct (find_year _ _ _), (find_month _ _ _). cbn [tm_hour tm_min tm_sec].
    Z.to_euclidean_division_equations; lia. }
  unfold tm_ok. lia.
Qed.

Lemma NowIso8601_lt a b : in_range a -> in_range b -> a < b ->
  String.compare (NowIso8601 a) (NowIso8601 b) = Lt.
Proof.
  intros Ha Hb Hlt. unfold NowIso8601.
  rewrite format_compare by first [by apply gmtime_ok | apply Z.mod_pos_bound; lia].
  assert (a / 1000 < b / 1000 \/ (a / 1000 = b / 1000 /\ a mod 1000 < b mod 1000)) as [H|[H Hms]]
    by (clear -Hlt; Z.to_euclidean_division_equations; lia).
  - by rewrite (gmtime_lt _ _ H).
  - rewrite H. unfold tm_compare. rewrite !Z.compare_refl. by apply Z.compare_lt_iff.
Qed.

(** Timestamps are compared by time.  Between the years 1 and 9999 the text
    that [NowIso8601] writes compares in SQLite's byte order as the times in
    milliseconds compare, so the cut-offs of the queries on the task table select
    by age. *)
Theorem Iso8601_order (a b : Z) : in_range a -> in_range b ->
  String.compare (NowIso8601 a) (NowIso8601 b) = (a ?= b).
Proof.
  intros Ha Hb. destruct (Z.compare_spec a b) as [->|H|H].
  - pose proof (String.compare_antisym (NowIso8601 b) (NowIso8601 b)) as E.
    by destruct (String.compare (NowIso8601 b) (NowIso8601 b)).
  - by apply NowIso8601_lt.
  - rewrite String.compare_antisym. by rewrite NowIso8601_lt.
Qed.

Lemma Iso8601_order_witness :
  String.compare (NowIso8601 951782399999) (NowIso8601 951782400000) = Lt.
Proof. apply (Iso8601_order 951782399999 951782400000); split; done. Defined.
