(* ===== verification/F42Error.v ===== *)
(** * Error identities of the task subsystem (src/async/f42_error.cpp)

    Eleven codes with their wire string, HTTP status, retry policy and required
    context keys.  A JSON value matters only through the keys it has as an
    object. *)
From S2P Require Import Prelude Status.

(** [agent_friendly::ErrorCategory] and [AgentFriendlyError]; the JSON payload is
    a parameter. *)
Inductive ErrorCategory := kAuth | kQuota | kTransient | kPermanent | kTimeout.

#[export] Instance ErrorCategory_eq_dec : EqDecision ErrorCategory.
Proof. solve_decision. Defined.

Record AgentFriendlyError (json : Type) := MkAgentFriendlyError {
  afe_code : string;
  afe_message : string;
  afe_retryable : bool;
  afe_category : ErrorCategory;
  afe_retry_after_ms : option Z;
  afe_structured_data : option json
}.
Arguments MkAgentFriendlyError {json}.

Module F42.

Inductive F42ErrorCode :=
| kInvalidRequest
| kMaxPagesExceeded
| kTaskNotFound
| kTaskTimeout
| kDocProcessingInProgress
| kTaskCancelling
| kParseFailed
| kStorageFailed
| kWorkerBusy
| kZombieTaskCleanup
| kServiceUnavailable.

#[export] Instance F42ErrorCode_eq_dec : EqDecision F42ErrorCode.
Proof. solve_decision. Defined.

Record F42ErrorInfo := MkF42ErrorInfo {
  cx_code : string;
  info_http_status : Z;
  category : ErrorCategory;
  retryable : bool;
  retry_after_ms : option Z
}.

Definition GetF42ErrorInfo (code : F42ErrorCode) : F42ErrorInfo :=
  match code with
  | kInvalidRequest => MkF42ErrorInfo "CX_ERR_INVALID_REQUEST" 400 kPermanent false None
  | kMaxPagesExceeded => MkF42ErrorInfo "CX_ERR_MAX_PAGES_EXCEEDED" 403 kPermanent false None
  | kTaskNotFound => MkF42ErrorInfo "CX_ERR_TASK_NOT_FOUND" 404 kPermanent false None
  | kTaskTimeout => MkF42ErrorInfo "CX_ERR_TASK_TIMEOUT" 408 kTimeout true (Some 60000)
  | kDocProcessingInProgress =>
      MkF42ErrorInfo "CX_ERR_DOC_PROCESSING_IN_PROGRESS" 409 kTransient true (Some 30000)
  | kTaskCancelling => MkF42ErrorInfo "CX_ERR_TASK_CANCELLING" 423 kPermanent false None
  | kParseFailed => MkF42ErrorInfo "CX_ERR_PARSE_FAILED" 500 kPermanent false None
  | kStorageFailed => MkF42ErrorInfo "CX_ERR_STORAGE_FAILED" 500 kPermanent false None
  | kWorkerBusy => MkF42ErrorInfo "CX_ERR_WORKER_BUSY" 500 kTransient true (Some 10000)
  | kZombieTaskCleanup => MkF42ErrorInfo "CX_ERR_ZOMBIE_TASK_CLEANUP" 500 kPermanent false None
  | kServiceUnavailable =>
      MkF42ErrorInfo "CX_ERR_SERVICE_UNAVAILABLE" 503 kTransient true (Some 10000)
  end%string.

Definition F42ErrorCodeString (code : F42ErrorCode) : string := cx_code (GetF42ErrorInfo code).
Definition F42ErrorHttpStatus (code : F42ErrorCode) : Z := info_http_status (GetF42ErrorInfo code).

Definition RequiredStructuredDataKeys (code : F42ErrorCode) : list string :=
  match code with
  | kInvalidRequest => ["rules_violated"]
  | kMaxPagesExceeded => ["max_pages"; "actual_pages"; "edition"]
  | kTaskNotFound => []
  | kTaskTimeout => ["task_id"; "timeout_seconds"; "last_phase"]
  | kDocProcessingInProgress => ["existing_task_id"; "doc_id"]
  | kTaskCancelling => ["task_id"; "current_status"]
  | kParseFailed => ["task_id"; "page_number"; "parser_error"]
  | kStorageFailed => ["task_id"; "filepath"; "error"]
  | kWorkerBusy => ["active_tasks"; "max_workers"]
  | kZombieTaskCleanup => ["task_id"; "last_alive_at"]
  | kServiceUnavailable => ["component"]
  end%string.

(** The argument is the keys of the JSON object, or [None] for another value. *)
Definition HasRequiredStructuredData (code : F42ErrorCode) (structured_data : option (list string)) : bool :=
  let keys := RequiredStructuredDataKeys code in
  match structured_data with
  | None => bool_decide (keys = [])
  | Some present => forallb (fun key => bool_decide (key ∈ present)) keys
  end.

Definition MakeF42Error {json} (code : F42ErrorCode) (structured_data : json) (message : string)
    : AgentFriendlyError json :=
  let info := GetF42ErrorInfo code in
  MkAgentFriendlyError (cx_code info)
    (if bool_decide (message = ""%string) then cx_code info else message)
    (retryable info) (category info) (retry_after_ms info) (Some structured_data).

Definition F42ErrorToStatusCode (code : F42ErrorCode) : StatusCode :=
  match code with
  | kInvalidRequest | kMaxPagesExceeded => kInvalidArgument
  | kTaskNotFound => kNotFound
  | kTaskTimeout => kUnavailable
  | kDocProcessingInProgress | kTaskCancelling => kAlreadyExists
  | kParseFailed | kStorageFailed | kZombieTaskCleanup => kInternal
  | kWorkerBusy | kServiceUnavailable => kUnavailable
  end.

Definition F42Status (code : F42ErrorCode) (detail : string) : Status :=
  let cx := F42ErrorCodeString code in
  MkStatus (F42ErrorToStatusCode code)
    (if bool_decide (detail = ""%string) then cx else cx +:+ ": " +:+ detail)%string.

(** [s.message().rfind(F42ErrorCodeString(code), 0) == 0]. *)
Definition is_code (code : F42ErrorCode) (s : Status) : bool :=
  String.prefix (F42ErrorCodeString code) (status_message s).

(** ** Properties *)

Definition all_codes : list F42ErrorCode :=
  [kInvalidRequest; kMaxPagesExceeded; kTaskNotFound; kTaskTimeout; kDocProcessingInProgress;
   kTaskCancelling; kParseFailed; kStorageFailed; kWorkerBusy; kZombieTaskCleanup; kServiceUnavailable].

Lemma prefix_app a b : String.prefix a (a +:+ b) = true.
Proof.
  induction a as [|x a IH]; [by destruct b|]. simpl. by destruct (Ascii.ascii_dec x x).
Qed.

(** The identity can be read back from a status' message, and from nothing
    else: no code string is a prefix of another one's message. *)
Theorem F42Status_identity code code' detail :
  status_ok (F42Status code detail) = false
  /\ is_code code' (F42Status code detail) = bool_decide (code' = code).
Proof.
  split; [by destruct code|].
  unfold is_code, F42Status. cbn [status_message].
  assert (exists t, (if bool_decide (detail = ""%string) then F42ErrorCodeString code
    else F42ErrorCodeString code +:+ ": " +:+ detail) = F42ErrorCodeString code +:+ t) as [t ->].
  { case_bool_decide; [exists ""%string|eauto]. by destruct code. }
  destruct (decide (code' = code)) as [->|Hne].
  - by rewrite prefix_app, bool_decide_true.
  - rewrite bool_decide_false by done.
    destruct code, code'; try done; vm_compute; by destruct t.
Qed.

Lemma is_code_self code detail : is_code code (F42Status code detail) = true.
Proof. by rewrite (proj2 (F42Status_identity _ _ _)), bool_decide_true. Qed.
#[export] Hint Resolve is_code_self : cortrix.

End F42.
