(* ===== verification/TaskManager.v ===== *)
(** * The task table (src/async/task_manager.cpp)

    Every method is one critical section around one or two SQL statements on the
    table [tasks].  The table is the list of its rows; a statement is its WHERE
    clause, a boolean function, with its SET clause or its ORDER BY and LIMIT.
    Text columns are strings and NULL is [None]; a comparison with NULL is false.

    SQLite is present through what its calls return: each statement takes the
    next outcome of a list, which may be a failure to prepare it or a failure
    after some rows.  A failed INSERT, UPDATE or DELETE leaves the table as it
    was.  The order of rows with equal keys is SQLite's choice ([OrderBy]). *)
From stdpp Require Import sorting.
From Stdlib Require Import Ascii String.
From S2P Require Import Prelude Status Iso8601 F42Error Ulid.

(** ** What the code relies on *)

(** [nlohmann::json] on the column [failed_pages]: [dump] of an array of
    integers, and the integers of the array that a text parses to. *)
Class JsonInts := {
  json_dump_ints : list Z -> string;
  json_parse_ints : string -> list Z;
  json_ints_roundtrip l : Forall (fun z => i32 z = z) l -> json_parse_ints (json_dump_ints l) = l
}.

(** [std::filesystem]: [weakly_canonical] resolves a path or fails;
    [parent_path] of a resolved path; whether an existing file can be removed. *)
Class Paths := {
  weakly_canonical : string -> option string;
  parent_path : string -> string;
  can_remove : string -> bool
}.

Module TaskManager.

Inductive sql_outcome :=
| SqlOk
| SqlPrepareErr
| SqlStepErr (rows : nat).

(** ** Rows *)

Record TaskInfo := MkTaskInfo {
  task_id : string;
  namespace_id : string;
  filename : string;
  filepath : string;
  doc_id : string;
  content_hash : string;
  status : string;
  task_type : Z;
  cancel_requested : bool;
  total_pages : Z;
  processed_pages : Z;
  failed_pages : list Z;
  progress_pct : Z; (* the bits of a float *)
  eta_seconds : Z;
  current_phase : string;
  worker_id : Z;
  trace_id : string;
  error_code : string;
  error_msg : string;
  structured_data : string;
  created_at : string;
  updated_at : string;
  started_at : string;
  completed_at : string;
  metadata_json : string
}.

#[export] Instance TaskInfo_eta : Eta TaskInfo := fun t =>
  MkTaskInfo (task_id t) (namespace_id t) (filename t) (filepath t) (doc_id t) (content_hash t)
    (status t) (task_type t) (cancel_requested t) (total_pages t) (processed_pages t)
    (failed_pages t) (progress_pct t) (eta_seconds t) (current_phase t) (worker_id t) (trace_id t)
    (error_code t) (error_msg t) (structured_data t) (created_at t) (updated_at t) (started_at t)
    (completed_at t) (metadata_json t).

(** A row of the table; the columns that the schema lets be NULL are options. *)
Record Row := MkRow {
  c_task_id : string;
  c_namespace_id : string;
  c_filename : string;
  c_filepath : string;
  c_doc_id : option string;
  c_content_hash : option string;
  c_status : string;
  c_task_type : Z;
  c_cancel_requested : Z;
  c_total_pages : Z;
  c_processed_pages : Z;
  c_failed_pages : string;
  c_progress_pct : Z;
  c_eta_seconds : Z;
  c_current_phase : option string;
  c_worker_id : option Z;
  c_trace_id : option string;
  c_error_code : option string;
  c_error_msg : option string;
  c_structured_data : option string;
  c_created_at : string;
  c_updated_at : string;
  c_started_at : option string;
  c_completed_at : option string;
  c_metadata_json : option string;
  c_filepath_canonical : option string
}.

#[export] Instance Row_eta : Eta Row := fun r =>
  MkRow (c_task_id r) (c_namespace_id r) (c_filename r) (c_filepath r) (c_doc_id r)
    (c_content_hash r) (c_status r) (c_task_type r) (c_cancel_requested r) (c_total_pages r)
    (c_processed_pages r) (c_failed_pages r) (c_progress_pct r) (c_eta_seconds r)
    (c_current_phase r) (c_worker_id r) (c_trace_id r) (c_error_code r) (c_error_msg r)
    (c_structured_data r) (c_created_at r) (c_updated_at r) (c_started_at r) (c_completed_at r)
    (c_metadata_json r) (c_filepath_canonical r).

#[export] Instance Row_eq_dec : EqDecision Row.
Proof. solve_decision. Defined.

(** The strings of [task_status]. *)
Definition kQueued : string := "queued".
Definition kProcessing : string := "processing".
Definition kCancelling : string := "cancelling".
Definition kCompleted : string := "completed".
Definition kFailed : string := "failed".
Definition kCancelled : string := "cancelled".

(** The CHECK constraint of the column. *)
Definition status_check (s : string) : bool :=
  bool_decide (s ∈ [kQueued; kProcessing; kCancelling; kCompleted; kFailed; kCancelled]).
Definition terminal (s : string) : bool := bool_decide (s ∈ [kCompleted; kFailed; kCancelled]).

(** The float 100.0 and the float 0.0. *)
Definition hundred_percent : Z := 1120403456.
Definition zero_percent : Z := 0.

Record TaskManager := MkTaskManager {
  tasks : list Row;
  outcomes : list sql_outcome;
  ulids : Ulid.Globals (* the process-wide state of the identifier generator *)
}.

#[export] Instance TaskManager_eta : Eta TaskManager := fun m =>
  MkTaskManager (tasks m) (outcomes m) (ulids m).

(** ** Statements *)

Definition next_outcome (m : TaskManager) : sql_outcome * TaskManager :=
  match outcomes m with
  | [] => (SqlOk, m)
  | o :: os => (o, m <| outcomes := os |>)
  end.

(** What [sqlite3_prepare_v2] and [sqlite3_step] report of a changing statement:
    a failure to prepare, a failed step, or the number of changed rows. *)
Inductive changed := PrepareFailed | StepFailed | Changes (n : Z).

Definition update (where_ : Row -> bool) (set : Row -> Row) (m : TaskManager)
    : changed * TaskManager :=
  let '(o, m) := next_outcome m in
  match o with
  | SqlPrepareErr => (PrepareFailed, m)
  | SqlStepErr _ => (StepFailed, m)
  | SqlOk =>
      (Changes (len (filter (fun r => where_ r = true) (tasks m))),
       m <| tasks := (fun r => if where_ r then set r else r) <$> tasks m |>)
  end.

Definition delete_where (where_ : Row -> bool) (m : TaskManager) : changed * TaskManager :=
  let '(o, m) := next_outcome m in
  match o with
  | SqlPrepareErr => (PrepareFailed, m)
  | SqlStepErr _ => (StepFailed, m)
  | SqlOk =>
      (Changes (len (filter (fun r => where_ r = true) (tasks m))),
       m <| tasks := filter (fun r => where_ r = false) (tasks m) |>)
  end.

(** PRIMARY KEY and CHECK make the step fail. *)
Definition insert_row (r : Row) (m : TaskManager) : changed * TaskManager :=
  let '(o, m) := next_outcome m in
  match o with
  | SqlPrepareErr => (PrepareFailed, m)
  | SqlStepErr _ => (StepFailed, m)
  | SqlOk =>
      if bool_decide (c_task_id r ∈ c_task_id <$> tasks m) || negb (status_check (c_status r))
      then (StepFailed, m)
      else (Changes 1, m <| tasks := tasks m ++ [r] |>)
  end.

(** The rows that a SELECT delivers before [SQLITE_DONE] ([true]) or before an
    error ([false]); [None] when it does not prepare. *)
Definition select (result : list Row) (m : TaskManager) : option (list Row * bool) * TaskManager :=
  let '(o, m) := next_outcome m in
  match o with
  | SqlPrepareErr => (None, m)
  | SqlStepErr k => (Some (take k result, false), m)
  | SqlOk => (Some (result, true), m)
  end.

Definition rows_where (where_ : Row -> bool) (m : TaskManager) : list Row :=
  filter (fun r => where_ r = true) (tasks m).

(** [ORDER BY created_at]: some order that is sorted by the column. *)
Class OrderBy := {
  order_asc : list Row -> list Row;
  order_desc : list Row -> list Row;
  order_asc_perm l : order_asc l ≡ₚ l;
  order_desc_perm l : order_desc l ≡ₚ l;
  order_asc_sorted l :
    StronglySorted (fun a b => String.leb (c_created_at a) (c_created_at b) = true) (order_asc l);
  order_desc_sorted l :
    StronglySorted (fun a b => String.leb (c_created_at b) (c_created_at a) = true) (order_desc l)
}.

(** ** Binding and reading columns *)

(** [BindNullableText] and [SafeColText]. *)
Definition nullable (s : string) : option string := if bool_decide (s = ""%string) then None else Some s.
Definition col_text (c : option string) : string := default ""%string c.

(** [WHERE c = ?] on a column that may be NULL. *)
Definition sql_eq (c : option string) (v : string) : bool := bool_decide (c = Some v).

Section Ops.
Context `{JsonInts, Paths, OrderBy}.
Context (draw : nat -> Z).

Definition ReadRow (r : Row) : TaskInfo :=
  MkTaskInfo (c_task_id r) (c_namespace_id r) (c_filename r) (c_filepath r)
    (col_text (c_doc_id r)) (col_text (c_content_hash r)) (c_status r) (c_task_type r)
    (negb (c_cancel_requested r =? 0)) (c_total_pages r) (c_processed_pages r)
    (json_parse_ints (c_failed_pages r)) (c_progress_pct r) (c_eta_seconds r)
    (col_text (c_current_phase r)) (default (-1) (c_worker_id r)) (col_text (c_trace_id r))
    (col_text (c_error_code r)) (col_text (c_error_msg r)) (col_text (c_structured_data r))
    (c_created_at r) (c_updated_at r) (col_text (c_started_at r)) (col_text (c_completed_at r))
    (col_text (c_metadata_json r)).

Definition storage_failed (what : string) : Status := F42.F42Status F42.kStorageFailed what.
Definition task_not_found (id : string) : Status := F42.F42Status F42.kTaskNotFound id.
Definition in_progress (detail : string) : Status := F42.F42Status F42.kDocProcessingInProgress detail.

Definition has_id (id : string) (r : Row) : bool := bool_decide (c_task_id r = id).
Definition status_in (l : list string) (r : Row) : bool := bool_decide (c_status r ∈ l).

(** ** CRUD *)

(** The identifier as text. *)
Definition ulid_text (codes : list Z) : string :=
  string_of_list_ascii ((fun c => ascii_of_nat (Z.to_nat c)) <$> codes).

(** [weakly_canonical] of a path that is not empty, or NULL. *)
Definition canonical_of (path : string) : option string :=
  if bool_decide (path = ""%string) then None
  else match weakly_canonical path with Some c => nullable c | None => None end.

(** The column [worker_id]: negative is NULL. *)
Definition worker_col (w : Z) : option Z := if w <? 0 then None else Some w.

Definition row_of (t : TaskInfo) : Row :=
  MkRow (task_id t) (namespace_id t) (filename t) (filepath t) (nullable (doc_id t))
    (nullable (content_hash t)) (status t) (task_type t) (if cancel_requested t then 1 else 0)
    (total_pages t) (processed_pages t) (json_dump_ints (failed_pages t)) (progress_pct t)
    (eta_seconds t) (nullable (current_phase t)) (worker_col (worker_id t)) (nullable (trace_id t))
    (nullable (error_code t)) (nullable (error_msg t)) (nullable (structured_data t))
    (created_at t) (updated_at t) (nullable (started_at t)) (nullable (completed_at t))
    (nullable (metadata_json t)) (canonical_of (filepath t)).

Definition CreateTask (now : Z) (task : TaskInfo) (m : TaskManager) : Result TaskInfo * TaskManager :=
  let '(id, g) :=
    if bool_decide (task_id task = ""%string)
    then let '(codes, g) := Ulid.GenerateUlid draw now (ulids m) in (ulid_text codes, g)
    else (task_id task, ulids m) in
  let m := m <| ulids := g |> in
  let task := task <| task_id := id |> <| created_at := NowIso8601 now |>
                   <| updated_at := NowIso8601 now |> in
  let '(c, m) := insert_row (row_of task) m in
  match c with
  | PrepareFailed => (Error (storage_failed "CreateTask prepare: "), m)
  | StepFailed => (Error (storage_failed "CreateTask step: "), m)
  | Changes _ => (Value task, m)
  end.

Definition GetTask (id : string) (m : TaskManager) : Result TaskInfo * TaskManager :=
  let '(s, m) := select (rows_where (has_id id) m) m in
  match s with
  | None => (Error (storage_failed "GetTask prepare"), m)
  | Some (r :: _, _) => (Value (ReadRow r), m)
  | Some ([], _) => (Error (task_not_found id), m)
  end.

Definition UpdateProgress (now : Z) (task : TaskInfo) (m : TaskManager) : Status * TaskManager :=
  let '(c, m) := update (has_id (task_id task))
    (fun r => r <| c_processed_pages := processed_pages task |> <| c_total_pages := total_pages task |>
                <| c_failed_pages := json_dump_ints (failed_pages task) |>
                <| c_progress_pct := progress_pct task |> <| c_eta_seconds := eta_seconds task |>
                <| c_current_phase := nullable (current_phase task) |>
                <| c_worker_id := worker_col (worker_id task) |>
                <| c_updated_at := NowIso8601 now |>) m in
  match c with
  | PrepareFailed => (storage_failed "UpdateProgress prepare", m)
  | StepFailed => (storage_failed "UpdateProgress step", m)
  | Changes n => (if n =? 0 then task_not_found (task_id task) else Status_Ok, m)
  end.

(** [LIMIT ? OFFSET ?]: a negative limit is none, a negative offset is 0. *)
Definition page (limit offset : Z) (l : list Row) : list Row :=
  let l := drop (Z.to_nat offset) l in
  if limit <? 0 then l else take (Z.to_nat limit) l.

(** An error in the middle of the scan ends the list. *)
Definition ListByNamespace (ns : string) (limit offset : Z) (m : TaskManager)
    : Result (list TaskInfo) * TaskManager :=
  let '(s, m) := select (page limit offset
    (order_desc (rows_where (fun r => bool_decide (c_namespace_id r = ns)) m))) m in
  match s with
  | None => (Error (storage_failed "ListByNamespace prepare"), m)
  | Some (rs, _) => (Value (ReadRow <$> rs), m)
  end.

(** ** State transitions *)

(** [SELECT 1 FROM tasks WHERE task_id=?] after an update that changed nothing. *)
Definition probe (id : string) (m : TaskManager) : bool * TaskManager :=
  let '(s, m) := select (rows_where (has_id id) m) m in
  (match s with Some (_ :: _, _) => true | _ => false end, m).

Definition MarkProcessing (now : Z) (id : string) (worker : Z) (m : TaskManager)
    : Status * TaskManager :=
  let '(c, m) := update (fun r => has_id id r && status_in [kQueued] r)
    (fun r => r <| c_status := kProcessing |> <| c_worker_id := Some worker |>
                <| c_started_at := Some (NowIso8601 now) |> <| c_updated_at := NowIso8601 now |>) m in
  match c with
  | PrepareFailed => (storage_failed "MarkProcessing prepare", m)
  | StepFailed => (storage_failed "MarkProcessing step", m)
  | Changes n =>
      if n =? 0 then
        let '(exists_, m) := probe id m in
        (if exists_ then in_progress id else task_not_found id, m)
      else (Status_Ok, m)
  end.

(** The status text read back must not be empty. *)
Definition RejectedTransitionStatus (id target : string) (m : TaskManager) : Status * TaskManager :=
  let '(s, m) := select (rows_where (has_id id) m) m in
  let current := match s with Some (r :: _, _) => c_status r | _ => ""%string end in
  (if bool_decide (current = ""%string) then task_not_found id
   else in_progress ("task " +:+ id +:+ " status=" +:+ current +:+ " cannot transition to " +:+ target), m).

(** The common shape of the guarded terminal transitions. *)
Definition transition (what id : string) (from : list string) (target : string)
    (set : Row -> Row) (m : TaskManager) : Status * TaskManager :=
  let '(c, m) := update (fun r => has_id id r && status_in from r) set m in
  match c with
  | PrepareFailed => (storage_failed (what +:+ " prepare"), m)
  | StepFailed => (storage_failed (what +:+ " step"), m)
  | Changes n => if n =? 0 then RejectedTransitionStatus id target m else (Status_Ok, m)
  end.

Definition MarkCompleted (now : Z) (id doc : string) (m : TaskManager) : Status * TaskManager :=
  transition "MarkCompleted" id [kProcessing; kCancelling] "completed"
    (fun r => r <| c_status := kCompleted |> <| c_doc_id := nullable doc |>
                <| c_progress_pct := hundred_percent |>
                <| c_completed_at := Some (NowIso8601 now) |> <| c_updated_at := NowIso8601 now |>) m.

Definition MarkFailed (now : Z) (id code msg data : string) (m : TaskManager) : Status * TaskManager :=
  transition "MarkFailed" id [kProcessing; kCancelling] "failed"
    (fun r => r <| c_status := kFailed |> <| c_error_code := nullable code |>
                <| c_error_msg := nullable msg |> <| c_structured_data := nullable data |>
                <| c_completed_at := Some (NowIso8601 now) |> <| c_updated_at := NowIso8601 now |>) m.

Definition MarkCancelled (now : Z) (id : string) (m : TaskManager) : Status * TaskManager :=
  transition "MarkCancelled" id [kQueued; kCancelling] "cancelled"
    (fun r => r <| c_status := kCancelled |> <| c_completed_at := Some (NowIso8601 now) |>
                <| c_updated_at := NowIso8601 now |>) m.

(** Read, decide, write, under one lock; the value is what [out] receives. *)
Definition RequestCancel (now : Z) (id : string) (m : TaskManager) : Result TaskInfo * TaskManager :=
  let '(s, m) := select (rows_where (has_id id) m) m in
  match s with
  | None => (Error (storage_failed "RequestCancel select prepare"), m)
  | Some ([], _) => (Error (task_not_found id), m)
  | Some (r :: _, _) =>
      let t := ReadRow r in
      let new_status :=
        if bool_decide (status t = kQueued) then Some kCancelled
        else if bool_decide (status t = kProcessing) then Some kCancelling
        else None in
      match new_status with
      | None =>
          (Error (F42.F42Status F42.kTaskCancelling
                    ("task " +:+ id +:+ " status=" +:+ status t)), m)
      | Some st =>
          let is_terminal := bool_decide (st = kCancelled) in
          let '(c, m) := update (has_id id)
            (fun r => let r := r <| c_cancel_requested := 1 |> <| c_status := st |>
                                 <| c_updated_at := NowIso8601 now |> in
                      if is_terminal then r <| c_completed_at := Some (NowIso8601 now) |> else r) m in
          match c with
          | PrepareFailed => (Error (storage_failed "RequestCancel update prepare"), m)
          | StepFailed => (Error (storage_failed "RequestCancel step"), m)
          | Changes _ =>
              let t := t <| cancel_requested := true |> <| status := st |>
                         <| updated_at := NowIso8601 now |> in
              (Value (if is_terminal then t <| completed_at := NowIso8601 now |> else t), m)
          end
      end
  end.

(** ** Queries of the scheduler *)

Definition FindRecentTaskByDocId (now : Z) (ns doc : string) (type window : Z) (m : TaskManager)
    : Result (option TaskInfo) * TaskManager :=
  if bool_decide (doc = ""%string) then (Value None, m) else
  let cutoff := UnixToIso8601 (now / 1000 - window) in
  let '(s, m) := select (take 1 (order_desc (rows_where (fun r =>
    bool_decide (c_namespace_id r = ns) && sql_eq (c_doc_id r) doc && (c_task_type r =? type)
    && String.leb cutoff (c_created_at r)
    && negb (status_in [kCancelled; kCancelling; kFailed] r)) m))) m in
  match s with
  | None => (Error (storage_failed "FindRecentTaskByDocId prepare"), m)
  | Some (rs, _) => (Value (ReadRow <$> head rs), m)
  end.

Definition HasActiveTask (ns doc : string) (type : Z) (m : TaskManager) : Result bool * TaskManager :=
  let '(s, m) := select (take 1 (rows_where (fun r =>
    bool_decide (c_namespace_id r = ns) && sql_eq (c_doc_id r) doc && (c_task_type r =? type)
    && status_in [kQueued; kProcessing; kCancelling] r) m)) m in
  match s with
  | None => (Error (storage_failed "HasActiveTask prepare"), m)
  | Some (_ :: _, _) => (Value true, m)
  | Some ([], true) => (Value false, m)
  | Some ([], false) => (Error (storage_failed "HasActiveTask step"), m)
  end.

Definition TryClaimDebounceMerge (now : Z) (id : string) (m : TaskManager)
    : Result TaskInfo * TaskManager :=
  let '(c, m) := update (fun r => has_id id r && negb (status_in [kCancelled; kCancelling; kFailed] r))
    (fun r => r <| c_updated_at := NowIso8601 now |>) m in
  match c with
  | PrepareFailed => (Error (storage_failed "TryClaimDebounceMerge prepare"), m)
  | StepFailed => (Error (storage_failed "TryClaimDebounceMerge step"), m)
  | Changes n =>
      if n =? 0 then
        let '(exists_, m) := probe id m in
        (Error (if exists_ then in_progress id else task_not_found id), m)
      else
        let '(s, m) := select (rows_where (has_id id) m) m in
        match s with
        | None => (Error (storage_failed "TryClaimDebounceMerge select"), m)
        | Some ([], _) => (Error (task_not_found id), m)
        | Some (r :: _, _) => (Value (ReadRow r), m)
        end
  end.

Record SubmitRequest := MkSubmitRequest {
  rq_namespace_id : string;
  rq_filename : string;
  rq_filepath : string;
  rq_doc_id : string;
  rq_content_hash : string;
  rq_trace_id : string;
  rq_metadata_json : string;
  rq_total_pages : Z;
  rq_task_type : Z
}.

(** The locked part of [UpdateTaskForDebounce]; the lock is released before the
    row is read back. *)
Definition DebounceUpdate (now : Z) (id : string) (req : SubmitRequest) (m : TaskManager)
    : Status * TaskManager :=
  let '(c, m) := update (fun r => has_id id r && status_in [kQueued] r)
    (fun r => r <| c_content_hash := nullable (rq_content_hash req) |>
                <| c_filepath := rq_filepath req |> <| c_total_pages := rq_total_pages req |>
                <| c_status := kQueued |> <| c_processed_pages := 0 |>
                <| c_failed_pages := "[]"%string |> <| c_progress_pct := zero_percent |>
                <| c_eta_seconds := -1 |> <| c_current_phase := None |> <| c_worker_id := None |>
                <| c_error_code := None |> <| c_error_msg := None |> <| c_structured_data := None |>
                <| c_started_at := None |> <| c_completed_at := None |>
                <| c_cancel_requested := 0 |> <| c_updated_at := NowIso8601 now |>) m in
  match c with
  | PrepareFailed => (storage_failed "UpdateTaskForDebounce prepare", m)
  | StepFailed => (storage_failed "UpdateTaskForDebounce step", m)
  | Changes n =>
      if n =? 0 then
        let '(exists_, m) := probe id m in
        (if exists_ then in_progress id else task_not_found id, m)
      else (Status_Ok, m)
  end.

Definition UpdateTaskForDebounce (now : Z) (id : string) (req : SubmitRequest) (m : TaskManager)
    : Result TaskInfo * TaskManager :=
  let '(st, m) := DebounceUpdate now id req m in
  if status_ok st then GetTask id m else (Error st, m).

(** [doc_id IS NULL OR NOT (namespace_id = ? AND doc_id = ?)] for each pair. *)
Definition not_active (active : list (string * string)) (r : Row) : bool :=
  forallb (fun p => match c_doc_id r with
                    | None => true
                    | Some d => negb (bool_decide (c_namespace_id r = p.1) && bool_decide (d = p.2))
                    end) active.

Definition SelectOldestQueuedTaskExcluding (active : list (string * string)) (m : TaskManager)
    : Result (option TaskInfo) * TaskManager :=
  let '(s, m) := select (take 1 (order_asc (rows_where (fun r =>
    status_in [kQueued] r && not_active active r) m))) m in
  match s with
  | None => (Error (storage_failed "SelectOldestQueuedTaskExcluding prepare"), m)
  | Some (rs, _) => (Value (ReadRow <$> head rs), m)
  end.

(** ** Cleanup *)

Definition sweep_result (what : string) (p : changed * TaskManager) : Result Z * TaskManager :=
  match p with
  | (PrepareFailed, m) => (Error (storage_failed (what +:+ " prepare")), m)
  | (StepFailed, m) => (Error (storage_failed (what +:+ " step")), m)
  | (Changes n, m) => (Value n, m)
  end.

Definition DeleteExpired (now_unix retention_days : Z) (m : TaskManager) : Result Z * TaskManager :=
  let cutoff := UnixToIso8601 (now_unix - retention_days * 86400) in
  sweep_result "DeleteExpired" (delete_where (fun r =>
    status_in [kCompleted; kFailed; kCancelled] r && String.ltb (c_updated_at r) cutoff) m).

(** The SET clause of the two sweeps. *)
Definition swept (now : Z) (code msg : string) (r : Row) : Row :=
  r <| c_status := kFailed |> <| c_error_code := Some code |> <| c_error_msg := Some msg |>
    <| c_completed_at := Some (NowIso8601 now) |> <| c_updated_at := NowIso8601 now |>.

Definition SweepZombies (now now_unix zombie_hours : Z) (m : TaskManager) : Result Z * TaskManager :=
  let cutoff := UnixToIso8601 (now_unix - zombie_hours * 3600) in
  sweep_result "SweepZombies" (update
    (fun r => status_in [kProcessing] r && String.ltb (c_updated_at r) cutoff)
    (swept now "CX_ERR_ZOMBIE_TASK_CLEANUP" "Worker presumed crashed.") m).

Definition SweepTimedOut (now now_unix timeout_seconds : Z) (m : TaskManager) : Result Z * TaskManager :=
  let cutoff := UnixToIso8601 (now_unix - timeout_seconds) in
  sweep_result "SweepTimedOut" (update
    (fun r => status_in [kProcessing] r
              && match c_started_at r with Some s => String.ltb s cutoff | None => false end)
    (swept now "CX_ERR_TASK_TIMEOUT" "Task exceeded processing timeout.") m).

Definition RequeueStaleProcessing (now now_unix zombie_hours : Z) (m : TaskManager)
    : Result Z * TaskManager :=
  let cutoff := UnixToIso8601 (now_unix - zombie_hours * 3600) in
  sweep_result "RequeueStaleProcessing" (update
    (fun r => status_in [kProcessing] r && String.leb cutoff (c_updated_at r))
    (fun r => r <| c_status := kQueued |> <| c_worker_id := None |> <| c_started_at := None |>
                <| c_updated_at := NowIso8601 now |>) m).

(** ** Managed inputs *)

Definition live (r : Row) : bool := negb (status_in [kCompleted; kFailed; kCancelled] r).

(** Does another live task name this resolved path; is the identity of another
    live task's input unknown. *)
Definition references (path exclude : string) (r : Row) : bool :=
  sql_eq (c_filepath_canonical r) path && negb (has_id exclude r) && live r.
Definition unresolved (exclude : string) (r : Row) : bool :=
  bool_decide (c_filepath_canonical r = None) && negb (bool_decide (c_filepath r = ""%string))
  && negb (has_id exclude r) && live r.

(** A scan for one row: found, not found, or a failure. *)
Definition scan_one (what : string) (where_ : Row -> bool) (m : TaskManager) : Result bool * TaskManager :=
  let '(s, m) := select (take 1 (rows_where where_ m)) m in
  match s with
  | None => (Error (storage_failed (what +:+ " prepare")), m)
  | Some (_ :: _, _) => (Value true, m)
  | Some ([], true) => (Value false, m)
  | Some ([], false) => (Error (storage_failed (what +:+ " step")), m)
  end.

(** [release] removes the file, on a state of its own; a null callback is [None]. *)
Definition ReleaseInputIfUnreferenced {S : Type} (canonical_path exclude : string)
    (release : option (S -> bool * S)) (m : TaskManager) (s : S) : Result bool * TaskManager * S :=
  match release with
  | None => (Value false, m, s)
  | Some release =>
      if bool_decide (canonical_path = ""%string) then (Value false, m, s) else
      let '(r, m) := scan_one "ReleaseInputIfUnreferenced" (references canonical_path exclude) m in
      match r with
      | Error e => (Error e, m, s)
      | Value true => (Value false, m, s)
      | Value false =>
          let '(g, m) := scan_one "ReleaseInputIfUnreferenced guard" (unresolved exclude) m in
          match g with
          | Error e => (Error e, m, s)
          | Value true => (Value false, m, s)
          | Value false => let '(b, s) := release s in (Value b, m, s)
          end
      end
  end.

Definition LiveTaskInputs (m : TaskManager) : Result (list (string * string)) * TaskManager :=
  let '(s, m) := select (rows_where (fun r =>
    live r && negb (bool_decide (c_filepath r = ""%string))) m) m in
  match s with
  | None => (Error (storage_failed "LiveTaskInputs prepare"), m)
  | Some (rs, true) => (Value ((fun r => (c_task_id r, c_filepath r)) <$> rs), m)
  | Some (_, false) => (Error (storage_failed "LiveTaskInputs step"), m)
  end.

(** [SELECT COUNT] delivers one row, unless its step fails. *)
Definition CountAll (m : TaskManager) : Result Z * TaskManager :=
  let '(o, m) := next_outcome m in
  match o with
  | SqlPrepareErr => (Error (storage_failed "CountAll prepare"), m)
  | SqlStepErr O => (Value 0, m)
  | _ => (Value (len (tasks m)), m)
  end.

(** ** Opening *)

(** The live rows of an older file whose path was never resolved. *)
Definition needs_backfill (r : Row) : bool :=
  live r && negb (bool_decide (c_filepath r = ""%string))
  && (bool_decide (c_filepath_canonical r = None) || sql_eq (c_filepath_canonical r) ""%string).

Fixpoint backfill_rows (pending : list (string * string)) (m : TaskManager) : TaskManager :=
  match pending with
  | [] => m
  | (id, path) :: rest =>
      match weakly_canonical path with
      | None => backfill_rows rest m
      | Some c =>
          if bool_decide (c = ""%string) then backfill_rows rest m
          else backfill_rows rest (update (has_id id) (fun r => r <| c_filepath_canonical := Some c |>) m).2
      end
  end.

Definition BackfillCanonicalInputsLocked (m : TaskManager) : TaskManager :=
  let '(s, m) := select (rows_where needs_backfill m) m in
  match s with
  | None => m
  | Some (rs, _) => backfill_rows ((fun r => (c_task_id r, c_filepath r)) <$> rs) m
  end.

(** [Init] on a file that holds [rows]: open, create, migrate, backfill.  The
    results of the pragmas, of ALTER TABLE and of the index statements are not
    looked at, and the model takes the columns to be there. *)
Definition Init (rows : list Row) (os : list sql_outcome) (g : Ulid.Globals) : Status * option TaskManager :=
  let m := MkTaskManager rows os g in
  let '(open_, m) := next_outcome m in
  match open_ with
  | SqlOk =>
      let '(create, m) := next_outcome m in
      match create with
      | SqlOk => (Status_Ok, Some (BackfillCanonicalInputsLocked m))
      | _ => (storage_failed "create tasks table", Some m)
      end
  | _ => (storage_failed "open tasks db: ", None)
  end.

End Ops.
End TaskManager.
