(* ===== verification/TaskManagerTheory.v ===== *)
(** * The lifecycle of tasks

    The table satisfies its declared constraints at all times, every operation
    moves every row along the edges of the documented state machine, and
    terminal states are final.  SQLite may fail at any statement. *)
From Stdlib Require Import Ascii String.
From S2P Require Import Prelude Status Iso8601 F42Error Ulid TaskManager.
Import TaskManager.

(** ** The state machine of the documentation *)

(** Staying, or one of the edges; [processing -> queued] is the requeue after a
    restart. *)
Inductive edge : string -> string -> Prop :=
| edge_stay s : edge s s
| edge_start : edge kQueued kProcessing
| edge_cancel_queued : edge kQueued kCancelled
| edge_cancel_running : edge kProcessing kCancelling
| edge_complete : edge kProcessing kCompleted
| edge_fail : edge kProcessing kFailed
| edge_late_complete : edge kCancelling kCompleted
| edge_late_fail : edge kCancelling kFailed
| edge_cancelled : edge kCancelling kCancelled
| edge_requeue : edge kProcessing kQueued.
#[export] Hint Constructors edge : cortrix.

Lemma edge_terminal s s' : terminal s = true -> edge s s' -> s' = s.
Proof. intros H E. by destruct E. Qed.

(** The constraints of the schema. *)
Record wf (m : TaskManager) : Prop := {
  wf_keys : NoDup (c_task_id <$> tasks m);
  wf_status : Forall (fun r => status_check (c_status r) = true) (tasks m)
}.

Definition find_row (id : string) (l : list Row) : option Row := head (filter (fun r => has_id id r = true) l).
Definition status_of (id : string) (m : TaskManager) : option string := c_status <$> find_row id (tasks m).

(** One step of one identifier: it stays absent, appears, moves along an edge, or
    disappears from a terminal state. *)
Inductive lifecycle : option string -> option string -> Prop :=
| life_absent : lifecycle None None
| life_create s : lifecycle None (Some s)
| life_move s s' : edge s s' -> lifecycle (Some s) (Some s')
| life_delete s : terminal s = true -> lifecycle (Some s) None.
#[export] Hint Constructors lifecycle : cortrix.

(** ** Looking up rows *)

Lemma has_id_true id r : has_id id r = true <-> c_task_id r = id.
Proof. unfold has_id. apply bool_decide_eq_true. Qed.

Lemma find_row_cons id r l :
  find_row id (r :: l) = if has_id id r then Some r else find_row id l.
Proof. unfold find_row. rewrite filter_cons. by destruct (has_id id r). Qed.

Lemma find_row_Some id l r : find_row id l = Some r -> r ∈ l /\ c_task_id r = id.
Proof.
  unfold find_row. intros H. apply head_Some_elem_of, list_elem_of_filter in H as [H Hr].
  by apply has_id_true in H.
Qed.

Lemma find_row_None id l : find_row id l = None <-> id ∉ c_task_id <$> l.
Proof.
  induction l as [|r l IH]; [split; [by intros _ ?%elem_of_nil|done]|].
  rewrite find_row_cons, fmap_cons, not_elem_of_cons, <-IH.
  destruct (has_id id r) eqn:E.
  - apply has_id_true in E. split; [done|]. by intros [? _].
  - split; [|by intros []]. intros H. split; [|done]. intros ->.
    by rewrite (proj2 (has_id_true _ _) eq_refl) in E.
Qed.

Lemma find_row_elem id l r : NoDup (c_task_id <$> l) -> r ∈ l -> c_task_id r = id ->
  find_row id l = Some r.
Proof.
  induction l as [|x l IH]; [by intros _ ?%elem_of_nil|]. rewrite fmap_cons, find_row_cons.
  intros [Hx Hnd]%NoDup_cons [->|Hr]%elem_of_cons Hid.
  - by rewrite (proj2 (has_id_true _ _) Hid).
  - destruct (has_id id x) eqn:E; [|by apply IH]. apply has_id_true in E. exfalso. apply Hx.
    rewrite E, <-Hid. by apply list_elem_of_fmap_2.
Qed.

Lemma find_row_snoc id l r :
  find_row id (l ++ [r]) = match find_row id l with Some x => Some x | None => find_row id [r] end.
Proof.
  induction l as [|x l IH]; [done|]. simpl app. rewrite !(find_row_cons id x). by destruct (has_id id x).
Qed.

(** The row of an identifier, as the WHERE clause of the statements finds it. *)
Lemma rows_where_has_id id m : NoDup (c_task_id <$> tasks m) ->
  rows_where (has_id id) m = option_list (find_row id (tasks m)).
Proof.
  unfold rows_where. generalize (tasks m) as l. induction l as [|x l IH]; intros Hnd; [done|].
  rewrite fmap_cons in Hnd. apply NoDup_cons in Hnd as [Hx Hnd].
  rewrite filter_cons, find_row_cons. destruct (has_id id x) eqn:E.
  - rewrite decide_True by done. rewrite IH by done. apply has_id_true in E.
    by rewrite (proj2 (find_row_None id l)) by (by rewrite <-E).
  - rewrite decide_False by done. auto.
Qed.

(** ** Statements on well-formed tables *)

(** A SET clause that is allowed where its WHERE clause holds. *)
Definition allowed (l : list Row) (where_ : Row -> bool) (set : Row -> Row) : Prop :=
  forall r, r ∈ l -> status_check (c_status r) = true -> where_ r = true ->
    c_task_id (set r) = c_task_id r /\ edge (c_status r) (c_status (set r))
    /\ status_check (c_status (set r)) = true.

(** What one statement may do to the table. *)
Definition step_ok (m m' : TaskManager) : Prop :=
  wf m -> wf m' /\ forall id, lifecycle (status_of id m) (status_of id m').

(** Rows do not disappear. *)
Definition keeps (m m' : TaskManager) : Prop :=
  wf m -> forall id s, status_of id m = Some s -> exists s', status_of id m' = Some s' /\ edge s s'.

Lemma lifecycle_refl o : lifecycle o o.
Proof. destruct o; auto with cortrix. Qed.

Lemma next_outcome_tasks m : tasks (next_outcome m).2 = tasks m.
Proof. unfold next_outcome. by destruct (outcomes m). Qed.

Lemma tasks_eq_step m m' : tasks m' = tasks m -> step_ok m m' /\ keeps m m'.
Proof.
  intros E. unfold step_ok, keeps, status_of. rewrite E. split.
  - intros [H1 H2]. split; [by split; rewrite E|]. intros id. apply lifecycle_refl.
  - intros _ id s Hs. exists s. auto with cortrix.
Qed.

Lemma select_tasks q m : tasks (select q m).2 = tasks m.
Proof.
  unfold select. pose proof (next_outcome_tasks m) as E. destruct (next_outcome m) as [[] m']; done.
Qed.

Lemma map_where_ids where_ set l : allowed l where_ set ->
  Forall (fun r => status_check (c_status r) = true) l ->
  c_task_id <$> ((fun r => if where_ r then set r else r) <$> l) = c_task_id <$> l.
Proof.
  intros Ha Hl. rewrite <-list_fmap_compose. apply list_fmap_ext. intros i r Hr%list_elem_of_lookup_2.
  rewrite Forall_forall in Hl. simpl. destruct (where_ r) eqn:E; [|done].
  by destruct (Ha r Hr (Hl r Hr) E).
Qed.

Lemma map_where_find where_ set l id : allowed l where_ set ->
  Forall (fun r => status_check (c_status r) = true) l ->
  find_row id ((fun r => if where_ r then set r else r) <$> l)
  = (fun r => if where_ r then set r else r) <$> find_row id l.
Proof.
  induction l as [|r l IH]; intros Ha Hl; [done|]. apply Forall_cons in Hl as [Hr Hl].
  rewrite fmap_cons, !find_row_cons, IH; [|by intros x Hx; apply Ha; right|done].
  assert (has_id id (if where_ r then set r else r) = has_id id r) as ->; [|by destruct (has_id id r)].
  destruct (where_ r) eqn:E; [|done]. destruct (Ha r ltac:(left) Hr E) as [Hid _].
  unfold has_id. by rewrite Hid.
Qed.

Lemma update_step where_ set m : allowed (tasks m) where_ set ->
  step_ok m (update where_ set m).2 /\ keeps m (update where_ set m).2.
Proof.
  intros Ha. unfold update. pose proof (next_outcome_tasks m) as E.
  destruct (next_outcome m) as [[] m0]; simpl in E |- *; try by apply tasks_eq_step.
  set (m' := m0 <| tasks := _ |>).
  assert (tasks m' = (fun r => if where_ r then set r else r) <$> tasks m) as Et by (by rewrite <-E).
  clearbody m'. clear E. assert (Hmove : wf m -> forall id s, status_of id m = Some s ->
    exists s', status_of id m' = Some s' /\ edge s s').
  { intros [Hk Hs] id s Hst. unfold status_of in *. rewrite Et, map_where_find by done.
    apply fmap_Some in Hst as (r & Hr & ->). rewrite Hr. simpl. eexists; split; [done|].
    destruct (where_ r) eqn:W; [|constructor].
    apply find_row_Some in Hr as [Hr _]. rewrite Forall_forall in Hs.
    by destruct (Ha r Hr (Hs r Hr) W) as (_ & ? & _). }
  split; [|exact Hmove]. intros Hwf. pose proof Hwf as [Hk Hs]. split.
  - split; rewrite Et.
    + by rewrite map_where_ids.
    + apply Forall_fmap. rewrite Forall_forall in Hs |- *. intros r Hr. simpl.
      destruct (where_ r) eqn:W; [|auto]. by destruct (Ha r Hr (Hs r Hr) W) as (_ & _ & ?).
  - intros id. destruct (status_of id m) as [s|] eqn:Est.
    + destruct (Hmove Hwf id s Est) as (s' & -> & ?). auto with cortrix.
    + unfold status_of in *. rewrite Et, map_where_find by done.
      apply fmap_None in Est. rewrite Est. auto with cortrix.
Qed.

Lemma delete_step where_ m :
  (forall r, where_ r = true -> terminal (c_status r) = true) -> step_ok m (delete_where where_ m).2.
Proof.
  intros Ht. unfold delete_where. pose proof (next_outcome_tasks m) as E.
  destruct (next_outcome m) as [[] m0]; simpl in E |- *; try by apply tasks_eq_step.
  set (m' := m0 <| tasks := _ |>).
  assert (tasks m' = filter (fun r => where_ r = false) (tasks m)) as Et by (by rewrite <-E).
  clearbody m'. intros [Hk Hs]. split.
  - split; rewrite Et.
    + eapply sublist_NoDup; [exact Hk|]. apply sublist_fmap, sublist_filter.
    + rewrite Forall_forall in Hs |- *. intros r [_ Hr]%list_elem_of_filter. auto.
  - intros id. unfold status_of. rewrite Et.
    destruct (find_row id (tasks m)) as [r|] eqn:Er.
    + apply find_row_Some in Er as [Hr Hid]. destruct (where_ r) eqn:W.
      * simpl. destruct (find_row id _) as [r'|] eqn:Er'; simpl; [|by constructor; apply Ht].
        apply find_row_Some in Er' as [Hr' Hid']. apply list_elem_of_filter in Hr' as [W' Hr'].
        assert (find_row id (tasks m) = Some r) as F1 by (by apply find_row_elem).
        assert (find_row id (tasks m) = Some r') as F2 by (by apply find_row_elem).
        congruence.
      * erewrite find_row_elem; [simpl; auto with cortrix| | |done].
        -- eapply sublist_NoDup; [exact Hk|]. apply sublist_fmap, sublist_filter.
        -- by apply list_elem_of_filter.
    + apply find_row_None in Er. rewrite (proj2 (find_row_None id _)); [auto with cortrix|].
      intros Hin. apply Er. apply list_elem_of_fmap in Hin as (r & -> & Hr).
      apply list_elem_of_filter in Hr as [_ Hr]. by apply list_elem_of_fmap_2.
Qed.

Lemma insert_step r m : step_ok m (insert_row r m).2 /\ keeps m (insert_row r m).2.
Proof.
  unfold insert_row. pose proof (next_outcome_tasks m) as E.
  destruct (next_outcome m) as [[] m0]; simpl in E |- *; try by apply tasks_eq_step.
  case_match eqn:C; simpl; [by apply tasks_eq_step|].
  apply orb_false_iff in C as [C1%bool_decide_eq_false C2%negb_false_iff]. rewrite E in C1.
  set (m' := m0 <| tasks := _ |>).
  assert (tasks m' = tasks m ++ [r]) as Et by (by rewrite <-E). clearbody m'.
  split.
  - intros [Hk Hs]. split; [split; rewrite Et|].
    + rewrite fmap_app. apply NoDup_app. split_and!; [done| |apply NoDup_singleton].
      intros x Hx [->|[]%elem_of_nil]%elem_of_cons. done.
    + apply Forall_app. by repeat constructor.
    + intros id. unfold status_of. rewrite Et, find_row_snoc.
      destruct (find_row id (tasks m)); simpl; [auto with cortrix|].
      destruct (find_row id [r]); simpl; auto with cortrix.
  - intros _ id s Hst. unfold status_of in *. rewrite Et, find_row_snoc.
    apply fmap_Some in Hst as (x & -> & ->). simpl. eauto with cortrix.
Qed.

(** ** Operations *)

Lemma status_in_true l r : status_in l r = true <-> c_status r ∈ l.
Proof. apply bool_decide_eq_true. Qed.

(** Reduces a WHERE clause to what it says of the status, and the new row to its
    status. *)
Ltac allowed_step :=
  intros ? _ ?Hc ?Hw; repeat (apply andb_true_iff in Hw as [Hw ?]);
  repeat match goal with
  | H : status_in _ _ = true |- _ =>
      apply status_in_true in H; repeat apply elem_of_cons in H as [H|H];
      [..|by apply elem_of_nil in H]
  end;
  simpl; repeat match goal with H : c_status _ = _ |- _ => rewrite H end;
  split_and!; auto with cortrix.

Section Ops.
Context `{JsonInts, Paths, OrderBy}.
Context (draw : nat -> Z).

(** The calls on the table.  Releasing an input and the reads do not change it. *)
Inductive op :=
| OpCreateTask (now : Z) (t : TaskInfo)
| OpGetTask (id : string)
| OpUpdateProgress (now : Z) (t : TaskInfo)
| OpListByNamespace (ns : string) (limit offset : Z)
| OpMarkProcessing (now : Z) (id : string) (worker : Z)
| OpMarkCompleted (now : Z) (id doc : string)
| OpMarkFailed (now : Z) (id code msg data : string)
| OpMarkCancelled (now : Z) (id : string)
| OpRequestCancel (now : Z) (id : string)
| OpFindRecent (now : Z) (ns doc : string) (type window : Z)
| OpHasActive (ns doc : string) (type : Z)
| OpClaimMerge (now : Z) (id : string)
| OpDebounceUpdate (now : Z) (id : string) (req : SubmitRequest)
| OpSelectOldest (active : list (string * string))
| OpDeleteExpired (now_unix days : Z)
| OpSweepZombies (now now_unix hours : Z)
| OpSweepTimedOut (now now_unix seconds : Z)
| OpRequeueStale (now now_unix hours : Z)
| OpReleaseInput (path exclude : string)
| OpLiveInputs
| OpCountAll.

Definition run_op (o : op) (m : TaskManager) : TaskManager :=
  match o with
  | OpCreateTask now t => (CreateTask draw now t m).2
  | OpGetTask id => (GetTask id m).2
  | OpUpdateProgress now t => (UpdateProgress now t m).2
  | OpListByNamespace ns limit offset => (ListByNamespace ns limit offset m).2
  | OpMarkProcessing now id w => (MarkProcessing now id w m).2
  | OpMarkCompleted now id doc => (MarkCompleted now id doc m).2
  | OpMarkFailed now id code msg data => (MarkFailed now id code msg data m).2
  | OpMarkCancelled now id => (MarkCancelled now id m).2
  | OpRequestCancel now id => (RequestCancel now id m).2
  | OpFindRecent now ns doc type window => (FindRecentTaskByDocId now ns doc type window m).2
  | OpHasActive ns doc type => (HasActiveTask ns doc type m).2
  | OpClaimMerge now id => (TryClaimDebounceMerge now id m).2
  | OpDebounceUpdate now id req => (DebounceUpdate now id req m).2
  | OpSelectOldest active => (SelectOldestQueuedTaskExcluding active m).2
  | OpDeleteExpired u d => (DeleteExpired u d m).2
  | OpSweepZombies now u h => (SweepZombies now u h m).2
  | OpSweepTimedOut now u s => (SweepTimedOut now u s m).2
  | OpRequeueStale now u h => (RequeueStaleProcessing now u h m).2
  | OpReleaseInput path exclude =>
      (ReleaseInputIfUnreferenced path exclude (Some (fun u : unit => (true, u))) m tt).1.2
  | OpLiveInputs => (LiveTaskInputs m).2
  | OpCountAll => (CountAll m).2
  end.

Definition run_ops (os : list op) (m : TaskManager) : TaskManager := foldl (fun m o => run_op o m) m os.

Definition deletes (o : op) : bool := match o with OpDeleteExpired _ _ => true | _ => false end.

Lemma step_then m m1 m2 : step_ok m m1 /\ keeps m m1 -> tasks m2 = tasks m1 ->
  step_ok m m2 /\ keeps m m2.
Proof.
  intros [F1 F2] E. split.
  - intros Hwf. destruct (F1 Hwf) as [[Hk Hs] Hl]. split; [by split; rewrite E|].
    intros id. unfold status_of in *. rewrite E. apply Hl.
  - intros Hwf id s Hst. unfold status_of in *. rewrite E. by apply F2.
Qed.

Lemma step_from m m1 m2 : tasks m1 = tasks m -> step_ok m1 m2 /\ keeps m1 m2 ->
  step_ok m m2 /\ keeps m m2.
Proof.
  intros E [F1 F2].
  assert (wf m -> wf m1) as Hw by (intros [Hk Hs]; split; by rewrite E). split.
  - intros Hwf. destruct (F1 (Hw Hwf)) as [Hwf' Hl]. split; [done|].
    intros id. specialize (Hl id). unfold status_of in *. by rewrite E in Hl.
  - intros Hwf id s Hst. apply F2; [auto|]. unfold status_of in *. by rewrite E.
Qed.

(** A statement followed by reads of the table. *)
Lemma probe_tasks id m : tasks (probe id m).2 = tasks m.
Proof. unfold probe. pose proof (select_tasks (rows_where (has_id id) m) m). by destruct (select _ _). Qed.
Lemma Rejected_tasks id target m : tasks (RejectedTransitionStatus id target m).2 = tasks m.
Proof.
  unfold RejectedTransitionStatus. pose proof (select_tasks (rows_where (has_id id) m) m).
  by destruct (select _ _).
Qed.
Lemma GetTask_tasks id m : tasks (GetTask id m).2 = tasks m.
Proof.
  unfold GetTask. pose proof (select_tasks (rows_where (has_id id) m) m).
  by destruct (select _ _) as [[[[] ]|] ?].
Qed.
Lemma scan_one_tasks what w m : tasks (scan_one what w m).2 = tasks m.
Proof.
  unfold scan_one. pose proof (select_tasks (take 1 (rows_where w m)) m).
  by destruct (select _ _) as [[[[] []]|] ?].
Qed.

(** A changing statement and the reads after it. *)
Ltac by_update :=
  match goal with
  | |- context [update ?w ?set ?m0] =>
      let Hup := fresh "Hup" in
      assert (allowed (tasks m0) w set) as Hup by allowed_step;
      apply (update_step w set m0) in Hup;
      destruct (update w set m0) as [[| |n] m1]; cbn [snd] in *;
      [exact Hup|exact Hup|destruct (n =? 0); [|try exact Hup]]
  end.
Ltac after_reads H lem := eapply step_then; [exact H|apply lem].

Lemma transition_step what id from target set m :
  allowed (tasks m) (fun r => has_id id r && status_in from r) set ->
  step_ok m (transition what id from target set m).2 /\ keeps m (transition what id from target set m).2.
Proof.
  intros Ha%(update_step _ _ m). unfold transition.
  destruct (update _ _ m) as [[| |n] m1]; [exact Ha..|].
  destruct (n =? 0); [|exact Ha]. eapply step_then; [exact Ha|apply Rejected_tasks].
Qed.

Lemma probe_step id m m1 (a b : Status) : step_ok m m1 /\ keeps m m1 ->
  let m2 := (let '(e, m2) := probe id m1 in (if e then a else b : Status, m2)).2 in
  step_ok m m2 /\ keeps m m2.
Proof.
  intros Hs. pose proof (probe_tasks id m1). destruct (probe id m1). by eapply step_then.
Qed.

Definition terminal_only (w : Row -> bool) : Prop :=
  forall r, w r = true -> terminal (c_status r) = true.

(** A SELECT and what is made of its rows leave the table alone. *)
Ltac by_select :=
  repeat match goal with
  | |- context [select ?q ?m] =>
      let E := fresh "E" in
      pose proof (select_tasks q m) as E; destruct (select q m) as [? ?]; cbn [snd] in E
  | |- context [scan_one ?t ?q ?m] =>
      let E := fresh "E" in
      pose proof (scan_one_tasks t q m) as E; destruct (scan_one t q m) as [? ?]; cbn [snd] in E
  | |- context [match ?x with _ => _ end] => is_var x; destruct x
  end; cbn in *; congruence.

Lemma sweep_result_m what p : (sweep_result what p).2 = p.2.
Proof. by destruct p as [[] m]. Qed.

Lemma CreateTask_step now t m : step_ok m (CreateTask draw now t m).2 /\ keeps m (CreateTask draw now t m).2.
Proof.
  unfold CreateTask. case_match. case_match.
  all: match goal with |- context [insert_row ?r ?m0] =>
    pose proof (step_from m m0 (insert_row r m0).2 eq_refl (insert_step r m0)) as Hs;
    by destruct (insert_row r m0) as [[] m'] end.
Qed.

Lemma RequestCancel_step now id m :
  step_ok m (RequestCancel now id m).2 /\ keeps m (RequestCancel now id m).2.
Proof.
  unfold RequestCancel. pose proof (select_tasks (rows_where (has_id id) m) m) as E.
  assert (wf m -> forall r l b m1, select (rows_where (has_id id) m) m = (Some (r :: l, b), m1) ->
    find_row id (tasks m) = Some r) as Hfind.
  { intros [Hk _] r l b m1. rewrite rows_where_has_id by done. unfold select.
    destruct (next_outcome m) as [[] ?], (find_row id (tasks m)); simpl;
      try destruct rows; simpl; congruence. }
  destruct (select _ _) as [[[[|r l] b]|] m1]; simpl in E; try by apply tasks_eq_step.
  specialize (fun Hwf => Hfind Hwf r l b m1 eq_refl).
  assert (forall st, edge (c_status r) st -> status_check st = true ->
    forall set, (forall x, c_task_id (set x) = c_task_id x /\ c_status (set x) = st) ->
    step_ok m (update (has_id id) set m1).2 /\ keeps m (update (has_id id) set m1).2) as Hup.
  { intros st He Hst set Hset.
    assert (wf m -> step_ok m (update (has_id id) set m1).2 /\ keeps m (update (has_id id) set m1).2)
      as Hgo; [|by split; intros Hwf; apply Hgo].
    intros Hwf. specialize (Hfind Hwf). apply (step_from _ m1); [done|]. apply update_step.
    intros x Hx Hc Ex%has_id_true. rewrite E in Hx.
    pose proof (find_row_elem id _ x (wf_keys _ Hwf) Hx Ex) as Hx'. rewrite Hfind in Hx'.
    injection Hx' as ->. destruct (Hset x) as [-> ->]. done. }
  cbn [status ReadRow]. case_bool_decide as C1; [|case_bool_decide as C2; [|by apply tasks_eq_step]].
  - destruct (Hup kCancelled ltac:(rewrite C1; constructor) eq_refl
      (fun r => let r := r <| c_cancel_requested := 1 |> <| c_status := kCancelled |>
                                 <| c_updated_at := NowIso8601 now |> in
                r <| c_completed_at := Some (NowIso8601 now) |>)) as [Hs Hk]; [done|].
    rewrite bool_decide_true by done. by destruct (update _ _ m1) as [[] m2].
  - destruct (Hup kCancelling ltac:(rewrite C2; constructor) eq_refl
      (fun r => r <| c_cancel_requested := 1 |> <| c_status := kCancelling |>
                                 <| c_updated_at := NowIso8601 now |>)) as [Hs Hk]; [done|].
    rewrite bool_decide_false by done. by destruct (update _ _ m1) as [[] m2].
Qed.

Lemma run_op_step o m : step_ok m (run_op o m) /\ (deletes o = false -> keeps m (run_op o m)).
Proof.
  assert (forall m', step_ok m m' /\ keeps m m' -> step_ok m m' /\ (deletes o = false -> keeps m m')) as Hand
    by (intros m' []; auto).
  assert (forall w, terminal_only w -> step_ok m (delete_where w m).2 /\
    (true = false -> keeps m (delete_where w m).2)) as Hdel by (split; [by apply delete_step|done]).
  destruct o; cbn [run_op deletes].
  all: unfold UpdateProgress, MarkProcessing, TryClaimDebounceMerge, DebounceUpdate, SweepZombies,
    SweepTimedOut, RequeueStaleProcessing, DeleteExpired; rewrite ?sweep_result_m.
  all: first [apply Hdel | apply Hand].
  - apply CreateTask_step.
  - apply tasks_eq_step, GetTask_tasks.
  - by_update; exact Hup.
  - unfold ListByNamespace. apply tasks_eq_step. by_select.
  - by_update. by apply probe_step.
  - apply transition_step. allowed_step.
  - apply transition_step. allowed_step.
  - apply transition_step. allowed_step.
  - apply RequestCancel_step.
  - unfold FindRecentTaskByDocId. apply tasks_eq_step. case_match; [done|]. by_select.
  - unfold HasActiveTask. apply tasks_eq_step. by_select.
  - by_update; (eapply step_then; [exact Hup|]); [pose proof (probe_tasks id m1); by destruct (probe id m1)|].
    by_select.
  - by_update. by apply probe_step.
  - unfold SelectOldestQueuedTaskExcluding. apply tasks_eq_step. by_select.
  - intros r [Hr%status_in_true _]%andb_true_iff. by apply bool_decide_eq_true.
  - by apply update_step; allowed_step.
  - by apply update_step; allowed_step.
  - by apply update_step; allowed_step.
  - unfold ReleaseInputIfUnreferenced. apply tasks_eq_step. case_match; [done|]. by_select.
  - unfold LiveTaskInputs. apply tasks_eq_step. by_select.
  - unfold CountAll. apply tasks_eq_step. pose proof (next_outcome_tasks m).
    by destruct (next_outcome m) as [[| |[]] ?].
Qed.

Lemma run_ops_wf os m : wf m -> wf (run_ops os m).
Proof.
  revert m. induction os as [|o os IH]; intros m Hwf; [done|]. apply IH, (proj1 (run_op_step o m) Hwf).
Qed.

(** C8: the table keeps its declared type and every row follows the documented
    state machine.  From a table with distinct identifiers and known statuses,
    any call on it with any arguments and any failures of SQLite leaves such a
    table, and changes the status of each identifier only along an edge of the
    machine: nothing resurrects a terminal task, and only terminal tasks are
    deleted. *)
Theorem Task_lifecycle (o : op) (m : TaskManager) :
  wf m -> wf (run_op o m) /\ forall id, lifecycle (status_of id m) (status_of id (run_op o m)).
Proof. apply run_op_step. Qed.

(** A terminal state is final.  After any sequence of calls that does not
    delete expired tasks, a task that was completed, failed or cancelled has the
    same status. *)
Theorem Task_terminal_final (os : list op) (m : TaskManager) (id s : string) :
  wf m -> status_of id m = Some s -> terminal s = true -> forallb (fun o => negb (deletes o)) os = true ->
  status_of id (run_ops os m) = Some s.
Proof.
  intros Hwf Hs Ht. revert m Hwf Hs. induction os as [|o os IH]; intros m Hwf Hs Hd; [done|].
  apply andb_true_iff in Hd as [Ho%negb_true_iff Hd]. apply IH; [|..|done].
  - by apply run_op_step.
  - destruct (proj2 (run_op_step o m) Ho Hwf id s Hs) as (s' & Hs' & He).
    by rewrite Hs', (edge_terminal s s' Ht He).
Qed.

(** ** What the guarded transitions answer *)

Definition quiet (m : TaskManager) : Prop := outcomes m = [].

(** The table after an update of one identifier. *)
Definition only_changes (id : string) (m m' : TaskManager) : Prop :=
  forall id', id' <> id -> find_row id' (tasks m') = find_row id' (tasks m).

(** [from]: the statuses the call accepts; [to]: the status it leaves. *)
Definition decides (from : list string) (to id : string) (m : TaskManager) (st : Status)
    (m' : TaskManager) : Prop :=
  match status_of id m with
  | None => F42.is_code F42.kTaskNotFound st = true /\ tasks m' = tasks m
  | Some s =>
      if decide (s ∈ from)
      then st = Status_Ok /\ status_of id m' = Some to /\ only_changes id m m'
      else F42.is_code F42.kDocProcessingInProgress st = true /\ tasks m' = tasks m
  end.

Lemma quiet_next m : quiet m -> next_outcome m = (SqlOk, m).
Proof. unfold quiet, next_outcome. by intros ->. Qed.

Lemma filter_keyed id (w : Row -> bool) l : NoDup (c_task_id <$> l) ->
  filter (fun r => has_id id r && w r = true) l
  = match find_row id l with Some r => if w r then [r] else [] | None => [] end.
Proof.
  induction l as [|x l IH]; intros Hnd; [done|]. rewrite fmap_cons in Hnd.
  apply NoDup_cons in Hnd as [Hx Hnd]. rewrite filter_cons, find_row_cons, IH by done.
  destruct (has_id id x) eqn:E; [|done]. apply has_id_true in E. simpl.
  rewrite (proj2 (find_row_None id l)) by (by rewrite <-E). by destruct (w x).
Qed.

Lemma quiet_update id w set m : quiet m -> wf m ->
  (forall r, c_task_id (set r) = c_task_id r) ->
  let m' := m <| tasks := (fun r => if has_id id r && w r then set r else r) <$> tasks m |> in
  update (fun r => has_id id r && w r) set m
  = (Changes (match find_row id (tasks m) with Some r => if w r then 1 else 0 | None => 0 end), m')
  /\ quiet m' /\ (forall id', find_row id' (tasks m') =
       (fun r => if has_id id r && w r then set r else r) <$> find_row id' (tasks m)).
Proof.
  intros Hq [Hk _] Hset m'. split; [|split; [done|]].
  - unfold update. rewrite quiet_next by done. rewrite filter_keyed by done. f_equal. f_equal.
    destruct (find_row id (tasks m)) as [r|]; [|done]. by destruct (w r).
  - intros id'. subst m'. simpl. generalize (tasks m). intros l.
    induction l as [|x l IH]; [done|]. rewrite fmap_cons, !find_row_cons, IH.
    assert (has_id id' (if has_id id x && w x then set x else x) = has_id id' x) as ->;
      [|by destruct (has_id id' x)].
    destruct (_ && _); [|done]. unfold has_id. by rewrite Hset.
Qed.

Lemma quiet_select q m : quiet m -> select q m = (Some (q, true), m).
Proof. intros Hq. unfold select. by rewrite quiet_next. Qed.

Lemma find_row_has_id id l r : find_row id l = Some r -> has_id id r = true.
Proof. intros Hr. apply has_id_true. by apply find_row_Some in Hr as [_ ?]. Qed.

(** The table that an update guarded by [from] leaves, on the three branches. *)
Lemma quiet_guarded id from to set m : quiet m -> wf m ->
  (forall r, c_task_id (set r) = c_task_id r /\ c_status (set r) = to) ->
  exists n m', update (fun r => has_id id r && status_in from r) set m = (Changes n, m') /\ quiet m' /\
  match find_row id (tasks m) with
  | None => n = 0 /\ tasks m' = tasks m
  | Some r => if decide (c_status r ∈ from)
      then n = 1 /\ status_of id m' = Some to /\ only_changes id m m'
      else n = 0 /\ tasks m' = tasks m
  end.
Proof.
  intros Hq Hwf Hset.
  destruct (quiet_update id (status_in from) set m Hq Hwf (fun r => proj1 (Hset r))) as (-> & Hq' & Hf).
  eexists _, _. split; [done|]. split; [done|].
  assert (forall r, find_row id (tasks m) = Some r -> c_status r ∉ from \/ False ->
    (fun r => if has_id id r && status_in from r then set r else r) <$> tasks m = tasks m) as Hsame.
  { intros r Hr [Hn|[]]. rewrite <-(list_fmap_id (tasks m)) at 2. apply list_fmap_ext.
    intros i x Hx%list_elem_of_lookup_2. destruct (has_id id x) eqn:E; [|done]. apply has_id_true in E.
    rewrite (find_row_elem id _ x (wf_keys _ Hwf) Hx E) in Hr. injection Hr as ->.
    simpl. by rewrite (proj2 (bool_decide_eq_false _) Hn : status_in from r = false). }
  destruct (find_row id (tasks m)) as [r|] eqn:Er.
  - destruct (decide (c_status r ∈ from)) as [Hin|Hin].
    + split; [by rewrite (proj2 (status_in_true _ _) Hin)|]. split.
      * unfold status_of. rewrite Hf, Er. simpl. rewrite (find_row_has_id _ _ _ Er).
        rewrite (proj2 (status_in_true _ _) Hin). simpl. f_equal. apply Hset.
      * intros id' Hne. rewrite Hf. destruct (find_row id' (tasks m)) as [x|] eqn:Ex; [|done]. simpl.
        apply find_row_Some in Ex as [_ Ex]. unfold has_id. rewrite bool_decide_false by congruence. done.
    + split; [|simpl; eapply Hsame; [done|by left]].
      by rewrite (proj2 (bool_decide_eq_false _) Hin : status_in from r = false).
  - split; [done|]. simpl. rewrite <-(list_fmap_id (tasks m)) at 2. apply list_fmap_ext.
    intros i x Hx%list_elem_of_lookup_2. destruct (has_id id x) eqn:E; [|done].
    apply has_id_true in E. by rewrite (find_row_elem id _ x (wf_keys _ Hwf) Hx E) in Er.
Qed.

Lemma transition_decides what id from target to set m : quiet m -> wf m ->
  (forall r, c_task_id (set r) = c_task_id r /\ c_status (set r) = to) ->
  let '(st, m') := transition what id from target set m in decides from to id m st m'.
Proof.
  intros Hq Hwf Hset. unfold transition, decides, status_of.
  destruct (quiet_guarded id from to set m Hq Hwf Hset) as (n & m' & -> & Hq' & Hcase).
  assert (tasks m' = tasks m -> RejectedTransitionStatus id target m' =
    (match find_row id (tasks m) with
     | Some r => in_progress ("task " +:+ id +:+ " status=" +:+ c_status r +:+ " cannot transition to " +:+ target)
     | None => task_not_found id end, m')) as Hrej.
  { intros E. unfold RejectedTransitionStatus. rewrite quiet_select by done.
    rewrite rows_where_has_id by (rewrite E; apply Hwf). rewrite E.
    destruct (find_row id (tasks m)) as [r|] eqn:Er; simpl; [|done].
    rewrite bool_decide_false; [done|]. apply find_row_Some in Er as [Hin _]. intros C.
    pose proof (wf_status _ Hwf) as Hs. rewrite Forall_forall in Hs. specialize (Hs r Hin).
    by rewrite C in Hs. }
  destruct (find_row id (tasks m)) as [r|] eqn:Er; simpl.
  - destruct (decide (c_status r ∈ from)).
    + destruct Hcase as (-> & ? & ?). done.
    + destruct Hcase as [-> E]. rewrite Hrej by done. split; [apply F42.is_code_self|done].
  - destruct Hcase as [-> E]. rewrite Hrej by done. split; [apply F42.is_code_self|done].
Qed.

(** Each transition is accepted exactly from the statuses the state machine
    has an edge from, and answers precisely otherwise.  When SQLite does not
    fail, starting, completing, failing and cancelling a task succeed from those
    statuses, change the status of that task and no other row, and otherwise
    leave the table alone and tell a missing task from one in another state. *)
Theorem Task_transitions_decide (now worker : Z) (id doc code msg data : string) (m : TaskManager) :
  quiet m -> wf m ->
  (let '(st, m') := MarkProcessing now id worker m in decides [kQueued] kProcessing id m st m')
  /\ (let '(st, m') := MarkCompleted now id doc m in
      decides [kProcessing; kCancelling] kCompleted id m st m')
  /\ (let '(st, m') := MarkFailed now id code msg data m in
      decides [kProcessing; kCancelling] kFailed id m st m')
  /\ (let '(st, m') := MarkCancelled now id m in
      decides [kQueued; kCancelling] kCancelled id m st m').
Proof.
  intros Hq Hwf. split_and!; [|by apply transition_decides..].
  unfold MarkProcessing, decides, status_of.
  match goal with |- context [update _ ?set m] =>
    destruct (quiet_guarded id [kQueued] kProcessing set m Hq Hwf ltac:(done)) as (n & m' & -> & Hq' & Hcase) end.
  assert (tasks m' = tasks m ->
    probe id m' = (match find_row id (tasks m) with Some _ => true | None => false end, m')) as Hp.
  { intros E. unfold probe. rewrite quiet_select by done.
    rewrite rows_where_has_id by (rewrite E; apply Hwf). rewrite E. by destruct (find_row _ _). }
  destruct (find_row id (tasks m)) as [r|] eqn:Er; simpl.
  - destruct (decide (c_status r ∈ [kQueued])).
    + destruct Hcase as (-> & ? & ?). done.
    + destruct Hcase as [-> E]. rewrite Hp by done. split; [apply F42.is_code_self|done].
  - destruct Hcase as [-> E]. rewrite Hp by done. split; [apply F42.is_code_self|done].
Qed.

End Ops.

(** ** A table to try things on *)

(** A text for a list of integers that can be read back: bits of its code. *)
Fixpoint pos_text (p : positive) : string :=
  match p with xH => "1" | xO p => String "0"%char (pos_text p) | xI p => String "1"%char (pos_text p) end%string.
Fixpoint text_pos (s : string) : positive :=
  match s with
  | String "0"%char s => xO (text_pos s)
  | String "1"%char EmptyString => xH
  | String _ s => xI (text_pos s)
  | EmptyString => xH
  end%string.

Lemma pos_text_not_empty p : pos_text p <> ""%string.
Proof. by destruct p. Qed.
Lemma text_pos_text p : text_pos (pos_text p) = p.
Proof.
  induction p as [p IH|p IH|]; simpl; [|by rewrite IH|done].
  destruct (pos_text p) eqn:E; [by apply pos_text_not_empty in E|]. by rewrite <-IH.
Qed.

#[export] Instance sample_json : JsonInts.
Proof.
  refine {| json_dump_ints l := pos_text (encode l);
            json_parse_ints s := default [] (decode (text_pos s)) |}.
  intros l _. by rewrite text_pos_text, decode_encode.
Defined.

(** Paths with a trailing dot resolve to the path without it. *)
#[export] Instance sample_paths : Paths :=
  {| weakly_canonical p := Some (match p with "d/./x" => "d/x" | _ => p end);
     parent_path p := match p with "d/x" | "d/y" => "d" | _ => "" end;
     can_remove _ := true |}%string.

Section Order.
Lemma leb_trans a b c : String.leb a b = true -> String.leb b c = true -> String.leb a c = true.
Proof.
  unfold String.leb. revert b c. induction a as [|x a IH]; intros [|y b] [|z c]; simpl; try done.
  assert (forall u v, Ascii.compare u v = (Ascii.N_of_ascii u ?= Ascii.N_of_ascii v)%N) as Hc by done.
  rewrite !Hc. specialize (IH b c).
  destruct (N.compare_spec (Ascii.N_of_ascii x) (Ascii.N_of_ascii y)),
    (N.compare_spec (Ascii.N_of_ascii y) (Ascii.N_of_ascii z)),
    (N.compare_spec (Ascii.N_of_ascii x) (Ascii.N_of_ascii z)); try done; lia.
Qed.

Definition older (a b : Row) : Prop := String.leb (c_created_at a) (c_created_at b) = true.
Definition newer (a b : Row) : Prop := older b a.
#[local] Instance older_dec : RelDecision older := fun a b => decide (_ = true).
#[local] Instance newer_dec : RelDecision newer := fun a b => decide (_ = true).
#[local] Instance older_total : Total older.
Proof. intros a b. apply String.leb_total. Qed.
#[local] Instance newer_total : Total newer.
Proof. intros a b. apply String.leb_total. Qed.
#[local] Instance older_trans : Transitive older.
Proof. intros a b c. apply leb_trans. Qed.
#[local] Instance newer_trans : Transitive newer.
Proof. intros a b c Hab Hbc. by apply (leb_trans _ (c_created_at b)). Qed.

#[export] Instance sample_order : OrderBy.
Proof.
  refine {| order_asc := merge_sort older; order_desc := merge_sort newer |}.
  - apply merge_sort_Permutation.
  - apply merge_sort_Permutation.
  - apply (StronglySorted_merge_sort older).
  - apply (StronglySorted_merge_sort newer).
Defined.
End Order.

Definition no_draws (k : nat) : Z := 0.

(** One row with the given identifier, document, input and status. *)
Definition sample_row (id doc path st : string) : Row :=
  MkRow id "ns" "f" path (Some doc) None st 1 0 0 0 "[]" 0 (-1) None None None None None None
    (NowIso8601 1780221600000) (NowIso8601 1780221600000) None None None (canonical_of path).

Definition sample_table : TaskManager :=
  MkTaskManager [sample_row "a" "doc" "d/x" kQueued; sample_row "b" "doc" "d/y" kProcessing;
                 sample_row "c" "other" "d/y" kCancelled] [] Ulid.initial.

Lemma sample_table_wf : wf sample_table.
Proof. split; [apply (bool_decide_unpack _)|apply (bool_decide_unpack _)]; vm_compute; exact I. Qed.

Lemma Task_lifecycle_witness :
  wf sample_table /\
  lifecycle (status_of "b" sample_table)
    (status_of "b" (run_op no_draws (OpRequestCancel 1780221700000 "b") sample_table)).
Proof.
  split; [exact sample_table_wf|].
  apply (Task_lifecycle no_draws (OpRequestCancel 1780221700000 "b") sample_table sample_table_wf).
Defined.

Lemma Task_terminal_final_witness :
  status_of "c" (run_ops no_draws
    [OpMarkCompleted 1780221700000 "c" "other"; OpMarkProcessing 1780221700000 "c" 1;
     OpRequeueStale 1780221700000 1780221700 24] sample_table) = Some kCancelled.
Proof.
  apply (Task_terminal_final no_draws _ sample_table "c" kCancelled sample_table_wf); reflexivity.
Defined.

Lemma Task_transitions_decide_witness :
  let '(st, m') := MarkProcessing 1780221700000 "a" 1 sample_table in
  decides [kQueued] kProcessing "a" sample_table st m' /\ st = Status_Ok.
Proof.
  split; [|vm_compute; reflexivity].
  exact (proj1 (Task_transitions_decide 1780221700000 1 "a" "" "" "" "" sample_table eq_refl sample_table_wf)).
Defined.
