(* ===== verification/TaskScheduler.v ===== *)
(** * Scheduling and finishing tasks (src/async/)

    task_scheduler.cpp, managed_input.cpp, task_finalizer.cpp,
    task_cleanup_cron.cpp and the dispatch loop of worker_pool.cpp, on top of the
    task table.  The scheduler has a mutex of its own but shares the table with
    callers that do not take it, so a method that makes several calls on the
    table takes an argument [others]: what the other threads do to the table
    before its k-th call.  The clock is read once per call on the table.

    The file system is the set of the resolved paths that exist. *)
From Stdlib Require Import String.
From S2P Require Import Prelude Status Iso8601 F42Error Ulid TaskManager.
Import TaskManager.

(** ** Managed inputs (managed_input.cpp) *)

Module ManagedInput.

Abbreviation Files := (gset string).

Section Release.
Context `{Paths}.

Definition remove (path : string) (fs : Files) : bool * Files :=
  if bool_decide (path ∈ fs) && can_remove path then (true, fs ∖ {[path]}) else (false, fs).

Definition ReleaseManagedPath (managed_dir filepath exclude : string) (m : TaskManager) (fs : Files)
    : bool * TaskManager * Files :=
  if bool_decide (managed_dir = ""%string) || bool_decide (filepath = ""%string) then (false, m, fs) else
  match weakly_canonical managed_dir with
  | None => (false, m, fs)
  | Some dir =>
      match weakly_canonical filepath with
      | None => (false, m, fs)
      | Some path =>
          if negb (bool_decide (parent_path path = dir)) then (false, m, fs) else
          let '(r, m, fs) := ReleaseInputIfUnreferenced path exclude (Some (remove path)) m fs in
          (match r with Value b => b | Error _ => false end, m, fs)
      end
  end.

Definition ReleaseManagedInput (managed_dir : string) (task : TaskInfo) (m : TaskManager) (fs : Files)
    : bool * TaskManager * Files :=
  ReleaseManagedPath managed_dir (filepath task) (task_id task) m fs.

End Release.
End ManagedInput.

(** ** Finishing (task_finalizer.cpp) *)

Module TaskFinalizer.
Import ManagedInput.

Section Finalize.
Context `{Paths}.

(** What other threads do to the table between its two calls. *)
Context (between : TaskManager -> TaskManager).

(** The input is given up only when the terminal state is durable. *)
Definition release_if (persisted : Status) (dir : string) (task : TaskInfo) (m : TaskManager) (fs : Files)
    : TaskManager * Files :=
  if status_ok persisted then let '(_, m, fs) := ReleaseManagedInput dir task (between m) fs in (m, fs)
  else (m, fs).

Definition Complete (now : Z) (dir : string) (task : TaskInfo) (doc : string) (m : TaskManager) (fs : Files)
    : Status * TaskManager * Files :=
  let '(persisted, m) := MarkCompleted now (task_id task) doc m in
  let '(m, fs) := release_if persisted dir task m fs in
  (Status_Ok, m, fs).

(** [data] is [structured_data.dump()]. *)
Definition Fail (now : Z) (dir : string) (task : TaskInfo) (code msg data : string)
    (m : TaskManager) (fs : Files) : Status * TaskManager * Files :=
  let '(persisted, m) := MarkFailed now (task_id task) code msg data m in
  let '(m, fs) := release_if persisted dir task m fs in
  (MkStatus kInternal (code +:+ ": " +:+ msg), m, fs).

Definition Cancel (now : Z) (dir : string) (task : TaskInfo) (m : TaskManager) (fs : Files)
    : Status * TaskManager * Files :=
  let '(persisted, m) := MarkCancelled now (task_id task) m in
  let '(m, fs) := release_if persisted dir task m fs in
  (F42.F42Status F42.kTaskCancelling (task_id task), m, fs).

End Finalize.
End TaskFinalizer.

(** ** The scheduler (task_scheduler.cpp) *)

Module TaskScheduler.
Import ManagedInput.

Inductive EnqueueDisposition := kCreated | kMerged | kRefreshed.

Record TaskScheduler := MkTaskScheduler {
  active_docs_ : gset (string * string);
  config_debounce : option Z; (* f42.watcher_debounce_seconds *)
  releaser_dir : option string (* the directory the releaser is wired to *)
}.

#[export] Instance TaskScheduler_eta : Eta TaskScheduler := fun s =>
  MkTaskScheduler (active_docs_ s) (config_debounce s) (releaser_dir s).

Definition kDefaultDebounceSeconds : Z := 5.
Definition DebounceSeconds (s : TaskScheduler) : Z := default kDefaultDebounceSeconds (config_debounce s).

Section Scheduler.
Context `{JsonInts, Paths, OrderBy}.
Context (draw : nat -> Z).

(** What other threads do before the k-th call on the table, and the clock. *)
Context (others : nat -> TaskManager -> TaskManager) (clock : nat -> Z).

Definition ReleaseUnadoptedInput (s : TaskScheduler) (filepath owner : string)
    (m : TaskManager) (fs : Files) : TaskManager * Files :=
  match releaser_dir s with
  | None => (m, fs)
  | Some dir => let '(_, m, fs) := ReleaseManagedPath dir filepath owner m fs in (m, fs)
  end.

(** The new row of a submission that is not merged. *)
Definition fresh_task (req : SubmitRequest) : TaskInfo :=
  MkTaskInfo "" (rq_namespace_id req) (rq_filename req) (rq_filepath req) (rq_doc_id req)
    (rq_content_hash req) kQueued (rq_task_type req) false (rq_total_pages req) 0 [] zero_percent
    (-1) "" (-1) (rq_trace_id req) "" "" "" "" "" "" "" (rq_metadata_json req).

Definition EnqueueNew (k : nat) (req : SubmitRequest) (m : TaskManager) (fs : Files)
    : Result (TaskInfo * EnqueueDisposition) * TaskManager * Files :=
  let '(created, m) := CreateTask draw (clock k) (fresh_task req) (others k m) in
  (match created with Value t => Value (t, kCreated) | Error e => Error e end, m, fs).

Definition Enqueue (s : TaskScheduler) (req : SubmitRequest) (m : TaskManager) (fs : Files)
    : Result (TaskInfo * EnqueueDisposition) * TaskManager * Files :=
  let window := DebounceSeconds s in
  if bool_decide (rq_doc_id req = ""%string) || (window <=? 0) then EnqueueNew 0 req m fs else
  let '(recent, m) := FindRecentTaskByDocId (clock 0) (rq_namespace_id req) (rq_doc_id req)
                        (rq_task_type req) window (others 0%nat m) in
  match recent with
  | Error e => (Error e, m, fs)
  | Value None => EnqueueNew 1 req m fs
  | Value (Some r) =>
      if bool_decide (content_hash r = rq_content_hash req) then
        let '(claimed, m) := TryClaimDebounceMerge (clock 1) (task_id r) (others 1%nat m) in
        match claimed with
        | Value c =>
            let '(m, fs) :=
              if negb (bool_decide (rq_filepath req = ""%string))
                 && negb (bool_decide (rq_filepath req = filepath c))
              then ReleaseUnadoptedInput s (rq_filepath req) (task_id c) (others 2%nat m) fs
              else (m, fs) in
            (Value (c, kMerged), m, fs)
        | Error _ => EnqueueNew 2 req m fs
        end
      else if bool_decide (status r = kQueued) then
        let superseded := filepath r in
        let '(st, m) := DebounceUpdate (clock 1) (task_id r) req (others 1%nat m) in
        let '(refreshed, m) :=
          if status_ok st then GetTask (task_id r) (others 2%nat m) else (Error st, m) in
        match refreshed with
        | Value t =>
            let '(m, fs) :=
              if negb (bool_decide (superseded = ""%string))
                 && negb (bool_decide (superseded = rq_filepath req))
              then ReleaseUnadoptedInput s superseded (task_id r) (others 3%nat m) fs
              else (m, fs) in
            (Value (t, kRefreshed), m, fs)
        | Error _ => EnqueueNew 3 req m fs
        end
      else EnqueueNew 1 req m fs
  end.

Definition HasActiveTaskFor (ns doc : string) (type : Z) (m : TaskManager) : Result bool * TaskManager :=
  HasActiveTask ns doc type m.

(** The reservation of a document; the empty document is not reserved. *)
Definition reserve (t : TaskInfo) (s : TaskScheduler) : TaskScheduler :=
  if bool_decide (doc_id t = ""%string) then s
  else s <| active_docs_ := active_docs_ s ∪ {[(namespace_id t, doc_id t)]} |>.
Definition OnTaskCompleted (ns doc : string) (s : TaskScheduler) : TaskScheduler :=
  if bool_decide (doc = ""%string) then s
  else s <| active_docs_ := active_docs_ s ∖ {[(ns, doc)]} |>.

(** The two halves of [Dequeue], each one call on the table. *)
Definition DequeueSelect (s : TaskScheduler) (m : TaskManager)
    : Result (option TaskInfo) * TaskScheduler * TaskManager :=
  let '(picked, m) := SelectOldestQueuedTaskExcluding (elements (active_docs_ s)) m in
  (picked, match picked with Value (Some t) => reserve t s | _ => s end, m).

Definition DequeueMark (now : Z) (worker : Z) (t : TaskInfo) (s : TaskScheduler) (m : TaskManager)
    : Result (option TaskInfo) * TaskScheduler * TaskManager :=
  let '(st, m) := MarkProcessing now (task_id t) worker m in
  if status_ok st then
    (Value (Some (t <| status := kProcessing |> <| worker_id := worker |>)), s, m)
  else
    let s := OnTaskCompleted (namespace_id t) (doc_id t) s in
    if F42.is_code F42.kDocProcessingInProgress st then (Value None, s, m) else (Error st, s, m).

Definition Dequeue (worker : Z) (s : TaskScheduler) (m : TaskManager)
    : Result (option TaskInfo) * TaskScheduler * TaskManager :=
  let '(picked, s, m) := DequeueSelect s (others 0%nat m) in
  match picked with
  | Value (Some t) => DequeueMark (clock 1) worker t s (others 1%nat m)
  | r => (r, s, m)
  end.

Definition ActiveDocCount (s : TaskScheduler) : Z := Z.of_nat (size (active_docs_ s)).
Definition IsDocActive (ns doc : string) (s : TaskScheduler) : bool :=
  bool_decide ((ns, doc) ∈ active_docs_ s).

End Scheduler.
End TaskScheduler.

(** ** Periodic cleanup (task_cleanup_cron.cpp) *)

Module TaskCleanupCron.

Definition kDayMs : Z := 24 * 3600 * 1000.
Definition kTargetMs : Z := 2 * 3600 * 1000.

(** C's remainder keeps the sign of the dividend. *)
Definition NextRunDelayMs (now_unix_ms : Z) : Z :=
  let ms_into_day := Z.rem (Z.rem now_unix_ms kDayMs + kDayMs) kDayMs in
  let delay := kTargetMs - ms_into_day in
  if delay <=? 0 then delay + kDayMs else delay.

Definition kDefaultRetentionDays : Z := 30.
Definition kDefaultZombieHours : Z := 24.
Definition kDefaultTimeoutSeconds : Z := 1800.

(** The configuration: the three integers, if set. *)
Record Config := MkConfig {
  task_retention_days : option Z;
  zombie_task_threshold_hours : option Z;
  task_timeout_seconds : option Z
}.
Definition RetentionDays (c : Config) : Z := default kDefaultRetentionDays (task_retention_days c).
Definition ZombieHours (c : Config) : Z := default kDefaultZombieHours (zombie_task_threshold_hours c).
Definition TimeoutSeconds (c : Config) : Z := default kDefaultTimeoutSeconds (task_timeout_seconds c).

(** A failed sweep counts as zero and does not stop the next one. *)
Definition count_of (r : Result Z) : Z := match r with Value n => n | Error _ => 0 end.

Definition RunCleanupNow (c : Config) (now : Z) (m : TaskManager) : (Z * Z * Z) * TaskManager :=
  let now_secs := now / 1000 in
  let '(z, m) := SweepZombies now now_secs (ZombieHours c) m in
  let '(t, m) := SweepTimedOut now now_secs (TimeoutSeconds c) m in
  let '(d, m) := DeleteExpired now_secs (RetentionDays c) m in
  ((count_of d, count_of z, count_of t), m).

End TaskCleanupCron.
