(* ===== verification/TaskSchedulerTheory.v ===== *)
(** * Scheduling and inputs: what holds under interleaving

    Reservations of documents, the removal of inputs, the outcomes of a
    submission, and the periodic cleanup. *)
From Stdlib Require Import Ascii String.
From S2P Require Import Prelude Status Iso8601 F42Error Ulid TaskManager TaskManagerTheory TaskScheduler.
Import TaskManager ManagedInput TaskScheduler.

Section Inputs.
Context `{JsonInts, Paths, OrderBy}.
Context (draw : nat -> Z).

(** ** Inputs of live tasks *)

(** What the row's path resolves to, and that the indexed column agrees. *)
Definition input_of (r : Row) : option string := canonical_of (c_filepath r).
Definition canon_ok (r : Row) : Prop :=
  match c_filepath_canonical r with Some c => input_of r = Some c | None => True end.
Definition inputs_ok (m : TaskManager) : Prop := Forall canon_ok (tasks m).

Lemma scan_one_false what w m m' : scan_one what w m = (Value false, m') ->
  forall r, r ∈ tasks m -> w r = false.
Proof.
  unfold scan_one, select, rows_where. destruct (next_outcome m) as [o m1] eqn:Eo. intros E r Hr.
  destruct (w r) eqn:W; [|done]. exfalso.
  assert (exists x l, filter (fun r => w r = true) (tasks m) = x :: l) as (x & l & Ef).
  { destruct (filter _ (tasks m)) as [|x l] eqn:Ef; [|eauto].
    assert (r ∈ filter (fun r => w r = true) (tasks m)) as Hin by (by apply list_elem_of_filter).
    rewrite Ef in Hin. by apply elem_of_nil in Hin. }
  rewrite Ef in E. destruct o as [| |[]]; simpl in E; done.
Qed.

Lemma ReleaseInput_spec {S} path exclude (f : S -> bool * S) m s :
  let '(r, m', s') := ReleaseInputIfUnreferenced path exclude (Some f) m s in
  tasks m' = tasks m /\
  ((r <> Value true /\ s' = s) \/
   (f s = (match r with Value b => b | Error _ => false end, s') /\
    forall x, x ∈ tasks m -> references path exclude x = false /\ unresolved exclude x = false)).
Proof.
  unfold ReleaseInputIfUnreferenced. case_bool_decide; [by split; [|left]|].
  pose proof (scan_one_tasks "ReleaseInputIfUnreferenced" (references path exclude) m) as E1.
  destruct (scan_one _ (references path exclude) m) as [[[]|] m1] eqn:S1; simpl in E1; try by split; [|left].
  pose proof (scan_one_tasks "ReleaseInputIfUnreferenced guard" (unresolved exclude) m1) as E2.
  destruct (scan_one _ (unresolved exclude) m1) as [[[]|] m2] eqn:S2; simpl in E2;
    try by split; [congruence|left].
  destruct (f s) as [b s'] eqn:F. split; [congruence|]. right. split; [done|]. intros x Hx.
  split; [by eapply scan_one_false|]. eapply scan_one_false; [exact S2|]. by rewrite E1.
Qed.

Lemma not_referenced path exclude r : canon_ok r ->
  references path exclude r = false -> unresolved exclude r = false ->
  live r = true -> c_task_id r <> exclude -> input_of r <> Some path.
Proof.
  unfold references, unresolved, canon_ok, sql_eq. intros Hc Hr Hu Hl Hne Hin.
  rewrite Hl in Hr, Hu.
  assert (has_id exclude r = false) as Hid by (by apply bool_decide_eq_false).
  rewrite Hid in Hr, Hu. rewrite !andb_true_r in Hr, Hu.
  apply bool_decide_eq_false in Hr. unfold input_of in *.
  destruct (c_filepath_canonical r) as [c|]; [congruence|].
  simpl in Hu. apply negb_false_iff, bool_decide_eq_true in Hu.
  rewrite Hu in Hin. done.
Qed.

Lemma ReleaseManagedPath_spec dir path exclude m fs : inputs_ok m ->
  let '(b, m', fs') := ReleaseManagedPath dir path exclude m fs in
  tasks m' = tasks m /\
  if b then exists c d, weakly_canonical path = Some c /\ weakly_canonical dir = Some d
    /\ parent_path c = d /\ c ∈ fs /\ fs' = fs ∖ {[c]}
    /\ forall r, r ∈ tasks m -> live r = true -> c_task_id r <> exclude -> input_of r <> Some c
  else fs' = fs.
Proof.
  intros Hok. unfold ReleaseManagedPath.
  destruct (_ || _); [done|]. destruct (weakly_canonical dir) as [d|] eqn:Ed; [|done].
  destruct (weakly_canonical path) as [c|] eqn:Ec; [|done]. case_bool_decide as Hp; [|done]. simpl negb. cbv iota.
  pose proof (ReleaseInput_spec c exclude (remove c) m fs) as S.
  destruct (ReleaseInputIfUnreferenced _ _ _ _ _) as [[r m'] fs']. destruct S as [E S]. split; [done|].
  destruct S as [[Hr ->]|[Hf Hx]]; [by destruct r as [[]|]|].
  unfold remove in Hf. destruct (bool_decide (c ∈ fs) && can_remove c) eqn:Hin; injection Hf as Eb Ef.
  - destruct r as [b|]; subst; [|done]. apply andb_true_iff in Hin as [Hin%bool_decide_eq_true _].
    exists c, (parent_path c). split_and!; try done. intros r Hr Hl Hne.
    destruct (Hx r Hr). eapply not_referenced; try done. unfold inputs_ok in Hok.
    rewrite Forall_forall in Hok. auto.
  - destruct r as [b|]; subst; done.
Qed.

(** Calls that do not redirect a row to another input. *)
Definition redirects (o : op) : bool := match o with OpDebounceUpdate _ _ _ => true | _ => false end.

Lemma update_inputs w set m :
  (forall r, c_filepath (set r) = c_filepath r /\ c_filepath_canonical (set r) = c_filepath_canonical r) ->
  inputs_ok m -> inputs_ok (update w set m).2.
Proof.
  intros Hset Hok. unfold update. pose proof (next_outcome_tasks m) as E.
  destruct (next_outcome m) as [[] m1]; unfold inputs_ok in *; simpl in *; rewrite ?E; try done.
  apply Forall_fmap. eapply Forall_impl; [exact Hok|]. intros r Hr. simpl. destruct (w r); [|done].
  unfold canon_ok, input_of in *. destruct (Hset r) as [-> ->]. done.
Qed.

Lemma inputs_eq m m' : tasks m' = tasks m -> inputs_ok m -> inputs_ok m'.
Proof. unfold inputs_ok. by intros ->. Qed.

Lemma insert_inputs r m : canon_ok r -> inputs_ok m -> inputs_ok (insert_row r m).2.
Proof.
  intros Hr Hok. unfold insert_row. pose proof (next_outcome_tasks m) as E.
  destruct (next_outcome m) as [[] m1]; simpl in E; try by eapply inputs_eq.
  case_match; [by eapply inputs_eq|]. unfold inputs_ok in *. simpl. rewrite E.
  apply Forall_app. by repeat constructor.
Qed.

Lemma delete_inputs w m : inputs_ok m -> inputs_ok (delete_where w m).2.
Proof.
  intros Hok. unfold delete_where. pose proof (next_outcome_tasks m) as E.
  destruct (next_outcome m) as [[] m1]; simpl in E; try by eapply inputs_eq.
  unfold inputs_ok in *. simpl. rewrite E, Forall_forall in *.
  intros r [_ Hr]%list_elem_of_filter. auto.
Qed.

Lemma row_of_canon t : canon_ok (row_of t).
Proof. unfold canon_ok, input_of, row_of. simpl. by destruct (canonical_of (filepath t)). Qed.

(** Follows the changing statement of a call and the reads around it. *)
Ltac inputs_step :=
  repeat match goal with
  | |- context [update ?w ?set ?m0] =>
      let Hu := fresh "Hu" in
      assert (inputs_ok (update w set m0).2) as Hu
        by (apply update_inputs; [intros ?; try case_match; done|eapply inputs_eq; [|eassumption]; cbn in *; congruence]);
      destruct (update w set m0) as [[] ?]; cbn [snd] in Hu
  | |- context [select ?q ?m0] =>
      let E := fresh "E" in
      pose proof (select_tasks q m0) as E; destruct (select q m0) as [[[[] []]|] ?]; cbn [snd] in E
  | |- context [probe ?id ?m0] =>
      let E := fresh "E" in
      pose proof (probe_tasks id m0) as E; destruct (probe id m0) as [? ?]; cbn [snd] in E
  | |- context [RejectedTransitionStatus ?a ?b ?m0] =>
      let E := fresh "E" in
      pose proof (Rejected_tasks a b m0) as E;
      destruct (RejectedTransitionStatus a b m0) as [? ?]; cbn [snd] in E
  | |- context [if ?x then _ else _] => destruct x
  end; cbn [snd] in *; try (eapply inputs_eq; [|eassumption]; cbn in *; congruence).

Lemma run_op_inputs o m : redirects o = false -> inputs_ok m -> inputs_ok (run_op draw o m).
Proof.
  intros Hr Hok. destruct o; try discriminate Hr; cbn [run_op];
    try (unfold UpdateProgress, ListByNamespace, MarkProcessing, MarkCompleted, MarkFailed,
      MarkCancelled, transition, FindRecentTaskByDocId, HasActiveTask, TryClaimDebounceMerge,
      SelectOldestQueuedTaskExcluding, LiveTaskInputs, SweepZombies, SweepTimedOut,
      RequeueStaleProcessing; rewrite ?sweep_result_m; inputs_step; done).
  - unfold CreateTask. case_match. case_match.
    all: match goal with |- context [insert_row ?r ?m0] =>
      assert (inputs_ok (insert_row r m0).2) as Hi by (by apply insert_inputs; [apply row_of_canon|]);
      by destruct (insert_row r m0) as [[] ?] end.
  - eapply inputs_eq; [apply GetTask_tasks|done].
  - unfold RequestCancel. inputs_step; repeat (case_match; inputs_step).
  - unfold DeleteExpired. rewrite sweep_result_m. by apply delete_inputs.
  - eapply inputs_eq; [|exact Hok].
    pose proof (ReleaseInput_spec path exclude (fun u : unit => (true, u)) m tt) as S.
    by destruct (ReleaseInputIfUnreferenced _ _ _ _ _) as [[? ?] ?]; destruct S as [? _].
  - unfold CountAll. eapply inputs_eq; [|exact Hok]. pose proof (next_outcome_tasks m).
    by destruct (next_outcome m) as [[| |[]] ?].
Qed.

Lemma run_ops_inputs os m : forallb (fun o => negb (redirects o)) os = true ->
  inputs_ok m -> inputs_ok (run_ops draw os m).
Proof.
  revert m. induction os as [|o os IH]; intros m Hr Hok; [done|].
  apply andb_true_iff in Hr as [Ho%negb_true_iff Hr]. by apply IH, run_op_inputs.
Qed.

(** C33: the input of a live task is not removed.  Take any history of calls on
    the table, with any failures of SQLite, in which no debounce refresh
    redirected a task to another file.  Then a release of a managed input removes
    at most one file, only one that lies directly in the managed directory, and
    never the resolved input of a live task other than the one it is called for;
    when it reports false, nothing was removed. *)
Theorem ManagedInput_release_safe (os : list op) (m0 : TaskManager) (dir path exclude : string)
  (fs : gset string) :
  inputs_ok m0 -> forallb (fun o => negb (redirects o)) os = true ->
  let m := run_ops draw os m0 in
  let '(b, m', fs') := ReleaseManagedPath dir path exclude m fs in
  tasks m' = tasks m /\
  if b then exists c d, weakly_canonical path = Some c /\ weakly_canonical dir = Some d
    /\ parent_path c = d /\ c ∈ fs /\ fs' = fs ∖ {[c]}
    /\ forall r, r ∈ tasks m -> live r = true -> c_task_id r <> exclude -> input_of r <> Some c
  else fs' = fs.
Proof. intros Hok Hr. by apply ReleaseManagedPath_spec, run_ops_inputs. Qed.

End Inputs.

Lemma ManagedInput_release_safe_witness :
  let m := run_ops no_draws [OpMarkCompleted 1780221700000 "b" "doc"] sample_table in
  let p := ReleaseManagedPath "d" "d/y" "b" m {["d/x"; "d/y"]}%string in
  p.1.1 = true /\ tasks p.1.2 = tasks m.
Proof.
  cbv zeta. split; [vm_compute; reflexivity|].
  pose proof (ManagedInput_release_safe no_draws [OpMarkCompleted 1780221700000 "b" "doc"] sample_table
    "d" "d/y" "b" {["d/x"; "d/y"]}%string ltac:(repeat constructor) eq_refl) as S.
  cbv zeta in S. revert S. destruct (ReleaseManagedPath _ _ _ _ _) as [[b m'] fs']. intros S. exact (proj1 S).
Defined.

(** ** Two submissions that lose the input of a live task *)

Definition at_noon (k : nat) : Z := 1780221601000.
Definition alone (k : nat) (m : TaskManager) : TaskManager := m.
Definition scheduler : TaskScheduler := MkTaskScheduler ∅ None (Some "d"%string).
Definition submission (path hash : string) : SubmitRequest :=
  MkSubmitRequest "ns" "f" path "doc" hash "" "" 0 1.

(** A refresh rewrites the path of the row and not the resolved path next to it:
    when another task with the new input finishes, the input is removed although
    the refreshed task is queued and needs it. *)
Theorem Refresh_exposes_new_input :
  let m := MkTaskManager [sample_row "a" "doc" "d/x" kQueued; sample_row "b" "other" "d/y" kProcessing]
             [] Ulid.initial in
  let '(r, m1, fs1) := Enqueue no_draws alone at_noon scheduler (submission "d/y" "h") m {["d/x"; "d/y"]}%string in
  let '(_, m2, fs2) := TaskFinalizer.Complete (fun m => m) 1780221602000 "d" (ReadRow (sample_row "b" "other" "d/y" kProcessing))
                         "other" m1 fs1 in
  (exists t, r = Value (t, kRefreshed)) /\ fs1 = {["d/y"]}%string /\ fs2 = ∅
  /\ (fun x => (c_status x, c_filepath x)) <$> find_row "a" (tasks m2) = Some (kQueued, "d/y"%string).
Proof. vm_compute. eauto 10. Qed.

(** A merge compares the paths as text and then releases the submitted path with
    the carrying task left out of the reference check: submitted under another
    spelling, the carrier's own input is removed. *)
Theorem Merge_removes_input_of_carrier :
  let m := MkTaskManager [sample_row "a" "doc" "d/x" kQueued] [] Ulid.initial in
  let '(r, m1, fs1) := Enqueue no_draws alone at_noon scheduler (submission "d/./x" "") m {["d/x"]}%string in
  (exists t, r = Value (t, kMerged)) /\ fs1 = ∅
  /\ (fun x => (c_status x, c_filepath x)) <$> find_row "a" (tasks m1) = Some (kQueued, "d/x"%string).
Proof. vm_compute. eauto 10. Qed.

(** A task whose worker died after the cancel request stays in [cancelling]: the
    requeue at the restart and the sweeps look only at [processing], and a new
    cancel is refused, so the document counts as active for ever. *)
Theorem Cancelling_task_is_never_swept :
  let m := MkTaskManager [sample_row "a" "doc" "d/x" kCancelling] [] Ulid.initial in
  let late := 1780221600000 + 365 * 86400 * 1000 in
  let m1 := (RequeueStaleProcessing late (late / 1000) 24 m).2 in
  let m2 := (TaskCleanupCron.RunCleanupNow (TaskCleanupCron.MkConfig None None None) late m1).2 in
  status_of "a" m2 = Some kCancelling /\ (HasActiveTask "ns" "doc" 1 m2).1 = Value true
  /\ result_ok (RequestCancel late "a" m2).1 = false.
Proof. vm_compute. auto. Qed.

(** ** Reservations *)

Section Machine.
Context `{JsonInts, Paths, OrderBy}.
Context (draw : nat -> Z).

Definition key (t : TaskInfo) : string * string := (namespace_id t, doc_id t).

(** The scheduler, the table, the worker that is inside [Dequeue] with the row it
    selected, and the tasks that workers are processing. *)
Record machine := MkMachine {
  sched : TaskScheduler;
  table : TaskManager;
  dequeuing : option (Z * TaskInfo);
  working : gmap Z TaskInfo
}.

(** A worker selects, marks, works, reports; in between any thread calls the
    table.  The scheduler's mutex keeps the steps of one [Dequeue] together and
    apart from [OnTaskCompleted]. *)
Inductive mstep : machine -> machine -> Prop :=
| step_table s m d w o : mstep (MkMachine s m d w) (MkMachine s (run_op draw o m) d w)
| step_select s m w worker r s' m' :
    w !! worker = None -> DequeueSelect s m = (r, s', m') ->
    mstep (MkMachine s m None w)
      (MkMachine s' m' (match r with Value (Some t) => Some (worker, t) | _ => None end) w)
| step_mark s m w worker t now r s' m' :
    DequeueMark now worker t s m = (r, s', m') ->
    mstep (MkMachine s m (Some (worker, t)) w)
      (MkMachine s' m' None (match r with Value (Some t') => <[worker := t']> w | _ => w end))
| step_finish s m w worker t :
    w !! worker = Some t ->
    mstep (MkMachine s m None w)
      (MkMachine (OnTaskCompleted (namespace_id t) (doc_id t) s) m None (delete worker w)).

Definition busy (x : machine) (worker : Z) (t : TaskInfo) : Prop :=
  working x !! worker = Some t \/ dequeuing x = Some (worker, t).

(** The reservations are the documents of the busy workers, and no two of them
    have the same document. *)
Record reserved (x : machine) : Prop := {
  res_exact p : p ∈ active_docs_ (sched x) <-> exists w t, busy x w t /\ key t = p /\ doc_id t <> ""%string;
  res_unique w t w' t' : busy x w t -> busy x w' t' -> key t = key t' -> doc_id t <> ""%string -> w = w';
  res_one w t t' : busy x w t -> busy x w t' -> t = t';
  res_idle w t : dequeuing x = Some (w, t) -> working x !! w = None
}.

Lemma not_active_key active r : not_active active r = true -> doc_id (ReadRow r) <> ""%string ->
  (namespace_id (ReadRow r), doc_id (ReadRow r)) ∉ active.
Proof.
  unfold not_active. cbn [ReadRow doc_id namespace_id]. intros Hf Hd Hin.
  rewrite forallb_forall in Hf. apply list_elem_of_In, Hf in Hin. cbn [fst snd] in Hin.
  destruct (c_doc_id r) as [d|]; [|done]. simpl in Hin. by rewrite !bool_decide_true in Hin.
Qed.

Lemma head_order_asc l r : head (order_asc l) = Some r -> r ∈ l.
Proof. intros Hh%head_Some_elem_of. by rewrite order_asc_perm in Hh. Qed.

(** A selected row is queued and its document is not reserved. *)
Lemma select_oldest_spec active m t m' :
  SelectOldestQueuedTaskExcluding active m = (Value (Some t), m') ->
  tasks m' = tasks m /\ (exists r, r ∈ tasks m /\ t = ReadRow r /\ c_status r = kQueued)
  /\ (doc_id t <> ""%string -> key t ∉ active).
Proof.
  unfold SelectOldestQueuedTaskExcluding. set (q := take 1 _). intros E.
  pose proof (select_tasks q m) as Et.
  assert (exists r l b, (select q m).1 = Some (r :: l, b) /\ t = ReadRow r /\ (select q m).2 = m') as (r & l & b & Es & -> & Em).
  { destruct (select q m) as [[[[|r l] b]|] m1]; simpl in E; inversion E; subst; eauto 6. }
  rewrite Em in Et. split; [done|].
  assert (r ∈ rows_where (fun r => status_in [kQueued] r && not_active active r) m) as Hr.
  { apply head_order_asc. unfold select in Es. destruct (next_outcome m) as [[] m1]; simpl in Es; try done.
    - injection Es as Es _. subst q. destruct (order_asc _); [done|]. simpl in *. congruence.
    - injection Es as Es _. subst q. destruct (order_asc _), rows; try done. simpl in *. congruence. }
  apply list_elem_of_filter in Hr as [[Hq%status_in_true Ha]%andb_true_iff Hr].
  split; [|by apply not_active_key]. exists r. split_and!; try done. by apply list_elem_of_singleton in Hq.
Qed.

Lemma busy_table s m m' d w : forall x t, busy (MkMachine s m d w) x t <-> busy (MkMachine s m' d w) x t.
Proof. done. Qed.

(** A worker stops holding its task. *)
Lemma release_reserved x y worker t : reserved x -> busy x worker t ->
  (forall w0 t0, busy y w0 t0 <-> busy x w0 t0 /\ w0 <> worker) ->
  sched y = OnTaskCompleted (namespace_id t) (doc_id t) (sched x) -> dequeuing y = None -> reserved y.
Proof.
  intros [Rx Ru Ro Ri] Hbusy Hb Hs Hd. split.
  - intros p. rewrite Hs. unfold OnTaskCompleted. case_bool_decide as Hdoc.
    + rewrite Rx. split; intros (w0 & t0 & B & <- & Hne).
      * exists w0, t0. split_and!; try done. apply Hb. split; [done|]. intros ->.
        by rewrite (Ro _ _ _ B Hbusy) in Hne.
      * apply Hb in B as [B _]. eauto.
    + simpl. rewrite elem_of_difference, elem_of_singleton, Rx. split.
      * intros [(w0 & t0 & B & <- & Hne) Hk]. exists w0, t0. split_and!; try done. apply Hb.
        split; [done|]. intros ->. apply Hk. by rewrite (Ro _ _ _ B Hbusy).
      * intros (w0 & t0 & [B Hw]%Hb & <- & Hne). split; [eauto|]. intros Hk. apply Hw.
        by apply (Ru _ t0 _ t).
  - intros w1 t1 w2 t2 [B1 _]%Hb [B2 _]%Hb. by apply Ru.
  - intros w0 t1 t2 [B1 _]%Hb [B2 _]%Hb. by eapply Ro.
  - intros w0 t0. by rewrite Hd.
Qed.

(** The holder's task is replaced by one with the same document. *)
Lemma swap_reserved x y worker t t' : reserved x -> busy x worker t -> key t' = key t ->
  (forall w0 t0, busy y w0 t0 <-> (busy x w0 t0 /\ w0 <> worker) \/ (w0 = worker /\ t0 = t')) ->
  sched y = sched x -> dequeuing y = None -> reserved y.
Proof.
  intros [Rx Ru Ro Ri] Hbusy Hk Hb Hs Hd.
  assert (doc_id t' = doc_id t) as Hdoc by (by injection Hk). split.
  - intros p. rewrite Hs, Rx. split; intros (w0 & t0 & B & <- & Hne).
    + destruct (decide (w0 = worker)) as [->|].
      * pose proof (Ro _ _ _ B Hbusy) as ->. exists worker, t'. rewrite Hb, Hdoc. auto.
      * exists w0, t0. rewrite Hb. auto.
    + apply Hb in B as [[B _]|[-> ->]]; [eauto|]. exists worker, t. rewrite Hk. by rewrite <-Hdoc.
  - intros w1 t1 w2 t2 [[B1 N1]|[-> ->]]%Hb [[B2 N2]|[-> ->]]%Hb Hkk Hne; [by eapply Ru| | |done].
    + eapply Ru; [exact B1|exact Hbusy|congruence|done].
    + eapply Ru; [exact Hbusy|exact B2|congruence|congruence].
  - intros w0 t1 t2 [[B1 N1]|[-> ->]]%Hb [[B2 N2]|[? ->]]%Hb; [by eapply Ro|done..].
  - intros w0 t0. by rewrite Hd.
Qed.

Lemma mstep_reserved x y : reserved x -> mstep x y -> reserved y.
Proof.
  intros R Hstep. destruct Hstep as [s m d w o|s m w worker r s' m' Hw E|s m w worker t now r s' m' E|s m w worker t Hw].
  - by destruct R; split.
  - unfold DequeueSelect in E. destruct (SelectOldestQueuedTaskExcluding _ m) as [p m1] eqn:Es.
    injection E as -> <- ->.
    destruct r as [[t|]|]; [|by destruct R; split..].
    apply select_oldest_spec in Es as (_ & _ & Hfree). rewrite elem_of_elements in Hfree.
    destruct R as [Rx Ru Ro Ri]. simpl in *.
    assert (forall w0 t0, busy (MkMachine (reserve t s) m' (Some (worker, t)) w) w0 t0 <->
      busy (MkMachine s m None w) w0 t0 \/ (w0 = worker /\ t0 = t)) as Hb.
    { intros w0 t0. unfold busy. simpl. split; [intros [?|[=]]; auto|intros [[?|[=]]|[-> ->]]; auto]. }
    assert (forall t0, ~ busy (MkMachine s m None w) worker t0) as Hidle.
    { intros t0 [Hb'|[=]]. simpl in Hb'. congruence. }
    assert (forall w0 t0, busy (MkMachine s m None w) w0 t0 -> key t0 = key t -> doc_id t <> ""%string -> False) as Hno.
    { intros w0 t0 Hb0 Hk Hd. apply (Hfree Hd), Rx. exists w0, t0. split_and!; try done.
      injection Hk as _ ->. done. }
    split.
    + intros p. simpl. unfold reserve. setoid_rewrite Hb. case_bool_decide as Hd.
      * rewrite Rx. split; [naive_solver|]. intros (w0 & t0 & [?|[-> ->]] & ? & ?); [eauto|done].
      * simpl. rewrite elem_of_union, elem_of_singleton, Rx. split.
        -- intros [(w0 & t0 & ? & ? & ?)| ->]; [exists w0, t0; naive_solver|exists worker, t; naive_solver].
        -- intros (w0 & t0 & [?|[-> ->]] & ? & ?); [eauto 6|by right].
    + intros w1 t1 w2 t2 [B1|[-> ->]]%Hb [B2|[-> ->]]%Hb Hk Hd; [by eapply Ru|exfalso..|done].
      * eapply Hno; [exact B1|done|]. injection Hk as _ <-. done.
      * eapply Hno; [exact B2|done|done].
    + intros w0 t1 t2 [B1|[-> ->]]%Hb [B2|[? ->]]%Hb; [by eapply Ro| | |done]; subst; by apply Hidle in B1 || apply Hidle in B2.
    + intros w0 t0 [= <- <-]. exact Hw.
  - unfold DequeueMark in E. destruct (MarkProcessing now (task_id t) worker m) as [st m1].
    pose proof (res_idle _ R worker t eq_refl) as Hidle. simpl in Hidle.
    assert (forall t0, ~ w !! worker = Some t0) as Hnone by congruence.
    destruct (status_ok st).
    + injection E as <- <- <-.
      apply (swap_reserved _ _ worker t (t <| status := kProcessing |> <| worker_id := worker |>) R);
        [by right|done| |done..].
      intros w0 t0. unfold busy. simpl. destruct (decide (w0 = worker)) as [->|].
      * rewrite lookup_insert_eq. split; [intros [[= <-]|[=]]; auto|].
        intros [[_ ?]|[_ ->]]; [done|by left].
      * rewrite lookup_insert_ne by done. split; [intros [?|[=]]; auto|].
        intros [[[?|[= ? ?]] ?]|[? _]]; [by left|congruence|done].
    + destruct (F42.is_code _ st); injection E as <- <- <-;
        (apply (release_reserved _ _ worker t R); [by right| |done..]; intros w0 t0; unfold busy; simpl;
         split; [intros [?|[=]]; split; [auto|intros ->; by eapply Hnone]
                |intros [[?|[= ? ?]] ?]; [by left|congruence]]).
  - apply (release_reserved _ _ worker t R); [by left| |done..].
    intros w0 t0. unfold busy. simpl. destruct (decide (w0 = worker)) as [->|].
    + rewrite lookup_delete_eq. split; [intros [[=]|[=]]|by intros [_ ?]].
    + rewrite lookup_delete_ne by done. split; [intros [?|[=]]; auto|intros [[?|[=]] _]; by left].
Qed.

(** C31: one document, one worker.  However the workers' dequeues interleave with
    each other, with the end of tasks and with arbitrary calls on the table by
    other threads, two workers that process tasks of the same document of the
    same namespace are the same worker, and the reserved documents are exactly
    those being processed or dequeued, so none stays reserved for ever. *)
Theorem Scheduler_doc_exclusive (s : TaskScheduler) (m : TaskManager) (x : machine) :
  active_docs_ s = ∅ -> rtc mstep (MkMachine s m None ∅) x ->
  (forall w t w' t', working x !! w = Some t -> working x !! w' = Some t' ->
     namespace_id t = namespace_id t' -> doc_id t = doc_id t' -> doc_id t <> ""%string -> w = w')
  /\ (forall p, p ∈ active_docs_ (sched x) <->
       exists w t, busy x w t /\ (namespace_id t, doc_id t) = p /\ doc_id t <> ""%string).
Proof.
  intros Hs Hr. assert (reserved x) as [Rx Ru _ _].
  { revert Hr. apply (rtc_ind_r (fun y => reserved y)); [|intros; by eapply mstep_reserved].
    assert (forall w t, ~ busy (MkMachine s m None ∅) w t) as Hnone.
    { intros w t [B|[=]]. simpl in B. by rewrite lookup_empty in B. }
    split; [|intros; exfalso; eapply Hnone; eassumption..|by intros ??[=]].
    intros p. simpl. rewrite Hs. split; [by intros ?%not_elem_of_empty|].
    by intros (w & t & B%Hnone & _). }
  split; [|exact Rx]. intros w t w' t' B B' Hn Hd Hne.
  eapply Ru; [by left|by left| |done]. unfold key. congruence.
Qed.

(** ** One dequeue, with other threads in between *)

Lemma update_changes id w set m n m' : wf m ->
  update (fun r => has_id id r && w r) set m = (Changes n, m') -> n <> 0 ->
  exists r, find_row id (tasks m) = Some r /\ w r = true
  /\ tasks m' = (fun r => if has_id id r && w r then set r else r) <$> tasks m.
Proof.
  intros [Hk _] E Hn. unfold update in E. pose proof (next_outcome_tasks m) as Et.
  destruct (next_outcome m) as [[] m1]; try done. simpl in Et. rewrite Et, filter_keyed in E by done.
  injection E as <- <-. destruct (find_row id (tasks m)) as [r|]; [|done].
  exists r. destruct (w r); [done|]. done.
Qed.

Lemma MarkProcessing_ok now id worker m m' st : wf m -> MarkProcessing now id worker m = (st, m') ->
  status_ok st = true ->
  status_of id m = Some kQueued /\ status_of id m' = Some kProcessing
  /\ exists r, find_row id (tasks m') = Some r /\ c_worker_id r = Some worker.
Proof.
  intros Hwf. unfold MarkProcessing. destruct (update _ _ m) as [[| |n] m1] eqn:E.
  1,2: intros [= <- <-] Hok; by vm_compute in Hok.
  destruct (Z.eqb_spec n 0) as [->|Hn].
  { destruct (probe id m1) as [[] ?]; intros [= <- <-] Hok; by vm_compute in Hok. }
  intros [= <- <-] _. destruct (update_changes id (status_in [kQueued]) _ m n m1 Hwf E Hn) as (r & Hr & Hq & Et).
  pose proof Hq as Hq'. apply status_in_true, list_elem_of_singleton in Hq'.
  assert (exists r', find_row id (tasks m1) = Some r' /\ c_status r' = kProcessing /\ c_worker_id r' = Some worker)
    as (r' & Hr' & Hs & Hwk).
  { rewrite Et. clear -Hr Hq. revert Hr. induction (tasks m) as [|x l IH]; [done|].
    rewrite fmap_cons, !find_row_cons. destruct (has_id id x) eqn:Ex; cbn [andb].
    - intros [= ->]. rewrite Hq.
      match goal with |- context [has_id id ?y] => change (has_id id y) with (has_id id r) end.
      rewrite Ex. eauto.
    - rewrite Ex. exact IH. }
  unfold status_of. rewrite Hr, Hr'. simpl. rewrite Hq', Hs. eauto.
Qed.

(** Giving a reservation back. *)
Lemma release_reserve t s : (doc_id t <> ""%string -> key t ∉ active_docs_ s) ->
  active_docs_ (OnTaskCompleted (namespace_id t) (doc_id t) (reserve t s)) = active_docs_ s.
Proof.
  intros Hfree. unfold OnTaskCompleted, reserve. case_bool_decide as Hd; [done|]. simpl.
  specialize (Hfree Hd). unfold key in Hfree. apply leibniz_equiv. set_solver.
Qed.

(** A worker is only given a task that was waiting.  Whatever the other
    threads do to the table between the two calls of a dequeue, and whatever
    SQLite answers: a task that is handed out was queued when it was marked, is
    marked as being processed by that worker, and its document was free and is
    reserved; when no task is handed out the reservations are as before.  In
    particular a task cancelled after the selection is not dispatched. *)
Theorem Dequeue_dispatches_waiting (others : nat -> TaskManager -> TaskManager) (clock : nat -> Z)
  (worker : Z) (s s' : TaskScheduler) (m m' : TaskManager) (r : Result (option TaskInfo)) :
  wf (others 1%nat (DequeueSelect s (others 0%nat m)).2) ->
  Dequeue others clock worker s m = (r, s', m') ->
  match r with
  | Value (Some t) =>
      status_of (task_id t) (others 1%nat (DequeueSelect s (others 0%nat m)).2) = Some kQueued
      /\ status_of (task_id t) m' = Some kProcessing
      /\ (exists row, find_row (task_id t) (tasks m') = Some row /\ c_worker_id row = Some worker)
      /\ (doc_id t <> ""%string -> key t ∉ active_docs_ s)
      /\ active_docs_ s' = active_docs_ (reserve t s)
  | _ => active_docs_ s' = active_docs_ s
  end.
Proof.
  intros Hwf. unfold Dequeue.
  destruct (DequeueSelect s (others 0%nat m)) as [[picked s1] m1] eqn:Es. simpl in Hwf.
  unfold DequeueSelect in Es. destruct (SelectOldestQueuedTaskExcluding _ _) as [p m2] eqn:Esel.
  injection Es as -> <- ->.
  destruct picked as [[t|]|]; [|by intros [= <- <- _]..].
  apply select_oldest_spec in Esel as (_ & _ & Hfree). rewrite elem_of_elements in Hfree.
  unfold DequeueMark. destruct (MarkProcessing _ _ _ _) as [st m3] eqn:Em.
  destruct (status_ok st) eqn:Hok.
  - intros [= <- <- <-]. cbn [task_id set_field doc_id].
    destruct (MarkProcessing_ok _ _ _ _ _ _ Hwf Em Hok) as (Hq & Hp & Hw).
    split_and!; [exact Hq|exact Hp|exact Hw|exact Hfree|reflexivity].
  - pose proof (release_reserve t s Hfree) as Ha. destruct (F42.is_code _ st); by intros [= <- <- _].
Qed.

End Machine.

Definition two_queued : TaskManager :=
  MkTaskManager
    [sample_row "a" "doc" "d/x" kQueued;
     sample_row "b" "other" "d/y" kQueued <| c_created_at := NowIso8601 1780221600002 |>;
     sample_row "c" "doc" "d/z" kQueued <| c_created_at := NowIso8601 1780221600001 |>] [] Ulid.initial.

Lemma two_queued_wf : wf two_queued.
Proof. split; apply (bool_decide_unpack _); vm_compute; exact I. Qed.

(** The machine after the dequeues of two workers. *)
Definition dequeue_step (worker : Z) (x : machine) : machine :=
  let '(r, s, m) := DequeueSelect (sched x) (table x) in
  match r with
  | Value (Some t) =>
      let '(r, s, m) := DequeueMark 1780221700000 worker t s m in
      MkMachine s m None (match r with Value (Some t') => <[worker := t']> (working x) | _ => working x end)
  | _ => MkMachine s m None (working x)
  end.

Lemma dequeue_step_reachable draw worker x : dequeuing x = None -> working x !! worker = None ->
  rtc (mstep draw) x (dequeue_step worker x).
Proof.
  destruct x as [s m d w]. simpl. intros -> Hw. unfold dequeue_step. simpl.
  destruct (DequeueSelect s m) as [[r s1] m1] eqn:E.
  eapply rtc_l; [by eapply (step_select draw s m w worker)|].
  destruct r as [[t|]|]; [|apply rtc_refl..].
  destruct (DequeueMark _ worker t s1 m1) as [[r s2] m2] eqn:E2.
  apply rtc_once. by eapply step_mark.
Qed.

Definition two_workers : machine :=
  dequeue_step 2 (dequeue_step 1 (MkMachine (MkTaskScheduler ∅ None None) two_queued None ∅)).

Lemma Scheduler_doc_exclusive_witness :
  (task_id <$> working two_workers !! 1 = Some "a"%string)
  /\ (task_id <$> working two_workers !! 2 = Some "b"%string)
  /\ forall t t', working two_workers !! 1 = Some t -> working two_workers !! 2 = Some t' ->
      namespace_id t = namespace_id t' -> doc_id t = doc_id t' -> doc_id t <> ""%string -> (1 : Z) = 2.
Proof.
  split; [vm_compute; reflexivity|]. split; [vm_compute; reflexivity|].
  intros t t' Ht Ht'.
  apply (proj1 (Scheduler_doc_exclusive no_draws (MkTaskScheduler ∅ None None) two_queued two_workers
    eq_refl ltac:(etransitivity; apply dequeue_step_reachable; reflexivity)) 1 t 2 t' Ht Ht').
Defined.

Lemma Dequeue_dispatches_waiting_witness :
  let others (k : nat) (m : TaskManager) :=
    match k with 1%nat => (RequestCancel 1780221700000 "a" m).2 | _ => m end in
  let r := Dequeue others at_noon 1 (MkTaskScheduler ∅ None None) two_queued in
  r.1.1 = Value None /\ active_docs_ r.1.2 = ∅.
Proof.
  cbv zeta. split; [vm_compute; reflexivity|].
  pose proof (Dequeue_dispatches_waiting
    (fun (k : nat) (m : TaskManager) => match k with 1%nat => (RequestCancel 1780221700000 "a" m).2 | _ => m end)
    at_noon 1 (MkTaskScheduler ∅ None None)) as S.
  destruct (Dequeue _ _ _ _ _) as [[r s'] m'] eqn:E.
  specialize (S s' two_queued m' r).
  assert (r = Value None) as -> by (clear S; vm_compute in E; congruence).
  apply S; [|exact E]. split; apply (bool_decide_unpack _); vm_compute; exact I.
Defined.
