(* ===== verification/TaskOutcomes.v ===== *)
(** * Outcomes of submissions and of the periodic cleanup

    What a successful [Enqueue] did, under interleaving; what one run of the
    cleanup does to each row, in terms of times; when the cron runs next. *)
From Stdlib Require Import Ascii String.
From S2P Require Import Prelude Status Iso8601 F42Error Ulid TaskManager TaskManagerTheory TaskScheduler TaskSchedulerTheory.
Import TaskManager ManagedInput TaskScheduler.

Section Outcomes.
Context `{JsonInts, Paths, OrderBy}.
Context (draw : nat -> Z).
Context (others : nat -> TaskManager -> TaskManager) (clock : nat -> Z).

(** ** Submissions *)

(** The row that a fresh submission leaves. *)
Definition carries (req : SubmitRequest) (r : Row) : Prop :=
  c_status r = kQueued /\ c_namespace_id r = rq_namespace_id req /\ c_doc_id r = nullable (rq_doc_id req)
  /\ c_content_hash r = nullable (rq_content_hash req) /\ c_filepath r = rq_filepath req.

Lemma EnqueueNew_spec k req m fs t d m' fs' :
  EnqueueNew draw others clock k req m fs = (Value (t, d), m', fs') ->
  d = kCreated /\ fs' = fs /\ exists r, find_row (task_id t) (tasks m') = Some r /\ carries req r.
Proof.
  unfold EnqueueNew, CreateTask. simpl task_id. rewrite bool_decide_true by done.
  destruct (Ulid.GenerateUlid _ _ _) as [codes g]. cbn [set_field].
  match goal with |- context [insert_row ?r ?m0] => set (row := r); set (m1 := m0) end.
  unfold insert_row. pose proof (next_outcome_tasks m1) as Et.
  destruct (next_outcome m1) as [[] m2]; [|by intros [=]..]. simpl in Et.
  destruct (_ || _) eqn:C; [by intros [=]|]. intros [= <- <- <- <-]. split; [done|]. split; [done|].
  apply orb_false_iff in C as [C%bool_decide_eq_false _]. exists row. simpl.
  rewrite find_row_snoc. rewrite (proj2 (find_row_None (ulid_text codes) (tasks m2))) by exact C.
  rewrite find_row_cons. unfold has_id. rewrite bool_decide_true by done.
  by repeat split.
Qed.

Lemma select_delivers q m r l b : (select q m).1 = Some (r :: l, b) -> r ∈ q.
Proof.
  unfold select. destruct (next_outcome m) as [[] m1]; simpl; try done; intros [= Es _].
  - rewrite Es. left.
  - assert (r ∈ take rows q) as Hr by (rewrite Es; left). apply elem_of_take in Hr as (i & Hr & _).
    by eapply list_elem_of_lookup_2.
Qed.

(** A row that a submission may be debounced into. *)
Definition debounces (req : SubmitRequest) (cutoff : string) (r : Row) : Prop :=
  c_namespace_id r = rq_namespace_id req /\ c_doc_id r = Some (rq_doc_id req)
  /\ c_task_type r = rq_task_type req /\ String.leb cutoff (c_created_at r) = true
  /\ c_status r ∉ [kCancelled; kCancelling; kFailed].

Lemma FindRecent_spec now req window m t m' : wf m ->
  FindRecentTaskByDocId now (rq_namespace_id req) (rq_doc_id req) (rq_task_type req) window m
    = (Value (Some t), m') ->
  tasks m' = tasks m /\ exists r, find_row (task_id t) (tasks m) = Some r /\ t = ReadRow r
    /\ debounces req (UnixToIso8601 (now / 1000 - window)) r.
Proof.
  intros Hwf. unfold FindRecentTaskByDocId. case_bool_decide; [done|]. set (q := take 1 _). intros E.
  pose proof (select_tasks q m) as Et.
  assert (exists r l b, (select q m).1 = Some (r :: l, b) /\ t = ReadRow r /\ (select q m).2 = m')
    as (r & l & b & Es & -> & Em).
  { destruct (select q m) as [[[[|r l] b]|] m1]; simpl in E; inversion E; subst; eauto 6. }
  rewrite Em in Et. split; [done|]. exists r.
  assert (r ∈ q) as Hr by (by eapply select_delivers).
  apply elem_of_take in Hr as (i & Hr & _). apply list_elem_of_lookup_2 in Hr.
  rewrite order_desc_perm in Hr. apply list_elem_of_filter in Hr as [Hw Hr].
  rewrite !andb_true_iff in Hw.
  destruct Hw as [[[[Hns%bool_decide_eq_true Hdoc%bool_decide_eq_true] Hty%Z.eqb_eq] Hc] Hst].
  split_and!; [by apply find_row_elem; [apply Hwf|..]|done|].
  split_and!; try done. apply negb_true_iff, bool_decide_eq_false in Hst. done.
Qed.

(** A successful change of one identifier, seen in the row that it leaves. *)
Lemma update_leaves id w set m n m' : wf m ->
  update (fun r => has_id id r && w r) set m = (Changes n, m') -> n <> 0 ->
  (forall r, c_task_id (set r) = c_task_id r) ->
  exists r, find_row id (tasks m) = Some r /\ w r = true /\ find_row id (tasks m') = Some (set r).
Proof.
  intros Hwf E Hn Hset. destruct (update_changes id w set m n m' Hwf E Hn) as (r & Hr & Hw & Et).
  exists r. split_and!; [done..|]. rewrite Et. clear E Et Hwf. revert Hr.
  induction (tasks m) as [|x l IH]; [done|]. rewrite fmap_cons, !find_row_cons.
  destruct (has_id id x) eqn:Ex; cbn [andb].
  - intros [= ->]. rewrite Hw. unfold has_id in *. by rewrite Hset, Ex.
  - rewrite Ex. exact IH.
Qed.

Lemma TryClaim_spec now id m c m' : wf m -> TryClaimDebounceMerge now id m = (Value c, m') ->
  task_id c = id /\ exists r, find_row id (tasks m) = Some r
    /\ c_status r ∉ [kCancelled; kCancelling; kFailed] /\ c = ReadRow (r <| c_updated_at := NowIso8601 now |>).
Proof.
  intros Hwf. unfold TryClaimDebounceMerge.
  destruct (update _ _ m) as [[| |n] m1] eqn:E; [done..|].
  destruct (Z.eqb_spec n 0) as [->|Hn]; [by destruct (probe id m1)|].
  pose proof E as E'.
  destruct (update_leaves id (fun r => negb (status_in [kCancelled; kCancelling; kFailed] r)) _ m n m1 Hwf E Hn
              ltac:(done)) as (r & Hr & Hs & Hr').
  pose proof (select_tasks (rows_where (has_id id) m1) m1) as Et.
  destruct (select _ m1) as [[[[|r1 l] b]|] m2] eqn:Es; try done. intros [= <- <-].
  assert (r1 ∈ rows_where (has_id id) m1) as Hin.
  { eapply (select_delivers _ m1 r1 l b). by rewrite Es. }
  assert (wf m1) as Hwf1.
  { assert (allowed (tasks m) (fun r => has_id id r && negb (status_in [kCancelled; kCancelling; kFailed] r))
      (fun r => r <| c_updated_at := NowIso8601 now |>)) as Ha by (intros ????; split_and!; auto with cortrix).
    apply update_step in Ha as [Ha _]. rewrite E' in Ha. by apply Ha. }
  apply list_elem_of_filter in Hin as [Hid%has_id_true Hin].
  pose proof (find_row_elem id _ r1 (wf_keys _ Hwf1) Hin Hid) as Hr1. rewrite Hr' in Hr1. injection Hr1 as <-.
  split; [done|]. exists r. split_and!; [done| |done].
  by apply negb_true_iff, bool_decide_eq_false in Hs.
Qed.

(** The row that a refresh leaves: waiting, with the submitted content. *)
Definition refreshed (req : SubmitRequest) (r0 r : Row) : Prop :=
  c_status r0 = kQueued /\ c_status r = kQueued /\ c_filepath r = rq_filepath req
  /\ c_content_hash r = nullable (rq_content_hash req) /\ c_cancel_requested r = 0
  /\ c_namespace_id r = c_namespace_id r0 /\ c_doc_id r = c_doc_id r0 /\ c_created_at r = c_created_at r0.

Lemma DebounceUpdate_spec now id req m st m' : wf m -> DebounceUpdate now id req m = (st, m') ->
  status_ok st = true ->
  exists r0 r, find_row id (tasks m) = Some r0 /\ find_row id (tasks m') = Some r /\ refreshed req r0 r.
Proof.
  intros Hwf. unfold DebounceUpdate. destruct (update _ _ m) as [[| |n] m1] eqn:E.
  1,2: intros [= <- <-] Hok; by vm_compute in Hok.
  destruct (Z.eqb_spec n 0) as [->|Hn].
  { destruct (probe id m1) as [[] ?]; intros [= <- <-] Hok; by vm_compute in Hok. }
  intros [= <- <-] _.
  destruct (update_leaves id (status_in [kQueued]) _ m n m1 Hwf E Hn ltac:(done)) as (r & Hr & Hq & Hr').
  eexists r, _. split; [done|]. split; [exact Hr'|].
  apply status_in_true, list_elem_of_singleton in Hq. by repeat split.
Qed.

Lemma GetTask_spec id m t m' : GetTask id m = (Value t, m') -> task_id t = id.
Proof.
  unfold GetTask. destruct (select _ m) as [[[[|r l] b]|] m1] eqn:Es; try done. intros [= <- _].
  assert (r ∈ rows_where (has_id id) m) as Hr by (eapply (select_delivers _ m r l b); by rewrite Es).
  apply list_elem_of_filter in Hr as [Hr%has_id_true _]. done.
Qed.

(** ** What a submission did *)

(** The table before and after a statement on it, when other threads run first. *)
Definition merged (req : SubmitRequest) (cutoff : string) (m : TaskManager) (t : TaskInfo) : Prop :=
  exists r m1 r1, find_row (task_id t) (tasks (others 0%nat m)) = Some r /\ debounces req cutoff r
    /\ col_text (c_content_hash r) = rq_content_hash req
    /\ tasks m1 = tasks (others 0%nat m) /\ find_row (task_id t) (tasks (others 1%nat m1)) = Some r1
    /\ c_status r1 ∉ [kCancelled; kCancelling; kFailed]
    /\ t = ReadRow (r1 <| c_updated_at := NowIso8601 (clock 1%nat) |>).

Definition was_refreshed (req : SubmitRequest) (cutoff : string) (m : TaskManager) (t : TaskInfo) : Prop :=
  exists r m1 m2 r0 r1, find_row (task_id t) (tasks (others 0%nat m)) = Some r /\ debounces req cutoff r
    /\ col_text (c_content_hash r) <> rq_content_hash req /\ c_status r = kQueued
    /\ tasks m1 = tasks (others 0%nat m) /\ find_row (task_id t) (tasks (others 1%nat m1)) = Some r0
    /\ DebounceUpdate (clock 1%nat) (task_id t) req (others 1%nat m1) = (Status_Ok, m2)
    /\ find_row (task_id t) (tasks m2) = Some r1 /\ refreshed req r0 r1.

Lemma status_ok_eq st : status_ok st = true -> forall now id req m m', DebounceUpdate now id req m = (st, m') ->
  st = Status_Ok.
Proof.
  intros Hok now id req m m'. unfold DebounceUpdate. destruct (update _ _ m) as [[| |n] m1].
  1,2: intros [= <- <-]; by vm_compute in Hok.
  destruct (n =? 0); [|by intros [= <- <-]].
  destruct (probe id m1) as [[] ?]; intros [= <- <-]; by vm_compute in Hok.
Qed.

Lemma wf_tasks m m' : tasks m' = tasks m -> wf m -> wf m'.
Proof. intros E [? ?]. split; by rewrite E. Qed.

(** A submission is kept exactly once and never attached to a task that is
    being cancelled or has failed.  Whatever other threads do to the table between
    the calls, and whatever SQLite answers, an accepted submission has been
    stored in a new waiting row that carries its document, content and path; or
    merged into a task of the same document, type and content, created within the
    debounce window and neither cancelled, cancelling nor failed when it was
    claimed; or, the content being different, it has replaced the content and path
    of such a task while that was waiting. *)
Theorem Enqueue_outcomes (s : TaskScheduler) (req : SubmitRequest) (m m' : TaskManager) (fs fs' : Files)
  (t : TaskInfo) (d : EnqueueDisposition) :
  wf m -> (forall k x, wf x -> wf (others k x)) ->
  Enqueue draw others clock s req m fs = (Value (t, d), m', fs') ->
  let cutoff := UnixToIso8601 (clock 0%nat / 1000 - DebounceSeconds s) in
  match d with
  | kCreated => fs' = fs /\ exists r, find_row (task_id t) (tasks m') = Some r /\ carries req r
  | kMerged => merged req cutoff m t /\ (rq_filepath req = filepath t -> fs' = fs)
  | kRefreshed => was_refreshed req cutoff m t
  end.
Proof.
  intros Hwf Ho E cutoff. unfold Enqueue in E.
  assert (forall k m0 fs0, EnqueueNew draw others clock k req m0 fs = (Value (t, d), m', fs0) ->
    fs0 = fs' -> match d with
  | kCreated => fs' = fs /\ exists r, find_row (task_id t) (tasks m') = Some r /\ carries req r
  | kMerged => merged req cutoff m t /\ (rq_filepath req = filepath t -> fs' = fs)
  | kRefreshed => was_refreshed req cutoff m t
  end) as Hnew.
  { intros k m0 fs0 En <-. by apply EnqueueNew_spec in En as (-> & ? & ?). }
  destruct (_ || _); [by eapply Hnew|].
  destruct (FindRecentTaskByDocId _ _ _ _ _ _) as [recent m1] eqn:Ef.
  destruct recent as [[r|]|]; [|by eapply Hnew|done].
  pose proof (Ho 0%nat m Hwf) as Hwf0.
  apply FindRecent_spec in Ef as (Et & row & Hrow & -> & Hdeb); [|done].
  pose proof (Ho 1%nat m1 (wf_tasks _ _ Et Hwf0)) as Hwf1. cbn [ReadRow content_hash task_id status filepath] in E, Hrow.
  case_bool_decide as Hh.
  - destruct (TryClaimDebounceMerge _ _ _) as [[c|] m2] eqn:Ec; [|by eapply Hnew].
    apply TryClaim_spec in Ec as (Hid & r1 & Hr1 & Hs1 & ->); [|done].
    destruct (if _ && _ then _ else _) as [m3 fs3] eqn:Er. injection E as <- <- <- <-.
    assert (c_task_id r1 = c_task_id row) as Hid' by done. clear Hid. split.
    + exists row, m1, r1. cbn [ReadRow task_id set_field c_task_id]. rewrite Hid'. split_and!; done.
    + intros Hp. rewrite (bool_decide_true (rq_filepath req = _) Hp), andb_false_r in Er. congruence.
  - case_bool_decide as Hq; [|by eapply Hnew].
    destruct (DebounceUpdate _ _ _ _) as [st m2] eqn:Ed.
    destruct (status_ok st) eqn:Hok; [|by eapply Hnew].
    pose proof (status_ok_eq st Hok _ _ _ _ _ Ed) as ->.
    destruct (DebounceUpdate_spec _ _ _ _ _ _ Hwf1 Ed Hok) as (r0 & r1 & Hr0 & Hr1 & Href).
    destruct (GetTask _ _) as [[t'|] m3] eqn:Eg; [|by eapply Hnew].
    destruct (if _ && _ then _ else _) as [m4 fs4] eqn:Er. injection E as <- <- <- <-.
    apply GetTask_spec in Eg.
    exists row, m1, m2, r0, r1. rewrite Eg. split_and!; done.
Qed.
End Outcomes.

(** ** One run of the cleanup *)

Lemma ltb_iso a b : in_range a -> in_range b -> String.ltb (NowIso8601 a) (NowIso8601 b) = (a <? b).
Proof.
  intros Ha Hb. unfold String.ltb. destruct (Z.ltb_spec a b) as [Hlt|Hge].
  - by rewrite NowIso8601_lt.
  - destruct (Z.eq_dec a b) as [->|].
    + pose proof (String.compare_antisym (NowIso8601 b) (NowIso8601 b)) as E.
      by destruct (String.compare (NowIso8601 b) (NowIso8601 b)).
    + rewrite String.compare_antisym. by rewrite NowIso8601_lt by (done || lia).
Qed.

Lemma UnixToIso8601_ms secs : UnixToIso8601 secs = NowIso8601 (secs * 1000).
Proof. unfold UnixToIso8601, NowIso8601. by rewrite Z.div_mul, Z.mod_mul by lia. Qed.

(** What a statement without failures does to the row of an identifier. *)
Lemma quiet_update_find w set m : quiet m -> (forall r, c_task_id (set r) = c_task_id r) ->
  let m' := (update w set m).2 in
  quiet m' /\ c_task_id <$> tasks m' = c_task_id <$> tasks m
  /\ forall id, find_row id (tasks m') = (fun r => if w r then set r else r) <$> find_row id (tasks m).
Proof.
  intros Hq Hset. unfold update. rewrite quiet_next by done. simpl. split; [done|]. split.
  - rewrite <-list_fmap_compose. apply list_fmap_ext. intros i r _. simpl. by destruct (w r).
  - intros id. induction (tasks m) as [|x l IH]; [done|]. rewrite fmap_cons, !find_row_cons, IH.
    assert (has_id id (if w x then set x else x) = has_id id x) as ->; [|by destruct (has_id id x)].
    destruct (w x); [|done]. unfold has_id. by rewrite Hset.
Qed.

Lemma quiet_delete_find w m : quiet m -> NoDup (c_task_id <$> tasks m) ->
  forall id, find_row id (tasks (delete_where w m).2)
  = match find_row id (tasks m) with Some r => if w r then None else Some r | None => None end.
Proof.
  intros Hq Hk id. unfold delete_where. rewrite quiet_next by done. simpl.
  induction (tasks m) as [|x l IH]; [done|]. rewrite fmap_cons in Hk. apply NoDup_cons in Hk as [Hx Hk].
  rewrite filter_cons, find_row_cons. destruct (w x) eqn:W.
  - rewrite decide_False, IH by done. destruct (has_id id x) eqn:E; [|done]. apply has_id_true in E.
    rewrite W. by rewrite (proj2 (find_row_None id l)) by (by rewrite <-E).
  - rewrite decide_True, find_row_cons, IH by done. destruct (has_id id x); by rewrite ?W.
Qed.

Lemma status_in_one s r : status_in [s] r = bool_decide (c_status r = s).
Proof. apply bool_decide_ext, list_elem_of_singleton. Qed.

Inductive fate := Kept | Zombie | TimedOut | Expired.

(** What one run is meant to do to a task, by the times in milliseconds. *)
Definition fate_of (c : TaskCleanupCron.Config) (now : Z) (s : string) (updated : Z) (started : option Z) : fate :=
  let now := now / 1000 * 1000 in
  if bool_decide (s = kProcessing) then
    if updated <? now - TaskCleanupCron.ZombieHours c * 3600000 then Zombie
    else if default false ((fun v => v <? now - TaskCleanupCron.TimeoutSeconds c * 1000) <$> started)
    then TimedOut else Kept
  else if terminal s && (updated <? now - TaskCleanupCron.RetentionDays c * 86400000) then Expired
  else Kept.

Definition cutoffs_ok (c : TaskCleanupCron.Config) (now : Z) : Prop :=
  in_range now /\ 0 <= TaskCleanupCron.RetentionDays c
  /\ in_range (now / 1000 * 1000 - TaskCleanupCron.ZombieHours c * 3600000)
  /\ in_range (now / 1000 * 1000 - TaskCleanupCron.TimeoutSeconds c * 1000)
  /\ in_range (now / 1000 * 1000 - TaskCleanupCron.RetentionDays c * 86400000).

(** One run, as a function on a row: the three statements one after the other. *)
Definition clean_row (c : TaskCleanupCron.Config) (now : Z) (r : Row) : option Row :=
  let cut d := NowIso8601 (now / 1000 * 1000 - d) in
  let r := if status_in [kProcessing] r && String.ltb (c_updated_at r) (cut (TaskCleanupCron.ZombieHours c * 3600000))
           then swept now "CX_ERR_ZOMBIE_TASK_CLEANUP" "Worker presumed crashed." r else r in
  let r := if status_in [kProcessing] r
              && match c_started_at r with
                 | Some s => String.ltb s (cut (TaskCleanupCron.TimeoutSeconds c * 1000)) | None => false end
           then swept now "CX_ERR_TASK_TIMEOUT" "Task exceeded processing timeout." r else r in
  if status_in [kCompleted; kFailed; kCancelled] r
     && String.ltb (c_updated_at r) (cut (TaskCleanupCron.RetentionDays c * 86400000))
  then None else Some r.

Lemma sweep_result_find what p : (sweep_result what p).2 = p.2.
Proof. by destruct p as [[] ?]. Qed.

Lemma RunCleanupNow_row c now m id : quiet m -> wf m ->
  find_row id (tasks (TaskCleanupCron.RunCleanupNow c now m).2) = find_row id (tasks m) ≫= clean_row c now.
Proof.
  intros Hq [Hk _]. unfold TaskCleanupCron.RunCleanupNow, SweepZombies, SweepTimedOut, DeleteExpired.
  rewrite !UnixToIso8601_ms, !Z.mul_sub_distr_r, <-!Z.mul_assoc.
  change (3600 * 1000) with 3600000. change (86400 * 1000) with 86400000.
  repeat match goal with |- context [sweep_result ?what (update ?w ?set ?m)] =>
    let Q := fresh "Q" in let K := fresh "K" in let F := fresh "F" in
    pose proof (quiet_update_find w set m ltac:(assumption) ltac:(done)) as (Q & K & F);
    rewrite <-(sweep_result_find what) in Q, K, F; destruct (sweep_result what (update w set m)); cbn [snd] in *
  end.
  match goal with |- context [sweep_result ?what (delete_where ?w ?m)] =>
    pose proof (quiet_delete_find w m ltac:(assumption) ltac:(congruence) id) as F3;
    rewrite <-(sweep_result_find what) in F3; destruct (sweep_result what (delete_where w m)); cbn [snd] in * end.
  rewrite F3, F0, F. by destruct (find_row id (tasks m)).
Qed.

Lemma clean_row_fate c now r u v : cutoffs_ok c now ->
  c_updated_at r = NowIso8601 u -> c_started_at r = NowIso8601 <$> v ->
  in_range u -> (forall x, v = Some x -> in_range x) ->
  clean_row c now r = match fate_of c now (c_status r) u v with
    | Kept => Some r
    | Zombie => Some (swept now "CX_ERR_ZOMBIE_TASK_CLEANUP" "Worker presumed crashed." r)
    | TimedOut => Some (swept now "CX_ERR_TASK_TIMEOUT" "Task exceeded processing timeout." r)
    | Expired => None
    end.
Proof.
  intros (Hn & Hd & Cz & Ct & Cd) Hu Hv Ru Rv. unfold clean_row.
  assert (terminal kProcessing = false /\ terminal kFailed = true) as [Tp Tf] by done.
  assert (forall code msg, (status_in [kProcessing] (swept now code msg r) = false)
    /\ status_in [kCompleted; kFailed; kCancelled] (swept now code msg r)
       && String.ltb (c_updated_at (swept now code msg r))
            (NowIso8601 (now / 1000 * 1000 - TaskCleanupCron.RetentionDays c * 86400000)) = false) as Hsw.
  { intros code msg. split; [done|]. apply andb_false_iff. right. cbn [swept set_field c_updated_at].
    rewrite ltb_iso by done. apply Z.ltb_ge. pose proof (Z.mul_div_le now 1000 ltac:(lia)). lia. }
  rewrite Hu, ltb_iso by done. unfold fate_of. rewrite (status_in_one kProcessing r).
  case_bool_decide as Hs; cbn [andb].
  - destruct (u <? _); cbn [andb].
    + destruct (Hsw "CX_ERR_ZOMBIE_TASK_CLEANUP" "Worker presumed crashed.")%string as [-> H2].
      cbn [andb]. by rewrite H2.
    + rewrite (status_in_one kProcessing r), (bool_decide_true _ Hs). cbn [andb]. rewrite Hv.
      assert (match NowIso8601 <$> v with
        | Some s => String.ltb s (NowIso8601 (now / 1000 * 1000 - TaskCleanupCron.TimeoutSeconds c * 1000))
        | None => false end
        = default false ((fun v => v <? now / 1000 * 1000 - TaskCleanupCron.TimeoutSeconds c * 1000) <$> v)) as ->.
      { destruct v as [x|]; [|done]. simpl. by apply ltb_iso; [apply Rv|]. }
      destruct (default _ _).
      * destruct (Hsw "CX_ERR_TASK_TIMEOUT" "Task exceeded processing timeout.")%string as [_ H2]. by rewrite H2.
      * change (status_in [kCompleted; kFailed; kCancelled] r) with (terminal (c_status r)). by rewrite Hs, Tp.
  - rewrite (status_in_one kProcessing r), (bool_decide_false _ Hs). cbn [andb].
    change (status_in [kCompleted; kFailed; kCancelled] r) with (terminal (c_status r)).
    rewrite Hu, ltb_iso by done. by destruct (_ && _).
Qed.

(** One run of the cleanup does to each task what its age calls for.  With
    times between the years 1 and 9999 and no failure of SQLite, a task being
    processed is failed as a zombie when it has not been updated for the zombie
    threshold, and otherwise as timed out when it was started longer ago than the
    timeout; a terminal task is deleted when it has not been updated for the
    retention time; every other task, and every task not that old, is untouched.
    In particular a task that this run fails is not deleted by it. *)
Theorem RunCleanupNow_fates (c : TaskCleanupCron.Config) (now : Z) (m : TaskManager) (id : string) (r : Row)
  (u : Z) (v : option Z) :
  quiet m -> wf m -> cutoffs_ok c now ->
  find_row id (tasks m) = Some r -> c_updated_at r = NowIso8601 u -> c_started_at r = NowIso8601 <$> v ->
  in_range u -> (forall x, v = Some x -> in_range x) ->
  find_row id (tasks (TaskCleanupCron.RunCleanupNow c now m).2) =
    match fate_of c now (c_status r) u v with
    | Kept => Some r
    | Zombie => Some (swept now "CX_ERR_ZOMBIE_TASK_CLEANUP" "Worker presumed crashed." r)
    | TimedOut => Some (swept now "CX_ERR_TASK_TIMEOUT" "Task exceeded processing timeout." r)
    | Expired => None
    end.
Proof.
  intros Hq Hwf Hc Hr Hu Hv Ru Rv. rewrite RunCleanupNow_row, Hr by done. by apply clean_row_fate.
Qed.

(** The worker [a] is long silent and [b] has run for an hour; [c] finished two
    months ago. *)
Definition stale_table : TaskManager :=
  MkTaskManager
    [sample_row "a" "doc" "d/x" kProcessing <| c_updated_at := NowIso8601 1780000000000 |>
       <| c_started_at := Some (NowIso8601 1780000000000) |>;
     sample_row "b" "other" "d/y" kProcessing <| c_updated_at := NowIso8601 1780221500000 |>
       <| c_started_at := Some (NowIso8601 1780217900000) |>;
     sample_row "c" "doc" "d/z" kCompleted <| c_updated_at := NowIso8601 1775000000000 |>] [] Ulid.initial.

Lemma stale_table_wf : wf stale_table.
Proof. split; apply (bool_decide_unpack _); vm_compute; exact I. Qed.

Lemma RunCleanupNow_fates_witness :
  let m' := (TaskCleanupCron.RunCleanupNow (TaskCleanupCron.MkConfig None None None) 1780221600000 stale_table).2 in
  status_of "b" m' = Some kFailed /\ find_row "c" (tasks m') = None.
Proof.
  cbv zeta.
  assert (cutoffs_ok (TaskCleanupCron.MkConfig None None None) 1780221600000) as Hc
    by (unfold cutoffs_ok, in_range; split_and!; vm_compute; congruence).
  split; [unfold status_of|].
  - rewrite (RunCleanupNow_fates (TaskCleanupCron.MkConfig None None None) 1780221600000 stale_table "b"
      (default (sample_row "" "" "" "") (find_row "b" (tasks stale_table))) 1780221500000 (Some 1780217900000)
      eq_refl stale_table_wf Hc); [reflexivity..|done|]. by intros x [= <-].
  - rewrite (RunCleanupNow_fates (TaskCleanupCron.MkConfig None None None) 1780221600000 stale_table "c"
      (default (sample_row "" "" "" "") (find_row "c" (tasks stale_table))) 1775000000000 None
      eq_refl stale_table_wf Hc); [reflexivity..|done|]. by intros x [=].
Defined.

(** The cron sleeps until the next two o'clock, never more than a day. *)
Theorem NextRunDelay_next (now : Z) : 0 <= now ->
  let d := TaskCleanupCron.NextRunDelayMs now in
  0 < d <= TaskCleanupCron.kDayMs /\ (now + d) mod TaskCleanupCron.kDayMs = TaskCleanupCron.kTargetMs.
Proof.
  intros Hn d. subst d. unfold TaskCleanupCron.NextRunDelayMs.
  set (D := TaskCleanupCron.kDayMs). assert (D = 86400000) as HD by done.
  set (T := TaskCleanupCron.kTargetMs). assert (T = 7200000) as HT by done. clearbody D T.
  assert (Z.rem (Z.rem now D + D) D = now mod D) as ->.
  { rewrite (Z.rem_mod_nonneg now D) by lia. pose proof (Z.mod_pos_bound now D).
    rewrite Z.rem_mod_nonneg by lia.
    replace (now mod D + D) with (now mod D + 1 * D) by lia.
    rewrite Z.mod_add by lia. by apply Z.mod_mod; lia. }
  pose proof (Z.mod_pos_bound now D ltac:(lia)). pose proof (Z.div_mod now D ltac:(lia)) as E.
  destruct (Z.leb_spec (T - now mod D) 0).
  - split; [lia|]. symmetry. apply (Z.mod_unique _ _ (now / D + 1)); lia.
  - split; [lia|]. symmetry. apply (Z.mod_unique _ _ (now / D)); lia.
Qed.

(** ** Witness of the submissions *)

(** A second submission of the same content, while another thread starts the
    task, and one of other content. *)
Lemma Enqueue_outcomes_witness :
  let req := submission "d/x" "" in
  let m := MkTaskManager [sample_row "a" "doc" "d/x" kQueued] [] Ulid.initial in
  let others (k : nat) (m : TaskManager) :=
    match k with 1%nat => (MarkProcessing 1780221600500 "a" 7 m).2 | _ => m end in
  let '(r, m', fs') := Enqueue no_draws others at_noon scheduler req m {["d/x"]}%string in
  exists t, r = Value (t, kMerged) /\ fs' = {["d/x"]}%string.
Proof.
  cbv zeta. destruct (Enqueue _ _ _ _ _ _ _) as [[r m'] fs'] eqn:E.
  destruct r as [[t []]|]; [vm_compute in E; discriminate E| |vm_compute in E; discriminate E..].
  exists t. split; [done|].
  assert (t = t /\ filepath t = "d/x"%string) as [_ Hp].
  { split; [done|]. apply (f_equal (fun x => match x.1.1 with Value (t, _) => filepath t | _ => ""%string end)) in E.
    vm_compute in E. symmetry. exact E. }
  apply (Enqueue_outcomes no_draws _ at_noon scheduler (submission "d/x" "") _ m' {["d/x"]}%string fs' t kMerged)
    in E as [_ E].
  - apply E. by rewrite Hp.
  - split; apply (bool_decide_unpack _); vm_compute; exact I.
  - intros [|[|k]] x Hx; [done| |done].
    apply (proj1 (run_op_step no_draws (OpMarkProcessing 1780221600500 "a" 7) x) Hx).
Defined.
