(* ===== verification/CppStd.v ===== *)
(** * Pieces of the C++ library that several components share

    [std::sort], IEEE doubles, exceptions, and JSON values as [nlohmann::json]
    hands them out.  What the code relies on and cannot be computed here is a
    class. *)
From Stdlib Require Import Floats.SpecFloat.
From stdpp Require Import sorting.
From S2P Require Import Prelude.

(** ** [std::sort] *)

(** The comparison must be a strict weak order, and then the result is some
    sorted rearrangement. *)
Record strict_weak {A} (lt : A -> A -> bool) : Prop := {
  sw_asym x y : lt x y = true -> lt y x = false;
  sw_trans x y z : lt x y = false -> lt y z = false -> lt x z = false
}.

Class StdSort := {
  std_sort {A} : (A -> A -> bool) -> list A -> list A;
  std_sort_perm {A} (lt : A -> A -> bool) l : std_sort lt l ≡ₚ l;
  std_sort_sorted {A} (lt : A -> A -> bool) l :
    strict_weak lt -> StronglySorted (fun x y => lt y x = false) (std_sort lt l)
}.

(** Not smaller the other way round: the order of the sorted list. *)
Definition not_after {A} (lt : A -> A -> bool) (x y : A) : Prop := lt y x = false.
#[export] Instance not_after_dec {A} (lt : A -> A -> bool) x y : Decision (not_after lt x y).
Proof. unfold not_after. apply _. Defined.

(** A sort that keeps the order of equivalent elements. *)
Definition stable_sort {A} (lt : A -> A -> bool) (l : list A) : list A :=
  merge_sort (not_after lt) l.

Lemma stable_sort_perm {A} (lt : A -> A -> bool) l : stable_sort lt l ≡ₚ l.
Proof. apply merge_sort_Permutation. Qed.

Lemma stable_sort_sorted {A} (lt : A -> A -> bool) l : strict_weak lt ->
  StronglySorted (fun x y => lt y x = false) (stable_sort lt l).
Proof.
  intros [Ha Ht]. apply StronglySorted_merge_sort.
  - intros x y z H1 H2. by eapply Ht.
  - intros x y. destruct (lt y x) eqn:E; [right; by apply Ha|by left].
Qed.

Definition stable_StdSort : StdSort := {|
  std_sort A := stable_sort;
  std_sort_perm A := stable_sort_perm;
  std_sort_sorted A := stable_sort_sorted
|}.

(** ** Doubles *)

Abbreviation double := spec_float.
Definition d_of_Z (z : Z) : double := binary_normalize 53 1024 z 0 false.
Definition dadd : double -> double -> double := SFadd 53 1024.
Definition dsub : double -> double -> double := SFsub 53 1024.
Definition dmul : double -> double -> double := SFmul 53 1024.
Definition ddiv : double -> double -> double := SFdiv 53 1024.
Definition dltb : double -> double -> bool := SFltb.
Definition dleb : double -> double -> bool := SFleb.
(** The literal [n/d]. *)
Definition dlit (n d : Z) : double := ddiv (d_of_Z n) (d_of_Z d).

(** A float, in its own precision, and its exact value as a double. *)
Abbreviation float32 := spec_float.
Definition flit (n d : Z) : float32 :=
  SFdiv 24 128 (binary_normalize 24 128 n 0 false) (binary_normalize 24 128 d 0 false).
Definition d_of_float (f : float32) : double :=
  match f with
  | S754_finite s m e => binary_normalize 53 1024 (cond_Zopp s (Z.pos m)) e s
  | _ => f
  end.

(** ** State and exceptions *)

(** A program that may change a state and may throw; the state survives the throw. *)
Inductive outcome (E A : Type) := Done (a : A) | Raised (e : E).
Arguments Done {E A} a.
Arguments Raised {E A} e.

Definition M (S E A : Type) := S -> outcome E A * S.

Section Monad.
Context {S E : Type}.
Definition mret {A} (a : A) : M S E A := fun s => (Done a, s).
Definition mraise {A} (e : E) : M S E A := fun s => (Raised e, s).
Definition mbind {A B} (m : M S E A) (f : A -> M S E B) : M S E B := fun s =>
  match m s with
  | (Done a, s) => f a s
  | (Raised e, s) => (Raised e, s)
  end.
(** [try { m } catch]: the handler says for which exceptions it is there. *)
Definition mtry {A} (m : M S E A) (handle : E -> option (M S E A)) : M S E A := fun s =>
  match m s with
  | (Raised e, s) => match handle e with Some h => h s | None => (Raised e, s) end
  | r => r
  end.
Fixpoint mfor {X} (l : list X) (body : X -> M S E unit) : M S E unit :=
  match l with
  | [] => mret tt
  | x :: l => mbind (body x) (fun _ => mfor l body)
  end.

(** What a program does from states with [P]: the values it returns and the
    exceptions it throws, with the states it leaves. *)
Definition spec {A} (P : S -> Prop) (m : M S E A) (Q : A -> S -> Prop) (R : E -> S -> Prop) : Prop :=
  forall s, P s -> match m s with (Done a, s) => Q a s | (Raised e, s) => R e s end.

Lemma spec_ret {A} (a : A) (P : S -> Prop) Q R : (forall s, P s -> Q a s) -> spec P (mret a) Q R.
Proof. intros H s Hs. by apply H. Qed.
Lemma spec_raise {A} e (P : S -> Prop) (Q : A -> S -> Prop) R : (forall s, P s -> R e s) -> spec P (mraise e) Q R.
Proof. intros H s Hs. by apply H. Qed.
Lemma spec_bind {A B} P (m : M S E A) (f : A -> M S E B) Q1 Q R :
  spec P m Q1 R -> (forall a, spec (Q1 a) (f a) Q R) -> spec P (mbind m f) Q R.
Proof.
  intros Hm Hf s Hs. specialize (Hm s Hs). unfold mbind. destruct (m s) as [[a|e] s1]; [|done].
  by apply Hf.
Qed.
Lemma spec_weaken {A} (P P' : S -> Prop) (m : M S E A) (Q Q' : A -> S -> Prop) (R R' : E -> S -> Prop) :
  spec P m Q R -> (forall s, P' s -> P s) -> (forall a s, Q a s -> Q' a s) -> (forall e s, R e s -> R' e s) ->
  spec P' m Q' R'.
Proof. intros H H1 H2 H3 s Hs. specialize (H s (H1 s Hs)). destruct (m s) as [[] ?]; auto. Qed.
Lemma spec_try {A} P (m : M S E A) handle Q R1 R :
  spec P m Q R1 ->
  (forall e, match handle e with Some h => spec (R1 e) h Q R | None => forall s, R1 e s -> R e s end) ->
  spec P (mtry m handle) Q R.
Proof.
  intros Hm Hh s Hs. specialize (Hm s Hs). unfold mtry. destruct (m s) as [[a|e] s1]; [done|].
  specialize (Hh e). destruct (handle e) as [h|]; [by apply Hh|auto].
Qed.
Lemma spec_for {X} (I : S -> Prop) (l : list X) body R :
  (forall x, x ∈ l -> spec I (body x) (fun _ => I) R) -> spec I (mfor l body) (fun _ => I) R.
Proof.
  induction l as [|x l IH]; intros Hb; [by apply spec_ret|]. simpl.
  eapply spec_bind; [apply Hb; left|]. intros a. apply IH. intros y Hy. apply Hb. by right.
Qed.
End Monad.

Declare Scope m_scope.
Delimit Scope m_scope with m.
Notation "x <- e ;; f" := (mbind e (fun x => f)) (at level 100, e at next level, right associativity) : m_scope.
Notation "e ;; f" := (mbind e (fun _ => f)) (at level 100, right associativity) : m_scope.

(** ** JSON values *)

Inductive json :=
| JNull
| JBool (b : bool)
| JInt (z : Z)
| JFloat (f : double)
| JString (s : string)
| JArray (l : list json)
| JObject (o : list (string * json)).

(** What is left to the library: the parser ([None] is a discarded value) and the
    conversion of floating-point numbers. *)
Class Nlohmann := {
  json_parse : string -> option json;
  json_dump : json -> string;
  double_to_int : double -> Z;
  double_to_float : double -> float32
}.

Definition is_object (j : json) : bool := match j with JObject _ => true | _ => false end.

(** A member of an object; the last one of a name counts. *)
Fixpoint member (key : string) (o : list (string * json)) : option json :=
  match o with
  | [] => None
  | (k, v) :: o => match member key o with
                   | Some v' => Some v'
                   | None => if bool_decide (k = key) then Some v else None
                   end
  end.
Definition json_contains (j : json) (key : string) : bool :=
  match j with JObject o => bool_decide (is_Some (member key o)) | _ => false end.

(** [get<T>]; [None] is a thrown [type_error]. *)
Section Get.
Context `{Nlohmann}.
Definition get_string (j : json) : option string := match j with JString s => Some s | _ => None end.
Definition get_bool (j : json) : option bool := match j with JBool b => Some b | _ => None end.
Definition get_int (j : json) : option Z :=
  match j with
  | JInt z => Some (i32 z)
  | JBool b => Some (if b then 1 else 0)
  | JFloat f => Some (double_to_int f)
  | _ => None
  end.
Definition get_int64 (j : json) : option Z :=
  match j with
  | JInt z => Some (i64 z)
  | JFloat f => Some (double_to_int f)
  | _ => None
  end.
Definition get_float (j : json) : option float32 :=
  match j with
  | JInt z => Some (binary_normalize 24 128 z 0 false)
  | JBool b => Some (binary_normalize 24 128 (if b then 1 else 0) 0 false)
  | JFloat f => Some (double_to_float f)
  | _ => None
  end.
Definition get_json (j : json) : option json := Some j.

(** [j.value(key, def)]: throws when [j] is no object or the member has another
    type. *)
Definition json_value {T} (get : json -> option T) (j : json) (key : string) (def : T) : option T :=
  match j with
  | JObject o => match member key o with Some v => get v | None => Some def end
  | _ => None
  end.
End Get.
