(* ===== verification/DocumentParser.v ===== *)
(** * Document parsers (src/spc/parser*.cpp, docling_parser.cpp, paddleocr_parser.cpp)

    The error registry, the JSON protocol of the bridge subprocess, the two
    parsers around it and the factory that selects and falls back.  The
    subprocess itself and [stat] are arguments.  A parser calls back for each
    page; the callback may change the caller's state and may throw. *)
From Stdlib Require Import Ascii String Floats.SpecFloat.
From stdpp Require Import pretty.
From S2P Require Import Prelude Status F42Error CppStd.

Module Parser.

(** ** The error registry (parser_errors.cpp) *)

Inductive ParserErrorCode :=
| kOk
| kFileNotFound
| kFileTooLarge
| kUnsupportedFormat
| kParseTimeout
| kSubprocessFailed
| kSubprocessCrashed
| kInvalidOutput
| kOutputTooLarge
| kEmptyDocument
| kEncodingError
| kOcrFailed
| kAllParsersFailed
| kPasswordProtected
| kCorruptedFile
| kMaxPagesExceeded.

#[export] Instance ParserErrorCode_eq_dec : EqDecision ParserErrorCode.
Proof. solve_decision. Defined.

(** The enumeration by value. *)
Definition code_of_Z (n : Z) : ParserErrorCode :=
  match n with
  | 0 => kOk | 1 => kFileNotFound | 2 => kFileTooLarge | 3 => kUnsupportedFormat
  | 4 => kParseTimeout | 5 => kSubprocessFailed | 6 => kSubprocessCrashed | 7 => kInvalidOutput
  | 8 => kOutputTooLarge | 9 => kEmptyDocument | 10 => kEncodingError | 11 => kOcrFailed
  | 12 => kAllParsersFailed | 13 => kPasswordProtected | 14 => kCorruptedFile
  | _ => kMaxPagesExceeded
  end.

Record ParserErrorInfo := MkParserErrorInfo {
  cx_code : string;
  category : ErrorCategory;
  retryable : bool;
  retry_after_ms : option Z
}.

Definition IsParserOk (code : ParserErrorCode) : bool :=
  bool_decide (code = kOk) || bool_decide (code = kEmptyDocument).

Definition GetParserErrorInfo (code : ParserErrorCode) : ParserErrorInfo :=
  match code with
  | kOk => MkParserErrorInfo "CX_ERR_OK" kPermanent false None
  | kFileNotFound => MkParserErrorInfo "CX_ERR_FILE_NOT_FOUND" kPermanent false None
  | kFileTooLarge => MkParserErrorInfo "CX_ERR_FILE_TOO_LARGE" kQuota false None
  | kUnsupportedFormat => MkParserErrorInfo "CX_ERR_UNSUPPORTED_FORMAT" kPermanent false None
  | kParseTimeout => MkParserErrorInfo "CX_ERR_PARSE_TIMEOUT" kTimeout true (Some 1000)
  | kSubprocessFailed => MkParserErrorInfo "CX_ERR_SUBPROCESS_FAILED" kPermanent false None
  | kSubprocessCrashed => MkParserErrorInfo "CX_ERR_SUBPROCESS_CRASHED" kTransient true (Some 500)
  | kInvalidOutput => MkParserErrorInfo "CX_ERR_INVALID_OUTPUT" kTransient true (Some 500)
  | kOutputTooLarge => MkParserErrorInfo "CX_ERR_OUTPUT_TOO_LARGE" kQuota false None
  | kEmptyDocument => MkParserErrorInfo "CX_ERR_EMPTY_DOCUMENT" kPermanent false None
  | kEncodingError => MkParserErrorInfo "CX_ERR_ENCODING_ERROR" kPermanent false None
  | kOcrFailed => MkParserErrorInfo "CX_ERR_OCR_FAILED" kTransient true (Some 1000)
  | kAllParsersFailed => MkParserErrorInfo "CX_ERR_ALL_PARSERS_FAILED" kPermanent false None
  | kPasswordProtected => MkParserErrorInfo "CX_ERR_PASSWORD_PROTECTED" kPermanent false None
  | kCorruptedFile => MkParserErrorInfo "CX_ERR_CORRUPTED_FILE" kPermanent false None
  | kMaxPagesExceeded => MkParserErrorInfo "CX_ERR_MAX_PAGES_EXCEEDED" kQuota false None
  end%string.

Definition ParserErrorCodeString (code : ParserErrorCode) : string := cx_code (GetParserErrorInfo code).

Definition RequiredParserStructuredDataKeys (code : ParserErrorCode) : list string :=
  match code with
  | kOk | kEmptyDocument => []
  | kFileNotFound => ["code"; "filepath"]
  | kFileTooLarge => ["code"; "actual_size_mb"; "limit_mb"; "tier"]
  | kUnsupportedFormat => ["code"; "extension"; "supported_formats"]
  | kParseTimeout => ["code"; "timeout_ms"; "pages_completed_before_timeout"]
  | kSubprocessFailed => ["code"; "hint"]
  | kSubprocessCrashed => ["code"; "exit_code"; "stderr_tail"]
  | kInvalidOutput => ["code"; "parse_error_pos"]
  | kOutputTooLarge => ["code"; "actual_bytes"; "limit_bytes"]
  | kEncodingError => ["code"; "detected_encoding"]
  | kOcrFailed => ["code"; "failed_pages"]
  | kAllParsersFailed => ["code"; "attempted"]
  | kPasswordProtected => ["code"; "hint"]
  | kCorruptedFile => ["code"; "magic_bytes_expected"; "magic_bytes_actual"]
  | kMaxPagesExceeded => ["code"; "actual_pages"; "max_pages"; "tier"]
  end%string.

Definition HasRequiredParserStructuredData (code : ParserErrorCode) (structured_data : json) : bool :=
  is_object structured_data
  && forallb (json_contains structured_data) (RequiredParserStructuredDataKeys code).

(** [structured_data["code"] = ...] unless it is there. *)
Definition with_code (code : ParserErrorCode) (structured_data : json) : json :=
  match structured_data with
  | JObject o =>
      if json_contains structured_data "code" then structured_data
      else JObject (o ++ [("code"%string, JString (ParserErrorCodeString code))])
  | j => j
  end.

Definition MakeParserError (code : ParserErrorCode) (structured_data : json) (message : string)
    : AgentFriendlyError json :=
  let info := GetParserErrorInfo code in
  MkAgentFriendlyError (cx_code info)
    (if bool_decide (message = ""%string) then cx_code info else message)
    (retryable info) (category info) (retry_after_ms info) (Some (with_code code structured_data)).

Definition ParserErrorToStatusCode (code : ParserErrorCode) : StatusCode :=
  match code with
  | kOk | kEmptyDocument => Status.kOk
  | kFileNotFound => kNotFound
  | kUnsupportedFormat | kFileTooLarge | kOutputTooLarge | kMaxPagesExceeded | kEncodingError
  | kPasswordProtected | kCorruptedFile => kInvalidArgument
  | kParseTimeout | kSubprocessCrashed | kOcrFailed => kUnavailable
  | kSubprocessFailed | kInvalidOutput | kAllParsersFailed => kInternal
  end.

Definition ParserStatus (code : ParserErrorCode) (detail : string) : Status :=
  if IsParserOk code then Status_Ok else
  let cx := ParserErrorCodeString code in
  MkStatus (ParserErrorToStatusCode code)
    (if bool_decide (detail = ""%string) then cx else cx +:+ ": " +:+ detail)%string.

(** ** Parsed documents (parser.h) *)

Inductive ChunkType := TEXT | TABLE | IMAGE_CAPTION | CODE | META.

Definition ChunkType_ToString (type : ChunkType) : string :=
  match type with
  | TEXT => "TEXT" | TABLE => "TABLE" | IMAGE_CAPTION => "IMAGE_CAPTION" | CODE => "CODE" | META => "META"
  end.
Definition ChunkTypeFromString (s : string) : ChunkType :=
  if bool_decide (s = "TABLE") then TABLE
  else if bool_decide (s = "IMAGE_CAPTION") then IMAGE_CAPTION
  else if bool_decide (s = "CODE") then CODE
  else if bool_decide (s = "META") then META
  else TEXT.

Record ParsedChunk := MkParsedChunk {
  pc_text : string; pc_page : Z; pc_section : string; pc_type : ChunkType; pc_confidence : float32;
  pc_language : string; pc_char_offset : Z; pc_char_length : Z
}.
Record PageMetadata := MkPageMetadata {
  pm_page_num : Z; pm_parser_used : string; page_confidence : float32; is_scan_page : bool; char_count : Z
}.
Record ParsedPage := MkParsedPage {
  page_num : Z; page_text : string; paragraphs : list ParsedChunk; page_metadata : PageMetadata
}.
Record DocumentMetadata := MkDocumentMetadata {
  dm_filename : string; doc_title : string; mime_type : string; file_size_bytes : Z; page_count : Z;
  doc_language : string; upload_timestamp : Z; parse_time_ms : Z
}.
Definition no_metadata : DocumentMetadata := MkDocumentMetadata "" "" "" 0 (-1) "" 0 0.

Record ParsedDoc := MkParsedDoc {
  pd_status : ParserErrorCode;
  pages : list ParsedPage;
  metadata : DocumentMetadata;
  parser_name : string;
  failed_pages : list Z;
  error_msg : string;
  pd_retryable : bool;
  pd_category : ErrorCategory;
  pd_retry_after_ms : Z;
  structured_data : json
}.
Definition doc_ok (doc : ParsedDoc) : bool := IsParserOk (pd_status doc).

#[export] Instance ParsedDoc_eta : Eta ParsedDoc := fun d =>
  MkParsedDoc (pd_status d) (pages d) (metadata d) (parser_name d) (failed_pages d) (error_msg d)
    (pd_retryable d) (pd_category d) (pd_retry_after_ms d) (structured_data d).

(** Rebuilds the boundary error of a failed document. *)
Definition MakeAgentFriendlyError (doc : ParsedDoc) : AgentFriendlyError json :=
  MakeParserError (pd_status doc)
    (if is_object (structured_data doc) then structured_data doc else JObject []) (error_msg doc).

Definition MakeErrorDoc (code : ParserErrorCode) (message : string) (sd : json) (name : string) : ParsedDoc :=
  let info := GetParserErrorInfo code in
  MkParsedDoc code [] no_metadata name [] message (retryable info) (category info)
    (default 0 (retry_after_ms info)) (with_code code sd).

(** ** The bridge's JSON (parser.cpp) *)

Definition StatusToCode (status : Z) : ParserErrorCode :=
  if (status <? 0) || (status >? 15) then kInvalidOutput else code_of_Z status.

(** Index of the last character with [p]. *)
Fixpoint find_last (p : ascii -> bool) (s : string) : option nat :=
  match s with
  | EmptyString => None
  | String c rest =>
      match find_last p rest with
      | Some i => Some (S i)
      | None => if p c then Some O else None
      end
  end.
Fixpoint drop_string (n : nat) (s : string) : string :=
  match n, s with
  | O, _ => s
  | S n, EmptyString => EmptyString
  | S n, String _ s => drop_string n s
  end.
Definition is_slash (c : ascii) : bool := bool_decide (c = "/"%char) || bool_decide (c = "\"%char).
Definition basename (path : string) : string :=
  match find_last is_slash path with None => path | Some i => drop_string (S i) path end.

Section Bridge.
Context `{Nlohmann}.

Definition ParseChunk (j : json) : option ParsedChunk :=
  text ← json_value get_string j "text" "";
  page ← json_value get_int j "page" (-1);
  section ← json_value get_string j "section" "";
  type ← json_value get_string j "type" "TEXT";
  confidence ← json_value get_float j "confidence" (S754_zero false);
  language ← json_value get_string j "language" "";
  char_offset ← json_value get_int j "char_offset" (-1);
  char_length ← json_value get_int j "char_length" (-1);
  Some (MkParsedChunk text page section (ChunkTypeFromString type) confidence language char_offset char_length).

Definition ParsePageMeta (j : json) (page_num : Z) : option PageMetadata :=
  n ← json_value get_int j "page_num" page_num;
  parser_used ← json_value get_string j "parser_used" "";
  confidence ← json_value get_float j "page_confidence" (S754_zero false);
  scan ← json_value get_bool j "is_scan_page" false;
  count ← json_value get_int j "char_count" 0;
  Some (MkPageMetadata n parser_used confidence scan count).

Definition ParseDocMeta (j : json) (filepath : string) : option DocumentMetadata :=
  filename ← json_value get_string j "filename" "";
  title ← json_value get_string j "doc_title" "";
  mime ← json_value get_string j "mime_type" "";
  size ← json_value get_int64 j "file_size_bytes" 0;
  count ← json_value get_int j "page_count" (-1);
  language ← json_value get_string j "doc_language" "";
  upload ← json_value get_int64 j "upload_timestamp" 0;
  time ← json_value get_int64 j "parse_time_ms" 0;
  Some (MkDocumentMetadata (if bool_decide (filename = ""%string) then basename filepath else filename)
          title mime size count language upload time).

(** The elements of an array member; none when it is missing or no array. *)
Definition array_member (j : json) (key : string) : list json :=
  match j with
  | JObject o => match member key o with Some (JArray l) => l | _ => [] end
  | _ => []
  end.

Definition ParsePage (pj : json) : option ParsedPage :=
  n ← json_value get_int pj "page_num" 0;
  text ← json_value get_string pj "page_text" "";
  mj ← json_value get_json pj "page_metadata" (JObject []);
  meta ← ParsePageMeta mj n;
  chunks ← mapM ParseChunk (array_member pj "paragraphs");
  Some (MkParsedPage n text chunks meta).

(** [None] is an exception of the JSON library. *)
Definition ParseBridgeJson (json_str filepath name : string) : option ParsedDoc :=
  match json_parse json_str with
  | Some (JObject _ as j) =>
      status ← json_value get_int j "status" 0;
      let code := StatusToCode status in
      if negb (IsParserOk code) then
        sd ← json_value get_json j "structured_data" (JObject []);
        msg ← json_value get_string j "error_msg" "";
        parser ← json_value get_string j "parser" name;
        Some (MakeErrorDoc code msg (if is_object sd then sd else JObject []) parser)
      else
        parser ← json_value get_string j "parser" name;
        mj ← json_value get_json j "metadata" (JObject []);
        meta ← ParseDocMeta mj filepath;
        ps ← mapM ParsePage (array_member j "pages");
        Some (MkParsedDoc code ps meta parser
                (omap (fun fp => match fp with JInt z => Some (i32 z) | _ => None end)
                   (array_member j "failed_pages"))
                "" false kPermanent 0 JNull)
  | _ =>
      Some (MakeErrorDoc kInvalidOutput "Bridge output is not valid JSON object"
              (JObject [("parse_error_pos"%string, JInt (-1))]) name)
  end.

End Bridge.

(** ** Parsers *)

(** What a run can throw: the cancellation of a task, or an error of the JSON
    library. *)
Inductive exn :=
| CancellationException (task_id : string)
| type_error.

Record ParserOptions (S : Type) := MkParserOptions {
  enable_ocr_fallback : bool;
  max_pages : Z;
  max_file_size_mb : Z;
  language_hint : string;
  subprocess_timeout_ms : Z;
  on_page_progress : option (Z -> Z -> bool -> M S exn unit)
}.
Arguments enable_ocr_fallback {S}. Arguments max_pages {S}. Arguments max_file_size_mb {S}.
Arguments language_hint {S}. Arguments subprocess_timeout_ms {S}. Arguments on_page_progress {S}.
Arguments MkParserOptions {S}.

(** The defaults of the structure, with a callback. *)
Definition default_options {S} (max_pages : Z) (cb : option (Z -> Z -> bool -> M S exn unit)) : ParserOptions S :=
  MkParserOptions true max_pages 200 "" 300000 cb.

Record IDocumentParser (S : Type) := MkParser {
  Name : string;
  Parse : string -> ParserOptions S -> M S exn ParsedDoc
}.
Arguments Name {S}. Arguments Parse {S}. Arguments MkParser {S}.

(** [IsFormatSupported]. *)
Definition lower (c : ascii) : ascii :=
  let n := nat_of_ascii c in if (65 <=? n)%nat && (n <=? 90)%nat then ascii_of_nat (n + 32) else c.
Fixpoint ToLower (s : string) : string :=
  match s with EmptyString => EmptyString | String c s => String (lower c) (ToLower s) end.
Definition IsFormatSupported (formats : list string) (extension : string) : bool :=
  let ext := match extension with String "."%char rest => rest | _ => extension end in
  bool_decide (ToLower ext ∈ formats).

Section Progress.
Context `{StdSort} {S : Type}.

Definition page_events (doc : ParsedDoc) : list (Z * bool) :=
  ((fun p => (page_num p, true)) <$> pages doc) ++ ((fun fp => (fp, false)) <$> failed_pages doc).
Definition event_before (a b : Z * bool) : bool := a.1 <? b.1.

Definition DrivePageProgress (doc : ParsedDoc) (opts : ParserOptions S) : M S exn unit :=
  match on_page_progress opts with
  | None => mret tt
  | Some cb =>
      if negb (doc_ok doc) then mret tt else
      let events := std_sort event_before (page_events doc) in
      mfor events (fun e => cb e.1 (len events) e.2)
  end.
End Progress.

(** ** The two parsers *)

Record SubprocessResult := MkSubprocessResult {
  launched : bool; timed_out : bool; output_truncated : bool; exit_code : Z;
  stdout_data : string; stderr_data : string
}.

Definition Tail (s : string) (n : nat) : string :=
  if (String.length s <=? n)%nat then s else drop_string (String.length s - n) s.

Record DoclingConfig := MkDoclingConfig {
  dl_python_path : string; dl_script_path : string; dl_timeout_ms : Z; dl_max_output : Z
}.
Record PaddleOCRConfig := MkPaddleOCRConfig {
  po_python_path : string; po_script_path : string; po_timeout_ms : Z; po_max_output : Z;
  use_gpu : bool; lang : string
}.

Section Parsers.
Context `{Nlohmann, StdSort} {S : Type}.

(** [RunParserSubprocess]. *)
Context (run : list string -> Z -> Z -> SubprocessResult).

Definition DoclingArgv (c : DoclingConfig) (filepath : string) (opts : ParserOptions S) : list string :=
  [dl_python_path c; dl_script_path c; "--filepath"; filepath;
   "--timeout"; pretty (Z.quot (subprocess_timeout_ms opts) 1000);
   "--max-pages"; pretty (max_pages opts);
   "--language-hint"; language_hint opts;
   "--output-format"; "json"]%string.

(** The budget: the smaller of the two limits; a limit of the options counts when
    it is positive. *)
Definition budget (configured : Z) (opts : ParserOptions S) : Z :=
  if (0 <? subprocess_timeout_ms opts) && (subprocess_timeout_ms opts <? configured)
  then subprocess_timeout_ms opts else configured.

(** Exit code 0: the payload decides, and its pages are reported. *)
Definition finish (payload filepath name : string) (opts : ParserOptions S) : M S exn ParsedDoc :=
  match ParseBridgeJson payload filepath name with
  | None => mraise type_error
  | Some doc => mbind (DrivePageProgress doc opts) (fun _ => mret doc)
  end.

Definition DoclingParse (c : DoclingConfig) (filepath : string) (opts : ParserOptions S) : M S exn ParsedDoc :=
  let timeout_ms := budget (dl_timeout_ms c) opts in
  let sp := run (DoclingArgv c filepath opts) timeout_ms (dl_max_output c) in
  if negb (launched sp) then
    mret (MakeErrorDoc kSubprocessFailed "Failed to launch Docling bridge subprocess"
            (JObject [("hint", JString "Python is not installed or dependencies are missing")]) "docling")
  else if timed_out sp then
    mret (MakeErrorDoc kParseTimeout "Subprocess timeout"
            (JObject [("timeout_ms", JInt timeout_ms); ("pages_completed_before_timeout", JInt (-1))]) "docling")
  else if output_truncated sp then
    mret (MakeErrorDoc kOutputTooLarge "Subprocess output exceeded limit"
            (JObject [("actual_bytes", JInt (Z.of_nat (String.length (stdout_data sp))));
                      ("limit_bytes", JInt (dl_max_output c))]) "docling")
  else if negb (exit_code sp =? 0) then
    mret (MakeErrorDoc kSubprocessCrashed "Subprocess exited with non-zero code"
            (JObject [("exit_code", JInt (exit_code sp)); ("stderr_tail", JString (Tail (stderr_data sp) 1024))])
            "docling")
  else finish (stdout_data sp) filepath "docling" opts.

Definition OcrSupports (ext : string) : bool :=
  bool_decide (ext ∈ ["pdf"; "png"; "jpg"; "jpeg"; "tiff"; "tif"; "bmp"]%string).

(** The extension of a path in lower case; [ExtractExtension] of the factory is the
    same code. *)
Definition ExtractExtension (filepath : string) : string :=
  let name := basename filepath in
  match find_last (fun c => bool_decide (c = "."%char)) name with
  | None => ""
  | Some dot =>
      if (dot =? 0)%nat || (String.length name <=? dot + 1)%nat then ""
      else ToLower (drop_string (Datatypes.S dot) name)
  end.

Definition PaddleArgv (c : PaddleOCRConfig) (filepath : string) (opts : ParserOptions S) : list string :=
  [po_python_path c; po_script_path c; "--filepath"; filepath;
   "--timeout"; pretty (Z.quot (subprocess_timeout_ms opts) 1000);
   "--max-pages"; pretty (max_pages opts);
   "--lang"; lang c; "--output-format"; "json"]%string ++ (if use_gpu c then ["--use-gpu"]%string else []).

Definition PaddleParse (c : PaddleOCRConfig) (filepath : string) (opts : ParserOptions S) : M S exn ParsedDoc :=
  let ext := ExtractExtension filepath in
  if negb (OcrSupports ext) then
    mret (MakeErrorDoc kUnsupportedFormat ("PaddleOCR cannot process ." +:+ ext)
            (JObject [("extension", JString ext);
                      ("supported_formats", JArray (JString <$> ["pdf"; "png"; "jpg"; "tiff"; "bmp"]))]) "paddleocr")
  else
  let timeout_ms := budget (po_timeout_ms c) opts in
  let sp := run (PaddleArgv c filepath opts) timeout_ms (po_max_output c) in
  if negb (launched sp) then
    mret (MakeErrorDoc kSubprocessFailed "Failed to launch PaddleOCR bridge subprocess"
            (JObject [("hint", JString "Python is not installed or the paddleocr dependency is missing")]) "paddleocr")
  else if timed_out sp then
    mret (MakeErrorDoc kParseTimeout "OCR subprocess timeout"
            (JObject [("timeout_ms", JInt timeout_ms); ("pages_completed_before_timeout", JInt (-1))]) "paddleocr")
  else if output_truncated sp then
    mret (MakeErrorDoc kOutputTooLarge "Subprocess output exceeded limit"
            (JObject [("actual_bytes", JInt (Z.of_nat (String.length (stdout_data sp))));
                      ("limit_bytes", JInt (po_max_output c))]) "paddleocr")
  else if negb (exit_code sp =? 0) then
    mret (MakeErrorDoc kOcrFailed "PaddleOCR subprocess crashed"
            (JObject [("failed_pages", JArray []); ("exit_code", JInt (exit_code sp));
                      ("stderr_tail", JString (Tail (stderr_data sp) 1024))]) "paddleocr")
  else finish (stdout_data sp) filepath "paddleocr" opts.

(** ** The factory (parser_factory.cpp) *)

Definition kBytesPerMb : Z := 1024 * 1024.

Definition IsImageExt (ext : string) : bool :=
  bool_decide (ext ∈ ["png"; "jpg"; "jpeg"; "tiff"; "tif"; "bmp"]%string).

Definition ExtensionToMimeType (ext : string) : string :=
  let e := ToLower ext in
  if bool_decide (e = "pdf") then "application/pdf"
  else if bool_decide (e = "docx") then "application/vnd.openxmlformats-officedocument.wordprocessingml.document"
  else if bool_decide (e = "pptx") then "application/vnd.openxmlformats-officedocument.presentationml.presentation"
  else if bool_decide (e = "xlsx") then "application/vnd.openxmlformats-officedocument.spreadsheetml.sheet"
  else if bool_decide (e = "html") || bool_decide (e = "htm") then "text/html"
  else if bool_decide (e = "md") || bool_decide (e = "markdown") then "text/markdown"
  else if bool_decide (e = "txt") then "text/plain"
  else if bool_decide (e = "png") then "image/png"
  else if bool_decide (e = "jpg") || bool_decide (e = "jpeg") then "image/jpeg"
  else if bool_decide (e = "tiff") || bool_decide (e = "tif") then "image/tiff"
  else if bool_decide (e = "bmp") then "image/bmp"
  else "".

Record DocumentParserFactory := MkFactory {
  primary_ : option (IDocumentParser S);
  fallback_ : option (IDocumentParser S);
  custom_parsers_ : list (string * IDocumentParser S); (* in order of registration *)
  enable_paddleocr : bool;
  fallback_confidence_threshold : float32
}.

#[export] Instance Factory_eta : Eta DocumentParserFactory := fun f =>
  MkFactory (primary_ f) (fallback_ f) (custom_parsers_ f) (enable_paddleocr f) (fallback_confidence_threshold f).

Definition SetPrimaryParser (p : option (IDocumentParser S)) (f : DocumentParserFactory) := f <| primary_ := p |>.
Definition SetFallbackParser (p : option (IDocumentParser S)) (f : DocumentParserFactory) := f <| fallback_ := p |>.

(** A name that is registered again keeps its place. *)
Definition RegisterParser (name : string) (p : IDocumentParser S) (f : DocumentParserFactory) :=
  f <| custom_parsers_ :=
    if bool_decide (name ∈ (custom_parsers_ f).*1)
    then (fun np => if bool_decide (np.1 = name) then (name, p) else np) <$> custom_parsers_ f
    else custom_parsers_ f ++ [(name, p)] |>.
Definition ListParsers (f : DocumentParserFactory) : list string :=
  option_list (Name <$> primary_ f) ++ option_list (Name <$> fallback_ f) ++ (custom_parsers_ f).*1.

Definition SelectPrimary (f : DocumentParserFactory) (ext : string) : option (IDocumentParser S) :=
  if IsImageExt ext then fallback_ f else primary_ f.

Definition failed_ratio (result : ParsedDoc) : double :=
  ddiv (d_of_Z (len (failed_pages result))) (d_of_Z (len (pages result) + len (failed_pages result))).
Definition average_confidence (ps : list ParsedPage) : double :=
  ddiv (foldl (fun sum p => dadd sum (d_of_float (page_confidence (page_metadata p)))) (S754_zero false) ps)
    (d_of_Z (len ps)).

Definition NeedsFallback (result : ParsedDoc) (threshold : float32) : bool :=
  if bool_decide (pd_status result = kPasswordProtected) || bool_decide (pd_status result = kCorruptedFile)
  then false
  else match pages result with
  | [] => true
  | ps => dltb (dlit 1 2) (failed_ratio result) || dltb (average_confidence ps) (d_of_float threshold)
  end.

(** [stat]: the size of an existing file. *)
Context (stat : string -> option Z).

(** The parser to fall back to: allowed, present, and not the one that ran first,
    which it is for images. *)
Definition fallback_for (f : DocumentParserFactory) (ext : string) (opts : ParserOptions S)
    : option (IDocumentParser S) :=
  if enable_ocr_fallback opts && enable_paddleocr f && negb (IsImageExt ext) then fallback_ f else None.

Definition ParseDocument (f : DocumentParserFactory) (filepath : string) (opts : ParserOptions S)
    : M S exn ParsedDoc :=
  match stat filepath with
  | None =>
      mret (MakeErrorDoc kFileNotFound ("File not found: " +:+ filepath)
              (JObject [("filepath", JString filepath)]) "")
  | Some size =>
      if (0 <? max_file_size_mb opts) && (max_file_size_mb opts * kBytesPerMb <? size) then
        mret (MakeErrorDoc kFileTooLarge "File size exceeds limit"
                (JObject [("actual_size_mb", JInt (Z.quot size kBytesPerMb));
                          ("limit_mb", JInt (max_file_size_mb opts)); ("tier", JString "ce")]) "")
      else
      let ext := ExtractExtension filepath in
      if bool_decide (ExtensionToMimeType ext = ""%string) then
        mret (MakeErrorDoc kUnsupportedFormat ("Unsupported file format: ." +:+ ext)
                (JObject [("extension", JString ext);
                          ("supported_formats", JArray (JString <$>
                             ["pdf"; "docx"; "pptx"; "xlsx"; "html"; "md"; "txt"; "png"; "jpg"; "tiff"]))]) "")
      else
      match SelectPrimary f ext with
      | None =>
          mret (MakeErrorDoc kAllParsersFailed ("No parser available for ." +:+ ext)
                  (JObject [("attempted", JArray [])]) "")
      | Some primary =>
          mbind (Parse primary filepath opts) (fun result =>
            match fallback_for f ext opts with
            | Some fallback =>
                if NeedsFallback result (fallback_confidence_threshold f) then
                  mbind (Parse fallback filepath opts) (fun ocr =>
                    if doc_ok ocr && negb (bool_decide (length (pages ocr) = 0%nat)) then
                      mret (if negb (bool_decide (length (pages result) = 0%nat))
                            then ocr <| parser_name := Name primary +:+ "+" +:+ Name fallback |> else ocr)
                    else if negb (doc_ok result) && negb (doc_ok ocr) then
                      mret (MakeErrorDoc kAllParsersFailed "All parsers failed (primary + OCR fallback)"
                              (JObject [("attempted", JArray [JString (Name primary); JString (Name fallback)])]) "")
                    else mret result)
                else mret result
            | None => mret result
            end)
      end
  end.

End Parsers.
End Parser.
