(* ===== verification/SpcStages.v ===== *)
(** * The stages of an ingest (src/spc, src/scoring)

    What the pipeline runs between the chunker and the write: the gates of the
    vector index (index_gates.h), the cleaner that drops duplicate chunks and marks
    anomalous ones (data_cleaner.cpp), the chain of enrichers (enricher_chain.cpp)
    the score of a block (score_map.cpp, semantic_scorer.cpp)
    and the metadata block of a document (rule_based_metadata_generator.cpp).  SHA-256 and the
    enrichers, which call a model, are parameters; vectors are lists of floats, and
    the cosine is computed in doubles as the code does. *)
From Stdlib Require Import Ascii String Floats.SpecFloat.
From stdpp Require Import gmap strings pretty.
From S2P Require Import Prelude Status Iso8601 CppStd DocumentParser.

(** ** The bits of a float

    The IEEE 754 interchange format with [mw] bits of mantissa and [ew] of
    exponent, which is how a vector or a score is stored. *)
Module FloatBits.
Definition ieee_bits (mw ew : Z) (f : spec_float) : Z :=
  let signed (s : bool) (v : Z) := if s then 2 ^ (mw + ew) + v else v in
  match f with
  | S754_zero s => signed s 0
  | S754_infinity s => signed s ((2 ^ ew - 1) * 2 ^ mw)
  | S754_nan => (2 ^ ew - 1) * 2 ^ mw + 2 ^ (mw - 1)
  | S754_finite s m e =>
      signed s (if Z.pos m <? 2 ^ mw then Z.pos m
                else (e + 2 ^ (ew - 1) - 1 + mw) * 2 ^ mw + (Z.pos m - 2 ^ mw))
  end.
Definition f32_bits : float32 -> Z := ieee_bits 23 8.
Definition f64_bits : double -> Z := ieee_bits 52 11.

Example bits_of_one : f32_bits (flit 1 1) = 0x3F800000. Proof. reflexivity. Qed.
Example bits_of_tenth : f32_bits (flit (-1) 10) = 0xBDCCCCCD. Proof. reflexivity. Qed.
Example bits_of_double : f64_bits (dlit 1 10) = 0x3FB999999999999A. Proof. reflexivity. Qed.
End FloatBits.

(** ** The gates of the index (index_gates.h) *)

Module IndexGates.
Definition IndexPointsExpected (doc_level : Z) (skip_index : bool) : bool := (3 <=? doc_level) && negb skip_index.
Definition HypeBlocksExpected (doc_level : Z) : bool := 3 <=? doc_level.
End IndexGates.

(** ** The cleaner (data_cleaner.cpp) *)

Module DataCleaner.

Record Block := MkBlock {
  id : string;
  chunk_text : string;
  embedding : list float32;
  metadata_json : json;
  flags_ext : Z;
  marked_for_removal : bool
}.

#[export] Instance Block_eta : Eta Block := fun b =>
  MkBlock (id b) (chunk_text b) (embedding b) (metadata_json b) (flags_ext b) (marked_for_removal b).

Record CleaningConfig := MkCleaningConfig {
  dedup_enabled : bool;
  dedup_similarity_threshold : double;
  anomaly_detection_enabled : bool;
  max_chunk_chars : Z
}.
Definition default_config : CleaningConfig := MkCleaningConfig true (dlit 95 100) true 10000.

Inductive AnomalyReason := EMPTY_CHUNK | OVERSIZED_CHUNK | PARSE_FAILED | DUPLICATE_BLOCK_ID | INVALID_EMBEDDING.
Definition ToString (reason : AnomalyReason) : string :=
  match reason with
  | EMPTY_CHUNK => "empty" | OVERSIZED_CHUNK => "oversized" | PARSE_FAILED => "parse_failed"
  | DUPLICATE_BLOCK_ID => "duplicate_id" | INVALID_EMBEDDING => "invalid_embedding"
  end.

Record DedupResult := MkDedupResult {
  removed_count : Z; kept_count : Z; removed_block_ids : list string; hash_dedup_count : Z; semantic_dedup_count : Z
}.
Record AnomalyResult := MkAnomalyResult { total_marked : Z; by_reason : gmap string Z }.
Record CleaningResult := MkCleaningResult {
  chunks_input : Z; chunks_indexed : Z; chunks_skipped_dedup : Z; chunks_marked_anomalous : Z
}.
Definition no_summary : CleaningResult := MkCleaningResult 0 0 0 0.

(** *** Vectors *)

Definition d0 : double := S754_zero false.

(** The loop of [Cosine]: the dot product and the squared norms. *)
Fixpoint dot_norms (a b : list float32) (dot na nb : double) : double * double * double :=
  match a, b with
  | x :: a, y :: b =>
      let x := d_of_float x in
      let y := d_of_float y in
      dot_norms a b (dadd dot (dmul x y)) (dadd na (dmul x x)) (dadd nb (dmul y y))
  | _, _ => (dot, na, nb)
  end.

Definition dsqrt : double -> double := SFsqrt 53 1024.

Definition Cosine (a b : list float32) : double :=
  if bool_decide (a = []) || negb (len a =? len b) then d0 else
  let '(dot, na, nb) := dot_norms a b d0 d0 d0 in
  if dleb na d0 || dleb nb d0 then d0 else ddiv dot (dmul (dsqrt na) (dsqrt nb)).

Definition HasNaN (v : list float32) : bool :=
  existsb (fun x => match x with S754_nan | S754_infinity _ => true | _ => false end) v.
Definition AllZero (v : list float32) : bool :=
  forallb (fun x => match x with S754_zero _ => true | _ => false end) v.

(** *** Duplicates *)

Section Dedup.
Context (Sha256Hex : string -> string) (config_ : CleaningConfig).

(** Step 1: the blocks with their marks, and the removed identifiers. *)
Fixpoint mark_exact (seen_hashes : list string) (blocks : list Block) : list Block * list string :=
  match blocks with
  | [] => ([], [])
  | b :: rest =>
      let hash := Sha256Hex (chunk_text b) in
      if bool_decide (hash ∈ seen_hashes) then
        let '(rest, ids) := mark_exact seen_hashes rest in
        (b <| marked_for_removal := true |> :: rest, id b :: ids)
      else
        let '(rest, ids) := mark_exact (hash :: seen_hashes) rest in
        (b <| marked_for_removal := false |> :: rest, ids)
  end.

Definition similar (a b : Block) : bool :=
  dleb (dedup_similarity_threshold config_) (Cosine (embedding a) (embedding b)).

(** The inner loop of step 2, for the candidate [x]. *)
Fixpoint mark_similar (x : Block) (rest : list Block) : list Block * list string :=
  match rest with
  | [] => ([], [])
  | y :: rest =>
      let '(marked, ids) := mark_similar x rest in
      if negb (marked_for_removal y) && similar x y
      then (y <| marked_for_removal := true |> :: marked, id y :: ids)
      else (y :: marked, ids)
  end.

(** The outer loop.  The code keeps pointers to the blocks that step 1 left
    unmarked; here the marked ones are skipped. *)
Fixpoint mark_semantic (fuel : nat) (blocks : list Block) : list Block * list string :=
  match fuel, blocks with
  | S fuel, x :: rest =>
      let '(rest, ids) := if marked_for_removal x then (rest, []) else mark_similar x rest in
      let '(rest, ids') := mark_semantic fuel rest in
      (x :: rest, ids ++ ids')
  | _, _ => (blocks, [])
  end.

Definition Dedup (blocks : list Block) : DedupResult * list Block :=
  if negb (dedup_enabled config_) then (MkDedupResult 0 (len blocks) [] 0 0, blocks) else
  let '(blocks, exact) := mark_exact [] blocks in
  let '(blocks, semantic) := mark_semantic (length blocks) blocks in
  let kept := filter (fun b => marked_for_removal b = false) blocks in
  (MkDedupResult (len exact + len semantic) (len kept) (exact ++ semantic) (len exact) (len semantic), kept).

(** *** Anomalies *)

Definition kFlagExtIsAnomalous : Z := 4.

(** The key is there and is the string, or is there and is not null. *)
Definition parse_failed (m : json) : bool :=
  match m with
  | JObject o =>
      match member "meta.parse_status" o with Some (JString s) => bool_decide (s = "failed"%string) | _ => false end
      || match member "meta.parse_failed_page" o with None | Some JNull => false | Some _ => true end
  | _ => false
  end.

Definition reason_if (b : bool) (r : AnomalyReason) : list AnomalyReason := if b then [r] else [].

Definition reasons (seen_ids : list string) (b : Block) : list AnomalyReason :=
  reason_if (bool_decide (chunk_text b = ""%string)) EMPTY_CHUNK
  ++ reason_if (max_chunk_chars config_ <? i32 (Z.of_nat (String.length (chunk_text b)))) OVERSIZED_CHUNK
  ++ reason_if (parse_failed (metadata_json b)) PARSE_FAILED
  ++ reason_if (negb (bool_decide (embedding b = [])) && (HasNaN (embedding b) || AllZero (embedding b))) INVALID_EMBEDDING
  ++ reason_if (negb (bool_decide (id b = ""%string)) && bool_decide (id b ∈ seen_ids)) DUPLICATE_BLOCK_ID.

(** [json[key] = v] on an object; anything else has been made one before. *)
Definition set_key (key : string) (v : json) (j : json) : json :=
  JObject (match j with JObject o => filter (fun kv => kv.1 <> key) o | _ => [] end ++ [(key, v)]).

Definition mark_anomalous (rs : list AnomalyReason) (b : Block) : Block :=
  b <| flags_ext := Z.lor (flags_ext b) kFlagExtIsAnomalous |>
    <| metadata_json :=
         set_key "cleaning.skip_index" (JBool true)
           (set_key "cleaning.anomaly_reason" (JString (String.concat "," (ToString <$> rs))) (metadata_json b)) |>.

Definition count_reasons (rs : list AnomalyReason) (m : gmap string Z) : gmap string Z :=
  foldl (fun m r => <[ToString r := default 0 (m !! ToString r) + 1]> m) m rs.

Fixpoint detect (seen_ids : list string) (blocks : list Block) (result : AnomalyResult) : AnomalyResult * list Block :=
  match blocks with
  | [] => (result, [])
  | b :: rest =>
      let rs := reasons seen_ids b in
      let seen_ids := if bool_decide (id b = ""%string) then seen_ids else id b :: seen_ids in
      match rs with
      | [] => let '(result, rest) := detect seen_ids rest result in (result, b :: rest)
      | _ =>
          let '(result, rest) :=
            detect seen_ids rest (MkAnomalyResult (total_marked result + 1) (count_reasons rs (by_reason result))) in
          (result, mark_anomalous rs b :: rest)
      end
  end.

Definition DetectAnomaly (blocks : list Block) : AnomalyResult * list Block :=
  if negb (anomaly_detection_enabled config_) then (MkAnomalyResult 0 ∅, blocks)
  else detect [] blocks (MkAnomalyResult 0 ∅).
End Dedup.

(** The registered plugins in order, null ones skipped. *)
Definition ApplyPlugins (plugins_ : list (option (list Block -> list Block))) (blocks : list Block) : list Block :=
  foldl (fun bs plugin => match plugin with Some plugin => plugin bs | None => bs end) blocks plugins_.

Definition Summarize (input_count : Z) (dedup : DedupResult) (anomaly : AnomalyResult) : CleaningResult :=
  MkCleaningResult input_count (input_count - removed_count dedup) (removed_count dedup) (total_marked anomaly).

Definition JsonSaysSkipIndex (metadata : json) : bool :=
  match metadata with
  | JObject o => match member "cleaning.skip_index" o with Some (JBool b) => b | _ => false end
  | _ => false
  end.
Definition ShouldSkipIndex (block : Block) : bool :=
  negb (Z.land (flags_ext block) kFlagExtIsAnomalous =? 0) || JsonSaysSkipIndex (metadata_json block).
Definition MetadataSkipsIndex `{Nlohmann} (metadata_json : string) : bool :=
  if bool_decide (metadata_json = ""%string) then false else
  match json_parse metadata_json with Some parsed => JsonSaysSkipIndex parsed | None => false end.

End DataCleaner.

(** ** The enrichers (spc_enricher.h, enricher_chain.cpp) *)

Module EnricherChain.
Import Parser.

(** A named entity of a chunk. *)
Record Entity := MkEntity { e_text : string; e_type : string; start_offset : Z; end_offset : Z }.

Record EnrichResult := MkEnrichResult {
  status : Z;
  entities : list Entity;
  summary : string;
  enriched_score : float32;
  error_msg : string;
  prompt_version : string;
  model_used : string;
  duration_ms : Z;
  token_count : Z;
  enricher_name : string;
  enriched_at : Z;
  structured_data : string; (* the one field of error_meta that the chain reads *)
  contextualized_text : option string;
  contextualized_embedding : option (list float32);
  contextualized_status : Z
}.
#[export] Instance EnrichResult_eta : Eta EnrichResult := fun r =>
  MkEnrichResult (status r) (entities r) (summary r) (enriched_score r) (error_msg r) (prompt_version r)
    (model_used r) (duration_ms r) (token_count r) (enricher_name r) (enriched_at r) (structured_data r)
    (contextualized_text r) (contextualized_embedding r) (contextualized_status r).

Definition no_enrichment : EnrichResult :=
  MkEnrichResult 0 [] "" (S754_zero false) "" "" "" 0 0 "" 0 "" None None 0.
Definition result_ok (r : EnrichResult) : bool := status r =? 0.

(** The chunk with its neighbours; the document's metadata is a pointer. *)
Record ChunkContext := MkChunkContext {
  ctx_text : string; ctx_index : Z; doc_metadata : option DocumentMetadata;
  prev_chunk_text : string; next_chunk_text : string
}.

Record HypeQuestion := MkHypeQuestion {
  question_text : string; question_index : Z; source_child_id : string; source_parent_id : string;
  q_embedding : list float32
}.

(** An enricher: [Raised] is a thrown exception with its text, and
    [GenerateHypeQuestions] is there for a [HyPEEnricher]. *)
Record ISpcEnricher := MkEnricher {
  Name : string;
  IsAvailable : bool;
  EnrichBatch : list ChunkContext -> outcome string (list EnrichResult);
  GenerateHypeQuestions :
    option (string -> string -> DocumentMetadata -> string -> string -> Result (list HypeQuestion))
}.

Record EnricherStepOutcome := MkStep { s_name : string; s_status : Z; error_code : string; skipped : bool }.

Record ChunkChainResult := MkChainResult {
  merged : EnrichResult;
  hype_questions : list HypeQuestion;
  steps : list EnricherStepOutcome
}.
#[export] Instance ChunkChainResult_eta : Eta ChunkChainResult := fun r =>
  MkChainResult (merged r) (hype_questions r) (steps r).

Definition no_result : ChunkChainResult := MkChainResult no_enrichment [] [].
Definition add_step (s : EnricherStepOutcome) (r : ChunkChainResult) : ChunkChainResult :=
  r <| steps := steps r ++ [s] |>.

(** *** The tokens of a chain *)

Definition IsKnownToken (t : string) : bool := bool_decide (t ∈ ["f03"; "f35"; "f38"]%string).

Definition is_blank (c : ascii) : bool := bool_decide (Ascii.nat_of_ascii c ∈ [32; 9; 13; 10]%nat).
Fixpoint drop_blanks (l : list ascii) : list ascii :=
  match l with c :: l' => if is_blank c then drop_blanks l' else l | [] => [] end.
Definition Trim (s : string) : string :=
  String.string_of_list_ascii (reverse (drop_blanks (reverse (drop_blanks (String.list_ascii_of_string s))))).

(** [std::getline] on a separator: no piece after a final one. *)
Fixpoint getlines (sep : ascii) (cur : list ascii) (l : list ascii) : list string :=
  match l with
  | [] => match cur with [] => [] | _ => [String.string_of_list_ascii (reverse cur)] end
  | c :: l =>
      if bool_decide (c = sep) then String.string_of_list_ascii (reverse cur) :: getlines sep [] l
      else getlines sep (c :: cur) l
  end.
Definition SplitCsv (s : string) : list string :=
  filter (fun t => t <> ""%string) (getlines ","%char [] (String.list_ascii_of_string s)).

(** The tokens in order of their first occurrence. *)
Fixpoint known_tokens (seen : list string) (toks : list string) : list string :=
  match toks with
  | [] => []
  | tok :: toks =>
      let t := ToLower (Trim tok) in
      if IsKnownToken t && negb (bool_decide (t ∈ seen)) then t :: known_tokens (t :: seen) toks
      else known_tokens seen toks
  end.

Definition ParseEnricherChainSpec (spec : string) : list string :=
  let out := known_tokens [] (getlines ","%char [] (String.list_ascii_of_string spec)) in
  match out with
  | [] => ["f03"%string]
  | front :: _ =>
      if negb (bool_decide ("f03"%string ∈ out)) then "f03"%string :: out
      else if bool_decide (front = "f03"%string) then out
      else "f03"%string :: filter (fun t => t <> "f03"%string) out
  end.

(** [GetString] of the global configuration, [None] for an error or no configuration. *)
Definition ResolveEnricherChain `{Nlohmann} (global : option string) (ns_metadata_json : string) : list string :=
  let own := if bool_decide (ns_metadata_json = ""%string) then None else
    match json_parse ns_metadata_json with
    | Some (JObject o) => match member "enricher_chain" o with Some (JString s) => Some s | _ => None end
    | _ => None
    end in
  match own with
  | Some s => ParseEnricherChainSpec s
  | None =>
      match global with
      | Some s => if bool_decide (s = ""%string) then ["f03"%string] else ParseEnricherChainSpec s
      | None => ["f03"%string]
      end
  end.

Definition ChainMemberToken (enricher_name : string) : string :=
  if bool_decide (enricher_name = "hype"%string) then "f38"
  else if bool_decide (enricher_name = "f35_contextual_retrieval"%string) then "f35" else "f03".

(** *** The chain *)

Definition AnyAvailable (enrichers_ : list ISpcEnricher) : bool := existsb IsAvailable enrichers_.
Definition Names (enrichers_ : list ISpcEnricher) : list string := Name <$> enrichers_.

Definition nonempty (s : string) : bool := negb (bool_decide (s = ""%string)).
Definition positive (f : float32) : bool := SFltb (S754_zero false) f.
Definition keep {A} (b : bool) (x y : A) : A := if b then x else y.

(** The merge of one step into the result of its chunk. *)
Definition merge_fields (step m : EnrichResult) : EnrichResult :=
  m <| entities := keep (match entities step with [] => false | _ => true end) (entities step) (entities m) |>
    <| summary := keep (nonempty (summary step)) (summary step) (summary m) |>
    <| enriched_score := keep (positive (enriched_score step)) (enriched_score step) (enriched_score m) |>
    <| enricher_name := keep (nonempty (enricher_name step) && negb (nonempty (enricher_name m)))
                          (enricher_name step) (enricher_name m) |>
    <| token_count := keep (0 <? token_count step) (token_count m + token_count step) (token_count m) |>
    <| duration_ms := keep (0 <? duration_ms step) (duration_ms m + duration_ms step) (duration_ms m) |>
    <| model_used := keep (nonempty (model_used step)) (model_used step) (model_used m) |>
    <| prompt_version := keep (nonempty (prompt_version step)) (prompt_version step) (prompt_version m) |>
    <| contextualized_text := keep (bool_decide (is_Some (contextualized_text step)))
                                (contextualized_text step) (contextualized_text m) |>
    <| contextualized_embedding := keep (bool_decide (is_Some (contextualized_embedding step)))
                                     (contextualized_embedding step) (contextualized_embedding m) |>
    <| contextualized_status := keep (negb (contextualized_status step =? 0))
                                  (contextualized_status step) (contextualized_status m) |>.

Definition merge_status (step m : EnrichResult) : EnrichResult :=
  if negb (result_ok step) && (status m =? 0)
  then m <| status := status step |> <| structured_data := structured_data step |>
         <| error_msg := error_msg step |>
  else m.

Definition err_code (step : EnrichResult) : string :=
  if negb (result_ok step) then keep (nonempty (structured_data step)) (structured_data step) (error_msg step)
  else if (contextualized_status step =? 2) && nonempty (error_msg step) then error_msg step else ""%string.

Definition merge (name : string) (r : ChunkChainResult) (step : EnrichResult) : ChunkChainResult :=
  add_step (MkStep name (status step) (err_code step) false)
    (r <| merged := merge_status step (merge_fields step (merged r)) |>).

(** Pointwise on the common prefix; the rest of the results stays. *)
Fixpoint merge_batch (name : string) (results : list ChunkChainResult) (batch : list EnrichResult)
    : list ChunkChainResult :=
  match results, batch with
  | r :: results, step :: batch => merge name r step :: merge_batch name results batch
  | _, _ => results
  end.

Definition at_or_empty (l : list string) (i : nat) : string := default ""%string (l !! i).

Section Chain.
Context (enrichers_ : list ISpcEnricher).
Context (contexts : list ChunkContext) (parent_texts source_child_ids source_parent_ids : list string).
Context (member_filter : option (list string)).

Definition hype_chunk (name : string)
    (gen : string -> string -> DocumentMetadata -> string -> string -> Result (list HypeQuestion))
    (i : nat) (cr : ChunkContext * ChunkChainResult) : ChunkChainResult :=
  let '(c, r) := cr in
  match gen (ctx_text c) (at_or_empty parent_texts i) (default no_metadata (doc_metadata c))
          (at_or_empty source_child_ids i) (at_or_empty source_parent_ids i) with
  | Value qs => add_step (MkStep name 0 "" false) (r <| hype_questions := hype_questions r ++ qs |>)
  | Error e => add_step (MkStep name 1 (status_message e) false) r
  end.

Definition run_member (results : list ChunkChainResult) (e : ISpcEnricher) : list ChunkChainResult :=
  let name := Name e in
  let excluded := match member_filter with
                  | Some filter => negb (bool_decide (ChainMemberToken name ∈ filter))
                  | None => false
                  end in
  if negb (IsAvailable e) || excluded then add_step (MkStep name 0 "" true) <$> results else
  if bool_decide (name = "hype"%string) then
    match GenerateHypeQuestions e with
    | None => results
    | Some gen => imap (hype_chunk name gen) (zip contexts results)
    end
  else
  match EnrichBatch e contexts with
  | Raised what => add_step (MkStep name 1 what false) <$> results
  | Done batch => merge_batch name results batch
  end.

Definition EnrichChunks : list ChunkChainResult :=
  foldl run_member (replicate (length contexts) no_result) enrichers_.
End Chain.

End EnricherChain.

(** ** Scores (score_map.cpp, semantic_scorer.cpp) *)

Module Scoring.

Record ScoringInput := MkScoringInput {
  parser_name : string; enricher_name : string; has_image_caption : bool; is_anomalous : bool; block_type : Z
}.

Definition kBlockMeta : Z := 8.
Definition kLevelScore : list float32 := [flit 2 10; flit 4 10; flit 6 10; flit 8 10; flit 1 1].

Definition ParserLevel (parser_name : string) : Z :=
  if bool_decide (parser_name ∈ ["docling"; "docling+paddleocr"]%string) then 2
  else if bool_decide (parser_name = "paddleocr"%string) then 1 else 0.
Definition EnricherLevel (enricher_name : string) : Z :=
  if bool_decide (enricher_name = "llm"%string) then 4
  else if bool_decide (enricher_name ∈ ["contextual"; "hype"]%string) then 3 else 0.

Definition ComputeLevel (input : ScoringInput) : Z :=
  if block_type input =? kBlockMeta then 0 else
  let level := ParserLevel (parser_name input) in
  let level := Z.max level (EnricherLevel (enricher_name input)) in
  let level := Z.max level (if has_image_caption input then 4 else 0) in
  if 4 <? level then 4 else level.

(** [None] is the exception CX_ERR_F07_LEVEL_INVALID. *)
Definition LevelToScore (level : Z) : option float32 := if 4 <? level then None else kLevelScore !! Z.to_nat level.

(** The level for the header and the score. *)
Definition AssignInitialScore (input : ScoringInput) : Z * option float32 :=
  let level := ComputeLevel input in
  (level, if is_anomalous input then Some (S754_zero false) else LevelToScore level).

Definition fadd : float32 -> float32 -> float32 := SFadd 24 128.
Definition fsub : float32 -> float32 -> float32 := SFsub 24 128.
Definition fmul : float32 -> float32 -> float32 := SFmul 24 128.

(** [None] is the exception CX_ERR_F07_CONFIG_INVALID. *)
Definition ComputeFinalScore (rerank_score : float32) (enriched_score : option float32) (semantic_score : float32)
    (anomalous : bool) (alpha : float32) : option float32 :=
  if SFltb alpha (S754_zero false) || SFltb (flit 1 1) alpha then None else
  let effective := if anomalous then S754_zero false else default semantic_score enriched_score in
  Some (fmul rerank_score (fadd (flit 1 1) (fmul alpha (fsub effective (flit 1 2))))).

End Scoring.

(** ** The metadata block of a document (rule_based_metadata_generator.cpp) *)

Module MetadataGenerator.
Import Parser Iso8601.
#[local] Open Scope string_scope.

Record FileInfo := MkFileInfo { source_uri : string; tags : list string; upload_time_ms : Z }.

Record ProcessingStats := MkStats {
  chunk_count : Z; parent_count : Z; child_count : Z; processing_time_ms : Z;
  st_parser_name : string; parser_version : string; enricher_name : string; enricher_version : string;
  chunker_name : string; chunker_version : string; parse_status : string; parse_failed_page : Z
}.

Record GeneratorInput := MkGeneratorInput {
  doc_id : string; namespace_id : string; doc_metadata : DocumentMetadata; file_info : FileInfo;
  stats : ProcessingStats; custom_metadata : json
}.

Record MetadataBlock := MkMetadataBlock { block_id : string; block_text : string; metadata_json : json }.

Definition FormatIso8601Utc (epoch_ms : Z) : string :=
  if (epoch_ms <=? 0)%Z then "" else
  let t := gmtime (epoch_ms / 1000) in
  dec 4 (tm_year t) ++ "-" ++ dec 2 (tm_mon t) ++ "-" ++ dec 2 (tm_mday t) ++ "T"
  ++ dec 2 (tm_hour t) ++ ":" ++ dec 2 (tm_min t) ++ ":" ++ dec 2 (tm_sec t) ++ "Z".

Definition DeriveDocTitle (filename : string) : string :=
  match find_last (fun c => bool_decide (c = "."%char)) filename with
  | None | Some O => filename
  | Some dot => String.substring 0 dot filename
  end.

Definition JoinTags (tags : list string) (sep : string) : string := String.concat sep tags.

Definition part_if (b : bool) (s : string) : list string := if b then [s] else [].
Definition filled (s : string) : bool := negb (bool_decide (s = "")).

Definition BuildBlockText (input : GeneratorInput) : string :=
  let dm := doc_metadata input in
  let upload := FormatIso8601Utc (upload_time_ms (file_info input)) in
  let parser := st_parser_name (stats input) in
  JoinTags
    (part_if (filled (dm_filename dm)) (dm_filename dm)
     ++ part_if (filled (mime_type dm)) (mime_type dm ++ " document")%string
     ++ part_if (0 <? page_count dm)%Z (pretty (page_count dm) ++ " pages")%string
     ++ part_if (0 <? chunk_count (stats input))%Z (pretty (chunk_count (stats input)) ++ " chunks")%string
     ++ part_if (filled upload) (upload ++ " uploaded")%string
     ++ part_if (filled (doc_language dm)) (doc_language dm)
     ++ part_if (filled parser) ("parser: " ++ parser)%string
     ++ part_if (negb (bool_decide (tags (file_info input) = [])))
          ("tags: " ++ JoinTags (tags (file_info input)) " / ")%string)%list ", ".

Definition json_if (b : bool) (j : json) : json := if b then j else JNull.
Definition count_or_null (n : Z) : json := json_if (0 <=? n)%Z (JInt n).

(** The members in the order in which the code sets them. *)
Definition BuildMetadataJson (id : string) (input : GeneratorInput) : json :=
  let dm := doc_metadata input in
  let st := stats input in
  let upload := FormatIso8601Utc (upload_time_ms (file_info input)) in
  let status := if filled (parse_status st) then parse_status st else "ok" in
  let failed := bool_decide (status = "failed") in
  JObject [
    ("block_id", JString id); ("block_type", JString "metadata"); ("doc_id", JString (doc_id input));
    ("namespace_id", JString (namespace_id input));
    ("filename", JString (dm_filename dm)); ("mime_type", JString (mime_type dm));
    ("file_size_bytes", JInt (file_size_bytes dm)); ("upload_time", json_if (filled upload) (JString upload));
    ("page_count", count_or_null (page_count dm)); ("chunk_count", count_or_null (chunk_count st));
    ("parent_count", count_or_null (parent_count st)); ("child_count", count_or_null (child_count st));
    ("parser", JString (st_parser_name st)); ("parser_version", JString (parser_version st));
    ("enricher", JString (enricher_name st)); ("enricher_version", JString (enricher_version st));
    ("chunker", JString (chunker_name st)); ("chunker_version", JString (chunker_version st));
    ("processing_time_ms", JInt (processing_time_ms st)); ("source_uri", JString (source_uri (file_info input)));
    ("lang", JString (doc_language dm)); ("meta.parse_status", JString status);
    ("meta.parse_failed_page",
     json_if ((failed || bool_decide (status = "partial")) && (0 <=? parse_failed_page st)%Z) (JInt (parse_failed_page st)));
    ("tags", JArray (JString <$> tags (file_info input)));
    ("ingestion_status", JString (if failed then "failed" else "completed"));
    ("custom_metadata", match custom_metadata input with JNull => JObject [] | j => j end)].

(** [DeriveDocFts5Columns]: the five columns; [authors] as JSON. *)
Definition DeriveDocFts5Columns (input : GeneratorInput) : list (string * json) :=
  [("doc_id", JString (doc_id input)); ("filename", JString (dm_filename (doc_metadata input)));
   ("doc_title", JString (DeriveDocTitle (dm_filename (doc_metadata input))));
   ("topics_rule_extracted", JString (JoinTags (tags (file_info input)) " "));
   ("authors", match custom_metadata input with
               | JObject o => default JNull (member "authors" o)
               | _ => JNull
               end)].

(** [id] is the identifier that is minted; [None] is the error CX_ERR_METADATA_GEN_FAILED. *)
Definition Generate (id : string) (input : GeneratorInput) : option MetadataBlock :=
  let no_identity := negb (filled (dm_filename (doc_metadata input))) && negb (filled (source_uri (file_info input))) in
  if no_identity && bool_decide (parse_status (stats input) = "failed") then None
  else Some (MkMetadataBlock id (BuildBlockText input) (BuildMetadataJson id input)).

End MetadataGenerator.


(** ** What the cleaner does *)

Module CleanerTheory.
Import DataCleaner.

Section Dedup.
Context (Sha256Hex : string -> string) (config : CleaningConfig).

Definition unmark (b : Block) : Block := b <| marked_for_removal := false |>.
Definition kept (bs : list Block) : list Block := filter (fun b => marked_for_removal b = false) bs.
Definition marked (bs : list Block) : list Block := filter (fun b => marked_for_removal b = true) bs.
Definition hash (b : Block) : string := Sha256Hex (chunk_text b).

Lemma kept_cons b bs : kept (b :: bs) = if marked_for_removal b then kept bs else b :: kept bs.
Proof. unfold kept. rewrite filter_cons. by destruct (marked_for_removal b). Qed.

Lemma marked_cons b bs : marked (b :: bs) = if marked_for_removal b then b :: marked bs else marked bs.
Proof. unfold marked. rewrite filter_cons. by destruct (marked_for_removal b). Qed.

Lemma len_marks {A} (x : A) l : len (x :: l) = len l + 1.
Proof. unfold len. simpl. lia. Qed.

Lemma similar_unmark a b : similar config (unmark a) (unmark b) = similar config a b.
Proof. done. Qed.

(** Step 1 leaves the first block of every hash. *)
Lemma mark_exact_spec seen bs :
  let '(ms, ids) := mark_exact Sha256Hex seen bs in
  unmark <$> ms = unmark <$> bs /\ len ids = len (marked ms) /\
  NoDup (hash <$> kept ms) /\ (forall h, h ∈ hash <$> kept ms -> h ∉ seen) /\
  (forall j b, ms !! j = Some b -> marked_for_removal b = true ->
     hash b ∈ seen \/ exists i a, (i < j)%nat /\ ms !! i = Some a /\ marked_for_removal a = false /\ hash a = hash b).
Proof.
  revert seen. induction bs as [|b bs IH]; intros seen; simpl.
  { split; [done|]. split; [done|]. split; [constructor|]. split; [set_solver|done]. }
  case_bool_decide as Hin.
  - specialize (IH seen). destruct (mark_exact _ seen bs) as [ms ids]. destruct IH as (E & L & N & Sn & C).
    rewrite kept_cons, marked_cons, !fmap_cons, E. cbn [marked_for_removal set_field].
    split; [done|]. split; [rewrite !len_marks; lia|]. split; [done|]. split; [done|].
    intros [|j] c Hj Hm; simpl in Hj; [injection Hj as <-; by left|].
    destruct (C j c Hj Hm) as [?|(i & a & Hi & ?)]; [by left|]. right. exists (S i), a. split; [lia|done].
  - specialize (IH (Sha256Hex (chunk_text b) :: seen)). destruct (mark_exact _ _ bs) as [ms ids].
    destruct IH as (E & L & N & Sn & C).
    rewrite kept_cons, marked_cons, !fmap_cons, E. cbn [marked_for_removal set_field].
    split; [done|]. split; [done|]. split.
    { simpl. constructor; [|done]. intros Hh. apply Sn in Hh. set_solver. }
    split. { simpl. intros h [->|Hh]%elem_of_cons; [done|]. apply Sn in Hh. set_solver. }
    intros [|j] c Hj Hm; simpl in Hj; [injection Hj as <-; done|].
    destruct (C j c Hj Hm) as [[->|?]%elem_of_cons|(i & a & Hi & ?)]; [|by left|].
    + right. exists 0%nat, (b <| marked_for_removal := false |>). split; [lia|done].
    + right. exists (S i), a. split; [lia|done].
Qed.

(** A pass that only adds marks. *)
Definition more_marks (m m' : Block) : Prop :=
  unmark m = unmark m' /\ (marked_for_removal m = true -> m' = m).

Lemma more_marks_refl m : more_marks m m.
Proof. done. Qed.

Lemma more_marks_trans m1 m2 m3 : more_marks m1 m2 -> more_marks m2 m3 -> more_marks m1 m3.
Proof. intros [E1 H1] [E2 H2]. split; [congruence|]. intros H. rewrite (H1 H) in *. auto. Qed.

#[local] Instance more_marks_preorder : PreOrder more_marks.
Proof. split; [exact more_marks_refl|exact more_marks_trans]. Qed.

Lemma mark_similar_spec x rest :
  let '(ms, ids) := mark_similar config x rest in
  Forall2 more_marks rest ms /\ len ids = len (marked ms) - len (marked rest) /\
  Forall (fun y => similar config x y = false) (kept ms) /\
  Forall2 (fun m m' => m' = m \/ similar config x m' = true) rest ms.
Proof.
  induction rest as [|y rest IH]; simpl; [by repeat constructor|].
  destruct (mark_similar config x rest) as [ms ids]. destruct IH as (M & L & K & Sm).
  rewrite (marked_cons y). destruct (marked_for_removal y) eqn:Hy; cbn [negb andb].
  - rewrite kept_cons, marked_cons, Hy, !len_marks. split; [by constructor|]. split; [lia|]. split; [done|].
    constructor; [by left|done].
  - destruct (similar config x y) eqn:Hs; rewrite kept_cons, marked_cons.
    + cbn [marked_for_removal set_field]. rewrite !len_marks.
      split; [constructor; [|done]; split; [done|congruence]|]. split; [lia|]. split; [done|].
      constructor; [by right|done].
    + rewrite Hy. split; [by constructor|]. split; [done|]. split; [by constructor|]. constructor; [by left|done].
Qed.

(** Step 2 keeps, of each group of similar blocks, the first. *)
Lemma mark_semantic_spec fuel bs :
  (length bs <= fuel)%nat ->
  let '(ms, ids) := mark_semantic config fuel bs in
  Forall2 more_marks bs ms /\ len ids = len (marked ms) - len (marked bs) /\
  ForallOrdPairs (fun x y => similar config x y = false) (kept ms) /\
  (forall j b b', bs !! j = Some b -> ms !! j = Some b' -> marked_for_removal b = false ->
     marked_for_removal b' = true ->
     exists i a, (i < j)%nat /\ ms !! i = Some a /\ marked_for_removal a = false /\ similar config a b' = true).
Proof.
  revert bs. induction fuel as [|fuel IH]; intros [|x rest] Hl; simpl in Hl;
    try (cbn; split; [done|]; split; [done|]; split; [constructor|done]); [lia|].
  cbn [mark_semantic].
  assert (exists rest1 ids1, (if marked_for_removal x then (rest, []) else mark_similar config x rest) = (rest1, ids1) /\
    Forall2 more_marks rest rest1 /\ len ids1 = len (marked rest1) - len (marked rest) /\
    (marked_for_removal x = false -> Forall (fun y => similar config x y = false) (kept rest1)) /\
    Forall2 (fun m m' => m' = m \/ marked_for_removal x = false /\ similar config x m' = true) rest rest1)
    as (rest1 & ids1 & E1 & M1 & L1 & K1 & S1).
  { destruct (marked_for_removal x) eqn:Hx.
    - exists rest, []. split; [done|]. split; [done|]. split; [unfold len; simpl; lia|]. split; [done|].
      clear. induction rest; constructor; auto.
    - pose proof (mark_similar_spec x rest) as Hs. destruct (mark_similar config x rest) as [rest1 ids1].
      destruct Hs as (? & ? & ? & HS). exists rest1, ids1. do 4 (split; [done|]).
      eapply Forall2_impl; [exact HS|]. intros ?? [?|?]; auto. }
  rewrite E1. assert (length rest1 = length rest) as Hlen by (symmetry; by eapply Forall2_length).
  specialize (IH rest1 ltac:(lia)). destruct (mark_semantic config fuel rest1) as [rest2 ids2].
  destruct IH as (M2 & L2 & K2 & C2).
  split; [constructor; [done|by transitivity rest1]|].
  split. { rewrite !marked_cons. destruct (marked_for_removal x); rewrite ?len_marks; unfold len in *; rewrite length_app; lia. }
  split.
  { rewrite kept_cons. destruct (marked_for_removal x) eqn:Hx; [done|]. constructor; [|done].
    apply Forall_forall. intros y Hy%list_elem_of_filter. destruct Hy as [Hy Hin].
    apply list_elem_of_lookup in Hin as [j Hj].
    destruct (Forall2_lookup_r _ _ _ _ _ M2 Hj) as (y1 & Hy1 & [Ey Hm]).
    assert (marked_for_removal y1 = false) as Hf.
    { destruct (marked_for_removal y1) eqn:E; [|done]. rewrite (Hm eq_refl) in Hy. congruence. }
    rewrite <- similar_unmark, <- Ey, similar_unmark.
    specialize (K1 eq_refl). rewrite Forall_forall in K1. apply K1, list_elem_of_filter. split; [done|]. by eapply list_elem_of_lookup_2. }
  intros [|j] b b' Hb Hb' Hm Hm'; simpl in Hb, Hb'; [congruence|].
  destruct (Forall2_lookup_l _ _ _ _ _ S1 Hb) as (b1 & Hb1 & [->|[Hx Hs]]).
  - destruct (C2 j b b' Hb1 Hb' Hm Hm') as (i & a & ? & ? & ? & ?). exists (Datatypes.S i), a. split; [lia|done].
  - destruct (marked_for_removal b1) eqn:Hm1.
    + exists 0%nat, x. split; [lia|]. split; [done|]. split; [done|].
      destruct (Forall2_lookup_l _ _ _ _ _ M2 Hb1) as (b2 & Hb2 & [_ Heq]). rewrite Hb' in Hb2.
      injection Hb2 as <-. by rewrite (Heq Hm1).
    + destruct (C2 j b1 b' Hb1 Hb' Hm1 Hm') as (i & a & ? & ? & ? & ?). exists (Datatypes.S i), a. split; [lia|done].
Qed.

(** The survivors are a sublist of the chunks, no two of them have the same hash or
    similar vectors, every removed chunk repeats an earlier one by its hash or a
    survivor by its vector, and the counts add up. *)
Definition dedup_of (bs : list Block) (r : DedupResult) (survivors : list Block) : Prop :=
  exists ms, unmark <$> ms = unmark <$> bs /\ survivors = kept ms /\
    ForallOrdPairs (fun x y => hash x <> hash y /\ similar config x y = false) survivors /\
    (forall j b, ms !! j = Some b -> marked_for_removal b = true ->
       exists i a, (i < j)%nat /\ ms !! i = Some a /\
         (hash a = hash b \/ marked_for_removal a = false /\ similar config a b = true)) /\
    removed_count r + kept_count r = len bs /\ kept_count r = len survivors /\
    removed_count r = hash_dedup_count r + semantic_dedup_count r /\ len (removed_block_ids r) = removed_count r.

Lemma hash_unmark b : hash (unmark b) = hash b.
Proof. done. Qed.

Lemma kept_marked bs : len (kept bs) + len (marked bs) = len bs.
Proof.
  induction bs as [|b bs IH]; [done|]. rewrite kept_cons, marked_cons. destruct (marked_for_removal b); rewrite !len_marks; lia.
Qed.

Lemma ordered_pairs_and {A} (P Q : A -> A -> Prop) l :
  ForallOrdPairs P l -> ForallOrdPairs Q l -> ForallOrdPairs (fun x y => P x y /\ Q x y) l.
Proof.
  intros HP. induction HP as [|x l Hx HP IH]; intros HQ; inversion HQ; subst; constructor; [|auto].
  apply Forall_and. done.
Qed.

Lemma distinct_pairs {A} `{EqDecision B} (f : A -> B) l :
  NoDup (f <$> l) -> ForallOrdPairs (fun x y => f x <> f y) l.
Proof.
  induction l as [|x l IH]; intros Hn; [constructor|]. rewrite fmap_cons in Hn. apply NoDup_cons in Hn as [Hx Hn].
  constructor; [|auto]. apply Forall_forall. intros y Hy E. apply Hx. rewrite E. by apply list_elem_of_fmap_2.
Qed.

Lemma kept_more ms1 ms2 : Forall2 more_marks ms1 ms2 -> hash <$> kept ms2 `sublist_of` hash <$> kept ms1.
Proof.
  induction 1 as [|x y l k [E Hm] _ IH]; [done|]. rewrite !kept_cons.
  destruct (marked_for_removal x) eqn:Hx.
  - rewrite (Hm eq_refl), Hx. done.
  - assert (hash y = hash x) as Hh by (rewrite <- hash_unmark, <- E; done).
    destruct (marked_for_removal y); rewrite ?fmap_cons; [by constructor|]. rewrite Hh. by constructor.
Qed.

Lemma more_marks_unmark ms1 ms2 : Forall2 more_marks ms1 ms2 -> unmark <$> ms1 = unmark <$> ms2.
Proof. induction 1 as [|x y l k [E _] _ IH]; [done|]. by rewrite !fmap_cons, E, IH. Qed.

(** C23: cleaning keeps the first of every group of duplicates and nothing else: the
    blocks that are left are those of the input in their order, no two of them have
    the same text hash or vectors whose cosine reaches the threshold, every block that
    was removed repeats an earlier one by its hash or an earlier survivor by its
    vector, the counts of the result are exact, and [Summarize] splits the chunks of a
    document into the indexed and the skipped ones. *)
Theorem Dedup_keeps_first (bs : list Block) (r : DedupResult) (survivors : list Block) (anomaly : AnomalyResult) :
  dedup_enabled config = true ->
  Dedup Sha256Hex config bs = (r, survivors) ->
  dedup_of bs r survivors /\
  chunks_indexed (Summarize (len bs) r anomaly) = len survivors.
Proof.
  intros He. unfold Dedup. rewrite He. cbn [negb].
  pose proof (mark_exact_spec [] bs) as H1. destruct (mark_exact Sha256Hex [] bs) as [ms ids].
  destruct H1 as (E1 & L1 & N1 & _ & C1).
  pose proof (mark_semantic_spec (length ms) ms ltac:(lia)) as H2.
  destruct (mark_semantic config (length ms) ms) as [ms' ids']. destruct H2 as (M2 & L2 & K2 & C2).
  intros [= <- <-]. fold (kept ms').
  pose proof (more_marks_unmark _ _ M2) as E2. pose proof (kept_marked ms') as Hk.
  assert (len ms' = len bs) as Hl.
  { unfold len. f_equal. rewrite <- (length_fmap unmark ms'), <- E2, E1. apply length_fmap. }
  split; [|unfold Summarize; simpl; lia]. exists ms'. split; [congruence|]. split; [done|]. split.
  { apply ordered_pairs_and; [|done]. apply distinct_pairs. eapply sublist_NoDup; [exact N1|by apply kept_more]. }
  split.
  { intros j b Hj Hm. destruct (Forall2_lookup_r _ _ _ _ _ M2 Hj) as (b1 & Hj1 & [Eb Hb]).
    destruct (marked_for_removal b1) eqn:Hm1.
    - destruct (C1 j b1 Hj1 Hm1) as [Hin|(i & a & Hi & Ha & _ & Hh)]; [by apply not_elem_of_nil in Hin|].
      destruct (Forall2_lookup_l _ _ _ _ _ M2 Ha) as (a' & Ha' & [Ea _]). exists i, a'. split; [done|]. split; [done|].
      left. rewrite <- hash_unmark, <- Ea, hash_unmark, (Hb eq_refl). done.
    - destruct (C2 j b1 b Hj1 Hj Hm1 Hm) as (i & a & ? & ? & ? & ?). exists i, a. auto. }
  simpl. unfold len in *. rewrite length_app. lia.
Qed.

End Dedup.

(** A marked block is not indexed. *)
Lemma marked_skips rs b : ShouldSkipIndex (mark_anomalous rs b) = true.
Proof.
  unfold ShouldSkipIndex, mark_anomalous. cbn [flags_ext set_field]. apply orb_true_intro. left. apply negb_true_iff, Z.eqb_neq.
  intros H%(f_equal (fun z => Z.testbit z 2)). rewrite Z.land_spec, Z.lor_spec, Z.bits_0 in H.
  change (Z.testbit kFlagExtIsAnomalous 2) with true in H. by rewrite orb_true_r in H.
Qed.

(** Block by block: a block with a reason is marked with its reasons, another one is
    left as it is. *)
Lemma detect_exact config seen bs acc :
  Forall2 (fun b b' => exists ids, b' = match reasons config ids b with [] => b | rs => mark_anomalous rs b end)
    bs (detect config seen bs acc).2.
Proof.
  revert seen acc. induction bs as [|b bs IH]; intros seen acc; simpl; [constructor|].
  set (seen' := if bool_decide _ then _ else _).
  destruct (reasons config seen b) eqn:E; specialize (IH seen').
  - specialize (IH acc). destruct (detect config seen' bs acc). simpl in *. constructor; [|done].
    exists seen. by rewrite E.
  - match goal with |- context [detect config seen' bs ?a] => specialize (IH a); destruct (detect config seen' bs a) end.
    simpl in *. constructor; [|done]. exists seen. by rewrite E.
Qed.

End CleanerTheory.

(** ** What the chain does *)

Module ChainTheory.
Import EnricherChain.

Section Chain.
Context (contexts : list ChunkContext) (parent_texts source_child_ids source_parent_ids : list string).
Context (member_filter : option (list string)).
#[local] Abbreviation run := (run_member contexts parent_texts source_child_ids source_parent_ids member_filter).
#[local] Abbreviation chunks := (fun es => EnrichChunks es contexts parent_texts source_child_ids source_parent_ids member_filter).

(** What the members leave of a chunk, without the record of the steps. *)
Definition contribution (r : ChunkChainResult) : EnrichResult * list HypeQuestion := (merged r, hype_questions r).

(** A member that runs: it is available, not filtered out and does not throw. *)
Definition runs (e : ISpcEnricher) : bool :=
  IsAvailable e
  && match member_filter with Some filter => bool_decide (ChainMemberToken (Name e) ∈ filter) | None => true end
  && (bool_decide (Name e = "hype"%string) || match EnrichBatch e contexts with Done _ => true | Raised _ => false end).

Lemma contribution_step s (rs : list ChunkChainResult) : contribution <$> (add_step s <$> rs) = contribution <$> rs.
Proof. induction rs as [|r rs IH]; [done|]. rewrite !fmap_cons, IH. done. Qed.

Lemma length_merge_batch name rs batch : length (merge_batch name rs batch) = length rs.
Proof. revert batch. induction rs as [|r rs IH]; intros [|s batch]; simpl; auto. Qed.

Lemma length_run rs e : length rs = length contexts -> length (run rs e) = length contexts.
Proof.
  intros Hl. unfold run_member. destruct (_ || _); [by rewrite length_fmap|]. case_bool_decide.
  - destruct (GenerateHypeQuestions e); [|done]. rewrite length_imap, length_zip_with. lia.
  - destruct (EnrichBatch e contexts); [|by rewrite length_fmap]. by rewrite length_merge_batch.
Qed.

Lemma run_idle (rs : list ChunkChainResult) e : runs e = false -> contribution <$> run rs e = contribution <$> rs.
Proof.
  unfold runs, run_member. intros Hr. destruct (IsAvailable e); [|apply contribution_step].
  destruct member_filter as [filter|]; cbn [negb orb andb] in *.
  - case_bool_decide as Hin; cbn [negb orb andb] in *; [|apply contribution_step].
    case_bool_decide; cbn [orb] in Hr; [done|]. destruct (EnrichBatch e contexts); [done|]. apply contribution_step.
  - case_bool_decide; cbn [orb] in Hr; [done|]. destruct (EnrichBatch e contexts); [done|]. apply contribution_step.
Qed.

Lemma merge_batch_contribution name batch (rs1 rs2 : list ChunkChainResult) :
  contribution <$> rs1 = contribution <$> rs2 ->
  contribution <$> merge_batch name rs1 batch = contribution <$> merge_batch name rs2 batch.
Proof.
  revert batch rs2. induction rs1 as [|r1 rs1 IH]; intros batch [|r2 rs2] E; try done.
  destruct batch as [|s batch]; [done|]. rewrite !fmap_cons in E. injection E as E1 E2 E3.
  cbn [merge_batch]. rewrite !fmap_cons. f_equal; [|by apply IH].
  unfold merge, contribution, add_step. simpl. by rewrite E1, E2.
Qed.

Lemma hype_contribution name gen cs (rs1 rs2 : list ChunkChainResult) n :
  contribution <$> rs1 = contribution <$> rs2 ->
  contribution <$> imap (fun i => hype_chunk parent_texts source_child_ids source_parent_ids name gen (n + i)%nat) (zip cs rs1) =
  contribution <$> imap (fun i => hype_chunk parent_texts source_child_ids source_parent_ids name gen (n + i)%nat) (zip cs rs2).
Proof.
  revert cs rs2 n. induction rs1 as [|r1 rs1 IH]; intros [|c cs] [|r2 rs2] n E; try done.
  rewrite !fmap_cons in E. injection E as E1 E2 E3.
  cbn [zip zip_with]. rewrite !imap_cons, !fmap_cons. f_equal.
  - unfold hype_chunk. destruct (gen _ _ _ _ _); unfold contribution, add_step; simpl; by rewrite E1, E2.
  - specialize (IH cs rs2 (S n) E3).
    rewrite (imap_ext _ (fun i => hype_chunk parent_texts source_child_ids source_parent_ids name gen (S n + i)%nat) (zip cs rs1)),
      (imap_ext _ (fun i => hype_chunk parent_texts source_child_ids source_parent_ids name gen (S n + i)%nat) (zip cs rs2)); [done| |];
      intros i x _; cbn; by rewrite Nat.add_succ_r.
Qed.

Lemma run_contribution (rs1 rs2 : list ChunkChainResult) e :
  contribution <$> rs1 = contribution <$> rs2 -> contribution <$> run rs1 e = contribution <$> run rs2 e.
Proof.
  intros E. unfold run_member. destruct (_ || _); [by rewrite !contribution_step|]. case_bool_decide.
  - destruct (GenerateHypeQuestions e) as [gen|]; [|done]. by apply (hype_contribution _ _ _ _ _ 0).
  - destruct (EnrichBatch e contexts); [|by rewrite !contribution_step]. by apply merge_batch_contribution.
Qed.


(** What each member sets: the time of the enrichment is not among it. *)
Lemma merge_fields_time step m : enriched_at (merge_status step (merge_fields step m)) = enriched_at m.
Proof. unfold merge_status. by destruct (_ && _). Qed.

Lemma run_time rs e :
  Forall (fun r => enriched_at (merged r) = 0) rs -> Forall (fun r => enriched_at (merged r) = 0) (run rs e).
Proof.
  intros H. unfold run_member.
  assert (forall s, Forall (fun r => enriched_at (merged r) = 0) (add_step s <$> rs)) as Hs.
  { intros s. apply Forall_fmap. eapply Forall_impl; [exact H|]. done. }
  destruct (_ || _); [done|]. case_bool_decide.
  - destruct (GenerateHypeQuestions e) as [gen|]; [|done]. apply Forall_lookup. intros i x Hx.
    rewrite list_lookup_imap in Hx. apply fmap_Some in Hx as ([c r] & Hz & ->).
    apply lookup_zip_Some in Hz as [_ Hr]. pose proof (Forall_lookup_1 _ _ _ _ H Hr). simpl. by destruct (gen _ _ _ _ _).
  - destruct (EnrichBatch e contexts) as [batch|]; [|done]. clear Hs. revert batch.
    induction H as [|r rs Hr Hrs IH]; intros [|s batch]; cbn [merge_batch]; constructor; auto.
    change (enriched_at (merge_status s (merge_fields s (merged r))) = 0). by rewrite merge_fields_time.
Qed.

(** The chain drops the time of every enrichment: the results that are stored say 0. *)
Theorem Chain_drops_enriched_at (enrichers : list ISpcEnricher) :
  Forall (fun r => enriched_at (merged r) = 0) (chunks enrichers).
Proof.
  unfold EnrichChunks.
  assert (Forall (fun r => enriched_at (merged r) = 0) (replicate (length contexts) no_result)) as H by (by apply Forall_replicate).
  revert H. generalize (replicate (length contexts) no_result).
  induction enrichers as [|e es IH]; intros rs H; [done|]. simpl. apply IH. by apply run_time.
Qed.

End Chain.
End ChainTheory.

(** ** Runs *)

Module StageRuns.
Import CleanerTheory EnricherChain DataCleaner.

Definition one : float32 := flit 1 1.
Definition chunk (i text : string) (v : list float32) : Block := MkBlock i text v (JObject []) 0 false.

(** Three chunks: the second repeats the text of the first, the third its direction. *)
Definition chunks : list Block := [chunk "a" "x" [one; one]; chunk "b" "x" [one]; chunk "c" "y" [flit 2 1; flit 2 1]].

Lemma Dedup_keeps_first_witness :
  (Dedup (fun s => s) default_config chunks).2 = [chunk "a" "x" [one; one]] /\
  removed_block_ids (Dedup (fun s => s) default_config chunks).1 = ["b"; "c"]%string /\
  dedup_of (fun s => s) default_config chunks (Dedup (fun s => s) default_config chunks).1 [chunk "a" "x" [one; one]].
Proof.
  split; [vm_compute; reflexivity|]. split; [vm_compute; reflexivity|].
  exact (proj1 (Dedup_keeps_first (fun s => s) default_config chunks (Dedup (fun s => s) default_config chunks).1
    [chunk "a" "x" [one; one]] (MkAnomalyResult 0 ∅) eq_refl ltac:(vm_compute; reflexivity))).
Defined.

Example Chain_spec : ParseEnricherChainSpec " F38, f35,f38 ,what" = ["f03"; "f38"; "f35"]%string.
Proof. reflexivity. Qed.

End StageRuns.
