(* ===== verification/DocumentProcessor.v ===== *)
(** * Workers and document processing (src/async/)

    document_processor.cpp, one turn of the loop of worker_pool.cpp, and
    document_task_handler.cpp.  The table is shared: before each call on it other
    threads may run ([others], by the number of the call). *)
From Stdlib Require Import Ascii String.
From S2P Require Import Prelude Status Iso8601 F42Error Ulid TaskManager TaskScheduler CppStd DocumentParser.
Import TaskManager ManagedInput.

(** ** Types of files (spc_router.cpp) *)

Module SPCRouter.
Import Parser.

(** From the last dot, in lower case. *)
Definition InferMimeType (filename : string) : string :=
  match find_last (fun c => bool_decide (c = "."%char)) filename with
  | None => "application/octet-stream"
  | Some dot =>
      let ext := ToLower (drop_string dot filename) in
      if bool_decide (ext = ".pdf") then "application/pdf"
      else if bool_decide (ext = ".docx") then "application/vnd.openxmlformats-officedocument.wordprocessingml.document"
      else if bool_decide (ext = ".doc") then "application/msword"
      else if bool_decide (ext = ".xlsx") then "application/vnd.openxmlformats-officedocument.spreadsheetml.sheet"
      else if bool_decide (ext = ".xls") then "application/vnd.ms-excel"
      else if bool_decide (ext = ".pptx") then "application/vnd.openxmlformats-officedocument.presentationml.presentation"
      else if bool_decide (ext ∈ [".md"; ".markdown"]) then "text/markdown"
      else if bool_decide (ext = ".txt") then "text/plain"
      else if bool_decide (ext = ".csv") then "text/csv"
      else if bool_decide (ext ∈ [".html"; ".htm"]) then "text/html"
      else if bool_decide (ext = ".json") then "application/json"
      else if bool_decide (ext = ".xml") then "application/xml"
      else if bool_decide (ext = ".png") then "image/png"
      else if bool_decide (ext ∈ [".jpg"; ".jpeg"]) then "image/jpeg"
      else if bool_decide (ext ∈ [".tiff"; ".tif"]) then "image/tiff"
      else if bool_decide (ext = ".bmp") then "image/bmp"
      else if bool_decide (ext ∈ [".tmp"; ".bak"]) then "application/x-temp"
      else if bool_decide (ext ∈ [".exe"; ".dll"; ".so"]) then "application/x-executable"
      else if bool_decide (ext ∈ [".ttf"; ".otf"; ".woff"]) then "font/ttf"
      else "application/octet-stream"
  end%string.

Definition image_types : list string := ["image/png"; "image/jpeg"; "image/tiff"; "image/bmp"]%string.

Definition IsSupported (mime_type : string) : bool :=
  bool_decide (mime_type ∈
    ["application/pdf"; "application/vnd.openxmlformats-officedocument.wordprocessingml.document";
     "application/msword"; "application/vnd.openxmlformats-officedocument.spreadsheetml.sheet";
     "application/vnd.ms-excel"; "application/vnd.openxmlformats-officedocument.presentationml.presentation";
     "text/markdown"; "text/plain"; "text/csv"; "text/html"; "application/json"; "application/xml"; "text/xml";
     "image/png"; "image/jpeg"; "image/tiff"; "image/bmp"]%string).

Definition kBlockFile : Z := 1.
Definition kBlockScan : Z := 2.
Definition InferBlockType (mime_type : string) : Z :=
  if bool_decide (mime_type ∈ image_types) then kBlockScan else kBlockFile.
Definition NeedsOcr (mime_type : string) (has_text : bool) : bool :=
  if bool_decide (mime_type ∈ image_types) then true
  else bool_decide (mime_type = "application/pdf"%string) && negb has_text.
Definition InferProcessingLevel (mime_type : string) : Z :=
  if bool_decide (mime_type ∈ ["application/x-temp"; "application/x-executable"; "font/ttf"]%string) then 0 else 3.
End SPCRouter.

(** ** One document (document_processor.cpp) *)

Module DocumentProcessor.
Import Parser.

(** What a thread works on: the shared table and the file system, with the number
    of calls it has made on the table. *)
Record Sys := MkSys { db : TaskManager; files : Files; calls : nat }.

(** While a task is parsed the progress that the callback accumulates is state, too. *)
Definition Progress : Type := Sys * TaskInfo.

(** The task handed to the ingestion pipeline. *)
Record SPCTask := MkSPCTask {
  st_doc_id : string; st_namespace_name : string; st_source_path : string; st_source_type : string;
  st_content_hash : string; st_mime_type : string; st_processing_level : Z; st_file_size : Z;
  st_metadata_json : string
}.

(** What [ProcessParsedDoc] leaves: the return code and the error fields of the task. *)
Record SPCOutcome := MkSPCOutcome { rc : Z; spc_error_code : string; spc_error_message : string }.

Section Processor.
Context `{JsonInts, Paths, OrderBy, Nlohmann, StdSort}.
Context (others : nat -> TaskManager -> TaskManager) (clock : nat -> Z).

(** One call on the table. *)
Definition tab {A} (f : Z -> TaskManager -> A * TaskManager) : M Sys exn A := fun s =>
  let '(a, m) := f (clock (calls s)) (others (calls s) (db s)) in
  (Done a, MkSys m (files s) (S (calls s))).

(** A call of the finalizer: a call on the table and, perhaps, the release. *)
Definition finalize (f : Z -> (TaskManager -> TaskManager) -> TaskManager -> Files -> Status * TaskManager * Files)
    : M Sys exn Status := fun s =>
  let '(st, m, fs) := f (clock (calls s)) (others (S (calls s))) (others (calls s) (db s)) (files s) in
  (Done st, MkSys m fs (S (S (calls s)))).

Record DocumentProcessor := MkDocumentProcessor {
  factory_ : DocumentParserFactory (S := Progress);
  async_max_pages : option Z; (* the configured value *)
  custom_cancel_checker : option (string -> M Sys exn bool);
  spc_mgr_ : option (ParsedDoc -> SPCTask -> outcome exn SPCOutcome);
  managed_input_dir : string
}.

Definition kDefaultAsyncMaxPages : Z := 2000.
Definition AsyncMaxPages (p : DocumentProcessor) : Z := default kDefaultAsyncMaxPages (async_max_pages p).

(** The persisted flag, unless another way to poll was given. *)
Definition cancel_checker_ (p : DocumentProcessor) (id : string) : M Sys exn bool :=
  match custom_cancel_checker p with
  | Some check => check id
  | None =>
      mbind (tab (fun _ => GetTask id)) (fun t =>
        mret (match t with Value t => cancel_requested t | Error _ => false end))
  end.

(** Progress in percent: a parameter, the bits of the float. *)
Context (percent : Z -> Z -> Z).

(** The file system's [file_size], and what the factory needs. *)
Context (file_size : string -> option Z) (stat : string -> option Z).
Definition FileSizeOrZero (path : string) : Z :=
  if bool_decide (path = ""%string) then 0 else default 0 (file_size path).

(** A program on the system alone, run while parsing. *)
Definition lift {A} (m : M Sys exn A) : M Progress exn A := fun s =>
  let '(r, sys) := m s.1 in (r, (sys, s.2)).

Definition OnPageProgress (p : DocumentProcessor) (page total : Z) (ok : bool) : M Progress exn unit := fun s =>
  mbind (lift (cancel_checker_ p (task_id s.2))) (fun cancelled s =>
    if (cancelled : bool) then (Raised (CancellationException (task_id s.2)), s) else
    let prog := s.2 in
    let prog := prog <| processed_pages := page |> <| total_pages := total |> in
    let prog := if ok then prog else prog <| TaskManager.failed_pages := TaskManager.failed_pages prog ++ [page] |> in
    let prog := prog <| progress_pct := if 0 <? total then percent page total else zero_percent |>
                     <| eta_seconds := -1 |> in
    mbind (lift (tab (fun now => UpdateProgress now prog))) (fun _ => mret tt) (s.1, prog)) s.

(** The accumulator at the start of a task. *)
Definition initial_progress (task : TaskInfo) : TaskInfo :=
  task <| current_phase := "parsing"%string |> <| TaskManager.failed_pages := [] |>.

(** The name that the document is listed under. *)
Definition display_name (task : TaskInfo) : string :=
  if bool_decide (filename task = ""%string) then filepath task else filename task.

Definition spc_task_of (task : TaskInfo) : SPCTask :=
  MkSPCTask (doc_id task) (namespace_id task) (display_name task) "file" (TaskManager.content_hash task)
    (SPCRouter.InferMimeType (display_name task)) 3 (FileSizeOrZero (filepath task)) (metadata_json task).

(** The parse; its options are the defaults with the page limit and the callback. *)
Definition parse_task (p : DocumentProcessor) (task : TaskInfo) : M Sys exn ParsedDoc := fun s =>
  let '(r, s) := ParseDocument stat (factory_ p) (filepath task)
    (default_options (AsyncMaxPages p) (Some (OnPageProgress p))) (s, initial_progress task) in
  (r, s.1).

(** [structured_data.dump()] of the two failures. *)
Definition parse_failed_data (task : TaskInfo) (result : ParsedDoc) : string :=
  json_dump (JObject [("task_id", JString (task_id task));
    ("page_number", JInt (match failed_pages result with [] => -1 | p :: _ => p end));
    ("parser_error", JString (Parser.error_msg result))]).
Definition spc_failed_data (task : TaskInfo) : string :=
  json_dump (JObject [("doc_id", JString (doc_id task))]).

Definition after_parse (p : DocumentProcessor) (task : TaskInfo) (result : ParsedDoc) : M Sys exn Status :=
  let dir := managed_input_dir p in
  if negb (doc_ok result) then
    finalize (fun now between => TaskFinalizer.Fail between now dir task
      (F42.F42ErrorCodeString F42.kParseFailed) (Parser.error_msg result) (parse_failed_data task result))
  else
  mbind (cancel_checker_ p (task_id task)) (fun cancelled =>
    if (cancelled : bool) then finalize (fun now between => TaskFinalizer.Cancel between now dir task) else
    let complete := finalize (fun now between => TaskFinalizer.Complete between now dir task (doc_id task)) in
    match spc_mgr_ p with
    | None => complete
    | Some process =>
        match process result (spc_task_of task) with
        | Raised e => mraise e
        | Done out =>
            if rc out =? 0 then complete
            else
              let code := if bool_decide (spc_error_code out = ""%string)
                          then "CX_ERR_SPC_PROCESS_FAILED"%string else spc_error_code out in
              finalize (fun now between => TaskFinalizer.Fail between now dir task code
                (spc_error_message out) (spc_failed_data task))
        end
    end).

(** Only a cancellation is caught, and only around the parse. *)
Definition ProcessTask (p : DocumentProcessor) (task : TaskInfo) : M Sys exn Status := fun s =>
  match parse_task p task s with
  | (Done result, s) => after_parse p task result s
  | (Raised (CancellationException _), s) =>
      finalize (fun now between => TaskFinalizer.Cancel between now (managed_input_dir p) task) s
  | (Raised e, s) => (Raised e, s)
  end.

End Processor.
End DocumentProcessor.

(** ** The workers (worker_pool.cpp) *)

Module WorkerPool.
Import Parser DocumentProcessor TaskScheduler.

Definition kDefaultPoolSize : Z := 2.
Definition kDefaultParserMaxConcurrent : Z := 4.

(** The configured integers, if set. *)
Record Config := MkConfig { worker_pool_size : option Z; parser_max_concurrent : option Z }.
Definition ConfiguredPoolSize (c : Config) : Z := default kDefaultPoolSize (worker_pool_size c).
Definition ParserMaxConcurrent (c : Config) : Z := default kDefaultParserMaxConcurrent (parser_max_concurrent c).

Record WorkerPool (handler : Type) := MkWorkerPool {
  handlers_ : Z -> option handler;
  workers_ : list Z; (* the ids of the running threads *)
  started_ : bool
}.
Arguments handlers_ {handler}. Arguments workers_ {handler}. Arguments started_ {handler}.
Arguments MkWorkerPool {handler}.

(** A null handler is [None]. *)
Definition RegisterHandler {handler} (type : Z) (h : option handler) (w : WorkerPool handler) : WorkerPool handler :=
  MkWorkerPool (fun t => if t =? type then h else handlers_ w t) (workers_ w) (started_ w).

Definition Start {handler} (c : Config) (w : WorkerPool handler) : Status * WorkerPool handler :=
  if started_ w then (Status_Ok, w) else
  let pool_size := ConfiguredPoolSize c in
  if ParserMaxConcurrent c <? pool_size then
    (F42.F42Status F42.kInvalidRequest "f42.worker_pool_size > f06.parser_max_concurrent", w)
  else if pool_size <? 1 then
    (F42.F42Status F42.kInvalidRequest "f42.worker_pool_size must be >= 1", w)
  else (Status_Ok, MkWorkerPool (handlers_ w) ((fun i => i + 1) <$> seqZ 0 pool_size) true).

Definition Stop {handler} (w : WorkerPool handler) : WorkerPool handler :=
  if started_ w then MkWorkerPool (handlers_ w) [] false else w.

Section Loop.
Context `{JsonInts, Paths, OrderBy}.
Context (others : nat -> TaskManager -> TaskManager) (clock : nat -> Z).

(** A handler; an exception of any kind is caught by the loop. *)
Definition ITaskHandler : Type := TaskInfo -> M Sys exn Status.

(** One turn of the loop of a worker: whether it found a task, and what is left of
    the scheduler's state and the system. *)
Definition WorkerTurn (w : WorkerPool ITaskHandler) (worker : Z) (sch : TaskScheduler) (s : Sys)
    : bool * TaskScheduler * Sys :=
  let k := calls s in
  let '(dq, sch, m) := Dequeue (fun i => others (k + i)%nat) (fun i => clock (k + i)%nat) worker sch (db s) in
  let s := MkSys m (files s) (k + 2) in
  match dq with
  | Value (Some task) =>
      let s := match handlers_ w (task_type task) with
               | Some h => (h task s).2
               | None => s
               end in
      (true, OnTaskCompleted (namespace_id task) (doc_id task) sch, s)
  | _ => (false, sch, s)
  end.
End Loop.
End WorkerPool.

(** ** Submission, progress, cancellation (document_task_handler.cpp) *)

Module DocumentTaskHandler.
Import TaskScheduler.

(** The replies, by their bodies; [Failure] is the error envelope with the keys of
    its context. *)
Inductive Body :=
| Failure (e : AgentFriendlyError json)
| SyncRequired (threshold_pages : Z)
| Submitted (task_id : string) (eta_seconds : Z) (accepted_at : string)
| ProgressBody (t : TaskInfo) (doc_id trace_id error_code error_msg : option string)
    (structured_data : option json) (hint : string) (retryable_if_fail : bool)
| CancelAccepted (task_id current_status : string) (estimated_seconds : Z).

Record HttpResult := MkHttpResult { reply_status : Z; body : Body }.

Definition ErrorResult (code : F42.F42ErrorCode) (structured_data : json) (message : string) : HttpResult :=
  MkHttpResult (F42.F42ErrorHttpStatus code) (Failure (F42.MakeF42Error code structured_data message)).

Record SubmitParams := MkSubmitParams {
  sp_namespace_id : string; sp_filename : string; sp_filepath : string; sp_doc_id : string;
  sp_content_hash : string; sp_trace_id : string; sp_page_count : Z; async_overflow : bool
}.

Record Config := MkConfig { async_threshold_pages : option Z; async_max_pages : option Z }.
Definition kDefaultAsyncThresholdPages : Z := 200.
Definition kDefaultAsyncMaxPages : Z := 2000.
Definition AsyncThresholdPages (c : Config) : Z := default kDefaultAsyncThresholdPages (async_threshold_pages c).
Definition AsyncMaxPages (c : Config) : Z := default kDefaultAsyncMaxPages (async_max_pages c).

Definition kTaskDocParse : Z := 1.

Section Handler.
Context `{JsonInts, Paths, OrderBy, Nlohmann}.
Context (draw : nat -> Z).
Context (others : nat -> TaskManager -> TaskManager) (clock : nat -> Z).

Definition null_if_empty (s : string) : option string := nullable s.

Definition BuildProgressBody (task : TaskInfo) : Body :=
  let failed := bool_decide (status task = kFailed) in
  let hint :=
    (if bool_decide (status task = kQueued) || bool_decide (status task = kProcessing) then "poll_again_in_5s"
     else if bool_decide (status task = kCompleted) then "done_fetch_doc"
     else if bool_decide (status task = kCancelling) then "cancel_in_progress_poll"
     else if bool_decide (status task = kCancelled) then "cancelled_stop"
     else "inspect_error_code")%string in
  ProgressBody task (null_if_empty (doc_id task)) (null_if_empty (trace_id task))
    (if failed then null_if_empty (error_code task) else None)
    (if failed then null_if_empty (error_msg task) else None)
    (if failed && negb (bool_decide (structured_data task = ""%string)) then json_parse (structured_data task) else None)
    hint (negb (failed && bool_decide (error_code task = "CX_ERR_DOC_DELETED"%string))).

Definition max_pages_context (max_pages actual : Z) (overflow : bool) : json :=
  JObject [("max_pages", JInt max_pages); ("actual_pages", JInt actual); ("async_overflow", JBool overflow)].

Definition request_of (p : SubmitParams) : SubmitRequest :=
  MkSubmitRequest (sp_namespace_id p) (sp_filename p) (sp_filepath p) (sp_doc_id p) (sp_content_hash p)
    (sp_trace_id p) "" (sp_page_count p) kTaskDocParse.

Definition SubmitAsync (c : Config) (sch : TaskScheduler) (p : SubmitParams) (m : TaskManager) (fs : Files)
    : HttpResult * TaskManager * Files :=
  if bool_decide (sp_namespace_id p = ""%string) || bool_decide (sp_filepath p = ""%string)
     || bool_decide (sp_filename p = ""%string) then
    (ErrorResult F42.kInvalidRequest
       (JObject [("rules_violated"%string,
                  JArray [JString "namespace_id, filename and filepath are required"])])
       "missing required submission fields", m, fs)
  else
  let threshold := AsyncThresholdPages c in
  let hard_cap := AsyncMaxPages c in
  if hard_cap <? sp_page_count p then
    (ErrorResult F42.kMaxPagesExceeded (max_pages_context hard_cap (sp_page_count p) (async_overflow p))
       "document exceeds the maximum page limit", m, fs)
  else if sp_page_count p <=? threshold then (MkHttpResult 200 (SyncRequired threshold), m, fs)
  else if negb (async_overflow p) then
    (ErrorResult F42.kMaxPagesExceeded (max_pages_context threshold (sp_page_count p) (async_overflow p))
       "document exceeds the synchronous page threshold", m, fs)
  else
    let '(enq, m, fs) := Enqueue draw others clock sch (request_of p) m fs in
    (match enq with
     | Error e => ErrorResult F42.kServiceUnavailable (JObject [("component", JString "tasks_db")])%string
                    (status_message e)
     | Value (t, _) => MkHttpResult 202 (Submitted (task_id t) (eta_seconds t) (created_at t))
     end, m, fs).

Definition GetProgress (id : string) (m : TaskManager) : HttpResult * TaskManager :=
  let '(got, m) := GetTask id (others 0%nat m) in
  (match got with
   | Error _ => ErrorResult F42.kTaskNotFound (JObject []) ("no such task: " +:+ id)
   | Value t => MkHttpResult 200 (BuildProgressBody t)
   end, m).

Definition CancelTask (dir id : string) (m : TaskManager) (fs : Files) : HttpResult * TaskManager * Files :=
  let '(r, m) := RequestCancel (clock 0) id (others 0%nat m) in
  match r with
  | Value out =>
      let '(m, fs) :=
        if bool_decide (status out = kCancelled)
        then let '(_, m, fs) := ReleaseManagedInput dir out (others 1%nat m) fs in (m, fs)
        else (m, fs) in
      (MkHttpResult 200 (CancelAccepted id (status out) (if bool_decide (status out = kCancelling) then 5 else 0)),
       m, fs)
  | Error s =>
      if bool_decide (status_code s = kNotFound) then
        (ErrorResult F42.kTaskNotFound (JObject []) ("no such task: " +:+ id), m, fs)
      else
        let '(got, m) := GetTask id (others 1%nat m) in
        let cur := match got with Value t => status t | Error _ => ""%string end in
        (ErrorResult F42.kTaskCancelling
           (JObject [("task_id", JString id); ("current_status", JString cur)])%string
           "task is already cancelling or terminal", m, fs)
  end.

End Handler.
End DocumentTaskHandler.
