(* ===== verification/TaskForward.v ===== *)
(** * Tables on which tasks move forward

    When SQLite does not fail, every call on the task table but the requeue of a
    start and the deletion of old rows keeps its rows and moves them away from
    the queue and towards an end; a cancel flag is only seen on a task whose
    cancellation was accepted. *)
From Stdlib Require Import Ascii String.
From S2P Require Import Prelude Status Iso8601 F42Error Ulid TaskManager TaskManagerTheory TaskScheduler TaskSchedulerTheory TaskOutcomes.
Import TaskManager ManagedInput.

(** ** Tables on which a task only moves forward *)

(** Past the point where a cancellation was accepted. *)
Definition past_cancel (s : string) : bool := bool_decide (s ∈ [kCancelling; kCompleted; kFailed; kCancelled]).

(** The flag is only set together with the status. *)
Definition flag_row (r : Row) : Prop := c_cancel_requested r <> 0 -> past_cancel (c_status r) = true.
Definition flag_ok (m : TaskManager) : Prop := Forall flag_row (tasks m).

Definition advance (s s' : string) : Prop :=
  (s <> kQueued -> s' <> kQueued) /\ (past_cancel s = true -> past_cancel s' = true)
  /\ (terminal s = true -> terminal s' = true).

#[export] Instance advance_preorder : PreOrder advance.
Proof. split; [by intros s|]. intros s1 s2 s3 (A1 & B1 & C1) (A2 & B2 & C2). repeat split; auto. Qed.

Record healthy (m : TaskManager) : Prop := {
  healthy_quiet : quiet m;
  healthy_wf : wf m;
  healthy_flag : flag_ok m
}.

(** What a step of the table may do when SQLite does not fail. *)
Definition forward (m m' : TaskManager) : Prop :=
  healthy m -> healthy m' /\
  forall id s, status_of id m = Some s -> exists s', status_of id m' = Some s' /\ advance s s'.

Lemma forward_refl m : forward m m.
Proof. intros Hm. split; [done|]. intros id s Hs. by exists s. Qed.

Lemma forward_trans m1 m2 m3 : forward m1 m2 -> forward m2 m3 -> forward m1 m3.
Proof.
  intros F1 F2 H1. destruct (F1 H1) as [H2 S1]. destruct (F2 H2) as [H3 S2]. split; [done|].
  intros id s Hs. destruct (S1 id s Hs) as (s2 & Hs2 & A1). destruct (S2 id s2 Hs2) as (s3 & Hs3 & A2).
  exists s3. split; [done|]. by etransitivity.
Qed.

Definition row_forward (r r' : Row) : Prop :=
  c_task_id r' = c_task_id r /\ advance (c_status r) (c_status r') /\ flag_row r'
  /\ status_check (c_status r') = true.

Lemma update_forward w set m :
  (forall r, c_task_id (set r) = c_task_id r) ->
  (forall r, r ∈ tasks m -> status_check (c_status r) = true -> flag_row r -> w r = true -> row_forward r (set r)) ->
  forward m (update w set m).2.
Proof.
  intros Hid Hset [Hq Hwf Hf]. destruct (quiet_update_find w set m Hq Hid) as (Q & K & F).
  assert (tasks (update w set m).2 = (fun r => if w r then set r else r) <$> tasks m) as Et.
  { unfold update. by rewrite quiet_next. }
  unfold flag_ok in Hf. rewrite Forall_forall in Hf.
  pose proof (wf_status _ Hwf) as Hs. rewrite Forall_forall in Hs. split; [split; [done|split|]|].
  - rewrite K. apply Hwf.
  - rewrite Et. apply Forall_fmap, Forall_forall. intros r Hr. simpl.
    destruct (w r) eqn:W; [|by apply Hs]. by apply Hset; [|apply Hs|apply Hf|].
  - unfold flag_ok. rewrite Et. apply Forall_fmap, Forall_forall. intros r Hr. simpl.
    destruct (w r) eqn:W; [|by apply Hf]. by apply Hset; [|apply Hs|apply Hf|].
  - intros id s Hst. unfold status_of in *. rewrite F. apply fmap_Some in Hst as (r & Hr & ->). rewrite Hr.
    eexists. split; [done|]. apply find_row_Some in Hr as [Hr _]. destruct (w r) eqn:W; [|done].
    by apply Hset; [|apply Hs|apply Hf|].
Qed.

Lemma insert_forward r m : flag_row r -> forward m (insert_row r m).2.
Proof.
  intros Hr [Hq Hwf Hf]. destruct (insert_step r m) as [S K]. destruct (S Hwf) as [Hwf' _].
  assert (quiet (insert_row r m).2 /\ flag_ok (insert_row r m).2) as [Q F].
  { unfold insert_row. rewrite quiet_next by done. case_match; [done|]. split; [done|].
    unfold flag_ok. simpl. apply Forall_app. by repeat constructor. }
  split; [done|]. intros id s Hs. unfold status_of in *.
  assert (exists x, find_row id (tasks m) = Some x /\ s = c_status x) as (x & Hx & ->)
    by (apply fmap_Some in Hs as (x & ? & ?); eauto).
  exists (c_status x). split; [|done]. unfold insert_row. rewrite quiet_next by done.
  case_match; simpl; [by rewrite Hx|]. by rewrite find_row_snoc, Hx.
Qed.

Section Forward.
Context `{JsonInts, Paths, OrderBy}.
Context (draw : nat -> Z).

(** What other threads do while a task is processed: any call but the requeue of a
    start and the deletion of old rows; new tasks come without a cancel flag. *)
Definition fair_op (o : op) : bool :=
  match o with
  | OpRequeueStale _ _ _ | OpDeleteExpired _ _ => false
  | OpCreateTask _ t => negb (cancel_requested t)
  | _ => true
  end.

(** The WHERE clause pins the status, the SET clause says the rest. *)
Ltac row_forward_step :=
  intros row0 Hin Hck Hfl Hwh; unfold row_forward, advance, flag_row, past_cancel, terminal in *;
  repeat (apply andb_true_iff in Hwh as [Hwh ?]);
  repeat match goal with
  | E : status_in _ _ = true |- _ =>
      apply status_in_true in E; repeat apply elem_of_cons in E as [E|E]; [..|by apply elem_of_nil in E]
  end;
  cbn [c_task_id c_status c_cancel_requested set_field Row_eta eta] in *;
  repeat match goal with E : c_status _ = _ |- _ => rewrite ?E in *; clear E end;
  split_and!; try done; intros; try done; auto.

Lemma quiet_probe id m : quiet m -> (probe id m).2 = m.
Proof. intros Hq. unfold probe. by rewrite quiet_select. Qed.
Lemma quiet_Rejected id target m : quiet m -> (RejectedTransitionStatus id target m).2 = m.
Proof. intros Hq. unfold RejectedTransitionStatus. by rewrite quiet_select. Qed.
Lemma quiet_GetTask id m : quiet m -> (GetTask id m).2 = m.
Proof. intros Hq. unfold GetTask. rewrite quiet_select by done. by case_match. Qed.

Lemma quiet_scan_one what w m : quiet m -> (scan_one what w m).2 = m.
Proof. intros Hq. unfold scan_one. rewrite quiet_select by done. by case_match. Qed.

Lemma quiet_ReleaseInput {S} path exclude (release : option (S -> bool * S)) m s : quiet m ->
  (ReleaseInputIfUnreferenced path exclude release m s).1.2 = m.
Proof.
  intros Hq. unfold ReleaseInputIfUnreferenced. destruct release as [release|]; [|done]. case_match; [done|].
  destruct (scan_one _ (references _ _) m) as [r1 m1] eqn:E1. pose proof (f_equal snd E1) as Em1.
  rewrite quiet_scan_one in Em1 by done. simpl in Em1. subst m1. destruct r1 as [[]|]; [done| |done].
  destruct (scan_one _ (unresolved _) m) as [r2 m2] eqn:E2. pose proof (f_equal snd E2) as Em2.
  rewrite quiet_scan_one in Em2 by done. simpl in Em2. subst m2. destruct r2 as [[]|]; [done| |done]. by destruct (release s).
Qed.

Lemma update_reads_forward m m1 m2 : forward m m1 -> (quiet m1 -> m2 = m1) -> forward m m2.
Proof. intros F E Hm. destruct (F Hm) as [Hm1 HS]. by rewrite (E (healthy_quiet _ Hm1)). Qed.

Ltac fw_update :=
  match goal with
  | |- context [update ?w ?set ?m0] =>
      let F := fresh "F" in
      assert (forward m0 (update w set m0).2) as F by (apply update_forward; [done|row_forward_step]);
      destruct (update w set m0) as [[| |n] m1]; cbn [snd] in *; [exact F|exact F|]
  end.

Lemma transition_forward what id from target set m :
  (forall r, c_task_id (set r) = c_task_id r) ->
  (forall r, r ∈ tasks m -> status_check (c_status r) = true -> flag_row r -> has_id id r && status_in from r = true ->
     row_forward r (set r)) ->
  forward m (transition what id from target set m).2.
Proof.
  intros Hid Hset. pose proof (update_forward _ set m Hid Hset) as F. unfold transition.
  destruct (update _ _ m) as [[| |n] m1]; [exact F..|]. destruct (n =? 0); [|exact F].
  eapply update_reads_forward; [exact F|]. apply quiet_Rejected.
Qed.

Lemma RequestCancel_forward now id m : forward m (RequestCancel now id m).2.
Proof.
  intros Hm. revert Hm. assert (quiet m \/ ~ quiet m) as [Hq|Hq] by (unfold quiet; destruct (outcomes m); auto);
    [|by intros []].
  unfold RequestCancel. rewrite quiet_select by done. case_match eqn:Er; [apply forward_refl|].
  intros Hm. pose proof (healthy_wf _ Hm) as Hwf. rewrite rows_where_has_id in Er by apply Hwf.
  assert (forall x, x ∈ tasks m -> has_id id x = true -> x = r) as Huniq.
  { intros x Hx Ex%has_id_true. rewrite (find_row_elem id _ x (wf_keys _ Hwf) Hx Ex) in Er.
    by injection Er as ->. }
  assert (forall set st, past_cancel st = true -> status_check st = true ->
    (terminal (c_status r) = true -> terminal st = true) ->
    (forall x, c_task_id (set x) = c_task_id x /\ c_status (set x) = st) ->
    forward m (update (has_id id) set m).2) as Hup.
  { intros set st Hp Hc Ht Hset. apply update_forward; [by intros; apply Hset|].
    intros x Hx _ _ Ex. rewrite (Huniq x Hx Ex). destruct (Hset r) as [Hi Hst].
    split_and!; [done| |by unfold flag_row; rewrite Hst|by rewrite Hst]. rewrite Hst.
    split_and!; try done. intros _ ->. done. }
  revert Hm. cbn [status ReadRow]. case_bool_decide as C1; [|case_bool_decide as C2; [|apply forward_refl]].
  - rewrite bool_decide_true by done.
    pose proof (Hup (fun r => r <| c_cancel_requested := 1 |> <| c_status := kCancelled |>
      <| c_updated_at := NowIso8601 now |> <| c_completed_at := Some (NowIso8601 now) |>) kCancelled
      eq_refl eq_refl ltac:(done) ltac:(done)) as F.
    by destruct (update _ _ m) as [[] ?].
  - rewrite bool_decide_false by done.
    pose proof (Hup (fun r => r <| c_cancel_requested := 1 |> <| c_status := kCancelling |>
      <| c_updated_at := NowIso8601 now |>) kCancelling
      eq_refl eq_refl ltac:(by rewrite C2) ltac:(done)) as F.
    by destruct (update _ _ m) as [[] ?].
Qed.

Lemma run_op_forward o m : fair_op o = true -> forward m (run_op draw o m).
Proof.
  intros Ho. destruct o; try discriminate Ho; cbn [run_op];
    unfold UpdateProgress, MarkProcessing, TryClaimDebounceMerge, DebounceUpdate, SweepZombies,
    SweepTimedOut; rewrite ?sweep_result_m.
  - unfold CreateTask. case_bool_decide.
    all: try (destruct (Ulid.GenerateUlid _ _ _) as [codes g]).
    all: match goal with |- context [insert_row ?r ?m0] =>
      assert (forward m0 (insert_row r m0).2) as F end.
    1,3: apply insert_forward; intros C; exfalso; apply C; simpl in *; apply negb_true_iff in Ho;
      cbn [cancel_requested set_field TaskInfo_eta eta]; by rewrite Ho.
    all: match goal with |- context [insert_row ?r ?m0] =>
      assert (forward m m0) as F0 by (intros [? [? ?] ?]; split; [by split|intros ? s ?; by exists s]);
      destruct (insert_row r m0) as [[] m1]; by eapply forward_trans end.
  - eapply update_reads_forward; [apply forward_refl|]. apply quiet_GetTask.
  - fw_update. by destruct (n =? 0).
  - unfold ListByNamespace. eapply update_reads_forward; [apply forward_refl|]. intros Hq. by rewrite quiet_select.
  - fw_update. destruct (n =? 0); [|done]. eapply update_reads_forward; [exact F|].
    intros Hq. pose proof (quiet_probe id m1 Hq). by destruct (probe id m1).
  - apply transition_forward; [done|row_forward_step].
  - apply transition_forward; [done|row_forward_step].
  - apply transition_forward; [done|row_forward_step].
  - apply RequestCancel_forward.
  - unfold FindRecentTaskByDocId. case_match; [apply forward_refl|].
    eapply update_reads_forward; [apply forward_refl|]. intros Hq. by rewrite quiet_select.
  - unfold HasActiveTask. eapply update_reads_forward; [apply forward_refl|]. intros Hq.
    rewrite quiet_select by done. by repeat case_match.
  - fw_update. destruct (n =? 0); (eapply update_reads_forward; [exact F|]); intros Hq.
    + pose proof (quiet_probe id m1 Hq). by destruct (probe id m1).
    + rewrite quiet_select by done. by case_match.
  - fw_update. destruct (n =? 0); [|done]. eapply update_reads_forward; [exact F|].
    intros Hq. pose proof (quiet_probe id m1 Hq). by destruct (probe id m1).
  - unfold SelectOldestQueuedTaskExcluding. eapply update_reads_forward; [apply forward_refl|]. intros Hq.
    by rewrite quiet_select.
  - apply update_forward; [done|row_forward_step].
  - apply update_forward; [done|row_forward_step].
  - eapply update_reads_forward; [apply forward_refl|]. intros Hq.
    by apply quiet_ReleaseInput.
  - unfold LiveTaskInputs. eapply update_reads_forward; [apply forward_refl|]. intros Hq.
    by rewrite quiet_select.
  - unfold CountAll. eapply update_reads_forward; [apply forward_refl|]. intros Hq.
    by rewrite quiet_next.
Qed.

Lemma run_ops_forward os m : Forall (fun o => fair_op o = true) os -> forward m (run_ops draw os m).
Proof.
  revert m. induction os as [|o os IH]; intros m Hos; [apply forward_refl|].
  apply Forall_cons in Hos as [Ho Hos]. eapply forward_trans; [by apply run_op_forward|]. by apply IH.
Qed.
End Forward.

