(* ===== verification/DocumentProcessorTheory.v ===== *)
(** * What processing a task comes to

    Specifications of the parsers, of the finalizer, of the processing of one
    task, of a worker's turn and of a cancellation, for other threads that move
    the table forward. *)
From Stdlib Require Import Ascii String.
From S2P Require Import Prelude Status Iso8601 F42Error Ulid TaskManager TaskManagerTheory TaskScheduler TaskSchedulerTheory TaskOutcomes TaskForward CppStd DocumentParser DocumentProcessor.
Import TaskManager ManagedInput Parser DocumentProcessor.

(** ** Parsers that act on the caller's state only through the callback *)

Definition well_behaved {S} (p : IDocumentParser S) : Prop :=
  forall path opts (I : S -> Prop) (R : exn -> S -> Prop),
    (forall cb page total ok, on_page_progress opts = Some cb -> spec I (cb page total ok) (fun _ => I) R) ->
    (forall s, I s -> R type_error s) ->
    spec I (Parse p path opts) (fun _ => I) R.

Section WellBehaved.
Context `{Nlohmann, StdSort} {S : Type}.
Context (run : list string -> Z -> Z -> SubprocessResult) (stat : string -> option Z).

Lemma DrivePageProgress_spec doc (opts : ParserOptions S) I R :
  (forall cb page total ok, on_page_progress opts = Some cb -> spec I (cb page total ok) (fun _ => I) R) ->
  spec I (DrivePageProgress doc opts) (fun _ => I) R.
Proof.
  intros Hcb. unfold DrivePageProgress. destruct (on_page_progress opts) as [cb|]; [|by apply spec_ret].
  case_match; [by apply spec_ret|]. apply spec_for. intros x _. by apply Hcb.
Qed.

Lemma finish_spec payload path name (opts : ParserOptions S) I R :
  (forall cb page total ok, on_page_progress opts = Some cb -> spec I (cb page total ok) (fun _ => I) R) ->
  (forall s, I s -> R type_error s) ->
  spec I (finish payload path name opts) (fun _ => I) R.
Proof.
  intros Hcb Ht. unfold finish. case_match; [|by apply spec_raise].
  eapply spec_bind; [by apply DrivePageProgress_spec|]. intros ?. by apply spec_ret.
Qed.

Lemma Docling_well_behaved c : well_behaved (MkParser "docling" (DoclingParse (S := S) run c)).
Proof.
  intros path opts I R Hcb Ht. simpl. unfold DoclingParse. do 4 (case_match; [by apply spec_ret|]).
  by apply finish_spec.
Qed.

Lemma Paddle_well_behaved c : well_behaved (MkParser "paddleocr" (PaddleParse (S := S) run c)).
Proof.
  intros path opts I R Hcb Ht. simpl. unfold PaddleParse. do 5 (case_match; [by apply spec_ret|]).
  by apply finish_spec.
Qed.

Lemma ParseDocument_spec (f : DocumentParserFactory (S := S)) path opts I R :
  (forall q, primary_ f = Some q \/ fallback_ f = Some q -> well_behaved q) ->
  (forall cb page total ok, on_page_progress opts = Some cb -> spec I (cb page total ok) (fun _ => I) R) ->
  (forall s, I s -> R type_error s) ->
  spec I (ParseDocument stat f path opts) (fun _ => I) R.
Proof.
  intros Hq Hcb Ht. unfold ParseDocument. case_match; [|by apply spec_ret].
  do 2 (case_match; [by apply spec_ret|]).
  destruct (SelectPrimary _ _) as [primary|] eqn:Ep; [|by apply spec_ret].
  assert (well_behaved primary) as Hp by (apply Hq; unfold SelectPrimary in Ep; destruct (IsImageExt _); auto).
  eapply spec_bind; [by apply Hp|]. intros result.
  destruct (fallback_for _ _ _) as [fallback|] eqn:Ef; [|by apply spec_ret].
  assert (well_behaved fallback) as Hf by (apply Hq; unfold fallback_for in Ef; by destruct (_ && _ && _); auto).
  case_match; [|by apply spec_ret].
  eapply spec_bind; [by apply Hf|]. intros ocr.
  repeat (case_match; try by apply spec_ret).
Qed.
End WellBehaved.

(** ** One task *)

(** Where the row of a task is: dispatched, past an accepted cancellation, over. *)
Definition at_ (P : string -> Prop) (id : string) (m : TaskManager) : Prop :=
  healthy m /\ exists s, status_of id m = Some s /\ P s.
Abbreviation dispatched := (at_ (fun s => s <> kQueued)).
Abbreviation cancelled_for := (at_ (fun s => past_cancel s = true)).
Abbreviation ended := (at_ (fun s => terminal s = true)).

(** What [advance] keeps. *)
Definition kept (P : string -> Prop) : Prop := forall s s', advance s s' -> P s -> P s'.
Lemma kept_dispatched : kept (fun s => s <> kQueued).
Proof. intros s s' (A & _ & _). auto. Qed.
Lemma kept_cancelled : kept (fun s => past_cancel s = true).
Proof. intros s s' (_ & B & _). auto. Qed.
Lemma kept_terminal : kept (fun s => terminal s = true).
Proof. intros s s' (_ & _ & C). auto. Qed.
#[local] Hint Resolve kept_dispatched kept_cancelled kept_terminal : core.

Lemma at_forward P id m m' : kept P -> at_ P id m -> forward m m' -> at_ P id m'.
Proof.
  intros Hk [Hm (s & Hs & HP)] F. destruct (F Hm) as [Hm' St]. split; [done|].
  destruct (St id s Hs) as (s' & Hs' & A). exists s'. split; [done|]. by eapply Hk.
Qed.

Lemma tasks_at P id m m' : tasks m' = tasks m -> quiet m' -> at_ P id m -> at_ P id m'.
Proof.
  intros E Q [[? [? ?] ?] (s & Hs & HP)]. split; [split; [done|split; by rewrite E|unfold flag_ok; by rewrite E]|].
  exists s. split; [|done]. unfold status_of in *. by rewrite E.
Qed.

Section Tasks.
Context `{JsonInts, Paths, OrderBy, Nlohmann, StdSort}.

(** A terminal transition that accepts the row's status ends the task. *)
Lemma transition_ends what id from target to set m :
  healthy m -> forward m (transition what id from target set m).2 ->
  (forall r, c_task_id (set r) = c_task_id r /\ c_status (set r) = to) -> terminal to = true ->
  (exists s, status_of id m = Some s /\ (s ∈ from \/ terminal s = true)) ->
  ended id (transition what id from target set m).2.
Proof.
  intros Hm F Hset Ht (s & Hs & Hc). split; [by apply F|].
  pose proof (transition_decides what id from target to set m (healthy_quiet _ Hm) (healthy_wf _ Hm) Hset) as D.
  destruct (transition _ _ _ _ _ m) as [st m']. unfold decides in D. rewrite Hs in D. simpl.
  destruct (decide (s ∈ from)) as [Hin|Hin].
  - destruct D as (_ & D & _). eauto.
  - destruct D as [_ D]. exists s. split; [unfold status_of in *; by rewrite D|]. by destruct Hc.
Qed.

Lemma status_cases m id s : wf m -> status_of id m = Some s -> status_check s = true.
Proof.
  intros Hwf Hs. unfold status_of in Hs. apply fmap_Some in Hs as (r & Hr & ->).
  apply find_row_Some in Hr as [Hr _]. pose proof (wf_status _ Hwf) as Hc. rewrite Forall_forall in Hc. auto.
Qed.

Lemma dispatched_cases s : status_check s = true -> s <> kQueued ->
  s ∈ [kProcessing; kCancelling] \/ terminal s = true.
Proof.
  unfold status_check, terminal. rewrite bool_decide_eq_true. intros Hs Hn.
  repeat (apply elem_of_cons in Hs as [->|Hs]); [done|left; set_solver|left; set_solver|right; by vm_compute..|].
  by apply elem_of_nil in Hs.
Qed.

Lemma cancelled_cases s : past_cancel s = true -> s ∈ [kQueued; kCancelling] \/ terminal s = true.
Proof.
  unfold past_cancel, terminal. rewrite bool_decide_eq_true. intros Hs.
  repeat (apply elem_of_cons in Hs as [->|Hs]); [left; set_solver|right; by vm_compute..|].
  by apply elem_of_nil in Hs.
Qed.

Lemma MarkCompleted_ends now id doc m : dispatched id m -> ended id (MarkCompleted now id doc m).2.
Proof.
  intros [Hm (s & Hs & Hn)]. apply (transition_ends _ _ _ _ kCompleted); [done| |done|done|].
  - apply (run_op_forward no_draws (OpMarkCompleted now id doc)). done.
  - exists s. split; [done|]. apply dispatched_cases; [|done]. eapply status_cases; [apply Hm|exact Hs].
Qed.
Lemma MarkFailed_ends now id code msg data m : dispatched id m -> ended id (MarkFailed now id code msg data m).2.
Proof.
  intros [Hm (s & Hs & Hn)]. apply (transition_ends _ _ _ _ kFailed); [done| |done|done|].
  - apply (run_op_forward no_draws (OpMarkFailed now id code msg data)). done.
  - exists s. split; [done|]. apply dispatched_cases; [|done]. eapply status_cases; [apply Hm|exact Hs].
Qed.
Lemma MarkCancelled_ends now id m : cancelled_for id m -> ended id (MarkCancelled now id m).2.
Proof.
  intros [Hm (s & Hs & Hn)]. apply (transition_ends _ _ _ _ kCancelled); [done| |done|done|].
  - apply (run_op_forward no_draws (OpMarkCancelled now id)). done.
  - exists s. split; [done|]. by apply cancelled_cases.
Qed.

(** Releasing an input does not touch the table. *)
Lemma ReleaseManagedInput_table dir task m fs : quiet m -> (ReleaseManagedInput dir task m fs).1.2 = m.
Proof.
  intros Hq. unfold ReleaseManagedInput, ReleaseManagedPath.
  destruct (_ || _); [done|]. destruct (weakly_canonical dir); [|done].
  destruct (weakly_canonical (filepath task)) as [path|]; [|done]. destruct (negb _); [done|].
  pose proof (quiet_ReleaseInput path (task_id task) (Some (remove path)) m fs Hq) as E.
  by destruct (ReleaseInputIfUnreferenced _ _ _ _ _) as [[? ?] ?].
Qed.

(** The steps of the finalizer, between which other threads run. *)
Lemma release_if_ended st dir task id between m fs :
  (forall x, forward x (between x)) -> ended id m ->
  ended id (TaskFinalizer.release_if between st dir task m fs).1.
Proof.
  intros Hb Hm. unfold TaskFinalizer.release_if. case_match; [|done].
  assert (ended id (between m)) as Hm' by (by eapply at_forward).
  pose proof (ReleaseManagedInput_table dir task (between m) fs (healthy_quiet _ (proj1 Hm'))) as E.
  destruct (ReleaseManagedInput _ _ _ _) as [[? ?] ?]. simpl in *. by subst.
Qed.

Ltac finalizer_ends lem :=
  match goal with |- context [TaskFinalizer.release_if ?b ?st ?dir ?task ?m ?fs] =>
    pose proof (release_if_ended st dir task (task_id task) b m fs) as R;
    destruct (TaskFinalizer.release_if b st dir task m fs) as [m2 fs2]; apply R; [done|] end;
  match goal with E : _ = (_, ?m1) |- _ => apply (f_equal snd) in E; simpl in E; rewrite <-E; by apply lem end.

Lemma Complete_ends between now dir task doc m fs : (forall x, forward x (between x)) ->
  dispatched (task_id task) m -> ended (task_id task) (TaskFinalizer.Complete between now dir task doc m fs).1.2.
Proof.
  intros Hb Hm. unfold TaskFinalizer.Complete. destruct (MarkCompleted _ _ _ _) as [st m1] eqn:E.
  finalizer_ends MarkCompleted_ends.
Qed.
Lemma Fail_ends between now dir task code msg data m fs : (forall x, forward x (between x)) ->
  dispatched (task_id task) m -> ended (task_id task) (TaskFinalizer.Fail between now dir task code msg data m fs).1.2.
Proof.
  intros Hb Hm. unfold TaskFinalizer.Fail. destruct (MarkFailed _ _ _ _ _ _) as [st m1] eqn:E.
  finalizer_ends MarkFailed_ends.
Qed.
Lemma Cancel_ends between now dir task m fs : (forall x, forward x (between x)) ->
  cancelled_for (task_id task) m -> ended (task_id task) (TaskFinalizer.Cancel between now dir task m fs).1.2.
Proof.
  intros Hb Hm. unfold TaskFinalizer.Cancel. destruct (MarkCancelled _ _ _) as [st m1] eqn:E.
  finalizer_ends MarkCancelled_ends.
Qed.

(** ** The run of a task *)

Context (others : nat -> TaskManager -> TaskManager) (clock : nat -> Z).
Context (others_forward : forall k m, forward m (others k m)).
Context (percent : Z -> Z -> Z) (file_size stat : string -> option Z).

Definition on_db (P : TaskManager -> Prop) : Sys -> Prop := fun s => P (db s).

Lemma tab_spec {A} P id (f : Z -> TaskManager -> A * TaskManager) Q (R : exn -> Sys -> Prop) : kept P ->
  (forall now m, at_ P id m -> Q (f now m).1 (f now m).2) ->
  spec (on_db (at_ P id)) (tab others clock f) (fun a => on_db (Q a)) R.
Proof.
  intros Hk Hf s Hs. unfold tab. specialize (Hf (clock (calls s)) (others (calls s) (db s))).
  destruct (f _ _) as [a m]. apply Hf. by eapply at_forward.
Qed.

Lemma finalize_spec P Q id f (R : exn -> Sys -> Prop) : kept P ->
  (forall now between m fs, (forall x, forward x (between x)) -> at_ P id m -> Q (f now between m fs).1.2) ->
  spec (on_db (at_ P id)) (finalize others clock f) (fun _ => on_db Q) R.
Proof.
  intros Hk Hf s Hs. unfold finalize.
  specialize (Hf (clock (calls s)) (others (S (calls s))) (others (calls s) (db s)) (files s)).
  destruct (f _ _ _ _) as [[st m] fs]. apply Hf; [apply others_forward|]. by eapply at_forward.
Qed.

(** The poll: a flag that is seen is a cancellation that was accepted. *)
Lemma cancel_checker_spec p id (R : exn -> Sys -> Prop) : custom_cancel_checker p = None ->
  spec (on_db (dispatched id)) (cancel_checker_ others clock p id)
    (fun b s => if b then cancelled_for id (db s) else dispatched id (db s)) R.
Proof.
  intros Hp. unfold cancel_checker_. rewrite Hp.
  eapply spec_bind.
  - apply (tab_spec _ id _ (fun t m => match t with
      | Value t => if cancel_requested t then cancelled_for id m else dispatched id m
      | Error _ => dispatched id m end)); [done|].
    intros _ m Hm. unfold GetTask. pose proof (healthy_quiet _ (proj1 Hm)) as Hq.
    rewrite quiet_select by done. pose proof (healthy_wf _ (proj1 Hm)) as Hwf.
    rewrite rows_where_has_id by apply Hwf.
    destruct (find_row id (tasks m)) as [r|] eqn:Er; simpl; [|done].
    destruct (Z.eqb_spec (c_cancel_requested r) 0) as [|Hc]; [done|]. simpl.
    split; [apply Hm|]. exists (c_status r). split; [unfold status_of; by rewrite Er|].
    pose proof (healthy_flag _ (proj1 Hm)) as Hf. unfold flag_ok in Hf. rewrite Forall_forall in Hf.
    apply Hf; [|done]. by apply find_row_Some in Er as [? _].
  - intros [t|e]; apply spec_ret; intros s Hs; [|exact Hs]. unfold on_db in Hs. by destruct (cancel_requested t).
Qed.

Lemma lift_spec {A} P (m : M Sys exn A) Q R prog :
  spec P m Q R -> spec (fun s : Progress => P s.1 /\ s.2 = prog) (lift m)
    (fun a s => Q a s.1 /\ s.2 = prog) (fun e s => R e s.1 /\ s.2 = prog).
Proof.
  intros Hm s [Hs <-]. specialize (Hm _ Hs). unfold lift. destruct (m s.1) as [[] ?]; by split.
Qed.

Definition parsing (id : string) (s : Progress) : Prop := dispatched id (db s.1) /\ task_id s.2 = id.
Definition parse_raises (id : string) (e : exn) (s : Progress) : Prop :=
  match e with
  | CancellationException _ => cancelled_for id (db s.1)
  | type_error => dispatched id (db s.1)
  end.

Lemma OnPageProgress_spec p id page total ok : custom_cancel_checker p = None ->
  spec (parsing id) (OnPageProgress others clock percent p page total ok) (fun _ => parsing id) (parse_raises id).
Proof.
  intros Hp s [Hs Hid]. unfold OnPageProgress, mbind at 1.
  pose proof (lift_spec _ _ _ _ s.2 (cancel_checker_spec p (task_id s.2) (fun _ _ => False) Hp)) as L.
  rewrite Hid in L. specialize (L s (conj Hs eq_refl)). rewrite Hid.
  destruct (lift _ s) as [[[]|e] s1]; [| |by destruct L].
  - exact (proj1 L).
  - destruct L as [L E]. set (prog := _ <| eta_seconds := -1 |>).
    assert (task_id prog = id) as Hprog by (subst prog; cbn; rewrite <-Hid, <-E; by destruct ok).
    clearbody prog. unfold mbind.
    pose proof (lift_spec _ _ _ _ prog (tab_spec _ id (fun now => UpdateProgress now prog)
      (fun _ => dispatched id) (fun _ _ => False) kept_dispatched
      (fun now m Hm => at_forward _ _ _ _ kept_dispatched Hm
        (run_op_forward no_draws (OpUpdateProgress now prog) m eq_refl)))) as U.
    specialize (U (s1.1, prog) (conj L eq_refl)).
    destruct (lift _ (s1.1, prog)) as [[st|e] s2]; [|by destruct U]. destruct U as [U1 U2]. simpl.
    split; [exact U1|]. by rewrite U2.
Qed.

Definition parsers_ok (p : DocumentProcessor) : Prop :=
  forall q, primary_ (factory_ p) = Some q \/ fallback_ (factory_ p) = Some q -> well_behaved q.

Lemma parse_task_spec p task : custom_cancel_checker p = None -> parsers_ok p ->
  spec (on_db (dispatched (task_id task))) (parse_task others clock percent stat p task)
    (fun _ => on_db (dispatched (task_id task)))
    (fun e s => match e with
       | CancellationException _ => cancelled_for (task_id task) (db s)
       | type_error => dispatched (task_id task) (db s) end).
Proof.
  intros Hp Hq s Hs. unfold parse_task.
  pose proof (ParseDocument_spec stat (factory_ p) (filepath task)
    (default_options (AsyncMaxPages p) (Some (OnPageProgress others clock percent p)))
    (parsing (task_id task)) (parse_raises (task_id task)) Hq) as D.
  assert (parsing (task_id task) (s, initial_progress task)) as Hi by (by split).
  specialize (D ltac:(intros cb page total ok [= <-]; by apply OnPageProgress_spec) ltac:(by intros ? []) _ Hi).
  destruct (ParseDocument _ _ _ _ _) as [[doc|e] s1]; [apply D|]. by destruct e.
Qed.

Lemma after_parse_spec p task result : custom_cancel_checker p = None ->
  spec (on_db (dispatched (task_id task))) (after_parse others clock file_size p task result)
    (fun _ => on_db (ended (task_id task))) (fun _ => on_db (dispatched (task_id task))).
Proof.
  intros Hp. unfold after_parse. case_match.
  { apply finalize_spec; [done|]. intros. by apply Fail_ends. }
  eapply spec_bind; [by apply cancel_checker_spec|]. intros [].
  { apply (finalize_spec (fun s => past_cancel s = true)); [done|]. intros. by apply Cancel_ends. }
  assert (spec (on_db (dispatched (task_id task)))
    (finalize others clock (fun now between => TaskFinalizer.Complete between now (managed_input_dir p) task (doc_id task)))
    (fun _ => on_db (ended (task_id task))) (fun _ => on_db (dispatched (task_id task)))) as Hc.
  { apply finalize_spec; [done|]. intros. by apply Complete_ends. }
  case_match; [|exact Hc]. case_match; [|by apply spec_raise]. case_match; [exact Hc|].
  apply finalize_spec; [done|]. intros. by apply Fail_ends.
Qed.

Lemma ProcessTask_spec p task : custom_cancel_checker p = None -> parsers_ok p ->
  spec (on_db (dispatched (task_id task))) (ProcessTask others clock percent file_size stat p task)
    (fun _ => on_db (ended (task_id task))) (fun _ => on_db (at_ (fun s => s <> kQueued) (task_id task))).
Proof.
  intros Hp Hq s Hs. unfold ProcessTask. pose proof (parse_task_spec p task Hp Hq s Hs) as D.
  destruct (parse_task _ _ _ _ _ _ s) as [[doc|[id|]] s1].
  - by apply after_parse_spec.
  - eapply (finalize_spec (fun s => past_cancel s = true) (ended (task_id task))); [done| |exact D].
    intros. by apply Cancel_ends.
  - exact D.
Qed.

(** ** A worker's turn *)

Definition Processor (p : DocumentProcessor) : WorkerPool.ITaskHandler :=
  ProcessTask others clock percent file_size stat p.

(** A dequeue hands out a task that is being processed, with its document
    reserved, or leaves the reservations alone. *)
Lemma Dequeue_spec worker k sch m r sch' m' : healthy m ->
  TaskScheduler.Dequeue (fun i => others (k + i)%nat) (fun i => clock (k + i)%nat) worker sch m = (r, sch', m') ->
  healthy m' /\ match r with
  | Value (Some t) => dispatched (task_id t) m'
      /\ TaskScheduler.active_docs_ (TaskScheduler.OnTaskCompleted (namespace_id t) (doc_id t) sch')
         = TaskScheduler.active_docs_ sch
  | _ => TaskScheduler.active_docs_ sch' = TaskScheduler.active_docs_ sch
  end.
Proof.
  intros Hm. unfold TaskScheduler.Dequeue.
  destruct (TaskScheduler.DequeueSelect sch (others (k + 0) m)) as [[picked s1] m1] eqn:Es.
  destruct (others_forward (k + 0) m Hm) as [Hm0 _].
  unfold TaskScheduler.DequeueSelect in Es.
  destruct (SelectOldestQueuedTaskExcluding _ _) as [q m2] eqn:Esel. injection Es as -> <- ->.
  assert (healthy m1) as Hm1.
  { pose proof (run_op_forward no_draws (OpSelectOldest (elements (TaskScheduler.active_docs_ sch)))
      (others (k + 0) m) eq_refl Hm0) as [Hf _]. cbn [run_op] in Hf. by rewrite Esel in Hf. }
  destruct picked as [[t|]|]; [|by intros [= <- <- <-]..].
  apply select_oldest_spec in Esel as (_ & _ & Hfree). rewrite elem_of_elements in Hfree.
  unfold TaskScheduler.DequeueMark. destruct (others_forward (k + 1) m1 Hm1) as [Hm2 _].
  destruct (MarkProcessing _ _ _ _) as [st m3] eqn:Em.
  assert (healthy m3) as Hm3.
  { pose proof (run_op_forward no_draws (OpMarkProcessing (clock (k + 1)) (task_id t) worker)
      (others (k + 1) m1) eq_refl Hm2) as [Hf _]. cbn [run_op] in Hf. by rewrite Em in Hf. }
  pose proof (release_reserve t sch Hfree) as Ha.
  destruct (status_ok st) eqn:Hok.
  - intros [= <- <- <-]. split; [done|]. cbn [task_id set_field doc_id namespace_id].
    destruct (MarkProcessing_ok _ _ _ _ _ _ (healthy_wf _ Hm2) Em Hok) as (_ & Hp & _).
    split; [|exact Ha]. split; [done|]. by exists kProcessing.
  - destruct (F42.is_code _ st); by intros [= <- <- <-].
Qed.

Lemma WorkerTurn_spec (p : DocumentProcessor) (w : WorkerPool.WorkerPool WorkerPool.ITaskHandler)
  worker sch sch' (s s' : Sys) found :
  custom_cancel_checker p = None -> parsers_ok p ->
  (forall type, WorkerPool.handlers_ w type = Some (Processor p)) ->
  healthy (db s) ->
  WorkerPool.WorkerTurn others clock w worker sch s = (found, sch', s') ->
  TaskScheduler.active_docs_ sch' = TaskScheduler.active_docs_ sch /\
  (found = true -> exists task s1 r, Processor p task s1 = (r, s') /\
     match r with
     | Done _ => exists st, status_of (task_id task) (db s') = Some st /\ terminal st = true
     | Raised _ => exists st, status_of (task_id task) (db s') = Some st /\ st <> kQueued
     end).
Proof.
  intros Hp Hq Hw Hm. unfold WorkerPool.WorkerTurn.
  destruct (TaskScheduler.Dequeue _ _ _ _ _) as [[r sch1] m1] eqn:Ed.
  apply Dequeue_spec in Ed as [Hm1 Hr]; [|done].
  destruct r as [[task|]|]; [|by intros [= <- <- <-]..].
  rewrite Hw. intros [= <- <- <-]. destruct Hr as [Hd Ha]. split; [exact Ha|]. intros _.
  set (s1 := MkSys m1 (files s) (calls s + 2)).
  exists task, s1, (Processor p task s1).1. split; [apply surjective_pairing|].
  pose proof (ProcessTask_spec p task Hp Hq s1 Hd) as D. unfold Processor.
  destruct (ProcessTask _ _ _ _ _ _ _ s1) as [[st|e] s2]; apply D.
Qed.

(** ** Cancellation *)

Lemma RequestCancel_spec now id m : healthy m ->
  let '(r, m') := RequestCancel now id m in
  match status_of id m with
  | None => m' = m /\ exists e, r = Error e /\ status_code e = kNotFound
  | Some s =>
      if bool_decide (s ∈ [kQueued; kProcessing])
      then exists out, r = Value out /\ status out = (if bool_decide (s = kQueued) then kCancelled else kCancelling)
           /\ status_of id m' = Some (status out)
      else m' = m /\ exists e, r = Error e /\ status_code e <> kNotFound
  end.
Proof.
  intros Hm. unfold RequestCancel. rewrite quiet_select by apply Hm.
  rewrite rows_where_has_id by apply Hm. unfold status_of at 1.
  destruct (find_row id (tasks m)) as [r|] eqn:Er; simpl; [|split; [done|by eexists]].
  assert (forall set st, (forall x, c_task_id (set x) = c_task_id x /\ c_status (set x) = st) ->
    exists n m', update (has_id id) set m = (Changes n, m') /\ status_of id m' = Some st) as Hup.
  { intros set st Hset. destruct (quiet_update_find (has_id id) set m (healthy_quiet _ Hm)
      (fun x => proj1 (Hset x))) as (_ & _ & F).
    unfold update in *. rewrite quiet_next in * by apply Hm. eexists _, _. split; [done|].
    unfold status_of. cbn [snd] in F. rewrite F, Er. simpl. rewrite (find_row_has_id _ _ _ Er). simpl.
    f_equal. apply Hset. }
  case_bool_decide as C1; [|case_bool_decide as C2].
  - rewrite C1. rewrite !bool_decide_true by (done || set_solver).
    edestruct (Hup (fun r => r <| c_cancel_requested := 1 |> <| c_status := kCancelled |>
      <| c_updated_at := NowIso8601 now |> <| c_completed_at := Some (NowIso8601 now) |>) kCancelled)
      as (n & m' & -> & Hs); [done|]. eexists. split; [done|]. by split.
  - rewrite C2, (bool_decide_true (kProcessing ∈ _)) by set_solver. rewrite !bool_decide_false by done.
    edestruct (Hup (fun r => r <| c_cancel_requested := 1 |> <| c_status := kCancelling |>
      <| c_updated_at := NowIso8601 now |>) kCancelling)
      as (n & m' & -> & Hs); [done|]. eexists. split; [done|]. by split.
  - rewrite (bool_decide_false (c_status r ∈ _)) by set_solver. split; [done|]. by eexists.
Qed.

Lemma CancelTask_spec dir id m fs :
  healthy m ->
  let '(reply, m', fs') := DocumentTaskHandler.CancelTask others clock dir id m fs in
  healthy m' /\
  match status_of id (others 0%nat m) with
  | None => DocumentTaskHandler.reply_status reply = 404 /\ fs' = fs
  | Some s =>
      if bool_decide (s ∈ [kQueued; kProcessing])
      then DocumentTaskHandler.body reply =
             DocumentTaskHandler.CancelAccepted id (if bool_decide (s = kQueued) then kCancelled else kCancelling)
               (if bool_decide (s = kQueued) then 0 else 5)
           /\ DocumentTaskHandler.reply_status reply = 200
           /\ (s = kProcessing -> fs' = fs)
           /\ exists s', status_of id m' = Some s' /\ past_cancel s' = true
      else DocumentTaskHandler.reply_status reply = 423 /\ fs' = fs
           /\ exists s', status_of id m' = Some s' /\ past_cancel s' = true
  end.
Proof.
  intros Hm. unfold DocumentTaskHandler.CancelTask. destruct (others_forward 0%nat m Hm) as [Hm0 _].
  pose proof (RequestCancel_spec (clock 0) id _ Hm0) as R.
  pose proof (RequestCancel_forward (clock 0) id _ Hm0) as [Hm1 _].
  destruct (RequestCancel _ _ _) as [r m1]. simpl in Hm1.
  destruct (status_of id (others 0%nat m)) as [s|] eqn:Es.
  - case_bool_decide as Hin.
    + destruct R as (out & -> & Hout & Hs1).
      assert (cancelled_for id m1) as Hc.
      { split; [done|]. eexists. split; [exact Hs1|]. rewrite Hout. by case_bool_decide. }
      rewrite Hout. case_bool_decide as Hq.
      * rewrite bool_decide_true, bool_decide_false by done.
        assert (cancelled_for id (others 1%nat m1)) as Hc1 by (by eapply at_forward).
        pose proof (ReleaseManagedInput_table dir out (others 1%nat m1) fs (healthy_quiet _ (proj1 Hc1))) as Er.
        destruct (ReleaseManagedInput _ _ _ _) as [[b m2] fs2]. simpl in Er. subst m2.
        split; [apply Hc1|]. simpl. split_and!; [done|done|by subst|apply Hc1].
      * rewrite bool_decide_false, bool_decide_true by done. split; [done|]. split_and!; [done..|apply Hc].
    + destruct R as (-> & e & -> & He). rewrite bool_decide_false by done.
      destruct (others_forward 1%nat _ Hm0) as [Hm2 Hst].
      destruct (Hst id s Es) as (s' & Hs' & _ & Hpast & _).
      pose proof (quiet_GetTask id _ (healthy_quiet _ Hm2)) as Eg.
      destruct (GetTask id _) as [got m2]. simpl in Eg. subst m2. split; [done|]. simpl.
      split_and!; [done..|]. exists s'. split; [done|]. apply Hpast.
      pose proof (status_cases _ _ _ (healthy_wf _ Hm0) Es) as Hc. apply bool_decide_eq_true in Hc.
      unfold past_cancel. apply bool_decide_eq_true. set_solver.
  - destruct R as (-> & e & -> & He). rewrite bool_decide_true by done. done.
Qed.
End Tasks.
