(* ===== verification/DocumentOutcomes.v ===== *)
(** * Outcomes of documents

    Every task that a worker takes comes to an end, and a cancellation is answered
    by what the task was; then the runs in which the row does not tell what
    happened. *)
From Stdlib Require Import Ascii String.
From S2P Require Import Prelude Status Iso8601 F42Error Ulid TaskManager TaskManagerTheory TaskScheduler TaskSchedulerTheory TaskOutcomes TaskForward CppStd DocumentParser DocumentProcessor DocumentProcessorTheory.
Import TaskManager ManagedInput Parser DocumentProcessor.

(** ** The same, with what the other threads do as lists of calls *)

Section Claims.
Context `{JsonInts, Paths, OrderBy, Nlohmann, StdSort}.
Context (draw : nat -> Z) (clock : nat -> Z) (percent : Z -> Z -> Z) (file_size stat : string -> option Z).

(** Before the k-th call on the table the other threads make these calls. *)
Definition interleaved (script : nat -> list op) (k : nat) : TaskManager -> TaskManager := run_ops draw (script k).
Definition fair (script : nat -> list op) : Prop := forall k, Forall (fun o => fair_op o = true) (script k).

Lemma interleaved_forward script : fair script -> forall k m, forward m (interleaved script k m).
Proof. intros Hs k m. by apply run_ops_forward. Qed.


(** A cancellation is answered by what the task was at that moment.  When
    SQLite does not fail and other threads make the calls of above, the request
    is accepted exactly for a waiting or running task, which is then cancelled or
    about to be and never waiting or running again; it is refused with 404 exactly
    for an unknown task and with 423 for a task that is already being cancelled or
    is over. *)
Theorem CancelTask_decides (script : nat -> list op) (dir id : string) (m : TaskManager) (fs : Files) :
  fair script -> healthy m ->
  let '(reply, m', fs') := DocumentTaskHandler.CancelTask (interleaved script) clock dir id m fs in
  healthy m' /\
  match status_of id (interleaved script 0%nat m) with
  | None => DocumentTaskHandler.reply_status reply = 404 /\ fs' = fs
  | Some s =>
      if bool_decide (s ∈ [kQueued; kProcessing])
      then DocumentTaskHandler.body reply =
             DocumentTaskHandler.CancelAccepted id (if bool_decide (s = kQueued) then kCancelled else kCancelling)
               (if bool_decide (s = kQueued) then 0 else 5)
           /\ DocumentTaskHandler.reply_status reply = 200
           /\ (s = kProcessing -> fs' = fs)
           /\ exists s', status_of id m' = Some s' /\ past_cancel s' = true
      else DocumentTaskHandler.reply_status reply = 423 /\ fs' = fs
           /\ exists s', status_of id m' = Some s' /\ past_cancel s' = true
  end.
Proof. intros Hs Hm. by apply (CancelTask_spec _ clock (interleaved_forward script Hs) (fun _ _ => 0) (fun _ => None) (fun _ => None)). Qed.
End Claims.

(** ** Concrete runs *)

(** Three texts of a bridge: a page, a page and two failed pages, and a status that
    is no number; and what the OCR returns. *)
Definition page_json (n : Z) : json := JObject [("page_num", JInt n); ("page_text", JString "text");
  ("page_metadata", JObject [("page_confidence", JInt 1)])]%string.
Definition sample_nlohmann : Nlohmann := {|
  json_parse s :=
    if bool_decide (s = "page"%string) then Some (JObject [("pages"%string, JArray [page_json 1])])
    else if bool_decide (s = "mixed"%string) then
      Some (JObject [("pages", JArray [page_json 1]); ("failed_pages", JArray [JInt 2; JInt 3])]%string)
    else if bool_decide (s = "all"%string) then
      Some (JObject [("pages"%string, JArray [page_json 1; page_json 2; page_json 3])])
    else if bool_decide (s = "bad"%string) then Some (JObject [("status"%string, JString "ok")])
    else None;
  json_dump _ := "{}"%string;
  double_to_int _ := 0;
  double_to_float f := f
|}.
#[local] Existing Instance sample_nlohmann.
#[local] Existing Instance stable_StdSort.

Definition exits_with (payload : string) (_ : list string) (_ _ : Z) : SubprocessResult :=
  MkSubprocessResult true false false 0 payload "".
Definition docling (payload : string) : IDocumentParser Progress :=
  MkParser "docling" (DoclingParse (exits_with payload) (MkDoclingConfig "python3" "bridge.py" 60000 1000)).
Definition paddle (payload : string) : IDocumentParser Progress :=
  MkParser "paddleocr" (PaddleParse (exits_with payload) (MkPaddleOCRConfig "python3" "ocr.py" 120000 1000 false "ch")).

Definition processor (primary fallback : option (IDocumentParser Progress)) : DocumentProcessor :=
  MkDocumentProcessor (MkFactory primary fallback [] true (flit 3 10)) None None None "d".

Lemma processor_parsers_ok a b : parsers_ok (processor (Some (docling a)) (Some (paddle b))).
Proof. intros q [[= <-]|[= <-]]; [apply Docling_well_behaved|apply Paddle_well_behaved]. Qed.

Definition one_file (path : string) : option Z := Some 10.
Definition pdf_row : Row := sample_row "a" "doc" "d/x.pdf" kQueued.
Definition one_task : TaskManager := MkTaskManager [pdf_row] [] Ulid.initial.
Definition sys0 : Sys := MkSys one_task {["d/x.pdf"]}%string 0.

(** A cancellation that arrives while the page is parsed. *)
Definition late_cancel (k : nat) : list op :=
  match k with 3%nat => [OpRequestCancel 1780221602000 "a"] | _ => [] end.

Lemma late_cancel_fair : fair late_cancel.
Proof. intros [|[|[|[|k]]]]; repeat constructor. Qed.

Lemma one_task_healthy : healthy one_task.
Proof.
  split; [done|split; apply (bool_decide_unpack _); vm_compute; exact I|].
  repeat constructor. by intros [].
Qed.

Definition pool (script : nat -> list op) (a b : string) : WorkerPool.WorkerPool WorkerPool.ITaskHandler :=
  WorkerPool.MkWorkerPool (fun _ => Some (ProcessTask (interleaved no_draws script) at_noon (fun _ _ => 0)
    one_file one_file (processor (Some (docling a)) (Some (paddle b))))) [1; 2] true.
Definition run_turn (script : nat -> list op) (a b : string) : bool * TaskScheduler.TaskScheduler * Sys :=
  WorkerPool.WorkerTurn (interleaved no_draws script) at_noon (pool script a b) 1 (TaskScheduler.MkTaskScheduler ∅ None None) sys0.


Lemma CancelTask_decides_witness :
  let r := DocumentTaskHandler.CancelTask (interleaved no_draws (fun _ => [])) at_noon "d" "a" one_task ∅ in
  DocumentTaskHandler.reply_status r.1.1 = 200 /\ status_of "a" r.1.2 = Some kCancelled.
Proof.
  cbv zeta.
  pose proof (CancelTask_decides no_draws at_noon (fun _ => []) "d" "a" one_task ∅
    (fun _ => Forall_nil_2 _) one_task_healthy) as S.
  destruct (DocumentTaskHandler.CancelTask _ _ _ _ _ _) as [[reply m'] fs'] eqn:E.
  split; [apply S|]. change m' with (reply, m', fs').1.2. rewrite <-E. vm_compute. reflexivity.
Defined.

(** ** Runs in which the row does not tell what happened *)

(** A member of the wrong type in the bridge's answer makes the JSON library throw;
    nobody marks the task, which stays in [processing] while the log says that it
    failed. *)
Theorem Bad_bridge_output_leaves_task_processing :
  let r := run_turn (fun _ => []) "bad" "bad" in
  r.1.1 = true /\ status_of "a" (db r.2) = Some kProcessing
  /\ files r.2 = {["d/x.pdf"]}%string.
Proof. vm_compute. auto. Qed.

(** Pages that the first parser failed on stay listed as failed when the fallback
    parsed them: the callback adds to one list through both parsers. *)
Theorem Fallback_keeps_failed_pages :
  let r := run_turn (fun _ => []) "mixed" "all" in
  status_of "a" (db r.2) = Some kCompleted
  /\ (TaskManager.failed_pages <$> ((ReadRow <$> find_row "a" (tasks (db r.2))) : option TaskInfo)) = Some [2; 3].
Proof. vm_compute. auto. Qed.

(** A failure of SQLite is answered like a state of the task: a cancellation with
    "already cancelling or terminal", a query for progress with "no such task". *)
Theorem Storage_failure_answered_as_state :
  let m := MkTaskManager [pdf_row] [SqlPrepareErr; SqlPrepareErr] Ulid.initial in
  DocumentTaskHandler.reply_status (DocumentTaskHandler.CancelTask alone at_noon "d" "a" m ∅).1.1 = 423
  /\ DocumentTaskHandler.reply_status (DocumentTaskHandler.GetProgress alone "a" m).1 = 404
  /\ status_of "a" m = Some kQueued.
Proof. vm_compute. auto. Qed.

(** The refusal of a document with too many pages lacks a key that the registry
    requires. *)
Theorem Max_pages_body_incomplete :
  let p := DocumentTaskHandler.MkSubmitParams "ns" "f" "d/x" "doc" "h" "" 5000 true in
  match DocumentTaskHandler.body (DocumentTaskHandler.SubmitAsync no_draws alone at_noon
          (DocumentTaskHandler.MkConfig None None) scheduler p one_task ∅).1.1 with
  | DocumentTaskHandler.Failure e =>
      F42.HasRequiredStructuredData F42.kMaxPagesExceeded
        (match afe_structured_data json e with Some (JObject o) => Some o.*1 | _ => None end) = false
  | _ => False
  end.
Proof. vm_compute. reflexivity. Qed.
