(* ===== verification/Sqlite.v ===== *)
(** * SQLite connections

    What the stores use of SQLite, as its documentation describes it: statements
    that prepare or not and step to the end or fail, explicit transactions, and
    the rows of a query in an order of SQLite's choice.  The database is an
    arbitrary type; the statements themselves are written where the code has
    them.

    Each call takes the next outcome of a list.  A failed statement changes
    nothing; some failures also end the open transaction ([SqlAbort], the
    documented behaviour for a full disk, an I/O error or no memory).  Other
    connections commit between the transactions of this one and not inside them:
    a transaction reads one snapshot, and one that cannot get the write lock
    fails with an error. *)
From S2P Require Import Prelude.
From stdpp Require Import sorting.

Module Sqlite.

Inductive sql_outcome :=
| SqlOk
| SqlPrepareErr
| SqlStepErr (rows : nat)
| SqlAbort.

(** A connection: the database as it sees it, and the database at the BEGIN of
    the transaction it is in. *)
Record Conn (D : Type) := MkConn {
  data : D;
  saved : option D;
  outcomes : list sql_outcome
}.
#[global] Arguments MkConn {D}.
#[global] Arguments data {D}.
#[global] Arguments saved {D}.
#[global] Arguments outcomes {D}.

#[export] Instance Conn_eta {D} : Eta (Conn D) := fun c =>
  MkConn (data c) (saved c) (outcomes c).

Section Statements.
Context {D : Type}.
Implicit Types c : Conn D.

Definition next_outcome c : sql_outcome * Conn D :=
  match outcomes c with
  | [] => (SqlOk, c)
  | o :: os => (o, c <| outcomes := os |>)
  end.

(** [sqlite3_get_autocommit(db) == 0]. *)
Definition in_transaction c : bool := bool_decide (is_Some (saved c)).

(** What other connections see, and what is left when this one is closed. *)
Definition committed c : D := default (data c) (saved c).

Definition roll_back c : Conn D := c <| data := committed c |> <| saved := None |>.

(** The result of an INSERT, UPDATE or DELETE; [StepFailed] carries the reason
    when it is a violated constraint. *)
Inductive changed := PrepareFailed | StepFailed (constraint : bool) | Changes (n : Z).

(** A statement that changes rows: [f] is [None] when a constraint is violated,
    otherwise the number of changed rows and the new database. *)
Definition change (f : D -> option (Z * D)) c : changed * Conn D :=
  let '(o, c) := next_outcome c in
  match o with
  | SqlPrepareErr => (PrepareFailed, c)
  | SqlStepErr _ => (StepFailed false, c)
  | SqlAbort => (StepFailed false, roll_back c)
  | SqlOk =>
      match f (data c) with
      | None => (StepFailed true, c)
      | Some (n, d) => (Changes n, c <| data := d |>)
      end
  end.

(** The rows before [SQLITE_DONE] ([true]) or before an error ([false]); [None]
    when the statement does not prepare. *)
Definition select {A} (f : D -> list A) c : option (list A * bool) * Conn D :=
  let '(o, c) := next_outcome c in
  match o with
  | SqlPrepareErr => (None, c)
  | SqlStepErr k => (Some (take k (f (data c)), false), c)
  | SqlAbort => (Some ([], false), roll_back c)
  | SqlOk => (Some (f (data c), true), c)
  end.

(** [BEGIN] inside a transaction is an error, as is [COMMIT] outside one.  After
    a failed [COMMIT] the transaction is still open unless SQLite ended it. *)
Definition BEGIN c : bool * Conn D :=
  let '(o, c) := next_outcome c in
  match o with
  | SqlOk => if in_transaction c then (false, c) else (true, c <| saved := Some (data c) |>)
  | SqlAbort => (false, roll_back c)
  | _ => (false, c)
  end.

Definition COMMIT c : bool * Conn D :=
  let '(o, c) := next_outcome c in
  match o with
  | SqlOk => (in_transaction c, c <| saved := None |>)
  | SqlAbort => (false, roll_back c)
  | _ => (false, c)
  end.

(** The code never looks at the result of [ROLLBACK]. *)
Definition ROLLBACK c : Conn D :=
  let '(o, c) := next_outcome c in
  match o with
  | SqlOk | SqlAbort => roll_back c
  | _ => c
  end.

End Statements.

(** Rows without ORDER BY come in an order of SQLite's choice, rows with ORDER BY
    in an order that is sorted by the key. *)
Class Planner := {
  scan {A} : list A -> list A;
  scan_perm {A} (l : list A) : scan l ≡ₚ l;
  order_by {A} : (A -> A -> bool) -> list A -> list A;
  order_by_perm {A} (le : A -> A -> bool) l : order_by le l ≡ₚ l;
  order_by_sorted {A} (le : A -> A -> bool) l :
    (forall x y, le x y = true \/ le y x = true) ->
    (forall x y z, le x y = true -> le y z = true -> le x z = true) ->
    StronglySorted (fun x y => le x y = true) (order_by le l)
}.

(** A planner that scans in the order of insertion and sorts by merging. *)
Definition holds {A} (le : A -> A -> bool) (x y : A) : Prop := le x y = true.
#[export] Instance holds_dec {A} (le : A -> A -> bool) x y : Decision (holds le x y).
Proof. unfold holds. apply _. Defined.

#[export] Program Instance insertion_planner : Planner := {|
  scan A l := l;
  order_by A le l := merge_sort (holds le) l
|}.
Next Obligation. done. Qed.
Next Obligation. intros. apply merge_sort_Permutation. Qed.
Next Obligation.
  intros A le l Ht Htr. apply Sorted_StronglySorted; [intros x y z; apply Htr|].
  apply Sorted_merge_sort. intros x y. apply Ht.
Qed.

(** ** Lemmas *)

Section Lemmas.
Context {D : Type}.
Implicit Types c : Conn D.

Lemma committed_next o c c' : next_outcome c = (o, c') -> committed c' = committed c.
Proof. unfold next_outcome. by destruct (outcomes c); intros [= <- <-]. Qed.

Lemma next_data o c c' :
  next_outcome c = (o, c') -> data c' = data c /\ saved c' = saved c.
Proof. unfold next_outcome. by destruct (outcomes c); intros [= <- <-]. Qed.

Lemma committed_roll_back c : committed (roll_back c) = committed c.
Proof. done. Qed.

(** A change of rows as one of its three results, with what it leaves. *)
Lemma change_cases f c r c' :
  change f c = (r, c') ->
  match r with
  | Changes n => exists d, f (data c) = Some (n, d) /\ data c' = d /\ saved c' = saved c
  | _ => (data c' = data c /\ saved c' = saved c) \/ (data c' = committed c /\ saved c' = None)
  end.
Proof.
  unfold change. destruct (next_outcome c) as [o c1] eqn:Hn.
  apply next_data in Hn as Hd. apply committed_next in Hn. destruct Hd as [Hd Hs].
  destruct o; try destruct (f (data c1)) as [[n d]|] eqn:Hf; intros [= <- <-]; simpl;
    rewrite ?Hd in *; eauto.
Qed.

Lemma select_cases {A} (f : D -> list A) c r c' :
  select f c = (r, c') ->
  ((data c' = data c /\ saved c' = saved c) \/ (data c' = committed c /\ saved c' = None)) /\
  match r with
  | Some (l, true) => l = f (data c) /\ data c' = data c
  | Some (l, false) => exists k, l = take k (f (data c))
  | None => True
  end.
Proof.
  unfold select. destruct (next_outcome c) as [o c1] eqn:Hn.
  apply next_data in Hn as Hd. apply committed_next in Hn. destruct Hd as [Hd Hs].
  destruct o; intros [= <- <-]; simpl; rewrite ?Hd; eauto 6.
  split; [right; by rewrite <- Hn|]. by exists O.
Qed.

(** A query leaves what is committed as it is. *)
Lemma committed_select {A} (f : D -> list A) c r c' :
  select f c = (r, c') -> committed c' = committed c.
Proof.
  intros [Hs _]%select_cases. unfold committed in *.
  destruct Hs as [[-> ->]|[-> ->]]; done.
Qed.

(** Inside a transaction nothing is committed before COMMIT. *)
Lemma committed_change f c r c' :
  change f c = (r, c') -> in_transaction c = true \/ (forall n, r <> Changes n) ->
  committed c' = committed c.
Proof.
  intros Hc%change_cases Ht. unfold in_transaction in Ht. unfold committed in *.
  destruct r as [| |n].
  1,2: destruct Hc as [[-> ->]|[-> ->]]; done.
  destruct Ht as [Ht|Ht]; [|by destruct (Ht n)]. apply bool_decide_eq_true in Ht as [d Hd].
  destruct Hc as (d' & _ & _ & ->). by rewrite Hd.
Qed.

Lemma BEGIN_cases c b c' :
  BEGIN c = (b, c') ->
  if b then saved c = None /\ data c' = data c /\ saved c' = Some (data c)
  else committed c' = committed c.
Proof.
  unfold BEGIN. destruct (next_outcome c) as [o c1] eqn:Hn.
  apply next_data in Hn as Hd. apply committed_next in Hn. destruct Hd as [Hd Hs].
  unfold in_transaction. rewrite Hs.
  destruct o; try case_bool_decide as Hi; intros [= <- <-]; simpl; try done.
  split; [|by rewrite Hd]. by apply eq_None_not_Some.
Qed.

Lemma COMMIT_cases c b c' :
  COMMIT c = (b, c') -> in_transaction c = true ->
  if b then data c' = data c /\ saved c' = None
  else committed c' = committed c.
Proof.
  unfold COMMIT. destruct (next_outcome c) as [o c1] eqn:Hn.
  apply next_data in Hn as Hd. apply committed_next in Hn. destruct Hd as [Hd Hs].
  unfold in_transaction. rewrite Hs. intros Hc Ht. rewrite Ht in Hc.
  destruct o; simplify_eq; simpl; done.
Qed.

Lemma COMMIT_idle c b c' :
  COMMIT c = (b, c') -> saved c = None -> b = false /\ committed c' = committed c.
Proof.
  unfold COMMIT. destruct (next_outcome c) as [o c1] eqn:Hn.
  apply next_data in Hn as Hd. apply committed_next in Hn. destruct Hd as [Hd Hs].
  unfold in_transaction. rewrite Hs. intros Hc Hi. rewrite Hi in *.
  destruct o; simplify_eq; simpl; (split; [done|]); rewrite <- Hn; [|done..].
  unfold committed. simpl. by rewrite Hs.
Qed.

Lemma committed_ROLLBACK c : committed (ROLLBACK c) = committed c.
Proof.
  unfold ROLLBACK. destruct (next_outcome c) as [o c1] eqn:Hn.
  apply committed_next in Hn. by destruct o; rewrite ?committed_roll_back.
Qed.

(** Connections on which SQLite ends no transaction by itself. *)
Definition calm c : Prop := Forall (fun o => o <> SqlAbort) (outcomes c).

Lemma calm_next o c c' : next_outcome c = (o, c') -> calm c -> calm c' /\ o <> SqlAbort.
Proof.
  unfold next_outcome, calm. destruct (outcomes c) as [|x os] eqn:E; intros [= <- <-]; simpl.
  - by rewrite E.
  - by intros [? ?]%Forall_cons.
Qed.

Lemma calm_change f c r c' : change f c = (r, c') -> calm c -> calm c'.
Proof.
  unfold change. destruct (next_outcome c) as [o c1] eqn:Hn. intros Hc Hm.
  destruct (calm_next _ _ _ Hn Hm) as [Hm1 Ho].
  destruct o; try destruct (f (data c1)) as [[n d]|]; simplify_eq; done.
Qed.

Lemma calm_select {A} (f : D -> list A) c r c' :
  select f c = (r, c') -> calm c -> calm c' /\ data c' = data c /\ saved c' = saved c.
Proof.
  unfold select. destruct (next_outcome c) as [o c1] eqn:Hn. intros Hc Hm.
  destruct (calm_next _ _ _ Hn Hm) as [Hm1 Ho]. apply next_data in Hn.
  destruct o; simplify_eq; done.
Qed.

Lemma calm_BEGIN c b c' : BEGIN c = (b, c') -> calm c -> calm c'.
Proof.
  unfold BEGIN. destruct (next_outcome c) as [o c1] eqn:Hn. intros Hc Hm.
  destruct (calm_next _ _ _ Hn Hm) as [Hm1 Ho].
  destruct o; try destruct (in_transaction c1); simplify_eq; done.
Qed.

Lemma calm_change_cases f c r c' :
  change f c = (r, c') -> calm c ->
  calm c' /\ saved c' = saved c /\
  match r with
  | Changes n => f (data c) = Some (n, data c')
  | _ => data c' = data c
  end.
Proof.
  intros Hc Hm. split; [by eapply calm_change|]. revert Hc.
  unfold change. destruct (next_outcome c) as [o c1] eqn:Hn.
  destruct (calm_next _ _ _ Hn Hm) as [_ Ho]. apply next_data in Hn as [Hd Hs].
  destruct o; try done; rewrite ?Hd; [destruct (f (data c)) as [[n d]|]| |];
    intros [= <- <-]; simpl; by rewrite ?Hd, ?Hs.
Qed.

Lemma calm_COMMIT c b c' :
  COMMIT c = (b, c') -> calm c -> in_transaction c = true ->
  calm c' /\ data c' = data c /\ saved c' = if b then None else saved c.
Proof.
  unfold COMMIT. destruct (next_outcome c) as [o c1] eqn:Hn. intros Hc Hm Ht.
  destruct (calm_next _ _ _ Hn Hm) as [Hm1 Ho]. apply next_data in Hn as [Hd Hs].
  unfold in_transaction in *. rewrite Hs in Hc. rewrite Ht in Hc.
  destruct o; simplify_eq; done.
Qed.

(** After [ROLLBACK] the transaction is gone, or it is still open as it was. *)
Lemma calm_ROLLBACK c :
  calm c -> calm (ROLLBACK c) /\
  (saved (ROLLBACK c) = None /\ data (ROLLBACK c) = committed c \/
   saved (ROLLBACK c) = saved c /\ data (ROLLBACK c) = data c).
Proof.
  unfold ROLLBACK. destruct (next_outcome c) as [o c1] eqn:Hn. intros Hm.
  destruct (calm_next _ _ _ Hn Hm) as [Hm1 Ho]. apply committed_next in Hn as Hc.
  apply next_data in Hn as [Hd Hs]. rewrite <- Hc.
  destruct o; simpl; try done; auto.
Qed.

Lemma calm_BEGIN_cases c b c' :
  BEGIN c = (b, c') -> calm c ->
  calm c' /\ data c' = data c /\
  if b then saved c = None /\ saved c' = Some (data c) else saved c' = saved c.
Proof.
  intros Hb Hm. split; [by eapply calm_BEGIN|]. revert Hb.
  unfold BEGIN. destruct (next_outcome c) as [o c1] eqn:Hn.
  destruct (calm_next _ _ _ Hn Hm) as [_ Ho]. apply next_data in Hn as [Hd Hs].
  unfold in_transaction. rewrite Hs.
  destruct o; try case_bool_decide as Hi; intros [= <- <-]; simpl; rewrite ?Hd; try done.
  by rewrite eq_None_not_Some.
Qed.

End Lemmas.

End Sqlite.
