(* ===== verification/Documents.v ===== *)
(** * Documents, blocks and their visibility (src/store/doc_status_lookup.cpp)

    The rows of a unit's store.db (include/cortrix/common/data_types.h,
    store/per_unit_schema_ddl.h, the other schema providers) and the condition
    under which the content of a document is hidden from retrieval. *)
From Stdlib Require Import Ascii String.
From S2P Require Import Prelude Status Sqlite.

Module Documents.
Import Sqlite.

Inductive DocStatus := kPending | kProcessing | kReady | kError | kStale | kDeleting | kDeleted.

#[export] Instance DocStatus_eq_dec : EqDecision DocStatus.
Proof. solve_decision. Defined.

Definition DocStatusStr (s : DocStatus) : string :=
  match s with
  | kPending => "pending"
  | kProcessing => "processing"
  | kReady => "ready"
  | kError => "error"
  | kStale => "stale"
  | kDeleting => "deleting"
  | kDeleted => "deleted"
  end.

Definition DocStatusFromStr (s : string) : DocStatus :=
  if bool_decide (s = "processing"%string) then kProcessing
  else if bool_decide (s = "ready"%string) then kReady
  else if bool_decide (s = "error"%string) then kError
  else if bool_decide (s = "stale"%string) then kStale
  else if bool_decide (s = "deleting"%string) then kDeleting
  else if bool_decide (s = "deleted"%string) then kDeleted
  else kPending.

Record CortrixDoc := MkDoc {
  doc_id : string;
  source_type : string;
  source_path : string;
  source_ref : string;
  content_hash : string;
  file_size : Z;
  mime_type : string;
  status : DocStatus;
  error_message : string;
  processing_level : Z;
  block_count : Z;
  chunk_strategy : string;
  created_at : string;
  updated_at : string;
  processed_at : string;
  cdc_schema : string;
  cdc_position : string;
  cdc_last_sync : string;
  title : string;
  language : string;
  metadata_json : string
}.

#[export] Instance CortrixDoc_eta : Eta CortrixDoc := fun d =>
  MkDoc (doc_id d) (source_type d) (source_path d) (source_ref d) (content_hash d) (file_size d)
    (mime_type d) (status d) (error_message d) (processing_level d) (block_count d)
    (chunk_strategy d) (created_at d) (updated_at d) (processed_at d) (cdc_schema d)
    (cdc_position d) (cdc_last_sync d) (title d) (language d) (metadata_json d).

(** ** Rows *)

Record DocRow := MkDocRow {
  r_doc_id : string;
  r_source_type : string;
  r_source_path : string;
  r_source_ref : option string;
  r_content_hash : option string;
  r_file_size : option Z;
  r_mime_type : option string;
  r_status : string;
  r_error_message : option string;
  r_processing_level : Z;
  r_block_count : option Z;
  r_chunk_strategy : option string;
  r_created_at : string;
  r_updated_at : string;
  r_processed_at : option string;
  r_cdc_schema : option string;
  r_cdc_position : option string;
  r_cdc_last_sync : option string;
  r_title : option string;
  r_language : option string;
  r_metadata_json : option string;
  r_deleted_at : option Z;
  r_deleted_from_status : option string
}.

#[export] Instance DocRow_eta : Eta DocRow := fun r =>
  MkDocRow (r_doc_id r) (r_source_type r) (r_source_path r) (r_source_ref r) (r_content_hash r)
    (r_file_size r) (r_mime_type r) (r_status r) (r_error_message r) (r_processing_level r)
    (r_block_count r) (r_chunk_strategy r) (r_created_at r) (r_updated_at r) (r_processed_at r)
    (r_cdc_schema r) (r_cdc_position r) (r_cdc_last_sync r) (r_title r) (r_language r)
    (r_metadata_json r) (r_deleted_at r) (r_deleted_from_status r).

(** [CortrixBlock]; in a row, the columns that may be NULL are options.  The
    scores are the bits of REAL columns. *)
Record CortrixBlock := MkBlock {
  block_id : Z;
  k_doc_id : string;
  chunk_index : Z;
  block_type : Z;
  k_processing_level : Z;
  hnsw_node_id : Z;
  k_content_hash : string;
  block_data : bytes;
  content_text : string;
  child_id : string;
  parent_id : string;
  token_count : Z;
  parent_offset : Z;
  k_metadata_json : string;
  enriched_score : option Z;
  semantic_score : option Z
}.

#[export] Instance CortrixBlock_eta : Eta CortrixBlock := fun b =>
  MkBlock (block_id b) (k_doc_id b) (chunk_index b) (block_type b) (k_processing_level b)
    (hnsw_node_id b) (k_content_hash b) (block_data b) (content_text b) (child_id b)
    (parent_id b) (token_count b) (parent_offset b) (k_metadata_json b) (enriched_score b)
    (semantic_score b).

Record BlockRow := MkBlockRow {
  b_block_id : Z;
  b_doc_id : string;
  b_chunk_index : Z;
  b_block_type : Z;
  b_processing_level : Z;
  b_hnsw_node_id : option Z;
  b_content_hash : option string;
  b_data : bytes;
  b_content_text : option string;
  b_child_id : option string;
  b_parent_id : option string;
  b_token_count : option Z;
  b_parent_offset : option Z;
  b_metadata_json : option string;
  b_enriched_score : option Z;
  b_semantic_score : option Z;
  b_enriched_at : option Z;
  b_enricher_metadata : option string;
  b_contextualized_text : option string;
  b_contextualized_embedding : option bytes; (* packed floats *)
  b_contextualized_status : option Z;
  b_sparse_vec : option bytes
}.

#[export] Instance BlockRow_eta : Eta BlockRow := fun b =>
  MkBlockRow (b_block_id b) (b_doc_id b) (b_chunk_index b) (b_block_type b)
    (b_processing_level b) (b_hnsw_node_id b) (b_content_hash b) (b_data b) (b_content_text b)
    (b_child_id b) (b_parent_id b) (b_token_count b) (b_parent_offset b) (b_metadata_json b)
    (b_enriched_score b) (b_semantic_score b) (b_enriched_at b) (b_enricher_metadata b)
    (b_contextualized_text b) (b_contextualized_embedding b) (b_contextualized_status b) (b_sparse_vec b).

(** Every column of [parents] that the code writes is NOT NULL, so a row is the
    struct. *)
Record CortrixParent := MkParent {
  p_parent_id : string;
  p_doc_id : string;
  p_namespace_id : string;
  p_parent_text : string;
  p_token_count : Z;
  p_page_start : Z;
  p_page_end : Z;
  p_byte_offset_start : Z;
  p_byte_offset_end : Z;
  p_metadata_json : string;
  p_created_at : Z
}.

(** The row of a document in the document-level full-text index, and a row of the
    enrichment ledger: texts that may be NULL are empty then, and the 0 of
    [next_retry_at] in the struct is NULL. *)
Record DocFtsRow := MkDocFtsRow {
  f_doc_id : string; f_filename : string; f_doc_title : string; topics_rule_extracted : string; authors : string
}.

Record EnrichStateRow := MkEnrichStateRow {
  es_block_id : Z;
  es_doc_id : string;
  es_child_id : string;
  es_status : string;
  failed_members : string;
  attempts : Z;
  last_error : string;
  next_retry_at : option Z;
  es_updated_at : Z;
  generation : Z
}.

#[export] Instance EnrichStateRow_eta : Eta EnrichStateRow := fun r =>
  MkEnrichStateRow (es_block_id r) (es_doc_id r) (es_child_id r) (es_status r) (failed_members r) (attempts r)
    (last_error r) (next_retry_at r) (es_updated_at r) (generation r).

(** One store.db: the tables, the full-text index over [blocks.content_text], the
    contextual labels (label and block), and which optional columns exist. *)
Record Db := MkDb {
  documents : list DocRow;
  blocks : list BlockRow;
  blocks_fts : list (Z * string);
  parents : list CortrixParent;
  labels : list (Z * Z);
  doc_fts5_index : list DocFtsRow;
  enrich_state : list EnrichStateRow;
  documents_columns : list string;
  blocks_columns : list string
}.

#[export] Instance Db_eta : Eta Db := fun d =>
  MkDb (documents d) (blocks d) (blocks_fts d) (parents d) (labels d)
    (doc_fts5_index d) (enrich_state d) (documents_columns d)
    (blocks_columns d).

(** ** Conditions on rows *)

(** [status != 'deleted']. *)
Definition live (r : DocRow) : bool := negb (bool_decide (r_status r = DocStatusStr kDeleted)).
Definition is_ready (r : DocRow) : bool := bool_decide (r_status r = DocStatusStr kReady).

(** [source_type IN ('http_upload', 'watch_dir')]. *)
Definition versioned (r : DocRow) : bool :=
  bool_decide (r_source_type r ∈ ["http_upload"; "watch_dir"]%string).

Definition same_source (o r : DocRow) : bool :=
  bool_decide (r_source_type o = r_source_type r) && bool_decide (r_source_path o = r_source_path r).

(** [o.created_at < r.created_at OR (o.created_at = r.created_at AND o.doc_id < r.doc_id)]. *)
Definition sorts_before (o r : DocRow) : bool :=
  String.ltb (r_created_at o) (r_created_at r)
  || bool_decide (r_created_at o = r_created_at r) && String.ltb (r_doc_id o) (r_doc_id r).

(** The SQL condition that the function builds, on the row [r] of [d]. *)
Definition HiddenDocPredicate (d : Db) (r : DocRow) : bool :=
  negb (live r)
  || versioned r && negb (is_ready r)
     && existsb (fun o => same_source o r && negb (bool_decide (r_doc_id o = r_doc_id r)) && live o
                          && (is_ready o || sorts_before o r)) (documents d).

(** ** The lookup *)

Definition kMaxIdsPerStatement : nat := 500.

(** Empty ids and repeats are ignored; the first occurrence counts. *)
Fixpoint distinct_ids (seen : list string) (ids : list string) : list string :=
  match ids with
  | [] => []
  | id :: ids =>
      if bool_decide (id = ""%string) || bool_decide (id ∈ seen) then distinct_ids seen ids
      else id :: distinct_ids (id :: seen) ids
  end.

(** The SELECT of one chunk. *)
Definition hidden_among (chunk : list string) (d : Db) : list string :=
  r_doc_id <$> filter (fun r => bool_decide (r_doc_id r ∈ chunk) && HiddenDocPredicate d r = true)
                 (documents d).

Fixpoint hidden_chunks (fuel : nat) (ids : list string) (hidden : gset string) (c : Conn Db)
    : Result (gset string) * Conn Db :=
  match fuel, ids with
  | O, _ | _, [] => (Value hidden, c)
  | S fuel, _ =>
      let '(q, c) := select (hidden_among (take kMaxIdsPerStatement ids)) c in
      match q with
      | None => (Error (Status_Internal "LoadHiddenDocIds prepare: "), c)
      | Some (_, false) => (Error (Status_Internal "LoadHiddenDocIds step: "), c)
      | Some (l, true) =>
          hidden_chunks fuel (drop kMaxIdsPerStatement ids) (hidden ∪ list_to_set l) c
      end
  end.

(** [None] for the handle is a null pointer. *)
Definition LoadHiddenDocIds (db : option (Conn Db)) (ids : list string)
    : Result (gset string) * option (Conn Db) :=
  match db with
  | None => (Value ∅, None)
  | Some c =>
      let ids := distinct_ids [] ids in
      let '(r, c) := hidden_chunks (length ids) ids ∅ c in (r, Some c)
  end.

End Documents.
