(* ===== verification/DocumentsTheory.v ===== *)
(** * Versions of a source and what retrieval shows of them

    The order of versions, the invariant of the documents table that the store
    keeps (StoreVersions.v), and what the hiding condition leaves visible. *)
From Stdlib Require Import Ascii String.
From S2P Require Import Prelude Status Sqlite Documents.
Import Sqlite Documents.

(** ** The order of texts and of versions *)

Lemma compare_lt_trans a b c :
  String.compare a b = Lt -> String.compare b c = Lt -> String.compare a c = Lt.
Proof.
  revert b c. induction a as [|x a IH]; intros [|y b] [|z c]; simpl; try done.
  unfold Ascii.compare.
  destruct (N.compare_spec (N_of_ascii x) (N_of_ascii y)) as [E1|E1|E1]; try done;
  destruct (N.compare_spec (N_of_ascii y) (N_of_ascii z)) as [E2|E2|E2]; try done; intros H1 H2;
  destruct (N.compare_spec (N_of_ascii x) (N_of_ascii z)) as [E3|E3|E3]; try done; try lia; eauto.
Qed.

Lemma ltb_Lt a b : String.ltb a b = true <-> String.compare a b = Lt.
Proof. unfold String.ltb. by destruct (String.compare a b). Qed.

Lemma compare_refl a : String.compare a a = Eq.
Proof.
  pose proof (String.compare_antisym a a) as E. by destruct (String.compare a a).
Qed.

Lemma ltb_irrefl a : String.ltb a a = false.
Proof.
  unfold String.ltb. by rewrite compare_refl.
Qed.

Lemma ltb_trans a b c : String.ltb a b = true -> String.ltb b c = true -> String.ltb a c = true.
Proof. rewrite !ltb_Lt. apply compare_lt_trans. Qed.

Lemma ltb_total a b : a = b \/ String.ltb a b = true \/ String.ltb b a = true.
Proof.
  destruct (String.compare a b) eqn:E.
  - left. by apply String.compare_eq_iff.
  - right. left. by apply ltb_Lt.
  - right. right. apply ltb_Lt. by rewrite String.compare_antisym, E.
Qed.

Lemma sorts_before_spec o r :
  sorts_before o r = true <->
  String.ltb (r_created_at o) (r_created_at r) = true
  \/ r_created_at o = r_created_at r /\ String.ltb (r_doc_id o) (r_doc_id r) = true.
Proof. unfold sorts_before. by rewrite orb_true_iff, andb_true_iff, bool_decide_eq_true. Qed.

Lemma sorts_before_irrefl r : sorts_before r r = false.
Proof. unfold sorts_before. by rewrite !ltb_irrefl, andb_false_r. Qed.

Lemma sorts_before_trans a b c :
  sorts_before a b = true -> sorts_before b c = true -> sorts_before a c = true.
Proof.
  rewrite !sorts_before_spec. intros [H1|[E1 H1]] [H2|[E2 H2]];
    rewrite ?E1, ?E2 in *; eauto using ltb_trans.
Qed.

Lemma sorts_before_total a b :
  r_doc_id a <> r_doc_id b -> sorts_before a b = true \/ sorts_before b a = true.
Proof.
  intros Hid. rewrite !sorts_before_spec.
  destruct (ltb_total (r_created_at a) (r_created_at b)) as [E|[H|H]]; eauto.
  destruct (ltb_total (r_doc_id a) (r_doc_id b)) as [E'|[H'|H']]; eauto.
Qed.

Lemma same_source_spec o r :
  same_source o r = true <->
  r_source_type o = r_source_type r /\ r_source_path o = r_source_path r.
Proof. unfold same_source. by rewrite andb_true_iff, !bool_decide_eq_true. Qed.

Lemma same_source_refl r : same_source r r = true.
Proof. by apply same_source_spec. Qed.
Lemma same_source_sym o r : same_source o r = true -> same_source r o = true.
Proof. rewrite !same_source_spec. naive_solver. Qed.
Lemma same_source_trans a b c :
  same_source a b = true -> same_source b c = true -> same_source a c = true.
Proof. rewrite !same_source_spec. naive_solver congruence. Qed.

Lemma is_ready_live r : is_ready r = true -> live r = true.
Proof.
  unfold is_ready, live. rewrite bool_decide_eq_true, negb_true_iff, bool_decide_eq_false.
  by intros ->.
Qed.

Lemma versioned_same_source o r :
  same_source o r = true -> versioned o = versioned r.
Proof. rewrite same_source_spec. unfold versioned. by intros [-> _]. Qed.

(** ** The invariant of versions

    Ids are unique, and a ready version of an uploaded or watched file has no
    live version of the same file before it. *)
Definition versions_ok (rows : list DocRow) : Prop :=
  NoDup (r_doc_id <$> rows) /\
  forall r o, r ∈ rows -> o ∈ rows -> versioned r = true -> is_ready r = true -> live o = true ->
    same_source o r = true -> sorts_before o r = false.

Lemma rows_eq rows a b :
  NoDup (r_doc_id <$> rows) -> a ∈ rows -> b ∈ rows -> r_doc_id a = r_doc_id b -> a = b.
Proof.
  intros Hn Ha Hb E. apply list_elem_of_lookup in Ha as [i Hi].
  apply list_elem_of_lookup in Hb as [j Hj].
  assert (i = j) as ->; [|by simplify_eq].
  eapply NoDup_lookup; [exact Hn| |]; rewrite list_lookup_fmap.
  - by rewrite Hi.
  - rewrite Hj. simpl. by rewrite E.
Qed.

Lemma one_ready rows a b :
  versions_ok rows -> a ∈ rows -> b ∈ rows -> versioned a = true ->
  same_source a b = true -> is_ready a = true -> is_ready b = true -> a = b.
Proof.
  intros [Hn Hv] Ha Hb Hva Hs Hra Hrb.
  destruct (decide (r_doc_id a = r_doc_id b)) as [|Hid]; [by eapply rows_eq|].
  exfalso. destruct (sorts_before_total a b Hid) as [Hlt|Hlt].
  - rewrite (Hv b a) in Hlt; [done..| |done|by apply is_ready_live|done].
    by rewrite <- (versioned_same_source a b).
  - rewrite (Hv a b) in Hlt; [done..|by apply is_ready_live|by apply same_source_sym].
Qed.

(** A first row by a total order among the rows that satisfy a condition. *)
Lemma first_row (P : DocRow -> bool) rows :
  NoDup (r_doc_id <$> rows) -> (exists r, r ∈ rows /\ P r = true) ->
  exists r, r ∈ rows /\ P r = true /\
    forall o, o ∈ rows -> P o = true -> o = r \/ sorts_before r o = true.
Proof.
  induction rows as [|x rows IH]; simpl; intros Hn (r & Hr & HP); [by apply not_elem_of_nil in Hr|].
  apply NoDup_cons in Hn as [Hx Hn].
  destruct (existsb P rows) eqn:He.
  - apply existsb_exists in He as (q & Hq%list_elem_of_In & HPq).
    destruct IH as (m & Hm & HPm & Hmin); [done|eauto|].
    destruct (P x) eqn:HPx; [|exists m].
    2: { split; [by right|]. split; [done|]. intros o [->|Ho]%elem_of_cons; [congruence|eauto]. }
    assert (r_doc_id x <> r_doc_id m) as Hne.
    { intros E. apply Hx. rewrite E. by apply list_elem_of_fmap_2. }
    destruct (sorts_before_total x m Hne) as [Hlt|Hlt].
    + exists x. split; [by left|]. split; [done|]. intros o [->|Ho]%elem_of_cons HPo; [by left|].
      right. destruct (Hmin o Ho HPo) as [->|]; eauto using sorts_before_trans.
    + exists m. split; [by right|]. split; [done|].
      intros o [->|Ho]%elem_of_cons HPo; [by right|eauto].
  - assert (forall o, o ∈ rows -> P o = false) as Hno.
    { intros o Ho. destruct (P o) eqn:E; [|done].
      assert (existsb P rows = true); [|congruence].
      apply existsb_exists. exists o. by rewrite <- list_elem_of_In. }
    apply elem_of_cons in Hr as [->|Hr]; [|by rewrite Hno in HP].
    exists x. split; [by left|]. split; [done|].
    intros o [->|Ho]%elem_of_cons HPo; [by left|]. by rewrite Hno in HPo.
Qed.

(** ** What is visible *)

Lemma hidden_spec d r :
  HiddenDocPredicate d r = true <->
  live r = false \/
  versioned r = true /\ is_ready r = false /\
  exists o, o ∈ documents d /\ same_source o r = true /\ r_doc_id o <> r_doc_id r /\ live o = true /\
    (is_ready o = true \/ sorts_before o r = true).
Proof.
  unfold HiddenDocPredicate.
  rewrite orb_true_iff, !andb_true_iff, !negb_true_iff, existsb_exists.
  assert (forall o, same_source o r && negb (bool_decide (r_doc_id o = r_doc_id r)) && live o
                      && (is_ready o || sorts_before o r) = true <->
    same_source o r = true /\ r_doc_id o <> r_doc_id r /\ live o = true /\
    (is_ready o = true \/ sorts_before o r = true)) as E.
  { intros o. rewrite !andb_true_iff, orb_true_iff, negb_true_iff, bool_decide_eq_false. tauto. }
  split.
  - intros [|[[? ?] (o & Ho%list_elem_of_In & HE%E)]]; [by left|right; eauto 6].
  - intros [|(? & ? & o & Ho%list_elem_of_In & HE%E)]; [by left|right; eauto 6].
Qed.

(** C13: In a table that keeps the invariant of versions, exactly one version of an
    uploaded or watched file with a live version is visible to retrieval: the
    ready one when there is one, and otherwise the oldest live one.  So a
    replacement that is still being processed never hides the version it
    replaces, and two versions are never served together. *)
Theorem Visible_version_unique d r0 :
  versions_ok (documents d) -> r0 ∈ documents d -> versioned r0 = true -> live r0 = true ->
  exists r, r ∈ documents d /\ same_source r r0 = true /\ live r = true /\
    HiddenDocPredicate d r = false /\
    (forall o, o ∈ documents d -> same_source o r0 = true -> HiddenDocPredicate d o = false -> o = r) /\
    (is_ready r = true \/
     forall o, o ∈ documents d -> same_source o r0 = true -> live o = true ->
       is_ready o = false /\ (o = r \/ sorts_before r o = true)).
Proof.
  intros Hok H0 Hv0 Hl0. pose proof Hok as [Hn Hmin].
  set (P o := live o && same_source o r0).
  destruct (first_row P (documents d)) as (m & Hm & HPm & Hfirst);
    [done|exists r0; unfold P; by rewrite Hl0, same_source_refl|].
  unfold P in *. apply andb_true_iff in HPm as [Hlm Hsm].
  assert (forall o, same_source o r0 = true -> versioned o = true) as Hvs.
  { intros o Ho. by rewrite (versioned_same_source o r0). }
  (* a ready row, if any, is the first one *)
  assert (forall o, o ∈ documents d -> same_source o r0 = true -> is_ready o = true -> o = m) as Hrdy.
  { intros o Ho Hso Hro. destruct (Hfirst o Ho) as [|Hlt]; [|done|].
    - by rewrite (is_ready_live o Hro), Hso.
    - rewrite (Hmin o m) in Hlt; [done..|by apply Hvs|done|done|].
      eapply same_source_trans; [exact Hsm|by apply same_source_sym]. }
  assert (HiddenDocPredicate d m = false) as Hvis.
  { apply not_true_is_false. rewrite hidden_spec. intros [|(_ & Hnr & o & Ho & Hso & Hid & Hlo & Hw)];
      [congruence|].
    assert (same_source o r0 = true) as Hso0 by by eapply same_source_trans.
    destruct Hw as [Hro|Hlt]; [by destruct Hid; rewrite (Hrdy o)|].
    destruct (Hfirst o Ho) as [->|Hlt']; [by rewrite Hlo, Hso0|done|].
    assert (sorts_before m m = true) as E by by eapply sorts_before_trans.
    by rewrite sorts_before_irrefl in E. }
  exists m. do 4 (split; [done|]). split.
  - intros o Ho Hso Hvo. destruct (decide (r_doc_id o = r_doc_id m)) as [|Hne]; [by eapply rows_eq|]. exfalso.
    assert (live o = true) as Hlo.
    { apply not_false_is_true. intros E. rewrite (proj2 (hidden_spec d o)) in Hvo; [done|by left]. }
    rewrite (proj2 (hidden_spec d o)) in Hvo; [done|]. right.
    split; [by apply Hvs|]. split.
    { apply not_true_is_false. intros E. apply Hne. by rewrite (Hrdy o). }
    exists m. split; [done|]. split; [eapply same_source_trans; [exact Hsm|by apply same_source_sym]|].
    split; [by apply not_eq_sym|]. split; [done|]. right.
    destruct (Hfirst o Ho) as [->|]; [by rewrite Hlo, Hso|by destruct Hne|done].
  - destruct (is_ready m) eqn:Hrm; [by left|right]. intros o Ho Hso Hlo. split.
    + apply not_true_is_false. intros E. by rewrite (Hrdy o Ho Hso E), Hrm in E.
    + apply Hfirst; [done|]. by rewrite Hlo, Hso.
Qed.

(** ** The lookup of hidden documents *)

Lemma elem_of_distinct_ids seen ids id :
  id ∈ distinct_ids seen ids <-> id ∈ ids /\ id <> ""%string /\ id ∉ seen.
Proof.
  revert seen. induction ids as [|x ids IH]; intros seen; simpl; [set_solver|].
  destruct (bool_decide (x = ""%string) || bool_decide (x ∈ seen)) eqn:E.
  - rewrite IH, elem_of_cons. apply orb_true_iff in E. rewrite !bool_decide_eq_true in E. naive_solver.
  - apply orb_false_iff in E. rewrite !bool_decide_eq_false in E.
    rewrite !elem_of_cons, IH, elem_of_cons. destruct (decide (id = x)); naive_solver.
Qed.

Definition hidden_row (d : Db) (id : string) : Prop :=
  exists r, r ∈ documents d /\ r_doc_id r = id /\ HiddenDocPredicate d r = true.

Lemma elem_of_hidden_among chunk d id :
  id ∈ hidden_among chunk d <-> id ∈ chunk /\ hidden_row d id.
Proof.
  unfold hidden_among, hidden_row. rewrite list_elem_of_fmap. setoid_rewrite list_elem_of_filter.
  setoid_rewrite andb_true_iff. setoid_rewrite bool_decide_eq_true. naive_solver.
Qed.

Lemma hidden_chunks_exact fuel ids h c r c' :
  (length ids <= fuel)%nat -> hidden_chunks fuel ids h c = (r, c') ->
  match r with
  | Value s => data c' = data c /\
      forall id, id ∈ s <-> id ∈ h \/ id ∈ ids /\ hidden_row (data c) id
  | Error _ => outcomes c <> []
  end.
Proof.
  revert ids h c. induction fuel as [|fuel IH]; intros ids h c Hf.
  { destruct ids; [|simpl in Hf; lia]. intros [= <- <-]. set_solver. }
  cbn [hidden_chunks]. destruct ids as [|x ids]; [intros [= <- <-]; set_solver|].
  set (all := x :: ids) in *.
  destruct (select (hidden_among (take kMaxIdsPerStatement all)) c) as [q c1] eqn:Hq.
  assert (match q with Some (_, true) => True | _ => outcomes c <> [] end /\
    (outcomes c = [] -> outcomes c1 = [])) as [Hne Hnil].
  { revert Hq. unfold select, next_outcome.
    destruct (outcomes c) as [|o os] eqn:Ho; [by intros [= <- <-]; rewrite Ho|].
    destruct o; intros [= <- <-]; (split; [|done]); done. }
  apply select_cases in Hq as [_ Hq].
  destruct q as [[l [|]]|]; [|by intros [= <- <-]..].
  destruct Hq as [-> Hd]. intros Hc. apply IH in Hc.
  2: { rewrite length_drop. unfold all, kMaxIdsPerStatement in *. simpl in *. lia. }
  destruct r as [s|e]; [|by intros E; apply Hc, Hnil]. destruct Hc as [Hd' Hs].
  rewrite Hd in *. split; [done|]. intros id. rewrite Hs, elem_of_union, elem_of_list_to_set,
    elem_of_hidden_among.
  rewrite <- (take_drop kMaxIdsPerStatement all) at 3. rewrite elem_of_app. tauto.
Qed.

(** [LoadHiddenDocIds] answers exactly the ids of its list that name a hidden
    row, however many there are and whatever empty or repeated ids are among
    them; a missing row is not hidden.  When a statement fails it answers an
    error and never a part of the set, and when none fails it answers the set. *)
Theorem LoadHiddenDocIds_exact c ids :
  let '(r, c') := LoadHiddenDocIds (Some c) ids in
  match r with
  | Value s => (data <$> c') = Some (data c) /\
      forall id, id ∈ s <-> id ∈ ids /\ id <> ""%string /\ hidden_row (data c) id
  | Error _ => outcomes c <> []
  end.
Proof.
  unfold LoadHiddenDocIds. destruct (hidden_chunks _ _ _ _) as [r c'] eqn:Hc.
  apply hidden_chunks_exact in Hc; [|done]. destruct r as [s|]; [|done].
  destruct Hc as [Hd Hs]. split; [simpl; by rewrite Hd|]. intros id. rewrite Hs, elem_of_distinct_ids. set_solver.
Qed.
