(* ===== verification/FtsQuery.v ===== *)
(** * Query text in SQL (src/store/cortrix_store_sqlite.cpp)

    [SanitizeFts5Query], which turns user input into an FTS5 expression of quoted
    words, and the escaping of a LIKE prefix in [doc_delete_by_source_prefix].
    The theorems read the produced text back with the lexical rules that the
    SQLite documentation gives for FTS5 strings and for LIKE ... ESCAPE. *)
From Stdlib Require Import Ascii String.
From S2P Require Import Prelude.

Module FtsQuery.

(** The characters of a [std::string]. *)
Abbreviation chars := (list ascii).
Definition code (c : ascii) : Z := Z.of_N (N_of_ascii c).

Definition dquote : ascii := ascii_of_N 34.
Definition backslash : ascii := ascii_of_N 92.

(** ' ', '\t', '\n', '\r'. *)
Definition is_space (c : ascii) : bool := bool_decide (code c ∈ [32; 9; 10; 13]).

(** [std::isalnum] of the C locale, or the high bit set. *)
Definition is_word_char (c : ascii) : bool :=
  (48 <=? code c) && (code c <=? 57) || (65 <=? code c) && (code c <=? 90)
  || (97 <=? code c) && (code c <=? 122) || (127 <? code c).

(** The outer loop: skip white space, take the run up to the next white space. *)
Fixpoint take_token (l : chars) : chars * chars :=
  match l with
  | [] => ([], [])
  | c :: l => if is_space c then ([], c :: l)
              else let '(t, rest) := take_token l in (c :: t, rest)
  end.

Fixpoint skip_space (l : chars) : chars :=
  match l with
  | [] => []
  | c :: l' => if is_space c then skip_space l' else l
  end.

Fixpoint escape_quotes (t : chars) : chars :=
  match t with
  | [] => []
  | c :: t => (if bool_decide (c = dquote) then [dquote] else []) ++ c :: escape_quotes t
  end.

Definition quoted (t : chars) : chars := dquote :: escape_quotes t ++ [dquote].

(** [sanitized += " OR "] before every word but the first. *)
Definition separator : chars := [" "; "O"; "R"; " "]%char.

(** The rest of the loop, with one unit of fuel per round; every round takes at
    least one character of the input. *)
Fixpoint sanitize_from (fuel : nat) (l : chars) (first_token : bool) : chars :=
  match fuel with
  | O => []
  | S fuel =>
      match skip_space l with
      | [] => []
      | l =>
          let '(token, rest) := take_token l in
          if existsb is_word_char token then
            (if first_token then [] else separator) ++ quoted token
            ++ sanitize_from fuel rest false
          else sanitize_from fuel rest first_token
      end
  end.

Definition SanitizeFts5Query (raw_query : chars) : chars :=
  sanitize_from (S (length raw_query)) raw_query true.

(** [doc_delete_by_source_prefix]: escape the wildcards, append [%]. *)
Fixpoint escape_like (prefix : chars) : chars :=
  match prefix with
  | [] => []
  | c :: prefix =>
      (if bool_decide (c ∈ ["%"; "_"; backslash]%char) then [backslash] else []) ++ c :: escape_like prefix
  end.

Definition like_pattern (prefix : chars) : chars := escape_like prefix ++ ["%"%char].

(** ** The documented reading of the two texts *)

(** An FTS5 string: a double quote, characters with double quotes doubled, and a
    double quote.  The result is the content and the rest of the text. *)
Fixpoint fts_string_body (l : chars) : option (chars * chars) :=
  match l with
  | [] => None
  | c :: l1 =>
      if bool_decide (c = dquote) then
        match l1 with
        | c2 :: l2 =>
            if bool_decide (c2 = dquote) then
              match fts_string_body l2 with
              | Some (t, rest) => Some (dquote :: t, rest)
              | None => None
              end
            else Some ([], l1)
        | [] => Some ([], [])
        end
      else
        match fts_string_body l1 with
        | Some (t, rest) => Some (c :: t, rest)
        | None => None
        end
  end.

(** An expression that is a sequence of strings joined by the operator OR: the
    phrases, or [None] if the text is anything else. *)
Fixpoint fts_disjunction (fuel : nat) (l : chars) : option (list chars) :=
  match fuel, l with
  | S fuel, c :: l =>
      if bool_decide (c = dquote) then
        match fts_string_body l with
        | Some (t, []) => Some [t]
        | Some (t, rest) =>
            if bool_decide (take 4 rest = separator) then
              match fts_disjunction fuel (drop 4 rest) with
              | Some ts => Some (t :: ts)
              | None => None
              end
            else None
        | None => None
        end
      else None
  | _, _ => None
  end.

(** LIKE folds the case of ASCII letters and of no other character. *)
Definition fold_case (c : ascii) : ascii :=
  if (65 <=? code c) && (code c <=? 90) then ascii_of_N (N_of_ascii c + 32) else c.

(** [s LIKE pattern ESCAPE '\']: [%] is any text, [_] one character, an escaped
    character itself. *)
Fixpoint like_any (match_rest : chars -> bool) (s : chars) : bool :=
  match_rest s || match s with [] => false | _ :: s => like_any match_rest s end.

Fixpoint sql_like (pattern s : chars) : bool :=
  match pattern with
  | [] => match s with [] => true | _ => false end
  | p :: pattern1 =>
      if bool_decide (p = "%"%char) then like_any (sql_like pattern1) s
      else if bool_decide (p = "_"%char) then
        match s with [] => false | _ :: s => sql_like pattern1 s end
      else if bool_decide (p = backslash) then
        match pattern1 with
        | q :: pattern2 =>
            match s with
            | c :: s => bool_decide (fold_case q = fold_case c) && sql_like pattern2 s
            | [] => false
            end
        | [] => false
        end
      else
        match s with
        | c :: s => bool_decide (fold_case p = fold_case c) && sql_like pattern1 s
        | [] => false
        end
  end.

(** The words of the input: the runs between white space. *)
Fixpoint words_from (fuel : nat) (l : chars) : list chars :=
  match fuel with
  | O => []
  | S fuel =>
      match skip_space l with
      | [] => []
      | l => let '(t, rest) := take_token l in t :: words_from fuel rest
      end
  end.
Definition words (l : chars) : list chars := words_from (S (length l)) l.

(** The words that hold something to search for. *)
Definition search_words (l : chars) : list chars :=
  filter (fun t => existsb is_word_char t = true) (words l).

(** ** Sanitised queries *)

Fixpoint joined (ts : list chars) : chars :=
  match ts with
  | [] => []
  | t :: ts => separator ++ quoted t ++ joined ts
  end.

Lemma sanitize_from_words fuel l first :
  let ts := filter (fun t => existsb is_word_char t = true) (words_from fuel l) in
  sanitize_from fuel l first =
  match ts with
  | [] => []
  | t :: ts => (if first then [] else separator) ++ quoted t ++ joined ts
  end.
Proof.
  revert l first. induction fuel as [|fuel IH]; intros l first; [done|]. cbn [sanitize_from words_from].
  destruct (skip_space l) as [|c l1]; [done|].
  destruct (take_token (c :: l1)) as [t rest]. rewrite filter_cons.
  destruct (existsb is_word_char t) eqn:Hw; [|by rewrite IH].
  rewrite decide_True, IH by done. do 2 f_equal.
  by destruct (filter _ (words_from fuel rest)).
Qed.

Lemma fts_string_body_escape t rest :
  head rest <> Some dquote -> fts_string_body (escape_quotes t ++ dquote :: rest) = Some (t, rest).
Proof.
  intros Hr. induction t as [|c t IH]; simpl.
  - destruct rest as [|c rest]; [done|]. rewrite bool_decide_false; [done|]. by intros ->.
  - case_bool_decide as Hc; subst; simpl.
    + by rewrite IH.
    + by rewrite (bool_decide_false (c = dquote)), IH by done.
Qed.

Lemma fts_disjunction_joined fuel t ts :
  (length (quoted t ++ joined ts) <= fuel)%nat ->
  fts_disjunction fuel (quoted t ++ joined ts) = Some (t :: ts).
Proof.
  revert t ts. induction fuel as [|fuel IH]; intros t ts Hf; [simpl in Hf; lia|].
  unfold quoted. simpl. rewrite <- app_assoc. simpl.
  rewrite fts_string_body_escape by (by destruct ts).
  destruct ts as [|t' ts]; [done|]. simpl joined.
  change (separator ++ quoted t' ++ joined ts) with (" "%char :: "O"%char :: "R"%char :: " "%char ::
    (quoted t' ++ joined ts)).
  simpl take. simpl drop. rewrite bool_decide_true by done.
  change (dquote :: (escape_quotes t' ++ [dquote]) ++ joined ts) with (quoted t' ++ joined ts).
  rewrite IH; [done|]. simpl in Hf. rewrite !length_app in *. simpl in *. rewrite length_app in Hf. lia.
Qed.

(** The text that [SanitizeFts5Query] makes of any input is, read with the
    lexical rules of FTS5, the disjunction of the words of the input that hold a
    letter, a digit or a non-ASCII character, each as a literal string: nothing a
    user types is read as an operator, a column filter or the end of a string.
    It is empty exactly when there is no such word. *)
Theorem SanitizeFts5Query_literal q :
  (SanitizeFts5Query q = [] <-> search_words q = []) /\
  (search_words q <> [] ->
   fts_disjunction (length (SanitizeFts5Query q)) (SanitizeFts5Query q) = Some (search_words q)).
Proof.
  unfold SanitizeFts5Query, search_words, words. rewrite sanitize_from_words. simpl.
  destruct (filter _ _) as [|t ts]; [done|]. split; [split; done|]. intros _.
  by apply fts_disjunction_joined.
Qed.

Lemma SanitizeFts5Query_literal_witness :
  let q := list_ascii_of_string "a* OR title:b"%string in
  search_words q = list_ascii_of_string <$> ["a*"; "OR"; "title:b"]%string /\
  fts_disjunction (length (SanitizeFts5Query q)) (SanitizeFts5Query q) = Some (search_words q).
Proof.
  cbv zeta. split; [vm_compute; reflexivity|].
  apply (proj2 (SanitizeFts5Query_literal _)). vm_compute. discriminate.
Defined.

(** ** LIKE prefixes *)

Lemma like_any_end s : like_any (sql_like []) s = true.
Proof. induction s as [|c s IH]; [done|]. cbn [like_any]. rewrite IH. apply orb_true_r. Qed.

Lemma sql_like_pattern p s :
  sql_like (like_pattern p) s = true <-> (fold_case <$> p) `prefix_of` (fold_case <$> s).
Proof.
  unfold like_pattern. revert s. induction p as [|c p IH]; intros s.
  { change (like_any (sql_like []) s = true <-> [] `prefix_of` (fold_case <$> s)).
    rewrite like_any_end. split; [intros _; apply prefix_nil|done]. }
  enough (sql_like (escape_like (c :: p) ++ ["%"%char]) s =
    match s with
    | x :: s => bool_decide (fold_case c = fold_case x) && sql_like (escape_like p ++ ["%"%char]) s
    | [] => false
    end) as ->.
  { destruct s as [|x s]; simpl; [split; [done|]; by intros ?%prefix_nil_inv|].
    rewrite andb_true_iff, bool_decide_eq_true, IH. split.
    - intros [-> Hp]. by apply prefix_cons.
    - intros Hp. by apply prefix_cons_inv_1 in Hp as Hx; apply prefix_cons_inv_2 in Hp. }
  simpl. case_bool_decide as Hc; simpl; [done|].
  rewrite !bool_decide_false; [done|..]; intros ->; apply Hc; set_solver.
Qed.

End FtsQuery.
