(* ===== verification/CortrixStore.v ===== *)
(** * The document store of a unit (src/store/cortrix_store_sqlite.cpp)

    The tables [documents], [blocks] with its full-text index, and [parents] of
    one store.db, and the methods of [CortrixStoreSqlite] on them, over
    Sqlite.v.  A statement is its WHERE clause, a boolean function, with its SET
    clause or its ORDER BY and LIMIT; a nullable column is an option, and a
    comparison with NULL is false.  Methods return the code's integers: 0, -1
    for an error, -2 for not found, -3 for a duplicate key.  [now] is the time
    that [strftime('now')] reads. *)
From stdpp Require Import sorting.
From Stdlib Require Import Ascii String.
From S2P Require Import Prelude Iso8601 Ulid TaskManager Sqlite Documents FtsQuery.

Module CortrixStoreSqlite.
Import Sqlite Documents FtsQuery.

(** ** The store object *)

Record CortrixStoreSqlite := MkStore {
  conn : Conn Db;
  fail_next_ops_ : Z;
  score_columns_checked_ : bool;
  has_enriched_score_ : bool;
  has_semantic_score_ : bool;
  has_deleted_from_status_ : option bool;
  foreign_keys : bool; (* PRAGMA foreign_keys of the connection *)
  ulids : Ulid.Globals (* the process-wide state of the identifier generator *)
}.

#[export] Instance CortrixStoreSqlite_eta : Eta CortrixStoreSqlite := fun s =>
  MkStore (conn s) (fail_next_ops_ s) (score_columns_checked_ s) (has_enriched_score_ s)
    (has_semantic_score_ s) (has_deleted_from_status_ s) (foreign_keys s) (ulids s).

Implicit Types s : CortrixStoreSqlite.

(** A call of SQLite on the connection of the store. *)
Definition on_conn {A} (f : Conn Db -> A * Conn Db) s : A * CortrixStoreSqlite :=
  let '(r, c) := f (conn s) in (r, s <| conn := c |>).

Definition TryConsumeOpFault s : bool * CortrixStoreSqlite :=
  if 0 <? fail_next_ops_ s then (true, s <| fail_next_ops_ := fail_next_ops_ s - 1 |>)
  else (false, s).

(** ** Statements on [documents] *)

(** UPDATE ... WHERE ... RETURNING doc_id: the number of rows is the number of
    changed rows. *)
Definition update_docs (where_ : Db -> DocRow -> bool) (set : DocRow -> DocRow) (d : Db)
    : option (Z * Db) :=
  Some (len (filter (fun r => where_ d r = true) (documents d)),
        d <| documents := (fun r => if where_ d r then set r else r) <$> documents d |>).

Definition has_doc_id (id : string) (r : DocRow) : bool := bool_decide (r_doc_id r = id).

(** INSERT: the PRIMARY KEY. *)
Definition insert_doc (r : DocRow) (d : Db) : option (Z * Db) :=
  if bool_decide (r_doc_id r ∈ r_doc_id <$> documents d) then None
  else Some (1, d <| documents := documents d ++ [r] |>).

(** DELETE FROM documents: with foreign keys enforced no block may be left. *)
Definition delete_docs (fk : bool) (where_ : DocRow -> bool) (d : Db) : option (Z * Db) :=
  let gone := filter (fun r => where_ r = true) (documents d) in
  if fk && existsb (fun b => bool_decide (b_doc_id b ∈ r_doc_id <$> gone)) (blocks d) then None
  else Some (len gone, d <| documents := filter (fun r => where_ r = false) (documents d) |>).

(** DELETE FROM blocks: the trigger [blocks_ad] takes the rows that have text out
    of the full-text index. *)
Definition delete_blocks (where_ : BlockRow -> bool) (d : Db) : option (Z * Db) :=
  let gone := filter (fun b => where_ b = true) (blocks d) in
  Some (len gone,
        d <| blocks := filter (fun b => where_ b = false) (blocks d) |>
          <| blocks_fts := filter (fun e => e.1 ∉ (b_block_id <$>
               filter (fun b => is_Some (b_content_text b)) gone)) (blocks_fts d) |>).

Definition of_doc (id : string) (b : BlockRow) : bool := bool_decide (b_doc_id b = id).

(** INSERT INTO blocks: the PRIMARY KEY and the foreign key; the trigger
    [blocks_ai] puts the text into the full-text index. *)
Definition insert_block (fk : bool) (b : BlockRow) (d : Db) : option (Z * Db) :=
  if bool_decide (b_block_id b ∈ b_block_id <$> blocks d) then None
  else if fk && negb (bool_decide (b_doc_id b ∈ r_doc_id <$> documents d)) then None
  else Some (1, d <| blocks := blocks d ++ [b] |>
                  <| blocks_fts := blocks_fts d ++
                       match b_content_text b with
                       | Some t => [(b_block_id b, t)]
                       | None => []
                       end |>).

(** ** The column probe *)

Inductive ColumnProbe := kPresent | kAbsent | kUnknown.

Definition DeletedFromStatusColumnLocked s : ColumnProbe * CortrixStoreSqlite :=
  match has_deleted_from_status_ s with
  | Some b => (if b then kPresent else kAbsent, s)
  | None =>
      let '(q, s) := on_conn (select documents_columns) s in
      match q with
      | None => (kUnknown, s)
      | Some (names, done) =>
          let present := bool_decide ("deleted_from_status"%string ∈ names) in
          if negb present && negb done then (kUnknown, s)
          else (if present then kPresent else kAbsent,
                s <| has_deleted_from_status_ := Some present |>)
      end
  end.

Definition marker_of (p : ColumnProbe) : bool := match p with kPresent => true | _ => false end.

(** [deleted_from_status = status, status = 'deleted', deleted_at = ?,
    updated_at = strftime(...)], the first only with the column. *)
Definition set_deleted (marker : bool) (now now_ms : Z) (r : DocRow) : DocRow :=
  (if marker then r <| r_deleted_from_status := Some (r_status r) |> else r)
    <| r_status := DocStatusStr kDeleted |> <| r_deleted_at := Some now_ms |>
    <| r_updated_at := NowIso8601 now |>.

(** [status = 'ready', deleted_at = NULL, deleted_from_status = NULL, ...]. *)
Definition set_restored (marker : bool) (now : Z) (r : DocRow) : DocRow :=
  (if marker then r <| r_deleted_from_status := None |> else r)
    <| r_status := DocStatusStr kReady |> <| r_deleted_at := None |>
    <| r_updated_at := NowIso8601 now |>.

(** The rows that an UPDATE ... RETURNING gave, if it finished. *)
Definition finished (c : changed) : option Z :=
  match c with Changes n => Some n | _ => None end.

(** ** Versions of a source *)

Definition retires (keep_doc_id : string) (d : Db) (r : DocRow) : bool :=
  existsb (fun k => has_doc_id keep_doc_id k && versioned k && same_source r k && live r
                    && sorts_before r k) (documents d).

Definition RetireOlderVersionsLocked (now : Z) (keep_doc_id : string) (now_ms : Z) s
    : Z * Z * CortrixStoreSqlite :=
  let '(p, s) := DeletedFromStatusColumnLocked s in
  let '(c, s) := on_conn (change (update_docs (retires keep_doc_id)
                                   (set_deleted (marker_of p) now now_ms))) s in
  match finished c with
  | None => (-1, 0, s)
  | Some n => (0, n, s)
  end.

Definition doc_retire_older_versions (now : Z) (keep_doc_id : string) (now_ms : Z) s
    : Z * Z * CortrixStoreSqlite :=
  let '(fault, s) := TryConsumeOpFault s in
  if fault then (-1, 0, s) else RetireOlderVersionsLocked now keep_doc_id now_ms s.

Definition UpdateStatusLocked (now : Z) (id : string) (st : DocStatus) (msg : string) s
    : Z * CortrixStoreSqlite :=
  let '(c, s) := on_conn (change (update_docs (fun _ r => has_doc_id id r && live r)
    (fun r => r <| r_status := DocStatusStr st |> <| r_error_message := Some msg |>
                <| r_updated_at := NowIso8601 now |>))) s in
  match finished c with
  | None => (-1, s)
  | Some n => (if 0 <? n then 0 else -2, s)
  end.

Definition doc_update_status (now : Z) (id : string) (st : DocStatus) (msg : string) s
    : Z * CortrixStoreSqlite :=
  let '(fault, s) := TryConsumeOpFault s in
  if fault then (-1, s) else UpdateStatusLocked now id st msg s.

(** The lambda [rollback] of [doc_publish_version]. *)
Definition rollback_if_open s : CortrixStoreSqlite :=
  if in_transaction (conn s) then s <| conn := ROLLBACK (conn s) |> else s.

Definition doc_publish_version (now : Z) (id : string) (now_ms : Z) s
    : Z * Z * CortrixStoreSqlite :=
  let '(fault, s) := TryConsumeOpFault s in
  if fault then (-1, 0, s) else
  let '(began, s) := on_conn BEGIN s in
  if negb began then (-1, 0, s) else
  let '(urc, s) := UpdateStatusLocked now id kReady "" s in
  if negb (urc =? 0) then (urc, 0, rollback_if_open s) else
  let '(rrc, n, s) := RetireOlderVersionsLocked now id now_ms s in
  if negb (rrc =? 0) then (-1, 0, rollback_if_open s) else
  let '(committed_, s) := on_conn COMMIT s in
  if negb committed_ then (-1, 0, rollback_if_open s) else (0, n, s).

Definition older_live_exists (d : Db) (r : DocRow) : bool :=
  existsb (fun o => same_source o r && negb (has_doc_id (r_doc_id r) o) && live o
                    && sorts_before o r) (documents d).

Definition withdraws (id : string) (d : Db) (r : DocRow) : bool :=
  has_doc_id id r && negb (bool_decide (r_status r ∈ [DocStatusStr kDeleted; DocStatusStr kReady]))
  && versioned r && older_live_exists d r.

Definition doc_withdraw_version (now : Z) (id : string) (now_ms : Z) (msg : string) s
    : Z * CortrixStoreSqlite :=
  let '(fault, s) := TryConsumeOpFault s in
  if fault then (-1, s) else
  if in_transaction (conn s) then (-1, s) else
  let '(p, s) := DeletedFromStatusColumnLocked s in
  let '(c, s) := on_conn (change (update_docs (withdraws id)
    (fun r => set_deleted (marker_of p) now now_ms r <| r_error_message := Some msg |>))) s in
  match finished c with
  | None => (-1, s)
  | Some n => (if 0 <? n then 0 else -2, s)
  end.

Definition other_live_exists (d : Db) (r : DocRow) : bool :=
  existsb (fun o => same_source o r && negb (has_doc_id (r_doc_id r) o) && live o) (documents d).

Definition doc_restore_unless_superseded (now : Z) (id : string) s : Z * CortrixStoreSqlite :=
  let '(fault, s) := TryConsumeOpFault s in
  if fault then (-1, s) else
  let '(p, s) := DeletedFromStatusColumnLocked s in
  let '(c, s) := on_conn (change (update_docs
    (fun d r => has_doc_id id r && negb (live r) && negb (other_live_exists d r))
    (set_restored (marker_of p) now))) s in
  match finished c with
  | None => (-1, s)
  | Some n => (if 0 <? n then 0 else -2, s)
  end.

(** A lookup by key: the first row, if the first step gives one. *)
Definition lookup_row {A} (f : Db -> list A) s : option (option A * bool) * CortrixStoreSqlite :=
  let '(q, s) := on_conn (select f) s in
  (match q with
   | None => None
   | Some (r :: _, _) => Some (Some r, true)
   | Some ([], done) => Some (None, done)
   end, s).

Definition docs_where (where_ : DocRow -> bool) (d : Db) : list DocRow :=
  filter (fun r => where_ r = true) (documents d).

Definition doc_get_deleted_from_status (id : string) s
    : Z * option string * CortrixStoreSqlite :=
  let '(fault, s) := TryConsumeOpFault s in
  if fault then (-1, None, s) else
  let '(p, s) := DeletedFromStatusColumnLocked s in
  match p with
  | kUnknown => (-1, None, s)
  | kAbsent => (0, None, s)
  | kPresent =>
      let '(q, s) := lookup_row (docs_where (has_doc_id id)) s in
      match q with
      | None => (-1, None, s)
      | Some (Some r, _) => (0, r_deleted_from_status r, s)
      | Some (None, done) => (if done then -2 else -1, None, s)
      end
  end.

Definition doc_get_deleted_at (id : string) s : Z * option Z * CortrixStoreSqlite :=
  let '(fault, s) := TryConsumeOpFault s in
  if fault then (-1, None, s) else
  let '(q, s) := lookup_row (docs_where (has_doc_id id)) s in
  match q with
  | None => (-1, None, s)
  | Some (Some r, _) => (0, r_deleted_at r, s)
  | Some (None, done) => (if done then -2 else -1, None, s)
  end.

(** ** Document CRUD *)

(** [bind_null] for an empty string, [ColText] for NULL. *)
Definition nullable (t : string) : option string :=
  if bool_decide (t = ""%string) then None else Some t.
Definition col_text (c : option string) : string := default ""%string c.

(** The INSERT; [created_at] and [updated_at] have a default. *)
Definition row_of (now : Z) (doc : CortrixDoc) : DocRow :=
  MkDocRow (doc_id doc) (source_type doc) (source_path doc) (Some (source_ref doc))
    (Some (content_hash doc)) (Some (file_size doc)) (Some (mime_type doc))
    (DocStatusStr (status doc)) (Some (error_message doc)) (processing_level doc)
    (Some (block_count doc)) (Some (chunk_strategy doc)) (NowIso8601 now) (NowIso8601 now)
    (nullable (processed_at doc)) (nullable (cdc_schema doc)) (nullable (cdc_position doc))
    (nullable (cdc_last_sync doc)) (Some (title doc)) (Some (language doc))
    (Some (metadata_json doc)) None None.

Definition ReadDocFromStmt (r : DocRow) : CortrixDoc :=
  MkDoc (r_doc_id r) (r_source_type r) (r_source_path r) (col_text (r_source_ref r))
    (col_text (r_content_hash r)) (default 0 (r_file_size r)) (col_text (r_mime_type r))
    (DocStatusFromStr (r_status r)) (col_text (r_error_message r)) (r_processing_level r)
    (default 0 (r_block_count r)) (col_text (r_chunk_strategy r)) (r_created_at r)
    (r_updated_at r) (col_text (r_processed_at r)) (col_text (r_cdc_schema r))
    (col_text (r_cdc_position r)) (col_text (r_cdc_last_sync r)) (col_text (r_title r))
    (col_text (r_language r)) (col_text (r_metadata_json r)).

Section Ops.
Context `{Planner}.
Context (draw : nat -> Z).

(** [if (doc.doc_id.empty()) doc.doc_id = id::GenerateUlid();]. *)
Definition mint_id (now : Z) (doc : CortrixDoc) (g : Ulid.Globals) : string * Ulid.Globals :=
  if bool_decide (doc_id doc = ""%string)
  then let '(codes, g) := Ulid.GenerateUlid draw now g in (TaskManager.ulid_text codes, g)
  else (doc_id doc, g).

Definition doc_create (now : Z) (doc : CortrixDoc) s : Z * CortrixDoc * CortrixStoreSqlite :=
  let '(fault, s) := TryConsumeOpFault s in
  if fault then (-1, doc, s) else
  let '(id, g) := mint_id now doc (ulids s) in
  let s := s <| ulids := g |> in
  let doc := doc <| doc_id := id |> in
  let '(c, s) := on_conn (change (insert_doc (row_of now doc))) s in
  match finished c with
  | None => (-1, doc, s)
  | Some _ =>
      let '(q, s) := lookup_row (docs_where (has_doc_id id)) s in
      match q with
      | Some (Some r, _) =>
          (0, doc <| created_at := r_created_at r |> <| updated_at := r_updated_at r |>, s)
      | _ => (0, doc, s)
      end
  end.

Definition doc_get (id : string) s : Z * option CortrixDoc * CortrixStoreSqlite :=
  let '(fault, s) := TryConsumeOpFault s in
  if fault then (-1, None, s) else
  let '(q, s) := lookup_row (docs_where (has_doc_id id)) s in
  match q with
  | None => (-1, None, s)
  | Some (Some r, _) => (0, Some (ReadDocFromStmt r), s)
  | Some (None, _) => (-2, None, s)
  end.

Definition rollback s : CortrixStoreSqlite := s <| conn := ROLLBACK (conn s) |>.

Definition doc_delete (id : string) s : Z * CortrixStoreSqlite :=
  let '(fault, s) := TryConsumeOpFault s in
  if fault then (-1, s) else
  let '(began, s) := on_conn BEGIN s in
  if negb began then (-1, s) else
  let '(cb, s) := on_conn (change (delete_blocks (of_doc id))) s in
  match finished cb with
  | None => (-1, rollback s)
  | Some _ =>
      let '(cd, s) := on_conn (change (delete_docs (foreign_keys s) (has_doc_id id))) s in
      match finished cd with
      | None => (-1, rollback s)
      | Some changes =>
          let '(committed_, s) := on_conn COMMIT s in
          if negb committed_ then (-1, rollback s)
          else (if changes =? 0 then -2 else 0, s)
      end
  end.

(** [source_path LIKE ? ESCAPE '\']. *)
Definition path_like (pattern : chars) (r : DocRow) : bool :=
  sql_like pattern (list_ascii_of_string (r_source_path r)).

(** [doc_id IN (SELECT doc_id FROM documents WHERE source_path LIKE ...)]. *)
Definition block_of_path (pattern : chars) (d : Db) (b : BlockRow) : bool :=
  existsb (fun r => path_like pattern r && of_doc (r_doc_id r) b) (documents d).

(** The lambda [bind_and_step]: only a failure to prepare is reported. *)
Definition stepped (c : changed) : bool := match c with PrepareFailed => false | _ => true end.

Definition doc_delete_by_source_prefix (source_path_prefix : string) s
    : Z * Z * CortrixStoreSqlite :=
  let '(fault, s) := TryConsumeOpFault s in
  if fault then (-1, 0, s) else
  if bool_decide (source_path_prefix = ""%string) then (0, 0, s) else
  let pattern := like_pattern (list_ascii_of_string source_path_prefix) in
  let '(began, s) := on_conn BEGIN s in
  if negb began then (-1, 0, s) else
  let '(q, s) := on_conn (select (fun d =>
    [len (filter (fun b => block_of_path pattern d b = true) (blocks d))])) s in
  match q with
  | None => (-1, 0, rollback s)
  | Some (l, _) =>
      let block_count := default 0 (head l) in
      let '(cb, s) := on_conn (change (fun d => delete_blocks (block_of_path pattern d) d)) s in
      if negb (stepped cb) then (-1, 0, rollback s) else
      let '(cd, s) := on_conn (change (delete_docs (foreign_keys s) (path_like pattern))) s in
      if negb (stepped cd) then (-1, 0, rollback s) else
      let '(committed_, s) := on_conn COMMIT s in
      if negb committed_ then (-1, 0, s) else (0, block_count, s)
  end.

Definition doc_soft_delete (now : Z) (id : string) (now_ms : Z) s : Z * CortrixStoreSqlite :=
  let '(fault, s) := TryConsumeOpFault s in
  if fault then (-1, s) else
  let '(p, s) := DeletedFromStatusColumnLocked s in
  let '(c, s) := on_conn (change (update_docs (fun _ r => has_doc_id id r)
    (fun r => set_deleted (marker_of p && live r) now now_ms r))) s in
  match finished c with
  | None => (-1, s)
  | Some n => (if n =? 0 then -2 else 0, s)
  end.

Definition doc_restore (now : Z) (id : string) s : Z * CortrixStoreSqlite :=
  let '(fault, s) := TryConsumeOpFault s in
  if fault then (-1, s) else
  let '(p, s) := DeletedFromStatusColumnLocked s in
  let '(c, s) := on_conn (change (update_docs (fun _ r => has_doc_id id r && negb (live r))
    (set_restored (marker_of p) now))) s in
  match finished c with
  | None => (-1, s)
  | Some n => (if n =? 0 then -2 else 0, s)
  end.

(** A list of rows; a failure in the middle of the scan ends it. *)
Definition doc_list (f : Db -> list DocRow) s : Z * list CortrixDoc * CortrixStoreSqlite :=
  let '(fault, s) := TryConsumeOpFault s in
  if fault then (-1, [], s) else
  let '(q, s) := on_conn (select f) s in
  match q with
  | None => (-1, [], s)
  | Some (rs, _) => (0, ReadDocFromStmt <$> rs, s)
  end.

(** [status = 'deleted' AND deleted_at IS NOT NULL AND deleted_at <= ?]. *)
Definition deleted_before (cutoff_ms : Z) (r : DocRow) : bool :=
  negb (live r) && match r_deleted_at r with Some t => t <=? cutoff_ms | None => false end.

Definition doc_list_deleted_before (cutoff_ms : Z) s : Z * list CortrixDoc * CortrixStoreSqlite :=
  doc_list (fun d => scan (docs_where (deleted_before cutoff_ms) d)) s.

Definition doc_list_by_status (st : DocStatus) s : Z * list CortrixDoc * CortrixStoreSqlite :=
  doc_list (fun d => scan (docs_where
    (fun r => bool_decide (r_status r = DocStatusStr st)) d)) s.

(** [ORDER BY created_at DESC, doc_id DESC]. *)
Definition newest_first (a b : DocRow) : bool := negb (sorts_before a b).

Definition find_doc (f : Db -> list DocRow) s : Z * option CortrixDoc * CortrixStoreSqlite :=
  let '(q, s) := lookup_row f s in
  match q with
  | None => (-1, None, s)
  | Some (Some r, _) => (0, Some (ReadDocFromStmt r), s)
  | Some (None, _) => (-2, None, s)
  end.

Definition doc_find_by_source (ty path : string) s : Z * option CortrixDoc * CortrixStoreSqlite :=
  let '(fault, s) := TryConsumeOpFault s in
  if fault then (-1, None, s) else
  find_doc (fun d => take 1 (order_by newest_first (docs_where
    (fun r => bool_decide (r_source_type r = ty) && bool_decide (r_source_path r = path) && live r)
    d))) s.

Definition doc_find_by_hash (hash : string) s : Z * option CortrixDoc * CortrixStoreSqlite :=
  let '(fault, s) := TryConsumeOpFault s in
  if fault then (-1, None, s) else
  if bool_decide (hash = ""%string) then (-2, None, s) else
  find_doc (fun d => take 1 (scan (docs_where
    (fun r => bool_decide (r_content_hash r = Some hash)) d))) s.

(** SELECT COUNT: -1 unless a row comes. *)
Definition count_of (f : Db -> Z) s : Z * option Z * CortrixStoreSqlite :=
  let '(fault, s) := TryConsumeOpFault s in
  if fault then (-1, None, s) else
  let '(q, s) := on_conn (select (fun d => [f d])) s in
  match q with
  | Some (n :: _, _) => (0, Some n, s)
  | _ => (-1, None, s)
  end.

Definition doc_count s : Z * option Z * CortrixStoreSqlite := count_of (fun d => len (documents d)) s.

(** ** Block CRUD *)

(** [EnsureScoreColumnCacheLocked], with [ColumnExists] on [blocks]: a column that
    could not be looked up counts as absent. *)
Definition ColumnExists (column : string) s : bool * CortrixStoreSqlite :=
  let '(q, s) := on_conn (select blocks_columns) s in
  (match q with Some (names, _) => bool_decide (column ∈ names) | None => false end, s).

Definition EnsureScoreColumnCacheLocked s : CortrixStoreSqlite :=
  if score_columns_checked_ s then s else
  let '(e, s) := ColumnExists "enriched_score" s in
  let '(m, s) := ColumnExists "semantic_score" s in
  s <| has_enriched_score_ := e |> <| has_semantic_score_ := m |>
    <| score_columns_checked_ := true |>.

Definition blocks_where (where_ : BlockRow -> bool) (d : Db) : list BlockRow :=
  filter (fun b => where_ b = true) (blocks d).

(** [ToSqliteInt] and [FromSqliteInt]. *)
Definition ToSqliteInt (id : Z) : Z := i64 id.
Definition FromSqliteInt (v : Z) : Z := u64 v.

Definition has_block_id (id : Z) (b : BlockRow) : bool := b_block_id b =? ToSqliteInt id.

Definition LoadBlockScoreSignalsLocked (id : Z) s : option Z * option Z * CortrixStoreSqlite :=
  let s := EnsureScoreColumnCacheLocked s in
  if negb (has_enriched_score_ s) && negb (has_semantic_score_ s) then (None, None, s) else
  let '(q, s) := lookup_row (blocks_where (has_block_id id)) s in
  match q with
  | Some (Some b, _) =>
      (if has_enriched_score_ s then b_enriched_score b else None,
       if has_semantic_score_ s then b_semantic_score b else None, s)
  | _ => (None, None, s)
  end.

Definition nonnegative (n : Z) : option Z := if 0 <=? n then Some n else None.

(** The INSERT of a block under the key [rowid]. *)
Definition block_row (rowid : Z) (b : CortrixBlock) : BlockRow :=
  MkBlockRow rowid (k_doc_id b) (chunk_index b) (block_type b) (k_processing_level b)
    (nonnegative (hnsw_node_id b)) (nullable (k_content_hash b)) (block_data b)
    (nullable (content_text b)) (nullable (child_id b)) (nullable (parent_id b))
    (nonnegative (token_count b)) (nonnegative (parent_offset b))
    (nullable (k_metadata_json b)) None None None None None None (Some 0) None.

(** The key that SQLite picks: one more than the largest, and a free one of its
    choice when there is no larger one. *)
Definition next_rowid (pick : list Z -> Z) (ids : list Z) : Z :=
  match ids with
  | [] => 1
  | id :: rest =>
      let m := foldr Z.max id rest in
      if m =? 2 ^ 63 - 1 then pick ids else m + 1
  end.

Definition block_insert (pick : list Z -> Z) (block : CortrixBlock) s
    : Z * CortrixBlock * CortrixStoreSqlite :=
  let '(fault, s) := TryConsumeOpFault s in
  if fault then (-1, block, s) else
  let explicit_id := negb (block_id block =? 0) in
  let rowid := if explicit_id then ToSqliteInt (block_id block)
               else next_rowid pick (b_block_id <$> blocks (data (conn s))) in
  let '(c, s) := on_conn (change (insert_block (foreign_keys s) (block_row rowid block))) s in
  match finished c with
  | None => (-1, block, s)
  | Some _ => (0, if explicit_id then block else block <| block_id := u64 rowid |>, s)
  end.

Definition read_block (b : BlockRow) : CortrixBlock :=
  MkBlock (FromSqliteInt (b_block_id b)) (b_doc_id b) (b_chunk_index b) (b_block_type b)
    (b_processing_level b) (default (-1) (b_hnsw_node_id b)) (col_text (b_content_hash b))
    (b_data b) (col_text (b_content_text b)) (col_text (b_child_id b)) (col_text (b_parent_id b))
    (default (-1) (b_token_count b)) (default (-1) (b_parent_offset b))
    (col_text (b_metadata_json b)) None None.

Definition with_signals (b : CortrixBlock) s : CortrixBlock * CortrixStoreSqlite :=
  let '(e, m, s) := LoadBlockScoreSignalsLocked (block_id b) s in
  (b <| enriched_score := e |> <| semantic_score := m |>, s).

Definition block_get (id : Z) s : Z * option CortrixBlock * CortrixStoreSqlite :=
  let '(fault, s) := TryConsumeOpFault s in
  if fault then (-1, None, s) else
  let '(q, s) := lookup_row (blocks_where (has_block_id id)) s in
  match q with
  | None => (-1, None, s)
  | Some (Some r, _) => let '(b, s) := with_signals (read_block r) s in (0, Some b, s)
  | Some (None, _) => (-2, None, s)
  end.

(** The second loop of [block_get_by_doc]. *)
Fixpoint all_signals (bs : list CortrixBlock) s : list CortrixBlock * CortrixStoreSqlite :=
  match bs with
  | [] => ([], s)
  | b :: bs =>
      let '(b, s) := with_signals b s in
      let '(bs, s) := all_signals bs s in
      (b :: bs, s)
  end.

Definition chunk_order (a b : BlockRow) : bool := b_chunk_index a <=? b_chunk_index b.

Definition block_get_by_doc (id : string) s : Z * list CortrixBlock * CortrixStoreSqlite :=
  let '(fault, s) := TryConsumeOpFault s in
  if fault then (-1, [], s) else
  let '(q, s) := on_conn (select (fun d => order_by chunk_order (blocks_where (of_doc id) d))) s in
  match q with
  | None => (-1, [], s)
  | Some (rs, _) => let '(bs, s) := all_signals (read_block <$> rs) s in (0, bs, s)
  end.

Definition block_delete_by_doc (id : string) s : Z * CortrixStoreSqlite :=
  let '(fault, s) := TryConsumeOpFault s in
  if fault then (-1, s) else
  let '(c, s) := on_conn (change (delete_blocks (of_doc id))) s in
  (match finished c with Some _ => 0 | None => -1 end, s).

Definition block_count s : Z * option Z * CortrixStoreSqlite := count_of (fun d => len (blocks d)) s.

Definition block_count_by_doc (id : string) s : Z * option Z * CortrixStoreSqlite :=
  count_of (fun d => len (blocks_where (of_doc id) d)) s.

(** [child_id IS NOT NULL AND child_id <> '']. *)
Definition is_child (b : BlockRow) : bool :=
  match b_child_id b with Some t => negb (bool_decide (t = ""%string)) | None => false end.

Definition child_block_count_by_doc (id : string) s : Z * option Z * CortrixStoreSqlite :=
  count_of (fun d => len (blocks_where (fun b => of_doc id b && is_child b) d)) s.

(** ** Parents *)

Definition insert_parent (p : CortrixParent) (d : Db) : option (Z * Db) :=
  if bool_decide (p_parent_id p ∈ p_parent_id <$> parents d) then None
  else Some (1, d <| parents := parents d ++ [p] |>).

Definition parent_insert (p : CortrixParent) s : Z * CortrixStoreSqlite :=
  let '(fault, s) := TryConsumeOpFault s in
  if fault then (-1, s) else
  let '(c, s) := on_conn (change (insert_parent p)) s in
  (match c with
   | Changes _ => 0
   | StepFailed true => -3
   | _ => -1
   end, s).

Definition parent_get (id : string) s : Z * option CortrixParent * CortrixStoreSqlite :=
  let '(fault, s) := TryConsumeOpFault s in
  if fault then (-1, None, s) else
  let '(q, s) := lookup_row (fun d =>
    filter (fun p => p_parent_id p = id) (parents d)) s in
  match q with
  | None => (-1, None, s)
  | Some (Some p, _) => (0, Some p, s)
  | Some (None, _) => (-2, None, s)
  end.

(** ** Full text

    FTS5: the rows that an expression matches, best first, with the bits of their
    rank; an expression that it rejects matches nothing. *)
Definition fts5 := chars -> list (Z * string) -> list (Z * Z).

Record SearchResult := MkSearchResult {
  sr_block_id : Z; sr_doc_id : string; sr_score : Z; sr_content_text : string
}.

(** The joins with [blocks] and [documents], and the visibility condition. *)
Definition visible_hit (d : Db) (hit : Z * Z) : option SearchResult :=
  match filter (fun b => b_block_id b = hit.1) (blocks d) with
  | b :: _ =>
      match docs_where (has_doc_id (b_doc_id b)) d with
      | r :: _ =>
          if HiddenDocPredicate d r then None
          else Some (MkSearchResult (FromSqliteInt (b_block_id b)) (b_doc_id b) hit.2
                       (col_text (b_content_text b)))
      | [] => None
      end
  | [] => None
  end.

(** [LIMIT ?]: a negative limit is none. *)
Definition limit {A} (n : Z) (l : list A) : list A := if n <? 0 then l else take (Z.to_nat n) l.

Definition search_fulltext (match_rows : fts5) (query : string) (top_k : Z) s
    : Z * list SearchResult * CortrixStoreSqlite :=
  let '(fault, s) := TryConsumeOpFault s in
  if fault then (-1, [], s) else
  let sanitized := SanitizeFts5Query (list_ascii_of_string query) in
  if bool_decide (sanitized = []) then (0, [], s) else
  let '(q, s) := on_conn (select (fun d =>
    limit top_k (omap (visible_hit d) (match_rows sanitized (blocks_fts d))))) s in
  match q with
  | None => (-1, [], s)
  | Some (l, _) => (0, l, s)
  end.

(** Not implemented in the code. *)
Definition search_metadata s : Z * CortrixStoreSqlite := let '(_, s) := TryConsumeOpFault s in (-1, s).

(** ** Crash recovery *)

(** SELECT doc_id FROM documents WHERE status = ...: [None] when it does not
    prepare; a failed step ends the list. *)
Definition ids_with_status (st : DocStatus) s : option (list string) * CortrixStoreSqlite :=
  let '(q, s) := on_conn (select (fun d =>
    r_doc_id <$> scan (docs_where (fun r => bool_decide (r_status r = DocStatusStr st)) d))) s in
  (fst <$> q, s).

(** One DELETE whose result is not looked at. *)
Definition try_change (f : Db -> option (Z * Db)) s : CortrixStoreSqlite :=
  (on_conn (change f) s).2.

Definition drop_blocks_of (ids : list string) s : CortrixStoreSqlite :=
  foldl (fun s id => try_change (delete_blocks (of_doc id)) s) s ids.

Definition drop_docs (ids : list string) s : CortrixStoreSqlite :=
  foldl (fun s id => try_change (delete_docs (foreign_keys s) (has_doc_id id))
                       (try_change (delete_blocks (of_doc id)) s)) s ids.

Definition reset_processing (now : Z) : Db -> option (Z * Db) :=
  update_docs (fun _ r => bool_decide (r_status r = DocStatusStr kProcessing))
    (fun r => r <| r_status := DocStatusStr kPending |> <| r_updated_at := NowIso8601 now |>).

Definition RecoverCrashedDocs (now : Z) s : Z * CortrixStoreSqlite :=
  let '(processing_ids, s) := ids_with_status kProcessing s in
  match processing_ids with
  | None => (-1, s)
  | Some processing_ids =>
      let s := drop_blocks_of processing_ids s in
      let s := if bool_decide (processing_ids = []) then s
               else try_change (reset_processing now) s in
      let '(deleting_ids, s) := ids_with_status kDeleting s in
      match deleting_ids with
      | None => (-1, s)
      | Some deleting_ids => (0, drop_docs deleting_ids s)
      end
  end.

End Ops.

End CortrixStoreSqlite.
