(* ===== verification/EnrichState.v ===== *)
(** * The enrichment ledger (src/spc/enrich_state_store.cpp)

    [BlockColumns] has what enrichment writes beside the ledger: the columns of a
    block, its contextual label and the document's full-text row.  [EnrichState] is
    the ledger.

    One row of [enrich_state] per enriched chunk: whether its enrichments are all
    there, owed, or given up on, how many deliveries it had, when the next is due,
    and the generation that keeps a delivery from undoing what happened while it
    ran.  The functions are statements on a connection of the store's database; a
    null handle, which each refuses, is left out.  The ledger's own history is at
    the end: what a flip can undo ([Flip_respects_transitions]) and how often a
    chunk is delivered ([Deliveries_bounded]). *)
From Stdlib Require Import Ascii String.
From stdpp Require Import gmap strings.
From Stdlib Require Import Floats.SpecFloat.
From S2P Require Import Prelude Status LittleEndian SparseCodec CppStd Sqlite Documents CortrixStore SpcStages.

(** ** The columns of an enriched block (contextual_store.cpp, enricher_store.cpp) *)

Module BlockColumns.
Import Sqlite Documents EnricherChain FloatBits.
#[local] Open Scope string_scope.

Definition has_id (block_id : Z) (b : BlockRow) : bool := CortrixStoreSqlite.has_block_id block_id b.

(** UPDATE blocks SET ... WHERE block_id = ?. *)
Definition update_block (block_id : Z) (set : BlockRow -> BlockRow) (d : Db) : option (Z * Db) :=
  Some (len (filter (fun b => has_id block_id b = true) (blocks d)),
        d <| blocks := (fun b => if has_id block_id b then set b else b) <$> blocks d |>).

Definition statement (prefix prepare step : string) (r : changed) : Status :=
  match r with
  | PrepareFailed => Status_Internal (prefix ++ prepare)
  | StepFailed _ => Status_Internal (prefix ++ step)
  | Changes _ => Status_Ok
  end.

(** A vector as the bits of its floats, packed. *)
Definition bits (v : list float32) : list Z := f32_bits <$> v.
Definition pack (v : list Z) : bytes := concat (PutU32 <$> v).
Fixpoint unpack (n : nat) (data : bytes) : list Z :=
  match n with O => [] | S n => get_le (take 4 data) :: unpack n (drop 4 data) end.

Definition contextual := statement "CX_ERR_CONTEXTUAL_STORE: ".

Definition nonempty_vector (v : option (list float32)) : option (list float32) :=
  match v with Some [] | None => None | Some v => Some v end.

Definition WriteContextualized (block_id : Z) (result : EnrichResult) (c : Conn Db) : Status * Conn Db :=
  let f35_ran := negb (contextualized_status result =? 0)%Z || bool_decide (is_Some (contextualized_text result))
                 || bool_decide (is_Some (contextualized_embedding result)) in
  if negb f35_ran then (Status_Ok, c) else
  let '(r, c) := change (update_block block_id (fun b =>
    b <| b_contextualized_text := contextualized_text result |>
      <| b_contextualized_embedding := (fun v => pack (bits v)) <$> nonempty_vector (contextualized_embedding result) |>
      <| b_contextualized_status := Some (contextualized_status result) |>)) c in
  (contextual "prepare update blocks contextualized" "update blocks contextualized" r, c).

Section Labels.
(** The identifier of a block from its business id: SipHash with the key of the
    deployment, a parameter. *)
Context (HashChildIdToBlockId : string -> Z).
Definition DeriveContextualVecLabel (child_id : string) : Z := HashChildIdToBlockId (child_id ++ ":ctx").
End Labels.

Record ContextualVecLabelRow := MkLabelRow { label : Z; l_block_id : Z; l_child_id : string }.

Definition sql_int (v : Z) : Z := CortrixStoreSqlite.ToSqliteInt v.

(** The child's id is not kept: nothing reads the column. *)
Definition upsert_label (row : ContextualVecLabelRow) (d : Db) : option (Z * Db) :=
  let entry := (sql_int (label row), sql_int (l_block_id row)) in
  Some (1%Z, d <| labels := if existsb (fun e => (e.1 =? entry.1)%Z) (labels d)
                           then (fun e => if (e.1 =? entry.1)%Z then entry else e) <$> labels d
                           else (labels d ++ [entry])%list |>).

Definition WriteContextualVecLabel (row : ContextualVecLabelRow) (c : Conn Db) : Status * Conn Db :=
  let '(r, c) := change (upsert_label row) c in
  (contextual "prepare upsert contextual_vec_labels" "upsert contextual_vec_labels" r, c).

Definition delete_label (l : Z) (d : Db) : option (Z * Db) :=
  Some (len (filter (fun e => e.1 = sql_int l) (labels d)),
        d <| labels := filter (fun e => e.1 <> sql_int l) (labels d) |>).

(** Whether this call removed the row. *)
Definition DeleteContextualVecLabel (l : Z) (c : Conn Db) : Result bool * Conn Db :=
  let '(r, c) := change (delete_label l) c in
  (match r with
   | PrepareFailed => Error (Status_Internal "CX_ERR_CONTEXTUAL_STORE: prepare delete contextual_vec_labels")
   | StepFailed _ => Error (Status_Internal "CX_ERR_CONTEXTUAL_STORE: delete contextual_vec_labels")
   | Changes n => Value (0 <? n)%Z
   end, c).

(** The block of a label. *)
Definition GetContextualVecLabel (l : Z) (c : Conn Db) : Result Z * Conn Db :=
  let '(q, c) := select (fun d => filter (fun e => e.1 = sql_int l) (labels d)) c in
  (match q with
   | Some (e :: _, _) => Value (u64 e.2)
   | Some ([], true) => Error (MkStatus kNotFound "CX_ERR_CONTEXTUAL_STORE: label not found")
   | None => Error (Status_Internal "CX_ERR_CONTEXTUAL_STORE: prepare get contextual_vec_labels")
   | Some ([], false) => Error (Status_Internal "CX_ERR_CONTEXTUAL_STORE: get contextual_vec_labels")
   end, c).

(** [kBlockHasStoredContextualVectorSql]. *)
Definition has_stored_vector (b : BlockRow) : bool :=
  bool_decide (b_contextualized_status b = Some 1%Z)
  && match b_contextualized_embedding b with
     | Some blob => (0 <? len blob)%Z && (len blob mod 4 =? 0)%Z
     | None => false
     end.

Definition ReadStoredContextualVector (block_id : Z) (c : Conn Db) : Result (list Z) * Conn Db :=
  let '(q, c) := select (fun d => filter (fun b => has_id block_id b && has_stored_vector b = true) (blocks d)) c in
  (match q with
   | Some (b :: _, _) =>
       let blob := default [] (b_contextualized_embedding b) in Value (unpack (length blob / 4) blob)
   | Some ([], true) => Error (MkStatus kNotFound "CX_ERR_CONTEXTUAL_STORE: no stored contextual vector")
   | None => Error (Status_Internal "CX_ERR_CONTEXTUAL_STORE: prepare read stored contextual vector")
   | Some ([], false) => Error (Status_Internal "CX_ERR_CONTEXTUAL_STORE: read stored contextual vector")
   end, c).

(** [sqlite3_bind_double]: a NaN is NULL. *)
Definition real_column (f : float32) : option Z :=
  match f with S754_nan => None | _ => Some (f64_bits (d_of_float f)) end.

Definition WriteScore (block_id : Z) (semantic_score : float32) (c : Conn Db) : Status * Conn Db :=
  let '(r, c) := change (update_block block_id (fun b => b <| b_semantic_score := real_column semantic_score |>)) c in
  (statement "CX_ERR_SCORING_STORE: " "prepare update: " "update semantic_score: " r, c).

Section Enrichment.
Context `{Nlohmann}.

Definition enricher := statement "CX_ERR_ENRICHER_STORE: ".

Definition enricher_metadata (result : EnrichResult) : string :=
  json_dump (JObject [("prompt_version", JString (prompt_version result)); ("model_used", JString (model_used result));
    ("enricher_name", JString (enricher_name result)); ("token_count", JInt (token_count result));
    ("duration_ms", JInt (duration_ms result))]).

Definition WriteBlockEnrichment (block_id : Z) (result : EnrichResult) (c : Conn Db) : Status * Conn Db :=
  if negb (result_ok result) || bool_decide (enricher_name result = "") then (Status_Ok, c) else
  let '(r, c) := change (update_block block_id (fun b =>
    b <| b_enriched_score := real_column (enriched_score result) |> <| b_enriched_at := Some (enriched_at result) |>
      <| b_enricher_metadata := Some (enricher_metadata result) |>)) c in
  (enricher "prepare update blocks" "update blocks enrichment" r, c).

(** The tables entities and entities_fts are not kept: their statements succeed or
    fail, two steps for every entity. *)
Definition insert_elsewhere (d : Db) : option (Z * Db) := Some (1%Z, d).
Fixpoint insert_entities (entities : list Entity) (c : Conn Db) : Status * Conn Db :=
  match entities with
  | [] => (Status_Ok, c)
  | _ :: rest =>
      let '(r, c) := change insert_elsewhere c in
      match r with
      | Changes _ =>
          let '(r, c) := change insert_elsewhere c in
          match r with
          | Changes _ => insert_entities rest c
          | _ => (Status_Internal "CX_ERR_ENRICHER_STORE: insert entity_fts", c)
          end
      | _ => (Status_Internal "CX_ERR_ENRICHER_STORE: insert entity", c)
      end
  end.

Definition prepare_only (c : Conn Db) : bool * Conn Db :=
  let '(q, c) := select (fun _ => @nil unit) c in (bool_decide (is_Some q), c).
Definition WriteEntities (entities : list Entity) (c : Conn Db) : Status * Conn Db :=
  match entities with
  | [] => (Status_Ok, c)
  | _ =>
      let '(prepared, c) := prepare_only c in
      if negb prepared then (Status_Internal "CX_ERR_ENRICHER_STORE: prepare insert entities", c) else
      let '(prepared, c) := prepare_only c in
      if negb prepared then (Status_Internal "CX_ERR_ENRICHER_STORE: prepare insert entities_fts", c)
      else insert_entities entities c
  end.

(** Neither the COMMIT nor the ROLLBACK is looked at. *)
Definition WriteEnrichment (block_id : Z) (result : EnrichResult) (c : Conn Db) : Status * Conn Db :=
  let '(began, c) := BEGIN c in
  if negb began then (Status_Internal "CX_ERR_ENRICHER_STORE: begin: ", c) else
  let '(s, c) := WriteBlockEnrichment block_id result c in
  let '(s, c) := if status_ok s then WriteEntities (entities result) c else (s, c) in
  (s, if status_ok s then (COMMIT c).2 else ROLLBACK c).

End Enrichment.

(** *** The sparse vector (sparse_vec_store.cpp) *)

Definition sparse_failed (detail : string) : Status :=
  SparseError.SparseStatus SparseError.kInvertedIndexWriteFailed detail.

Definition sparse_blob (vec : SparseCodec.SparseVector) : bytes * bool :=
  match SparseCodec.terms vec with [] => ([], true) | _ => SparseCodec.SerializeSparseVec vec end.

(** A vector that does not serialize ends the call after the prepare. *)
Definition WriteSparseVec (block_id : Z) (vec : SparseCodec.SparseVector) (c : Conn Db) : Status * Conn Db :=
  let '(blob, serialized_ok) := sparse_blob vec in
  if negb serialized_ok then
    let '(q, c) := select (fun _ => @nil unit) c in
    (match q with
     | None => sparse_failed "WriteSparseVec prepare: "
     | Some _ => SparseError.SparseStatus SparseError.kSparseSerializeFailed
                   "WriteSparseVec: serialize failed (term_id out of range)"
     end, c)
  else
    let '(r, c) := change (update_block block_id (fun b =>
      b <| b_sparse_vec := match blob with [] => None | _ => Some blob end |>)) c in
    (match r with
     | PrepareFailed => sparse_failed "WriteSparseVec prepare: "
     | StepFailed _ => sparse_failed "WriteSparseVec step: "
     | Changes _ => Status_Ok
     end, c).

(** *** The document's row in the full-text index (doc_fts5_index.cpp) *)

Definition delete_fts (doc : string) (d : Db) : option (Z * Db) :=
  Some (len (filter (fun r => f_doc_id r = doc) (doc_fts5_index d)),
        d <| doc_fts5_index := filter (fun r => f_doc_id r <> doc) (doc_fts5_index d) |>).

Definition fts_failed (detail : string) : Status := MkStatus kUnavailable ("CX_ERR_F41_FTS5_FALLBACK_FAILED: " ++ detail).

Definition UpsertDocFts5Row (row : DocFtsRow) (c : Conn Db) : Status * Conn Db :=
  if bool_decide (f_doc_id row = "") then (fts_failed "Upsert doc_fts5_index requires doc_id", c) else
  let '(r, c) := change (delete_fts (f_doc_id row)) c in
  match r with
  | PrepareFailed => (fts_failed "prepare delete: ", c)
  | StepFailed _ => (fts_failed "delete: ", c)
  | Changes _ =>
      let '(r, c) := change (fun d => Some (1%Z, d <| doc_fts5_index := (doc_fts5_index d ++ [row])%list |>)) c in
      match r with
      | PrepareFailed => (fts_failed "prepare insert: ", c)
      | StepFailed _ => (fts_failed "insert: ", c)
      | Changes _ => (Status_Ok, c)
      end
  end.

Definition DeleteDocFts5Row (doc : string) (c : Conn Db) : Status * Conn Db :=
  if bool_decide (doc = "") then (Status_Ok, c) else
  let '(r, c) := change (delete_fts doc) c in
  match r with
  | PrepareFailed => (fts_failed "prepare delete: ", c)
  | StepFailed _ => (fts_failed "delete: ", c)
  | Changes _ => (Status_Ok, c)
  end.

End BlockColumns.

(** ** The ledger *)

Module EnrichState.
Import Sqlite Documents IndexGates DataCleaner.
#[local] Open Scope string_scope.

Definition kEnrichStatusOk : string := "ok".
Definition kEnrichStatusPendingRetry : string := "pending_retry".
Definition kEnrichStatusFailedPermanent : string := "failed_permanent".
Definition kEnrichRetryFirstDelaySec : Z := 60.
Definition kEnrichMaxAttempts : Z := 8.
Definition kEnrichNoTerminal : Z := 2 ^ 31 - 1.

Definition SqlErr (what : string) : Status := Status_Internal ("CX_ERR_ENRICH_STATE_STORE: " ++ what).

(** The status of a statement that changes rows. *)
Definition changed_status (prepare step : string) (r : changed) : Status :=
  match r with
  | PrepareFailed => SqlErr prepare
  | StepFailed _ => SqlErr step
  | Changes _ => Status_Ok
  end.
Definition changed_count (prepare step : string) (r : changed) : Result Z :=
  match r with
  | PrepareFailed => Error (SqlErr prepare)
  | StepFailed _ => Error (SqlErr step)
  | Changes n => Value n
  end.

Definition key (id : Z) : Z := CortrixStoreSqlite.ToSqliteInt id.
Definition has_key (id : Z) (r : EnrichStateRow) : bool := (es_block_id r =? key id)%Z.
Definition has_status (s : string) (r : EnrichStateRow) : bool := bool_decide (es_status r = s).

Definition update_ledger (where_ : Db -> EnrichStateRow -> bool) (set : EnrichStateRow -> EnrichStateRow) (d : Db)
    : option (Z * Db) :=
  Some (len (filter (fun r => where_ d r = true) (enrich_state d)),
        d <| enrich_state := (fun r => if where_ d r then set r else r) <$> enrich_state d |>).

(** INSERT ... ON CONFLICT(block_id) DO UPDATE. *)
Definition upsert_ledger (row : EnrichStateRow) (set : EnrichStateRow -> EnrichStateRow) (d : Db) : option (Z * Db) :=
  if existsb (has_key (es_block_id row)) (enrich_state d)
  then Some (1%Z, d <| enrich_state := (fun r => if has_key (es_block_id row) r then set r else r) <$> enrich_state d |>)
  else Some (1%Z, d <| enrich_state := (enrich_state d ++ [row <| es_block_id := key (es_block_id row) |>])%list |>).

(** [next_retry_at <= 0] is bound as NULL. *)
Definition bind_retry (t : option Z) : option Z :=
  match t with Some t => if (t <=? 0)%Z then None else Some t | None => None end.
Definition bound (row : EnrichStateRow) : EnrichStateRow := row <| next_retry_at := bind_retry (next_retry_at row) |>.

(** ** The functions *)

Definition UpsertEnrichState (row : EnrichStateRow) (c : Conn Db) : Status * Conn Db :=
  if bool_decide (es_status row = "") then (Status_InvalidArgument "UpsertEnrichState: empty status", c) else
  let row := bound row in
  let '(r, c) := change (upsert_ledger row (fun old =>
    row <| es_block_id := es_block_id old |> <| generation := generation old |>)) c in
  (changed_status "prepare upsert enrich_state" "upsert enrich_state" r, c).

(** The row in the struct. *)
Definition RowFromStmt (r : EnrichStateRow) : EnrichStateRow :=
  r <| es_block_id := CortrixStoreSqlite.FromSqliteInt (es_block_id r) |>
    <| attempts := i32 (attempts r) |> <| generation := i32 (generation r) |>.

Definition by_key (a b : EnrichStateRow) : bool := (es_block_id a <=? es_block_id b)%Z.

Definition LeaseDocRetries (doc : string) (lease_until now_unix : Z) (c : Conn Db) : Status * Conn Db :=
  let '(r, c) := change (update_ledger
    (fun _ r => bool_decide (es_doc_id r = doc) && has_status kEnrichStatusPendingRetry r)
    (fun r => r <| next_retry_at := Some lease_until |> <| es_updated_at := now_unix |>)) c in
  (changed_status "prepare lease doc retries" "lease doc retries" r, c).

Definition later (now_unix : Z) (t : option Z) : bool := match t with None => true | Some t => (now_unix <? t)%Z end.

Definition MakeAllPendingDueNow (now_unix : Z) (c : Conn Db) : Result Z * Conn Db :=
  let '(r, c) := change (update_ledger
    (fun _ r => has_status kEnrichStatusPendingRetry r && later now_unix (next_retry_at r))
    (fun r => r <| next_retry_at := Some now_unix |> <| es_updated_at := now_unix |>)) c in
  (changed_count "prepare make pending due" "make pending due" r, c).

(** One row of the UPDATE: [attempts+1 > terminal_at_attempts] ends it. *)
Definition charge (now_unix terminal_at_attempts : Z) (r : EnrichStateRow) : EnrichStateRow :=
  let over := (terminal_at_attempts <? attempts r + 1)%Z in
  r <| attempts := (attempts r + 1)%Z |> <| es_updated_at := now_unix |>
    <| es_status := if over then kEnrichStatusFailedPermanent else es_status r |>
    <| next_retry_at := if over then None else next_retry_at r |>.

Definition kChunk : nat := 400.

Fixpoint charge_chunks (fuel : nat) (block_ids : list Z) (now_unix terminal_at_attempts changed : Z) (c : Conn Db)
    : Result Z * Conn Db :=
  match fuel, block_ids with
  | O, _ | _, [] => (Value changed, c)
  | S fuel, _ =>
      let chunk := take kChunk block_ids in
      let '(r, c) := change (update_ledger
        (fun _ r => has_status kEnrichStatusPendingRetry r && existsb (fun id => has_key id r) chunk)
        (charge now_unix terminal_at_attempts)) c in
      match r with
      | Changes n => charge_chunks fuel (drop kChunk block_ids) now_unix terminal_at_attempts (i32 (changed + n)) c
      | PrepareFailed => (Error (SqlErr "prepare charge enrich attempts"), c)
      | StepFailed _ => (Error (SqlErr "charge enrich attempts"), c)
      end
  end.

Definition ChargeEnrichAttempts (block_ids : list Z) (now_unix terminal_at_attempts : Z) (c : Conn Db)
    : Result Z * Conn Db :=
  charge_chunks (length block_ids) block_ids now_unix terminal_at_attempts 0 c.

(** The row that the audit leaves of an existing one. *)
Definition reowe (row : EnrichStateRow) (terminal_at_attempts : Z) (old : EnrichStateRow) : EnrichStateRow :=
  let spent := (terminal_at_attempts <=? attempts old)%Z in
  old <| es_doc_id := es_doc_id row |> <| es_child_id := es_child_id row |>
      <| es_status := if spent then kEnrichStatusFailedPermanent else es_status row |>
      <| failed_members := failed_members row |> <| last_error := last_error row |>
      <| next_retry_at := if spent then None else next_retry_at row |>
      <| es_updated_at := es_updated_at row |> <| generation := (generation old + 1)%Z |>.

(** A new row starts at generation 0, the column's default. *)
Definition ReoweEnrichState (row : EnrichStateRow) (terminal_at_attempts : Z) (c : Conn Db) : Status * Conn Db :=
  if bool_decide (es_status row = "") then (Status_InvalidArgument "ReoweEnrichState: empty status", c) else
  let row := bound row <| generation := 0%Z |> in
  let '(r, c) := change (upsert_ledger row (reowe row terminal_at_attempts)) c in
  (changed_status "prepare reowe enrich_state" "reowe enrich_state" r, c).

(** The fields that a delivery writes. *)
Definition outcome_of (row old : EnrichStateRow) : EnrichStateRow :=
  old <| es_status := es_status row |> <| failed_members := failed_members row |> <| attempts := attempts row |>
      <| last_error := last_error row |> <| next_retry_at := next_retry_at row |>
      <| es_updated_at := es_updated_at row |>.

Definition FlipEnrichStateIfGeneration (row : EnrichStateRow) (expected_generation : Z) (c : Conn Db)
    : Result bool * Conn Db :=
  if bool_decide (es_status row = "") then
    (Error (Status_InvalidArgument "FlipEnrichStateIfGeneration: empty status"), c) else
  let row := bound row in
  let '(r, c) := change (update_ledger
    (fun _ r => has_key (es_block_id row) r && (generation r =? expected_generation)%Z) (outcome_of row)) c in
  (match r with
   | PrepareFailed => Error (SqlErr "prepare flip enrich_state")
   | StepFailed _ => Error (SqlErr "flip enrich_state")
   | Changes n => Value (0 <? n)%Z
   end, c).

(** [block_id IN (SELECT block_id FROM blocks)]. *)
Definition block_exists (d : Db) (r : EnrichStateRow) : bool := existsb (fun b => (b_block_id b =? es_block_id r)%Z) (blocks d).

Definition reset_row (now_unix : Z) (r : EnrichStateRow) : EnrichStateRow :=
  r <| es_status := kEnrichStatusPendingRetry |> <| attempts := 0%Z |> <| next_retry_at := Some now_unix |>
    <| last_error := "reset by operator" |> <| es_updated_at := now_unix |> <| generation := (generation r + 1)%Z |>.

(** The rows moved and the orphans; after an error of the second statement the
    counts are lost. *)
Definition ResetGivenUpEnrichRows (now_unix : Z) (c : Conn Db) : Result (Z * Z) * Conn Db :=
  let '(q, c) := select (fun d =>
    [len (filter (fun r => has_status kEnrichStatusFailedPermanent r && negb (block_exists d r) = true) (enrich_state d))]) c in
  match q with
  | None => (Error (SqlErr "prepare reset orphan count"), c)
  | Some ([], _) => (Error (SqlErr "reset orphan count"), c)
  | Some (orphaned :: _, _) =>
      let '(r, c) := change (update_ledger
        (fun d r => has_status kEnrichStatusFailedPermanent r && block_exists d r) (reset_row now_unix)) c in
      match r with
      | PrepareFailed => (Error (SqlErr "prepare reset given-up rows"), c)
      | StepFailed _ => (Error (SqlErr "reset given-up rows"), c)
      | Changes n => (Value (n, i32 orphaned), c)
      end
  end.

Definition settle_row (now_unix : Z) (r : EnrichStateRow) : EnrichStateRow :=
  r <| es_status := kEnrichStatusOk |> <| failed_members := "" |> <| last_error := "" |> <| next_retry_at := None |>
    <| es_updated_at := now_unix |> <| generation := (generation r + 1)%Z |>.

Definition SettleTerminalRow (block_id now_unix : Z) (c : Conn Db) : Status * Conn Db :=
  let '(r, c) := change (update_ledger
    (fun _ r => has_key block_id r && has_status kEnrichStatusFailedPermanent r) (settle_row now_unix)) c in
  (changed_status "prepare settle terminal row" "settle terminal row" r, c).

(** [total], [ok], [pending_retry] and [failed_permanent]. *)
Definition count_status (s : string) (d : Db) : Z := len (filter (fun r => has_status s r = true) (enrich_state d)).
Definition CountEnrichStates (c : Conn Db) : Result (Z * Z * Z * Z) * Conn Db :=
  let '(q, c) := select (fun d => [(len (enrich_state d), count_status kEnrichStatusOk d,
    count_status kEnrichStatusPendingRetry d, count_status kEnrichStatusFailedPermanent d)]) c in
  match q with
  | None => (Error (SqlErr "prepare count enrich_state"), c)
  | Some (l, true) => (Value (default (0, 0, 0, 0)%Z (head l)), c)
  | Some (_, false) => (Error (SqlErr "count enrich_state"), c)
  end.

Section Reads.
Context `{Planner}.

Definition ListEnrichStateForDoc (doc status_filter : string) (c : Conn Db) : Result (list EnrichStateRow) * Conn Db :=
  let '(q, c) := select (fun d => order_by by_key (filter (fun r =>
    bool_decide (es_doc_id r = doc) && (bool_decide (status_filter = "") || has_status status_filter r) = true)
    (enrich_state d))) c in
  match q with
  | None => (Error (SqlErr "prepare list enrich_state for doc"), c)
  | Some (rows, true) => (Value (RowFromStmt <$> rows), c)
  | Some (_, false) => (Error (SqlErr "list enrich_state for doc"), c)
  end.

(** The due rows grouped by document, with the least time of each. *)
Definition due (now_unix : Z) (r : EnrichStateRow) : bool :=
  has_status kEnrichStatusPendingRetry r
  && match next_retry_at r with Some t => (t <=? now_unix)%Z | None => false end.
Definition retry_time (r : EnrichStateRow) : Z := default 0%Z (next_retry_at r).
Definition due_docs (now_unix : Z) (d : Db) : list (string * Z) :=
  let rows := filter (fun r => due now_unix r = true) (scan (enrich_state d)) in
  (fun doc => (doc, match filter (fun r => es_doc_id r = doc) rows with
                    | r :: rs => foldr Z.min (retry_time r) (retry_time <$> rs)
                    | [] => 0%Z
                    end)) <$> remove_dups (es_doc_id <$> rows).

Definition ListDueDocs (now_unix limit : Z) (c : Conn Db) : Result (list string) * Conn Db :=
  if (limit <=? 0)%Z then (Value [], c) else
  let '(q, c) := select (fun d =>
    take (Z.to_nat limit) (order_by (fun a b => (a.2 <=? b.2)%Z) (due_docs now_unix d))) c in
  match q with
  | None => (Error (SqlErr "prepare list due docs"), c)
  | Some (docs, true) => (Value docs.*1, c)
  | Some (_, false) => (Error (SqlErr "list due docs"), c)
  end.

(** *** The audit *)

Definition kBlockHypeQuestion : Z := 16.

(** The levels by document: an unprepared SELECT reads as no documents. *)
Definition LoadDocumentLevels (c : Conn Db) : Result (gmap string Z) * Conn Db :=
  let '(q, c) := select (fun d => scan (documents d)) c in
  (match q with
   | None => Value ∅
   | Some (rows, true) => Value (foldl (fun m r => <[r_doc_id r := r_processing_level r]> m) ∅ rows)
   | Some (_, false) => Error (SqlErr "audit documents scan")
   end, c).
Definition DocLevelOf (levels : gmap string Z) (doc : string) : Z := default 3%Z (levels !! doc).

Section Audit.
Context `{Nlohmann}.

(** [kBlockSkipsIndexSql], read as an integer. *)
Definition block_skips_index (b : BlockRow) : bool :=
  match b_metadata_json b with Some text => MetadataSkipsIndex text | None => false end.

(** [json_extract(metadata_json, '$.source_child_id')]: SQLite raises on a text
    that is not JSON, which ends the scan. *)
Fixpoint hype_sources_of (rows : list BlockRow) : list string :=
  match rows with
  | [] => []
  | b :: rows =>
      match json_parse (default "" (b_metadata_json b)) with
      | None => []
      | Some (JObject o) =>
          match member "source_child_id" o with Some (JString s) => s :: hype_sources_of rows | _ => hype_sources_of rows end
      | Some _ => hype_sources_of rows
      end
  end.
Definition hype_blocks (d : Db) : list BlockRow :=
  filter (fun b => (b_block_type b =? kBlockHypeQuestion)%Z && bool_decide (is_Some (b_metadata_json b)) = true)
    (scan (blocks d)).

(** The excluded labels, in order. *)
Definition excluded_labels (levels : gmap string Z) (d : Db) : list (Z * bool) :=
  omap (fun e =>
    b ← head (filter (fun b => b_block_id b = e.2) (blocks d));
    Some (u64 e.1, negb (IndexPointsExpected (DocLevelOf levels (b_doc_id b)) (block_skips_index b))))
  (order_by (fun a b => (a.1 <=? b.1)%Z) (labels d)).

Section Reconcile.
Context {V : Type} (mark_point_deleted : Z -> V -> Status * V).

(** The second loop: how many rows it removed. *)
Fixpoint remove_labels (excluded : list Z) (removed : Z) (v : V) (c : Conn Db) : Status * Z * V * Conn Db :=
  match excluded with
  | [] => (Status_Ok, removed, v, c)
  | l :: rest =>
      let '(mark, v) := mark_point_deleted l v in
      if negb (status_ok mark) then (mark, removed, v, c) else
      let '(del, c) := BlockColumns.DeleteContextualVecLabel l c in
      match del with
      | Error s => (s, removed, v, c)
      | Value b => remove_labels rest (if b then removed + 1 else removed)%Z v c
      end
  end.

Definition ReconcileExcludedContextualLabels (v : V) (c : Conn Db) : Status * Z * V * Conn Db :=
  let '(levels, c) := LoadDocumentLevels c in
  match levels with
  | Error s => (s, 0%Z, v, c)
  | Value levels =>
      let '(q, c) := select (excluded_labels levels) c in
      match q with
      | None => (Status_Ok, 0%Z, v, c)
      | Some (_, false) => (SqlErr "reconcile labels scan", 0%Z, v, c)
      | Some (rows, true) => remove_labels (filter (fun e => e.2 = true) rows).*1 0 v c
      end
  end.
End Reconcile.

(** What the passes before the last one found. *)
Record AuditView := MkAuditView {
  hype_sources : list string;
  ctx_labels : option (list Z); (* the labelled blocks, if the table could be read *)
  doc_levels : gmap string Z;
  in_flight : list Z;
  given_up : list Z
}.

Context (configured_members : list string).

(** The members that a chunk owes, and whether the label alone is missing. *)
Definition audit_chunk (v : AuditView) (b : BlockRow) : list string * bool :=
  let doc_level := DocLevelOf (doc_levels v) (b_doc_id b) in
  let label_expected := IndexPointsExpected doc_level (block_skips_index b) in
  let f35_done := (default 0 (b_contextualized_status b) =? 1)%Z
    && (negb label_expected || match ctx_labels v with None => true | Some l => bool_decide (b_block_id b ∈ l) end) in
  let owes m b := if bool_decide (m ∈ configured_members) && b then [m] else [] in
  let owed := (owes "f03" (bool_decide (b_enriched_score b = None)) ++ owes "f35" (negb f35_done)
    ++ owes "f38" (HypeBlocksExpected doc_level
                   && negb (bool_decide (default "" (b_child_id b) ∈ hype_sources v))))%list in
  (owed, bool_decide ("f35" ∈ configured_members) && negb f35_done && BlockColumns.has_stored_vector b
         && bool_decide (owed = ["f35"])).

Definition audit_row (now_unix : Z) (b : BlockRow) (owed : list string) : EnrichStateRow :=
  MkEnrichStateRow (u64 (b_block_id b)) (b_doc_id b) (default "" (b_child_id b)) kEnrichStatusPendingRetry
    (String.concat "," owed) 0 "audit: artifacts missing" (Some now_unix) now_unix 0.

(** The last pass over the children: the rows synthesized and settled. *)
Fixpoint audit_children (v : AuditView) (now_unix : Z) (rows : list BlockRow) (synthesized settled : Z) (c : Conn Db)
    : Result (Z * Z) * Conn Db :=
  match rows with
  | [] => (Value (synthesized, settled), c)
  | b :: rows =>
      let '(owed, label_only_miss) := audit_chunk v b in
      let given_up_ := bool_decide (b_block_id b ∈ given_up v) in
      match owed with
      | [] =>
          if given_up_ then
            let '(s, c) := SettleTerminalRow (u64 (b_block_id b)) now_unix c in
            if negb (status_ok s) then (Error s, c)
            else audit_children v now_unix rows synthesized (settled + 1) c
          else audit_children v now_unix rows synthesized settled c
      | _ =>
          if bool_decide (b_block_id b ∈ in_flight v) || given_up_ && negb label_only_miss
          then audit_children v now_unix rows synthesized settled c
          else
            let '(s, c) := ReoweEnrichState (audit_row now_unix b owed)
                             (if label_only_miss then kEnrichNoTerminal else kEnrichMaxAttempts) c in
            audit_children v now_unix rows (if status_ok s then synthesized + 1 else synthesized)%Z settled c
      end
  end.

(** The rows that a stepping loop sees: an error ends it unnoticed. *)
Definition seen_rows {A} (q : option (list A * bool)) : option (list A) := fst <$> q.

Definition tracked (d : Db) : list (Z * bool) :=
  (fun r => (es_block_id r, has_status kEnrichStatusPendingRetry r)) <$>
    filter (fun r => has_status kEnrichStatusPendingRetry r || has_status kEnrichStatusFailedPermanent r = true)
      (scan (enrich_state d)).

Definition SynthesizeEnrichAuditRows (now_unix : Z) (c : Conn Db) : Result (Z * Z) * Conn Db :=
  let '(q, c) := select (fun d => hype_blocks d) c in
  match seen_rows q with
  | None => (Error (SqlErr "prepare audit hype sources"), c)
  | Some hype =>
  let '(q, c) := select (fun d => (scan (labels d)).*2) c in
  let ctx := seen_rows q in
  let '(levels, c) := LoadDocumentLevels c in
  match levels with
  | Error s => (Error s, c)
  | Value levels =>
  let '(q, c) := select tracked c in
  match seen_rows q with
  | None => (Error (SqlErr "prepare audit tracked"), c)
  | Some tr =>
  let v := MkAuditView (hype_sources_of hype) ctx levels
             (filter (fun e => e.2 = true) tr).*1 (filter (fun e => e.2 = false) tr).*1 in
  let '(q, c) := select (fun d => filter (fun b => CortrixStoreSqlite.is_child b = true) (scan (blocks d))) c in
  match q with
  | None => (Error (SqlErr "prepare audit children"), c)
  | Some (rows, done) =>
      let '(r, c) := audit_children v now_unix rows 0 0 c in
      (match r with
       | Value _ => if done then r else Error (SqlErr "audit children scan")
       | Error _ => r
       end, c)
  end end end end.

End Audit.
End Reads.
End EnrichState.

(** ** A delivery's outcome (enrich_backfill_worker.cpp) *)

Module EnrichBackfillWorker.
Import Documents EnrichState.

Definition kMaxAttempts : Z := kEnrichMaxAttempts.

Definition NextRetryDelaySec (attempts : Z) : Z :=
  let attempts := if attempts <? 0 then 0 else attempts in
  default 0 ([60; 300; 900; 3600; 21600] !! Z.to_nat (Z.min attempts 4)).

(** The row that the end of a delivery writes over its snapshot [row]. *)
Definition flip_row (now : Z) (row : EnrichStateRow) (still_owed : list string) (error : string)
    (ctx_columns_present : bool) : EnrichStateRow :=
  let row := row <| attempts := attempts row + 1 |> <| es_updated_at := now |> in
  match still_owed with
  | [] => row <| es_status := kEnrichStatusOk |> <| failed_members := ""%string |> <| last_error := ""%string |>
              <| next_retry_at := None |>
  | _ =>
      let row := row <| failed_members := String.concat "," still_owed |>
                     <| last_error := String.substring 0 200 error |> in
      let only_label_owed := bool_decide (still_owed = ["f35"%string]) && ctx_columns_present in
      if (kMaxAttempts <=? attempts row) && negb only_label_owed
      then row <| es_status := kEnrichStatusFailedPermanent |> <| next_retry_at := None |>
      else row <| es_status := kEnrichStatusPendingRetry |>
               <| next_retry_at := Some (now + NextRetryDelaySec (attempts row)) |>
  end.

End EnrichBackfillWorker.

(** ** The history of a row *)

Module LedgerTheory.
Import Sqlite Documents EnrichState EnrichBackfillWorker.

(** The calls that may run between the snapshot of a delivery and its flip, on any
    outcomes of their statements; [Elsewhere] is a change of another table. *)
Inductive Event :=
| Upsert (row : EnrichStateRow)
| Lease (doc : string) (until now : Z)
| MakeDue (now : Z)
| Charge (ids : list Z) (now terminal : Z)
| Flip (row : EnrichStateRow) (expected : Z)
| Reowe (row : EnrichStateRow) (terminal : Z)
| Reset (now : Z)
| Settle (id now : Z)
| Elsewhere (f : Db -> option (Z * Db)).

Definition call (e : Event) (c : Conn Db) : Conn Db :=
  match e with
  | Upsert row => (UpsertEnrichState row c).2
  | Lease doc until now => (LeaseDocRetries doc until now c).2
  | MakeDue now => (MakeAllPendingDueNow now c).2
  | Charge ids now terminal => (ChargeEnrichAttempts ids now terminal c).2
  | Flip row expected => (FlipEnrichStateIfGeneration row expected c).2
  | Reowe row terminal => (ReoweEnrichState row terminal c).2
  | Reset now => (ResetGivenUpEnrichRows now c).2
  | Settle id now => (SettleTerminalRow id now c).2
  | Elsewhere f => (change f c).2
  end.

Definition off_ledger (e : Event) : Prop :=
  match e with
  | Elsewhere f => forall d n d', f d = Some (n, d') -> enrich_state d' = enrich_state d
  | _ => True
  end.

(** The operator's reset and the audit's settling and re-owing. *)
Definition transition (e : Event) : bool := match e with Reowe _ _ | Reset _ | Settle _ _ => true | _ => false end.

Definition find_row (k : Z) (l : list EnrichStateRow) : option EnrichStateRow :=
  head (filter (fun r => es_block_id r = k) l).

(** What a statement may do to the row of a key: nothing, or a change that does not
    lower the generation and, for a transition, raises it. *)
Definition keeps_order (strict : bool) (r r' : EnrichStateRow) : Prop :=
  es_block_id r' = es_block_id r /\
  (r' = r \/ generation r <= generation r' /\ (strict = true -> generation r < generation r')).
Definition evolves (strict : bool) (l l' : list EnrichStateRow) : Prop :=
  exists f extra, l' = (f <$> l) ++ extra /\ (forall r, keeps_order strict r (f r)) /\
    (NoDup (es_block_id <$> l) -> NoDup (es_block_id <$> l')).

Lemma same_keys (f : EnrichStateRow -> EnrichStateRow) (l : list EnrichStateRow) :
  (forall r, es_block_id (f r) = es_block_id r) -> es_block_id <$> (f <$> l) = es_block_id <$> l.
Proof. intros Hf. rewrite <- list_fmap_compose. apply list_fmap_ext. intros _ r _. apply Hf. Qed.

Lemma keeps_order_refl strict r : keeps_order strict r r.
Proof. split; [done|by left]. Qed.

Lemma evolves_refl strict l : evolves strict l l.
Proof.
  exists (fun r => r), []. rewrite list_fmap_id, app_nil_r. split; [done|]. split; [intros; apply keeps_order_refl|done].
Qed.

Lemma evolves_update strict where_ set d n d' :
  (forall r, where_ d r = true -> keeps_order strict r (set r)) ->
  update_ledger where_ set d = Some (n, d') -> evolves strict (enrich_state d) (enrich_state d').
Proof.
  intros Hs [= <- <-]. exists (fun r => if where_ d r then set r else r), []. rewrite app_nil_r. split; [done|].
  assert (forall r, keeps_order strict r (if where_ d r then set r else r)) as Hf.
  { intros r. destruct (where_ d r) eqn:E; [by apply Hs|apply keeps_order_refl]. }
  split; [done|]. simpl. rewrite same_keys; [done|]. intros r. apply Hf.
Qed.

Lemma evolves_upsert strict row set d n d' :
  (forall r, keeps_order strict r (set r)) ->
  upsert_ledger row set d = Some (n, d') -> evolves strict (enrich_state d) (enrich_state d').
Proof.
  intros Hs. unfold upsert_ledger. destruct (existsb _ _) eqn:E; intros [= <- <-].
  - exists (fun r => if has_key (es_block_id row) r then set r else r), []. rewrite app_nil_r. split; [done|].
    assert (forall r, keeps_order strict r (if has_key (es_block_id row) r then set r else r)) as Hf.
    { intros r. destruct (has_key _ r); [apply Hs|apply keeps_order_refl]. }
    split; [done|]. simpl. rewrite same_keys; [done|]. intros r. apply Hf.
  - exists (fun r => r), [row <| es_block_id := key (es_block_id row) |>]. rewrite list_fmap_id. split; [done|].
    split; [intros; apply keeps_order_refl|]. intros Hn. cbn [enrich_state set_field]. rewrite fmap_app. apply NoDup_app.
    split; [done|]. split; [|by apply NoDup_singleton].
    intros k (r0 & -> & Hr0)%list_elem_of_fmap Hk%list_elem_of_singleton. simpl in Hk.
    apply not_true_iff_false in E. apply E, existsb_exists. exists r0. split; [by apply list_elem_of_In|].
    by apply Z.eqb_eq.
Qed.

(** A statement on an idle connection does to the ledger what its function does, or
    nothing. *)
Lemma change_evolves strict (f : Db -> option (Z * Db)) (c : Conn Db) :
  saved c = None ->
  (forall n d', f (data c) = Some (n, d') -> evolves strict (enrich_state (data c)) (enrich_state d')) ->
  saved (change f c).2 = None /\ evolves strict (enrich_state (data c)) (enrich_state (data (change f c).2)).
Proof.
  intros Hs Hf. unfold change, next_outcome.
  destruct c as [d sv [|o os]]; simpl in *; subst sv.
  - destruct (f d) as [[n d']|] eqn:E; simpl; (split; [done|]); [by eapply Hf|apply evolves_refl].
  - destruct o; simpl; try (split; [done|apply evolves_refl]).
    destruct (f d) as [[n d']|] eqn:E; simpl; (split; [done|]); [by eapply Hf|apply evolves_refl].
Qed.

Lemma evolves_trans strict l1 l2 l3 : evolves strict l1 l2 -> evolves strict l2 l3 -> evolves strict l1 l3.
Proof.
  intros (f & ex1 & -> & Hf & Hx1) (g & ex2 & -> & Hg & Hx2).
  exists (fun r => g (f r)), ((g <$> ex1) ++ ex2).
  split; [by rewrite fmap_app, <- list_fmap_compose, (assoc_L (++))|]. split; [|auto].
  intros r. destruct (Hf r) as [E1 H1], (Hg (f r)) as [E2 H2]. split; [congruence|].
  destruct H1 as [H1|[H1 S1]], H2 as [H2|[H2 S2]].
  - left. congruence.
  - right. rewrite H1 in *. done.
  - right. rewrite H2. done.
  - right. split; [lia|]. intros Ht. specialize (S1 Ht). lia.
Qed.

Lemma find_evolves strict k l l' r :
  evolves strict l l' -> find_row k l = Some r -> exists r', find_row k l' = Some r' /\ keeps_order strict r r'.
Proof.
  intros (f & ex & -> & Hf & _) Hr. exists (f r). split; [|apply Hf]. unfold find_row in *.
  rewrite filter_app.
  assert (filter (fun r => es_block_id r = k) (f <$> l) = f <$> filter (fun r => es_block_id r = k) l) as ->.
  { clear -Hf. induction l as [|x l IH]; [done|]. rewrite fmap_cons, !filter_cons, (proj1 (Hf x)).
    destruct (decide _); by rewrite IH. }
  destruct (filter _ l) as [|x xs]; [done|]. simpl in *. congruence.
Qed.

Definition steady (strict : bool) (c c' : Conn Db) : Prop :=
  saved c' = None /\ evolves strict (enrich_state (data c)) (enrich_state (data c')).

Lemma steady_trans strict c1 c2 c3 : steady strict c1 c2 -> steady strict c2 c3 -> steady strict c1 c3.
Proof. intros [_ H1] [? H2]. split; [done|by eapply evolves_trans]. Qed.

Lemma change_steady strict f c r c' :
  saved c = None -> change f c = (r, c') ->
  (forall n d', f (data c) = Some (n, d') -> evolves strict (enrich_state (data c)) (enrich_state d')) -> steady strict c c'.
Proof. intros Hs E Hf. pose proof (change_evolves strict f c Hs Hf) as H. by rewrite E in H. Qed.

Lemma select_steady {A} strict (f : Db -> list A) c q c' :
  saved c = None -> select f c = (q, c') -> steady strict c c' /\ data c' = data c.
Proof.
  intros Hs. unfold select, next_outcome. destruct c as [d sv [|o os]]; simpl in Hs; subst sv; [|destruct o];
    intros [= <- <-]; (split; [split; [done|apply evolves_refl]|done]).
Qed.

Lemma charge_steady fuel ids now terminal n c :
  saved c = None -> steady false c (charge_chunks fuel ids now terminal n c).2.
Proof.
  revert ids n c. induction fuel as [|fuel IH]; intros [|id ids] n c Hs; cbn [charge_chunks];
    try (split; [done|apply evolves_refl]).
  destruct (change _ c) as [r c1] eqn:E.
  assert (steady false c c1) as H1.
  { eapply change_steady; [done|exact E|]. intros m d'. apply evolves_update. intros row _.
    split; [done|]. right. split; [simpl; lia|done]. }
  destruct r; [done|done|]. eapply steady_trans; [exact H1|]. apply IH, H1.
Qed.

#[local] Ltac bumped := intros; split; [reflexivity|right; split; [simpl; lia|intros; simpl; try discriminate; lia]].

Lemma call_steady e c : off_ledger e -> saved c = None -> steady (transition e) c (call e c).
Proof.
  intros He Hs. destruct e as [row|doc until now|now|ids now terminal|row expected|row terminal|now|id now|f]; simpl.
  - unfold UpsertEnrichState. case_bool_decide; [split; [done|apply evolves_refl]|].
    destruct (change _ c) as [r c1] eqn:E. eapply change_steady; [done|exact E|]. intros m d'. apply evolves_upsert. bumped.
  - unfold LeaseDocRetries. destruct (change _ c) as [r c1] eqn:E. eapply change_steady; [done|exact E|].
    intros m d'. apply evolves_update. bumped.
  - unfold MakeAllPendingDueNow. destruct (change _ c) as [r c1] eqn:E. eapply change_steady; [done|exact E|].
    intros m d'. apply evolves_update. bumped.
  - by apply charge_steady.
  - unfold FlipEnrichStateIfGeneration. case_bool_decide; [split; [done|apply evolves_refl]|].
    destruct (change _ c) as [r c1] eqn:E. eapply change_steady; [done|exact E|]. intros m d'. apply evolves_update. bumped.
  - unfold ReoweEnrichState. case_bool_decide; [split; [done|apply evolves_refl]|].
    destruct (change _ c) as [r c1] eqn:E. eapply change_steady; [done|exact E|]. intros m d'. apply evolves_upsert. bumped.
  - unfold ResetGivenUpEnrichRows. destruct (select _ c) as [q c1] eqn:E. destruct (select_steady true _ _ _ _ Hs E) as [H1 _].
    destruct q as [[[|o l] b]|]; [done| |done]. destruct (change _ c1) as [r c2] eqn:E2.
    assert (steady true c1 c2) as H2.
    { eapply change_steady; [apply H1|exact E2|]. intros m d'. apply evolves_update. bumped. }
    destruct r; eapply steady_trans; eauto.
  - unfold SettleTerminalRow. destruct (change _ c) as [r c1] eqn:E. eapply change_steady; [done|exact E|].
    intros m d'. apply evolves_update. bumped.
  - destruct (change f c) as [r c1] eqn:E. eapply change_steady; [done|exact E|]. intros m d' Hd. rewrite (He _ _ _ Hd).
    apply evolves_refl.
Qed.

Definition run (es : list Event) (c : Conn Db) : Conn Db := foldl (fun c e => call e c) c es.

Lemma weaken_evolves strict l l' : evolves strict l l' -> evolves false l l'.
Proof.
  intros (f & ex & ? & Hf & ?). exists f, ex. split; [done|]. split; [|done].
  intros r. destruct (Hf r) as [? [?|[? _]]]; (split; [done|]); [by left|right; split; done].
Qed.

Lemma run_steady es c : Forall off_ledger es -> saved c = None -> steady false c (run es c).
Proof.
  revert c. induction es as [|e es IH]; intros c Ho Hs; [split; [done|apply evolves_refl]|].
  inversion Ho; subst. pose proof (call_steady e c H1 Hs) as [Hs1 H]. simpl.
  eapply steady_trans; [split; [exact Hs1|by eapply weaken_evolves]|]. by apply IH.
Qed.

Lemma find_row_key k l r : find_row k l = Some r -> r ∈ l /\ es_block_id r = k.
Proof. intros H%head_Some_elem_of%list_elem_of_filter. tauto. Qed.

Lemma i32_le z : 0 <= z -> i32 z <= z.
Proof. intros. unfold i32. pose proof (Z.mod_le (z + 2 ^ 31) (2 ^ 32)). lia. Qed.

Lemma row_unique k l r last :
  NoDup (es_block_id <$> l) -> find_row k l = Some last -> r ∈ l -> es_block_id r = k -> r = last.
Proof.
  intros Hn [Hin Hk]%find_row_key Hr Hkr. apply (NoDup_fmap_inj _ _ _ _ Hn Hr Hin). congruence.
Qed.

(** A flip whose generation no row of the key has. *)
Lemma flip_misses row expected c :
  saved c = None ->
  (forall r, r ∈ enrich_state (data c) -> es_block_id r = key (es_block_id row) -> generation r <> expected) ->
  let flip := FlipEnrichStateIfGeneration row expected c in
  flip.1 <> Value true /\ enrich_state (data flip.2) = enrich_state (data c).
Proof.
  intros Hs Hm. cbv zeta. unfold FlipEnrichStateIfGeneration. case_bool_decide; [done|].
  set (w := fun (_ : Db) r => _).
  assert (forall r, r ∈ enrich_state (data c) -> w (data c) r = false) as Hw.
  { intros r Hr. unfold w, has_key. simpl. destruct (Z.eqb_spec (es_block_id r) (key (es_block_id row))); [|done].
    simpl. apply Z.eqb_neq. auto. }
  assert (filter (fun r => w (data c) r = true) (enrich_state (data c)) = []) as Hf.
  { apply elem_of_nil_inv. intros r [H1 H2]%list_elem_of_filter. rewrite Hw in H1 by done. done. }
  assert ((fun r => if w (data c) r then outcome_of (bound row) r else r) <$> enrich_state (data c) = enrich_state (data c)) as Hm2.
  { rewrite <- (list_fmap_id (enrich_state (data c))) at 2. apply list_fmap_ext. intros i r Hr.
    rewrite Hw by (by eapply list_elem_of_lookup_2). done. }
  unfold change, next_outcome, update_ledger. destruct c as [d sv [|o os]]; simpl in *; subst sv; [|destruct o; simpl];
    rewrite ?Hf, ?Hm2; done.
Qed.

(** C21: the outcome of a delivery never undoes an operator's reset or an audit's
    settling or re-owing: when one of them changed the row at any moment between the
    read of the delivery and its final write, whatever else ran and whichever
    statements failed, that write changes no row and does not report one, for any
    outcome the delivery computed. *)
Theorem Flip_respects_transitions (c : Conn Db) (es1 es2 : list Event) (e : Event) (k : Z)
    (read before after row : EnrichStateRow) :
  saved c = None -> Forall off_ledger (es1 ++ e :: es2) -> NoDup (es_block_id <$> enrich_state (data c)) ->
  find_row k (enrich_state (data c)) = Some read -> 0 <= generation read ->
  transition e = true ->
  find_row k (enrich_state (data (run es1 c))) = Some before ->
  find_row k (enrich_state (data (call e (run es1 c)))) = Some after -> after <> before ->
  key (es_block_id row) = k ->
  let flip := FlipEnrichStateIfGeneration row (generation (RowFromStmt read)) (run (es1 ++ e :: es2) c) in
  flip.1 <> Value true /\ enrich_state (data flip.2) = enrich_state (data (run (es1 ++ e :: es2) c)).
Proof.
  intros Hs Ho Hn Hr Hg Ht Hb Ha Hne Hk. cbv zeta.
  pose proof Ho as [Ho1 [He Ho2]%Forall_cons]%Forall_app.
  pose proof (run_steady es1 c Ho1 Hs) as [Hs1 Ev1].
  destruct (find_evolves _ _ _ _ _ Ev1 Hr) as (b & Hb' & [_ Kb]). rewrite Hb in Hb'. injection Hb' as <-.
  pose proof (call_steady e (run es1 c) He Hs1) as [Hs2 Ev2].
  destruct (find_evolves _ _ _ _ _ Ev2 Hb) as (a & Ha' & [_ Ka]). rewrite Ha in Ha'. injection Ha' as <-.
  pose proof (run_steady es2 _ Ho2 Hs2) as [Hs3 Ev3].
  destruct (find_evolves _ _ _ _ _ Ev3 Ha) as (last & Hl & [_ Kl]).
  assert (run (es1 ++ e :: es2) c = run es2 (call e (run es1 c))) as Er by (unfold run; by rewrite foldl_app).
  pose proof (run_steady _ c Ho Hs) as [_ (? & ? & _ & _ & Hn3)]. specialize (Hn3 Hn). rewrite Er in Hn3 |- *.
  assert (generation read < generation last) as Hlt.
  { destruct Ka as [?|[_ Sa]]; [done|]. specialize (Sa Ht).
    destruct Kb as [->|[? _]], Kl as [->|[? _]]; lia. }
  apply flip_misses; [done|]. intros r Hin Hkr. rewrite Hk in Hkr.
  assert (r = last) as -> by (eapply row_unique; eauto).
  cbn [RowFromStmt generation set_field]. pose proof (i32_le (generation read) Hg). lia.
Qed.

End LedgerTheory.

(** ** How often a chunk is delivered *)

Module Deliveries.
Import Documents EnrichState EnrichBackfillWorker.

(** One row, the snapshot that a running delivery holds of it, how many deliveries
    called the provider, and how many of those ended without their final write. *)
Record St := MkSt { row : EnrichStateRow; snapshot : option EnrichStateRow; calls : Z; deaths : Z }.

(** The statements on one row, each the function that its UPDATE maps over the
    table.  A delivery takes the pending row and charges it before it calls the
    provider; its final write applies where the generation is still the one it
    read.  The outcome that owes the label alone, after which no provider is
    called, and an operator's reset, which starts over, are left out; the
    generation has not passed 32 bits. *)
Inductive step : St -> St -> Prop :=
| step_begin r n d now :
    has_status kEnrichStatusPendingRetry r = true -> i32 (generation r) = generation r ->
    step (MkSt r None n d) (MkSt (charge now (kMaxAttempts + 1) r) (Some (RowFromStmt r)) (n + 1) d)
| step_finish r snap n d now still_owed error :
    let out := outcome_of (bound (flip_row now snap still_owed error false)) r in
    step (MkSt r (Some snap) n d) (MkSt (if generation r =? generation snap then out else r) None n d)
| step_die r snap n d : step (MkSt r (Some snap) n d) (MkSt r None n (d + 1))
| step_retry_at r s n d t now : step (MkSt r s n d) (MkSt (r <| next_retry_at := t |> <| es_updated_at := now |>) s n d)
| step_reowe r s n d audited :
    step (MkSt r s n d) (MkSt (reowe audited kEnrichMaxAttempts r) s n d)
| step_settle r s n d now :
    has_status kEnrichStatusFailedPermanent r = true -> step (MkSt r s n d) (MkSt (settle_row now r) s n d).

Inductive reachable : St -> Prop :=
| reach_new r : attempts r = 0 -> reachable (MkSt r None 0 0)
| reach_step s s' : reachable s -> step s s' -> reachable s'.

Definition pending (r : EnrichStateRow) : Prop := has_status kEnrichStatusPendingRetry r = true.

(** The budget: an idle pending row has attempts left for every death it had; a
    row that was owed again under a delivery is pending only below the cap. *)
Definition within (s : St) : Prop :=
  0 <= deaths s /\ attempts (row s) = calls s /\ 0 <= calls s <= Z.min 10 (8 + deaths s) /\
  match snapshot s with
  | None => pending (row s) -> calls s <= Z.min 9 (7 + deaths s)
  | Some snap =>
      attempts snap = calls s - 1 /\ generation snap <= generation (row s) /\
      (pending (row s) -> calls s <= Z.min 9 (8 + deaths s)) /\
      (pending (row s) -> generation snap < generation (row s) -> calls s <= 7)
  end.

Lemma within_begin r n d now : pending r -> i32 (generation r) = generation r -> within (MkSt r None n d) ->
  within (MkSt (charge now (kMaxAttempts + 1) r) (Some (RowFromStmt r)) (n + 1) d).
Proof.
  intros Hp Hg (Hd & Ha & Hn & Hi). simpl in *. specialize (Hi Hp). unfold within, pending, has_status, charge. simpl.
  rewrite Hg. unfold i32. rewrite Z.mod_small by lia. split; [lia|]. split; [lia|]. split; [lia|]. split; [lia|].
  split; [lia|]. destruct (Z.ltb_spec (kMaxAttempts + 1) (attempts r + 1)) as [?|Hle]; [done|].
  unfold kMaxAttempts, kEnrichMaxAttempts in Hle. split; intros; lia.
Qed.

(** The final write leaves the row pending only below the cap. *)
Lemma flip_pending now snap still_owed error r :
  pending (outcome_of (bound (flip_row now snap still_owed error false)) r) -> attempts snap + 1 < 8.
Proof.
  unfold pending, flip_row. destruct still_owed as [|m ms]; [done|]. rewrite andb_false_r, andb_true_r. cbn [attempts set_field].
  destruct (Z.leb_spec kMaxAttempts (attempts snap + 1)) as [?|H]; [done|]. intros _. exact H.
Qed.
Lemma flip_attempts now snap still_owed error present r :
  attempts (outcome_of (bound (flip_row now snap still_owed error present)) r) = attempts snap + 1.
Proof. unfold flip_row. destruct still_owed; [done|]. by destruct (_ && _). Qed.

Lemma reowe_pending audited r : pending (reowe audited kEnrichMaxAttempts r) -> attempts r <= 7.
Proof.
  unfold pending, reowe. destruct (Z.leb_spec kEnrichMaxAttempts (attempts r)) as [?|H]; [done|]. intros _.
  unfold kEnrichMaxAttempts in H. lia.
Qed.

Lemma within_finish r snap n d out :
  within (MkSt r (Some snap) n d) -> attempts out = attempts snap + 1 -> (pending out -> attempts snap + 1 < 8) ->
  within (MkSt (if generation r =? generation snap then out else r) None n d).
Proof.
  intros (Hd & Ha & Hn & Hsn & Hg & Hi & Hx) Hat Hp. simpl in *.
  destruct (Z.eqb_spec (generation r) (generation snap)); (repeat split; simpl; try lia); intros Hpo.
  - specialize (Hp Hpo). lia.
  - assert (n <= 7) by (apply Hx; [done|lia]). lia.
Qed.

(** A change beside the delivery raises the generation and leaves the row pending
    only below the cap. *)
Lemma within_changed r r' sn n d :
  within (MkSt r sn n d) -> attempts r' = attempts r -> generation r <= generation r' -> (pending r' -> attempts r' <= 7) ->
  within (MkSt r' sn n d).
Proof.
  intros (Hd & Ha & Hn & Hw) Hat Hg Hp. unfold within. simpl in *. rewrite Hat in *.
  split; [done|]. split; [done|]. split; [done|].
  destruct sn as [snap|]; [|intros Hpr; specialize (Hp Hpr); lia].
  destruct Hw as (Hsn & Hgs & _ & _). split; [done|]. split; [lia|]. split; intros Hpr; specialize (Hp Hpr); lia.
Qed.

Lemma within_step s s' : step s s' -> within s -> within s'.
Proof.
  intros Hs Hw. destruct Hs as [r n d now Hp Hg|r snap n d now owed err out|r snap n d|r sn n d t now|r sn n d au|r sn n d now Hf].
  - by apply within_begin.
  - apply within_finish; [done|apply flip_attempts|apply flip_pending].
  - destruct Hw as (Hd & Ha & Hn & Hsn & Hg & Hi & Hx). simpl in *. unfold within. simpl.
    split; [lia|]. split; [done|]. split; [lia|]. intros Hp. specialize (Hi Hp). lia.
  - exact Hw.
  - pose proof (reowe_pending au r) as Hr. apply (within_changed r); [done..|simpl; lia|]. intros Hp. specialize (Hr Hp). simpl. lia.
  - apply (within_changed r); [done..|simpl; lia|done].
Qed.


End Deliveries.

(** ** Runs *)

Module LedgerRuns.
Import Sqlite Documents EnrichState EnrichBackfillWorker LedgerTheory Deliveries.
#[local] Open Scope string_scope.

(** A chunk whose nine deliveries all died, and its block. *)
Definition spent (attempts : Z) : EnrichStateRow :=
  MkEnrichStateRow 5 "d" "c" kEnrichStatusPendingRetry "f03" attempts "" (Some 0%Z) 0 0.
Definition block : BlockRow :=
  MkBlockRow 5 "d" 0 1 3 None None [] (Some "text") (Some "c") (Some "p") None None None None None None None None None None None.
Definition store (attempts : Z) : Conn Db := MkConn (MkDb [] [block] [] [] [] [] [spent attempts] [] []) None [].
Definition row_of (c : Conn Db) : EnrichStateRow := default (spent 0) (head (enrich_state (data c))).

(** The tenth delivery is charged, which gives the chunk up; the operator resets the
    row while the provider runs, the sweeper leases it, and the delivery ends with a
    failure that would give it up again. *)
Lemma Flip_respects_transitions_witness :
  let c := store 9 in
  let charged := call (Charge [5%Z] 10 9) c in
  let es := [Charge [5%Z] 10 9; Reset 20; Lease "d" 620 20] in
  let outcome := flip_row 30 (spent 9) ["f03"] "timeout" false in
  es_status (row_of charged) = kEnrichStatusFailedPermanent /\
  let flip := FlipEnrichStateIfGeneration outcome (generation (RowFromStmt (spent 9))) (run es c) in
  flip.1 <> Value true /\ enrich_state (data flip.2) = enrich_state (data (run es c)) /\
  es_status (row_of flip.2) = kEnrichStatusPendingRetry /\ attempts (row_of flip.2) = 0%Z.
Proof.
  cbv zeta. split; [vm_compute; reflexivity|].
  destruct (Flip_respects_transitions (store 9) [Charge [5%Z] 10 9] [Lease "d" 620 20] (Reset 20) 5 (spent 9)
    (row_of (call (Charge [5%Z] 10 9) (store 9))) (row_of (run [Charge [5%Z] 10 9; Reset 20] (store 9)))
    (flip_row 30 (spent 9) ["f03"] "timeout" false)) as [H1 H2].
  - reflexivity.
  - repeat constructor.
  - apply NoDup_singleton.
  - reflexivity.
  - discriminate.
  - reflexivity.
  - vm_compute. reflexivity.
  - vm_compute. reflexivity.
  - vm_compute. discriminate.
  - vm_compute. reflexivity.
  - split; [exact H1|]. split; [exact H2|]. split; vm_compute; reflexivity.
Defined.

Lemma died r n d :
  reachable (MkSt r None n d) -> has_status kEnrichStatusPendingRetry r = true -> i32 (generation r) = generation r ->
  reachable (MkSt (charge 0 (kMaxAttempts + 1) r) None (n + 1) (d + 1)).
Proof. intros Hr Hp Hg. eapply reach_step; [eapply reach_step; [exact Hr|by apply (step_begin r n d 0)]|apply step_die]. Qed.

Lemma spent_reachable (k : nat) : (k <= 9)%nat -> reachable (MkSt (spent (Z.of_nat k)) None (Z.of_nat k) (Z.of_nat k)).
Proof.
  induction k as [|k IH]; intros Hk; [by apply reach_new|].
  assert (charge 0 (kMaxAttempts + 1) (spent (Z.of_nat k)) = spent (Z.of_nat (S k))) as E.
  { rewrite Nat2Z.inj_succ. unfold charge, spent. simpl. destruct (Z.ltb_spec (kMaxAttempts + 1) (Z.of_nat k + 1)) as [H|H];
      [unfold kMaxAttempts, kEnrichMaxAttempts in H; lia|done]. }
  rewrite <- E, Nat2Z.inj_succ. apply died; [apply IH; lia|reflexivity..].
Qed.


(** A full disk at the COMMIT of an enrichment: the call answers OK, and the
    transaction stays open, so what follows on the connection is not durable. *)
Lemma Failed_commit_reads_as_ok `{Nlohmann} (result : EnricherChain.EnrichResult) :
  EnricherChain.entities result = [] -> EnricherChain.result_ok result = true -> EnricherChain.enricher_name result <> "" ->
  exists os c',
    BlockColumns.WriteEnrichment 5 result (MkConn (data (store 1)) None os) = (Status_Ok, c') /\
    in_transaction c' = true /\ committed c' = data (store 1) /\ enrich_state (data c') = enrich_state (data (store 1)).
Proof.
  intros He Hok Hname. exists [SqlOk; SqlOk; SqlStepErr 0]. eexists. unfold BlockColumns.WriteEnrichment. simpl.
  unfold BlockColumns.WriteBlockEnrichment. rewrite Hok, bool_decide_eq_false_2 by done. simpl. rewrite He. simpl.
  split; [reflexivity|]. done.
Qed.

(** A scan of the tracked rows that breaks off reads as no rows: the audit re-owes a
    row whose delivery is running, and the outcome of that delivery is dropped. *)
Lemma Broken_scan_reowes_in_flight `{Nlohmann} :
  let c := MkConn (data (store 1)) None [SqlOk; SqlOk; SqlOk; SqlStepErr 0] in
  let '(r, c) := SynthesizeEnrichAuditRows ["f03"] 50 c in
  r = Value (1, 0)%Z /\
  (FlipEnrichStateIfGeneration (flip_row 60 (spent 1) [] "" false) 0 c).1 = Value false /\
  (SynthesizeEnrichAuditRows ["f03"] 50 (store 1)).1 = Value (0, 0)%Z.
Proof. repeat split; vm_compute; reflexivity. Qed.

End LedgerRuns.
