(* ===== verification/StoreVersions.v ===== *)
(** * The versions that the document store keeps

    Any number of connections call the methods of [CortrixStoreSqlite] one after
    another, with failures of any kind; what is committed keeps the invariant of
    versions of DocumentsTheory.v.  The publication of a version is described on
    every branch. *)
From Stdlib Require Import Ascii String.
From S2P Require Import Prelude Iso8601 Ulid TaskManager Sqlite Documents DocumentsTheory FtsQuery CortrixStore.

(** ** Invariants along the methods of the store

    A property of databases that every statement of a method preserves holds,
    after the method, of what its connection sees and of what is committed,
    whatever fails on the way. *)

Module StoreSteps.
Import Sqlite Documents CortrixStoreSqlite.

(** A statement that keeps [I], with every outcome it can have. *)
Definition preserves (I : Db -> Prop) (f : Db -> option (Z * Db)) : Prop :=
  forall d n d', I d -> f d = Some (n, d') -> I d'.

(** Both the connection's view and what is committed. *)
Definition inv (I : Db -> Prop) (s : CortrixStoreSqlite) : Prop :=
  I (data (conn s)) /\ I (committed (conn s)).

Section Steps.
Context (I : Db -> Prop).

Lemma inv_committed s : inv I s -> I (committed (conn s)).
Proof. by intros []. Qed.

Lemma inv_change f s r s' : preserves I f -> inv I s -> on_conn (change f) s = (r, s') -> inv I s'.
Proof.
  unfold on_conn. destruct (change f (conn s)) as [r1 c1] eqn:Hc. intros Hf [Hd Hc0] [= <- <-].
  apply change_cases in Hc. unfold inv, committed in *. simpl.
  destruct r1 as [| |n].
  1,2: destruct Hc as [[-> ->]|[-> ->]]; simpl; done.
  destruct Hc as (d & Hfd & -> & ->). assert (I d) by (by apply (Hf _ _ _ Hd Hfd)).
  split; [done|]. by destruct (saved (conn s)).
Qed.

Lemma inv_select {A} (f : Db -> list A) s r s' :
  inv I s -> on_conn (select f) s = (r, s') -> inv I s'.
Proof.
  unfold on_conn. destruct (select f (conn s)) as [r1 c1] eqn:Hc. intros [Hd Hc0] [= <- <-].
  apply select_cases in Hc as [Hc _]. unfold inv, committed in *. simpl.
  destruct Hc as [[-> ->]|[-> ->]]; simpl; done.
Qed.

Lemma inv_BEGIN s b s' : inv I s -> on_conn BEGIN s = (b, s') -> inv I s'.
Proof.
  unfold on_conn, BEGIN, next_outcome, inv, committed, roll_back, in_transaction.
  destruct s as [[d [d0|] [|[] os]] ? ? ? ? ? ? ?]; simpl; intros [Hd Hc] [= <- <-]; done.
Qed.
Lemma inv_COMMIT s b s' : inv I s -> on_conn COMMIT s = (b, s') -> inv I s'.
Proof.
  unfold on_conn, COMMIT, next_outcome, inv, committed, roll_back, in_transaction.
  destruct s as [[d [d0|] [|[] os]] ? ? ? ? ? ? ?]; simpl; intros [Hd Hc] [= <- <-]; done.
Qed.
Lemma inv_rollback s : inv I s -> inv I (rollback s).
Proof.
  unfold rollback, ROLLBACK, next_outcome, inv, committed, roll_back.
  destruct s as [[d [d0|] [|[] os]] ? ? ? ? ? ? ?]; simpl; intros [Hd Hc]; done.
Qed.

Lemma inv_fault s b s' : inv I s -> TryConsumeOpFault s = (b, s') -> inv I s'.
Proof. unfold TryConsumeOpFault. intros Hi. by case_match; intros [= <- <-]. Qed.

Lemma inv_probe s p s' : inv I s -> DeletedFromStatusColumnLocked s = (p, s') -> inv I s'.
Proof.
  unfold DeletedFromStatusColumnLocked. intros Hi.
  destruct (has_deleted_from_status_ s); [by intros [= <- <-]|].
  destruct (on_conn (select documents_columns) s) as [q s1] eqn:Hq.
  assert (inv I s1) as Hi1 by by eapply inv_select.
  destruct q as [[names dn]|]; [|by intros [= <- <-]].
  case_match; intros [= <- <-]; done.
Qed.

Lemma inv_try_change f s : preserves I f -> inv I s -> inv I (try_change f s).
Proof.
  intros Hf Hi. unfold try_change. destruct (on_conn (change f) s) as [r s'] eqn:E.
  by eapply inv_change in E.
Qed.

Lemma inv_foldl {A} (g : CortrixStoreSqlite -> A -> CortrixStoreSqlite) l s :
  (forall s x, inv I s -> inv I (g s x)) -> inv I s -> inv I (foldl g s l).
Proof. intros Hg. revert s. induction l as [|x l IH]; simpl; auto. Qed.

Lemma inv_lookup {A} (f : Db -> list A) s r s' : inv I s -> lookup_row f s = (r, s') -> inv I s'.
Proof.
  unfold lookup_row. intros Hi. destruct (on_conn (select f) s) as [q s1] eqn:E.
  intros [= _ <-]. by eapply inv_select.
Qed.

End Steps.

Create HintDb keeps.

(** Runs a method, statement by statement. *)
Ltac inv_step :=
  match goal with
  | Hi : inv ?I ?s |- context [TryConsumeOpFault ?s] =>
      let E := fresh "E" in
      destruct (TryConsumeOpFault s) as [[] ?] eqn:E; (apply (inv_fault I) in E; [|exact Hi])
  | Hi : inv ?I ?s |- context [DeletedFromStatusColumnLocked ?s] =>
      let E := fresh "E" in
      destruct (DeletedFromStatusColumnLocked s) as [? ?] eqn:E; (apply (inv_probe I) in E; [|exact Hi])
  | Hi : inv ?I ?s |- context [on_conn (select ?f) ?s] =>
      let E := fresh "E" in
      destruct (on_conn (select f) s) as [? ?] eqn:E; (apply (inv_select I) in E; [|exact Hi])
  | Hi : inv ?I ?s |- context [on_conn BEGIN ?s] =>
      let E := fresh "E" in
      destruct (on_conn BEGIN s) as [[] ?] eqn:E; (apply (inv_BEGIN I) in E; [|exact Hi])
  | Hi : inv ?I ?s |- context [on_conn COMMIT ?s] =>
      let E := fresh "E" in
      destruct (on_conn COMMIT s) as [[] ?] eqn:E; (apply (inv_COMMIT I) in E; [|exact Hi])
  | Hi : inv ?I ?s |- context [on_conn (change ?f) ?s] =>
      let E := fresh "E" in
      destruct (on_conn (change f) s) as [? ?] eqn:E;
      (apply (inv_change I) in E; [|auto with keeps|exact Hi])
  | Hi : inv ?I ?s |- inv ?I (rollback ?s) => apply inv_rollback; exact Hi
  end.
Ltac inv_run := repeat (inv_step; simpl); try case_match; simpl; try assumption; eauto using inv_rollback.

End StoreSteps.
Export StoreSteps.
Import Sqlite Documents CortrixStoreSqlite.

(** ** Maps over rows that keep the key and the source *)

Definition keeps_key (f : DocRow -> DocRow) : Prop :=
  forall r, r_doc_id (f r) = r_doc_id r /\ r_source_type (f r) = r_source_type r /\
    r_source_path (f r) = r_source_path r /\ r_created_at (f r) = r_created_at r.

Lemma keeps_key_if (c : DocRow -> bool) f :
  keeps_key f -> keeps_key (fun r => if c r then f r else r).
Proof. intros Hf r. by destruct (c r). Qed.

Section KeepsKey.
Context (f : DocRow -> DocRow) (Hf : keeps_key f).

Lemma keeps_sorts_before o r : sorts_before (f o) (f r) = sorts_before o r.
Proof.
  unfold sorts_before. destruct (Hf o) as (-> & _ & _ & ->), (Hf r) as (-> & _ & _ & ->). done.
Qed.
Lemma keeps_same_source o r : same_source (f o) (f r) = same_source o r.
Proof.
  unfold same_source. destruct (Hf o) as (_ & -> & -> & _), (Hf r) as (_ & -> & -> & _). done.
Qed.
Lemma keeps_versioned r : versioned (f r) = versioned r.
Proof. unfold versioned. by destruct (Hf r) as (_ & -> & _ & _). Qed.

Lemma keeps_ids (rows : list DocRow) : r_doc_id <$> (f <$> rows) = r_doc_id <$> rows.
Proof. rewrite <- list_fmap_compose. apply list_fmap_ext. intros i r _. apply Hf. Qed.

Lemma versions_ok_map (rows : list DocRow) :
  NoDup (r_doc_id <$> rows) ->
  (forall r o, r ∈ rows -> o ∈ rows -> versioned r = true -> is_ready (f r) = true ->
     live (f o) = true -> same_source o r = true -> sorts_before o r = false) ->
  versions_ok (f <$> rows).
Proof.
  intros Hn Hok. split; [by rewrite keeps_ids|].
  intros r o (r1 & -> & Hr)%list_elem_of_fmap (o1 & -> & Ho)%list_elem_of_fmap.
  rewrite keeps_versioned, keeps_same_source, keeps_sorts_before. eauto.
Qed.

(** A map that makes no row ready or live. *)
Lemma versions_ok_shrink (rows : list DocRow) :
  versions_ok rows ->
  (forall r, r ∈ rows -> (is_ready (f r) = true -> is_ready r = true) /\
                         (live (f r) = true -> live r = true)) ->
  versions_ok (f <$> rows).
Proof.
  intros [Hn Hok] Hs. apply versions_ok_map; [done|].
  intros r o Hr Ho Hv Hrd Hl Hss. destruct (Hs r Hr), (Hs o Ho). eauto.
Qed.
End KeepsKey.

Lemma versions_ok_filter (P : DocRow -> Prop) `{!forall r, Decision (P r)} (rows : list DocRow) :
  versions_ok rows -> versions_ok (filter P rows).
Proof.
  intros [Hn Hok]. split.
  - eapply sublist_NoDup; [exact Hn|]. apply sublist_fmap, sublist_filter.
  - intros r o [_ Hr]%list_elem_of_filter [_ Ho]%list_elem_of_filter. eauto.
Qed.

(** ** The statements keep the invariant *)

Definition ok (d : Db) : Prop := versions_ok (documents d).

#[local] Abbreviation keeps_ok := (preserves ok).
#[local] Abbreviation inv := (StoreSteps.inv ok).

Lemma update_docs_keeps (w : Db -> DocRow -> bool) (f : DocRow -> DocRow) :
  (forall d, ok d -> versions_ok ((fun r => if w d r then f r else r) <$> documents d)) ->
  keeps_ok (update_docs w f).
Proof. intros Hf d n d' Hd [= <- <-]. by apply Hf. Qed.

Lemma update_docs_shrink (w : Db -> DocRow -> bool) (f : DocRow -> DocRow) :
  keeps_key f ->
  (forall d r, w d r = true -> (is_ready (f r) = true -> is_ready r = true) /\
                               (live (f r) = true -> live r = true)) ->
  keeps_ok (update_docs w f).
Proof.
  intros Hk Hs. apply update_docs_keeps. intros d Hd.
  apply versions_ok_shrink; [by apply keeps_key_if|done|].
  intros r _. destruct (w d r) eqn:E; [by eapply Hs|done].
Qed.

Lemma delete_docs_keeps fk w : keeps_ok (delete_docs fk w).
Proof.
  intros d n d' Hd. unfold delete_docs.
  destruct (fk && _); [done|]. intros [= <- <-]. by apply versions_ok_filter.
Qed.
Lemma delete_blocks_keeps w : keeps_ok (delete_blocks w).
Proof. intros d n d' Hd [= <- <-]. done. Qed.
Lemma delete_blocks_where_keeps w : keeps_ok (fun d => delete_blocks (w d) d).
Proof. intros d n d' Hd [= <- <-]. done. Qed.
Lemma insert_block_keeps fk b : keeps_ok (insert_block fk b).
Proof.
  intros d n d' Hd. unfold insert_block. destruct (bool_decide _); [done|].
  destruct (fk && _); [done|]. by intros [= <- <-].
Qed.

Lemma set_deleted_key m now now_ms : keeps_key (set_deleted m now now_ms).
Proof. intros r. unfold set_deleted. by destruct m. Qed.
Lemma set_restored_key m now : keeps_key (set_restored m now).
Proof. intros r. unfold set_restored. by destruct m. Qed.
Lemma set_deleted_dead m now now_ms r :
  live (set_deleted m now now_ms r) = false /\ is_ready (set_deleted m now now_ms r) = false.
Proof. unfold set_deleted. by destruct m. Qed.

Lemma status_str_deleted st : DocStatusStr st = DocStatusStr kDeleted -> st = kDeleted.
Proof. by destruct st. Qed.
Lemma status_str_ready st : DocStatusStr st = DocStatusStr kReady -> st = kReady.
Proof. by destruct st. Qed.

#[export] Hint Resolve delete_docs_keeps delete_blocks_keeps delete_blocks_where_keeps
  insert_block_keeps : keeps.

(** ** The methods *)

Lemma retire_keeps keep m now now_ms :
  keeps_ok (update_docs (retires keep) (set_deleted m now now_ms)).
Proof.
  apply update_docs_shrink; [apply set_deleted_key|]. intros d r _.
  destruct (set_deleted_dead m now now_ms r) as [-> ->]. done.
Qed.

Lemma update_status_keeps w now st msg :
  st <> kReady -> (forall d r, w d r = true -> live r = true) ->
  keeps_ok (update_docs w (fun r => r <| r_status := DocStatusStr st |>
    <| r_error_message := Some msg |> <| r_updated_at := NowIso8601 now |>)).
Proof.
  intros Hst Hw. apply update_docs_shrink; [done|]. intros d r Hr. split; [|by intros; eapply Hw].
  unfold is_ready. rewrite bool_decide_eq_true. simpl. by intros ?%status_str_ready.
Qed.

Lemma withdraw_keeps id m now now_ms msg :
  keeps_ok (update_docs (withdraws id)
    (fun r => set_deleted m now now_ms r <| r_error_message := Some msg |>)).
Proof.
  apply update_docs_shrink; [by intros r; unfold set_deleted; destruct m|].
  intros d r _. unfold live, is_ready, set_deleted. by destruct m.
Qed.

Lemma soft_delete_keeps id (m : DocRow -> bool) now now_ms :
  keeps_ok (update_docs (fun _ r => has_doc_id id r) (fun r => set_deleted (m r) now now_ms r)).
Proof.
  apply update_docs_shrink; [intros r; apply set_deleted_key|]. intros d r _.
  destruct (set_deleted_dead (m r) now now_ms r) as [-> ->]. done.
Qed.

Lemma reset_processing_keeps now : keeps_ok (reset_processing now).
Proof.
  apply update_docs_shrink; [done|]. intros d r Hr%bool_decide_eq_true. split; [done|].
  intros _. unfold live. by rewrite Hr.
Qed.

(** A restored row has no live version of its source beside it. *)
Lemma restore_unless_keeps id m now :
  keeps_ok (update_docs (fun d r => has_doc_id id r && negb (live r) && negb (other_live_exists d r))
              (set_restored m now)).
Proof.
  apply update_docs_keeps. intros d [Hn Hok].
  apply versions_ok_map; [apply keeps_key_if, set_restored_key|done|].
  intros r o Hr Ho Hv Hrd Hl Hs.
  destruct (has_doc_id id r && _ && _) eqn:Er.
  - apply andb_true_iff in Er as [[Hid Hdead]%andb_true_iff Hother].
    destruct (decide (r_doc_id o = r_doc_id r)) as [E|E].
    { rewrite (rows_eq _ _ _ Hn Ho Hr E). apply sorts_before_irrefl. }
    assert (live o = true) as Hlo.
    { destruct (has_doc_id id o && _ && _) eqn:Eo; [|done]. exfalso. apply E.
      rewrite !andb_true_iff in Eo. destruct Eo as [[Hido _] _]. unfold has_doc_id in *.
      rewrite bool_decide_eq_true in *. congruence. }
    exfalso. apply negb_true_iff in Hother. revert Hother. apply not_false_iff_true.
    unfold other_live_exists. apply existsb_exists. exists o. split; [by apply list_elem_of_In|].
    rewrite Hs, Hlo. simpl. rewrite andb_true_r. apply negb_true_iff. by apply bool_decide_eq_false.
  - destruct (has_doc_id id o && _ && _) eqn:Eo; [|by apply (Hok r o)].
    pose proof Eo as Eo'. apply andb_true_iff in Eo' as [_ Hother%negb_true_iff]. exfalso. revert Hother.
    apply not_false_iff_true. apply existsb_exists. exists r. split; [by apply list_elem_of_In|].
    rewrite (same_source_sym _ _ Hs), (is_ready_live r) by done. rewrite andb_true_r.
    apply negb_true_iff, bool_decide_eq_false. intros E.
    assert (o = r) as -> by by eapply rows_eq. by rewrite Er in Eo.
Qed.

(** ** Publication *)

(** The ready write on one row. *)
Definition readied (now : Z) (id : string) (r : DocRow) : DocRow :=
  if has_doc_id id r && live r then
    r <| r_status := DocStatusStr kReady |> <| r_error_message := Some ""%string |>
      <| r_updated_at := NowIso8601 now |>
  else r.

(** What a publication makes of a table: the row is ready, the live rows of its
    source that sort before it are deleted, every other row is as it was. *)
Definition published (m : bool) (now : Z) (id : string) (now_ms : Z) (d : Db) : Db :=
  d <| documents := (fun r => if retires id d r then set_deleted m now now_ms (readied now id r)
                              else readied now id r) <$> documents d |>.

Definition retired (m : bool) (now : Z) (id : string) (now_ms : Z) (d : Db) : Db :=
  d <| documents := (fun r => if retires id d r then set_deleted m now now_ms r else r)
                      <$> documents d |>.

Lemma readied_key now id : keeps_key (readied now id).
Proof. apply keeps_key_if. done. Qed.

Lemma readied_live now id r : live (readied now id r) = live r.
Proof.
  unfold readied. destruct (has_doc_id id r && live r) eqn:E; [|done].
  by apply andb_true_iff in E as [_ ->].
Qed.

Lemma retires_readied now id d r :
  retires id (d <| documents := readied now id <$> documents d |>) (readied now id r) = retires id d r.
Proof.
  unfold retires. cbn. rewrite readied_live. apply existsb_fmap. intros k.
  rewrite (keeps_versioned _ (readied_key now id)), (keeps_same_source _ (readied_key now id)),
    (keeps_sorts_before _ (readied_key now id)).
  unfold has_doc_id. by destruct (readied_key now id k) as (-> & _).
Qed.

Lemma retired_readied m now id now_ms d :
  retired m now id now_ms (d <| documents := readied now id <$> documents d |>)
  = published m now id now_ms d.
Proof.
  unfold retired, published.
  set (d1 := d <| documents := readied now id <$> documents d |>).
  change (documents d1) with (readied now id <$> documents d).
  rewrite <- list_fmap_compose.
  assert ((fun r => if retires id d1 r then set_deleted m now now_ms r else r) ∘ readied now id
          <$> documents d =
          (fun r => if retires id d r then set_deleted m now now_ms (readied now id r)
                    else readied now id r) <$> documents d) as ->; [|done].
  apply list_fmap_ext. intros i r _. simpl. by rewrite <- (retires_readied now id d r).
Qed.

Lemma len_retires_readied now id d :
  len (filter (fun r => retires id (d <| documents := readied now id <$> documents d |>) r = true)
         (readied now id <$> documents d))
  = len (filter (fun r => retires id d r = true) (documents d)).
Proof.
  apply len_filter_fmap. intros r. by rewrite retires_readied.
Qed.

Lemma published_ok m now id now_ms d : ok d -> ok (published m now id now_ms d).
Proof.
  intros [Hn Hok]. apply versions_ok_map; [|done|].
  { intros r. destruct (readied_key now id r) as (Ei & Et & Ep & Ec).
    destruct (retires id d r); [|done].
    destruct (set_deleted_key m now now_ms (readied now id r)) as (-> & -> & -> & ->). done. }
  intros r o Hr Ho Hv Hrd Hl Hs. apply not_true_is_false. intros Hlt.
  destruct (retires id d r).
  { by rewrite (proj2 (set_deleted_dead _ _ _ _)) in Hrd. }
  destruct (retires id d o) eqn:Hro.
  { by rewrite (proj1 (set_deleted_dead _ _ _ _)) in Hl. }
  rewrite readied_live in Hl.
  unfold readied in Hrd. destruct (has_doc_id id r && live r) eqn:Er.
  - apply andb_true_iff in Er as [Hid _]. revert Hro. apply not_false_iff_true.
    apply existsb_exists. exists r. split; [by apply list_elem_of_In|].
    by rewrite Hid, Hv, Hs, Hl, Hlt.
  - by rewrite (Hok r o) in Hlt.
Qed.

(** A call of [RetireOlderVersionsLocked]: SQLite may have ended the transaction
    during the probe of the column. *)
Lemma Retire_cases now id now_ms s rc n s' :
  RetireOlderVersionsLocked now id now_ms s = (rc, n, s') ->
  exists base sv,
    (base = data (conn s) /\ sv = saved (conn s)
     \/ base = committed (conn s) /\ sv = None /\ ~ calm (conn s)) /\
    match rc with
    | 0 => saved (conn s') = sv /\ n = len (filter (fun r => retires id base r = true) (documents base)) /\
        exists m, data (conn s') = retired m now id now_ms base
    | _ => n = 0 /\ (data (conn s') = base /\ saved (conn s') = sv
                     \/ data (conn s') = committed (conn s) /\ saved (conn s') = None)
    end.
Proof.
  unfold RetireOlderVersionsLocked. destruct (DeletedFromStatusColumnLocked s) as [p s1] eqn:Hp.
  assert (data (conn s1) = data (conn s) /\ saved (conn s1) = saved (conn s)
          \/ data (conn s1) = committed (conn s) /\ saved (conn s1) = None /\ ~ calm (conn s)) as Hs1.
  { revert Hp. unfold DeletedFromStatusColumnLocked.
    destruct (has_deleted_from_status_ s); [intros [= <- <-]; by left|].
    unfold on_conn. destruct (select documents_columns (conn s)) as [q c] eqn:Hq.
    assert (data c = data (conn s) /\ saved c = saved (conn s)
            \/ data c = committed (conn s) /\ saved c = None /\ ~ calm (conn s)) as Hs.
    { revert Hq. unfold select. destruct (next_outcome (conn s)) as [o c1] eqn:Hn.
      pose proof (calm_next _ _ _ Hn) as Hm. pose proof (committed_next _ _ _ Hn) as Hcm.
      apply next_data in Hn. destruct o; intros [= <- <-]; [by left..|].
      right. split; [by rewrite <- Hcm|]. split; [done|]. intros Hcalm. by destruct (Hm Hcalm). }
    destruct q as [[names dn]|]; [|intros [= <- <-]; done].
    destruct (negb _ && negb dn); intros [= <- <-]; done. }
  unfold on_conn. destruct (change _ (conn s1)) as [ch c] eqn:Hc.
  apply change_cases in Hc. intros E. exists (data (conn s1)), (saved (conn s1)).
  assert (committed (conn s1) = committed (conn s)) as Hcm.
  { unfold committed. destruct Hs1 as [[-> ->]|(-> & -> & _)]; done. }
  rewrite Hcm in Hc. split; [destruct Hs1 as [[-> ->]|(-> & -> & ?)]; [by left|by right]|].
  destruct ch as [| |k]; simpl in E; simplify_eq; simpl; [done..|].
  destruct Hc as (d' & [= <- <-] & -> & ->). split; [done|]. split; [done|]. by exists (marker_of p).
Qed.

Lemma committed_rollback_if_open s : committed (conn (rollback_if_open s)) = committed (conn s).
Proof. unfold rollback_if_open. case_match; simpl; [apply committed_ROLLBACK|done]. Qed.

(** The outcomes of a publication on an idle connection. *)
Lemma publish_cases now id now_ms s rc n s' :
  saved (conn s) = None -> doc_publish_version now id now_ms s = (rc, n, s') ->
  rc <> 0 /\ n = 0 /\ committed (conn s') = data (conn s)
  \/ rc = 0 /\ n = len (filter (fun r => retires id (data (conn s)) r = true) (documents (data (conn s))))
     /\ (exists r, r ∈ documents (data (conn s)) /\ has_doc_id id r = true /\ live r = true)
     /\ saved (conn s') = None
     /\ (exists m, data (conn s') = published m now id now_ms (data (conn s)))
  \/ rc <> 0 /\ n = 0 /\ ~ calm (conn s) /\
     exists m, committed (conn s') = retired m now id now_ms (data (conn s)).
Proof.
  intros Hidle. unfold doc_publish_version.
  set (d := data (conn s)).
  destruct (TryConsumeOpFault s) as [fault s0] eqn:Hf.
  assert (conn s0 = conn s) as Hc0.
  { revert Hf. unfold TryConsumeOpFault. case_match; by intros [= <- <-]. }
  destruct fault.
  { intros [= <- <- <-]. left. split_and!; [done..|]. unfold committed. by rewrite Hc0, Hidle. }
  unfold on_conn at 1. rewrite Hc0. destruct (BEGIN (conn s)) as [b c1] eqn:Hb.
  pose proof (calm_BEGIN _ _ _ Hb) as Hm1. apply BEGIN_cases in Hb. destruct b.
  2: { intros [= <- <- <-]. left. split_and!; [done..|]. simpl. rewrite Hb. unfold committed. by rewrite Hidle. }
  destruct Hb as (_ & Hd1 & Hsv1). fold d in Hd1, Hsv1. simpl.
  set (s1 := s0 <| conn := c1 |>).
  destruct (UpdateStatusLocked now id kReady "" s1) as [urc s2] eqn:Hu.
  assert (committed (conn s2) = d /\ (calm (conn s) -> calm (conn s2)) /\
    (urc = 0 -> data (conn s2) = d <| documents := readied now id <$> documents d |> /\
       saved (conn s2) = Some d /\ exists r, r ∈ documents d /\ has_doc_id id r = true /\ live r = true))
    as (Hcm2 & Hm2 & Hok2).
  { revert Hu. unfold UpdateStatusLocked, on_conn. simpl.
    destruct (change _ c1) as [ch c2] eqn:Hc. pose proof (calm_change _ _ _ _ Hc) as Hm2.
    apply change_cases in Hc.
    assert (committed c1 = d) as Hcm1 by (unfold committed; by rewrite Hsv1).
    destruct ch as [| |k]; simpl; intros [= <- <-]; simpl; (split; [|split; [by auto|]]); try done.
    1,2: unfold committed at 1; destruct Hc as [[_ ->]|[-> ->]]; simpl; by rewrite ?Hsv1.
    1: unfold committed; by destruct Hc as (d' & _ & _ & ->); rewrite Hsv1.
    destruct Hc as (d' & [= <- <-] & -> & ->). rewrite Hsv1, Hd1. intros Hk.
    split; [done|]. split; [done|]. fold d in Hk.
    destruct (filter _ (documents d)) as [|r l] eqn:Hfl; [done|].
    pose proof (list_elem_of_here r l) as Hr. rewrite <- Hfl in Hr. apply list_elem_of_filter in Hr as [[? ?]%andb_true_iff ?]. eauto. }
  destruct (Z.eqb_spec urc 0) as [->|Hurc]; simpl.
  2: { intros [= <- <- <-]. left. by rewrite committed_rollback_if_open. }
  destruct (Hok2 eq_refl) as (Hd2 & Hsv2 & Hex).
  destruct (RetireOlderVersionsLocked now id now_ms s2) as [[rrc n2] s3] eqn:Hr.
  apply Retire_cases in Hr as (base & sv & Hbase & Hr).
  destruct (Z.eqb_spec rrc 0) as [->|Hrrc]; simpl.
  2: { intros [= <- <- <-]. left. split_and!; [done..|]. rewrite committed_rollback_if_open.
    assert (data (conn s3) = base /\ saved (conn s3) = sv
            \/ data (conn s3) = committed (conn s2) /\ saved (conn s3) = None) as Hs3
      by (destruct rrc; [done|by apply Hr..]).
    unfold committed. destruct Hs3 as [[-> ->]|[-> ->]]; [|done].
    destruct Hbase as [[-> ->]|(-> & -> & _)]; [by rewrite Hsv2|done]. }
  destruct Hr as (Hsv3 & Hn & m & Hd3).
  unfold on_conn. destruct (COMMIT (conn s3)) as [b c4] eqn:Hco.
  destruct Hbase as [[-> ->]|(-> & -> & Hnc)].
  - rewrite Hsv2 in Hsv3. rewrite Hd2 in Hd3, Hn. rewrite retired_readied in Hd3.
    apply COMMIT_cases in Hco; [|unfold in_transaction; rewrite Hsv3; by apply bool_decide_eq_true].
    destruct b; simpl; intros [= <- <- <-].
    + right. left. destruct Hco as [Hd4 Hs4]. split; [done|]. split.
      { rewrite Hn. apply len_retires_readied. }
      split; [done|]. split; [done|]. exists m. simpl. by rewrite Hd4.
    + left. split_and!; [done..|]. rewrite committed_rollback_if_open. simpl. rewrite Hco.
      unfold committed. by rewrite Hsv3.
  - apply COMMIT_idle in Hco as [-> Hcm]; [|done]. simpl. intros [= <- <- <-].
    right. right. split; [done|]. split; [done|]. split; [by auto|]. exists m.
    rewrite committed_rollback_if_open. simpl. rewrite Hcm. unfold committed at 1.
    by rewrite Hsv3, Hd3, Hcm2.
Qed.

(** ** Every method *)

#[export] Hint Resolve retire_keeps withdraw_keeps soft_delete_keeps reset_processing_keeps
  restore_unless_keeps : keeps.

Section Methods.
Context `{Planner}.
Context (draw : nat -> Z).

Lemma inv_update_status now id st msg s :
  st <> kReady -> inv s -> inv (doc_update_status now id st msg s).2.
Proof.
  intros Hst Hi. unfold doc_update_status, UpdateStatusLocked. inv_step; [done|].
  destruct (on_conn _ _) as [ch s1] eqn:Ec. apply (inv_change ok) in Ec; [|apply update_status_keeps|done].
  - by destruct (finished ch).
  - done.
  - by intros d r [_ ?]%andb_true_iff.
Qed.

Lemma inv_retire now id now_ms s : inv s -> inv (doc_retire_older_versions now id now_ms s).2.
Proof.
  intros Hi. unfold doc_retire_older_versions, RetireOlderVersionsLocked. inv_run.
Qed.

Lemma inv_withdraw now id now_ms msg s : inv s -> inv (doc_withdraw_version now id now_ms msg s).2.
Proof.
  intros Hi. unfold doc_withdraw_version. inv_step; [done|]. destruct (in_transaction _); [done|]. inv_run.
Qed.

Lemma inv_restore_unless now id s : inv s -> inv (doc_restore_unless_superseded now id s).2.
Proof. intros Hi. unfold doc_restore_unless_superseded. inv_run. Qed.

Lemma inv_soft_delete now id now_ms s : inv s -> inv (doc_soft_delete now id now_ms s).2.
Proof.
  intros Hi. unfold doc_soft_delete. inv_step; [done|]. inv_step.
  destruct (on_conn _ _) as [ch s2] eqn:Ec.
  match type of Ec with context [marker_of ?p] =>
    apply (inv_change ok) in Ec; [|apply (soft_delete_keeps id (fun r => marker_of p && live r))|done] end.
  by destruct (finished ch).
Qed.

Lemma inv_delete id s : inv s -> inv (doc_delete id s).2.
Proof. intros Hi. unfold doc_delete. repeat (inv_step || case_match || simpl; try done). Qed.

Lemma inv_delete_prefix p s : inv s -> inv (doc_delete_by_source_prefix p s).2.
Proof.
  intros Hi. unfold doc_delete_by_source_prefix.
  repeat (inv_step || case_match || simpl; try done; eauto using inv_rollback).
Qed.

Lemma inv_block_insert pick b s : inv s -> inv (block_insert pick b s).2.
Proof. intros Hi. unfold block_insert. inv_run. Qed.

Lemma inv_block_delete id s : inv s -> inv (block_delete_by_doc id s).2.
Proof. intros Hi. unfold block_delete_by_doc. inv_run. Qed.

Lemma inv_ids_with_status st s : inv s -> inv (ids_with_status st s).2.
Proof. intros Hi. unfold ids_with_status. inv_run. Qed.

Lemma inv_recover now s : inv s -> inv (RecoverCrashedDocs now s).2.
Proof.
  intros Hi. unfold RecoverCrashedDocs.
  pose proof (inv_ids_with_status kProcessing s Hi) as H1.
  destruct (ids_with_status kProcessing s) as [[ids|] s1]; [|done]. simpl in H1.
  set (s2 := drop_blocks_of ids s1). assert (inv s2) as H2.
  { apply inv_foldl; [|done]. intros; apply inv_try_change; auto with keeps. }
  set (s3 := if bool_decide (ids = []) then s2 else try_change (reset_processing now) s2).
  assert (inv s3) as H3.
  { unfold s3. case_match; [done|]. apply inv_try_change; auto with keeps. }
  pose proof (inv_ids_with_status kDeleting s3 H3) as H4.
  destruct (ids_with_status kDeleting s3) as [[ids'|] s4]; [|done]. simpl in *.
  apply inv_foldl; [|done]. intros; repeat (apply inv_try_change; auto with keeps).
Qed.

(** A new row that is not ready and sorts after the rows of its source. *)
Definition sorts_last (r : DocRow) (d : Db) : Prop :=
  forall o, o ∈ documents d -> same_source o r = true -> sorts_before r o = false.

Lemma insert_doc_ok r d n d' :
  is_ready r = false -> sorts_last r d -> ok d -> insert_doc r d = Some (n, d') -> ok d'.
Proof.
  intros Hr Hlast [Hn Hok]. unfold insert_doc. case_bool_decide as Hid; [done|]. intros [= <- <-].
  split; simpl.
  - rewrite fmap_app. apply NoDup_app. split; [done|]. split; [|apply NoDup_singleton].
    intros id Hin ->%list_elem_of_singleton. done.
  - intros x o [Hx| ->%list_elem_of_singleton]%elem_of_app [Ho| ->%list_elem_of_singleton]%elem_of_app
      Hv Hrd Hl Hs; try congruence; eauto using same_source_sym.
Qed.

Definition new_row (now : Z) (doc : CortrixDoc) s : DocRow :=
  row_of now (doc <| doc_id := (mint_id draw now doc (ulids s)).1 |>).

Lemma inv_create now doc s :
  is_ready (new_row now doc s) = false -> sorts_last (new_row now doc s) (data (conn s)) ->
  inv s -> inv (doc_create draw now doc s).2.
Proof.
  intros Hr Hlast Hi. unfold doc_create. unfold TryConsumeOpFault.
  destruct (0 <? fail_next_ops_ s); [done|]. unfold new_row in *.
  destruct (mint_id draw now doc (ulids s)) as [id g]. simpl in Hr, Hlast.
  set (s1 := s <| ulids := g |>). unfold on_conn.
  destruct (change _ (conn s1)) as [ch c] eqn:Hc.
  assert (inv (s1 <| conn := c |>)) as Hi2.
  { destruct Hi as [Hd Hcm]. apply change_cases in Hc. unfold inv, committed in *. simpl in *.
    destruct ch as [| |n].
    1,2: destruct Hc as [[-> ->]|[-> ->]]; simpl; done.
    destruct Hc as (d' & Hf & -> & ->). assert (ok d') by by eapply insert_doc_ok.
    split; [done|]. by destruct (saved (conn s)). }
  destruct (finished ch); [|done].
  destruct (lookup_row _ _) as [q s2] eqn:Hq. apply (inv_lookup ok) in Hq; [|done].
  by destruct q as [[[r|] b]|].
Qed.

Lemma inv_restore now id s :
  (forall r, r ∈ documents (data (conn s)) -> has_doc_id id r = true -> versioned r = false) ->
  saved (conn s) = None -> inv s -> inv (doc_restore now id s).2.
Proof.
  intros Hnv Hidle Hi. unfold doc_restore, TryConsumeOpFault.
  destruct (0 <? fail_next_ops_ s); [done|].
  destruct (DeletedFromStatusColumnLocked s) as [p s1] eqn:Hp.
  assert (data (conn s1) = data (conn s)) as Hd1.
  { revert Hp. unfold DeletedFromStatusColumnLocked, on_conn.
    destruct (has_deleted_from_status_ s); [by intros [= <- <-]|].
    destruct (select _ _) as [q c] eqn:Hq. apply select_cases in Hq as [Hq _].
    assert (data c = data (conn s)) by (destruct Hq as [[-> _]|[-> _]]; unfold committed; by rewrite ?Hidle).
    destruct q as [[names dn]|]; [|by intros [= <- <-]].
    destruct (negb _ && negb dn); by intros [= <- <-]. }
  apply (inv_probe ok) in Hp; [|done]. unfold on_conn.
  destruct (change _ (conn s1)) as [ch c] eqn:Hc. apply change_cases in Hc.
  enough (inv (s1 <| conn := c |>)) by (by destruct (finished ch)).
  destruct Hp as [Hd Hcm]. unfold inv, committed in *. simpl.
  destruct ch as [| |n].
  1,2: destruct Hc as [[-> ->]|[-> ->]]; simpl; done.
  destruct Hc as (d' & [= <- <-] & -> & ->).
  match goal with |- ok ?d /\ _ => assert (ok d) end; [|split; [done|by destruct (saved (conn s1))]].
  rewrite Hd1 in *. destruct Hd as [Hn Hok].
  apply versions_ok_map; [apply keeps_key_if, set_restored_key|done|].
  intros r o Hr Ho Hv Hrd Hl Hs. destruct (has_doc_id id r && _) eqn:Er.
  { apply andb_true_iff in Er as [Er _]. by rewrite (Hnv r) in Hv. }
  destruct (has_doc_id id o && _) eqn:Eo; [|by apply (Hok r o)].
  apply andb_true_iff in Eo as [Eo _].
  rewrite <- (versioned_same_source o r), (Hnv o) in Hv by done. done.
Qed.

Lemma publish_committed now id now_ms s :
  saved (conn s) = None -> ok (data (conn s)) ->
  ok (committed (conn (doc_publish_version now id now_ms s).2)).
Proof.
  intros Hidle Hok. destruct (doc_publish_version now id now_ms s) as [[rc n] s'] eqn:E.
  apply publish_cases in E; [|done]. simpl.
  destruct E as [(_ & _ & ->)|[(_ & _ & _ & Hs & m & Hd)|(_ & _ & _ & m & ->)]].
  - done.
  - unfold committed. rewrite Hs, Hd. by apply published_ok.
  - by apply (retire_keeps id m now now_ms (data (conn s)) (len (filter (fun r => retires id (data (conn s)) r = true) (documents (data (conn s)))))).
Qed.

(** ** Reachable databases

    A call of a method, with the conditions under which the code makes it: a new
    row is created for a file under an id and at a time that sort after the rows
    of that file, and is not ready; a status write is never the ready one, which
    goes through the publication; the unguarded restore is for rows of other
    producers. *)
Inductive store_call :=
| CallCreate (doc : CortrixDoc)
| CallUpdateStatus (id : string) (st : DocStatus) (msg : string)
| CallPublish (id : string) (now_ms : Z)
| CallRetire (id : string) (now_ms : Z)
| CallWithdraw (id : string) (now_ms : Z) (msg : string)
| CallSoftDelete (id : string) (now_ms : Z)
| CallRestore (id : string)
| CallRestoreUnlessSuperseded (id : string)
| CallDelete (id : string)
| CallDeleteByPrefix (prefix : string)
| CallBlockInsert (pick : list Z -> Z) (b : CortrixBlock)
| CallBlockDelete (id : string)
| CallRecover.

Definition run_call (now : Z) (call : store_call) s : CortrixStoreSqlite :=
  match call with
  | CallCreate doc => (doc_create draw now doc s).2
  | CallUpdateStatus id st msg => (doc_update_status now id st msg s).2
  | CallPublish id now_ms => (doc_publish_version now id now_ms s).2
  | CallRetire id now_ms => (doc_retire_older_versions now id now_ms s).2
  | CallWithdraw id now_ms msg => (doc_withdraw_version now id now_ms msg s).2
  | CallSoftDelete id now_ms => (doc_soft_delete now id now_ms s).2
  | CallRestore id => (doc_restore now id s).2
  | CallRestoreUnlessSuperseded id => (doc_restore_unless_superseded now id s).2
  | CallDelete id => (doc_delete id s).2
  | CallDeleteByPrefix p => (doc_delete_by_source_prefix p s).2
  | CallBlockInsert pick b => (block_insert pick b s).2
  | CallBlockDelete id => (block_delete_by_doc id s).2
  | CallRecover => (RecoverCrashedDocs now s).2
  end.

Definition call_allowed (now : Z) (call : store_call) s : Prop :=
  match call with
  | CallCreate doc =>
      status doc <> kReady /\ sorts_last (new_row now doc s) (data (conn s))
  | CallUpdateStatus id st msg => st <> kReady
  | CallRestore id =>
      forall r, r ∈ documents (data (conn s)) -> has_doc_id id r = true -> versioned r = false
  | _ => True
  end.

(** What is committed, after any number of calls of any number of connections;
    each connection starts its call outside a transaction, with whatever failures
    are in store for it. *)
Inductive reachable : Db -> Prop :=
| reachable_empty d : documents d = [] -> reachable d
| reachable_call s now call :
    reachable (data (conn s)) -> saved (conn s) = None -> call_allowed now call s ->
    reachable (committed (conn (run_call now call s))).

Lemma reachable_ok d : reachable d -> ok d.
Proof.
  induction 1 as [d Hd|s now call _ IH Hidle Hal].
  { unfold ok, versions_ok. rewrite Hd. split; [constructor|]. by intros ? ? ?%not_elem_of_nil. }
  assert (inv s) as Hi by (unfold inv, committed; by rewrite Hidle).
  destruct call; simpl in *; try (lazymatch goal with |- context [doc_publish_version] => fail | _ => apply inv_committed end).
  - destruct Hal as [Hst Hl]. apply inv_create; [|done..]. unfold is_ready.
    apply bool_decide_eq_false. simpl. by intros ?%status_str_ready.
  - by apply inv_update_status.
  - by apply publish_committed, Hi.
  - by apply inv_retire.
  - by apply inv_withdraw.
  - by apply inv_soft_delete.
  - by apply inv_restore.
  - by apply inv_restore_unless.
  - by apply inv_delete.
  - by apply inv_delete_prefix.
  - by apply inv_block_insert.
  - by apply inv_block_delete.
  - by apply inv_recover.
Qed.


End Methods.

Lemma some_row (P : DocRow -> bool) rows :
  (0 <? len (filter (fun r => P r = true) rows)) = existsb P rows.
Proof.
  induction rows as [|r l IH]; [done|]. rewrite filter_cons. simpl.
  destruct (P r); [|by rewrite decide_False].
  rewrite decide_True, len_cons by done. simpl. apply Z.ltb_lt. pose_lens. lia.
Qed.

(** Publishing a version on an idle connection either does all of it or
    nothing, unless SQLite ends the transaction by itself: it returns 0 with the
    row ready, every older live version of its source deleted and counted and
    every other row as it was, or it returns an error with nothing committed.
    When nothing fails it succeeds exactly when the row is there and not deleted,
    and answers -2 otherwise. *)
Theorem Publish_version_outcomes now id now_ms s :
  saved (conn s) = None ->
  let d := data (conn s) in
  let '(rc, n, s') := doc_publish_version now id now_ms s in
  (calm (conn s) ->
     rc = 0 /\ n = len (filter (fun r => retires id d r = true) (documents d)) /\
       (exists r, r ∈ documents d /\ r_doc_id r = id /\ live r = true) /\
       (exists m, committed (conn s') = published m now id now_ms d)
     \/ rc <> 0 /\ n = 0 /\ committed (conn s') = d) /\
  (outcomes (conn s) = [] -> fail_next_ops_ s <= 0 ->
     rc = if existsb (fun r => has_doc_id id r && live r) (documents d) then 0 else -2).
Proof.
  intros Hidle. destruct (doc_publish_version now id now_ms s) as [[rc n] s'] eqn:E. split.
  - intros Hcalm. apply publish_cases in E; [|done].
    destruct E as [?|[(-> & -> & (r & Hr & Hid & Hl) & Hs & m & Hd)|(_ & _ & Hnc & _)]]; [by right| |done].
    left. split; [done|]. split; [done|]. split.
    + exists r. by unfold has_doc_id in Hid; rewrite bool_decide_eq_true in Hid.
    + exists m. unfold committed. by rewrite Hs, Hd.
  - intros Ho Hf. revert E. destruct s as [[d sv os] fo ? ? ? mk fk g]. simpl in *. subst.
    unfold doc_publish_version, TryConsumeOpFault. simpl.
    rewrite (proj2 (Z.ltb_ge _ _)) by done. unfold UpdateStatusLocked, RetireOlderVersionsLocked. simpl.
    match goal with |- context [0 <? len ?l] => replace (0 <? len l) with
      (existsb (fun r => has_doc_id id r && live r) (documents d)) by (symmetry; apply some_row) end.
    destruct (existsb _ (documents d)); simpl; [|by intros [= <- _ _]].
    unfold DeletedFromStatusColumnLocked. simpl.
    destruct mk as [b|]; simpl; [by intros [= <- _ _]|].
    rewrite andb_false_r. simpl. by intros [= <- _ _].
Qed.

(** ** Concrete runs *)

Module StoreRuns.
Definition draw0 : nat -> Z := fun _ => 0.

Definition empty_db : Db :=
  MkDb [] [] [] [] [] [] [] ["doc_id"; "status"; "deleted_at"; "deleted_from_status"]%string
    ["block_id"; "data"]%string.

(** A new connection to a database, with the given outcomes in store. *)
Definition store_with (os : list sql_outcome) (d : Db) : CortrixStoreSqlite :=
  MkStore (MkConn d None os) 0 false false false None true Ulid.initial.

Definition upload (id path : string) : CortrixDoc :=
  MkDoc id "http_upload" path "" "" 1 "text/plain" kPending "" 3 0 "" "" "" "" "" "" "" "" "" "".

Definition after (now : Z) (call : store_call) (d : Db) : Db :=
  committed (conn (run_call (H := insertion_planner) draw0 now call (store_with [] d))).

(** Version A published, version B published after it, version C uploaded. *)
Definition three_versions : Db :=
  after 5000 (CallCreate (upload "C" "/a.txt"))
    (after 4000 (CallPublish "B" 4000)
      (after 3000 (CallCreate (upload "B" "/a.txt"))
        (after 2000 (CallPublish "A" 2000)
          (after 1000 (CallCreate (upload "A" "/a.txt")) empty_db)))).

Lemma sorts_last_check r d :
  forallb (fun o => negb (same_source o r) || negb (sorts_before r o)) (documents d) = true ->
  sorts_last r d.
Proof.
  rewrite forallb_forall. intros Hb o Ho%list_elem_of_In Hs. apply Hb in Ho. rewrite Hs in Ho.
  by apply negb_true_iff in Ho.
Qed.

Lemma after_reachable now call d :
  reachable (H := insertion_planner) draw0 d -> call_allowed draw0 now call (store_with [] d) ->
  reachable (H := insertion_planner) draw0 (after now call d).
Proof. intros Hd Ha. by apply reachable_call. Qed.

Lemma three_versions_reachable : reachable (H := insertion_planner) draw0 three_versions.
Proof.
  repeat (apply after_reachable; [|first [exact I | split; [done|apply sorts_last_check; reflexivity]]]).
  by apply reachable_empty.
Qed.
Definition three_rows : list DocRow := Eval vm_compute in documents three_versions.
Lemma three_rows_eq : documents three_versions = three_rows.
Proof. vm_compute. reflexivity. Qed.
End StoreRuns.


(** Publishing B retires A in this database. *)
Lemma Publish_version_outcomes_witness :
  let d := StoreRuns.after 3000 (CallCreate (StoreRuns.upload "B" "/a.txt"))
             (StoreRuns.after 2000 (CallPublish "A" 2000)
               (StoreRuns.after 1000 (CallCreate (StoreRuns.upload "A" "/a.txt")) StoreRuns.empty_db)) in
  let s := StoreRuns.store_with [] d in
  saved (conn s) = None /\
  (doc_publish_version 4000 "B" 4000 s).1 = (0, 1) /\
  (outcomes (conn s) = [] -> fail_next_ops_ s <= 0 ->
   (doc_publish_version 4000 "B" 4000 s).1.1 = 0).
Proof.
  cbv zeta. split; [reflexivity|]. split; [vm_compute; reflexivity|].
  match goal with |- context [doc_publish_version 4000 _ 4000 ?st] =>
    pose proof (Publish_version_outcomes 4000 "B" 4000 st eq_refl) as P end.
  revert P. destruct (doc_publish_version _ _ _ _) as [[rc n] s']. intros [_ P] Ho Hf.
  rewrite (P Ho Hf). vm_compute. reflexivity.
Defined.

(** When SQLite ends the transaction during the probe of the column (an I/O
    error, no memory), the retirement runs and commits on its own: the call
    returns an error, the new version is not ready, and the version that was
    served is deleted, although an error is said to apply nothing. *)
Lemma Publish_error_retires_served_version :
  let d := StoreRuns.after 3000 (CallCreate (StoreRuns.upload "B" "/a.txt"))
             (StoreRuns.after 2000 (CallPublish "A" 2000)
               (StoreRuns.after 1000 (CallCreate (StoreRuns.upload "A" "/a.txt")) StoreRuns.empty_db)) in
  let '(rc, _, s') := doc_publish_version 4000 "B" 4000
                        (StoreRuns.store_with [SqlOk; SqlOk; SqlAbort] d) in
  rc = -1 /\ (r_status <$> documents d) = ["ready"; "pending"]%string /\
  (r_status <$> documents (committed (conn s'))) = ["deleted"; "pending"]%string.
Proof. vm_compute. done. Qed.
