(* ===== verification/CortrixStoreTheory.v ===== *)
(** * What the document store's methods do

    Round trips of documents and blocks, the deletion of a source prefix, and the
    recovery of documents that a crash left behind. *)
From Stdlib Require Import Ascii String.
From S2P Require Import Prelude Iso8601 Ulid TaskManager Sqlite Documents DocumentsTheory FtsQuery CortrixStore StoreVersions.
Import Sqlite Documents FtsQuery CortrixStoreSqlite.

(** ** Stores on which nothing fails *)

Definition clean (s : CortrixStoreSqlite) : Prop :=
  saved (conn s) = None /\ outcomes (conn s) = [] /\ fail_next_ops_ s <= 0.

Definition set_data (s : CortrixStoreSqlite) (d : Db) : CortrixStoreSqlite :=
  s <| conn := conn s <| data := d |> |>.

Lemma clean_set_data s d : clean s -> clean (set_data s d).
Proof. done. Qed.

Lemma set_data_same s : set_data s (data (conn s)) = s.
Proof. by destruct s as [[]]. Qed.

Lemma set_data_twice s d d' : set_data (set_data s d) d' = set_data s d'.
Proof. done. Qed.

Lemma clean_fault s : clean s -> TryConsumeOpFault s = (false, s).
Proof.
  intros (_ & _ & Hf). unfold TryConsumeOpFault. by rewrite (proj2 (Z.ltb_ge _ _)) by done.
Qed.

Lemma clean_change f s n d :
  clean s -> f (data (conn s)) = Some (n, d) -> on_conn (change f) s = (Changes n, set_data s d).
Proof.
  intros (_ & Ho & _) Hf. unfold on_conn, change, next_outcome. by rewrite Ho, Hf.
Qed.

Lemma clean_change_none f s :
  clean s -> f (data (conn s)) = None -> on_conn (change f) s = (StepFailed true, s).
Proof.
  intros (_ & Ho & _) Hf. unfold on_conn, change, next_outcome. rewrite Ho, Hf.
  by destruct s as [[]].
Qed.

Lemma clean_select {A} (f : Db -> list A) s :
  clean s -> on_conn (select f) s = (Some (f (data (conn s)), true), s).
Proof.
  intros (_ & Ho & _). unfold on_conn, select, next_outcome. rewrite Ho. by destruct s as [[]].
Qed.

Lemma clean_lookup {A} (f : Db -> list A) s :
  clean s -> lookup_row f s = (Some (head (f (data (conn s))), true), s).
Proof.
  intros Hc. unfold lookup_row. rewrite clean_select by done. by destruct (f (data (conn s))).
Qed.

Lemma docs_where_app w d r :
  docs_where w (d <| documents := documents d ++ [r] |>)
  = docs_where w d ++ (if w r then [r] else []).
Proof. unfold docs_where. simpl. rewrite filter_app, filter_cons. by destruct (w r). Qed.

Lemma docs_where_none id d :
  id ∉ r_doc_id <$> documents d -> docs_where (has_doc_id id) d = [].
Proof.
  intros Hid. unfold docs_where. apply filter_none, Forall_forall. intros r Hr.
  unfold has_doc_id. rewrite bool_decide_eq_true. intros <-. apply Hid. by apply list_elem_of_fmap_2.
Qed.

Lemma status_roundtrip st : DocStatusFromStr (DocStatusStr st) = st.
Proof. by destruct st. Qed.

Lemma nullable_roundtrip t : col_text (nullable t) = t.
Proof. unfold nullable. by case_bool_decide; subst. Qed.

Lemma nonnegative_roundtrip n : -1 <= n -> default (-1) (nonnegative n) = n.
Proof. unfold nonnegative. intros. case_match; simpl; lia. Qed.

Section Roundtrips.
Context `{Planner}.
Context (draw : nat -> Z).

(** A document that is created and then read is the one that was created,
    with the identifier and the times the store gave it; creating a second
    document under an identifier that is taken fails and changes nothing. *)
Theorem Document_roundtrip now doc s :
  clean s ->
  let id := (mint_id draw now doc (ulids s)).1 in
  let '(rc, doc', s') := doc_create draw now doc s in
  if bool_decide (id ∈ r_doc_id <$> documents (data (conn s)))
  then rc = -1 /\ data (conn s') = data (conn s)
  else rc = 0 /\ (doc_get id s').1 = (0, Some doc') /\
       doc' = doc <| doc_id := id |> <| created_at := NowIso8601 now |>
                  <| updated_at := NowIso8601 now |>.
Proof.
  intros Hc. unfold doc_create. rewrite clean_fault by done.
  destruct (mint_id draw now doc (ulids s)) as [id g] eqn:Hm. simpl.
  set (s1 := s <| ulids := g |>). assert (clean s1) as Hc1 by done.
  set (row := row_of now (doc <| doc_id := id |>)).
  case_bool_decide as Hid.
  - rewrite (clean_change_none _ _ Hc1); [done|].
    unfold insert_doc. simpl. by rewrite bool_decide_true.
  - rewrite (clean_change _ _ 1 (data (conn s) <| documents := documents (data (conn s)) ++ [row] |>) Hc1).
    2: { unfold insert_doc. simpl. by rewrite bool_decide_false. }
    set (d' := data (conn s) <| documents := documents (data (conn s)) ++ [row] |>).
    pose proof (clean_set_data s1 d' Hc1) as Hc2.
    assert (docs_where (has_doc_id id) (data (conn (set_data s1 d'))) = [row]) as Hw.
    { change (docs_where (has_doc_id id) d' = [row]). unfold d'.
      rewrite docs_where_app, docs_where_none by done. unfold has_doc_id, row. simpl.
      by rewrite bool_decide_true. }
    generalize dependent (set_data s1 d'). intros s2 Hc2 Hw. cbn [finished].
    rewrite (clean_lookup _ _ Hc2), Hw. cbn [head]. split; [done|]. unfold doc_get.
    rewrite (clean_fault _ Hc2), (clean_lookup _ _ Hc2), Hw. cbn [head fst]. split; [|done].
    do 2 f_equal. unfold ReadDocFromStmt, row, row_of. simpl.
    rewrite !nullable_roundtrip, status_roundtrip. generalize (NowIso8601 now) as t. by destruct doc.
Qed.

(** Blocks whose optional numbers are absent (-1) or not negative. *)
Definition block_ok (b : CortrixBlock) : Prop :=
  0 < block_id b < 2 ^ 64 /\ -1 <= hnsw_node_id b /\ -1 <= token_count b /\ -1 <= parent_offset b
  /\ enriched_score b = None /\ semantic_score b = None.

Lemma u64_i64 v : 0 <= v < 2 ^ 64 -> u64 (i64 v) = v.
Proof. intros. unfold u64, i64. Z.to_euclidean_division_equations; lia. Qed.

Lemma clean_signals id s e m s' :
  clean s -> LoadBlockScoreSignalsLocked id s = (e, m, s') ->
  (forall b, b ∈ blocks (data (conn s)) -> has_block_id id b = true ->
     b_enriched_score b = None /\ b_semantic_score b = None) -> e = None /\ m = None.
Proof.
  intros Hc. unfold LoadBlockScoreSignalsLocked.
  assert (clean (EnsureScoreColumnCacheLocked s) /\
    data (conn (EnsureScoreColumnCacheLocked s)) = data (conn s)) as [Hc1 Hd].
  { unfold EnsureScoreColumnCacheLocked, ColumnExists. destruct (score_columns_checked_ s); [done|].
    rewrite clean_select by done. by rewrite clean_select. }
  destruct (negb _ && negb _); [by intros [= <- <- _]|].
  rewrite clean_lookup by done. rewrite Hd. intros He Hb.
  destruct (blocks_where (has_block_id id) (data (conn s))) as [|b l] eqn:Hl; simpl in He;
    [by simplify_eq|].
  pose proof (list_elem_of_here b l) as Hin. rewrite <- Hl in Hin.
  apply list_elem_of_filter in Hin as [Hi Hin]. destruct (Hb b Hin Hi) as [E1 E2].
  rewrite E1, E2 in He. destruct (has_enriched_score_ _), (has_semantic_score_ _); by simplify_eq.
Qed.

(** A block that is inserted under its 64-bit identifier and then read is the
    one that was inserted, also when the identifier has its high bit set and is
    stored as a negative SQLite integer; an identifier that is taken, or a
    document that is not there, fails and changes nothing. *)
Theorem Block_row_roundtrip pick b s :
  clean s -> block_ok b ->
  let d := data (conn s) in
  let '(rc, b', s') := block_insert pick b s in
  if bool_decide (i64 (block_id b) ∈ b_block_id <$> blocks d)
     || foreign_keys s && negb (bool_decide (k_doc_id b ∈ r_doc_id <$> documents d))
  then rc = -1 /\ data (conn s') = d
  else rc = 0 /\ (block_get (block_id b) s').1 = (0, Some b).
Proof.
  intros Hc (Hid & Hh & Ht & Hp & He & Hm). unfold block_insert. rewrite clean_fault by done.
  rewrite (proj2 (Z.eqb_neq (block_id b) 0)) by lia. cbn [negb].
  change (ToSqliteInt (block_id b)) with (i64 (block_id b)).
  set (row := block_row (i64 (block_id b)) b).
  destruct (bool_decide _ || _) eqn:E.
  - rewrite (clean_change_none _ _ Hc); [done|]. unfold insert_block. simpl.
    apply orb_true_iff in E as [E|E]; [by rewrite E|].
    rewrite E. by destruct (bool_decide (i64 _ ∈ _)).
  - apply orb_false_iff in E as [E1 E2].
    destruct (insert_block (foreign_keys s) row (data (conn s))) as [[n d']|] eqn:Hi.
    2: { exfalso. revert Hi. unfold insert_block. simpl. by rewrite E1, E2. }
    rewrite (clean_change _ _ _ _ Hc Hi). cbn [finished]. split; [done|].
    assert (blocks d' = blocks (data (conn s)) ++ [row]) as Hbl.
    { revert Hi. unfold insert_block. simpl. rewrite E1, E2. by intros [= _ <-]. }
    assert (blocks_where (has_block_id (block_id b)) d' = [row]) as Hw.
    { unfold blocks_where. rewrite Hbl, filter_app, filter_cons, filter_none.
      - unfold has_block_id, row. simpl. by rewrite Z.eqb_refl.
      - apply Forall_forall. intros x Hx. unfold has_block_id. rewrite Z.eqb_eq. intros Ex.
        apply bool_decide_eq_false in E1. apply E1. unfold ToSqliteInt in Ex. rewrite <- Ex.
        by apply list_elem_of_fmap_2. }
    assert (data (conn (set_data s d')) = d') as Hd2 by done.
    pose proof (clean_set_data s d' Hc) as Hc2. revert Hc2 Hd2.
    generalize (set_data s d'). intros s2 Hc2 Hd2. unfold block_get.
    rewrite (clean_fault _ Hc2), (clean_lookup _ _ Hc2), Hd2, Hw. cbn [head]. unfold with_signals.
    destruct (LoadBlockScoreSignalsLocked _ _) as [[e m] s3] eqn:Hs.
    assert (block_id (read_block row) = block_id b) as Hrid
      by (unfold row; simpl; apply u64_i64; lia).
    apply clean_signals in Hs as [-> ->]; [|done|].
    + cbn [fst]. do 2 f_equal. unfold read_block, row, block_row, FromSqliteInt, ToSqliteInt. simpl.
      rewrite !nullable_roundtrip, !nonnegative_roundtrip, u64_i64 by lia.
      destruct b; simpl in *. by subst.
    + intros x Hx Hxi. rewrite Hrid in Hxi. rewrite Hd2 in Hx.
      assert (x ∈ blocks_where (has_block_id (block_id b)) d') as Hin by by apply list_elem_of_filter.
      rewrite Hw in Hin. by apply list_elem_of_singleton in Hin as ->.
Qed.
End Roundtrips.

(** ** The full-text index follows the blocks *)

Definition fts_entry (b : BlockRow) : option (Z * string) := (fun t => (b_block_id b, t)) <$> b_content_text b.

(** The index holds the texts of the blocks, and block ids are unique. *)
Definition fts_sync (d : Db) : Prop :=
  NoDup (b_block_id <$> blocks d) /\ blocks_fts d = omap fts_entry (blocks d).

Lemma insert_block_sync fk b d n d' : fts_sync d -> insert_block fk b d = Some (n, d') -> fts_sync d'.
Proof.
  intros [Hn Hf]. unfold insert_block. case_bool_decide as Hid; [done|].
  destruct (fk && _); [done|]. intros [= <- <-]. split; simpl.
  - rewrite fmap_app. apply NoDup_app. split; [done|]. split; [|apply NoDup_singleton].
    intros id Hin ->%list_elem_of_singleton. done.
  - rewrite omap_app, Hf. f_equal. unfold fts_entry. simpl. by destruct (b_content_text b).
Qed.

Lemma delete_blocks_sync w d n d' : fts_sync d -> delete_blocks w d = Some (n, d') -> fts_sync d'.
Proof.
  intros [Hn Hf] [= <- <-]. split; simpl.
  { eapply sublist_NoDup; [exact Hn|]. apply sublist_fmap, sublist_filter. }
  rewrite Hf. clear Hf. revert Hn. generalize (blocks d) as l.
  (* the ids of the deleted rows with a text, over the rows still to look at *)
  assert (forall (l : list BlockRow) (ids : list Z),
    NoDup (b_block_id <$> l) ->
    (forall b, b ∈ l -> b_block_id b ∈ ids <-> w b = true /\ is_Some (b_content_text b)) ->
    filter (fun e => e.1 ∉ ids) (omap fts_entry l)
    = omap fts_entry (filter (fun b => w b = false) l)) as Hgen.
  { induction l as [|b l IH]; intros ids Hn Hids; [done|]. apply NoDup_cons in Hn as [Hb Hn].
    rewrite filter_cons. cbn [omap list_omap]. specialize (IH ids Hn (fun x Hx => Hids x (list_elem_of_further _ _ _ Hx))).
    pose proof (Hids b (list_elem_of_here _ _)) as Hib.
    unfold fts_entry at 1. destruct (b_content_text b) as [t|] eqn:Et; simpl.
    - rewrite filter_cons. simpl. destruct (w b) eqn:Ew; simpl.
      + rewrite decide_False by naive_solver. done.
      + rewrite decide_True by naive_solver. cbn [omap list_omap]. unfold fts_entry at 2.
        rewrite Et. simpl. by rewrite IH.
    - destruct (w b) eqn:Ew; simpl; [done|]. unfold fts_entry at 2. rewrite Et. simpl. done. }
  intros l Hn. apply Hgen; [done|]. intros b Hb. rewrite list_elem_of_fmap. split.
  - intros (b' & Hid & Hin). apply list_elem_of_filter in Hin as [Ht Hin].
    apply list_elem_of_filter in Hin as [Hw Hin].
    by rewrite (NoDup_fmap_inj _ _ _ _ Hn Hb Hin Hid).
  - intros [Hw Ht]. exists b. split; [done|]. by rewrite !list_elem_of_filter.
Qed.

(** ** Crash recovery *)

Definition crashed (r : DocRow) : bool :=
  bool_decide (r_status r ∈ [DocStatusStr kProcessing; DocStatusStr kDeleting]).

(** The document of a block was being processed or deleted. *)
Definition of_crashed (rows : list DocRow) (b : BlockRow) : bool :=
  existsb (fun r => crashed r && bool_decide (b_doc_id b = r_doc_id r)) rows.

(** A change on a connection outside a transaction: done or not. *)
Lemma try_change_ind (I : Db -> Prop) f s :
  saved (conn s) = None -> I (data (conn s)) ->
  (forall n d', f (data (conn s)) = Some (n, d') -> I d') ->
  saved (conn (try_change f s)) = None /\ I (data (conn (try_change f s))).
Proof.
  intros Hs Hd Hf. unfold try_change, on_conn. destruct (change f (conn s)) as [r c] eqn:Hc.
  simpl. apply change_cases in Hc. unfold committed in Hc. rewrite Hs in Hc. simpl in Hc.
  destruct r as [| |n].
  1,2: destruct Hc as [[-> ->]|[-> ->]]; done.
  destruct Hc as (d' & Hfd & -> & ->). eauto.
Qed.

Section Recovery.
Context `{Planner}.

Definition crashed_id (d : Db) (id : string) : Prop :=
  exists q, q ∈ documents d /\ crashed q = true /\ r_doc_id q = id.

Lemma ids_with_status_cases st s o s' :
  saved (conn s) = None -> ids_with_status st s = (o, s') ->
  saved (conn s') = None /\ data (conn s') = data (conn s) /\
  forall ids id, o = Some ids -> id ∈ ids ->
    exists q, q ∈ documents (data (conn s)) /\ r_status q = DocStatusStr st /\ r_doc_id q = id.
Proof.
  intros Hs. unfold ids_with_status, on_conn.
  destruct (select _ (conn s)) as [q c] eqn:Hq. intros [= <- <-]. simpl.
  apply select_cases in Hq as [Hc Hq]. unfold committed in Hc. rewrite Hs in Hc. simpl in Hc.
  destruct Hc as [[-> ->]|[-> ->]]; (split; [done|]; split; [done|]).
  all: intros ids id Ho Hid; destruct q as [[l b]|]; simpl in Ho; simplify_eq.
  all: assert (id ∈ r_doc_id <$> scan (docs_where (fun r => bool_decide (r_status r = DocStatusStr st))
         (data (conn s)))) as Hin
      by (destruct b; [by destruct Hq as [-> _]|destruct Hq as [k ->];
            eapply elem_of_sublist; [exact Hid|apply sublist_take]]).
  all: apply list_elem_of_fmap in Hin as (r & -> & Hr); rewrite scan_perm in Hr;
       apply list_elem_of_filter in Hr as [Hst%bool_decide_eq_true Hr]; eauto.
Qed.

(** Everything but the documents [gone] and their blocks is still there, and there
    is nothing new. *)
Definition keeps_except (gone : string -> Prop) (d0 d : Db) : Prop :=
  (forall r, r ∈ documents d0 -> ~ gone (r_doc_id r) -> r ∈ documents d) /\
  (forall b, b ∈ blocks d0 -> ~ gone (b_doc_id b) -> b ∈ blocks d).

Lemma keeps_except_refl gone d : keeps_except gone d d.
Proof. done. Qed.

Lemma keeps_except_blocks (gone : string -> Prop) d0 id d n d' :
  gone id -> keeps_except gone d0 d -> delete_blocks (of_doc id) d = Some (n, d') ->
  keeps_except gone d0 d'.
Proof.
  intros Hid (H2 & H3) [= <- <-]. split; [done|]. simpl. intros b Hb Hn.
  apply list_elem_of_filter. split; [|by apply H3]. unfold of_doc. apply bool_decide_eq_false.
  by intros <-.
Qed.

Lemma keeps_except_docs (gone : string -> Prop) d0 fk id d n d' :
  gone id -> keeps_except gone d0 d -> delete_docs fk (has_doc_id id) d = Some (n, d') ->
  keeps_except gone d0 d'.
Proof.
  intros Hid (H2 & H3). unfold delete_docs. destruct (fk && _); [done|]. intros [= <- <-].
  split; simpl; [|done]. intros r Hr Hn. apply list_elem_of_filter. split; [|by apply H2].
  unfold has_doc_id. apply bool_decide_eq_false. by intros <-.
Qed.

(** What the recovery keeps, whatever fails: the rows and the blocks of documents
    that were not being processed or deleted. *)
Definition spares (d0 d : Db) : Prop :=
  (forall q, q ∈ documents d -> crashed q = true -> crashed_id d0 (r_doc_id q)) /\
  keeps_except (crashed_id d0) d0 d.

Lemma spares_delete_blocks d0 id d n d' :
  crashed_id d0 id -> spares d0 d -> delete_blocks (of_doc id) d = Some (n, d') -> spares d0 d'.
Proof.
  intros Hid (H1 & Hk) Hd. split; [|by eapply keeps_except_blocks]. by injection Hd as <- <-.
Qed.

Lemma spares_delete_docs d0 fk id d n d' :
  crashed_id d0 id -> spares d0 d -> delete_docs fk (has_doc_id id) d = Some (n, d') -> spares d0 d'.
Proof.
  intros Hid (H1 & Hk) Hd. split; [|by eapply keeps_except_docs].
  revert Hd. unfold delete_docs. destruct (fk && _); [done|]. intros [= <- <-] q [_ Hq]%list_elem_of_filter.
  eauto.
Qed.

Lemma spares_reset now d0 d n d' :
  spares d0 d -> reset_processing now d = Some (n, d') -> spares d0 d'.
Proof.
  intros (H1 & H2 & H3) [= <- <-]. split; [|split; [|done]]; simpl.
  - intros q (q1 & -> & Hq)%list_elem_of_fmap. case_bool_decide as Hp; [by vm_compute|]. eauto.
  - intros r Hr Hn. apply list_elem_of_fmap. exists r. split; [|by apply H2].
    rewrite bool_decide_false; [done|]. intros Hp. apply Hn. exists r. split; [done|]. split; [|done].
    unfold crashed. rewrite Hp. by vm_compute.
Qed.

Lemma spares_drop_blocks d0 ids s :
  Forall (crashed_id d0) ids -> saved (conn s) = None -> spares d0 (data (conn s)) ->
  saved (conn (drop_blocks_of ids s)) = None /\ spares d0 (data (conn (drop_blocks_of ids s))).
Proof.
  unfold drop_blocks_of. intros Hids. revert s. induction Hids as [|id ids Hid _ IH]; intros s Hs Hd; [done|].
  simpl. destruct (try_change_ind (spares d0) (delete_blocks (of_doc id)) s Hs Hd) as [Hs1 Hd1];
    [|by apply IH].
  intros n d'. by apply spares_delete_blocks.
Qed.

Lemma spares_drop_docs d0 ids s :
  Forall (crashed_id d0) ids -> saved (conn s) = None -> spares d0 (data (conn s)) ->
  spares d0 (data (conn (drop_docs ids s))).
Proof.
  unfold drop_docs. intros Hids. revert s. induction Hids as [|id ids Hid _ IH]; intros s Hs Hd; [done|].
  simpl. destruct (try_change_ind (spares d0) (delete_blocks (of_doc id)) s Hs Hd) as [Hs1 Hd1];
    [intros n d'; by apply spares_delete_blocks|].
  set (s1 := try_change (delete_blocks (of_doc id)) s) in *.
  destruct (try_change_ind (spares d0) (delete_docs (foreign_keys s) (has_doc_id id)) s1 Hs1 Hd1)
    as [Hs2 Hd2]; [intros n d'; by apply spares_delete_docs|by apply IH].
Qed.

Lemma RecoverCrashedDocs_spares now s :
  saved (conn s) = None ->
  spares (data (conn s)) (data (conn (RecoverCrashedDocs now s).2)).
Proof.
  intros Hs. unfold RecoverCrashedDocs. set (d0 := data (conn s)).
  assert (spares d0 d0) as H0 by (split; [intros q ? ?; by exists q|done]).
  destruct (ids_with_status kProcessing s) as [o s1] eqn:E1.
  apply ids_with_status_cases in E1 as (Hs1 & Hd1 & Hids); [|done].
  destruct o as [ids|]; [|simpl; by rewrite Hd1].
  assert (Forall (crashed_id d0) ids) as Hc.
  { apply Forall_forall. intros id Hid. destruct (Hids ids id eq_refl Hid) as (q & ? & Hst & ?).
    exists q. split; [done|]. split; [|done]. unfold crashed. rewrite Hst. by vm_compute. }
  destruct (spares_drop_blocks d0 ids s1 Hc Hs1) as [Hs2 Hd2]; [by rewrite Hd1|].
  set (s2 := drop_blocks_of ids s1) in *.
  set (s3 := if bool_decide (ids = []) then s2 else try_change (reset_processing now) s2).
  assert (saved (conn s3) = None /\ spares d0 (data (conn s3))) as [Hs3 Hd3].
  { unfold s3. case_match; [done|]. apply try_change_ind; [done..|]. intros n d'. by apply spares_reset. }
  destruct (ids_with_status kDeleting s3) as [o s4] eqn:E4.
  apply ids_with_status_cases in E4 as (Hs4 & Hd4 & Hids4); [|done].
  destruct o as [ids4|]; simpl; [|by rewrite Hd4].
  apply spares_drop_docs; [|done|by rewrite Hd4].
  apply Forall_forall. intros id Hid. destruct (Hids4 ids4 id eq_refl Hid) as (q & Hq & Hst & <-).
  apply Hd3; [done|]. unfold crashed. rewrite Hst. by vm_compute.
Qed.

(** *** On a store on which nothing fails *)

Lemma ids_with_status_clean st s :
  clean s -> exists ids,
    ids_with_status st s = (Some ids, s) /\
    (forall id, id ∈ ids <->
       exists q, q ∈ documents (data (conn s)) /\ r_status q = DocStatusStr st /\ r_doc_id q = id).
Proof.
  intros Hc. unfold ids_with_status. rewrite clean_select by done. eexists. split; [done|].
  intros id. simpl. rewrite list_elem_of_fmap. split.
  - intros (q & -> & Hq). rewrite scan_perm in Hq. apply list_elem_of_filter in Hq as [Hs Hq].
    apply bool_decide_eq_true in Hs. eauto.
  - intros (q & Hq & Hs & <-). exists q. split; [done|]. rewrite scan_perm.
    apply list_elem_of_filter. split; [by apply bool_decide_eq_true|done].
Qed.

Lemma clean_try_change f s n d :
  clean s -> f (data (conn s)) = Some (n, d) -> try_change f s = set_data s d.
Proof. intros Hc Hf. unfold try_change. by rewrite (clean_change f s n d). Qed.

(** The blocks of [ids] are gone, everything else is as it was. *)
Definition blocks_dropped (ids : list string) (d d' : Db) : Prop :=
  documents d' = documents d /\ parents d' = parents d /\
  blocks d' = filter (fun b => b_doc_id b ∉ ids) (blocks d) /\ (fts_sync d -> fts_sync d').

Lemma delete_blocks_dropped id ids d d' n d'' :
  blocks_dropped ids d d' -> delete_blocks (of_doc id) d' = Some (n, d'') ->
  blocks_dropped (ids ++ [id]) d d''.
Proof.
  intros (H1 & H2 & H3 & H4) Hd. split; [|split; [|split]].
  4: intros Hf; by eapply delete_blocks_sync, Hd; apply H4.
  all: injection Hd as <- <-; simpl; try done.
  rewrite H3, list_filter_filter. apply list_filter_iff. intros b. unfold of_doc.
  rewrite bool_decide_eq_false, elem_of_app, list_elem_of_singleton. tauto.
Qed.

Lemma drop_blocks_clean ids s :
  clean s -> exists d', drop_blocks_of ids s = set_data s d' /\ blocks_dropped ids (data (conn s)) d'.
Proof.
  intros Hc. unfold drop_blocks_of.
  enough (forall done_ d', blocks_dropped done_ (data (conn s)) d' -> exists d'',
    foldl (fun s id => try_change (delete_blocks (of_doc id)) s) (set_data s d') ids = set_data s d''
    /\ blocks_dropped (done_ ++ ids) (data (conn s)) d'') as Hgen.
  { pose proof (Hgen [] (data (conn s))) as G. rewrite set_data_same in G. apply G.
    split; [done|]. split; [done|]. split; [|done]. symmetry. apply filter_id, Forall_forall. intros ? _. apply not_elem_of_nil. }
  induction ids as [|id ids IH]; intros done_ d' Hd; simpl.
  { exists d'. by rewrite app_nil_r. }
  rewrite (clean_try_change (delete_blocks (of_doc id)) (set_data s d') _ _ Hc eq_refl), set_data_twice.
  rewrite cons_middle, app_assoc. apply IH. by eapply delete_blocks_dropped.
Qed.

(** The documents [ids] are gone with their blocks. *)
Definition docs_dropped (ids : list string) (d d' : Db) : Prop :=
  documents d' = filter (fun r => r_doc_id r ∉ ids) (documents d) /\
  blocks d' = filter (fun b => b_doc_id b ∉ ids) (blocks d) /\ (fts_sync d -> fts_sync d').

Lemma fts_sync_documents d l : fts_sync (d <| documents := l |>) <-> fts_sync d.
Proof. done. Qed.

(** Once its blocks are gone, the foreign keys let a document go. *)
Lemma delete_doc_unreferenced fk id d :
  (forall b, b ∈ blocks d -> b_doc_id b <> id) -> exists n,
  delete_docs fk (has_doc_id id) d =
    Some (n, d <| documents := filter (fun r => has_doc_id id r = false) (documents d) |>).
Proof.
  intros Hb. unfold delete_docs.
  destruct (existsb _ (blocks d)) eqn:E; [exfalso|rewrite andb_false_r; eauto].
  apply existsb_exists in E as (b & Hin%list_elem_of_In & Hr%bool_decide_eq_true).
  apply list_elem_of_fmap in Hr as (r & Hbr & [Hr _]%list_elem_of_filter).
  apply bool_decide_eq_true in Hr. apply (Hb b Hin). congruence.
Qed.

Lemma drop_doc_clean fk id ids s d d' :
  clean s -> data (conn s) = d' -> docs_dropped ids d d' -> exists d'',
  try_change (delete_docs fk (has_doc_id id)) (try_change (delete_blocks (of_doc id)) s)
    = set_data s d'' /\ docs_dropped (ids ++ [id]) d d''.
Proof.
  intros Hc <- (H1 & H2 & H3).
  rewrite (clean_try_change (delete_blocks (of_doc id)) s _ _ Hc eq_refl).
  match goal with |- context [set_data s ?x] => set (d1 := x) end.
  assert (delete_blocks (of_doc id) (data (conn s)) =
    Some (len (filter (fun b => of_doc id b = true) (blocks (data (conn s)))), d1)) as Hd1 by done.
  assert (blocks d1 = filter (fun b => b_doc_id b ∉ ids ++ [id]) (blocks d)) as Hb.
  { simpl. rewrite H2, list_filter_filter. apply list_filter_iff. intros b. unfold of_doc.
    rewrite bool_decide_eq_false, elem_of_app, list_elem_of_singleton. tauto. }
  destruct (delete_doc_unreferenced fk id d1) as [n Hn].
  { intros b Hin He. rewrite Hb in Hin. apply list_elem_of_filter in Hin as [Hin _]. apply Hin.
    rewrite He. apply elem_of_app. right. by apply list_elem_of_singleton. }
  rewrite (clean_try_change _ (set_data s d1) _ _ Hc Hn), set_data_twice.
  eexists. split; [done|]. split; [|split; [done|]].
  - simpl. rewrite H1, list_filter_filter. apply list_filter_iff. intros r. unfold has_doc_id.
    rewrite bool_decide_eq_false, elem_of_app, list_elem_of_singleton. tauto.
  - intros Hf. apply fts_sync_documents. eapply delete_blocks_sync; [by apply H3|exact Hd1].
Qed.

Lemma drop_docs_clean ids s :
  clean s -> exists d', drop_docs ids s = set_data s d' /\ docs_dropped ids (data (conn s)) d'.
Proof.
  intros Hc. unfold drop_docs.
  enough (forall done_ d', docs_dropped done_ (data (conn s)) d' -> exists d'',
    foldl (fun s id => try_change (delete_docs (foreign_keys s) (has_doc_id id))
       (try_change (delete_blocks (of_doc id)) s)) (set_data s d') ids = set_data s d''
    /\ docs_dropped (done_ ++ ids) (data (conn s)) d'') as Hgen.
  { pose proof (Hgen [] (data (conn s))) as G. rewrite set_data_same in G. apply G.
    split; [|split; [|done]]; symmetry; apply filter_id, Forall_forall; intros ? _; apply not_elem_of_nil. }
  induction ids as [|id ids IH]; intros done_ d' Hd; simpl.
  { exists d'. by rewrite app_nil_r. }
  destruct (drop_doc_clean (foreign_keys s) id done_ (set_data s d') (data (conn s)) d')
    as (d1 & -> & Hd1); [done..|].
  rewrite set_data_twice, cons_middle, app_assoc. by apply IH.
Qed.

(** What a restart makes of a row. *)
Definition restarted (now : Z) (r : DocRow) : DocRow :=
  if bool_decide (r_status r = DocStatusStr kProcessing)
  then r <| r_status := DocStatusStr kPending |> <| r_updated_at := NowIso8601 now |> else r.

Definition deleting (r : DocRow) : bool := bool_decide (r_status r = DocStatusStr kDeleting).

Lemma deleting_restarted now r : deleting (restarted now r) = deleting r.
Proof.
  unfold deleting, restarted. destruct (bool_decide_reflect (r_status r = DocStatusStr kProcessing)) as [Hp|]; [|reflexivity].
  rewrite Hp. reflexivity.
Qed.

Lemma restarted_deleting now r :
  r_status (restarted now r) = DocStatusStr kDeleting <-> r_status r = DocStatusStr kDeleting.
Proof.
  pose proof (deleting_restarted now r) as Hd. unfold deleting in Hd.
  rewrite <- (bool_decide_eq_true (r_status r = _)), <- Hd. by rewrite bool_decide_eq_true.
Qed.

Lemma restarted_id now r : r_doc_id (restarted now r) = r_doc_id r.
Proof. unfold restarted. by case_bool_decide. Qed.

Lemma documents_restarted now (ids : list string) d :
  (forall id, id ∈ ids <-> exists q, q ∈ documents d /\
     r_status q = DocStatusStr kProcessing /\ r_doc_id q = id) ->
  ids = [] -> restarted now <$> documents d = documents d.
Proof.
  intros Hids ->. rewrite <- (list_fmap_id (documents d)) at 2. apply list_fmap_ext.
  intros k r Hr%list_elem_of_lookup_2. unfold restarted. rewrite bool_decide_false; [done|].
  intros Hs. assert (r_doc_id r ∈ []) as []%not_elem_of_nil. apply Hids. eauto.
Qed.

Lemma crashed_cases r :
  crashed r = true <-> r_status r = DocStatusStr kProcessing \/ r_status r = DocStatusStr kDeleting.
Proof.
  unfold crashed. rewrite bool_decide_eq_true, elem_of_cons, list_elem_of_singleton. done.
Qed.

Lemma of_crashed_ids (rows : list DocRow) (ids1 ids2 : list string) (b : BlockRow) :
  (forall id, id ∈ ids1 <-> exists q, q ∈ rows /\ r_status q = DocStatusStr kProcessing /\ r_doc_id q = id) ->
  (forall id, id ∈ ids2 <-> exists q, q ∈ rows /\ r_status q = DocStatusStr kDeleting /\ r_doc_id q = id) ->
  of_crashed rows b = false <-> b_doc_id b ∉ ids1 /\ b_doc_id b ∉ ids2.
Proof.
  intros H1 H2. rewrite H1, H2, <- not_true_iff_false. unfold of_crashed. rewrite existsb_exists.
  assert ((exists x, In x rows /\ crashed x && bool_decide (b_doc_id b = r_doc_id x) = true) <->
    exists q, q ∈ rows /\ (r_status q = DocStatusStr kProcessing \/ r_status q = DocStatusStr kDeleting)
      /\ r_doc_id q = b_doc_id b) as ->; [|naive_solver].
  split; intros (q & Hq & Hc); exists q; rewrite list_elem_of_In in *.
  - apply andb_true_iff in Hc as [Hc%crashed_cases He%bool_decide_eq_true]. done.
  - rewrite andb_true_iff, bool_decide_eq_true, crashed_cases. naive_solver.
Qed.

Lemma unique_ids_drop (p : DocRow -> bool) (l : list DocRow) (ids : list string) :
  NoDup (r_doc_id <$> l) -> (forall id, id ∈ ids <-> exists q, q ∈ l /\ p q = true /\ r_doc_id q = id) ->
  filter (fun r => r_doc_id r ∉ ids) l = filter (fun r => p r = false) l.
Proof.
  intros Hn Hids. apply filter_ext_in. intros r Hr. rewrite Hids, <- not_true_iff_false.
  split; [intros Hx Hp; apply Hx; eauto|]. intros Hp (q & Hq & Hpq & Hid). apply Hp.
  by rewrite (NoDup_fmap_inj _ _ _ _ Hn Hr Hq (eq_sym Hid)).
Qed.

Lemma RecoverCrashedDocs_clean now s :
  NoDup (r_doc_id <$> documents (data (conn s))) -> clean s ->
  let d := data (conn s) in
  let d' := data (conn (RecoverCrashedDocs now s).2) in
  (RecoverCrashedDocs now s).1 = 0 /\
  documents d' = restarted now <$> filter (fun r => deleting r = false) (documents d) /\
  blocks d' = filter (fun b => of_crashed (documents d) b = false) (blocks d) /\
  (fts_sync d -> fts_sync d').
Proof.
  intros Hn Hc. cbv zeta. unfold RecoverCrashedDocs.
  destruct (ids_with_status_clean kProcessing s Hc) as (ids1 & -> & Hids1).
  destruct (drop_blocks_clean ids1 s Hc) as (d1 & -> & Hdoc1 & _ & Hbl1 & Hf1).
  set (d2 := d1 <| documents := restarted now <$> documents d1 |>).
  assert ((if bool_decide (ids1 = []) then set_data s d1
           else try_change (reset_processing now) (set_data s d1)) = set_data s d2) as ->.
  { case_bool_decide as He.
    - f_equal. unfold d2. rewrite Hdoc1, (documents_restarted now ids1), <- Hdoc1 by done.
      by destruct d1.
    - by rewrite (clean_try_change (reset_processing now) (set_data s d1) _ _ Hc eq_refl). }
  destruct (ids_with_status_clean kDeleting (set_data s d2) Hc) as (ids2 & -> & Hids2).
  assert (forall id, id ∈ ids2 <-> exists q, q ∈ documents (data (conn s)) /\
    r_status q = DocStatusStr kDeleting /\ r_doc_id q = id) as Hids2'.
  { intros id. rewrite Hids2. simpl. rewrite Hdoc1. split.
    - intros (q & (r & -> & Hr)%list_elem_of_fmap & Hq & <-). exists r. split; [done|].
      rewrite restarted_id. by apply restarted_deleting in Hq.
    - intros (r & Hr & Hq & <-). exists (restarted now r). rewrite restarted_id.
      split; [by apply list_elem_of_fmap_2|]. by rewrite restarted_deleting. }
  destruct (drop_docs_clean ids2 (set_data s d2) Hc) as (d3 & -> & Hdoc3 & Hbl3 & Hf3).
  cbn [fst snd]. split; [done|]. change (data (conn (set_data (set_data s d2) d3))) with d3.
  split; [|split].
  - rewrite Hdoc3. simpl. rewrite Hdoc1.
    rewrite (filter_fmap_eq (fun r => r_doc_id r ∉ ids2)) by (intros r; by rewrite restarted_id).
    f_equal. apply unique_ids_drop; [done|]. intros id. rewrite Hids2'. unfold deleting.
    by setoid_rewrite bool_decide_eq_true.
  - rewrite Hbl3. simpl. rewrite Hbl1, list_filter_filter. apply list_filter_iff. intros b.
    rewrite of_crashed_ids by done. tauto.
  - intros Hf. by apply Hf3, fts_sync_documents, Hf1.
Qed.

(** C14: The recovery of a restarted store, for every outcome of its SQLite calls:
    the rows and the blocks of documents that were neither being processed nor
    deleted are kept as they are. When nothing fails it returns 0 and is exact: rows
    that were being deleted are gone, rows that were being processed are pending
    again, every other row is the same; the blocks that are left are those of
    no interrupted document, and the full-text index still holds exactly their texts. *)
Theorem RecoverCrashedDocs_exact now s :
  saved (conn s) = None -> NoDup (r_doc_id <$> documents (data (conn s))) ->
  let d := data (conn s) in
  let '(rc, s') := RecoverCrashedDocs now s in
  let d' := data (conn s') in
  (forall r, r ∈ documents d -> crashed r = false -> r ∈ documents d') /\
  (forall b, b ∈ blocks d -> of_crashed (documents d) b = false -> b ∈ blocks d') /\
  (clean s ->
     rc = 0 /\ documents d' = restarted now <$> filter (fun r => deleting r = false) (documents d) /\
     blocks d' = filter (fun b => of_crashed (documents d) b = false) (blocks d) /\
     (fts_sync d -> fts_sync d')).
Proof.
  intros Hs Hn. cbv zeta. pose proof (RecoverCrashedDocs_spares now s Hs) as (_ & H2 & H3).
  pose proof (RecoverCrashedDocs_clean now s Hn) as Hc.
  destruct (RecoverCrashedDocs now s) as [rc s']. simpl in *. split; [|split; [|done]].
  - intros r Hr Hf. apply H2; [done|]. intros (q & Hq & Hqc & Hid).
    by rewrite (NoDup_fmap_inj _ _ _ _ Hn Hr Hq (eq_sym Hid)), Hqc in Hf.
  - intros b Hb Hf. apply H3; [done|]. intros (q & Hq & Hqc & Hid).
    unfold of_crashed in Hf. apply not_true_iff_false in Hf. apply Hf, existsb_exists.
    exists q. split; [by apply list_elem_of_In|]. rewrite Hqc, <- Hid. by apply bool_decide_eq_true.
Qed.
End Recovery.

(** ** Deleting a source prefix *)

(** SQLite folds ASCII letters in [LIKE]. *)
Definition folded (t : string) : chars := fold_case <$> list_ascii_of_string t.

Definition under_prefix (prefix : string) (r : DocRow) : bool :=
  bool_decide (folded prefix `prefix_of` folded (r_source_path r)).

Definition block_under (prefix : string) (d : Db) (b : BlockRow) : bool :=
  existsb (fun r => under_prefix prefix r && of_doc (r_doc_id r) b) (documents d).

Lemma path_like_under prefix r :
  path_like (like_pattern (list_ascii_of_string prefix)) r = under_prefix prefix r.
Proof.
  apply eq_true_iff_eq. unfold path_like, under_prefix. by rewrite sql_like_pattern, bool_decide_eq_true.
Qed.

Lemma block_of_path_under prefix d b :
  block_of_path (like_pattern (list_ascii_of_string prefix)) d b = block_under prefix d b.
Proof.
  unfold block_of_path, block_under. induction (documents d) as [|r l IH]; [done|].
  simpl. by rewrite path_like_under, IH.
Qed.

(** Once the blocks of the documents are gone, the foreign keys allow the deletion. *)
Lemma delete_docs_after_blocks fk prefix d n d1 :
  let pattern := like_pattern (list_ascii_of_string prefix) in
  delete_blocks (block_of_path pattern d) d = Some (n, d1) ->
  delete_docs fk (path_like pattern) d1 =
  Some (len (filter (fun r => path_like pattern r = true) (documents d)),
        d1 <| documents := filter (fun r => path_like pattern r = false) (documents d) |>).
Proof.
  intros pattern [= <- <-]. unfold delete_docs. cbn [documents blocks].
  destruct (existsb _ _) eqn:E; [exfalso|by rewrite andb_false_r].
  apply existsb_exists in E as (b & Hb%list_elem_of_In & Hr%bool_decide_eq_true).
  apply list_elem_of_filter in Hb as [Hn Hb]. apply not_true_iff_false in Hn. apply Hn.
  apply list_elem_of_fmap in Hr as (r & Hid & [Hp Hr]%list_elem_of_filter).
  apply existsb_exists. exists r. split; [by apply list_elem_of_In|].
  rewrite Hp. unfold of_doc. by apply bool_decide_eq_true.
Qed.

(** Deleting a source prefix on a store on which nothing fails returns 0,
    removes exactly the documents whose source path begins with the prefix up to the case of
    ASCII letters, with all their blocks and full-text entries, and reports
    the number of blocks that went; wildcards of LIKE in the prefix stand for
    themselves, the foreign keys never stop it, and an empty prefix removes nothing. *)
Theorem Delete_by_prefix_exact prefix s :
  clean s ->
  let d := data (conn s) in
  let '(rc, n, s') := doc_delete_by_source_prefix prefix s in
  let d' := data (conn s') in
  rc = 0 /\ saved (conn s') = None /\
  if bool_decide (prefix = ""%string) then n = 0 /\ d' = d
  else
    n = len (filter (fun b => block_under prefix d b = true) (blocks d)) /\
    documents d' = filter (fun r => under_prefix prefix r = false) (documents d) /\
    blocks d' = filter (fun b => block_under prefix d b = false) (blocks d) /\
    (fts_sync d -> fts_sync d').
Proof.
  intros Hc. cbv zeta. unfold doc_delete_by_source_prefix. rewrite clean_fault by done.
  case_bool_decide as Hp; [by destruct Hc|].
  set (pattern := like_pattern (list_ascii_of_string prefix)). set (d := data (conn s)).
  destruct (delete_blocks (block_of_path pattern d) d) as [[k d1]|] eqn:Hd1; [|done].
  pose proof (delete_docs_after_blocks (foreign_keys s) prefix d k d1 Hd1) as Hd2.
  fold pattern in Hd2.
  destruct s as [[d0 sv os] f c1 c2 c3 c4 fk g]. destruct Hc as (Hs & Ho & _).
  cbn in Hs, Ho, d. subst sv os d.
  unfold on_conn, BEGIN, select, change, COMMIT, next_outcome, in_transaction. cbn -[delete_blocks delete_docs].
  cbn -[delete_blocks delete_docs] in Hd2. rewrite Hd1. cbn -[delete_docs]. rewrite Hd2. cbn.
  split; [done|]. split; [done|]. split; [|split; [|split]].
  - f_equal. apply filter_ext_in. intros b _. by rewrite <- block_of_path_under.
  - apply filter_ext_in. intros r _. by rewrite <- path_like_under.
  - injection Hd1 as _ <-. cbn. apply filter_ext_in. intros b _. by rewrite <- block_of_path_under.
  - intros Hf. apply fts_sync_documents. by eapply delete_blocks_sync.
Qed.

(** ** Concrete runs *)

Definition one_block : CortrixBlock :=
  MkBlock (2 ^ 63 + 5) "B" 0 1 3 7 "h" [] "some text" "c1" "" 12 (-1) "" None None.

(** A document "B" under "/a.txt" with a block, "C" under "/A.txt" and "D" under "/x.txt". *)
Definition three_docs : CortrixStoreSqlite :=
  let s := StoreRuns.store_with []
    (StoreRuns.after 3000 (CallCreate (StoreRuns.upload "D" "/x.txt"))
      (StoreRuns.after 2000 (CallCreate (StoreRuns.upload "C" "/A.txt"))
        (StoreRuns.after 1000 (CallCreate (StoreRuns.upload "B" "/a.txt")) StoreRuns.empty_db))) in
  (block_insert (fun _ => 0) one_block s).2.
Definition store3 : CortrixStoreSqlite := Eval vm_compute in three_docs.

Lemma Document_roundtrip_witness :
  let '(rc, doc', s') := doc_create StoreRuns.draw0 7000
                           (StoreRuns.upload "E" "/e.txt") store3 in
  rc = 0 /\ (doc_get "E" s').1 = (0, Some doc').
Proof.
  pose proof (Document_roundtrip StoreRuns.draw0 7000
    (StoreRuns.upload "E" "/e.txt") store3) as P.
  cbv zeta in P. rewrite bool_decide_false in P.
  2: { apply (bool_decide_eq_false_1 _). vm_compute. reflexivity. }
  destruct (doc_create _ _ _ _) as [[rc doc'] s']. destruct P as (P1 & P2 & _); [|by split].
  split; [reflexivity|]. split; [reflexivity|]. vm_compute. discriminate.
Defined.

Lemma Block_row_roundtrip_witness :
  let b := one_block <| block_id := 2 ^ 64 - 1 |> in
  let '(rc, b', s') := block_insert (fun _ => 0) b store3 in
  rc = 0 /\ (block_get (2 ^ 64 - 1) s').1 = (0, Some b).
Proof.
  cbv zeta. pose proof (Block_row_roundtrip (fun _ => 0)
    (one_block <| block_id := 2 ^ 64 - 1 |>) store3) as P. cbv zeta in P.
  destruct (_ || _) eqn:E in P; [vm_compute in E; discriminate|].
  destruct (block_insert _ _ _) as [[rc b'] s']. apply P.
  - split; [reflexivity|]. split; [reflexivity|]. vm_compute. discriminate.
  - unfold block_ok, one_block. simpl. repeat split; lia.
Defined.

Lemma Delete_by_prefix_exact_witness :
  let '(rc, n, s') := doc_delete_by_source_prefix "/a" store3 in
  rc = 0 /\ n = 1 /\ r_doc_id <$> documents (data (conn s')) = ["D"%string].
Proof.
  pose proof (Delete_by_prefix_exact "/a" store3) as P. cbv zeta in P.
  destruct (doc_delete_by_source_prefix "/a" store3) as [[rc n] s'].
  destruct P as (-> & _ & P). { split; [reflexivity|]. split; [reflexivity|]. vm_compute. discriminate. }
  rewrite bool_decide_false in P by discriminate. destruct P as (-> & -> & _).
  split; [reflexivity|]. vm_compute. split; reflexivity.
Defined.

(** "C" was under another path, one that only differs in case: it went too. *)
Lemma Prefix_deletes_other_case :
  r_source_path <$> documents (data (conn store3)) = ["/a.txt"; "/A.txt"; "/x.txt"]%string /\
  r_source_path <$> documents (data (conn (doc_delete_by_source_prefix "/a" store3).2)) = ["/x.txt"%string].
Proof. vm_compute. done. Qed.

(** A deletion whose statements fail reports that it was done. *)
Lemma Prefix_failure_unreported :
  let s := store3 <| conn := conn store3 <| outcomes := [SqlOk; SqlOk; SqlStepErr 0; SqlStepErr 0] |> |> in
  let '(rc, n, s') := doc_delete_by_source_prefix "/a" s in
  rc = 0 /\ n = 1 /\ documents (data (conn s')) = documents (data (conn s)) /\
  blocks (data (conn s')) = blocks (data (conn s)).
Proof. vm_compute. done. Qed.

(** "B" was being processed when the process ended. *)
Lemma RecoverCrashedDocs_exact_witness :
  let s := store3 <| conn := conn store3 <| data := data (conn store3)
    <| documents := (fun r => if has_doc_id "B" r then r <| r_status := "processing" |> else r)
                      <$> documents (data (conn store3)) |> |> |> in
  let '(rc, s') := RecoverCrashedDocs (H := insertion_planner) 9000 s in
  rc = 0 /\ r_status <$> documents (data (conn s')) = ["pending"; "pending"; "pending"]%string /\
  blocks (data (conn s')) = [] /\ len (blocks (data (conn s))) = 1.
Proof.
  cbv zeta. match goal with |- context [RecoverCrashedDocs _ ?st] =>
    pose proof (RecoverCrashedDocs_exact (H := insertion_planner) 9000 st) as P end.
  cbv zeta in P. destruct (RecoverCrashedDocs _ _) as [rc s'].
  destruct P as (_ & _ & P); [reflexivity|apply (bool_decide_eq_true_1 _); vm_compute; reflexivity|].
  destruct P as (-> & -> & -> & _). { split; [reflexivity|]. split; [reflexivity|]. vm_compute. discriminate. }
  split; [reflexivity|]. split; [vm_compute; reflexivity|]. vm_compute. split; reflexivity.
Defined.

Lemma Visible_version_unique_witness :
  exists r, r ∈ StoreRuns.three_rows /\ HiddenDocPredicate StoreRuns.three_versions r = false.
Proof.
  destruct (Visible_version_unique StoreRuns.three_versions
    (List.nth 2 StoreRuns.three_rows (row_of 0 (StoreRuns.upload "" "")))) as (r & Hr & _ & _ & Hv & _).
  - apply (reachable_ok (H := insertion_planner) StoreRuns.draw0), StoreRuns.three_versions_reachable.
  - rewrite StoreRuns.three_rows_eq. apply (list_elem_of_lookup_2 _ 2). reflexivity.
  - reflexivity.
  - reflexivity.
  - exists r. split; [|exact Hv]. rewrite <- StoreRuns.three_rows_eq. exact Hr.
Defined.
