(* ===== verification/DocumentGc.v ===== *)
(** * Hard deletion and restoration of documents (src/catalog/gc/document_gc_sweeper.cpp)

    [DocumentGcSweeper] walks over the namespaces: a sweep deletes for good the
    documents that were soft-deleted long enough ago, with their vectors and
    files; a restore brings a soft-deleted document back unless it is expired,
    incomplete or superseded.  The vector index and the blob store are reached
    through their interfaces ([IIndex], [CortrixBlobStore]), of which the sweeper
    uses one operation each; the document store is CortrixStore.v.  A façade
    opens a connection of its own for each namespace it visits. *)
From Stdlib Require Import Ascii String.
From S2P Require Import Prelude Status Iso8601 Ulid Sqlite Documents CortrixStore.

(** [IIndex] and [CortrixBlobStore], as far as the sweeper calls them; it looks at
    no result. *)
Class IIndex (I : Type) := MarkDelete : Z -> I -> I.
Class CortrixBlobStore (B : Type) := blob_del : string -> string -> B -> B.

Module DocumentGcSweeper.
Import Sqlite Documents CortrixStoreSqlite.

Record GcConfig := MkGcConfig {
  soft_delete_retention_days : Z;
  max_purge_per_run : Z;
  dry_run : bool
}.

Record SweepReport := MkSweepReport {
  docs_hard_deleted : Z;
  blocks_deleted : Z;
  blobs_deleted : Z;
  hit_run_cap : bool
}.

#[export] Instance SweepReport_eta : Eta SweepReport := fun r =>
  MkSweepReport (docs_hard_deleted r) (blocks_deleted r) (blobs_deleted r) (hit_run_cap r).

Definition empty_report : SweepReport := MkSweepReport 0 0 0 false.

Record RestoreFailure := MkRestoreFailure {
  f_id : string;
  f_code : string;
  f_message : string;
  f_live_doc_id : string;
  f_namespace_name : string
}.

Inductive RestoreDecision :=
  | kNotHere
  | kRestored
  | kRefused (failure : RestoreFailure).

Record RestoreOutcome := MkRestoreOutcome {
  succeeded : list string;
  failed : list RestoreFailure
}.

Definition kInt64Max : Z := 2 ^ 63 - 1.
Definition DaysToMs (days : Z) : Z := days * 24 * 3600 * 1000.

Section Sweeper.
Context `{Planner} {I B : Type} `{IIndex I} `{CortrixBlobStore B}.

(** The stores of one namespace's active unit. *)
Record Unit := MkUnit {
  u_store : CortrixStoreSqlite;
  u_index : I;
  u_blob : B
}.

#[export] Instance Unit_eta : Eta Unit := fun u => MkUnit (u_store u) (u_index u) (u_blob u).

(** [NamespaceFacade::Acquire] opens store.db anew: no transaction, no cached
    probe, no armed faults. *)
Definition reopened (s : CortrixStoreSqlite) : CortrixStoreSqlite :=
  MkStore (MkConn (committed (conn s)) None (outcomes (conn s))) 0 false false false None
    (foreign_keys s) (ulids s).

(** A façade of [ns]: [None] when the pool does not have it or a store does not
    open. *)
Definition Acquire (up : string -> bool) (ns : string) (units : gmap string Unit) : option Unit :=
  if up ns then (fun u => u <| u_store := reopened (u_store u) |>) <$> units !! ns else None.

(** ** The sweep *)

(** One document of the list. *)
Definition hard_delete (ns id : string) (u : Unit) : list CortrixBlock * Unit :=
  let '(_, blocks, s) := block_get_by_doc id (u_store u) in
  let index := foldl (fun i b => MarkDelete (block_id b) i) (u_index u) blocks in
  let blob := blob_del ns id (u_blob u) in
  let '(_, s) := block_delete_by_doc id s in
  let '(_, s) := doc_delete id s in
  (blocks, MkUnit s index blob).

Fixpoint sweep_docs (config : GcConfig) (ns : string) (expired : list CortrixDoc)
    (report : SweepReport) (u : Unit) : SweepReport * Unit :=
  match expired with
  | [] => (report, u)
  | doc :: expired =>
      if max_purge_per_run config <=? docs_hard_deleted report
      then (report <| hit_run_cap := true |>, u)
      else if dry_run config
      then sweep_docs config ns expired
             (report <| docs_hard_deleted := docs_hard_deleted report + 1 |>) u
      else
        let '(blocks, u) := hard_delete ns (doc_id doc) u in
        sweep_docs config ns expired
          (MkSweepReport (docs_hard_deleted report + 1)
             (blocks_deleted report + len blocks) (blobs_deleted report + 1)
             (hit_run_cap report)) u
  end.

Fixpoint sweep_namespaces (config : GcConfig) (up : string -> bool) (cutoff : Z)
    (ns_list : list string) (report : SweepReport) (units : gmap string Unit)
    : SweepReport * gmap string Unit :=
  match ns_list with
  | [] => (report, units)
  | ns :: ns_list =>
      if max_purge_per_run config <=? docs_hard_deleted report
      then (report <| hit_run_cap := true |>, units)
      else
        match Acquire up ns units with
        | None => sweep_namespaces config up cutoff ns_list report units
        | Some u =>
            let '(rc, expired, s) := doc_list_deleted_before cutoff (u_store u) in
            let u := u <| u_store := s |> in
            let '(report, u) :=
              if negb (rc =? 0) then (report, u) else sweep_docs config ns expired report u in
            sweep_namespaces config up cutoff ns_list report (<[ns := u]> units)
        end
  end.

(** [ns_list]: what the router answers. *)
Definition RunLocked (config : GcConfig) (now : Z) (bypass_windows : bool) (up : string -> bool)
    (ns_list : Status + list string) (units : gmap string Unit)
    : (Status + SweepReport) * gmap string Unit :=
  let cutoff := if bypass_windows then kInt64Max
                else now - DaysToMs (soft_delete_retention_days config) in
  match ns_list with
  | inl st => (inl st, units)
  | inr ns_list =>
      let '(report, units) := sweep_namespaces config up cutoff ns_list empty_report units in
      (inr report, units)
  end.

Definition RunOnce config now := RunLocked config now false.
Definition Purge config now := RunLocked config now true.

(** ** Restoration *)

Definition Refused (id code message live_doc_id ns_id : string) : RestoreDecision :=
  kRefused (MkRestoreFailure id code message live_doc_id ns_id).

Definition CheckFailed (id : string) : RestoreDecision :=
  Refused id "CX_ERR_GC_RESTORE_CHECK_FAILED"
    "could not check this document's versions; retry" "" "".

(** [CortrixDoc{}], for a read that found nothing. *)
Definition no_doc : CortrixDoc :=
  MkDoc "" "" "" "" "" 0 "" kPending "" 3 0 "" "" "" "" "" "" "" "" "" "".

(** [got == -2 || (got == 0 && row.status != DocStatus::kDeleted)]. *)
Definition not_here (got : Z) (row : CortrixDoc) : bool :=
  (got =? -2) || (got =? 0) && negb (bool_decide (status row = kDeleted)).

(** Step 2: an upload or a watched file. *)
Definition restore_version (now : Z) (id ns_id : string) s : RestoreDecision * CortrixStoreSqlite :=
  let '(rrc, s) := doc_restore_unless_superseded now id s in
  if rrc =? 0 then (kRestored, s) else
  if negb (rrc =? -2) then (CheckFailed id, s) else
  let '(again, current, s) := doc_get id s in
  let current := default no_doc current in
  if not_here again current then (kNotHere, s) else
  if negb (again =? 0) then (CheckFailed id, s) else
  let '(frc, live_doc, s) := doc_find_by_source (source_type current) (source_path current) s in
  let live_id := doc_id (default no_doc live_doc) in
  if frc =? 0
  then (Refused id "CX_ERR_GC_RESTORE_SUPERSEDED"
          ("another version is live: delete " +:+ live_id +:+ " in namespace " +:+ ns_id
             +:+ ", then restore " +:+ id) live_id ns_id, s)
  else (CheckFailed id, s).

(** Step 3. *)
Definition restore_any (now : Z) (id : string) s : RestoreDecision * CortrixStoreSqlite :=
  let '(rrc, s) := doc_restore now id s in
  (if rrc =? 0 then kRestored else if rrc =? -2 then kNotHere else CheckFailed id, s).

(** Steps 2 and 3, once the row is known to be restorable. *)
Definition restore_row (now : Z) (row : CortrixDoc) (id ns_id : string) s
    : RestoreDecision * CortrixStoreSqlite :=
  if bool_decide (source_type row ∈ ["http_upload"; "watch_dir"]%string)
  then restore_version now id ns_id s else restore_any now id s.

(** Step 1: the version never finished processing. *)
Definition check_complete (now : Z) (row : CortrixDoc) (id ns_id : string) s
    : RestoreDecision * CortrixStoreSqlite :=
  if bool_decide (source_type row = "memory_session"%string) then restore_row now row id ns_id s else
  let '(mrc, deleted_from, s) := doc_get_deleted_from_status id s in
  if mrc =? -2 then (kNotHere, s) else
  if negb (mrc =? 0) then (CheckFailed id, s) else
  match deleted_from with
  | Some t =>
      if bool_decide (t = "ready"%string) then restore_row now row id ns_id s
      else (Refused id "CX_ERR_GC_RESTORE_INCOMPLETE"
              "this version never finished processing; add the document again" "" ns_id, s)
  | None => restore_row now row id ns_id s
  end.

Definition DecideRestore (now : Z) (id ns_id : string) (expired_cutoff_ms : Z) s
    : RestoreDecision * CortrixStoreSqlite :=
  let '(got, row, s) := doc_get id s in
  let row := default no_doc row in
  if not_here got row then (kNotHere, s) else
  if negb (got =? 0) then (CheckFailed id, s) else
  let '(drc, deleted_at, s) := doc_get_deleted_at id s in
  if drc =? -2 then (kNotHere, s) else
  if negb (drc =? 0) then (CheckFailed id, s) else
  if match deleted_at with Some t => t <=? expired_cutoff_ms | None => false end
  then (Refused id "CX_ERR_GC_RESTORE_EXPIRED"
          ("deleted longer ago than the retention window " +:+
           "(gc.soft_delete_retention_days); add the document again") "" ns_id, s)
  else check_complete now row id ns_id s.

(** The search of one id over the namespaces. *)
Fixpoint restore_in (now : Z) (up : string -> bool) (cutoff : Z) (id : string)
    (ns_list : list string) (units : gmap string Unit) : RestoreDecision * gmap string Unit :=
  match ns_list with
  | [] => (kNotHere, units)
  | ns :: ns_list =>
      match Acquire up ns units with
      | None => restore_in now up cutoff id ns_list units
      | Some u =>
          let '(d, s) := DecideRestore now id ns cutoff (u_store u) in
          let units := <[ns := u <| u_store := s |>]> units in
          match d with
          | kNotHere => restore_in now up cutoff id ns_list units
          | _ => (d, units)
          end
      end
  end.

Fixpoint restore_ids (now : Z) (up : string -> bool) (cutoff : Z) (ns_list doc_ids : list string)
    (units : gmap string Unit) : RestoreOutcome * gmap string Unit :=
  match doc_ids with
  | [] => (MkRestoreOutcome [] [], units)
  | id :: doc_ids =>
      let '(d, units) := restore_in now up cutoff id ns_list units in
      let '(out, units) := restore_ids now up cutoff ns_list doc_ids units in
      (match d with
       | kRestored => MkRestoreOutcome (id :: succeeded out) (failed out)
       | kRefused failure => MkRestoreOutcome (succeeded out) (failure :: failed out)
       | kNotHere => MkRestoreOutcome (succeeded out)
           (MkRestoreFailure id "CX_ERR_GC_DOC_NOT_FOUND" "no deleted document with this id" "" ""
              :: failed out)
       end, units)
  end.

Definition Restore (config : GcConfig) (now : Z) (up : string -> bool)
    (ns_list : Status + list string) (doc_ids : list string) (units : gmap string Unit)
    : (Status + RestoreOutcome) * gmap string Unit :=
  match ns_list with
  | inl st => (inl st, units)
  | inr ns_list =>
      let expired_cutoff := if soft_delete_retention_days config =? 0 then kInt64Max
                            else now - DaysToMs (soft_delete_retention_days config) in
      let '(out, units) := restore_ids now up expired_cutoff ns_list doc_ids units in
      (inr out, units)
  end.

Fixpoint count_soft_deleted (up : string -> bool) (ns_list : list string)
    (units : gmap string Unit) : Z * gmap string Unit :=
  match ns_list with
  | [] => (0, units)
  | ns :: ns_list =>
      match Acquire up ns units with
      | None => count_soft_deleted up ns_list units
      | Some u =>
          let '(rc, deleted, s) := doc_list_deleted_before kInt64Max (u_store u) in
          let '(total, units) := count_soft_deleted up ns_list (<[ns := u <| u_store := s |>]> units) in
          ((if rc =? 0 then len deleted else 0) + total, units)
      end
  end.

Definition CountSoftDeleted (up : string -> bool) (ns_list : Status + list string)
    (units : gmap string Unit) : (Status + Z) * gmap string Unit :=
  match ns_list with
  | inl st => (inl st, units)
  | inr ns_list =>
      let '(total, units) := count_soft_deleted up ns_list units in (inr total, units)
  end.

End Sweeper.
End DocumentGcSweeper.
