(* ===== verification/DocumentGcTheory.v ===== *)
(** * Restoration and hard deletion are safe and exact

    Operations of the store outside a transaction, the decision of a restore, and
    the sweep over the namespaces. *)
From Stdlib Require Import Ascii String.
From S2P Require Import Prelude Status Iso8601 Ulid TaskManager Sqlite Documents DocumentsTheory CortrixStore StoreVersions CortrixStoreTheory DocumentGc.
Import Sqlite Documents CortrixStoreSqlite DocumentGcSweeper.

(** ** Operations outside a transaction *)

Definition idle (s : CortrixStoreSqlite) : Prop := saved (conn s) = None.

(** The cached answer of the column probe. *)
Definition probe_ok (s : CortrixStoreSqlite) : Prop :=
  forall b, has_deleted_from_status_ s = Some b ->
    b = bool_decide ("deleted_from_status"%string ∈ documents_columns (data (conn s))).

(** A step that may fail but leaves the database as it is. *)
Definition reads_only (s s' : CortrixStoreSqlite) : Prop :=
  idle s -> idle s' /\ data (conn s') = data (conn s) /\ foreign_keys s' = foreign_keys s /\
            (probe_ok s -> probe_ok s').

Lemma reads_only_trans s1 s2 s3 : reads_only s1 s2 -> reads_only s2 s3 -> reads_only s1 s3.
Proof.
  intros H12 H23 H1. destruct (H12 H1) as (H2 & E2 & F2 & P2), (H23 H2) as (H3 & E3 & F3 & P3).
  rewrite E3, F3. split; [done|]. split; [done|]. split; [done|]. auto.
Qed.

Lemma fault_reads s b s' : TryConsumeOpFault s = (b, s') -> reads_only s s'.
Proof. unfold TryConsumeOpFault. case_match; by intros [= <- <-]. Qed.

Lemma fault_keeps s b s' :
  TryConsumeOpFault s = (b, s') ->
  conn s' = conn s /\ has_deleted_from_status_ s' = has_deleted_from_status_ s.
Proof. unfold TryConsumeOpFault. case_match; by intros [= <- <-]. Qed.

Lemma select_reads {A} (f : Db -> list A) s q s' :
  on_conn (select f) s = (q, s') -> reads_only s s'.
Proof.
  unfold on_conn, reads_only, idle, probe_ok. destruct (select f (conn s)) as [r c] eqn:Hq.
  intros [= <- <-] Hs. simpl. apply select_cases in Hq as [Hc _]. unfold committed in Hc.
  rewrite Hs in Hc. by destruct Hc as [[-> ->]|[-> ->]].
Qed.

Lemma lookup_reads {A} (f : Db -> list A) s q s' :
  lookup_row f s = (q, s') ->
  reads_only s s' /\
  (forall r b, q = Some (Some r, b) -> head (f (data (conn s))) = Some r) /\
  (q = Some (None, true) -> f (data (conn s)) = []).
Proof.
  unfold lookup_row. destruct (on_conn (select f) s) as [q0 s0] eqn:Hq. intros [= <- <-].
  split; [by eapply select_reads|]. unfold on_conn in Hq.
  destruct (select f (conn s)) as [r c] eqn:Hc. simplify_eq/=. apply select_cases in Hc as [_ Hr].
  destruct q0 as [[[|x l] b]|]; [| |done].
  - split; [by intros ? ? [=]|]. intros [= ->]. by destruct Hr as [-> _].
  - split; [|done]. intros r b' [= <- <-]. destruct b; [by destruct Hr as [<- _]|].
    destruct Hr as [[|k] Hk]; [done|]. by destruct (f (data (conn s))); simplify_eq/=.
Qed.

Lemma change_idle f s r s' :
  on_conn (change f) s = (r, s') -> idle s ->
  idle s' /\ foreign_keys s' = foreign_keys s /\
  match r with
  | Changes n => f (data (conn s)) = Some (n, data (conn s'))
  | _ => data (conn s') = data (conn s)
  end.
Proof.
  unfold on_conn, idle. destruct (change f (conn s)) as [r1 c] eqn:Hc. intros [= <- <-] Hs. simpl.
  apply change_cases in Hc. unfold committed in Hc. rewrite Hs in Hc. simpl in Hc.
  destruct r1 as [| |n].
  1,2: by destruct Hc as [[-> ->]|[-> ->]].
  by destruct Hc as (d' & Hf & -> & ->).
Qed.

Lemma probe_reads s p s' :
  DeletedFromStatusColumnLocked s = (p, s') ->
  reads_only s s' /\
  (idle s -> probe_ok s ->
    match p with
    | kPresent => "deleted_from_status"%string ∈ documents_columns (data (conn s))
    | kAbsent => "deleted_from_status"%string ∉ documents_columns (data (conn s))
    | kUnknown => True
    end).
Proof.
  unfold DeletedFromStatusColumnLocked.
  destruct (has_deleted_from_status_ s) as [b|] eqn:Hh.
  { intros [= <- <-]. split; [done|]. intros _ Hp. specialize (Hp b Hh).
    destruct b; symmetry in Hp; [by apply bool_decide_eq_true in Hp|by apply bool_decide_eq_false in Hp]. }
  destruct (on_conn (select documents_columns) s) as [q s1] eqn:Hq.
  pose proof (select_reads _ _ _ _ Hq) as Hr.
  unfold on_conn in Hq. destruct (select documents_columns (conn s)) as [q1 c1] eqn:Hc. simplify_eq/=.
  apply select_cases in Hc as [_ Hl].
  destruct q as [[names fin]|]; [|by intros [= <- <-]].
  destruct (negb _ && negb fin) eqn:E; intros [= <- <-]; [done|].
  assert (bool_decide ("deleted_from_status"%string ∈ names) =
    bool_decide ("deleted_from_status"%string ∈ documents_columns (data (conn s)))) as ->.
  { destruct fin; [by destruct Hl as [-> _]|]. destruct Hl as [k ->].
    rewrite andb_true_r in E. apply negb_false_iff in E. rewrite E. symmetry.
    apply bool_decide_eq_true in E. apply bool_decide_eq_true.
    eapply elem_of_sublist; [exact E|apply sublist_take]. }
  split.
  - intros Hi. destruct (Hr Hi) as (Hi1 & Hd & Hf & _). split; [done|]. split; [done|].
    split; [done|]. intros _ b. simpl in *. rewrite Hd. by intros [= <-].
  - intros _ _. by destruct (bool_decide_reflect
      ("deleted_from_status"%string ∈ documents_columns (data (conn s)))).
Qed.

(** ** Single documents *)

Lemma lookup_doc id s q s' :
  lookup_row (docs_where (has_doc_id id)) s = (q, s') ->
  reads_only s s' /\
  (forall r b, q = Some (Some r, b) -> r ∈ documents (data (conn s)) /\ r_doc_id r = id).
Proof.
  intros Hq. apply lookup_reads in Hq as (R & Hrow & _). split; [done|]. intros r b ->.
  specialize (Hrow r b eq_refl).
  assert (r ∈ docs_where (has_doc_id id) (data (conn s))) as Hin.
  { destruct (docs_where _ _); [done|]. simplify_eq/=. by left. }
  apply list_elem_of_filter in Hin as [Hi Hin]. unfold has_doc_id in Hi.
  by apply bool_decide_eq_true in Hi.
Qed.

(** A method that starts with the injected fault. *)
Ltac faulted s1 R1 :=
  match goal with |- context [TryConsumeOpFault ?s] =>
    let f := fresh "f" in let Hf := fresh "Hf" in
    destruct (TryConsumeOpFault s) as [f s1] eqn:Hf;
    pose proof (fault_reads _ _ _ Hf) as R1; apply fault_keeps in Hf; destruct Hf as [Hf _];
    destruct f
  end.

Lemma doc_get_reads id s rc row s' :
  doc_get id s = (rc, row, s') ->
  reads_only s s' /\ (rc = 0 -> exists r, r ∈ documents (data (conn s)) /\ r_doc_id r = id /\
                                  row = Some (ReadDocFromStmt r)).
Proof.
  unfold doc_get. faulted s1 R1; [by intros [= <- <- <-]|].
  destruct (lookup_row _ s1) as [q s2] eqn:Hq. apply lookup_doc in Hq as (R2 & Hrow).
  pose proof (reads_only_trans _ _ _ R1 R2) as R. rewrite Hf in Hrow.
  destruct q as [[[r|] b]|]; intros [= <- <- <-]; (split; [done|]); try done.
  intros _. destruct (Hrow r b eq_refl). eauto.
Qed.

Lemma doc_get_deleted_at_reads id s rc t s' :
  doc_get_deleted_at id s = (rc, t, s') ->
  reads_only s s' /\
  (rc = 0 -> exists r, r ∈ documents (data (conn s)) /\ r_doc_id r = id /\ t = r_deleted_at r).
Proof.
  unfold doc_get_deleted_at. faulted s1 R1; [by intros [= <- <- <-]|].
  destruct (lookup_row _ s1) as [q s2] eqn:Hq. apply lookup_doc in Hq as (R2 & Hrow).
  pose proof (reads_only_trans _ _ _ R1 R2) as R. rewrite Hf in Hrow.
  destruct q as [[[r|] b]|]; intros [= <- <- <-]; (split; [done|]); try done; try (by destruct b).
  intros _. destruct (Hrow r b eq_refl). eauto.
Qed.

(** The status that a row was deleted from, where the store records it. *)
Definition recorded_status (d : Db) (r : DocRow) : option string :=
  if bool_decide ("deleted_from_status"%string ∈ documents_columns d)
  then r_deleted_from_status r else None.

Lemma doc_get_deleted_from_status_reads id s rc t s' :
  doc_get_deleted_from_status id s = (rc, t, s') ->
  reads_only s s' /\
  (idle s -> probe_ok s -> rc = 0 ->
   t = None /\ "deleted_from_status"%string ∉ documents_columns (data (conn s)) \/
   exists r, r ∈ documents (data (conn s)) /\ r_doc_id r = id /\
             t = recorded_status (data (conn s)) r).
Proof.
  unfold doc_get_deleted_from_status. faulted s1 R1; [by intros [= <- <- <-]|].
  destruct (DeletedFromStatusColumnLocked s1) as [p s2] eqn:Hp. apply probe_reads in Hp as (R2 & Hp).
  pose proof (reads_only_trans _ _ _ R1 R2) as R.
  destruct p; [|intros [= <- <- <-]..].
  - destruct (lookup_row _ s2) as [q s3] eqn:Hq. apply lookup_doc in Hq as (R3 & Hrow).
    pose proof (reads_only_trans _ _ _ R R3) as R4.
    destruct q as [[[r|] b]|]; intros [= <- <- <-]; (split; [done|]); try done; try (by destruct b).
    intros Hi Hok _. right. destruct (Hrow r b eq_refl) as [Hr Hid]. exists r.
    destruct (R Hi) as (_ & Hd & _ & _). rewrite Hd in Hr. split; [done|]. split; [done|].
    destruct (R1 Hi) as (Hi1 & Hd1 & _ & P1). specialize (Hp Hi1 (P1 Hok)). rewrite Hd1 in Hp.
    unfold recorded_status. by rewrite bool_decide_true.
  - split; [done|]. intros Hi Hok _. left. split; [done|].
    destruct (R1 Hi) as (Hi1 & Hd1 & _ & P1). specialize (Hp Hi1 (P1 Hok)). by rewrite Hd1 in Hp.
  - split; [done|]. done.
Qed.

(** ** Restoring one row *)

(** The database after the restoration of the document [id]. *)
Definition restored (m : bool) (now : Z) (id : string) (d : Db) : Db :=
  d <| documents := (fun r => if has_doc_id id r then set_restored m now r else r) <$> documents d |>.

(** An UPDATE that changes the row of [id], if it satisfies [c]. *)
Lemma update_row_cases (c : DocRow -> bool) f id d n d' :
  NoDup (r_doc_id <$> documents d) ->
  update_docs (fun _ r => has_doc_id id r && c r) f d = Some (n, d') ->
  (n = 0 /\ d' = d /\ forall r, r ∈ documents d -> r_doc_id r = id -> c r = false) \/
  (0 < n /\ exists r, r ∈ documents d /\ r_doc_id r = id /\ c r = true /\
     d' = d <| documents := (fun q => if has_doc_id id q then f q else q) <$> documents d |>).
Proof.
  intros Hn [= <- <-].
  destruct (decide (Exists (fun r => has_doc_id id r && c r = true) (documents d))) as [He|Hno].
  - right. apply Exists_exists in He as (r & Hr & Hc). split.
    { destruct (filter _ (documents d)) as [|x l] eqn:E; [|rewrite len_cons; pose proof (len_nonneg l); lia].
      exfalso. assert (r ∈ []) as []%not_elem_of_nil. rewrite <- E. by apply list_elem_of_filter. }
    apply andb_true_iff in Hc as [Hi Hc]. pose proof Hi as Hid. apply bool_decide_eq_true in Hid.
    exists r. split; [done|]. split; [done|]. split; [done|].
    assert ((fun r => if has_doc_id id r && c r then f r else r) <$> documents d =
      (fun q => if has_doc_id id q then f q else q) <$> documents d) as ->; [|done].
    apply list_fmap_ext. intros k q Hq%list_elem_of_lookup_2. destruct (has_doc_id id q) eqn:Hqi; [|done].
    apply bool_decide_eq_true in Hqi.
    rewrite (NoDup_fmap_inj _ _ _ _ Hn Hq Hr) by congruence. by rewrite Hc.
  - left. assert (forall q, q ∈ documents d -> has_doc_id id q && c q = false) as Hf.
    { intros q Hq. apply not_true_iff_false. intros Hc. apply Hno, Exists_exists. eauto. }
    split.
    + rewrite filter_none; [done|]. apply Forall_forall. intros q Hq. by rewrite Hf.
    + assert ((fun r => if has_doc_id id r && c r then f r else r) <$> documents d = documents d) as ->.
      { rewrite <- (list_fmap_id (documents d)) at 2. apply list_fmap_ext.
        intros k q Hq%list_elem_of_lookup_2. by rewrite Hf. }
      split; [by destruct d|]. intros r Hr Hid. specialize (Hf r Hr). unfold has_doc_id in Hf.
      by rewrite bool_decide_true in Hf.
Qed.

Lemma update_docs_ext (w w' : Db -> DocRow -> bool) f d :
  (forall r, w d r = w' d r) -> update_docs w f d = update_docs w' f d.
Proof.
  intros Hw. unfold update_docs. f_equal. f_equal.
  - f_equal. apply filter_ext_in. intros r _. by rewrite Hw.
  - assert ((fun r => if w d r then f r else r) <$> documents d =
      (fun r => if w' d r then f r else r) <$> documents d) as ->; [|done].
    apply list_fmap_ext. intros k r _. by rewrite Hw.
Qed.

Lemma restored_row_cases (c w : Db -> DocRow -> bool) m now id d n d' :
  NoDup (r_doc_id <$> documents d) ->
  (forall r, w d r = has_doc_id id r && (negb (live r) && c d r)) ->
  update_docs w (set_restored m now) d = Some (n, d') ->
  (n = 0 /\ d' = d /\ forall r, r ∈ documents d -> r_doc_id r = id -> negb (live r) && c d r = false) \/
  (0 < n /\ exists r, r ∈ documents d /\ r_doc_id r = id /\ live r = false /\ c d r = true /\
             d' = restored m now id d).
Proof.
  intros Hn Hw. rewrite (update_docs_ext w (fun d r => has_doc_id id r && (negb (live r) && c d r)) _ _ Hw).
  intros [?|(? & r & ? & ? & Hc & ?)]%(update_row_cases (fun r => negb (live r) && c d r)); [by left| |done].
  right. split; [done|]. exists r. apply andb_true_iff in Hc as [Hl Hc]. by apply negb_true_iff in Hl.
Qed.

(** What a restoring statement leaves behind: the row was there and deleted, and
    satisfied [c], if it says so; otherwise nothing has changed. *)
Definition restores (c : Db -> DocRow -> bool) (now : Z) (id : string) (rc : Z)
    (s s' : CortrixStoreSqlite) : Prop :=
  idle s' /\ foreign_keys s' = foreign_keys s /\
  ((rc = 0 /\ exists m r, r ∈ documents (data (conn s)) /\ r_doc_id r = id /\ live r = false /\
      c (data (conn s)) r = true /\ data (conn s') = restored m now id (data (conn s)))
   \/ (rc <> 0 /\ data (conn s') = data (conn s))).

Lemma restores_nothing c now id s s' : reads_only s s' -> idle s -> restores c now id (-1) s s'.
Proof. intros R Hi. destruct (R Hi) as (? & ? & ? & _). split; [done|]. split; [done|]. by right. Qed.

Lemma restoring_statement (c w : Db -> DocRow -> bool) m now id s s2 r s3 rc :
  reads_only s s2 -> on_conn (change (update_docs w (set_restored m now))) s2 = (r, s3) ->
  (forall d q, w d q = has_doc_id id q && (negb (live q) && c d q)) ->
  match r with Changes n => rc = 0 <-> 0 < n | _ => rc <> 0 end ->
  idle s -> NoDup (r_doc_id <$> documents (data (conn s))) -> restores c now id rc s s3.
Proof.
  intros R Hc Hw Hrc Hi Hn. destruct (R Hi) as (Hi2 & Hd2 & Hf2 & _).
  apply change_idle in Hc as (Hi3 & Hf3 & Hc); [|done].
  split; [done|]. split; [congruence|].
  destruct r as [| |n]; [right; split; [done|congruence]..|]. rewrite Hd2 in Hc.
  apply (restored_row_cases c w m now id) in Hc as [(-> & -> & _)|(Hn0 & q & Hq)]; [| |done|done].
  - right. split; [|done]. intros Hz. apply Hrc in Hz. lia.
  - left. split; [by apply Hrc|]. by exists m, q.
Qed.

Lemma doc_restore_unless_superseded_restores now id s rc s' :
  doc_restore_unless_superseded now id s = (rc, s') -> idle s ->
  NoDup (r_doc_id <$> documents (data (conn s))) ->
  restores (fun d r => negb (other_live_exists d r)) now id rc s s'.
Proof.
  unfold doc_restore_unless_superseded. faulted s1 R1.
  { intros [= <- <-] Hi _. by apply restores_nothing. }
  destruct (DeletedFromStatusColumnLocked s1) as [p s2] eqn:Hp. apply probe_reads in Hp as (R2 & _).
  destruct (on_conn _ s2) as [c s3] eqn:Hc. intros Hr. assert (s' = s3) as -> by (destruct c; by simplify_eq/=).
  eapply restoring_statement; [by eapply reads_only_trans|exact Hc|intros; by rewrite andb_assoc|].
  destruct c as [| |n]; simplify_eq/=; [done..|]. destruct (Z.ltb_spec 0 n); simplify_eq/=; lia.
Qed.

Lemma doc_restore_restores now id s rc s' :
  doc_restore now id s = (rc, s') -> idle s -> NoDup (r_doc_id <$> documents (data (conn s))) ->
  restores (fun _ _ => true) now id rc s s'.
Proof.
  unfold doc_restore. faulted s1 R1.
  { intros [= <- <-] Hi _. by apply restores_nothing. }
  destruct (DeletedFromStatusColumnLocked s1) as [p s2] eqn:Hp. apply probe_reads in Hp as (R2 & _).
  destruct (on_conn _ s2) as [c s3] eqn:Hc. intros Hr. assert (s' = s3) as -> by (destruct c; by simplify_eq/=).
  assert (forall n, c = Changes n -> 0 <= n) as Hpos.
  { intros n ->. unfold on_conn in Hc. destruct (change _ (conn s2)) as [r k] eqn:Hk. simplify_eq/=.
    apply change_cases in Hk as (d' & [= <- _] & _). apply len_nonneg. }
  eapply restoring_statement; [by eapply reads_only_trans|exact Hc|intros; by rewrite andb_true_r|].
  destruct c as [| |n]; simplify_eq/=; [done..|]. specialize (Hpos n eq_refl).
  destruct (Z.eqb_spec n 0); simplify_eq/=; lia.
Qed.

(** ** The decision *)

(** What a decision leaves behind; [P] holds of a row that it brought back. *)
Definition decided (P : DocRow -> Prop) (now : Z) (id : string) (d : Db) (dec : RestoreDecision)
    (s' : CortrixStoreSqlite) : Prop :=
  idle s' /\
  match dec with
  | kRestored => exists m r, r ∈ documents d /\ r_doc_id r = id /\ live r = false /\ P r /\
                             data (conn s') = restored m now id d
  | _ => data (conn s') = d
  end.

Lemma decided_no P now id s s' dec :
  reads_only s s' -> idle s -> dec <> kRestored -> decided P now id (data (conn s)) dec s'.
Proof. intros R Hi Hd. destruct (R Hi) as (? & ? & _). split; [done|]. by destruct dec. Qed.

(** The row may be restored at [cutoff]: not expired, complete, not superseded. *)
Definition in_window (cutoff : Z) (r : DocRow) : Prop :=
  match r_deleted_at r with Some t => cutoff < t | None => True end.
Definition complete (d : Db) (r : DocRow) : Prop :=
  r_source_type r = "memory_session"%string \/ recorded_status d r = None
  \/ recorded_status d r = Some "ready"%string.
Definition unopposed (d : Db) (r : DocRow) : Prop :=
  versioned r = true -> other_live_exists d r = false.

Section Decide.
Context `{Planner}.

Lemma restore_version_decided now id ns s dec s' :
  restore_version now id ns s = (dec, s') -> idle s ->
  NoDup (r_doc_id <$> documents (data (conn s))) ->
  decided (fun r => other_live_exists (data (conn s)) r = false) now id (data (conn s)) dec s'.
Proof.
  unfold restore_version. destruct (doc_restore_unless_superseded now id s) as [rrc s1] eqn:E1.
  intros Hr Hi Hn. apply doc_restore_unless_superseded_restores in E1 as (Hi1 & _ & Hd1); [|done..].
  destruct Hd1 as [(-> & m & r & ? & ? & ? & Ho & Hd1)|[Hrc Hd1]].
  { simplify_eq/=. split; [done|]. apply negb_true_iff in Ho. by exists m, r. }
  rewrite (proj2 (Z.eqb_neq _ _) Hrc) in Hr. rewrite <- Hd1.
  destruct (negb (rrc =? -2)); [by simplify_eq/=|].
  destruct (doc_get id s1) as [[again current] s2] eqn:E2. apply doc_get_reads in E2 as [R2 _].
  destruct (not_here _ _); [simplify_eq/=; by apply decided_no|].
  destruct (negb (again =? 0)); [simplify_eq/=; by apply decided_no|].
  destruct (doc_find_by_source _ _ s2) as [[frc live_doc] s3] eqn:E3.
  assert (reads_only s2 s3) as R3.
  { revert E3. unfold doc_find_by_source. faulted s4 R4; [by intros [= <- <- <-]|].
    unfold find_doc. destruct (lookup_row _ s4) as [q s5] eqn:E5. apply lookup_reads in E5 as [R5 _].
    destruct q as [[[r|] b]|]; intros [= <- <- <-]; by eapply reads_only_trans. }
  pose proof (reads_only_trans _ _ _ R2 R3) as R.
  destruct (frc =? 0); simplify_eq/=; by apply decided_no.
Qed.

Lemma restore_any_decided now id s dec s' :
  restore_any now id s = (dec, s') -> idle s -> NoDup (r_doc_id <$> documents (data (conn s))) ->
  decided (fun _ => True) now id (data (conn s)) dec s'.
Proof.
  unfold restore_any. destruct (doc_restore now id s) as [rrc s1] eqn:E1.
  intros [= <- <-] Hi Hn. apply doc_restore_restores in E1 as (Hi1 & _ & Hd1); [|done..].
  destruct Hd1 as [(-> & m & r & ? & ? & ? & _ & Hd1)|[Hrc Hd1]].
  - split; [done|]. by exists m, r.
  - rewrite (proj2 (Z.eqb_neq _ _) Hrc). split; [done|]. by destruct (rrc =? -2).
Qed.

(** All the reads of one id see the same row. *)
Lemma decided_weaken (P Q : DocRow -> Prop) now id d dec s :
  (forall r, r ∈ documents d -> r_doc_id r = id -> P r -> Q r) ->
  decided P now id d dec s -> decided Q now id d dec s.
Proof.
  intros HPQ [Hi Hd]. split; [done|]. destruct dec; [done| |done].
  destruct Hd as (m & r & ? & ? & ? & ? & ?). exists m, r. eauto 10.
Qed.

Lemma restore_row_decided now r id ns s dec s' :
  restore_row now (ReadDocFromStmt r) id ns s = (dec, s') -> idle s ->
  NoDup (r_doc_id <$> documents (data (conn s))) -> r ∈ documents (data (conn s)) -> r_doc_id r = id ->
  decided (unopposed (data (conn s))) now id (data (conn s)) dec s'.
Proof.
  unfold restore_row. intros Hr Hi Hn Hin Hid. case_bool_decide as Hv.
  - eapply decided_weaken; [|by apply (restore_version_decided now id ns)]. by intros q _ _ Hq _.
  - eapply decided_weaken; [|by eapply restore_any_decided]. intros q Hq Hqid _ Hqv. exfalso. apply Hv.
    rewrite <- (NoDup_fmap_inj _ _ _ _ Hn Hq Hin) by congruence. simpl.
    by apply bool_decide_eq_true in Hqv.
Qed.

Lemma check_complete_decided now r id ns s dec s' :
  check_complete now (ReadDocFromStmt r) id ns s = (dec, s') -> idle s -> probe_ok s ->
  NoDup (r_doc_id <$> documents (data (conn s))) -> r ∈ documents (data (conn s)) -> r_doc_id r = id ->
  decided (fun q => complete (data (conn s)) q /\ unopposed (data (conn s)) q)
    now id (data (conn s)) dec s'.
Proof.
  unfold check_complete. intros Hc Hi Hp Hn Hin Hid.
  assert (forall q, q ∈ documents (data (conn s)) -> r_doc_id q = id -> q = r) as Hu.
  { intros q Hq Hqi. apply (NoDup_fmap_inj _ _ _ _ Hn Hq Hin). congruence. }
  case_bool_decide as Hm.
  { eapply decided_weaken; [|by eapply restore_row_decided]. intros q Hq Hqi Ho. split; [|done]. left.
    by rewrite (Hu q Hq Hqi). }
  destruct (doc_get_deleted_from_status id s) as [[mrc t] s1] eqn:E1.
  apply doc_get_deleted_from_status_reads in E1 as [R1 Ht].
  destruct (mrc =? -2); [simplify_eq/=; by apply decided_no|].
  destruct (Z.eqb_spec mrc 0) as [->|]; [|simplify_eq/=; by apply decided_no]. cbn [negb] in Hc.
  specialize (Ht Hi Hp eq_refl). destruct (R1 Hi) as (Hi1 & Hd1 & _ & _).
  assert ((t = None \/ t = Some "ready"%string) \/ exists u, t = Some u /\ u <> "ready"%string) as [Hok|(u & -> & Hu')].
  { destruct t as [u|]; [|by left; left]. destruct (decide (u = "ready"%string)); naive_solver. }
  2: { rewrite bool_decide_false in Hc by done. simplify_eq/=. by apply decided_no. }
  assert (restore_row now (ReadDocFromStmt r) id ns s1 = (dec, s')) as Hrow
    by (by destruct Hok; simplify_eq/=).
  rewrite <- Hd1 in Hn, Hin. eapply restore_row_decided in Hrow; [|done..]. rewrite Hd1 in Hrow.
  eapply decided_weaken; [|exact Hrow]. intros q Hq Hqi Ho. split; [|done]. right.
  destruct Ht as [[_ Hcol]|(q' & Hq' & Hqi' & ->)].
  - left. unfold recorded_status. by rewrite bool_decide_false.
  - by rewrite (Hu q Hq Hqi), <- (Hu q' Hq' Hqi').
Qed.

Lemma DecideRestore_decided now id ns cutoff s dec s' :
  DecideRestore now id ns cutoff s = (dec, s') -> idle s -> probe_ok s ->
  NoDup (r_doc_id <$> documents (data (conn s))) ->
  decided (fun q => in_window cutoff q /\ complete (data (conn s)) q /\ unopposed (data (conn s)) q)
    now id (data (conn s)) dec s'.
Proof.
  unfold DecideRestore. intros Hc Hi Hp Hn.
  destruct (doc_get id s) as [[got row] s1] eqn:E1. apply doc_get_reads in E1 as [R1 Hrow].
  destruct (not_here _ _); [simplify_eq/=; by apply decided_no|].
  destruct (Z.eqb_spec got 0) as [->|]; [|simplify_eq/=; by apply decided_no]. cbn [negb] in Hc.
  destruct (Hrow eq_refl) as (r & Hr & Hid & ->). cbn [from_option] in Hc. unfold Datatypes.id in Hc.
  destruct (doc_get_deleted_at id s1) as [[drc at_] s2] eqn:E2.
  apply doc_get_deleted_at_reads in E2 as [R2 Hat].
  pose proof (reads_only_trans _ _ _ R1 R2) as R.
  destruct (drc =? -2); [simplify_eq/=; by apply decided_no|].
  destruct (Z.eqb_spec drc 0) as [->|]; [|simplify_eq/=; by apply decided_no]. cbn [negb] in Hc.
  destruct (Hat eq_refl) as (r2 & Hr2 & Hid2 & ->). destruct (R1 Hi) as (Hi1 & Hd1 & _ & P1).
  rewrite Hd1 in Hr2. assert (r2 = r) as -> by (apply (NoDup_fmap_inj _ _ _ _ Hn Hr2 Hr); congruence).
  destruct (match r_deleted_at r with Some t => t <=? cutoff | None => false end) eqn:Hx;
    [simplify_eq/=; by apply decided_no|].
  destruct (R Hi) as (Hi2 & Hd2 & _ & P2).
  rewrite <- Hd2 in Hn, Hr. eapply check_complete_decided in Hc; [|by auto..]. rewrite Hd2 in *.
  eapply decided_weaken; [|exact Hc]. intros q Hq Hqi [Hq1 Hq2]. split; [|done].
  rewrite (NoDup_fmap_inj _ _ _ _ Hn Hq Hr) by congruence. unfold in_window.
  destruct (r_deleted_at r); [|done]. by apply Z.leb_gt in Hx.
Qed.

(** *** On a store on which nothing fails *)

Definition rows_of (id : string) (d : Db) : list DocRow := docs_where (has_doc_id id) d.

Lemma clean_doc_get id s :
  clean s -> doc_get id s = match rows_of id (data (conn s)) with
                            | r :: _ => (0, Some (ReadDocFromStmt r), s)
                            | [] => (-2, None, s)
                            end.
Proof. intros Hc. unfold doc_get. rewrite clean_fault, clean_lookup by done. by destruct (rows_of _ _) eqn:E; unfold rows_of in E; rewrite E. Qed.

Lemma clean_deleted_at id s :
  clean s -> doc_get_deleted_at id s = match rows_of id (data (conn s)) with
                                       | r :: _ => (0, r_deleted_at r, s)
                                       | [] => (-2, None, s)
                                       end.
Proof. intros Hc. unfold doc_get_deleted_at. rewrite clean_fault, clean_lookup by done. by destruct (rows_of _ _) eqn:E; unfold rows_of in E; rewrite E. Qed.

Lemma clean_probe s :
  clean s -> probe_ok s -> exists s',
    DeletedFromStatusColumnLocked s =
      (if bool_decide ("deleted_from_status"%string ∈ documents_columns (data (conn s)))
       then kPresent else kAbsent, s') /\
    clean s' /\ probe_ok s' /\ data (conn s') = data (conn s).
Proof.
  intros Hc Hp. unfold DeletedFromStatusColumnLocked.
  destruct (has_deleted_from_status_ s) as [b|] eqn:Hh.
  { exists s. by rewrite (Hp b Hh). }
  rewrite clean_select, andb_false_r by done. eexists. split; [done|]. split; [done|].
  split; [by intros b [= <-]|done].
Qed.

Lemma clean_deleted_from id s :
  clean s -> probe_ok s -> exists s',
    doc_get_deleted_from_status id s =
      match rows_of id (data (conn s)) with
      | r :: _ => (0, recorded_status (data (conn s)) r, s')
      | [] => (if bool_decide ("deleted_from_status"%string ∈ documents_columns (data (conn s)))
               then -2 else 0, None, s')
      end /\ clean s' /\ probe_ok s' /\ data (conn s') = data (conn s).
Proof.
  intros Hc Hp. unfold doc_get_deleted_from_status. rewrite clean_fault by done.
  destruct (clean_probe s Hc Hp) as (s1 & -> & Hc1 & Hp1 & Hd1). exists s1. split; [|done].
  unfold recorded_status. destruct (bool_decide _) eqn:E; [|by destruct (rows_of _ _)].
  rewrite clean_lookup, Hd1 by done. by destruct (rows_of _ _) eqn:E'; unfold rows_of in E'; rewrite E'.
Qed.

Lemma clean_restore_statement (c w : Db -> DocRow -> bool) m now id s r :
  clean s -> NoDup (r_doc_id <$> documents (data (conn s))) ->
  (forall d q, w d q = has_doc_id id q && (negb (live q) && c d q)) ->
  r ∈ documents (data (conn s)) -> r_doc_id r = id -> live r = false ->
  exists n s', on_conn (change (update_docs w (set_restored m now))) s = (Changes n, s') /\
    clean s' /\ (0 < n <-> c (data (conn s)) r = true) /\ (c (data (conn s)) r = false -> s' = s).
Proof.
  intros Hc Hn Hw Hr Hid Hl.
  destruct (update_docs w (set_restored m now) (data (conn s))) as [[n d']|] eqn:Hu; [|done].
  exists n, (set_data s d'). rewrite (clean_change _ _ _ _ Hc Hu). split; [done|]. split; [done|].
  apply (restored_row_cases c w m now id) in Hu as [(-> & -> & Hf)|(Hn0 & q & Hq & Hqi & Hql & Hqc & _)]; [| |done..].
  - rewrite set_data_same. split; [|done]. specialize (Hf r Hr Hid). rewrite Hl in Hf. simpl in Hf.
    rewrite Hf. split; [lia|done].
  - assert (q = r) as -> by (apply (NoDup_fmap_inj _ _ _ _ Hn Hq Hr); congruence). rewrite Hqc.
    split; [split; [done|lia]|done].
Qed.

Lemma clean_restore_any now id s r :
  clean s -> probe_ok s -> NoDup (r_doc_id <$> documents (data (conn s))) ->
  r ∈ documents (data (conn s)) -> r_doc_id r = id -> live r = false ->
  (restore_any now id s).1 = kRestored.
Proof.
  intros Hc Hp Hn Hr Hid Hl. unfold restore_any, doc_restore. rewrite clean_fault by done.
  destruct (clean_probe s Hc Hp) as (s1 & -> & Hc1 & Hp1 & Hd1). rewrite <- Hd1 in Hn, Hr.
  destruct (clean_restore_statement (fun _ _ => true) (fun _ q => has_doc_id id q && negb (live q))
    (marker_of (if bool_decide ("deleted_from_status"%string ∈ documents_columns (data (conn s)))
                then kPresent else kAbsent)) now id s1 r) as (n & s2 & -> & Hc2 & Hn2 & _);
    try done; [intros; by rewrite andb_true_r|].
  cbn [finished]. rewrite (proj2 (Z.eqb_neq n 0)) by (destruct Hn2 as [_ Hn2]; specialize (Hn2 eq_refl); lia).
  done.
Qed.

(** The newest of the live rows of a source. *)
Definition newest_live (d : Db) (r o : DocRow) : Prop :=
  o ∈ documents d /\ live o = true /\ same_source o r = true /\
  forall x, x ∈ documents d -> live x = true -> same_source x r = true -> sorts_before o x = false.

Lemma newest_first_le x y : newest_first x y = true \/ newest_first y x = true.
Proof.
  unfold newest_first. destruct (sorts_before x y) eqn:E; [right|by left].
  apply negb_true_iff, not_true_iff_false. intros E'.
  pose proof (sorts_before_trans _ _ _ E E') as Hx. by rewrite sorts_before_irrefl in Hx.
Qed.

Lemma newest_first_trans x y z :
  newest_first x y = true -> newest_first y z = true -> newest_first x z = true.
Proof.
  unfold newest_first. rewrite !negb_true_iff, <- !not_true_iff_false. intros Hxy Hyz Hxz.
  destruct (ltb_total (r_created_at x) (r_created_at y)) as [Ec|[Ec|Ec]].
  - destruct (ltb_total (r_doc_id x) (r_doc_id y)) as [Ei|[Ei|Ei]].
    + apply Hyz. revert Hxz. unfold sorts_before. by rewrite Ec, Ei.
    + apply Hxy, sorts_before_spec. by right.
    + apply Hyz. eapply sorts_before_trans; [|exact Hxz]. apply sorts_before_spec. by right.
  - apply Hxy, sorts_before_spec. by left.
  - apply Hyz. eapply sorts_before_trans; [|exact Hxz]. apply sorts_before_spec. by left.
Qed.

Lemma clean_find_by_source s r :
  clean s -> (exists o, o ∈ documents (data (conn s)) /\ live o = true /\ same_source o r = true) ->
  exists o, doc_find_by_source (r_source_type r) (r_source_path r) s = (0, Some (ReadDocFromStmt o), s) /\
            newest_live (data (conn s)) r o.
Proof.
  intros Hc (o0 & Ho0 & Hl0 & Hs0). unfold doc_find_by_source. rewrite clean_fault by done.
  unfold find_doc. rewrite clean_lookup by done.
  set (w := fun q => bool_decide (r_source_type q = r_source_type r) &&
                     bool_decide (r_source_path q = r_source_path r) && live q).
  pose proof (order_by_perm newest_first (docs_where w (data (conn s)))) as Hperm.
  assert (forall q, q ∈ order_by newest_first (docs_where w (data (conn s))) <->
    q ∈ documents (data (conn s)) /\ live q = true /\ same_source q r = true) as Hel.
  { intros q. rewrite Hperm. unfold docs_where. rewrite list_elem_of_filter. unfold w, same_source.
    rewrite !andb_true_iff. tauto. }
  pose proof (order_by_sorted newest_first (docs_where w (data (conn s))) newest_first_le
    newest_first_trans) as Hsort.
  destruct (order_by newest_first _) as [|o l].
  { exfalso. apply (not_elem_of_nil o0), Hel. done. }
  exists o. split; [done|]. destruct (proj1 (Hel o) (list_elem_of_here _ _)) as (? & ? & ?).
  split; [done|]. split; [done|]. split; [done|]. intros x Hx Hlx Hsx.
  assert (x ∈ o :: l) as [->|Hin]%elem_of_cons by (by apply Hel); [apply sorts_before_irrefl|].
  apply StronglySorted_inv in Hsort as [_ Hf]. rewrite Forall_forall in Hf. specialize (Hf x Hin).
  by apply negb_true_iff in Hf.
Qed.

Lemma other_live_spec d r :
  other_live_exists d r = true <->
  exists o, o ∈ documents d /\ same_source o r = true /\ r_doc_id o <> r_doc_id r /\ live o = true.
Proof.
  unfold other_live_exists. rewrite existsb_exists. split.
  - intros (o & Ho%list_elem_of_In & Hc). exists o. rewrite !andb_true_iff, negb_true_iff in Hc.
    destruct Hc as [[? Hi] ?]. unfold has_doc_id in Hi. by apply bool_decide_eq_false in Hi.
  - intros (o & Ho & Hs & Hi & Hl). exists o. split; [by apply list_elem_of_In|].
    rewrite Hs, Hl, andb_true_r. simpl. apply negb_true_iff. unfold has_doc_id. by apply bool_decide_eq_false.
Qed.

Lemma rows_of_row id d r :
  NoDup (r_doc_id <$> documents d) -> r ∈ documents d -> r_doc_id r = id ->
  exists l, rows_of id d = r :: l.
Proof.
  intros Hn Hr Hid. assert (forall q, q ∈ rows_of id d <-> q ∈ documents d /\ r_doc_id q = id) as Hel.
  { intros q. unfold rows_of, docs_where, has_doc_id. rewrite list_elem_of_filter, bool_decide_eq_true. tauto. }
  destruct (rows_of id d) as [|q l] eqn:E; [exfalso; by apply (not_elem_of_nil r), Hel|].
  exists l. f_equal. destruct (proj1 (Hel q) (list_elem_of_here _ _)) as [Hq Hqi].
  apply (NoDup_fmap_inj _ _ _ _ Hn Hq Hr). congruence.
Qed.

Lemma read_deleted r : bool_decide (status (ReadDocFromStmt r) = kDeleted) = negb (live r).
Proof.
  unfold live. rewrite negb_involutive. apply eq_true_iff_eq. rewrite !bool_decide_eq_true. simpl.
  unfold DocStatusFromStr. split; [|by intros ->]. repeat (case_bool_decide; [done|]). done.
Qed.

Lemma clean_restore_version now id ns s r :
  clean s -> probe_ok s -> NoDup (r_doc_id <$> documents (data (conn s))) ->
  r ∈ documents (data (conn s)) -> r_doc_id r = id -> live r = false ->
  if other_live_exists (data (conn s)) r
  then exists o message, newest_live (data (conn s)) r o /\
         (restore_version now id ns s).1 =
           Refused id "CX_ERR_GC_RESTORE_SUPERSEDED" message (r_doc_id o) ns
  else (restore_version now id ns s).1 = kRestored.
Proof.
  intros Hc Hp Hn Hr Hid Hl. unfold restore_version, doc_restore_unless_superseded.
  rewrite clean_fault by done. destruct (clean_probe s Hc Hp) as (s1 & -> & Hc1 & Hp1 & Hd1).
  rewrite <- Hd1 in Hn, Hr.
  destruct (clean_restore_statement (fun d q => negb (other_live_exists d q))
    (fun d q => has_doc_id id q && negb (live q) && negb (other_live_exists d q))
    (marker_of (if bool_decide ("deleted_from_status"%string ∈ documents_columns (data (conn s)))
                then kPresent else kAbsent)) now id s1 r) as (n & s2 & -> & Hc2 & Hn2 & Hsame);
    try done; [intros; by rewrite andb_assoc|].
  cbn [finished]. rewrite Hd1 in Hn2, Hsame. destruct (other_live_exists (data (conn s)) r) eqn:Ho.
  2: { rewrite (proj2 (Z.ltb_lt 0 n)); [done|]. by apply Hn2. }
  rewrite (proj2 (Z.ltb_ge 0 n)) by (destruct (Z.ltb_spec 0 n) as [Hx|]; [by apply Hn2 in Hx|done]).
  specialize (Hsame eq_refl) as ->. cbn -[clean doc_get doc_find_by_source].
  rewrite clean_doc_get by done. destruct (rows_of_row id (data (conn s1)) r Hn Hr Hid) as [l ->].
  cbn [from_option]. unfold not_here, Datatypes.id. rewrite read_deleted, Hl.
  cbn -[clean doc_find_by_source Refused].
  destruct (clean_find_by_source s1 r Hc1) as (o & Hfind & Hnew).
  { rewrite Hd1. apply other_live_spec in Ho as (o & ? & ? & _ & ?). eauto. }
  cbn [source_type source_path ReadDocFromStmt]. rewrite Hfind, Hd1 in *. by eexists _, _.
Qed.

Lemma clean_restore_row now r id ns s :
  clean s -> probe_ok s -> NoDup (r_doc_id <$> documents (data (conn s))) ->
  r ∈ documents (data (conn s)) -> r_doc_id r = id -> live r = false ->
  if versioned r && other_live_exists (data (conn s)) r
  then exists o message, newest_live (data (conn s)) r o /\
         (restore_row now (ReadDocFromStmt r) id ns s).1 =
           Refused id "CX_ERR_GC_RESTORE_SUPERSEDED" message (r_doc_id o) ns
  else (restore_row now (ReadDocFromStmt r) id ns s).1 = kRestored.
Proof.
  intros Hc Hp Hn Hr Hid Hl. unfold restore_row.
  change (bool_decide (source_type (ReadDocFromStmt r) ∈ _)) with (versioned r).
  destruct (versioned r) eqn:Hv; simpl andb; cbv iota.
  - by apply clean_restore_version.
  - by apply (clean_restore_any now id s r).
Qed.

(** The verdict on the document [id] at [cutoff]. *)
Definition verdict (cutoff : Z) (id ns : string) (d : Db) (dec : RestoreDecision) : Prop :=
  match rows_of id d with
  | [] => dec = kNotHere
  | r :: _ =>
      if live r then dec = kNotHere
      else if deleted_before cutoff r
      then exists message, dec = Refused id "CX_ERR_GC_RESTORE_EXPIRED" message "" ns
      else if negb (bool_decide (r_source_type r = "memory_session"%string))
              && negb (bool_decide (recorded_status d r ∈ [None; Some "ready"%string]))
      then exists message, dec = Refused id "CX_ERR_GC_RESTORE_INCOMPLETE" message "" ns
      else if versioned r && other_live_exists d r
      then exists o message, newest_live d r o /\
             dec = Refused id "CX_ERR_GC_RESTORE_SUPERSEDED" message (r_doc_id o) ns
      else dec = kRestored
  end.

Lemma DecideRestore_verdict now id ns cutoff s :
  clean s -> probe_ok s -> NoDup (r_doc_id <$> documents (data (conn s))) ->
  verdict cutoff id ns (data (conn s)) (DecideRestore now id ns cutoff s).1.
Proof.
  intros Hc Hp Hn. unfold verdict, DecideRestore. rewrite clean_doc_get by done.
  destruct (rows_of id (data (conn s))) as [|r l] eqn:Hrows; [done|].
  assert (r ∈ documents (data (conn s)) /\ r_doc_id r = id) as [Hr Hid].
  { pose proof (list_elem_of_here r l) as Hin. rewrite <- Hrows in Hin.
    apply list_elem_of_filter in Hin as [Hi Hin]. by apply bool_decide_eq_true in Hi. }
  cbn [from_option]. unfold not_here, Datatypes.id. rewrite read_deleted.
  destruct (live r) eqn:Hl; [done|]. cbn -[clean doc_get_deleted_at check_complete Refused deleted_before].
  rewrite clean_deleted_at, Hrows by done.
  cbn -[clean check_complete Refused deleted_before].
  assert (deleted_before cutoff r =
    match r_deleted_at r with Some t => t <=? cutoff | None => false end) as ->
    by (unfold deleted_before; by rewrite Hl).
  destruct (match r_deleted_at r with Some t => t <=? cutoff | None => false end); [by eexists|].
  unfold check_complete. cbn [source_type ReadDocFromStmt].
  destruct (bool_decide (r_source_type r = "memory_session"%string)); cbn [negb andb].
  { by apply clean_restore_row. }
  destruct (clean_deleted_from id s Hc Hp) as (s1 & -> & Hc1 & Hp1 & Hd1). rewrite Hrows. cbv iota beta.
  cbn -[clean restore_row Refused].
  assert (forall x : option string, bool_decide (x ∈ [None; Some "ready"%string]) =
    match x with Some t => bool_decide (t = "ready"%string) | None => true end) as Hx.
  { intros [t|]; apply eq_true_iff_eq; rewrite bool_decide_eq_true, elem_of_cons, list_elem_of_singleton.
    - rewrite bool_decide_eq_true. naive_solver.
    - naive_solver. }
  rewrite Hx. destruct (recorded_status _ r) as [t|].
  - destruct (bool_decide (t = "ready"%string)); cbn [negb]; [|by eexists].
    rewrite <- Hd1 in *. by apply clean_restore_row.
  - cbn [negb]. rewrite <- Hd1 in *. by apply clean_restore_row.
Qed.

(** C15: The decision about one document in one store, for every outcome of its
    SQLite calls: it reports a restoration only for a soft-deleted row that is
    still within the window, complete, and (an upload or a watched file) with no
    live version of its source, and then that row alone has become live and
    ready; in every other case the database is as it was. When nothing
    fails it gives exactly the verdict of the rules, in their order: not here,
    expired, incomplete, superseded by the newest live version, restored. *)
Theorem DecideRestore_decides now id ns cutoff s :
  idle s -> probe_ok s -> NoDup (r_doc_id <$> documents (data (conn s))) ->
  let d := data (conn s) in
  let '(dec, s') := DecideRestore now id ns cutoff s in
  match dec with
  | kRestored => exists m r,
      r ∈ documents d /\ r_doc_id r = id /\ live r = false /\
      in_window cutoff r /\ complete d r /\ unopposed d r /\
      data (conn s') = restored m now id d
  | _ => data (conn s') = d
  end /\
  (clean s -> verdict cutoff id ns d dec).
Proof.
  intros Hi Hp Hn. cbv zeta.
  pose proof (fun Hc => DecideRestore_verdict now id ns cutoff s Hc Hp Hn) as Hv.
  destruct (DecideRestore now id ns cutoff s) as [dec s'] eqn:E.
  apply DecideRestore_decided in E as [_ Hd]; [|done..]. split; [|done].
  destruct dec; [done| |done]. destruct Hd as (m & r & ? & ? & ? & (? & ? & ?) & ?). by exists m, r.
Qed.
End Decide.

(** ** The sweep, whatever fails *)

(** A document that the sweep may remove. *)
Definition expired_id (cutoff : Z) (d : Db) (id : string) : Prop :=
  exists q, q ∈ documents d /\ deleted_before cutoff q = true /\ r_doc_id q = id.

(** Nothing but expired documents and their blocks has gone. *)
Definition swept (cutoff : Z) (d0 d : Db) : Prop :=
  keeps_except (expired_id cutoff d0) d0 d /\ (forall r, r ∈ documents d -> r ∈ documents d0).

Lemma swept_refl cutoff d : swept cutoff d d.
Proof. split; [apply keeps_except_refl|done]. Qed.

Lemma swept_delete_blocks cutoff d0 id :
  expired_id cutoff d0 id -> preserves (swept cutoff d0) (delete_blocks (of_doc id)).
Proof.
  intros Hid d n d' [Hk Hs] Hd. split; [by eapply keeps_except_blocks|]. by injection Hd as <- <-.
Qed.

Lemma swept_delete_docs cutoff d0 fk id :
  expired_id cutoff d0 id -> preserves (swept cutoff d0) (delete_docs fk (has_doc_id id)).
Proof.
  intros Hid d n d' [Hk Hs] Hd. split; [by eapply keeps_except_docs|].
  revert Hd. unfold delete_docs. destruct (fk && _); [done|]. intros [= _ <-] r [_ Hr]%list_elem_of_filter.
  by apply Hs.
Qed.
#[export] Hint Resolve swept_delete_blocks swept_delete_docs : keeps.

Section Sweep.
Context `{Planner} {V B : Type} `{IIndex V} `{CortrixBlobStore B}.

Lemma inv_signals I0 id s : inv I0 s -> inv I0 (LoadBlockScoreSignalsLocked id s).2.
Proof.
  intros Hi. unfold LoadBlockScoreSignalsLocked.
  assert (inv I0 (EnsureScoreColumnCacheLocked s)) as Hi1.
  { unfold EnsureScoreColumnCacheLocked, ColumnExists. destruct (score_columns_checked_ s); [done|].
    destruct (on_conn _ s) as [q1 s1] eqn:E1. apply (inv_select I0) in E1; [|done].
    destruct (on_conn _ s1) as [q2 s2] eqn:E2. by apply (inv_select I0) in E2. }
  revert Hi1. generalize (EnsureScoreColumnCacheLocked s) as s1. intros s1 Hi1.
  destruct (negb _ && negb _); [done|].
  destruct (lookup_row _ s1) as [q s2] eqn:E. apply (inv_lookup I0) in E; [|done].
  by destruct q as [[[b|] ?]|].
Qed.

Lemma inv_all_signals I0 bs s : inv I0 s -> inv I0 (all_signals bs s).2.
Proof.
  revert s. induction bs as [|b bs IH]; intros s Hi; [done|]. simpl. unfold with_signals.
  pose proof (inv_signals I0 (block_id b) s Hi) as Hi1.
  destruct (LoadBlockScoreSignalsLocked _ s) as [[e m] s1]. simpl in Hi1.
  specialize (IH s1 Hi1). by destruct (all_signals bs s1).
Qed.

Lemma inv_get_by_doc I0 id s : inv I0 s -> inv I0 (block_get_by_doc id s).2.
Proof.
  intros Hi. unfold block_get_by_doc. inv_step; [done|]. inv_step.
  match goal with |- context [match ?q with None => _ | Some _ => _ end] => destruct q as [[rs b]|] end; [|done].
  match goal with Hi : inv I0 ?s |- context [all_signals ?bs ?s] =>
    pose proof (inv_all_signals I0 bs s Hi); by destruct (all_signals bs s) end.
Qed.

Lemma hard_delete_swept cutoff d0 ns id (u : Unit) :
  expired_id cutoff d0 id -> inv (swept cutoff d0) (u_store u) ->
  inv (swept cutoff d0) (u_store (hard_delete ns id u).2).
Proof.
  intros Hid Hi. unfold hard_delete. pose proof (inv_get_by_doc _ id _ Hi) as H1'.
  destruct (block_get_by_doc id (u_store u)) as [[? bs] s1]. simpl in H1'.
  assert (inv (swept cutoff d0) (block_delete_by_doc id s1).2) as H2'.
  { unfold block_delete_by_doc. inv_run. }
  destruct (block_delete_by_doc id s1) as [? s2]. simpl in H2'.
  assert (inv (swept cutoff d0) (doc_delete id s2).2) as H3'.
  { unfold doc_delete. repeat (inv_step || case_match || simpl; try done). }
  by destruct (doc_delete id s2).
Qed.

Lemma listed I0 cutoff s rc docs s' :
  doc_list_deleted_before cutoff s = (rc, docs, s') -> inv I0 s ->
  inv I0 s' /\ forall doc, doc ∈ docs -> expired_id cutoff (data (conn s)) (doc_id doc).
Proof.
  unfold doc_list_deleted_before, doc_list. intros Hl Hi.
  destruct (TryConsumeOpFault s) as [f s1] eqn:Hf. pose proof (fault_keeps _ _ _ Hf) as [Hd _].
  apply (inv_fault I0) in Hf; [|done]. destruct f; [simplify_eq/=; split; [done|]; by intros ? ?%not_elem_of_nil|].
  destruct (on_conn _ s1) as [q s2] eqn:Hq. pose proof Hq as Hq'. apply (inv_select I0) in Hq; [|done].
  unfold on_conn in Hq'. destruct (select _ (conn s1)) as [q1 c1] eqn:Hc. simplify_eq/=.
  apply select_cases in Hc as [_ Hr].
  destruct q as [[l b]|]; simplify_eq/=; (split; [done|]); [|by intros ? ?%not_elem_of_nil].
  intros doc (r & -> & Hin)%list_elem_of_fmap.
  assert (r ∈ scan (docs_where (deleted_before cutoff) (data (conn s1)))) as Hin'.
  { destruct b; [by destruct Hr as [<- _]|destruct Hr as [k ->]]. eapply elem_of_sublist; [exact Hin|apply sublist_take]. }
  rewrite scan_perm, Hd in Hin'. apply list_elem_of_filter in Hin' as [? ?]. by exists r.
Qed.

(** What a sweep keeps: all that is not expired, and everything on a dry run. *)
Definition kept (dry : bool) (cutoff : Z) (d0 d : Db) : Prop :=
  swept cutoff d0 d /\ (dry = true -> d = d0).

Lemma kept_expired dry cutoff d0 d id : kept dry cutoff d0 d -> expired_id cutoff d id -> expired_id cutoff d0 id.
Proof. intros [[_ Hs] _] (q & Hq & ? & ?). exists q. auto. Qed.

Lemma sweep_docs_kept config cutoff d0 ns expired report (u : Unit) :
  let dry := dry_run config in
  (forall doc, doc ∈ expired -> expired_id cutoff d0 (doc_id doc)) ->
  inv (kept dry cutoff d0) (u_store u) ->
  let '(report', u') := sweep_docs config ns expired report u in
  inv (kept dry cutoff d0) (u_store u') /\
  docs_hard_deleted report' <= Z.max (docs_hard_deleted report) (max_purge_per_run config).
Proof.
  cbv zeta. revert report u. induction expired as [|doc expired IH]; intros report u He Hi; simpl.
  { split; [done|lia]. }
  destruct (Z.leb_spec (max_purge_per_run config) (docs_hard_deleted report)); simpl; [split; [done|lia]|].
  assert (forall doc, doc ∈ expired -> expired_id cutoff d0 (doc_id doc)) as He' by set_solver.
  destruct (dry_run config) eqn:Hdry.
  - specialize (IH (report <| docs_hard_deleted := docs_hard_deleted report + 1 |>) u He' Hi).
    destruct (sweep_docs config ns expired _ u). simpl in IH. split; [tauto|]. destruct IH. lia.
  - pose proof (hard_delete_swept cutoff d0 ns (doc_id doc) u (He doc (list_elem_of_here _ _))) as Hh.
    destruct (hard_delete ns (doc_id doc) u) as [bs u1]. simpl in Hh.
    assert (inv (kept false cutoff d0) (u_store u1)) as Hi1.
    { destruct Hh as [Ha Hb]; [by destruct Hi as [[] []]|]. by split; split. }
    specialize (IH (MkSweepReport (docs_hard_deleted report + 1) (blocks_deleted report + len bs)
      (blobs_deleted report + 1) (hit_run_cap report)) u1 He' Hi1).
    destruct (sweep_docs config ns expired _ u1). simpl in IH. split; [tauto|]. destruct IH. lia.
Qed.

(** The databases of all namespaces against what they were. *)
Definition all_kept (dry : bool) (cutoff : Z) (units0 units : gmap string (@Unit V B)) : Prop :=
  forall ns u0, units0 !! ns = Some u0 -> exists u, units !! ns = Some u /\
    kept dry cutoff (committed (conn (u_store u0))) (committed (conn (u_store u))).

Lemma sweep_namespaces_kept config up cutoff units0 ns_list report units :
  (forall ns, is_Some (units !! ns) -> is_Some (units0 !! ns)) ->
  all_kept (dry_run config) cutoff units0 units ->
  let '(report', units') := sweep_namespaces config up cutoff ns_list report units in
  all_kept (dry_run config) cutoff units0 units' /\
  docs_hard_deleted report' <= Z.max (docs_hard_deleted report) (max_purge_per_run config).
Proof.
  revert report units. induction ns_list as [|ns ns_list IH]; intros report units Hdom Hk; simpl.
  { split; [done|lia]. }
  destruct (Z.leb_spec (max_purge_per_run config) (docs_hard_deleted report)); simpl; [split; [done|lia]|].
  destruct (Acquire up ns units) as [u|] eqn:Ha; [|by apply IH].
  unfold Acquire in Ha. destruct (up ns); [|done]. apply fmap_Some in Ha as (u1 & Hu1 & ->).
  destruct (Hdom ns) as [u0 Hu0]; [by exists u1|].
  destruct (Hk ns u0 Hu0) as (u1' & Hu1' & Hku). rewrite Hu1 in Hu1'. injection Hu1' as <-.
  set (d0 := committed (conn (u_store u0))) in *.
  assert (inv (kept (dry_run config) cutoff d0) (reopened (u_store u1))) as Hi by done.
  destruct (doc_list_deleted_before cutoff _) as [[rc expired] s1] eqn:Hl.
  apply (listed (kept (dry_run config) cutoff d0)) in Hl as [Hi1 He]; [|done].
  assert (forall doc, doc ∈ expired -> expired_id cutoff d0 (doc_id doc)) as He0.
  { intros doc Hdoc. eapply kept_expired; [exact Hku|]. by apply He. }
  match goal with |- context [if negb (rc =? 0) then (report, ?u) else _] => set (u2 := u) end.
  assert (exists report' u', (if negb (rc =? 0) then (report, u2) else sweep_docs config ns expired report u2)
    = (report', u') /\ inv (kept (dry_run config) cutoff d0) (u_store u') /\
    docs_hard_deleted report' <= Z.max (docs_hard_deleted report) (max_purge_per_run config))
    as (report' & u' & -> & Hi' & Hr').
  { destruct (negb (rc =? 0)); [exists report, u2; split; [done|]; split; [done|lia]|].
    pose proof (sweep_docs_kept config cutoff d0 ns expired report u2 He0 Hi1) as Hs.
    destruct (sweep_docs config ns expired report u2) as [report' u']. by exists report', u'. }
  specialize (IH report' (<[ns:=u']> units)). destruct (sweep_namespaces _ _ _ ns_list report' _).
  destruct IH as [IH1 IH2]; [| |split; [done|lia]].
  - intros ns'. rewrite lookup_insert_is_Some'. intros [<-|Hx]; [by exists u0|by apply Hdom].
  - intros ns' u0' Hu0'. destruct (decide (ns = ns')) as [<-|Hne].
    + exists u'. rewrite lookup_insert_eq. split; [done|]. rewrite Hu0 in Hu0'. injection Hu0' as <-.
      by destruct Hi'.
    + rewrite lookup_insert_ne by done. by apply Hk.
Qed.

(** *** When nothing fails *)

Definition same_data (s s' : CortrixStoreSqlite) : Prop := clean s' /\ data (conn s') = data (conn s).

Lemma clean_signals_same id s : clean s -> same_data s (LoadBlockScoreSignalsLocked id s).2.
Proof.
  intros Hc. unfold LoadBlockScoreSignalsLocked.
  assert (same_data s (EnsureScoreColumnCacheLocked s)) as [Hc1 Hd].
  { unfold EnsureScoreColumnCacheLocked, ColumnExists. destruct (score_columns_checked_ s); [done|].
    rewrite clean_select by done. by rewrite clean_select. }
  destruct (negb _ && negb _); [done|]. rewrite clean_lookup by done.
  by destruct (blocks_where _ _).
Qed.

Lemma clean_all_signals bs s :
  clean s -> let '(bs', s') := all_signals bs s in same_data s s' /\ block_id <$> bs' = block_id <$> bs.
Proof.
  revert s. induction bs as [|b bs IH]; intros s Hc; [done|]. simpl. unfold with_signals.
  destruct (clean_signals_same (block_id b) s Hc) as [Hc1 Hd1].
  destruct (LoadBlockScoreSignalsLocked _ s) as [[e m] s1]. simpl in *.
  specialize (IH s1 Hc1). destruct (all_signals bs s1) as [bs' s2]. destruct IH as [[Hc2 Hd2] Hb].
  split; [split; [done|congruence]|]. rewrite fmap_cons, Hb. done.
Qed.

Lemma clean_get_by_doc id s :
  clean s -> let '(_, bs, s') := block_get_by_doc id s in
  same_data s s' /\
  block_id <$> bs ≡ₚ (fun b => FromSqliteInt (b_block_id b)) <$> blocks_where (of_doc id) (data (conn s)).
Proof.
  intros Hc. unfold block_get_by_doc. rewrite clean_fault, clean_select by done.
  match goal with |- context [all_signals ?bs ?s] =>
    pose proof (clean_all_signals bs s Hc) as Ha; destruct (all_signals bs s) as [bs' s'] end.
  destruct Ha as [Hs Hb]. split; [done|]. rewrite Hb, <- list_fmap_compose.
  rewrite order_by_perm. done.
Qed.

Lemma clean_doc_delete id s :
  clean s -> let '(_, s') := doc_delete id s in
  clean s' /\
  documents (data (conn s')) = filter (fun r => r_doc_id r <> id) (documents (data (conn s))) /\
  blocks (data (conn s')) = filter (fun b => b_doc_id b <> id) (blocks (data (conn s))).
Proof.
  intros Hc. unfold doc_delete. rewrite clean_fault by done.
  set (d := data (conn s)). destruct (delete_blocks (of_doc id) d) as [[k d1]|] eqn:Hd1; [|done].
  assert (documents d1 = documents d /\ blocks d1 = filter (fun b => b_doc_id b <> id) (blocks d)) as [Hdoc1 Hb1].
  { injection Hd1 as _ <-. split; [done|]. apply filter_ext_in. intros b _. unfold of_doc.
    by rewrite bool_decide_eq_false. }
  destruct (delete_doc_unreferenced (foreign_keys s) id d1) as [n Hn].
  { intros b Hb. rewrite Hb1 in Hb. by apply list_elem_of_filter in Hb as [? _]. }
  destruct s as [[d0 sv os] f c1 c2 c3 c4 fk g]. destruct Hc as (Hs & Ho & Hf).
  cbn in Hs, Ho, Hf, d, Hn. subst sv os d.
  unfold on_conn, BEGIN, change, COMMIT, next_outcome, in_transaction.
  cbn -[delete_blocks delete_docs]. rewrite Hd1. cbn -[delete_docs]. rewrite Hn. cbn.
  destruct (n =? 0); (split; [done|]); (split; [|done]); rewrite Hdoc1; apply filter_ext_in;
    intros r _; unfold has_doc_id; by rewrite bool_decide_eq_false.
Qed.

(** One document: its rows, the marks on its vectors, and its file. *)
Lemma clean_hard_delete ns id (u : Unit) :
  clean (u_store u) ->
  let d := data (conn (u_store u)) in
  let '(bs, u') := hard_delete ns id u in
  let d' := data (conn (u_store u')) in
  clean (u_store u') /\
  documents d' = filter (fun r => r_doc_id r <> id) (documents d) /\
  blocks d' = filter (fun b => b_doc_id b <> id) (blocks d) /\
  block_id <$> bs ≡ₚ (fun b => FromSqliteInt (b_block_id b)) <$> blocks_where (of_doc id) d /\
  u_index u' = foldl (fun i b => MarkDelete b i) (u_index u) (block_id <$> bs) /\
  u_blob u' = blob_del ns id (u_blob u).
Proof.
  intros Hc. cbv zeta. unfold hard_delete. pose proof (clean_get_by_doc id (u_store u) Hc) as Hb.
  destruct (block_get_by_doc id (u_store u)) as [[rc bs] s1]. destruct Hb as [[Hc1 Hd1] Hb].
  unfold block_delete_by_doc. rewrite clean_fault by done.
  rewrite (clean_change (delete_blocks (of_doc id)) s1 _ _ Hc1 eq_refl). cbn [finished].
  match goal with |- context [set_data s1 ?x] => set (d1 := x) end.
  pose proof (clean_doc_delete id (set_data s1 d1) Hc1) as Hdel.
  destruct (doc_delete id (set_data s1 d1)) as [rc3 s3]. destruct Hdel as (Hc3 & Hdoc3 & Hb3).
  change (data (conn (set_data s1 d1))) with d1 in *. simpl. rewrite Hdoc3, Hb3, <- Hd1. simpl.
  split; [done|]. split; [done|]. split; [|split; [by rewrite <- Hd1 in Hb|split; [|done]]].
  - rewrite list_filter_filter_l; [done|]. intros b Hne. unfold of_doc. by rewrite bool_decide_eq_false.
  - clear. revert u. induction bs as [|b bs IH]; intros u; [done|]. simpl.
    exact (IH (MkUnit (u_store u) (MarkDelete (block_id b) (u_index u)) (u_blob u))).
Qed.

Lemma filter_split_perm {A} (P Q : A -> Prop) `{!forall x, Decision (P x)} `{!forall x, Decision (Q x)}
    (l : list A) :
  filter P l ++ filter Q (filter (fun x => ~ P x) l) ≡ₚ filter (fun x => P x \/ Q x) l.
Proof.
  induction l as [|x l IH]; [done|]. rewrite !filter_cons.
  destruct (decide (P x)) as [HP|HP].
  - rewrite decide_False by tauto. rewrite decide_True by tauto. simpl. by rewrite IH.
  - rewrite decide_True by done. rewrite filter_cons.
    destruct (decide (Q x)) as [HQ|HQ].
    + rewrite decide_True by tauto. rewrite <- Permutation_middle. by rewrite IH.
    + rewrite decide_False by tauto. done.
Qed.

Definition block_ids_of (ids : list string) (d : Db) : list Z :=
  (fun b => FromSqliteInt (b_block_id b)) <$> filter (fun b => b_doc_id b ∈ ids) (blocks d).

Lemma clean_sweep_docs config ns expired report (u : Unit) :
  dry_run config = false -> clean (u_store u) ->
  docs_hard_deleted report + len expired <= max_purge_per_run config ->
  let d := data (conn (u_store u)) in
  let '(report', u') := sweep_docs config ns expired report u in
  let d' := data (conn (u_store u')) in
  let gone := doc_id <$> expired in
  clean (u_store u') /\
  documents d' = filter (fun r => r_doc_id r ∉ gone) (documents d) /\
  blocks d' = filter (fun b => b_doc_id b ∉ gone) (blocks d) /\
  (exists ids, ids ≡ₚ block_ids_of gone d /\ u_index u' = foldl (fun i b => MarkDelete b i) (u_index u) ids /\
     report' = MkSweepReport (docs_hard_deleted report + len gone) (blocks_deleted report + len ids)
                 (blobs_deleted report + len gone) (hit_run_cap report)) /\
  u_blob u' = foldl (fun b id => blob_del ns id b) (u_blob u) gone.
Proof.
  intros Hdry. cbv zeta. revert report u. induction expired as [|doc expired IH]; intros report u Hc Hcap; simpl.
  { split; [done|]. split; [|split; [|split; [|done]]].
    1,2: symmetry; apply filter_id, Forall_forall; intros ? _; apply not_elem_of_nil.
    exists []. unfold block_ids_of. rewrite filter_none; [|apply Forall_forall; intros ? _; apply not_elem_of_nil].
    rewrite !len_nil, !Z.add_0_r. by destruct report. }
  rewrite len_cons in Hcap. pose proof (len_nonneg expired).
  rewrite (proj2 (Z.leb_gt _ _)), Hdry by lia.
  pose proof (clean_hard_delete ns (doc_id doc) u Hc) as Hh. cbv zeta in Hh.
  destruct (hard_delete ns (doc_id doc) u) as [bs u1]. destruct Hh as (Hc1 & Hdoc1 & Hb1 & Hbs & Hix1 & Hbl1).
  set (report1 := MkSweepReport _ _ _ _).
  specialize (IH report1 u1 Hc1). simpl in IH. destruct (sweep_docs config ns expired report1 u1) as [report' u'].
  destruct IH as (Hc' & Hdoc' & Hb' & (ids & Hids & Hix' & ->) & Hbl'); [lia|].
  split; [done|]. split; [|split; [|split]].
  - rewrite Hdoc', Hdoc1, list_filter_filter. apply list_filter_iff. intros r. rewrite elem_of_cons. tauto.
  - rewrite Hb', Hb1, list_filter_filter. apply list_filter_iff. intros r. rewrite elem_of_cons. tauto.
  - exists ((block_id <$> bs) ++ ids). split; [|split].
    + rewrite Hbs, Hids. unfold block_ids_of, blocks_where. rewrite Hb1, <- fmap_app.
      apply fmap_Permutation. rewrite (filter_ext_in (fun b => of_doc (doc_id doc) b = true)
        (fun b => b_doc_id b = doc_id doc)) by (intros b _; unfold of_doc; by rewrite bool_decide_eq_true).
      rewrite (filter_split_perm (fun b => b_doc_id b = doc_id doc)).
      apply reflexive_eq, filter_ext_in. intros b _. by rewrite elem_of_cons.
    + by rewrite foldl_app, Hix', Hix1.
    + unfold report1. simpl. change (list_fmap CortrixDoc string doc_id expired) with (doc_id <$> expired).
      rewrite len_app, len_cons, !len_fmap. f_equal; lia.
  - by rewrite Hbl', Hbl1.
Qed.

End Sweep.

(** ** Concrete runs *)

Module GcRuns.
(** An index and a blob store that remember their calls. *)
#[local] Instance marks : IIndex (list Z) := fun id l => id :: l.
#[local] Instance files : CortrixBlobStore (list string) := fun ns id l => id :: l.
#[local] Existing Instance insertion_planner.

(** "B" of [store3], with its block, published at 4000 and soft-deleted at 5000. *)
Definition deleted_doc : CortrixStoreSqlite := Eval vm_compute in
  (doc_soft_delete 5000 "B" 5000 (doc_publish_version 4000 "B" 4000 store3).2).2.

Definition units (os : list sql_outcome) : gmap string (@Unit (list Z) (list string)) :=
  {["ns"%string := MkUnit (deleted_doc <| conn := conn deleted_doc <| outcomes := os |> |>) [] []]}.

Definition config := MkGcConfig 30 100 false.
Definition purge (os : list sql_outcome) :=
  Purge config 6000 (fun _ => true) (inr ["ns"%string]) (units os).

(** The purge reports a document it could not delete; its blocks and its file are
    gone, and a restore brings it back as ready, with no content. *)
Lemma Purge_failure_leaves_empty_document :
  let '(res, us) := purge [SqlOk; SqlOk; SqlOk; SqlOk; SqlOk; SqlStepErr 0] in
  let '(back, us') := Restore config 6000 (fun _ => true) (inr ["ns"%string]) ["B"%string] us in
  res = inr (MkSweepReport 1 1 1 false) /\ back = inr (MkRestoreOutcome ["B"%string] []) /\
  (fun u => (r_status <$> documents (data (conn (u_store u))), blocks (data (conn (u_store u))), u_blob u))
    <$> us' !! "ns"%string = Some (["ready"; "pending"; "pending"]%string, [], ["B"%string]).
Proof. vm_compute. done. Qed.

(** The blocks could not be read: the document is deleted, its vector is not. *)
Lemma Purge_failure_leaves_vector :
  let '(res, us) := purge [SqlOk; SqlPrepareErr] in
  res = inr (MkSweepReport 1 0 1 false) /\
  (fun u => (r_doc_id <$> documents (data (conn (u_store u))), blocks (data (conn (u_store u))), u_index u))
    <$> us !! "ns"%string = Some (["C"; "D"]%string, [], []).
Proof. vm_compute. done. Qed.

(** A read that fails looks like a document that is not there. *)
Lemma Restore_read_failure_not_here :
  (DecideRestore 6000 "B" "ns" 0
     (deleted_doc <| conn := conn deleted_doc <| outcomes := [SqlStepErr 0] |> |>)).1 = kNotHere /\
  (DecideRestore 6000 "B" "ns" 0 deleted_doc).1 = kRestored.
Proof. vm_compute. done. Qed.
End GcRuns.

Lemma DecideRestore_decides_witness :
  let '(dec, s') := DecideRestore (H := insertion_planner) 6000 "B" "ns" 0 GcRuns.deleted_doc in
  dec = kRestored /\ exists m, data (conn s') = restored m 6000 "B" (data (conn GcRuns.deleted_doc)).
Proof.
  pose proof (DecideRestore_decides (H := insertion_planner) 6000 "B" "ns" 0 GcRuns.deleted_doc) as P.
  cbv zeta in P.
  assert ((DecideRestore (H := insertion_planner) 6000 "B" "ns" 0 GcRuns.deleted_doc).1 = kRestored) as Hk
    by (vm_compute; reflexivity).
  destruct (DecideRestore (H := insertion_planner) 6000 "B" "ns" 0 GcRuns.deleted_doc) as [dec s'].
  simpl in Hk. subst dec. split; [reflexivity|].
  destruct P as [(m & r & _ & _ & _ & _ & _ & _ & P) _].
  - reflexivity.
  - intros b Hb. vm_compute in Hb. injection Hb as <-. vm_compute. reflexivity.
  - apply (bool_decide_eq_true_1 _). vm_compute. reflexivity.
  - exists m. exact P.
Defined.

