(* ===== verification/RecursiveChunker.v ===== *)
(** * Recursive text splitting (src/spc/recursive_chunker.cpp)

    A text is a list of bytes (0 to 255).  [SplitRecursive] goes down a list of
    separators until every piece is small enough, and cuts hard when there is
    none left; [Chunk] records offsets and puts the end of the previous chunk
    in front of each chunk.  Token counts and positions are the code's [int] and
    [size_t] values; they are exact for texts below 2^31 bytes. *)
From S2P Require Import Prelude.

Module RecursiveChunker.

Record ChunkResult := MkChunkResult {
  text : bytes;
  chunk_index : Z;
  start_offset : Z;
  end_offset : Z;
  token_count_approx : Z
}.

#[export] Instance ChunkResult_eta : Eta ChunkResult := fun c =>
  MkChunkResult (text c) (chunk_index c) (start_offset c) (end_offset c) (token_count_approx c).

Record ChunkConfig := MkChunkConfig {
  chunk_size : Z;
  chunk_overlap : Z;
  separators : list bytes
}.

(** The default member initialisers. *)
Definition default_separators : list bytes :=
  [[12]; [10; 10]; [10]; [227; 128; 130]; [46]; [239; 188; 129]; [239; 188; 159]; [33]; [63];
   [239; 188; 155]; [59]; [32]; []].

(** ** Token counts *)

Definition is_blank (c : Z) : bool := bool_decide (c ∈ [32; 10; 9; 13]).
Definition in_word (c : Z) : bool := (c <? 128) && negb (is_blank c).

(** The inner loop over an ASCII word: what it reads and what is left. *)
Fixpoint take_word (l : bytes) : bytes * bytes :=
  match l with
  | c :: l' => if in_word c then let '(w, rest) := take_word l' in (c :: w, rest) else ([], l)
  | [] => ([], [])
  end.

(** How far the scan advances over a multi-byte character. *)
Definition advance (c : Z) : nat := if 240 <=? c then 4 else if 224 <=? c then 3 else 2.

Fixpoint count_tokens (fuel : nat) (l : bytes) : Z :=
  match fuel, l with
  | S fuel, c :: l' =>
      if c <? 128 then
        if is_blank c then count_tokens fuel l'
        else let '(w, rest) := take_word l in Z.max 1 ((len w + 2) / 3) + count_tokens fuel rest
      else (if 224 <=? c then 2 else 1) + count_tokens fuel (drop (advance c) l)
  | _, _ => 0
  end.

Definition ApproxTokenCount (t : bytes) : Z :=
  match t with [] => 0 | _ => Z.max 1 (count_tokens (length t) t) end.

(** ** Boundaries and pieces *)

Definition is_continuation (c : Z) : bool := Z.land c 192 =? 128.

(** The loop of [Utf8SafeBoundary], at a position inside the text. *)
Fixpoint back_up (t : bytes) (pos : nat) : nat :=
  match pos with
  | O => O
  | S p => if is_continuation (default 0 (t !! pos)) then back_up t p else pos
  end.

Definition Utf8SafeBoundary (t : bytes) (pos : nat) : nat :=
  if (length t <=? pos)%nat then length t else back_up t pos.

Definition substr (t : bytes) (pos n : nat) : bytes := take n (drop pos t).

(** The length of the character that starts with [c], in the splitting by
    characters. *)
Definition char_len (c : Z) : nat :=
  if 240 <=? c then 4 else if 224 <=? c then 3 else if 192 <=? c then 2 else 1.

Fixpoint split_chars (fuel : nat) (l : bytes) : list bytes :=
  match fuel, l with
  | S fuel, c :: _ => take (char_len c) l :: split_chars fuel (drop (char_len c) l)
  | _, _ => []
  end.

Definition starts_with (sep l : bytes) : bool := bool_decide (take (length sep) l = sep).

(** [text.find(sep)]. *)
Fixpoint find (sep l : bytes) : option nat :=
  if starts_with sep l then Some O
  else match l with [] => None | _ :: l => S <$> find sep l end.

(** [text.find(sep, start)]. *)
Definition find_from (sep l : bytes) (start : nat) : option nat :=
  if (length l <? start)%nat then None else (fun i => (start + i)%nat) <$> find sep (drop start l).

Fixpoint split_at (fuel : nat) (sep l : bytes) : list bytes :=
  match fuel with
  | S fuel =>
      match find sep l with
      | Some i => take i l :: split_at fuel sep (drop (i + length sep) l)
      | None => [l]
      end
  | O => [l]
  end.

Definition SplitBySeparator (t sep : bytes) : list bytes :=
  match sep with [] => split_chars (length t) t | _ => split_at (length t) sep t end.

(** The loop of [MergePieces], with the piece that is being built. *)
Fixpoint merge_from (chunk_size : Z) (sep current : bytes) (pieces : list bytes) : list bytes :=
  match pieces with
  | [] => match current with [] => [] | _ => [current] end
  | [] :: pieces => merge_from chunk_size sep current pieces
  | piece :: pieces =>
      let candidate := match current with [] => piece | _ => current ++ sep ++ piece end in
      if ApproxTokenCount candidate <=? chunk_size
      then merge_from chunk_size sep candidate pieces
      else match current with
           | [] => merge_from chunk_size sep piece pieces
           | _ => current :: merge_from chunk_size sep piece pieces
           end
  end.

Definition MergePieces (pieces : list bytes) (sep : bytes) (chunk_size : Z) : list bytes :=
  merge_from chunk_size sep [] pieces.

(** ** The hard cut *)

(** The inner loop: the end of the chunk and the chunk.  The [break] leaves the
    chunk as it was. *)
Fixpoint shrink (fuel : nat) (chunk_size : Z) (t : bytes) (pos end_ : nat) (chunk : bytes)
    : nat * bytes :=
  match fuel with
  | S fuel =>
      if (chunk_size <? ApproxTokenCount chunk) && (1 <? length chunk)%nat then
        let end' := Utf8SafeBoundary t (pos + (end_ - pos) * 3 / 4) in
        if (end' <=? pos)%nat then (S pos, chunk)
        else shrink fuel chunk_size t pos end' (substr t pos (end' - pos))
      else (end_, chunk)
  | O => (end_, chunk)
  end.

(** Where the chunk at [pos] ends, and the chunk. *)
Definition cut_at (chunk_size : Z) (t : bytes) (pos : nat) : nat * bytes :=
  let end_ := Nat.min (pos + Z.to_nat chunk_size * 3) (length t) in
  let end_ := Utf8SafeBoundary t end_ in
  let end_ := if (end_ <=? pos)%nat then S pos else end_ in
  shrink (length t) chunk_size t pos end_ (substr t pos (end_ - pos)).

Definition plain (t : bytes) : ChunkResult := MkChunkResult t 0 0 0 (ApproxTokenCount t).

Fixpoint hard_cut (fuel : nat) (chunk_size : Z) (t : bytes) (pos : nat) : list ChunkResult :=
  match fuel with
  | S fuel =>
      if (pos <? length t)%nat then
        let '(end_, chunk) := cut_at chunk_size t pos in
        plain chunk :: hard_cut fuel chunk_size t end_
      else []
  | O => []
  end.

(** ** The recursion over the separators *)

Fixpoint split_recursive (chunk_size : Z) (seps : list bytes) (t : bytes) : list ChunkResult :=
  match t with
  | [] => []
  | _ =>
      if ApproxTokenCount t <=? chunk_size then [plain t]
      else match seps with
           | [] => hard_cut (length t) chunk_size t 0
           | sep :: seps =>
               mjoin ((fun piece =>
                 if chunk_size <? ApproxTokenCount piece then split_recursive chunk_size seps piece
                 else [plain piece]) <$> MergePieces (SplitBySeparator t sep) sep chunk_size)
           end
  end.

Definition SplitRecursive (config : ChunkConfig) (t : bytes) (depth : nat) : list ChunkResult :=
  split_recursive (chunk_size config) (drop depth (separators config)) t.

(** ** Offsets and overlap *)

Fixpoint locate (t : bytes) (search_from : nat) (idx : Z) (chunks : list ChunkResult)
    : list ChunkResult :=
  match chunks with
  | [] => []
  | c :: chunks =>
      let pos := default search_from (find_from (text c) t search_from) in
      c <| chunk_index := idx |> <| start_offset := Z.of_nat pos |>
        <| end_offset := Z.of_nat pos + len (text c) |>
      :: locate t (S pos) (idx + 1) chunks
  end.

(** The walk backwards from the end of the previous chunk. *)
Fixpoint walk_back (fuel : nat) (overlap : Z) (prev : bytes) (pos : nat) (overlap_tokens : Z) : nat :=
  match fuel with
  | S fuel =>
      if (0 <? pos)%nat && (overlap_tokens <? overlap) then
        let pos := Utf8SafeBoundary prev (pos - 1) in
        walk_back fuel overlap prev pos (ApproxTokenCount (drop pos prev))
      else pos
  | O => pos
  end.

Definition overlap_start (overlap : Z) (prev : bytes) : nat :=
  walk_back (length prev) overlap prev (length prev) 0.

(** One turn of the loop: [prev] is the previous chunk as it is by then. *)
Definition prepend (overlap : Z) (prev c : ChunkResult) : ChunkResult :=
  let pos := overlap_start overlap (text prev) in
  let overlap_bytes := (length (text prev) - pos)%nat in
  if (0 <? overlap_bytes)%nat && (overlap_bytes <? length (text prev))%nat then
    let t := drop pos (text prev) ++ text c in
    c <| text := t |> <| start_offset := Z.max 0 (start_offset c - Z.of_nat overlap_bytes) |>
      <| token_count_approx := ApproxTokenCount t |>
  else c.

Fixpoint overlap_from (overlap : Z) (prev : ChunkResult) (chunks : list ChunkResult)
    : list ChunkResult :=
  match chunks with
  | [] => []
  | c :: chunks => let c := prepend overlap prev c in c :: overlap_from overlap c chunks
  end.

Definition Chunk (config : ChunkConfig) (t : bytes) : list ChunkResult :=
  match locate t 0 0 (SplitRecursive config t 0) with
  | [] => []
  | c :: chunks =>
      if 0 <? chunk_overlap config then c :: overlap_from (chunk_overlap config) c chunks
      else c :: chunks
  end.

End RecursiveChunker.
