(* ===== verification/RecursiveChunkerTheory.v ===== *)
(** * What the splitting keeps

    The chunks of a text are small enough and lose nothing but separators; the
    loops of the hard cut end; the overlap only puts the end of the previous
    chunk in front. *)
From S2P Require Import Prelude RecursiveChunker.
Import RecursiveChunker.

(** ** Deleting separators *)

Definition erase_step (seps : list bytes) (l l' : bytes) : Prop :=
  exists a sep b, sep ∈ seps /\ l = a ++ sep ++ b /\ l' = a ++ b.

(** [l'] is [l] without some occurrences of separators. *)
Definition erased (seps : list bytes) : bytes -> bytes -> Prop := rtc (erase_step seps).

Lemma erased_cons_context seps a l l' b : erased seps l l' -> erased seps (a ++ l ++ b) (a ++ l' ++ b).
Proof.
  induction 1 as [|l l1 l' (x & sep & y & Hs & -> & ->) _ IH]; [constructor|].
  eapply rtc_l; [|exact IH]. exists (a ++ x), sep, (y ++ b). rewrite <- !app_assoc. done.
Qed.

Lemma erased_app seps l1 l1' l2 l2' :
  erased seps l1 l1' -> erased seps l2 l2' -> erased seps (l1 ++ l2) (l1' ++ l2').
Proof.
  intros H1 H2. etransitivity.
  - exact (erased_cons_context seps [] l1 l1' l2 H1).
  - pose proof (erased_cons_context seps l1' l2 l2' [] H2) as H. by rewrite !app_nil_r in H.
Qed.

Lemma erased_subseteq seps seps' l l' : seps ⊆ seps' -> erased seps l l' -> erased seps' l l'.
Proof.
  intros Hs. induction 1 as [|l l1 l' (x & sep & y & Hin & -> & ->) _ IH]; [constructor|].
  eapply rtc_l; [|exact IH]. exists x, sep, y. split; [by apply Hs|done].
Qed.

Lemma erased_sep seps sep l : sep ∈ seps -> erased seps (sep ++ l) l.
Proof. intros Hs. apply rtc_once. by exists [], sep, l. Qed.

(** Bytes that are in no separator stay, in their order. *)
Lemma erased_keeps seps l l' (P : Z -> Prop) `{!forall x, Decision (P x)} :
  (forall sep x, sep ∈ seps -> x ∈ sep -> ~ P x) -> erased seps l l' -> filter P l' = filter P l.
Proof.
  intros HP. induction 1 as [|l l1 l' (x & sep & y & Hin & -> & ->) _ IH]; [done|].
  rewrite IH, !filter_app, (filter_none P sep); [done|]. apply Forall_forall. eauto.
Qed.

(** ** Splitting at a separator *)

Fixpoint intercalate (sep : bytes) (pieces : list bytes) : bytes :=
  match pieces with
  | [] => []
  | [p] => p
  | p :: ps => p ++ sep ++ intercalate sep ps
  end.

Lemma intercalate_cons sep p ps : ps <> [] -> intercalate sep (p :: ps) = p ++ sep ++ intercalate sep ps.
Proof. by destruct ps. Qed.

Lemma find_split sep l i : find sep l = Some i -> l = take i l ++ sep ++ drop (i + length sep) l.
Proof.
  revert i. induction l as [|x l IH]; intros i; simpl; unfold starts_with.
  - case_bool_decide as Hs; [|done]. intros [= <-]. simpl. rewrite take_nil in Hs. by subst.
  - case_bool_decide as Hs.
    + intros [= <-]. simpl. rewrite <- Hs at 1. by rewrite take_drop.
    + destruct (find sep l) as [j|] eqn:E; [|done]. intros [= <-]. simpl. by rewrite <- IH.
Qed.

Lemma find_bound sep l i : find sep l = Some i -> (i + length sep <= length l)%nat.
Proof.
  revert i. induction l as [|x l IH]; intros i; simpl; unfold starts_with;
    case_bool_decide as Hs; try done.
  - intros [= <-]. rewrite <- Hs, take_nil. simpl. lia.
  - intros [= <-]. rewrite <- Hs, length_take. simpl. lia.
  - destruct (find sep l) as [j|]; [|done]. intros [= <-]. specialize (IH j eq_refl). lia.
Qed.

Lemma split_at_nonempty fuel sep l : split_at fuel sep l <> [].
Proof. destruct fuel; simpl; [done|]. by destruct (find sep l). Qed.

Lemma split_at_join fuel sep l : intercalate sep (split_at fuel sep l) = l.
Proof.
  revert l. induction fuel as [|fuel IH]; intros l; simpl; [done|].
  destruct (find sep l) as [i|] eqn:E; [|done].
  rewrite intercalate_cons by apply split_at_nonempty. rewrite IH. symmetry. by apply find_split.
Qed.

(** The fuel is enough. *)
Lemma split_at_fuel fuel sep l :
  sep <> [] -> (length l <= fuel)%nat -> split_at (S fuel) sep l = split_at fuel sep l.
Proof.
  intros Hs. revert l. induction fuel as [|fuel IH]; intros l Hl.
  - destruct l; [|simpl in Hl; lia]. simpl. unfold starts_with.
    rewrite bool_decide_false; [done|]. rewrite take_nil. congruence.
  - cbn [split_at]. destruct (find sep l) as [i|] eqn:E; [|done]. f_equal.
    pose proof (find_bound _ _ _ E). assert (0 < length sep)%nat by (destruct sep; simpl; [done|lia]).
    apply IH. rewrite length_drop. lia.
Qed.

Lemma char_len_pos c : (0 < char_len c)%nat.
Proof. unfold char_len. repeat case_match; lia. Qed.

Lemma split_chars_fuel fuel l :
  (length l <= fuel)%nat -> split_chars (S fuel) l = split_chars fuel l.
Proof.
  revert l. induction fuel as [|fuel IH]; intros l Hl; [by destruct l; simpl in *; [|lia]|].
  cbn [split_chars]. destruct l as [|c l]; [done|]. f_equal. apply IH. rewrite length_drop.
  pose proof (char_len_pos c). simpl in *. lia.
Qed.

Lemma split_chars_join fuel l : (length l <= fuel)%nat -> mjoin (split_chars fuel l) = l.
Proof.
  revert l. induction fuel as [|fuel IH]; intros l Hl; [by destruct l; simpl in *; [|lia]|].
  cbn [split_chars]. destruct l as [|c l]; [done|]. simpl mjoin. rewrite IH; [apply take_drop|].
  rewrite length_drop. pose proof (char_len_pos c). simpl in *. lia.
Qed.

Lemma intercalate_nil pieces : intercalate [] pieces = mjoin pieces.
Proof. induction pieces as [|p [|q ps] IH]; simpl in *; [done|by rewrite app_nil_r|by rewrite <- IH]. Qed.

Lemma SplitBySeparator_join t sep : intercalate sep (SplitBySeparator t sep) = t.
Proof.
  destruct sep as [|x sep]; [|apply split_at_join]. rewrite intercalate_nil. by apply split_chars_join.
Qed.

(** ** Merging *)

(** What is still to be merged: the current piece, then the rest. *)
Definition pending (sep current : bytes) (pieces : list bytes) : bytes :=
  match pieces with
  | [] => current
  | _ => match current with [] => intercalate sep pieces | _ => current ++ sep ++ intercalate sep pieces end
  end.

Lemma erased_middle sep a b : erased [sep] (a ++ sep ++ b) (a ++ b).
Proof. apply rtc_once. exists a, sep, b. split; [by left|done]. Qed.

Lemma pending_skip sep current pieces : erased [sep] (pending sep current ([] :: pieces)) (pending sep current pieces).
Proof.
  destruct pieces as [|p ps]; simpl; destruct current as [|x current].
  - constructor.
  - pose proof (erased_middle sep (x :: current) []) as H. by rewrite (app_nil_r (x :: current)) in H.
  - apply (erased_middle sep []).
  - apply (erased_middle sep (x :: current)).
Qed.

Lemma pending_take sep current p ps :
  p <> [] ->
  pending sep current (p :: ps) =
  match current with [] => pending sep p ps | _ => current ++ sep ++ pending sep p ps end.
Proof.
  intros Hp. destruct p as [|y p]; [done|].
  destruct ps as [|q ps]; destruct current as [|x current]; simpl; by rewrite ?app_nil_r, <- ?app_assoc.
Qed.

Lemma merge_erased cs sep current pieces :
  erased [sep] (pending sep current pieces) (mjoin (merge_from cs sep current pieces)).
Proof.
  revert current. induction pieces as [|p ps IH]; intros current.
  { simpl. destruct current; simpl; rewrite ?app_nil_r; constructor. }
  destruct p as [|y p]; [etransitivity; [apply pending_skip|apply IH]|].
  rewrite pending_take by done. cbn [merge_from].
  destruct (_ <=? cs); destruct current as [|x current]; [apply IH| |apply IH|].
  - specialize (IH ((x :: current) ++ sep ++ y :: p)).
    assert (pending sep ((x :: current) ++ sep ++ y :: p) ps = (x :: current) ++ sep ++ pending sep (y :: p) ps)
      as Hp by (destruct ps; simpl; by rewrite ?app_nil_r, <- ?app_assoc).
    by rewrite Hp in IH.
  - etransitivity; [apply erased_middle|]. cbn [mjoin list_join]. apply erased_app; [constructor|apply IH].
Qed.

Lemma MergePieces_erased cs sep t : erased [sep] t (mjoin (MergePieces (SplitBySeparator t sep) sep cs)).
Proof.
  pose proof (merge_erased cs sep [] (SplitBySeparator t sep)) as H.
  assert (pending sep [] (SplitBySeparator t sep) = t) as Hp; [|by rewrite Hp in H].
  pose proof (SplitBySeparator_join t sep) as Hj. by destruct (SplitBySeparator t sep).
Qed.

(** Merging keeps pieces small that were small, and none is empty. *)
Lemma merge_small cs sep current pieces p :
  (current = [] \/ ApproxTokenCount current <= cs) -> Forall (fun q => ApproxTokenCount q <= cs) pieces ->
  p ∈ merge_from cs sep current pieces -> ApproxTokenCount p <= cs.
Proof.
  revert current. induction pieces as [|q ps IH]; intros current Hc Hf.
  { simpl. destruct current; [by intros ?%not_elem_of_nil|]. intros ->%list_elem_of_singleton.
    by destruct Hc. }
  apply Forall_cons in Hf as [Hq Hf]. destruct q as [|y q]; [by apply IH|]. cbn [merge_from].
  destruct (Z.leb_spec (ApproxTokenCount (match current with [] => y :: q | _ => current ++ sep ++ y :: q end)) cs).
  - apply IH; auto.
  - destruct current as [|x current]; [apply IH; auto|]. rewrite elem_of_cons. intros [->|Hp].
    + by destruct Hc.
    + revert Hp. apply IH; auto.
Qed.

Lemma merge_nonempty cs sep current pieces p : p ∈ merge_from cs sep current pieces -> p <> [].
Proof.
  revert current. induction pieces as [|q ps IH]; intros current.
  { simpl. destruct current; [by intros ?%not_elem_of_nil|]. by intros ->%list_elem_of_singleton. }
  destruct q as [|y q]; [by apply IH|]. cbn [merge_from].
  destruct (_ <=? cs); [apply IH|]. destruct current as [|x current]; [apply IH|].
  rewrite elem_of_cons. intros [->|Hp]; [done|by eapply IH].
Qed.

(** ** Small pieces *)

Lemma ApproxTokenCount_pos t : t <> [] -> 1 <= ApproxTokenCount t.
Proof. destruct t; [done|]. unfold ApproxTokenCount. lia. Qed.

Lemma count_tokens_nil fuel : count_tokens fuel [] = 0.
Proof. by destruct fuel. Qed.

(** A character counts at most two tokens. *)
Lemma char_tokens c l : ApproxTokenCount (take (char_len c) (c :: l)) <= 2.
Proof.
  destruct (char_len c) as [|n] eqn:En; [pose proof (char_len_pos c); lia|].
  cbn [take ApproxTokenCount]. apply Z.max_lub; [lia|]. cbn [length count_tokens].
  unfold char_len in En. destruct (Z.ltb_spec c 128) as [Hc|Hc].
  - assert (n = 0%nat) as -> by (repeat case_match; lia). simpl. unfold in_word.
    rewrite (proj2 (Z.ltb_lt c 128)) by done.
    destruct (is_blank c); simpl; [lia|]. vm_compute. congruence.
  - rewrite drop_ge; [rewrite count_tokens_nil; clear En; case_match; lia|].
    cbn [length]. rewrite length_take. unfold advance.
    destruct (Z.leb_spec 240 c), (Z.leb_spec 224 c), (Z.leb_spec 192 c); lia.
Qed.

Lemma split_chars_small fuel l : Forall (fun p => ApproxTokenCount p <= 2) (split_chars fuel l).
Proof.
  revert l. induction fuel as [|fuel IH]; intros l; [constructor|]. destruct l as [|c l]; [constructor|].
  constructor; [apply char_tokens|apply IH].
Qed.

(** ** The recursion *)

(** What a chunk of a split promises. *)
Definition good_chunk (cs : Z) (c : ChunkResult) : Prop :=
  text c <> [] /\ token_count_approx c = ApproxTokenCount (text c) /\ ApproxTokenCount (text c) <= cs.

Lemma good_plain cs t : t <> [] -> ApproxTokenCount t <= cs -> good_chunk cs (plain t).
Proof. by intros Ht Hs. Qed.

Lemma split_recursive_good cs seps t :
  2 <= cs -> [] ∈ seps -> Forall (good_chunk cs) (split_recursive cs seps t).
Proof.
  intros Hcs. revert t. induction seps as [|sep seps IH]; intros t Hs; [by apply not_elem_of_nil in Hs|].
  destruct t as [|x t]; [constructor|]. cbn [split_recursive].
  destruct (Z.leb_spec (ApproxTokenCount (x :: t)) cs) as [Hle|_]; [constructor; [by apply good_plain|constructor]|].
  apply Forall_forall. intros c (l & Hc & (piece & -> & Hp)%list_elem_of_fmap)%list_elem_of_join.
  destruct (Z.ltb_spec cs (ApproxTokenCount piece)) as [Hbig|Hsmall].
  - apply elem_of_cons in Hs as [<-|Hs]; [|by eapply Forall_forall in Hc; [|apply IH]].
    exfalso. apply merge_small in Hp; [lia|by left|].
    eapply Forall_impl; [apply split_chars_small|]. simpl. intros q. lia.
  - apply list_elem_of_singleton in Hc as ->. apply good_plain; [by eapply merge_nonempty|done].
Qed.

Lemma mjoin_texts (f : bytes -> list ChunkResult) seps pieces :
  (forall p, p ∈ pieces -> erased seps p (mjoin (text <$> f p))) ->
  erased seps (mjoin pieces) (mjoin (text <$> mjoin (f <$> pieces))).
Proof.
  intros Hf. induction pieces as [|p ps IH]; [constructor|]. simpl. rewrite fmap_app, join_app.
  apply erased_app; [apply Hf; by left|apply IH]. intros q Hq. apply Hf. by right.
Qed.

(** The fuel of [hard_cut] is enough: every turn moves on. *)
Lemma shrink_pos fuel cs t pos end_ chunk : (pos < end_)%nat -> (pos < (shrink fuel cs t pos end_ chunk).1)%nat.
Proof.
  revert end_ chunk. induction fuel as [|fuel IH]; intros end_ chunk H; simpl; [done|].
  destruct (_ && _); [|done]. case_match eqn:E; simpl; [lia|]. apply IH. apply Nat.leb_gt in E. lia.
Qed.

Lemma cut_at_pos cs t pos : (pos < (cut_at cs t pos).1)%nat.
Proof. apply shrink_pos. case_match eqn:E; [lia|]. by apply Nat.leb_gt in E. Qed.

Lemma hard_cut_fuel fuel cs t pos :
  (length t <= fuel + pos)%nat -> hard_cut (S fuel) cs t pos = hard_cut fuel cs t pos.
Proof.
  revert pos. induction fuel as [|fuel IH]; intros pos Hf; simpl.
  - case_match eqn:E; [|done]. apply Nat.ltb_lt in E. lia.
  - destruct (_ <? _)%nat; [|done]. pose proof (cut_at_pos cs t pos) as Hp.
    destruct (cut_at cs t pos) as [e c]. simpl in Hp. f_equal. apply (IH e). lia.
Qed.

Lemma split_recursive_erased cs seps t :
  2 <= cs -> [] ∈ seps ->
  erased seps t (mjoin (text <$> split_recursive cs seps t)).
Proof.
  intros Hcs. revert t. induction seps as [|sep seps IH]; intros t Hs; [by apply not_elem_of_nil in Hs|].
  destruct t as [|x t]; [constructor|]. cbn [split_recursive].
  destruct (Z.leb_spec (ApproxTokenCount (x :: t)) cs) as [Hle|_]; [simpl; rewrite app_nil_r; constructor|].
  etransitivity; [apply (erased_subseteq [sep]); [set_solver|apply (MergePieces_erased cs sep)]|].
  apply mjoin_texts. intros p Hp.
  destruct (Z.ltb_spec cs (ApproxTokenCount p)) as [Hbig|Hsmall]; [|simpl; rewrite app_nil_r; constructor].
  apply (erased_subseteq seps); [set_solver|]. apply elem_of_cons in Hs as [<-|Hs]; [|by apply IH].
  exfalso. apply merge_small in Hp; [lia|by left|].
  eapply Forall_impl; [apply split_chars_small|]. simpl. intros q. lia.
Qed.

(** ** The pass over offsets and overlap *)

Lemma locate_texts t from idx chunks : text <$> locate t from idx chunks = text <$> chunks.
Proof. revert from idx. induction chunks as [|c cs IH]; intros; simpl; [done|]. by rewrite IH. Qed.

Lemma locate_index t from idx chunks i c :
  locate t from idx chunks !! i = Some c -> chunk_index c = idx + Z.of_nat i.
Proof.
  revert from idx i. induction chunks as [|d cs IH]; intros from idx i; [by destruct i|].
  destruct i as [|i]; simpl; [intros [= <-]; simpl; lia|]. intros H%IH. lia.
Qed.

(** A chunk whose text is in the source text from the position on where the
    search starts is where its offsets say. *)
Lemma find_is_at sep l i : find sep l = Some i -> substr l i (length sep) = sep.
Proof.
  intros H. pose proof (find_split _ _ _ H) as Hs. pose proof (find_bound _ _ _ H) as Hb.
  unfold substr. rewrite Hs at 1. rewrite drop_app_length' by (rewrite length_take; lia).
  by rewrite take_app_length.
Qed.

Lemma back_up_le t pos : (back_up t pos <= pos)%nat.
Proof. induction pos as [|pos IH]; simpl; [done|]. case_match; lia. Qed.

Lemma walk_back_enough fuel ov prev pos :
  (pos <= fuel)%nat -> (pos <= length prev)%nat ->
  let r := walk_back fuel ov prev pos (ApproxTokenCount (drop pos prev)) in
  r = 0%nat \/ ov <= ApproxTokenCount (drop r prev).
Proof.
  revert pos. induction fuel as [|fuel IH]; intros pos Hf Hl; simpl; [left; lia|].
  destruct (Nat.ltb_spec 0 pos); simpl; [|left; lia].
  destruct (Z.ltb_spec (ApproxTokenCount (drop pos prev)) ov); [|by right].
  assert (Utf8SafeBoundary prev (pos - 1) <= pos - 1)%nat as Hb.
  { unfold Utf8SafeBoundary. case_match eqn:E; [apply Nat.leb_le in E; lia|apply back_up_le]. }
  apply IH; lia.
Qed.

(** What the overlap makes of a chunk: its text behind a proper end of the
    chunk before that has the tokens asked for, or as it was. *)
Definition overlapped (ov : Z) (prev raw c : ChunkResult) : Prop :=
  c = raw \/
  exists a b, a <> [] /\ b <> [] /\ ov <= ApproxTokenCount b /\ text prev = a ++ b /\
    c = raw <| text := b ++ text raw |> <| start_offset := Z.max 0 (start_offset raw - len b) |>
            <| token_count_approx := ApproxTokenCount (b ++ text raw) |>.

Lemma prepend_overlapped ov prev raw : overlapped ov prev raw (prepend ov prev raw).
Proof.
  unfold prepend. destruct (_ && _)%bool eqn:E; [|by left].
  apply andb_prop in E as [H1%Nat.ltb_lt H2%Nat.ltb_lt].
  set (pos := overlap_start ov (text prev)) in *.
  assert (pos = 0%nat \/ ov <= ApproxTokenCount (drop pos (text prev))) as Hw.
  { pose proof (walk_back_enough (length (text prev)) ov (text prev) (length (text prev))) as Hw.
    rewrite drop_all in Hw. by apply Hw. }
  right.
  exists (take pos (text prev)), (drop pos (text prev)).
  split; [intros H%(f_equal length); rewrite length_take in H; simpl in H; lia|].
  split; [intros H%(f_equal length); rewrite length_drop in H; simpl in H; lia|].
  split; [destruct Hw; [lia|done]|].
  split; [by rewrite take_drop|]. unfold len. by rewrite length_drop.
Qed.

Lemma overlap_from_length ov prev chunks : length (overlap_from ov prev chunks) = length chunks.
Proof. revert prev. induction chunks as [|c cs IH]; intros; simpl; [done|]. by rewrite IH. Qed.

Lemma overlap_from_steps ov c chunks i prev raw out :
  (c :: overlap_from ov c chunks) !! i = Some prev -> chunks !! i = Some raw ->
  overlap_from ov c chunks !! i = Some out -> overlapped ov prev raw out.
Proof.
  revert c i. induction chunks as [|d cs IH]; intros c i; [by destruct i|].
  destruct i as [|i]; simpl; [intros [= <-] [= <-] [= <-]; apply prepend_overlapped|]. apply IH.
Qed.

(** ** Properties *)

(** C39: with a chunk size of at least two tokens and the empty separator in the
    list, as the default list has it, every chunk of the split is nonempty,
    carries its own token count and has at most [chunk_size] tokens, and the
    chunks in order are the text without some occurrences of separators: a
    byte that is in no separator is never lost, repeated or moved. *)
Theorem Split_bounded_lossless config t :
  2 <= chunk_size config -> [] ∈ separators config ->
  let chunks := SplitRecursive config t 0 in
  Forall (good_chunk (chunk_size config)) chunks /\
  erased (separators config) t (mjoin (text <$> chunks)) /\
  forall b, Forall (fun sep => b ∉ sep) (separators config) ->
    filter (.= b) (mjoin (text <$> chunks)) = filter (.= b) t.
Proof.
  intros Hcs Hs chunks. split_and!; [by apply split_recursive_good|by apply split_recursive_erased|].
  intros b Hb. apply (erased_keeps (separators config)); [|by apply split_recursive_erased].
  intros sep x Hsep Hx ->. by eapply Forall_forall in Hb; [apply Hb|].
Qed.

Lemma Split_bounded_lossless_witness :
  let config := MkChunkConfig 2 0 default_separators in
  let t := [104; 105; 32; 104; 105; 46; 228; 184; 173; 104; 105] in
  (text <$> SplitRecursive config t 0 = [[104; 105; 32; 104; 105]; [228; 184; 173]; [104; 105]]) /\
  erased default_separators t (mjoin (text <$> SplitRecursive config t 0)).
Proof.
  set (config := MkChunkConfig 2 0 default_separators).
  set (t := [104; 105; 32; 104; 105; 46; 228; 184; 173; 104; 105]).
  split; [vm_compute; reflexivity|]. refine (proj1 (proj2 (Split_bounded_lossless config t _ _))).
  - vm_compute. congruence.
  - apply (bool_decide_eq_true_1 ([] ∈ default_separators)). vm_compute. reflexivity.
Defined.

(** [Chunk] returns the chunks of the split, numbered from 0 in order; a
    chunk whose text is found from the search position on has the offsets of
    that text; without an overlap nothing else changes, and with one the first
    chunk is as it is and each later chunk either is too, or has in front of
    its text a proper nonempty end of the chunk before it (as it then is) with
    at least [chunk_overlap] tokens. *)
Theorem Chunk_overlaps config t :
  let raw := locate t 0 0 (SplitRecursive config t 0) in
  let chunks := Chunk config t in
  text <$> raw = text <$> SplitRecursive config t 0 /\
  length chunks = length raw /\
  head chunks = head raw /\
  (forall i c, chunks !! i = Some c -> chunk_index c = Z.of_nat i) /\
  (chunk_overlap config <= 0 -> chunks = raw) /\
  (0 < chunk_overlap config ->
   forall i prev r c, chunks !! i = Some prev -> raw !! S i = Some r -> chunks !! S i = Some c ->
     overlapped (chunk_overlap config) prev r c).
Proof.
  intros raw chunks. split; [apply locate_texts|]. unfold chunks, Chunk. fold raw.
  assert (forall i c, raw !! i = Some c -> chunk_index c = Z.of_nat i) as Hix.
  { intros i c H%locate_index. lia. }
  destruct raw as [|c cs] eqn:E; [done|].
  destruct (Z.ltb_spec 0 (chunk_overlap config)) as [Ho|Ho].
  - split_and!; [simpl; by rewrite overlap_from_length|done| |lia|].
    + intros i d Hd. destruct i as [|i]; [by apply Hix|].
      destruct (lookup_lt_is_Some_2 cs i) as [r Hr].
      { apply lookup_lt_Some in Hd. simpl in Hd. rewrite overlap_from_length in Hd. lia. }
      rewrite <- (Hix (S i) r Hr).
      destruct (lookup_lt_is_Some_2 (c :: overlap_from (chunk_overlap config) c cs) i) as [p Hp].
      { apply lookup_lt_Some in Hd. simpl in *. lia. }
      by destruct (overlap_from_steps _ _ _ _ _ _ _ Hp Hr Hd) as [->|(a & b & _ & _ & _ & _ & ->)].
    + intros _ i p r d Hp Hr Hd. by eapply overlap_from_steps.
  - split_and!; [done|done|exact Hix|done|lia].
Qed.

Lemma Chunk_overlaps_witness :
  let config := MkChunkConfig 2 1 [[32]; []] in
  let t := [97; 97; 32; 98; 98; 32; 99; 99; 32; 100; 100] in
  text <$> Chunk config t = [[97; 97; 32; 98; 98]; [98; 99; 99; 32; 100; 100]] /\
  exists prev r c, Chunk config t !! 0%nat = Some prev /\ Chunk config t !! 1%nat = Some c /\
    overlapped 1 prev r c.
Proof.
  set (config := MkChunkConfig 2 1 [[32]; []]).
  set (t := [97; 97; 32; 98; 98; 32; 99; 99; 32; 100; 100]).
  split; [vm_compute; reflexivity|].
  eexists _, _, _. split; [vm_compute; reflexivity|]. split; [vm_compute; reflexivity|].
  destruct (Chunk_overlaps config t) as (_ & _ & _ & _ & _ & H).
  apply (H eq_refl 0%nat); vm_compute; reflexivity.
Defined.

(** ** Runs at the edges *)

Module ChunkRuns.

(** With a chunk size of one token a character of three bytes is cut hard: the
    cut at its first byte moves on by one but keeps the whole character as the
    chunk, so that the next chunk is its last two bytes again, which is no
    text. *)
Lemma Hard_cut_repeats_bytes :
  text <$> Chunk (MkChunkConfig 1 0 default_separators) [228; 184; 173] = [[228; 184; 173]; [184; 173]].
Proof. vm_compute. reflexivity. Qed.

(** Two blanks in a row are merged to one, so the chunk is no part of the text
    and its offsets are those of the search position. *)
Lemma Merged_chunk_not_in_text :
  let t := [97; 32; 32; 98; 32; 99; 32; 32; 100] in
  (fun c => (text c, start_offset c, end_offset c)) <$> Chunk (MkChunkConfig 2 0 default_separators) t =
  [([97; 32; 98], 0, 3); ([99; 32; 100], 1, 4)].
Proof. vm_compute. reflexivity. Qed.

(** The separator between two chunks is dropped, so the overlap runs into the
    first word of the chunk. *)
Lemma Overlap_joins_words :
  text <$> Chunk (MkChunkConfig 2 1 default_separators) [97; 98; 32; 99; 100; 32; 101; 102] =
  [[97; 98; 32; 99; 100]; [100; 101; 102]].
Proof. vm_compute. reflexivity. Qed.

(** With no separators at all every turn of the hard cut moves on. *)
Lemma Hard_cut_ascii :
  text <$> Chunk (MkChunkConfig 2 0 []) [97; 98; 99; 100; 101; 102; 103] = [[97; 98; 99; 100; 101; 102]; [103]].
Proof. vm_compute. reflexivity. Qed.

End ChunkRuns.
