(* ===== verification/ParentChildChunker.v ===== *)
(** * Parents and children of a document (src/chunker)

    [Chunk] turns the pages of a parsed document into units, gathers units into
    parents of about [parent_size] tokens, and splits each parent into children
    with the recursive chunker; a document with too many parents is chunked
    flat.  [DedupChildrenToParents] puts the hits of a search back together by
    parent.  Texts are bytes; the token counter is a parameter ([EstimateTokens]
    is the default one), identifiers come from Ulid.v.  The [int] parameters are
    those of the configuration, the [uint32_t] counters wrap. *)
From stdpp Require Import pretty.
From S2P Require Import Prelude Status Ulid DocumentParser RecursiveChunker.

Module ChunkerConfig.

Inductive ChunkStrategy := kParentChild | kFlat | kSemantic.
Inductive UnitLevel := kPage | kParagraph | kSentence.

#[export] Instance ChunkStrategy_eq_dec : EqDecision ChunkStrategy.
Proof. solve_decision. Defined.

Definition ChunkStrategy_ToString (s : ChunkStrategy) : string :=
  match s with kParentChild => "parent-child" | kFlat => "flat" | kSemantic => "semantic" end.
Definition UnitLevel_ToString (u : UnitLevel) : string :=
  match u with kPage => "page" | kParagraph => "paragraph" | kSentence => "sentence" end.
Definition ChunkStrategyFromString (s : string) : ChunkStrategy :=
  if bool_decide (s = "flat"%string) then kFlat else
  if bool_decide (s = "semantic"%string) then kSemantic else kParentChild.
Definition UnitLevelFromString (s : string) : UnitLevel :=
  if bool_decide (s = "page"%string) then kPage else
  if bool_decide (s = "sentence"%string) then kSentence else kParagraph.

Record ChunkerConfig := MkChunkerConfig {
  strategy : ChunkStrategy;
  parent_size : Z;
  child_size : Z;
  child_overlap : Z;
  unit_level : UnitLevel;
  max_parents_per_doc : Z;
  fallback_to_flat_threshold : Z;
  children_per_parent_for_rerank : Z
}.

Definition default_config : ChunkerConfig :=
  MkChunkerConfig kParentChild 1024 200 20 kParagraph 10000 10000 3.

(** ** The ranges of the settings (chunker_guc.cpp) *)

Definition ValidateRange (key : string) (value min max : Z) : Status :=
  if (value <? min) || (max <? value)
  then Status_InvalidArgument
         (key +:+ "=" +:+ pretty value +:+ " out of range [" +:+ pretty min +:+ ", " +:+ pretty max +:+ "]")
  else Status_Ok.

(** The first failure of the checks in order. *)
Fixpoint first_error (checks : list Status) : Status :=
  match checks with
  | [] => Status_Ok
  | s :: checks => if negb (status_ok s) then s else first_error checks
  end.

Definition ValidateConfig (config : ChunkerConfig) : Status :=
  first_error [
    ValidateRange "spc.chunker.parent_size" (parent_size config) 256 8192;
    ValidateRange "spc.chunker.child_size" (child_size config) 50 8192;
    ValidateRange "spc.chunker.child_overlap" (child_overlap config) 0 100;
    ValidateRange "spc.chunker.max_parents_per_doc" (max_parents_per_doc config) 100 100000;
    ValidateRange "spc.chunker.fallback_to_flat_threshold" (fallback_to_flat_threshold config) 100 100000;
    ValidateRange "spc.chunker.children_per_parent_for_rerank" (children_per_parent_for_rerank config) 1 10;
    if parent_size config <? child_size config
    then Status_InvalidArgument
           ("spc.chunker.child_size=" +:+ pretty (child_size config) +:+ " must be <= "
            +:+ "spc.chunker.parent_size=" +:+ pretty (parent_size config))
    else Status_Ok].

(** [cfg.GetInt] and [cfg.GetString]: nothing for an error. *)
Definition LoadFromConfig (GetInt : string -> option Z) (GetString : string -> option string)
    (c : ChunkerConfig) : Status * ChunkerConfig :=
  let load_int key field := default field (GetInt key) in
  let out := MkChunkerConfig
    (from_option ChunkStrategyFromString (strategy c) (GetString "spc.chunker.strategy"))
    (load_int "spc.chunker.parent_size" (parent_size c))
    (load_int "spc.chunker.child_size" (child_size c))
    (load_int "spc.chunker.child_overlap" (child_overlap c))
    (from_option UnitLevelFromString (unit_level c) (GetString "spc.chunker.unit_level"))
    (load_int "spc.chunker.max_parents_per_doc" (max_parents_per_doc c))
    (load_int "spc.chunker.fallback_to_flat_threshold" (fallback_to_flat_threshold c))
    (load_int "spc.chunker.children_per_parent_for_rerank" (children_per_parent_for_rerank c)) in
  (ValidateConfig out, out).

Definition ChunkStatus (sc : StatusCode) (code detail : string) : Status :=
  MkStatus sc (code +:+ ": " +:+ detail).

Definition ValidateChildSizeCompat (child_size max_seq_length : Z) : Status :=
  if max_seq_length <? child_size
  then ChunkStatus kInvalidArgument "CX_ERR_CHUNK_SIZE_INVALID"
         ("child_size " +:+ pretty child_size +:+ " > reranker.max_seq_length " +:+ pretty max_seq_length)
  else Status_Ok.

Definition ValidateStartupFromGlobalConfig (GetInt : string -> option Z)
    (GetString : string -> option string) : Status :=
  let '(s, chunker_cfg) := LoadFromConfig GetInt GetString default_config in
  if negb (status_ok s) then s else
  match GetInt "reranker.max_seq_length" with
  | Some v =>
      let rs := ValidateRange "reranker.max_seq_length" v 128 8192 in
      if negb (status_ok rs) then rs else ValidateChildSizeCompat (child_size chunker_cfg) v
  | None => ValidateChildSizeCompat (child_size chunker_cfg) 512
  end.

End ChunkerConfig.

Module ParentChildChunker.
Import ChunkerConfig.

(** The bytes of a string. *)
Definition bytes_of (s : string) : bytes :=
  (fun c => Z.of_nat (Ascii.nat_of_ascii c)) <$> String.list_ascii_of_string s.

(** ** Token estimate *)

Definition is_space (c : Z) : bool := bool_decide (c ∈ [32; 10; 9; 13; 12]).
Definition word_byte (c : Z) : bool := (c <? 128) && negb (is_space c).

Fixpoint run (l : bytes) : bytes * bytes :=
  match l with
  | c :: l' => if word_byte c then let '(w, rest) := run l' in (c :: w, rest) else ([], l)
  | [] => ([], [])
  end.

Definition adv (c : Z) : nat :=
  if 240 <=? c then 4 else if 224 <=? c then 3 else if 192 <=? c then 2 else 1.

Fixpoint estimate (fuel : nat) (l : bytes) : Z :=
  match fuel, l with
  | S fuel, c :: l' =>
      if c <? 128 then
        if is_space c then estimate fuel l'
        else let '(w, rest) := run l in Z.max 1 (u32 ((len w + 3) / 4)) + estimate fuel rest
      else 1 + estimate fuel (drop (adv c) l)
  | _, _ => 0
  end.

Definition EstimateTokens (text : bytes) : Z := u32 (estimate (length text) text).

(** ** Units *)

Fixpoint trim_start (l : bytes) : bytes :=
  match l with c :: l' => if is_space c then trim_start l' else l | [] => [] end.
Definition Trim (s : bytes) : bytes := reverse (trim_start (reverse (trim_start s))).

Record Unit := MkUnit {
  u_text : bytes; u_token_count : Z; u_page_num : Z; u_byte_offset : Z
}.

Record ChunkerStats := MkChunkerStats {
  total_pages : Z; succeeded_pages : Z; failed_pages : Z;
  total_parents : Z; total_children : Z; empty_parents : Z; fallback_to_flat : bool
}.
Definition no_stats : ChunkerStats := MkChunkerStats 0 0 0 0 0 0 false.

Record ChunkerInput := MkChunkerInput {
  doc_id : string;
  namespace_id : string;
  pages : list Parser.ParsedPage;
  metadata : Parser.DocumentMetadata
}.

Record ChildSpan := MkChildSpan { text : bytes; span_offset : Z; span_tokens : Z }.

Record ParentChunk := MkParentChunk {
  p_id : bytes; p_doc_id : string; p_namespace_id : string; parent_text : bytes;
  p_token_count : Z; page_start : Z; page_end : Z; byte_offset_start : Z; byte_offset_end : Z;
  p_metadata : Parser.DocumentMetadata; child_ids : list bytes; p_created_at : Z
}.

Record ChildChunk := MkChildChunk {
  child_id : bytes; parent_id : bytes; c_doc_id : string; c_namespace_id : string;
  child_text : bytes; c_token_count : Z; parent_offset : Z; chunk_index : Z;
  c_metadata : Parser.DocumentMetadata; c_created_at : Z
}.

Record ChunkerOutput := MkChunkerOutput {
  parents : list ParentChunk; children : list ChildChunk; stats : ChunkerStats
}.

Section Chunker.
Context (config : ChunkerConfig) (token_counter : bytes -> Z) (draw : nat -> Z).

(** What the [emit] calls of a page pass, in order. *)
Definition raws (page : Parser.ParsedPage) : list bytes :=
  let page_text := bytes_of (Parser.page_text page) in
  match unit_level config with
  | kPage => [page_text]
  | kSentence =>
      RecursiveChunker.text
      <$> RecursiveChunker.Chunk
            (RecursiveChunker.MkChunkConfig (child_size config) 0 RecursiveChunker.default_separators)
            page_text
  | kParagraph =>
      match Parser.paragraphs page with
      | [] => [page_text]
      | paras => (fun p => bytes_of (Parser.pc_text p)) <$> paras
      end
  end.

(** The units of a page, and the running offset after it. *)
Fixpoint emit_all (page_num running_offset : Z) (raw : list bytes) : list Unit * Z :=
  match raw with
  | [] => ([], running_offset)
  | r :: raw =>
      match Trim r with
      | [] => emit_all page_num running_offset raw
      | text =>
          let '(us, off) := emit_all page_num (u64 (running_offset + len text)) raw in
          (MkUnit text (token_counter text) page_num running_offset :: us, off)
      end
  end.

Fixpoint collect (ps : list Parser.ParsedPage) (running_offset : Z) (st : ChunkerStats)
    : list Unit * ChunkerStats :=
  match ps with
  | [] => ([], st)
  | page :: ps =>
      let n := Parser.page_num page in
      let '(us, running_offset) := emit_all (if 0 <=? n then n else 0) running_offset (raws page) in
      let had_content := match us with [] => false | _ => true end in
      let st := MkChunkerStats (u32 (total_pages st + 1))
        (if had_content then u32 (succeeded_pages st + 1) else succeeded_pages st)
        (if had_content then failed_pages st else u32 (failed_pages st + 1))
        (total_parents st) (total_children st) (empty_parents st) (fallback_to_flat st) in
      let '(rest, st) := collect ps running_offset st in
      (us ++ rest, st)
  end.

Definition CollectUnits (input : ChunkerInput) (st : ChunkerStats) : list Unit * ChunkerStats :=
  collect (pages input) 0 st.

(** ** Children *)

Fixpoint spans_from (parent_text : bytes) (search_from : nat)
    (raw : list RecursiveChunker.ChunkResult) : list ChildSpan :=
  match raw with
  | [] => []
  | cr :: raw =>
      match RecursiveChunker.text cr with
      | [] => spans_from parent_text search_from raw
      | t =>
          let pos := default (if (search_from <=? length parent_text)%nat then search_from else 0%nat)
                       (RecursiveChunker.find_from t parent_text search_from) in
          MkChildSpan t (u32 (Z.of_nat pos)) (token_counter t) :: spans_from parent_text (S pos) raw
      end
  end.

Definition SplitIntoChildren (parent_text : bytes) : list ChildSpan :=
  spans_from parent_text 0
    (RecursiveChunker.Chunk
       (RecursiveChunker.MkChunkConfig (child_size config) (child_overlap config)
          RecursiveChunker.default_separators) parent_text).

(** The children of the spans, under [pid]. *)
Fixpoint make_children (input : ChunkerInput) (now_ms : Z) (pid : bytes) (spans : list ChildSpan)
    (index : Z) (g : Ulid.Globals) : list ChildChunk * Z * Ulid.Globals :=
  match spans with
  | [] => ([], index, g)
  | span :: spans =>
      let '(id, g) := Ulid.GenerateUlid draw now_ms g in
      let child := MkChildChunk id pid (doc_id input) (namespace_id input) (text span)
                     (span_tokens span) (span_offset span) index (metadata input) now_ms in
      let '(cs, index, g) := make_children input now_ms pid spans (u32 (index + 1)) g in
      (child :: cs, index, g)
  end.

(** ** Parents *)

(** The inner loop over the units, once [parent_text] is not empty: the text,
    the end of the pages and of the bytes, and the units that are left. *)
Fixpoint gather (units : list Unit) (parent_text : bytes) (parent_tokens page_end byte_end : Z)
    : bytes * Z * Z * list Unit :=
  match units with
  | [] => (parent_text, page_end, byte_end, [])
  | u :: rest =>
      if (match parent_text with [] => false | _ => true end)
         && (u32 (parent_size config) <? u32 (parent_tokens + u_token_count u))
      then (parent_text, page_end, byte_end, units)
      else
        gather rest (match parent_text with [] => u_text u | _ => parent_text ++ 10 :: u_text u end)
          (u32 (parent_tokens + u_token_count u)) (u_page_num u)
          (u64 (u_byte_offset u + len (u_text u)))
  end.

Fixpoint build_parents (fuel : nat) (input : ChunkerInput) (now_ms : Z) (units : list Unit)
    (index : Z) (out : ChunkerOutput) (g : Ulid.Globals) : ChunkerOutput * Ulid.Globals :=
  match fuel, units with
  | S fuel, first :: _ =>
      let '(ptext, pend, bend, rest) :=
        gather units [] 0 (u_page_num first) (u_byte_offset first) in
      match ptext with
      | [] =>
          let st := stats out in
          build_parents fuel input now_ms rest index
            (MkChunkerOutput (parents out) (children out)
               (MkChunkerStats (total_pages st) (succeeded_pages st) (failed_pages st)
                  (total_parents st) (total_children st) (u32 (empty_parents st + 1))
                  (fallback_to_flat st))) g
      | _ =>
          let '(pid, g) := Ulid.GenerateUlid draw now_ms g in
          let '(cs, index, g) := make_children input now_ms pid (SplitIntoChildren ptext) index g in
          let parent := MkParentChunk pid (doc_id input) (namespace_id input) ptext
            (token_counter ptext) (u_page_num first) pend (u_byte_offset first) bend
            (metadata input) (child_id <$> cs) now_ms in
          build_parents fuel input now_ms rest index
            (MkChunkerOutput (parents out ++ [parent]) (children out ++ cs) (stats out)) g
      end
  | _, _ => (out, g)
  end.

Definition BuildParentChild (input : ChunkerInput) (units : list Unit) (now_ms : Z)
    (out : ChunkerOutput) (g : Ulid.Globals) : ChunkerOutput * Ulid.Globals :=
  build_parents (length units) input now_ms units 0 out g.

(** ** The flat layer *)

Definition join_text (units : list Unit) : bytes :=
  foldl (fun full u => match full with [] => u_text u | _ => full ++ 10 :: u_text u end) [] units.

Definition with_fallback (st : ChunkerStats) : ChunkerStats :=
  MkChunkerStats (total_pages st) (succeeded_pages st) (failed_pages st) (total_parents st)
    (total_children st) (empty_parents st) true.

Definition BuildFlat (input : ChunkerInput) (units : list Unit) (now_ms : Z)
    (out : ChunkerOutput) (g : Ulid.Globals) : ChunkerOutput * Ulid.Globals :=
  let '(cs, _, g) := make_children input now_ms [] (SplitIntoChildren (join_text units)) 0 g in
  (MkChunkerOutput (parents out) (children out ++ cs) (with_fallback (stats out)), g).

(** ** Chunk *)

Definition total_tokens (units : list Unit) : Z :=
  foldl (fun n u => u64 (n + u_token_count u)) 0 units.

Definition est_parents (units : list Unit) : Z :=
  let psize := Z.max 1 (parent_size config) in
  u64 (total_tokens units + psize - 1) / psize.

Definition with_totals (out : ChunkerOutput) : ChunkerOutput :=
  let st := stats out in
  MkChunkerOutput (parents out) (children out)
    (MkChunkerStats (total_pages st) (succeeded_pages st) (failed_pages st)
       (u32 (len (parents out))) (u32 (len (children out))) (empty_parents st) (fallback_to_flat st)).

Definition Chunk (input : ChunkerInput) (now_ms : Z) (g : Ulid.Globals)
    : Result ChunkerOutput * Ulid.Globals :=
  let '(units, st) := CollectUnits input no_stats in
  match units with
  | [] =>
      (Error (ChunkStatus kInvalidArgument "CX_ERR_CHUNK_EMPTY_DOCUMENT"
         ("document '" +:+ doc_id input +:+ "' produced no usable chunks (total_pages="
          +:+ pretty (total_pages st) +:+ ", failed_pages=" +:+ pretty (failed_pages st) +:+ ")")), g)
  | _ =>
      let out := MkChunkerOutput [] [] st in
      if bool_decide (strategy config = kFlat)
         || (u64 (fallback_to_flat_threshold config) <? est_parents units)
      then
        let '(out, g) := BuildFlat input units now_ms out g in
        (Value (with_totals out), g)
      else
        let '(out, g) := BuildParentChild input units now_ms out g in
        if u64 (max_parents_per_doc config) <? len (parents out)
        then (Error (ChunkStatus kInvalidArgument "CX_ERR_CHUNK_OVERFLOW"
                ("document '" +:+ doc_id input +:+ "' produced " +:+ pretty (len (parents out))
                 +:+ " parents > max_parents_per_doc " +:+ pretty (max_parents_per_doc config)
                 +:+ " and flat fallback failed")), g)
        else (Value (with_totals out), g)
  end.

End Chunker.

End ParentChildChunker.
