(* ===== verification/ParentChildTheory.v ===== *)
(** * What chunking a document gives

    The units of the document are gathered greedily into parents, in order and
    without loss; each parent is split on its own and is linked to its children
    both ways; the identifiers are those of one run of the generator.  The
    number of parents is at most about twice the estimate that decides for the
    flat layer. *)
From stdpp Require Import pretty.
From S2P Require Import Prelude Status Ulid DocumentParser RecursiveChunker RecursiveChunkerTheory ParentChildChunker.
From Stdlib Require Import Sorted.
Import ChunkerConfig ParentChildChunker.

#[local] Arguments Ulid.GenerateUlid : simpl never.
#[local] Opaque Ulid.GenerateUlid.

Definition tokens (us : list Unit) : Z := foldr (fun u n => u_token_count u + n) 0 us.

(** The text of a parent that gathers [us]. *)
Definition gathered (us : list Unit) : bytes := intercalate [10] (u_text <$> us).

(** Units as [CollectUnits] makes them: with a text, and counts of 32 bits. *)
Definition units_ok (us : list Unit) : Prop :=
  Forall (fun u => u_text u <> [] /\ 0 <= u_token_count u) us /\ tokens us < 2 ^ 32.

Lemma tokens_app a b : tokens (a ++ b) = tokens a + tokens b.
Proof. induction a as [|u a IH]; simpl; lia. Qed.

Lemma tokens_nonneg us : Forall (fun u => u_text u <> [] /\ 0 <= u_token_count u) us -> 0 <= tokens us.
Proof. induction 1 as [|u us [_ Hu] _ IH]; simpl; lia. Qed.

Lemma units_ok_app a b : units_ok (a ++ b) -> units_ok a /\ units_ok b.
Proof.
  intros [[Ha Hb]%Forall_app Ht]. rewrite tokens_app in Ht.
  pose proof (tokens_nonneg _ Ha). pose proof (tokens_nonneg _ Hb). unfold units_ok. split_and!; auto; lia.
Qed.

Lemma gathered_snoc us u : us <> [] -> gathered (us ++ [u]) = gathered us ++ 10 :: u_text u.
Proof.
  intros Hus. unfold gathered. induction us as [|v us IH]; [done|]. destruct us as [|w us]; [done|].
  change ((v :: w :: us) ++ [u]) with (v :: (w :: us) ++ [u]). rewrite !fmap_cons.
  rewrite intercalate_cons by done. rewrite IH by done. rewrite fmap_cons.
  rewrite (intercalate_cons _ (u_text v)) by done. by rewrite <- !app_assoc.
Qed.

Lemma gathered_nonempty us : us <> [] -> units_ok us -> gathered us <> [].
Proof.
  intros Hus [Hf _]. destruct us as [|u us]; [done|]. apply Forall_cons in Hf as [[Hu _] _].
  unfold gathered. rewrite fmap_cons. destruct us; [done|]. rewrite fmap_cons, intercalate_cons by done.
  by destruct (u_text u).
Qed.

Definition last_page (us : list Unit) : Z := from_option u_page_num 0 (last us).
Definition last_byte (us : list Unit) : Z :=
  from_option (fun u => u64 (u_byte_offset u + len (u_text u))) 0 (last us).

Section Gather.
Context (config : ChunkerConfig).
Notation psize := (u32 (parent_size config)).

(** The loop takes a run of units: as many as fit, and at least one. *)
Lemma gather_taken taken units :
  taken <> [] -> units_ok (taken ++ units) -> (tokens taken <= psize \/ length taken = 1%nat) ->
  exists more rest,
    units = more ++ rest /\
    gather config units (gathered taken) (tokens taken) (last_page taken) (last_byte taken) =
      (gathered (taken ++ more), last_page (taken ++ more), last_byte (taken ++ more), rest) /\
    (tokens (taken ++ more) <= psize \/ length (taken ++ more) = 1%nat) /\
    (forall u, head rest = Some u -> psize < tokens (taken ++ more) + u_token_count u).
Proof.
  revert taken. induction units as [|u units IH]; intros taken Ht Hok Hfit.
  { exists [], []. rewrite !app_nil_r. split_and!; [done|done|done|intros ? [=]]. }
  simpl. pose proof (units_ok_app _ _ Hok) as [Hokt Hoku].
  destruct (gathered taken) eqn:Eg; [by destruct (gathered_nonempty taken Ht Hokt)|]. rewrite <- Eg.
  assert (0 <= u_token_count u /\ 0 <= tokens units /\ 0 <= tokens taken /\ tokens taken + u_token_count u < 2 ^ 32)
    as (Hu & Hus & Htk & Hsum).
  { destruct Hok as [[Hft Hf]%Forall_app Hlt]. rewrite tokens_app in Hlt. simpl in Hlt.
    apply Forall_cons in Hf as [[_ Hu] Hf]. pose proof (tokens_nonneg _ Hf). pose proof (tokens_nonneg _ Hft). lia. }
  rewrite (u32_small (tokens taken + _)) by lia. simpl.
  destruct (Z.ltb_spec psize (tokens taken + u_token_count u)) as [Hbig|Hfits].
  - exists [], (u :: units). rewrite !app_nil_r. split_and!; [done|done|done|]. by intros v [= <-].
  - rewrite <- gathered_snoc by done.
    assert (tokens taken + u_token_count u = tokens (taken ++ [u])) as Esum by (rewrite tokens_app; simpl; lia).
    assert (last_page (taken ++ [u]) = u_page_num u) as Ep by (unfold last_page; by rewrite last_snoc).
    assert (last_byte (taken ++ [u]) = u64 (u_byte_offset u + len (u_text u))) as Eb
      by (unfold last_byte; by rewrite last_snoc).
    destruct (IH (taken ++ [u])) as (more & rest & -> & Hg & Hfit' & Hmax).
    { by destruct taken. }
    { by rewrite <- app_assoc. }
    { left. lia. }
    rewrite <- Esum, Ep, Eb in Hg.
    exists (u :: more), rest. rewrite <- app_assoc in *. simpl in *. split_and!; [done|exact Hg|done|done].
Qed.

Lemma gather_greedy units p b :
  units <> [] -> units_ok units ->
  exists group rest,
    group <> [] /\ units = group ++ rest /\
    gather config units [] 0 p b = (gathered group, last_page group, last_byte group, rest) /\
    (tokens group <= psize \/ length group = 1%nat) /\
    (forall u, head rest = Some u -> psize < tokens group + u_token_count u).
Proof.
  intros Hne Hok. destruct units as [|u units]; [done|].
  destruct (gather_taken [u] units) as (more & rest & -> & Hg & Hfit & Hmax); [done|done|by right|].
  exists (u :: more), rest. split_and!; [done|done| |done|done].
  assert (u32 (0 + u_token_count u) = tokens [u]) as Et.
  { simpl. rewrite Z.add_0_r. apply u32_small. destruct Hok as [Hf Ht].
    simpl in Ht. apply Forall_cons in Hf as [[_ Hu] Hf]. pose proof (tokens_nonneg _ Hf). lia. }
  cbn [app gather andb]. by rewrite Et.
Qed.

End Gather.

(** ** The tree *)

(** How [groups] gathers units greedily under a size. *)
Fixpoint greedy (size : Z) (groups : list (list Unit)) : Prop :=
  match groups with
  | [] => True
  | us :: groups =>
      us <> [] /\ (tokens us <= size \/ length us = 1%nat) /\
      (forall u, head (mjoin groups) = Some u -> size < tokens us + u_token_count u) /\
      greedy size groups
  end.

Section Tree.
Context (config : ChunkerConfig) (token_counter : bytes -> Z) (draw : nat -> Z).
Context (input : ChunkerInput) (now_ms : Z).

(** The parent of a group and its children. *)
Record tree_of (us : list Unit) (p : ParentChunk) (cs : list ChildChunk) : Prop := {
  tree_text : parent_text p = gathered us;
  tree_tokens : p_token_count p = token_counter (gathered us);
  tree_pages : page_start p = from_option u_page_num 0 (head us) /\ page_end p = last_page us;
  tree_bytes : byte_offset_start p = from_option u_byte_offset 0 (head us) /\ byte_offset_end p = last_byte us;
  tree_from : p_doc_id p = doc_id input /\ p_namespace_id p = namespace_id input /\
    p_metadata p = metadata input /\ p_created_at p = now_ms;
  tree_links : child_ids p = child_id <$> cs /\ Forall (fun c => parent_id c = p_id p) cs;
  tree_spans : (fun c => MkChildSpan (child_text c) (parent_offset c) (c_token_count c)) <$> cs =
    SplitIntoChildren config token_counter (gathered us);
  tree_inherits : Forall (fun c => c_doc_id c = doc_id input /\ c_namespace_id c = namespace_id input /\
    c_metadata c = metadata input /\ c_created_at c = now_ms) cs
}.

Definition numbered (start : Z) (cs : list ChildChunk) : Prop :=
  forall i c, cs !! i = Some c -> chunk_index c = u32 (start + Z.of_nat i).

(** The globals after [n] mints. *)
Fixpoint after (n : nat) (g : Ulid.Globals) : Ulid.Globals :=
  match n with O => g | S n => after n (Ulid.GenerateUlid draw now_ms g).2 end.

Definition ids (n : nat) (g : Ulid.Globals) : list bytes :=
  fst <$> Ulid.mints draw (replicate n now_ms) g.

Lemma ids_app n m g : ids (n + m) g = ids n g ++ ids m (after n g).
Proof. unfold ids. revert g. induction n as [|n IH]; intros g; simpl; [reflexivity|]. by rewrite IH. Qed.

Lemma after_app n m g : after (n + m) g = after m (after n g).
Proof. revert g. induction n as [|n IH]; intros g; [reflexivity|]. apply IH. Qed.

Lemma u32_u32_add a b : u32 (u32 a + b) = u32 (a + b).
Proof. unfold u32. by rewrite Zplus_mod_idemp_l. Qed.

Lemma make_children_spec pid spans index g :
  let '(cs, index', g') := make_children draw input now_ms pid spans (u32 index) g in
  (fun c => MkChildSpan (child_text c) (parent_offset c) (c_token_count c)) <$> cs = spans /\
  child_id <$> cs = ids (length spans) g /\ g' = after (length spans) g /\
  index' = u32 (index + len spans) /\ numbered index cs /\
  Forall (fun c => parent_id c = pid) cs /\
  Forall (fun c => c_doc_id c = doc_id input /\ c_namespace_id c = namespace_id input /\
    c_metadata c = metadata input /\ c_created_at c = now_ms) cs.
Proof.
  revert index g. induction spans as [|[t o k] spans IH]; intros index g; simpl.
  { rewrite len_nil, Z.add_0_r. split_and!; [done|done|done|done|intros i c [=]|constructor|constructor]. }
  destruct (Ulid.GenerateUlid draw now_ms g) as [id g1] eqn:Eg. rewrite u32_u32_add.
  specialize (IH (index + 1) g1).
  destruct (make_children draw input now_ms pid spans (u32 (index + 1)) g1) as [[cs i'] g'].
  destruct IH as (Hs & Hi & -> & -> & Hn & Hp & Hd). unfold ids in *. simpl. rewrite Eg. simpl.
  rewrite len_cons. split_and!; [f_equal; exact Hs|f_equal; exact Hi|done|f_equal; lia| |by constructor|by constructor].
  intros [|i] c; [intros [= <-]; simpl; f_equal; lia|]. intros H%Hn. rewrite H. f_equal. lia.
Qed.

Lemma numbered_app a cs ds :
  numbered a cs -> numbered (a + len cs) ds -> numbered a (cs ++ ds).
Proof.
  intros Hc Hd i c. rewrite lookup_app_Some. intros [H|[Hl H]]; [by apply Hc|].
  rewrite (Hd _ _ H). f_equal. unfold len. lia.
Qed.

(** The identifiers of a tree, parents before their children. *)
Definition tree_ids (ps : list ParentChunk) : list bytes := mjoin ((fun p => p_id p :: child_ids p) <$> ps).

Lemma tree_ids_app a b : tree_ids (a ++ b) = tree_ids a ++ tree_ids b.
Proof. unfold tree_ids. by rewrite fmap_app, join_app. Qed.

Lemma build_parents_spec fuel units index out g :
  (length units <= fuel)%nat -> units_ok units ->
  exists groups ps css n,
    build_parents config token_counter draw fuel input now_ms units (u32 index) out g =
      (MkChunkerOutput (parents out ++ ps) (children out ++ mjoin css) (stats out), after n g) /\
    mjoin groups = units /\ greedy (u32 (parent_size config)) groups /\
    Forall3 tree_of groups ps css /\ tree_ids ps = ids n g /\ numbered index (mjoin css).
Proof.
  revert units index out g. induction fuel as [|fuel IH]; intros units index out g Hf Hok.
  { destruct units; [|simpl in Hf; lia]. exists [], [], [], 0%nat. destruct out. simpl. rewrite !app_nil_r.
    split_and!; [done|done|done|constructor|done|intros i c [=]]. }
  destruct units as [|first units].
  { exists [], [], [], 0%nat. destruct out. simpl. rewrite !app_nil_r.
    split_and!; [done|done|done|constructor|done|intros i c [=]]. }
  destruct (gather_greedy config (first :: units) (u_page_num first) (u_byte_offset first))
    as (group & rest & Hne & Hsplit & Hg & Hfit & Hmax); [done|done|].
  rewrite Hsplit in Hok. pose proof (units_ok_app _ _ Hok) as [Hokg Hokr].
  cbn [build_parents]. rewrite Hg.
  destruct (gathered group) as [|x l] eqn:Et; [by destruct (gathered_nonempty group Hne Hokg)|]. rewrite <- Et.
  destruct (Ulid.GenerateUlid draw now_ms g) as [pid g1] eqn:Eg.
  pose proof (make_children_spec pid (SplitIntoChildren config token_counter (gathered group)) index g1) as Hc.
  set (spans := SplitIntoChildren config token_counter (gathered group)) in *.
  destruct (make_children draw input now_ms pid spans (u32 index) g1) as [[cs i'] g2].
  destruct Hc as (Hs & Hi & -> & -> & Hn & Hp & Hd).
  assert (length rest <= fuel)%nat as Hr.
  { apply (f_equal length) in Hsplit. rewrite length_app in Hsplit. destruct group; [done|].
    simpl in *. lia. }
  set (p := MkParentChunk pid (doc_id input) (namespace_id input) (gathered group)
            (token_counter (gathered group)) (u_page_num first) (last_page group)
            (u_byte_offset first) (last_byte group) (metadata input) (child_id <$> cs) now_ms).
  destruct (IH rest (index + len spans)
    (MkChunkerOutput (parents out ++ [p]) (children out ++ cs) (stats out)) (after (length spans) g1) Hr Hokr)
    as (groups & ps & css & n & Hb & Hj & Hgr & Ht & Hids & Hnum).
  exists (group :: groups), (p :: ps), (cs :: css), (S (length spans + n)).
  assert (after (S (length spans + n)) g = after n (after (length spans) g1)) as Ha.
  { change (after (length spans + n) (Ulid.GenerateUlid draw now_ms g).2 = after n (after (length spans) g1)).
    rewrite Eg. apply after_app. }
  split.
  { rewrite Ha. etransitivity; [exact Hb|]. simpl. by rewrite <- !app_assoc. }
  split; [simpl; by rewrite Hj|]. split; [simpl; rewrite Hj; by split_and!|]. split.
  { constructor; [|done]. split; simpl; try done.
    - split; [|done]. destruct group; [done|]. by injection Hsplit as ->.
    - split; [|done]. destruct group; [done|]. by injection Hsplit as ->. }
  split.
  { change (pid :: (child_id <$> cs) ++ tree_ids ps = ids (S (length spans + n)) g).
    rewrite Hi, Hids, <- ids_app. unfold ids. simpl. by rewrite Eg. }
  apply numbered_app; [done|]. replace (len cs) with (len spans); [done|].
  rewrite <- Hs. by rewrite len_fmap.
Qed.

End Tree.

(** ** How many parents there are *)

Lemma greedy_count size groups :
  0 <= size -> Forall (fun u => u_text u <> [] /\ 0 <= u_token_count u) (mjoin groups) ->
  greedy size groups -> (len groups - 1) * size <= 2 * tokens (mjoin groups).
Proof.
  intros Hs Hf Hg. destruct groups as [|us groups]; [rewrite len_nil; simpl; lia|].
  enough ((len (us :: groups) - 1) * size + tokens us <= 2 * tokens (mjoin (us :: groups))) as H.
  { simpl in Hf. apply Forall_app in Hf as [Hf _]. pose proof (tokens_nonneg _ Hf). lia. }
  revert us Hf Hg. induction groups as [|vs groups IH]; intros us Hf (Hne & _ & Hmax & Hg).
  { simpl in *. rewrite app_nil_r in *. change (len [us]) with 1. pose proof (tokens_nonneg _ Hf). lia. }
  change (mjoin (us :: vs :: groups)) with (us ++ mjoin (vs :: groups)) in *.
  apply Forall_app in Hf as [Hfu Hf]. specialize (IH vs Hf Hg). rewrite (tokens_app us), !len_cons in *.
  change (mjoin (vs :: groups)) with (vs ++ mjoin groups) in *.
  destruct vs as [|v vs]; [by destruct Hg|].
  assert (size < tokens us + u_token_count v) by (by apply Hmax).
  apply Forall_app in Hf as [Hv _]. apply Forall_cons in Hv as [_ Hv]. pose proof (tokens_nonneg _ Hv).
  change (tokens (v :: vs)) with (u_token_count v + tokens vs) in IH. lia.
Qed.

(** ** Units *)

Section Units.
Context (config : ChunkerConfig) (token_counter : bytes -> Z).
Context (Hcounter : forall t, 0 <= token_counter t < 2 ^ 32).

Lemma emit_all_ok n off raw :
  Forall (fun u => u_text u <> [] /\ 0 <= u_token_count u) (emit_all token_counter n off raw).1.
Proof.
  revert off. induction raw as [|r raw IH]; intros off; simpl; [constructor|].
  destruct (Trim r) as [|x t]; [apply IH|]. specialize (IH (u64 (off + len (x :: t)))).
  destruct (emit_all _ _ _ raw) as [us o]. constructor; [|exact IH]. split; [done|]. apply Hcounter.
Qed.

Lemma collect_ok ps off st :
  Forall (fun u => u_text u <> [] /\ 0 <= u_token_count u) (collect config token_counter ps off st).1.
Proof.
  revert off st. induction ps as [|p ps IH]; intros off st; simpl; [constructor|].
  pose proof (emit_all_ok (if 0 <=? Parser.page_num p then Parser.page_num p else 0) off (raws config p)) as He.
  destruct (emit_all _ _ _ _) as [us o].
  match goal with |- context [collect _ _ ps o ?st'] => specialize (IH o st'); destruct (collect _ _ ps o st') end.
  by apply Forall_app.
Qed.

Lemma total_tokens_sum us :
  Forall (fun u => u_text u <> [] /\ 0 <= u_token_count u) us -> tokens us < 2 ^ 32 ->
  total_tokens us = tokens us.
Proof.
  intros Hf Ht. unfold total_tokens.
  enough (forall n, 0 <= n -> n + tokens us < 2 ^ 64 ->
    foldl (fun n u => u64 (n + u_token_count u)) n us = n + tokens us) as H by (rewrite H; lia).
  clear Ht. induction Hf as [|u us [_ Hu] Hf IH]; intros n Hn Hs; simpl in *; [lia|].
  pose proof (tokens_nonneg _ Hf). rewrite u64_small, IH; lia.
Qed.

End Units.

(** ** The settings *)

Lemma first_error_ok checks : status_ok (first_error checks) = true -> Forall (fun s => status_ok s = true) checks.
Proof.
  induction checks as [|s cs IH]; [constructor|]. simpl. destruct (status_ok s) eqn:E; simpl; [|congruence].
  intros H. constructor; auto.
Qed.

Lemma ValidateRange_ok key v lo hi : status_ok (ValidateRange key v lo hi) = true <-> lo <= v <= hi.
Proof.
  unfold ValidateRange. destruct (Z.ltb_spec v lo), (Z.ltb_spec hi v); simpl; (split; [try discriminate|]);
    try lia; try done; unfold status_ok; simpl; intros; case_bool_decide; try done; lia.
Qed.

Definition in_range (c : ChunkerConfig) : Prop :=
  256 <= parent_size c <= 8192 /\ 50 <= child_size c <= 8192 /\ 0 <= child_overlap c <= 100 /\
  100 <= max_parents_per_doc c <= 100000 /\ 100 <= fallback_to_flat_threshold c <= 100000 /\
  1 <= children_per_parent_for_rerank c <= 10 /\ child_size c <= parent_size c.

Lemma ValidateConfig_ok c : status_ok (ValidateConfig c) = true -> in_range c.
Proof.
  intros H%first_error_ok. rewrite !Forall_cons, !ValidateRange_ok in H.
  destruct H as (H1 & H2 & H3 & H4 & H5 & H6 & H7 & _). unfold in_range. split_and!; try done; try lia.
  destruct (Z.ltb_spec (parent_size c) (child_size c)); [done|lia].
Qed.

Lemma est_parents_above c us :
  in_range c -> Forall (fun u => u_text u <> [] /\ 0 <= u_token_count u) us -> tokens us < 2 ^ 32 ->
  (u64 (fallback_to_flat_threshold c) <? est_parents c us)
  = (fallback_to_flat_threshold c * parent_size c <? tokens us).
Proof.
  intros Hc Hf Ht. unfold in_range in Hc. pose proof (tokens_nonneg _ Hf). unfold est_parents.
  rewrite total_tokens_sum by done. rewrite Z.max_r by lia. rewrite !u64_small by lia.
  set (p := parent_size c) in *. set (th := fallback_to_flat_threshold c) in *.
  apply Bool.eq_iff_eq_true. rewrite !Z.ltb_lt.
  pose proof (Z.div_mod (tokens us + p - 1) p ltac:(lia)).
  pose proof (Z.mod_pos_bound (tokens us + p - 1) p ltac:(lia)). nia.
Qed.

(** ** The flat layer *)

Lemma join_text_gathered us : units_ok us -> join_text us = gathered us.
Proof.
  intros Hok. induction us as [|u us IH] using rev_ind; [done|].
  unfold join_text. rewrite foldl_app. simpl. fold (join_text us).
  pose proof (units_ok_app _ _ Hok) as [Hus _]. rewrite IH by done.
  destruct us as [|v us]; [done|]. rewrite gathered_snoc by done.
  destruct (gathered (v :: us)) eqn:E; [by destruct (gathered_nonempty (v :: us) ltac:(done) Hus)|done].
Qed.

Lemma EstimateTokens_range t : 0 <= EstimateTokens t < 2 ^ 32.
Proof. apply Z.mod_pos_bound. lia. Qed.

(** The identifiers of a tree are distinct, and in string order, as long as
    the generator does not reach its largest random part. *)
Lemma tree_ids_sorted draw now n g :
  0 <= now < 2 ^ 48 -> Ulid.wf g ->
  Forall (fun m => Ulid.has_room m.2) (Ulid.mints draw (replicate n now) g) ->
  StronglySorted (fun a b => Ulid.string_lt a b = true) (ids draw now n g).
Proof.
  intros Hn Hg Hr. pose proof (Ulid.mints_sorted draw (replicate n now) g) as H.
  assert (StronglySorted Z.le (replicate n now)) as Hs.
  { clear. induction n; constructor; [done|]. apply Forall_replicate. lia. }
  specialize (H ltac:(by apply Forall_replicate) Hs Hg Hr). unfold ids. revert H.
  generalize (Ulid.mints draw (replicate n now) g). clear.
  induction 1 as [|m l _ IH Hall]; [constructor|]. rewrite fmap_cons. constructor; [exact IH|]. by apply Forall_fmap.
Qed.

(** ** Properties *)

(** C40: [Chunk] under settings in range, a 32-bit counter and fewer than 2^32
    tokens.  A document without units is refused as empty and no identifier is
    minted.  With the flat strategy, or more tokens than the threshold has
    parent sizes, the result is the split of the whole text, with no parents,
    no links and consecutive numbers.  Otherwise the parents gather the units
    greedily, in order and without loss: each is its units' texts joined by a
    newline, holds at most [parent_size] tokens or is a single unit, and could
    not have taken the next one; its pages and bytes are those of its first and
    last unit; its children are the split of its text and carry its identifier,
    as it lists theirs; children are numbered through the document and the
    identifiers are those of one run of the generator.  There are at most
    [2 * tokens / parent_size + 1] parents, and the result is refused exactly
    when there are more than [max_parents_per_doc]. *)
Theorem Chunk_tree config token_counter draw input now_ms g
  (Hconfig : status_ok (ValidateConfig config) = true)
  (Hcounter : forall t, 0 <= token_counter t < 2 ^ 32)
  (Hsmall : tokens (CollectUnits config token_counter input no_stats).1 < 2 ^ 32) :
  let '(units, st) := CollectUnits config token_counter input no_stats in
  let result := Chunk config token_counter draw input now_ms g in
  let flat := strategy config = kFlat \/
    fallback_to_flat_threshold config * parent_size config < tokens units in
  (units = [] -> exists detail,
     result = (Error (ChunkStatus kInvalidArgument "CX_ERR_CHUNK_EMPTY_DOCUMENT" detail), g)) /\
  (units <> [] -> flat -> exists cs n,
     result = (Value (with_totals (MkChunkerOutput [] cs (with_fallback st))), after draw now_ms n g) /\
     (fun c => MkChildSpan (child_text c) (parent_offset c) (c_token_count c)) <$> cs =
       SplitIntoChildren config token_counter (gathered units) /\
     child_id <$> cs = ids draw now_ms n g /\ Forall (fun c => parent_id c = []) cs /\ numbered 0 cs) /\
  (units <> [] -> ~ flat -> exists groups ps css n,
     mjoin groups = units /\ greedy (parent_size config) groups /\
     Forall3 (tree_of config token_counter input now_ms) groups ps css /\
     tree_ids ps = ids draw now_ms n g /\ numbered 0 (mjoin css) /\
     (len ps - 1) * parent_size config <= 2 * tokens units /\
     exists detail, result =
       (if max_parents_per_doc config <? len ps
        then Error (ChunkStatus kInvalidArgument "CX_ERR_CHUNK_OVERFLOW" detail)
        else Value (with_totals (MkChunkerOutput ps (mjoin css) st)), after draw now_ms n g)).
Proof.
  pose proof (ValidateConfig_ok _ Hconfig) as Hrange.
  unfold Chunk. pose proof (collect_ok config token_counter Hcounter (pages input) 0 no_stats) as Hunits.
  fold (CollectUnits config token_counter input no_stats) in Hunits.
  destruct (CollectUnits config token_counter input no_stats) as [units st]. simpl in Hsmall, Hunits.
  assert (units_ok units) as Hok by done. cbn zeta.
  split; [intros ->; by eexists|].
  rewrite (est_parents_above config units Hrange Hunits Hsmall).
  split; intros Hne Hflat; (destruct units as [|u units]; [done|]); set (us := u :: units) in *.
  - assert (bool_decide (strategy config = kFlat)
      || (fallback_to_flat_threshold config * parent_size config <? tokens us) = true) as ->.
    { apply orb_true_iff. rewrite bool_decide_eq_true, Z.ltb_lt. exact Hflat. }
    unfold BuildFlat. rewrite join_text_gathered by done.
    pose proof (make_children_spec draw input now_ms [] (SplitIntoChildren config token_counter (gathered us)) 0 g) as Hc.
    rewrite (u32_small 0) in Hc by lia.
    destruct (make_children _ _ _ _ _ _ _) as [[cs i] g'].
    destruct Hc as (Hs & Hi & -> & _ & Hn & Hp & _). by eexists cs, _.
  - assert (bool_decide (strategy config = kFlat)
      || (fallback_to_flat_threshold config * parent_size config <? tokens us) = false) as ->.
    { apply orb_false_iff. rewrite bool_decide_eq_false, Z.ltb_ge. split; [tauto|lia]. }
    unfold BuildParentChild.
    destruct (build_parents_spec config token_counter draw input now_ms (length us) us 0
      (MkChunkerOutput [] [] st) g) as (groups & ps & css & n & Hb & Hj & Hg & Ht & Hids & Hn); [done|done|].
    rewrite (u32_small 0) in Hb by lia. rewrite Hb. unfold in_range in Hrange.
    rewrite u32_small in Hg by lia. rewrite (u64_small (max_parents_per_doc config)) by lia.
    assert (len ps = len groups) as El by (unfold len; by rewrite (Forall3_length_lm _ _ _ _ Ht)).
    exists groups, ps, css, n. split_and!; try done.
    + rewrite El, <- Hj. apply greedy_count; [lia|by rewrite Hj|done].
    + simpl. eexists. by case_match.
Qed.

(** A document whose pages are [texts], each one paragraph. *)
Definition document (texts : list string) : ChunkerInput :=
  MkChunkerInput "d" "ns"
    ((fun t => Parser.MkParsedPage 1 t [] (Parser.MkPageMetadata 0 "" (Floats.SpecFloat.S754_zero false) false 0)) <$> texts)
    Parser.no_metadata.

Definition counting (k : nat) : Z := Z.of_nat k * 37.

Lemma Chunk_tree_witness :
  let input := document ["one two"; " "; "three"]%string in
  exists groups ps css n detail,
    mjoin groups = (CollectUnits default_config EstimateTokens input no_stats).1 /\
    Forall3 (tree_of default_config EstimateTokens input 7) groups ps css /\
    (Chunk default_config EstimateTokens counting input 7 Ulid.initial).1 =
      (if 10000 <? len ps then Error (ChunkStatus kInvalidArgument "CX_ERR_CHUNK_OVERFLOW" detail)
       else Value (with_totals (MkChunkerOutput ps (mjoin css)
              (CollectUnits default_config EstimateTokens input no_stats).2))) /\
    tree_ids ps = ids counting 7 n Ulid.initial.
Proof.
  intros input.
  pose proof (Chunk_tree default_config EstimateTokens counting input 7 Ulid.initial
    ltac:(vm_compute; reflexivity) EstimateTokens_range ltac:(vm_compute; reflexivity)) as H.
  destruct (CollectUnits default_config EstimateTokens input no_stats) as [units st] eqn:E.
  assert (units <> []) as Hne.
  { intros ->. apply (f_equal (fun r => length r.1)) in E. vm_compute in E. discriminate. }
  destruct H as (_ & _ & H). destruct H as (groups & ps & css & n & H1 & _ & H2 & H3 & _ & _ & detail & H4).
  - exact Hne.
  - intros [Hf|Hf]; [discriminate|].
    assert (tokens units = 4) as Ht.
    { transitivity (tokens (CollectUnits default_config EstimateTokens input no_stats).1);
        [by rewrite E|vm_compute; reflexivity]. }
    rewrite Ht in Hf. discriminate.
  - exists groups, ps, css, n, detail. by rewrite H4.
Defined.

Module ChunkerRuns.

(** A paragraph of [n] words of one letter. *)
Fixpoint words (n : nat) : string :=
  match n with O => "" | S n => "a " +:+ words n end.

(** The estimate is no upper bound on the parents: units of 1 and of 256 tokens
    in turn make one parent each, about twice the estimate. *)
Lemma Overflow_reached :
  let config := MkChunkerConfig kParentChild 256 256 0 kParagraph 100 100 3 in
  let input := document (mjoin (replicate 51 ["a"%string; words 256])) in
  status_ok (ValidateConfig config) = true /\
  est_parents config (CollectUnits config EstimateTokens input no_stats).1 = 52 /\
  (exists s, (Chunk config EstimateTokens counting input 7 Ulid.initial).1 = Error s /\
     String.prefix "CX_ERR_CHUNK_OVERFLOW" (status_message s) = true).
Proof.
  split_and!; [vm_compute; reflexivity|vm_compute; reflexivity|].
  eexists. split; [vm_compute; reflexivity|vm_compute; reflexivity].
Qed.

(** Byte offsets count the trimmed texts alone: the second page of a document
    starts at 1, although two bytes come before it. *)
Lemma Offsets_skip_blanks :
  u_byte_offset <$> (CollectUnits default_config EstimateTokens (document ["a "; "b"]%string) no_stats).1 = [0; 1].
Proof. vm_compute. reflexivity. Qed.

End ChunkerRuns.
