(* ===== verification/ChildParentDedup.v ===== *)
(** * Hits back to parents (src/chunker/child_parent_dedup.cpp)

    A search returns child hits.  [DedupChildrenToParents] groups them by
    parent, orders each group and the groups by score, and keeps the first few
    children of each parent for the reranker.  A score is a binary32 float; the
    comparisons are those of the floats, so the theorems ask that no score is
    NaN (with one, [std::sort] has no meaning).  [std::sort] is a merge sort:
    entries that the comparison does not tell apart agree in all that is read
    afterwards. *)
From Stdlib Require Import Floats.SpecFloat Sorted.
From stdpp Require Import gmap sorting strings.
From S2P Require Import Prelude.

Module ChildParentDedup.

Definition float := spec_float.

Record ChildHit := MkChildHit { child_id : string; parent_id : string; score : float }.

Record ParentHitGroup := MkParentHitGroup {
  g_parent_id : string;
  primary_child_id : string;
  rerank_child_ids : list string;
  all_hit_child_ids : list string;
  top_score : float
}.

Record ChildrenHitsPerParent := MkChildrenHitsPerParent {
  m_parent_id : string; m_hits : list string; primary_child : string
}.

Record Accum := MkAccum { a_parent_id : string; a_hits : list ChildHit }.

Definition empty_id (s : string) : bool := bool_decide (s = ""%string).

(** The key of a hit: its parent, or a key of its own in the flat layer. *)
Definition key_of (h : ChildHit) : string :=
  if empty_id (parent_id h) then String (Ascii.ascii_of_nat 1) (child_id h) else parent_id h.

(** One turn of the grouping loop: [by_key] and [key_order]. *)
Definition add_hit (acc : gmap string Accum * list string) (h : ChildHit)
    : gmap string Accum * list string :=
  let '(by_key, key_order) := acc in
  let key := key_of h in
  match by_key !! key with
  | None => (<[key := MkAccum (parent_id h) [h]]> by_key, key_order ++ [key])
  | Some a => (<[key := MkAccum (a_parent_id a) (a_hits a ++ [h])]> by_key, key_order)
  end.

Definition string_ltb (a b : string) : bool := String.ltb a b.

Definition hit_before (x y : ChildHit) : bool :=
  if negb (SFeqb (score x) (score y)) then SFltb (score y) (score x)
  else string_ltb (child_id x) (child_id y).

Definition group_key (g : ParentHitGroup) : string :=
  if empty_id (g_parent_id g) then primary_child_id g else g_parent_id g.

Definition group_before (x y : ParentHitGroup) : bool :=
  if negb (SFeqb (top_score x) (top_score y)) then SFltb (top_score y) (top_score x)
  else string_ltb (group_key x) (group_key y).

(** [std::sort] with a comparison. *)
Definition sort {A} (before : A -> A -> bool) (l : list A) : list A :=
  merge_sort (fun x y => Is_true (negb (before y x))) l.

Definition make_group (cap : Z) (a : Accum) : ParentHitGroup :=
  let hits := sort hit_before (a_hits a) in
  MkParentHitGroup (a_parent_id a)
    (from_option child_id ""%string (head hits))
    (child_id <$> take (Z.to_nat cap) hits)
    (child_id <$> hits)
    (from_option score (S754_zero false) (head hits)).

Definition DedupChildrenToParents (hits : list ChildHit) (children_per_parent_for_rerank : Z)
    : list ParentHitGroup :=
  let cap := Z.max 1 children_per_parent_for_rerank in
  let '(by_key, key_order) := foldl add_hit (∅, []) hits in
  sort group_before
    ((fun key => make_group cap (default (MkAccum "" []) (by_key !! key))) <$> key_order).

Definition BuildChildrenHitsMeta (groups : list ParentHitGroup) : list ChildrenHitsPerParent :=
  (fun g => MkChildrenHitsPerParent (g_parent_id g) (all_hit_child_ids g) (primary_child_id g)) <$> groups.

(** ** The order of floats *)

Definition not_nan (f : float) : Prop := f <> S754_nan.

(** Where a float lies: below, at or above zero, then by exponent and mantissa. *)
Definition rank (f : float) : Z * (Z * Z) :=
  match f with
  | S754_zero _ => (0, (0, 0))
  | S754_infinity s => ((if s then -2 else 2), (0, 0))
  | S754_nan => (3, (0, 0))
  | S754_finite false m e => (1, (e, Z.pos m))
  | S754_finite true m e => (-1, (- e, Z.neg m))
  end.

Definition rank_lt (a b : Z * (Z * Z)) : Prop :=
  a.1 < b.1 \/ (a.1 = b.1 /\ (a.2.1 < b.2.1 \/ (a.2.1 = b.2.1 /\ a.2.2 < b.2.2))).

Lemma SFltb_rank x y : not_nan x -> not_nan y -> SFltb x y = true <-> rank_lt (rank x) (rank y).
Proof.
  unfold not_nan, SFltb, rank_lt. intros Hx Hy.
  destruct x as [sx|sx| |sx mx ex], y as [sy|sy| |sy my ey]; try done; cbn [SFcompare];
    repeat match goal with s : bool |- _ => destruct s end; simpl; try (split; [done|lia]); try (split; [lia|done]).
  - destruct (Z.compare_spec ex ey) as [->|H|H]; [|split; [lia|lia]..].
    change (Pos.compare_cont Eq mx my) with (Pos.compare mx my).
    destruct (Pos.compare_spec mx my); simpl; split; try done; lia.
  - destruct (Z.compare_spec ex ey) as [->|H|H]; [|split; [lia|lia]..].
    change (Pos.compare_cont Eq mx my) with (Pos.compare mx my).
    destruct (Pos.compare_spec mx my); simpl; split; try done; lia.
Qed.

Lemma SFcompare_swap x y : SFcompare y x = CompOpp <$> SFcompare x y.
Proof.
  destruct x as [[]|[]| |[] mx ex], y as [[]|[]| |[] my ey]; simpl; try done;
    rewrite (Z.compare_antisym ex ey); destruct (ex ?= ey)%Z; simpl; try done;
    change (Pos.compare_cont Eq my mx) with (Pos.compare my mx);
    change (Pos.compare_cont Eq mx my) with (Pos.compare mx my);
    rewrite (Pos.compare_antisym mx my); by destruct (mx ?= my)%positive.
Qed.

Lemma SFeqb_neither x y : not_nan x -> not_nan y ->
  SFeqb x y = true <-> SFltb x y = false /\ SFltb y x = false.
Proof.
  intros Hx Hy. unfold SFeqb, SFltb. rewrite (SFcompare_swap x y).
  destruct (SFcompare x y) as [[]|] eqn:E; simpl; try (split; [try done|]; try tauto; by intros []).
  exfalso. destruct x, y; simpl in E; congruence.
Qed.

Lemma rank_lt_irrefl a : ~ rank_lt a a.
Proof. unfold rank_lt. lia. Qed.

(** ** Sorting by score, then by name *)

Section Before.
Context {A : Type} (s : A -> float) (k : A -> string).

Definition before_by (x y : A) : bool :=
  if negb (SFeqb (s x) (s y)) then SFltb (s y) (s x) else string_ltb (k x) (k y).

(** [x] may stand in front of [y]. *)
Definition in_order (x y : A) : Prop := Is_true (negb (before_by y x)).

Lemma string_ltb_swap a b : string_ltb a b = true -> string_ltb b a = false.
Proof. unfold string_ltb, String.ltb. rewrite (String.compare_antisym b a). by destruct (a ?= b)%string. Qed.

#[export] Instance in_order_total : Total in_order.
Proof.
  intros x y. unfold in_order, before_by, SFeqb, SFltb. rewrite (SFcompare_swap (s x) (s y)).
  destruct (SFcompare (s x) (s y)) as [[]|]; simpl; auto.
  destruct (string_ltb (k y) (k x)) eqn:E; [|auto]. right. by rewrite (string_ltb_swap _ _ E).
Qed.

Lemma string_ltb_le a b : string_ltb a b = false <-> String.le b a.
Proof.
  unfold string_ltb, String.le, String.ltb, String.leb. rewrite (String.compare_antisym b a).
  destruct (a ?= b)%string; simpl; naive_solver.
Qed.

Lemma in_order_rank x y : not_nan (s x) -> not_nan (s y) ->
  in_order x y <->
  rank_lt (rank (s y)) (rank (s x)) \/
  (~ rank_lt (rank (s x)) (rank (s y)) /\ ~ rank_lt (rank (s y)) (rank (s x)) /\ String.le (k x) (k y)).
Proof.
  intros Hx Hy. rewrite <- !SFltb_rank, <- string_ltb_le by done. unfold in_order, before_by.
  destruct (SFeqb (s y) (s x)) eqn:E; simpl.
  - apply SFeqb_neither in E as [-> ->]; [|done..]. destruct (string_ltb (k y) (k x)); simpl; naive_solver.
  - destruct (SFltb (s x) (s y)) eqn:E1, (SFltb (s y) (s x)) eqn:E2; simpl.
    + exfalso. apply SFltb_rank in E1, E2; [|done..]. unfold rank_lt in *. lia.
    + naive_solver.
    + split; [by left|done].
    + exfalso. assert (SFeqb (s y) (s x) = true) by (apply SFeqb_neither; [done..|split; done]). congruence.
Qed.

Lemma in_order_trans x y z : not_nan (s x) -> not_nan (s y) -> not_nan (s z) ->
  in_order x y -> in_order y z -> in_order x z.
Proof.
  intros Hx Hy Hz. rewrite !in_order_rank by done. unfold rank_lt.
  intros [H1|(H1 & H1' & L1)] [H2|(H2 & H2' & L2)]; [left; lia..|].
  right. split; [lia|]. split; [lia|]. by trans (k y).
Qed.

Lemma sorted_strongly l : Forall (fun x => not_nan (s x)) l -> Sorted in_order l -> StronglySorted in_order l.
Proof.
  induction 2 as [|x l Hs IH Hd]; constructor; apply Forall_cons in H as [Hx Hl]; [by apply IH|].
  specialize (IH Hl). destruct Hd as [|y l Hxy]; constructor; [done|].
  apply StronglySorted_inv in IH as [_ Hy]. apply Forall_cons in Hl as [Hny Hl].
  rewrite Forall_forall in *. intros z Hz. apply (in_order_trans x y z); auto.
Qed.

Lemma sort_sorted l : Forall (fun x => not_nan (s x)) l -> StronglySorted in_order (sort before_by l).
Proof.
  intros Hl. apply sorted_strongly; [|apply (Sorted_merge_sort in_order)].
  unfold sort. by rewrite merge_sort_Permutation.
Qed.

Lemma sort_perm l : sort before_by l ≡ₚ l.
Proof. apply merge_sort_Permutation. Qed.

End Before.

(** ** Grouping *)

Definition hits_of (key : string) (hits : list ChildHit) : list ChildHit :=
  filter (fun h => key_of h = key) hits.

(** [by_key] and [key_order] after the loop over [hits]. *)
Definition grouped (hits : list ChildHit) (acc : gmap string Accum * list string) : Prop :=
  NoDup acc.2 /\
  (forall key, key ∈ acc.2 <-> key ∈ key_of <$> hits) /\
  (forall key a, acc.1 !! key = Some a ->
     a_hits a = hits_of key hits /\ option_map parent_id (head (a_hits a)) = Some (a_parent_id a)) /\
  (forall key, is_Some (acc.1 !! key) <-> key ∈ acc.2).

Lemma hits_of_snoc key hits h :
  hits_of key (hits ++ [h]) = hits_of key hits ++ (if decide (key_of h = key) then [h] else []).
Proof. unfold hits_of. rewrite filter_app, filter_cons, filter_nil. done. Qed.

Lemma grouped_step hits acc h : grouped hits acc -> grouped (hits ++ [h]) (add_hit acc h).
Proof.
  destruct acc as [m order]. intros (Hnd & Hin & Hm & Hdom). unfold grouped, add_hit. simpl in *.
  destruct (m !! key_of h) as [a|] eqn:E; simpl.
  - assert (key_of h ∈ order) as Ho by (apply Hdom; by rewrite E).
    split_and!; [done| | |].
    + intros key. rewrite fmap_app, elem_of_app, <- Hin. simpl. set_solver.
    + intros key b Hb. rewrite hits_of_snoc. destruct (decide (key_of h = key)) as [<-|Hne].
      * rewrite lookup_insert_eq in Hb. injection Hb as <-. destruct (Hm _ _ E) as (-> & Hh). simpl.
        split; [done|]. by destruct (hits_of (key_of h) hits).
      * rewrite lookup_insert_ne in Hb by done. rewrite app_nil_r. by apply Hm.
    + intros key. rewrite lookup_insert_is_Some, <- Hdom. apply Hdom in Ho.
      destruct (decide (key_of h = key)) as [<-|Hne]; naive_solver.
  - assert (key_of h ∉ order) as Ho by (rewrite <- Hdom, E; by intros [? ?]).
    split_and!.
    + apply NoDup_app. split; [done|]. split; [|apply NoDup_singleton]. set_solver.
    + intros key. rewrite fmap_app, !elem_of_app, <- Hin. simpl. set_solver.
    + intros key b Hb. rewrite hits_of_snoc. destruct (decide (key_of h = key)) as [<-|Hne].
      * rewrite lookup_insert_eq in Hb. injection Hb as <-. simpl.
        assert (hits_of (key_of h) hits = []) as ->.
        { apply filter_none, Forall_forall. intros x Hx Hk. apply Ho, Hin. rewrite <- Hk. by apply list_elem_of_fmap_2. }
        done.
      * rewrite lookup_insert_ne in Hb by done. rewrite app_nil_r. by apply Hm.
    + intros key. rewrite lookup_insert_is_Some, elem_of_app, list_elem_of_singleton, Hdom.
      destruct (decide (key_of h = key)) as [<-|Hne]; naive_solver.
Qed.

Lemma grouped_all hits : grouped hits (foldl add_hit (∅, []) hits).
Proof.
  induction hits as [|h hits IH] using rev_ind.
  - split; [constructor|]. split; [done|]. split; [intros key a; simpl; by rewrite lookup_empty|].
    intros key. simpl. rewrite lookup_empty. split; [by intros [? ?]|by intros ?%not_elem_of_nil].
  - rewrite foldl_app. by apply grouped_step.
Qed.

(** Hits with one key have one parent, unless a parent is named like the key of
    a hit without one. *)
Definition plain_parent (h : ChildHit) : Prop :=
  match parent_id h with String c _ => c <> Ascii.ascii_of_nat 1 | EmptyString => True end.

Lemma same_parent x y : plain_parent x -> plain_parent y -> key_of x = key_of y -> parent_id x = parent_id y.
Proof.
  unfold plain_parent, key_of, empty_id. intros Hx Hy.
  destruct (parent_id x), (parent_id y); simpl; try done; congruence.
Qed.

(** ** Properties *)

(** What the group of a key holds: the hits with that key, each once, by score
    and then by name, the first [cap] of them for the reranker. *)
Definition group_of (hits : list ChildHit) (cap : Z) (key : string) (g : ParentHitGroup) : Prop :=
  exists first rest,
    first :: rest ≡ₚ hits_of key hits /\ StronglySorted (in_order score child_id) (first :: rest) /\
    Forall (fun h => parent_id h = g_parent_id g) (first :: rest) /\
    primary_child_id g = child_id first /\ top_score g = score first /\
    all_hit_child_ids g = child_id <$> first :: rest /\
    rerank_child_ids g = take (Z.to_nat cap) (all_hit_child_ids g).

Lemma make_group_of hits cap key a :
  Forall (fun h => not_nan (score h)) hits -> Forall plain_parent hits ->
  a_hits a = hits_of key hits -> option_map parent_id (head (a_hits a)) = Some (a_parent_id a) ->
  group_of hits cap key (make_group cap a).
Proof.
  intros Hn Hp Ha Hh. pose proof (sort_perm score child_id (a_hits a)) as Hperm.
  assert (Forall (fun h => not_nan (score h)) (a_hits a)) as Hna 
    by (rewrite Ha; unfold hits_of; rewrite Forall_forall in *; intros h [_ Hh']%list_elem_of_filter; auto).
  pose proof (sort_sorted score child_id (a_hits a) Hna) as Hs. unfold make_group.
  change (sort (before_by score child_id) (a_hits a)) with (sort hit_before (a_hits a)) in *.
  destruct (sort hit_before (a_hits a)) as [|first rest].
  { apply Permutation_nil_l in Hperm. by rewrite <- Hperm in Hh. }
  exists first, rest. rewrite Ha in Hperm. simpl. split_and!; try done; [|by rewrite fmap_take].
  rewrite Hperm. apply Forall_forall. intros h Hin.
  destruct (a_hits a) as [|f fs] eqn:Ef; [done|]. injection Hh as <-.
  assert (f ∈ hits_of key hits) as Hf by (rewrite <- Ha; by left).
  unfold hits_of in *. apply list_elem_of_filter in Hin as [Hk Hin], Hf as [Hkf Hf].
  rewrite Forall_forall in Hp. apply same_parent; auto. congruence.
Qed.

(** With no NaN among the scores and no parent named with the prefix of the
    flat keys, the groups are one for each key of the hits, best first: by top
    score, then by name.  A group holds the hits of its key, each once, in
    descending order of score and then by name; they have the group's parent;
    its primary child and top score are those of the first; the reranker gets
    the first [children_per_parent_for_rerank] of them, and at least one. *)
Theorem Dedup_groups hits n
  (Hnan : Forall (fun h => not_nan (score h)) hits) (Hplain : Forall plain_parent hits) :
  let groups := DedupChildrenToParents hits n in
  StronglySorted (in_order top_score group_key) groups /\
  exists keys, NoDup keys /\ (forall key, key ∈ keys <-> exists h, h ∈ hits /\ key_of h = key) /\
    exists gs, gs ≡ₚ groups /\ Forall2 (group_of hits (Z.max 1 n)) keys gs.
Proof.
  unfold DedupChildrenToParents. pose proof (grouped_all hits) as Hg.
  destruct (foldl add_hit (∅, []) hits) as [m order]. destruct Hg as (Hnd & Hin & Hm & Hdom). simpl in *.
  set (gs := (fun key => make_group (Z.max 1 n) (default (MkAccum "" []) (m !! key))) <$> order).
  assert (Forall2 (group_of hits (Z.max 1 n)) order gs) as Hall.
  { apply Forall2_fmap_r, Forall_Forall2_diag, Forall_forall. intros key Hk. apply Hdom in Hk as [a Ha].
    simpl. rewrite Ha. destruct (Hm _ _ Ha). by apply make_group_of. }
  split.
  - apply (sort_sorted top_score group_key). apply Forall_forall. intros g Hgin.
    apply list_elem_of_lookup in Hgin as [i Hi].
    destruct (Forall2_lookup_r _ _ _ _ _ Hall Hi) as (key & _ & first & rest & Hp & _ & _ & _ & -> & _).
    rewrite Forall_forall in Hnan. apply Hnan.
    assert (first ∈ hits_of key hits) as Hf by (rewrite <- Hp; by left). by apply list_elem_of_filter in Hf as [_ Hf].
  - exists order. split; [done|]. split.
    + intros key. rewrite Hin, list_elem_of_fmap. naive_solver.
    + exists gs. split; [|done]. symmetry. apply (sort_perm top_score group_key).
Qed.

Lemma Dedup_groups_witness :
  let f m := S754_finite false m (-4) in
  let hits := [MkChildHit "c1" "p1" (f 3%positive); MkChildHit "c2" "p2" (f 9%positive);
               MkChildHit "c3" "p1" (f 12%positive); MkChildHit "c4" "" (f 9%positive);
               MkChildHit "c0" "p1" (f 3%positive)] in
  DedupChildrenToParents hits 2 =
    [MkParentHitGroup "p1" "c3" ["c3"; "c0"] ["c3"; "c0"; "c1"] (f 12%positive);
     MkParentHitGroup "" "c4" ["c4"] ["c4"] (f 9%positive);
     MkParentHitGroup "p2" "c2" ["c2"] ["c2"] (f 9%positive)]%string /\
  StronglySorted (in_order top_score group_key) (DedupChildrenToParents hits 2).
Proof.
  intros f hits. split; [vm_compute; reflexivity|]. refine (proj1 (Dedup_groups hits 2 _ _)).
  - repeat constructor; discriminate.
  - repeat constructor; discriminate.
Defined.

End ChildParentDedup.
