(* ===== verification/SpcPipeline.v ===== *)
(** * The ingestion pipeline (src/spc/spc_pipeline.cpp)

    [Process] and [ProcessParsed] on the stores of one namespace: chunking, the
    metadata block, enrichment, embedding, cleaning, scoring and assembly compute a
    write set; [write] puts it into the stores between a BeginWrite and a
    Commit of the coordinator, and every failure in between goes through a Rollback;
    [MarkDocumentReady] publishes the version.  The stages are those of SpcStages.v
    and ParentChildChunker.v, the writes those of CortrixStore.v and EnrichState.v.

    The coordinator and the vector index are reached through the interfaces
    [Coordinator] and [VectorIndex]; [store_coordinator] makes WriteCoordinator.v an
    instance of the first.  What holds of every coordinator is proved against the
    interface ([process_closed]), and [Ingest_releases_document] follows from it and
    the tables of WriteCoordinator.v.  The embedder, the parser, the enrichers, SHA-256 and SipHash are parameters.  One
    clock reading stands for those of a call.  Log lines are left out. *)
From Stdlib Require Import Ascii String.
From stdpp Require Import gmap strings.
From Stdlib Require Import Floats.SpecFloat.
From S2P Require Import Prelude Status SparseCodec BlockHeader Ulid CppStd TaskManager DocumentParser SpcStages DocumentProcessor Sqlite Documents CortrixStore EnrichState StoreVersions ParentChildChunker PendingEntryCodec PendingLog WriteCoordinator WriteCoordinatorCalls.

(** ** Interfaces *)

(** [IIndex::AddPoints]. *)
Class VectorIndex (I : Type) := AddPoints : list (list float32 * Z) -> I -> Status * I.

(** The write coordinator as the pipeline uses it: [Rollback] runs the callback of
    the namespace on its stores [U]. *)
Class Coordinator (T W U : Type) := {
  BeginWrite : string -> list Z -> W -> Run T * W;
  Rollback : T -> W -> U -> Run unit * W * U;
  Commit : T -> W -> Run unit * W
}.

Module SpcPipeline.
Import Documents EnricherChain Parser.
#[local] Open Scope string_scope.
#[local] Open Scope Z_scope.
#[local] Existing Instance DataCleaner.Block_eta.

(** ** Data *)

Record EmbeddingResult := MkEmbedding { vector : list float32; dim : Z }.
Definition no_embedding : EmbeddingResult := MkEmbedding [] 0.

Inductive SPCStage := kQueued | kParsing | kChunking | kEmbedding | kAssembling | kDone | kStageError | kCancelled.

(** What a run leaves in its task. *)
Record TaskState := MkTaskState {
  stage : SPCStage; error_message : string; error_code : string; cleaning_summary : DataCleaner.CleaningResult
}.
#[export] Instance TaskState_eta : Eta TaskState := fun t =>
  MkTaskState (stage t) (error_message t) (error_code t) (cleaning_summary t).

(** The request of [OnDocumentWritten]: namespace and document. *)
Definition SummaryRequest : Type := string * string.

(** What the preparation hands to the write phase. *)
Record WriteSet := MkWriteSet {
  ws_blocks : list CortrixBlock;
  vec_points : list (list float32 * Z);
  score_by_block : gmap Z float32;
  ctx_label_rows : list BlockColumns.ContextualVecLabelRow;
  ws_parents : list CortrixParent;
  doc_fts5_row : option DocFtsRow;
  enrich_by_child : gmap string EnrichResult;
  sparse_by_child : gmap string SparseCodec.SparseVector;
  enrich_failed_by_child : gmap string string;
  enrich_error_by_child : gmap string string;
  enrich_stage_ran : bool
}.

(** ** Conversions *)

Definition text_of (b : bytes) : string := string_of_list_ascii ((fun c => ascii_of_nat (Z.to_nat c)) <$> b).

Section Json.
Context `{Nlohmann}.

Definition MetaToJson (m : DocumentMetadata) : string :=
  json_dump (JObject [("filename", JString (dm_filename m)); ("doc_title", JString (doc_title m));
    ("mime_type", JString (mime_type m)); ("file_size_bytes", JInt (file_size_bytes m));
    ("page_count", JInt (page_count m)); ("doc_language", JString (doc_language m));
    ("upload_timestamp", JInt (upload_timestamp m)); ("parse_time_ms", JInt (parse_time_ms m))]).

Definition item_text (item : json) : string := match item with JString s => s | j => json_dump j end.

(** The items of an array, with spaces between. *)
Definition join_items (out : string) (item : json) : string :=
  (if bool_decide (out = "") then out else out ++ " ") ++ item_text item.

Definition JsonToFtsText (v : json) : string :=
  match v with
  | JNull => ""
  | JString s => s
  | JArray items => foldl join_items "" items
  | v => json_dump v
  end.

Definition fts_column (cols : list (string * json)) (key : string) : string :=
  match member key cols with Some v => JsonToFtsText v | None => "" end.

Definition DocFtsRowFromDerivedColumns (cols : list (string * json)) : DocFtsRow :=
  MkDocFtsRow (fts_column cols "doc_id") (fts_column cols "filename") (fts_column cols "doc_title")
    (fts_column cols "topics_rule_extracted") (fts_column cols "authors").

Definition ToCortrixParent (p : ParentChildChunker.ParentChunk) : CortrixParent :=
  MkParent (text_of (ParentChildChunker.p_id p)) (ParentChildChunker.p_doc_id p) (ParentChildChunker.p_namespace_id p)
    (text_of (ParentChildChunker.parent_text p)) (ParentChildChunker.p_token_count p) (ParentChildChunker.page_start p)
    (ParentChildChunker.page_end p) (ParentChildChunker.byte_offset_start p) (ParentChildChunker.byte_offset_end p)
    (MetaToJson (ParentChildChunker.p_metadata p)) (ParentChildChunker.p_created_at p).

End Json.

Definition F07EnricherToken (enricher_name : string) : string :=
  if bool_decide (enricher_name = "LlmEnricher") then "llm" else
  if bool_decide (enricher_name = "ContextualRetrievalEnricher") then "contextual" else
  if bool_decide (enricher_name = "HyPEEnricher") then "hype" else "".

Definition kWithdrawnMessage : string :=
  "could not mark this version ready, so it was deleted and the earlier version is unchanged; add the document again".
Definition kUnpublishedMessage : string :=
  "could not mark this version ready; any earlier version stays in place, and the next upload of this file, or its next change or event, replaces it".
Definition kDeletedMessage : string := "document deleted or superseded during processing".

Definition kFlagExtHasContextualized : Z := 8.
Definition kBlockMemory : Z := 7.
Definition kLevelL1 : Z := 1.
Definition kEnrichLlm : Z := 3.

(** ** Blocks (block_assembler.cpp, hype_block.cpp) *)

Section Pipeline.
Context `{Planner, Nlohmann, Zlib}.
Context (sha256 : bytes -> option bytes) (Sha256Hex : string -> string) (HashChildIdToBlockId : string -> Z).
Context (draw : nat -> Z) (pick : list Z -> Z).
(** The clock in milliseconds; the stores read seconds. *)
Context (now_ms : Z).
#[local] Abbreviation now_unix := (now_ms / 1000).

Definition build (block_type level : Z) (content metadata : string) (vector_dim flags_ext source : Z) : Run bytes :=
  BlockHeader.BlockBuild sha256 now_ms block_type level (ParentChildChunker.bytes_of content) (ParentChildChunker.bytes_of metadata) []
    vector_dim 0 flags_ext source 0.

(** A block that is not a child: the other columns are NULL. *)
Definition plain_block (id : Z) (doc : string) (block_type level : Z) (data : bytes) (content metadata : string) : CortrixBlock :=
  MkBlock id doc 0 block_type level (-1) "" data content "" "" (-1) (-1) metadata None None.

Definition GenerateUlid (g : Ulid.Globals) : string * Ulid.Globals :=
  let '(codes, g) := Ulid.GenerateUlid draw now_ms g in (TaskManager.ulid_text codes, g).

(** The block of a memory session: the level is 3, the chunk's index 0. *)
Definition Assemble (doc text : string) (embedding : EmbeddingResult) (block_type level : Z) (metadata : string)
    (g : Ulid.Globals) : Run CortrixBlock * Ulid.Globals :=
  let '(id, g) := GenerateUlid g in
  ((let! data := build block_type level text metadata (u16 (dim embedding)) 0 0 in
    Ret (plain_block (HashChildIdToBlockId id) doc block_type level data text "")), g).

Definition AssembleChild (child : ParentChildChunker.ChildChunk) (embedding : EmbeddingResult) (modality level : Z)
    (metadata : string) (flags_ext : Z) : Run CortrixBlock :=
  let id := text_of (ParentChildChunker.child_id child) in
  let content := text_of (ParentChildChunker.child_text child) in
  let! data := build modality level content metadata (u16 (dim embedding)) flags_ext 0 in
  Ret (MkBlock (HashChildIdToBlockId id) (ParentChildChunker.c_doc_id child) (i32 (ParentChildChunker.chunk_index child))
    modality level (-1) "" data content id (text_of (ParentChildChunker.parent_id child))
    (ParentChildChunker.c_token_count child) (ParentChildChunker.parent_offset child) metadata None None).

Definition BuildHypeQuestionMetadataJson (q : HypeQuestion) : string :=
  json_dump (JObject [("source_child_id", JString (source_child_id q)); ("source_parent_id", JString (source_parent_id q));
    ("hype", JObject [("question_index", JInt (question_index q)); ("prompt_version", JString "v1");
      ("llm_provider", JString "openai"); ("llm_model", JString "gpt-4o-mini"); ("cost_usd", JFloat (S754_zero false));
      ("generated_at", JString "")])]).

Definition BuildHypeQuestionBlock (q : HypeQuestion) : Run bytes :=
  build EnrichState.kBlockHypeQuestion BlockHeader.kLevelL3 (question_text q) (BuildHypeQuestionMetadataJson q)
    (u16 (len (q_embedding q))) 0 kEnrichLlm.

Definition hype_block (doc : string) (level : Z) (q : HypeQuestion) (g : Ulid.Globals) : Run CortrixBlock * Ulid.Globals :=
  let '(id, g) := GenerateUlid g in
  ((let! data := BuildHypeQuestionBlock q in
    Ret (plain_block (HashChildIdToBlockId id) doc EnrichState.kBlockHypeQuestion level data (question_text q)
           (BuildHypeQuestionMetadataJson q))), g).

(** ** Enrichment (stage 3.6) *)

(** The maps that the enrichment fills, by child. *)
Record Enriched := MkEnriched {
  results : gmap string EnrichResult; hype_by_child : gmap string (list HypeQuestion);
  failed_members : gmap string string; errors : gmap string string; ran : bool
}.
Definition not_enriched : Enriched := MkEnriched ∅ ∅ ∅ ∅ false.
#[local] Instance Enriched_eta : Eta Enriched := fun e =>
  MkEnriched (results e) (hype_by_child e) (failed_members e) (errors e) (ran e).

(** [emplace]: an entry that is there stays. *)
Definition emplace {A} (k : string) (v : A) (m : gmap string A) : gmap string A :=
  match m !! k with Some _ => m | None => <[k := v]> m end.

Record Debt := MkDebt { f03_failed : bool; f35_failed : bool; f38_failed : bool; first_err : string }.

Definition note_step (d : Debt) (st : EnricherStepOutcome) : Debt :=
  if skipped st then d else
  let err := if bool_decide (first_err d = "") then EnricherChain.error_code st else first_err d in
  if s_status st =? 0 then MkDebt (f03_failed d) (f35_failed d) (f38_failed d) err else
  if bool_decide (s_name st = "hype") then MkDebt (f03_failed d) (f35_failed d) true err else
  if bool_decide (s_name st = "f35_contextual_retrieval") then MkDebt (f03_failed d) true (f38_failed d) err
  else MkDebt true (f35_failed d) (f38_failed d) err.

Definition debt_of (r : ChunkChainResult) : Debt :=
  let d := foldl note_step (MkDebt false false false "") (steps r) in
  MkDebt (f03_failed d) (f35_failed d || (contextualized_status (merged r) =? 2)) (f38_failed d) (first_err d).

Definition owed_csv (d : Debt) : string :=
  String.concat "," (MetadataGenerator.part_if (f03_failed d) "f03" ++ MetadataGenerator.part_if (f35_failed d) "f35"
    ++ MetadataGenerator.part_if (f38_failed d) "f38")%list.

(** One child after the chain, and after the single enricher. *)
Definition note_chain (e : Enriched) (r : string * ChunkChainResult) : Enriched :=
  let '(cid, r) := r in
  let d := debt_of r in
  let owed := owed_csv d in
  let e := if bool_decide (owed = "") then e else
    e <| failed_members := <[cid := owed]> (failed_members e) |>
      <| errors := <[cid := if bool_decide (first_err d = "") then "enrichment degraded (fail-soft)" else first_err d]> (errors e) |> in
  e <| results := emplace cid (merged r) (results e) |>
    <| hype_by_child := match hype_questions r with [] => hype_by_child e | qs => emplace cid qs (hype_by_child e) end |>.

Definition note_single (e : Enriched) (r : string * EnrichResult) : Enriched :=
  let '(cid, r) := r in
  let e := if status r =? 0 then e else
    e <| failed_members := <[cid := "f03"]> (failed_members e) |> <| errors := <[cid := EnricherChain.error_msg r]> (errors e) |> in
  e <| results := emplace cid r (results e) |>.

Definition child_id_text (c : ParentChildChunker.ChildChunk) : string := text_of (ParentChildChunker.child_id c).
Definition child_texts (children : list ParentChildChunker.ChildChunk) : list string :=
  (fun c => text_of (ParentChildChunker.child_text c)) <$> children.

Definition contexts_of (md : DocumentMetadata) (children : list ParentChildChunker.ChildChunk) : list ChunkContext :=
  let texts := child_texts children in
  imap (fun i c => MkChunkContext (text_of (ParentChildChunker.child_text c)) (i32 (ParentChildChunker.chunk_index c)) (Some md)
    (match i with O => "" | S j => default "" (texts !! j) end) (default "" (texts !! S i))) children.

(** The text of the parent of each child. *)
Definition parent_texts_of (out : ParentChildChunker.ChunkerOutput) : list string :=
  let by_id : gmap string string :=
    foldl (fun m p => <[text_of (ParentChildChunker.p_id p) := text_of (ParentChildChunker.parent_text p)]> m) ∅
      (ParentChildChunker.parents out) in
  (fun c => default "" (by_id !! text_of (ParentChildChunker.parent_id c))) <$> ParentChildChunker.children out.

(** The chain supersedes the single enricher; that one may throw, and nothing here
    catches it. *)
Definition enrich (chain : option (list ISpcEnricher)) (single : ISpcEnricher) (md : DocumentMetadata)
    (out : ParentChildChunker.ChunkerOutput) : outcome string Enriched :=
  let children := ParentChildChunker.children out in
  let ids := child_id_text <$> children in
  let ctxs := contexts_of md children in
  let use_chain := match chain with Some es => AnyAvailable es | None => false end in
  if use_chain then
    Done (foldl note_chain (not_enriched <| ran := true |>)
      (zip ids (EnrichChunks (default [] chain) ctxs (parent_texts_of out) ids
        ((fun c => text_of (ParentChildChunker.parent_id c)) <$> children) None)))
  else
    match EnrichBatch single ctxs with
    | Done rs => Done (foldl note_single (not_enriched <| ran := true |>) (zip ids rs))
    | Raised what => Raised what
    end.

(** ** The view of the cleaner (stage 5) *)

(** The pages of each parent. *)
Definition page_spans (out : ParentChildChunker.ChunkerOutput) : gmap string (Z * Z) :=
  foldl (fun m p => <[text_of (ParentChildChunker.p_id p) := (ParentChildChunker.page_start p, ParentChildChunker.page_end p)]> m) ∅
    (ParentChildChunker.parents out).

Definition failed_page_for_parent (spans : gmap string (Z * Z)) (failed : list Z) (parent : string) : Z :=
  match spans !! parent with
  | None => -1
  | Some (lo, hi) => default (-1) (find (fun fp => (0 <=? fp) && (lo <=? fp) && (fp <=? hi)) failed)
  end.

Definition clean_metadata (d : ParsedDoc) (spans : gmap string (Z * Z)) (child : ParentChildChunker.ChildChunk) : json :=
  let m := default (JObject []) (json_parse (MetaToJson (ParentChildChunker.c_metadata child))) in
  match failed_pages d with
  | [] => DataCleaner.set_key "meta.parse_status" (JString "ok") m
  | failed =>
      let fp := failed_page_for_parent spans failed (text_of (ParentChildChunker.parent_id child)) in
      let m := DataCleaner.set_key "meta.parse_status" (JString "partial") m in
      if 0 <=? fp then DataCleaner.set_key "meta.parse_failed_page" (JInt fp) m else m
  end.

Definition clean_view (d : ParsedDoc) (level : Z) (embeddings : list EmbeddingResult) (out : ParentChildChunker.ChunkerOutput)
    : list DataCleaner.Block :=
  let spans := page_spans out in
  imap (fun i c => DataCleaner.MkBlock (child_id_text c) (text_of (ParentChildChunker.child_text c))
    (if 3 <=? level then default [] (vector <$> (embeddings !! i)) else []) (clean_metadata d spans c) 0 false)
    (ParentChildChunker.children out).

(** ** Assembly *)

(** A block with its score, its points and, for a contextual point, the label row. *)
Record Assembled := MkAssembled {
  a_block : CortrixBlock; a_score : option float32; a_points : list (list float32 * Z);
  a_label : option BlockColumns.ContextualVecLabelRow
}.

Definition ok_result (b : string) (e : Enriched) : option EnrichResult :=
  match results e !! b with Some r => if result_ok r then Some r else None | None => None end.

Definition with_summary (r : option EnrichResult) (m : json) : json :=
  match r with
  | Some r => if bool_decide (summary r = "") then m else DataCleaner.set_key "summary" (JString (summary r)) m
  | None => m
  end.

(** The contextual vector of a child, whatever became of the other members. *)
Definition contextual_vector (b : string) (e : Enriched) : option (list float32) :=
  match results e !! b with Some r => BlockColumns.nonempty_vector (contextualized_embedding r) | None => None end.

Definition point_if (b : bool) (v : list float32) (label : Z) : list (list float32 * Z) :=
  match v with [] => [] | _ => if b then [(v, label)] else [] end.

Definition score_of (input : Scoring.ScoringInput) : Z * float32 :=
  let '(level, score) := Scoring.AssignInitialScore input in (level, default (S754_zero false) score).

(** One surviving child. *)
Definition assemble_child (d : ParsedDoc) (level modality : Z) (e : Enriched) (child : ParentChildChunker.ChildChunk)
    (b : DataCleaner.Block) : Run Assembled :=
  let cid := DataCleaner.id b in
  let ok := ok_result cid e in
  let metadata := with_summary ok (DataCleaner.metadata_json b) in
  let skip_index := DataCleaner.ShouldSkipIndex (b <| DataCleaner.metadata_json := metadata |>) in
  let index_points := IndexGates.IndexPointsExpected level skip_index in
  let ctx := contextual_vector cid e in
  let flags := Z.lor (if skip_index then DataCleaner.kFlagExtIsAnomalous else 0)
                     (if bool_decide (is_Some ctx) then kFlagExtHasContextualized else 0) in
  let '(block_level, score) := score_of (Scoring.MkScoringInput (parser_name d)
    (match ok with Some r => F07EnricherToken (enricher_name r) | None => "" end) false skip_index modality) in
  let v := DataCleaner.embedding b in
  let! block := AssembleChild child (MkEmbedding v (len v)) modality block_level (json_dump metadata) flags in
  let label := BlockColumns.DeriveContextualVecLabel HashChildIdToBlockId cid in
  Ret (match ctx with
       | Some c =>
           MkAssembled block (Some score) (point_if index_points v (block_id block) ++ point_if index_points c label)
             (if index_points then Some (BlockColumns.MkLabelRow label (block_id block) cid) else None)
       | None => MkAssembled block (Some score) (point_if index_points v (block_id block)) None
       end).

(** The survivors with their children: an unknown identifier reads index 0. *)
Fixpoint assemble_children (d : ParsedDoc) (level modality : Z) (e : Enriched) (children : list ParentChildChunker.ChildChunk)
    (index : gmap string nat) (bs : list DataCleaner.Block) : Run (list Assembled) :=
  match bs with
  | [] => Ret []
  | b :: bs =>
      match children !! default O (index !! DataCleaner.id b) with
      | None => Undef
      | Some child =>
          let! a := assemble_child d level modality e child b in
          let! l := assemble_children d level modality e children index bs in
          Ret (a :: l)
      end
  end.

Definition child_index (children : list ParentChildChunker.ChildChunk) : gmap string nat :=
  foldl (fun m c => <[c.2 := c.1]> m) ∅ (imap (fun i c => (i, child_id_text c)) children).

(** The hypothetical questions with their embeddings. *)
Fixpoint assemble_hype (doc : string) (level : Z) (qs : list (HypeQuestion * EmbeddingResult)) (g : Ulid.Globals)
    : Run (list Assembled) * Ulid.Globals :=
  match qs with
  | [] => (Ret [], g)
  | (q, emb) :: qs =>
      let q := MkHypeQuestion (question_text q) (question_index q) (source_child_id q) (source_parent_id q) (vector emb) in
      let '(block, g) := hype_block doc level q g in
      match block with
      | Ret block =>
          let '(l, g) := assemble_hype doc level qs g in
          ((let! l := l in Ret (MkAssembled block None (point_if true (vector emb) (block_id block)) None :: l)), g)
      | Fail s => (Fail s, g)
      | Undef => (Undef, g)
      end
  end.

(** The questions of a failed batch are owed. *)
Definition owe_hype (why : string) (e : Enriched) (kv : string * list HypeQuestion) : Enriched :=
  let owed := default "" (failed_members e !! kv.1) in
  let err := default "" (errors e !! kv.1) in
  e <| failed_members := <[kv.1 := if contains "f38" owed then owed else if bool_decide (owed = "") then "f38" else owed ++ ",f38"]>
         (failed_members e) |>
    <| errors := <[kv.1 := if bool_decide (err = "") then "F38 hype embedding failed: " ++ why else err]> (errors e) |>.

Definition assemble_meta (d : ParsedDoc) (doc : string) (level : Z) (mb : MetadataGenerator.MetadataBlock)
    (emb : EmbeddingResult) : Run Assembled :=
  let '(block_level, score) := score_of (Scoring.MkScoringInput (parser_name d) "" false false Scoring.kBlockMeta) in
  let id := HashChildIdToBlockId (MetadataGenerator.block_id mb) in
  let metadata := json_dump (MetadataGenerator.metadata_json mb) in
  let! data := build Scoring.kBlockMeta block_level (MetadataGenerator.block_text mb) metadata (u16 (dim emb)) 0 0 in
  Ret (MkAssembled (plain_block id doc Scoring.kBlockMeta block_level data (MetadataGenerator.block_text mb) metadata)
         (Some score) (point_if (3 <=? level) (vector emb) id) None).

Definition write_set (parents : list CortrixParent) (fts : option DocFtsRow) (sparse : gmap string SparseCodec.SparseVector)
    (e : Enriched) (l : list Assembled) : WriteSet :=
  MkWriteSet (a_block <$> l) (concat (a_points <$> l))
    (foldl (fun m a => match a_score a with Some s => <[block_id (a_block a) := s]> m | None => m end) ∅ l)
    (omap a_label l) parents fts (results e) sparse (failed_members e) (errors e) (ran e).

(** ** What a run works on *)

Context {I T W R : Type} `{VectorIndex I}.

(** The stores of the namespace that the callback of the coordinator also reaches. *)
Record Stores := MkStores { store : CortrixStoreSqlite.CortrixStoreSqlite; vec_index : I }.
Context `{Coordinator T W Stores}.

(** The index of sparse vectors: opening it and adding to it never fail the run. *)
Context (sparse_add : string -> string -> SparseCodec.SparseVector -> R -> R).

Record World := MkWorld {
  stores : Stores; coordinator : W; sparse_index : R;
  cleaner_config : DataCleaner.CleaningConfig; (* the configuration that the cleaner keeps *)
  enqueued : list SummaryRequest;
  task_state : TaskState;
  polls : nat (* how often the cancel flag was read *)
}.
#[local] Instance Stores_eta : Eta Stores := fun s => MkStores (store s) (vec_index s).
#[local] Instance World_eta : Eta World := fun w =>
  MkWorld (stores w) (coordinator w) (sparse_index w) (cleaner_config w) (enqueued w) (task_state w) (polls w).
#[local] Existing Instance CortrixStoreSqlite.CortrixStoreSqlite_eta.

(** How a run ends: it returns, an exception leaves it, or it has no defined
    behaviour. *)
Inductive Exit := Returned (rc : Z) | Threw (what : string) | Undefined.

(** The pipeline's members and seams. *)
Record SPCPipeline := MkPipeline {
  ParseDocument : string -> ParsedDoc;
  chunker_config : ChunkerConfig.ChunkerConfig;
  token_counter : bytes -> Z;
  EmbedBatch : list string -> Result (list EmbeddingResult);
  EmbedBatchWithSparse : list string -> Result (list (list float32 * list (Z * Z)));
  enricher_ : ISpcEnricher;
  enricher_chain_ : option (list ISpcEnricher);
  sparse_registry_ : bool;
  cleaning_config_resolver_ : option (string -> DataCleaner.CleaningConfig);
  doc_summary_enqueue_ : bool
}.

(** The task, its namespace, and the flag that a reader may raise at any time. *)
Context (p : SPCPipeline) (task : DocumentProcessor.SPCTask) (namespace_id : string) (cancelled : nat -> bool).
#[local] Abbreviation doc := (DocumentProcessor.st_doc_id task).
#[local] Abbreviation level := (DocumentProcessor.st_processing_level task).
#[local] Abbreviation source_type := (DocumentProcessor.st_source_type task).

Definition at_stage (st : SPCStage) (w : World) : World := w <| task_state := task_state w <| stage := st |> |>.
Definition fail_with (message code : string) (w : World) : Exit * World :=
  (Returned (-1), w <| task_state := task_state w <| stage := kStageError |> <| error_message := message |>
                        <| error_code := if bool_decide (code = "") then error_code (task_state w) else code |> |>).
Definition fail (message : string) (w : World) : Exit * World := fail_with message "" w.

Definition on_store {A} (f : CortrixStoreSqlite.CortrixStoreSqlite -> A * CortrixStoreSqlite.CortrixStoreSqlite) (w : World)
    : A * World :=
  let '(a, s) := f (store (stores w)) in (a, w <| stores := stores w <| store := s |> |>).
Definition on_db {A} (f : Sqlite.Conn Db -> A * Sqlite.Conn Db) : World -> A * World := on_store (CortrixStoreSqlite.on_conn f).

(** [task.cancelled.load()]. *)
Definition poll (w : World) : bool * World := (cancelled (polls w), w <| polls := S (polls w) |>).
Definition cancel (w : World) : Exit * World := (Returned (-1), at_stage kCancelled w).

(** A ULID from the generator of the process. *)
Definition mint {A} (f : Ulid.Globals -> A * Ulid.Globals) : World -> A * World :=
  on_store (fun s => let '(a, g) := f (CortrixStoreSqlite.ulids s) in (a, s <| CortrixStoreSqlite.ulids := g |>)).

(** ** Publication *)

Definition doc_get (w : World) : Z * option CortrixDoc * World :=
  let '(r, w) := on_store (fun s => let '(rc, d, s) := CortrixStoreSqlite.doc_get doc s in ((rc, d), s)) w in
  (r.1, r.2, w).

(** A row that was read and has the status. *)
Definition read_as (st : DocStatus) (got : Z) (row : option CortrixDoc) : bool :=
  (got =? 0) && match row with Some d => bool_decide (Documents.status d = st) | None => false end.

Definition MarkDocumentReady (w : World) : Z * World :=
  let '(rc, w) := on_store (fun s =>
    let '(rc, _, s) := CortrixStoreSqlite.doc_publish_version now_unix doc now_ms s in (rc, s)) w in
  if rc =? 0 then (0, w) else
  if rc =? -2 then
    let '(got, row, w) := doc_get w in
    if read_as kDeleted got row then (-1, (fail_with kDeletedMessage "CX_ERR_DOC_DELETED" w).2) else (0, w)
  else if bool_decide (source_type = "http_upload") || bool_decide (source_type = "watch_dir") then
    let '(wrc, w) := on_store (CortrixStoreSqlite.doc_withdraw_version now_unix doc now_ms kWithdrawnMessage) w in
    if wrc =? 0 then (-1, (fail kWithdrawnMessage w).2) else
    let '(got, row, w) := doc_get w in
    if read_as kDeleted got row then (-1, (fail_with kDeletedMessage "CX_ERR_DOC_DELETED" w).2) else
    if read_as kReady got row then (0, w) else (-1, (fail kUnpublishedMessage w).2)
  else (0, w).

(** The successful exits: the stage, and the hook of a written document. *)
Definition OnDocumentWritten (ns : string) (w : World) : World :=
  if doc_summary_enqueue_ p then w <| enqueued := (enqueued w ++ [(ns, doc)])%list |> else w.

Definition finish (w : World) : Exit * World :=
  let '(ready, w) := MarkDocumentReady w in
  if negb (ready =? 0) then (Returned (-1), w) else (Returned 0, at_stage kDone w).
Definition finish_written (ns : string) (w : World) : Exit * World :=
  match finish w with (Returned 0, w) => (Returned 0, OnDocumentWritten ns w) | r => r end.

(** ** The write phase *)

Definition roll_back (txn : T) (message : string) (w : World) : Exit * World :=
  let '(r, c, u) := Rollback txn (coordinator w) (stores w) in
  let w := w <| coordinator := c |> <| stores := u |> in
  match r with Undef => (Undefined, w) | _ => fail message w end.

(** The labels whose row was not stored. *)
Fixpoint write_labels (rows : list BlockColumns.ContextualVecLabelRow) (w : World) : list Z * World :=
  match rows with
  | [] => ([], w)
  | lr :: rows =>
      let '(s, w) := on_db (BlockColumns.WriteContextualVecLabel lr) w in
      let '(unlabeled, w) := write_labels rows w in
      (if status_ok s then unlabeled else BlockColumns.label lr :: unlabeled, w)
  end.

Fixpoint insert_parents (ps : list CortrixParent) (w : World) : bool * World :=
  match ps with
  | [] => (true, w)
  | cp :: ps =>
      let '(rc, w) := on_store (CortrixStoreSqlite.parent_insert cp) w in
      if rc =? 0 then insert_parents ps w else (false, w)
  end.

(** The enrichment columns of a child: what is owed again, and why. *)
Definition write_enrichment (r : option EnrichResult) (id : Z) (w : World) : list string * string * World :=
  match r with
  | None => ([], "", w)
  | Some r =>
      let '(we, w) := if result_ok r then on_db (BlockColumns.WriteEnrichment id r) w else (Status_Ok, w) in
      let owed := if status_ok we then [] else ["f03"] in
      let err := if status_ok we then "" else "CX_ERR_SPC_PERSIST_FAILED[f03]: " ++ status_message we in
      let '(wc, w) := on_db (BlockColumns.WriteContextualized id r) w in
      if negb (status_ok wc)
         && (negb (contextualized_status r =? 0) || bool_decide (is_Some (contextualized_text r)))
      then ((owed ++ ["f35"])%list,
            if bool_decide (err = "") then "CX_ERR_SPC_PERSIST_FAILED[f35]: " ++ status_message wc else err, w)
      else (owed, err, w)
  end.

Definition write_sparse (v : option SparseCodec.SparseVector) (cid : string) (id : Z) (w : World) : World :=
  if negb (sparse_registry_ p) then w else
  let sv := default (SparseCodec.MkSparse []) v in
  let '(_, w) := on_db (BlockColumns.WriteSparseVec id sv) w in
  match SparseCodec.terms sv with
  | [] => w
  | _ => w <| sparse_index := sparse_add namespace_id cid sv (sparse_index w) |>
  end.

Definition add_owed (members : string) (m : string) : string :=
  if contains m members then members else (if bool_decide (members = "") then m else members ++ "," ++ m).

(** The row of the ledger. *)
Definition coverage_row (ws : WriteSet) (cid : string) (id : Z) (persist_owed : list string) (persist_err : string)
    : EnrichStateRow :=
  let members := foldl add_owed (default "" (enrich_failed_by_child ws !! cid)) persist_owed in
  if bool_decide (members = "") then MkEnrichStateRow id doc cid EnrichState.kEnrichStatusOk "" 0 "" None now_unix 0
  else MkEnrichStateRow id doc cid EnrichState.kEnrichStatusPendingRetry members 0
         (String.substring 0 200 (match enrich_error_by_child ws !! cid with Some e => e | None => persist_err end))
         (Some (now_unix + EnrichState.kEnrichRetryFirstDelaySec)) now_unix 0.

(** The columns and rows beside a block, none of which fails the run. *)
Definition write_aux (ws : WriteSet) (b : CortrixBlock) (w : World) : World :=
  let cid := Documents.child_id b in
  let id := Documents.block_id b in
  let w :=
    if bool_decide (cid = "") then w else
    let '(owed, err, w) := write_enrichment (enrich_by_child ws !! cid) id w in
    let w := write_sparse (sparse_by_child ws !! cid) cid id w in
    if enrich_stage_ran ws then (on_db (EnrichState.UpsertEnrichState (coverage_row ws cid id owed err)) w).2 else w in
  match score_by_block ws !! id with
  | Some score => (on_db (BlockColumns.WriteScore id score) w).2
  | None => w
  end.

Definition insert_block (b : CortrixBlock) (w : World) : Z * CortrixBlock * World :=
  let '(r, w) := on_store (fun s => let '(rc, b, s) := CortrixStoreSqlite.block_insert pick b s in ((rc, b), s)) w in
  (r.1, r.2, w).

Fixpoint insert_blocks (ws : WriteSet) (bs : list CortrixBlock) (w : World) : bool * World :=
  match bs with
  | [] => (true, w)
  | b :: bs =>
      let '(rc, b, w) := insert_block b w in
      if rc =? 0 then insert_blocks ws bs (write_aux ws b w) else (false, w)
  end.

Definition add_points (points : list (list float32 * Z)) (w : World) : Status * World :=
  match points with
  | [] => (Status_Ok, w)
  | _ => let '(s, i) := AddPoints points (vec_index (stores w)) in (s, w <| stores := stores w <| vec_index := i |> |>)
  end.

Definition commit (label : string) (txn : T) (w : World) (k : World -> Exit * World) : Exit * World :=
  let '(r, c) := Commit txn (coordinator w) in
  let w := w <| coordinator := c |> in
  match r with
  | Ret _ => k w
  | Fail s => fail (label ++ status_message s) w
  | Undef => (Undefined, w)
  end.

Definition begin_write (label : string) (ids : list Z) (w : World) (k : T -> World -> Exit * World) : Exit * World :=
  let '(r, c) := BeginWrite doc ids (coordinator w) in
  let w := w <| coordinator := c |> in
  match r with
  | Ret txn => k txn w
  | Fail s => fail (label ++ status_message s) w
  | Undef => (Undefined, w)
  end.

(** The part inside the transaction. *)
Definition write_stores (ws : WriteSet) (txn : T) (w : World) : Exit * World :=
  let '(wf, w) := match doc_fts5_row ws with
                  | Some row => on_db (BlockColumns.UpsertDocFts5Row row) w
                  | None => (Status_Ok, w)
                  end in
  if negb (status_ok wf) then roll_back txn ("doc_fts5_index upsert failed: " ++ status_message wf) w else
  let '(unlabeled, w) := write_labels (ctx_label_rows ws) w in
  let points := filter (fun q => q.2 ∉ unlabeled) (vec_points ws) in
  let '(av, w) := add_points points w in
  if negb (status_ok av) then roll_back txn ("AddPoints: " ++ status_message av) w else
  let '(ok, w) := insert_parents (ws_parents ws) w in
  if negb ok then roll_back txn "parent_insert failed" w else
  let '(ok, w) := insert_blocks ws (ws_blocks ws) w in
  if negb ok then roll_back txn "block_insert failed" w else
  commit "Commit: " txn w (finish_written (DocumentProcessor.st_namespace_name task)).

Definition write (ws : WriteSet) (w : World) : Exit * World :=
  begin_write "BeginWrite: " (Documents.block_id <$> ws_blocks ws) w (write_stores ws).

(** ** After the parse *)

(** A cancellation point. *)
Definition unless_cancelled (w : World) (k : World -> Exit * World) : Exit * World :=
  let '(c, w) := poll w in if c then cancel w else k w.

(** Stage 3.5: the metadata block and the columns derived from the same fields. *)
Definition generator_input (d : ParsedDoc) (out : ParentChildChunker.ChunkerOutput) : MetadataGenerator.GeneratorInput :=
  let md := metadata d in
  let children := i32 (len (ParentChildChunker.children out)) in
  MetadataGenerator.MkGeneratorInput doc namespace_id md
    (MetadataGenerator.MkFileInfo (DocumentProcessor.st_source_path task) [] (upload_timestamp md))
    (MetadataGenerator.MkStats children (i32 (len (ParentChildChunker.parents out))) children (parse_time_ms md)
       (parser_name d) "" "" "" "parent-child" "" (match failed_pages d with [] => "ok" | _ => "partial" end) (-1))
    (match json_parse (DocumentProcessor.st_metadata_json task) with
     | Some (JObject o) => if bool_decide (DocumentProcessor.st_metadata_json task = "") then JObject [] else JObject o
     | _ => JObject []
     end).

(** The identifier is minted when there is something to describe. *)
Definition generate_metadata (d : ParsedDoc) (out : ParentChildChunker.ChunkerOutput) (w : World)
    : option (MetadataGenerator.MetadataBlock * DocFtsRow) * World :=
  let input := generator_input d out in
  match MetadataGenerator.Generate "" input with
  | None => (None, w)
  | Some _ =>
      let '(id, w) := mint GenerateUlid w in
      ((fun mb => (mb, DocFtsRowFromDerivedColumns (MetadataGenerator.DeriveDocFts5Columns input)))
         <$> MetadataGenerator.Generate id input, w)
  end.

(** Stage 4: the vectors of the children, dense and sparse. *)
Definition embed_children (out : ParentChildChunker.ChunkerOutput)
    : Result (list EmbeddingResult * gmap string SparseCodec.SparseVector) :=
  let children := ParentChildChunker.children out in
  if sparse_registry_ p then
    match EmbedBatchWithSparse p (child_texts children) with
    | Error s => Error s
    | Value rs =>
        Value ((fun r => MkEmbedding r.1 (len r.1)) <$> rs,
          foldl (fun m r => match r.2.2 with [] => m | terms => <[child_id_text r.1 := SparseCodec.MkSparse terms]> m end) ∅
            (zip children rs))
    end
  else
    match EmbedBatch p (child_texts children) with Error s => Error s | Value l => Value (l, ∅) end.

(** A failed embedding of the metadata block leaves it without a vector. *)
Definition embed_metadata (mb : option MetadataGenerator.MetadataBlock) : EmbeddingResult :=
  match mb with
  | Some mb =>
      if 3 <=? level then
        match EmbedBatch p [MetadataGenerator.block_text mb] with Value (e :: _) => e | _ => no_embedding end
      else no_embedding
  | None => no_embedding
  end.

(** Stage 5: cleaning; the questions of dropped children go with them. *)
Definition clean (d : ParsedDoc) (embeddings : list EmbeddingResult) (out : ParentChildChunker.ChunkerOutput) (e : Enriched)
    (w : World) : list DataCleaner.Block * Enriched * World :=
  let w := match cleaning_config_resolver_ p with Some f => w <| cleaner_config := f namespace_id |> | None => w end in
  let view := clean_view d level embeddings out in
  let '(dedup, bs) := DataCleaner.Dedup Sha256Hex (cleaner_config w) view in
  let '(anomaly, bs) := DataCleaner.DetectAnomaly (cleaner_config w) bs in
  let surviving := DataCleaner.id <$> bs in
  (bs, e <| hype_by_child := filter (fun kv => kv.1 ∈ surviving) (hype_by_child e) |>,
   w <| task_state := task_state w <| cleaning_summary := DataCleaner.Summarize (i32 (len view)) dedup anomaly |> |>).

(** The questions in the order of the buckets of the map. *)
Context (buckets : list (string * list HypeQuestion) -> list (string * list HypeQuestion)).

Definition embed_hype (e : Enriched) : list (HypeQuestion * EmbeddingResult) * Enriched :=
  if negb (IndexGates.HypeBlocksExpected level) then ([], e) else
  let by_child := buckets (map_to_list (hype_by_child e)) in
  match concat by_child.*2 with
  | [] => ([], e)
  | qs =>
      match EmbedBatch p (question_text <$> qs) with
      | Value embs => (zip qs embs, e)
      | Error s => ([], foldl (owe_hype (status_message s)) e by_child)
      end
  end.

Definition run_or {A} (r : Run A) (w : World) (k : A -> World -> Exit * World) : Exit * World :=
  match r with Ret a => k a w | _ => (Undefined, w) end.

Definition modality : Z := SPCRouter.InferBlockType (DocumentProcessor.st_mime_type task).

(** Cleaning, scoring and assembly, then the write. *)
Definition assemble_and_write (d : ParsedDoc) (out : ParentChildChunker.ChunkerOutput)
    (meta : option (MetadataGenerator.MetadataBlock * DocFtsRow)) (e : Enriched) (embeddings : list EmbeddingResult)
    (sparse : gmap string SparseCodec.SparseVector) (w : World) : Exit * World :=
  let meta_embedding := embed_metadata (fst <$> meta) in
  unless_cancelled w (fun w =>
  let w := at_stage kAssembling w in
  let '(bs, e, w) := clean d embeddings out e w in
  run_or (assemble_children d level modality e (ParentChildChunker.children out)
            (child_index (ParentChildChunker.children out)) bs) w (fun children w =>
  let '(qs, e) := embed_hype e in
  let '(hype, w) := mint (assemble_hype doc level qs) w in
  run_or hype w (fun hype w =>
  run_or (match meta with
          | Some (mb, _) => let! a := assemble_meta d doc level mb meta_embedding in Ret [a]
          | None => Ret []
          end) w (fun meta_block w =>
  write (write_set (ToCortrixParent <$> ParentChildChunker.parents out) (snd <$> meta) sparse e
           (children ++ hype ++ meta_block)%list) w)))).

Definition embed_and_write (d : ParsedDoc) (out : ParentChildChunker.ChunkerOutput)
    (meta : option (MetadataGenerator.MetadataBlock * DocFtsRow)) (e : Enriched) (w : World) : Exit * World :=
  if (3 <=? level) && negb (bool_decide (ParentChildChunker.children out = [])) then
    unless_cancelled w (fun w =>
    let w := at_stage kEmbedding w in
    match embed_children out with
    | Error s => fail ("embedding failed: " ++ status_message s) w
    | Value (embeddings, sparse) => assemble_and_write d out meta e embeddings sparse w
    end)
  else assemble_and_write d out meta e [] ∅ w.

Definition enrich_and_write (d : ParsedDoc) (out : ParentChildChunker.ChunkerOutput) (w : World) : Exit * World :=
  let '(meta, w) := generate_metadata d out w in
  let available := match enricher_chain_ p with Some es => AnyAvailable es | None => false end || IsAvailable (enricher_ p) in
  if available && negb (bool_decide (ParentChildChunker.children out = [])) then
    unless_cancelled w (fun w =>
    match enrich (enricher_chain_ p) (enricher_ p) (metadata d) out with
    | Raised what => (Threw what, w)
    | Done e => embed_and_write d out meta e w
    end)
  else embed_and_write d out meta not_enriched w.

Definition ProcessParsed (d : ParsedDoc) (w : World) : Exit * World :=
  unless_cancelled w (fun w =>
  let w := at_stage kChunking w in
  let input := ParentChildChunker.MkChunkerInput doc namespace_id (pages d) (metadata d) in
  let '(chunked, w) := mint (ParentChildChunker.Chunk (chunker_config p) (token_counter p) draw input now_ms) w in
  match chunked with
  | Error s =>
      if contains "EMPTY_DOCUMENT" (status_message s) || contains "empty" (status_message s)
      then finish_written namespace_id w
      else fail ("chunk failed: " ++ status_message s) w
  | Value out =>
      match ParentChildChunker.parents out, ParentChildChunker.children out with
      | [], [] => finish_written namespace_id w
      | _, _ => enrich_and_write d out w
      end
  end).

(** ** The whole task *)

(** One block with at most one point: a memory session and level 1. *)
Definition write_one (what : string) (block : CortrixBlock) (points : list (list float32 * Z)) (insert_failed : string)
    (w : World) : Exit * World :=
  begin_write ("BeginWrite (" ++ what ++ "): ") [Documents.block_id block] w (fun txn w =>
  let '(av, w) := add_points points w in
  if negb (status_ok av) then roll_back txn ("AddPoints: " ++ status_message av) w else
  let '(rc, _, w) := insert_block block w in
  if negb (rc =? 0) then roll_back txn insert_failed w else
  commit ("Commit (" ++ what ++ "): ") txn w finish).

Definition ProcessMemory (w : World) : Exit * World :=
  unless_cancelled w (fun w =>
  let text := DocumentProcessor.st_content_hash task in
  if bool_decide (text = "") then finish w else
  let w := at_stage kEmbedding w in
  match EmbedBatch p [text] with
  | Error s => fail ("embedding failed: " ++ status_message s) w
  | Value embeddings =>
      let emb := default no_embedding (head embeddings) in
      let w := at_stage kAssembling w in
      let '(block, w) := mint (Assemble doc text emb kBlockMemory 3 (DocumentProcessor.st_metadata_json task)) w in
      run_or block w (fun block w =>
      write_one "memory" block (point_if true (vector emb) (Documents.block_id block)) "block_insert failed for memory block" w)
  end).

Definition ProcessMetadata (w : World) : Exit * World :=
  unless_cancelled w (fun w =>
  let w := at_stage kAssembling w in
  let '(id, w) := mint GenerateUlid w in
  run_or (build modality kLevelL1 "" (DocumentProcessor.st_metadata_json task) 0 0 0) w (fun data w =>
  write_one "L1" (plain_block (HashChildIdToBlockId id) doc modality 1 data "" "") []
    "block_insert failed for L1 metadata block" w)).

Definition Process (w : World) : Exit * World :=
  if level =? 0 then finish w else
  if bool_decide (source_type = "memory_session") then ProcessMemory w else
  if level =? 1 then ProcessMetadata w else
  unless_cancelled w (fun w =>
  let w := at_stage kParsing w in
  let d := ParseDocument p (DocumentProcessor.st_source_path task) in
  if negb (doc_ok d) then fail ("parse failed: " ++ Parser.error_msg d) w else ProcessParsed d w).

End Pipeline.

(** ** The coordinator of the namespace *)

(** The write coordinator: no write here puts a blob, and each covers its document. *)
Definition store_coordinator {I} (callback : WriteCoordinator.RollbackCallback (Stores (I := I))) (now_ms : Z)
    : Coordinator WriteCoordinator.TxnHandle WriteCoordinator.WriteCoordinator (Stores (I := I)) := {|
  BeginWrite doc ids := WriteCoordinator.BeginWrite now_ms (ParentChildChunker.bytes_of doc) ids false PendingEntry.kDocument;
  Rollback := WriteCoordinator.Rollback callback now_ms;
  Commit := WriteCoordinator.Commit now_ms
|}.

End SpcPipeline.

(** ** What a run does to the coordinator *)

Module PipelineTheory.
Import SpcPipeline.

Section Transactions.
Context `{Planner, Nlohmann, Zlib}.
Context (sha256 : bytes -> option bytes) (Sha256Hex : string -> string) (HashChildIdToBlockId : string -> Z).
Context (draw : nat -> Z) (pick : list Z -> Z) (now_ms : Z).
Context {I T W R : Type} `{VectorIndex I} `{Coordinator T W (Stores (I := I))}.
Context (sparse_add : string -> string -> SparseCodec.SparseVector -> R -> R).
Context (p : SPCPipeline) (task : DocumentProcessor.SPCTask) (ns : string) (cancelled : nat -> bool).
Context (buckets : list (string * list EnricherChain.HypeQuestion) -> list (string * list EnricherChain.HypeQuestion)).
#[local] Abbreviation World := (World (I := I) (W := W) (R := R)).
#[local] Abbreviation doc := (DocumentProcessor.st_doc_id task).
#[local] Abbreviation Process :=
  (Process sha256 Sha256Hex HashChildIdToBlockId draw pick now_ms sparse_add p task ns cancelled buckets).
#[local] Abbreviation write := (write pick now_ms sparse_add p task ns).

(** A run that begins a transaction ends it, with the failure of the BeginWrite, a
    Rollback or a Commit as the last call; it returns 0 only after a Commit. *)
Inductive closed (c : W) : Exit -> W -> Prop :=
| closed_untouched x : closed c x c
| closed_refused ids s c' : BeginWrite doc ids c = (Fail s, c') -> closed c (Returned (-1)) c'
| closed_undefined ids x c' : BeginWrite doc ids c = (Undef, c') -> closed c x c'
| closed_rolled_back ids txn c1 u r c' u' x :
    BeginWrite doc ids c = (Ret txn, c1) -> Rollback txn c1 u = (r, c', u') -> x <> Returned 0 -> closed c x c'
| closed_committed ids txn c1 r c' x :
    BeginWrite doc ids c = (Ret txn, c1) -> Commit txn c1 = (r, c') ->
    (x = Returned 0 -> r = Ret tt) -> (r = Undef -> x = Undefined) -> closed c x c'.

(** Steps that leave the coordinator and the vector index alone. *)
Definition beside (w : World) : W * I := (coordinator w, vec_index (stores w)).
Lemma beside_coordinator w w' : beside w' = beside w -> coordinator w' = coordinator w.
Proof. by intros [= ? _]. Qed.

Lemma on_store_beside {A} f (w w' : World) (a : A) : on_store f w = (a, w') -> beside w' = beside w.
Proof. unfold on_store. destruct (f _). by intros [= _ <-]. Qed.

Lemma doc_get_beside w rc d w' : doc_get task w = (rc, d, w') -> beside (w' : World) = beside w.
Proof.
  unfold doc_get. destruct (on_store _ w) as [r w1] eqn:E. intros [= _ _ <-]. by apply on_store_beside in E.
Qed.

#[local] Ltac calm :=
  repeat match goal with
  | E : on_store _ ?w = (_, ?w') |- _ => apply on_store_beside in E
  | E : on_db _ ?w = (_, ?w') |- _ => apply on_store_beside in E
  | E : mint _ ?w = (_, ?w') |- _ => unfold mint in E; apply on_store_beside in E
  | E : doc_get _ ?w = (_, _, ?w') |- _ => apply doc_get_beside in E
  end.

Lemma mark_beside w rc w' : MarkDocumentReady now_ms task w = (rc, w') -> beside (w' : World) = beside w.
Proof.
  unfold MarkDocumentReady.
  destruct (on_store _ w) as [r w1] eqn:E1. destruct (r =? 0); [intros [= _ <-]; by calm|].
  destruct (r =? -2).
  - destruct (doc_get task w1) as [[got row] w2] eqn:E2. destruct (read_as _ _ _); intros [= _ <-]; calm; unfold beside in *; simpl; congruence.
  - destruct (_ || _); [|intros [= _ <-]; by calm].
    destruct (on_store _ w1) as [wrc w2] eqn:E2. destruct (wrc =? 0); [intros [= _ <-]; calm; unfold beside in *; simpl; congruence|].
    destruct (doc_get task w2) as [[got row] w3] eqn:E3.
    destruct (read_as Documents.kDeleted _ _); [|destruct (read_as Documents.kReady _ _)]; intros [= _ <-]; calm; unfold beside in *; simpl; congruence.
Qed.

Lemma finish_beside w : beside (finish now_ms task w).2 = beside (w : World).
Proof.
  unfold finish. destruct (MarkDocumentReady now_ms task w) as [rc w1] eqn:E. apply mark_beside in E. by destruct (rc =? 0).
Qed.

Lemma finish_written_beside n w : beside (finish_written now_ms p task n w).2 = beside (w : World).
Proof.
  rewrite <- (finish_beside w). unfold finish_written. destruct (finish now_ms task w) as [[rc| |] w1]; [|done..].
  destruct rc; [|done..]. unfold OnDocumentWritten. by destruct (doc_summary_enqueue_ p).
Qed.

Lemma labels_beside rows w l w' : write_labels rows w = (l, w') -> beside (w' : World) = beside w.
Proof.
  revert w l. induction rows as [|lr rows IH]; intros w l; simpl; [by intros [= _ <-]|].
  destruct (on_db _ w) as [s w1] eqn:E1. destruct (write_labels rows w1) as [u w2] eqn:E2.
  intros [= _ <-]. calm. rewrite (IH _ _ E2). done.
Qed.

Lemma parents_beside ps w b w' : insert_parents ps w = (b, w') -> beside (w' : World) = beside w.
Proof.
  revert w b. induction ps as [|cp ps IH]; intros w b; simpl; [by intros [= _ <-]|].
  destruct (on_store _ w) as [rc w1] eqn:E1. destruct (rc =? 0).
  - intros E2. calm. rewrite (IH _ _ E2). done.
  - intros [= _ <-]. by calm.
Qed.

Lemma db_beside {A} (f : Sqlite.Conn Documents.Db -> A * Sqlite.Conn Documents.Db) (w : World) :
  beside (on_db f w).2 = beside w.
Proof. destruct (on_db f w) eqn:E. by calm. Qed.

Lemma enrichment_beside r id w o e w' : write_enrichment r id w = (o, e, w') -> beside (w' : World) = beside w.
Proof.
  unfold write_enrichment. destruct r as [r|]; [|by intros [= _ _ <-]].
  destruct (EnricherChain.result_ok r).
  - destruct (on_db _ w) as [we w1] eqn:E1. destruct (on_db _ w1) as [wc w2] eqn:E2.
    destruct (_ && _); intros [= _ _ <-]; calm; unfold beside in *; congruence.
  - destruct (on_db _ w) as [wc w2] eqn:E2. destruct (_ && _); intros [= _ _ <-]; by calm.
Qed.

Lemma sparse_beside v cid id w : beside (write_sparse sparse_add p ns v cid id w) = beside (w : World).
Proof.
  unfold write_sparse. destruct (negb _); [done|]. destruct (on_db _ w) as [s w1] eqn:E. calm.
  by destruct (SparseCodec.terms _).
Qed.

Lemma aux_beside ws b w : beside (write_aux now_ms sparse_add p task ns ws b w) = beside (w : World).
Proof.
  unfold write_aux.
  assert (forall (o : option float32) (w' : World), beside w' = beside w ->
    beside (match o with Some score => (on_db (BlockColumns.WriteScore (Documents.block_id b) score) w').2 | None => w' end)
    = beside (w : World)) as Hs.
  { intros [s|] w' Hw; [by rewrite db_beside|done]. }
  apply Hs. case_bool_decide; [done|].
  destruct (write_enrichment _ _ w) as [[o e] w1] eqn:E1. apply enrichment_beside in E1.
  destruct (enrich_stage_ran ws); rewrite ?db_beside, sparse_beside; done.
Qed.

Lemma insert_block_beside b w rc b' w' : insert_block pick b w = (rc, b', w') -> beside (w' : World) = beside w.
Proof. unfold insert_block. destruct (on_store _ w) as [r w1] eqn:E. intros [= _ _ <-]. by calm. Qed.

Lemma blocks_beside ws bs w b w' :
  insert_blocks pick now_ms sparse_add p task ns ws bs w = (b, w') -> beside (w' : World) = beside w.
Proof.
  revert w b. induction bs as [|x bs IH]; intros w b; simpl; [by intros [= _ <-]|].
  destruct (insert_block pick x w) as [[rc x'] w1] eqn:E1. apply insert_block_beside in E1. destruct (rc =? 0).
  - intros E2. by rewrite (IH _ _ E2), aux_beside.
  - by intros [= _ <-].
Qed.

Lemma finish_coordinator w : coordinator (finish now_ms task w).2 = coordinator (w : World).
Proof. apply beside_coordinator, finish_beside. Qed.
Lemma finish_written_coordinator n w : coordinator (finish_written now_ms p task n w).2 = coordinator (w : World).
Proof. apply beside_coordinator, finish_written_beside. Qed.

Lemma points_coordinator l w s w' : add_points l w = (s, w') -> coordinator (w' : World) = coordinator w.
Proof. unfold add_points. destruct l; [by intros [= _ <-]|]. destruct (AddPoints _ _). by intros [= _ <-]. Qed.

(** The two ends of a transaction. *)
Definition ends (txn : T) (c : W) (r : Exit * World) : Prop :=
  (exists x c' u u', Rollback txn c u = (x, c', u') /\ coordinator r.2 = c' /\ r.1 <> Returned 0) \/
  (exists x c', Commit txn c = (x, c') /\ coordinator r.2 = c' /\ (r.1 = Returned 0 -> x = Ret tt) /\
    (x = Undef -> r.1 = Undefined)).

Lemma roll_back_ends txn m w c : coordinator (w : World) = c -> ends txn c (roll_back txn m w).
Proof.
  intros <-. left. unfold roll_back. destruct (Rollback txn (coordinator w) (stores w)) as [[r c'] u] eqn:E.
  exists r, c', (stores w), u. by destruct r.
Qed.

Lemma commit_ends label txn w c k :
  coordinator (w : World) = c -> (forall w' : World, coordinator (k w').2 = coordinator w') -> ends txn c (commit label txn w k).
Proof.
  intros <- Hk. right. unfold commit. destruct (Commit txn (coordinator w)) as [r c'] eqn:E. exists r, c'.
  split; [done|]. destruct r as [[]| |]; [|done..]. split; [apply Hk|done].
Qed.

Lemma begin_closed label ids w (k : T -> World -> Exit * World) c :
  coordinator (w : World) = c ->
  (forall txn w', coordinator w' = (BeginWrite doc ids c).2 -> ends txn (BeginWrite doc ids c).2 (k txn w')) ->
  closed c (begin_write task label ids w k).1 (coordinator (begin_write task label ids w k).2).
Proof.
  intros <- Hk. unfold begin_write. destruct (BeginWrite doc ids (coordinator w)) as [r c1] eqn:E. simpl in Hk.
  destruct r as [txn|s|]; [|by eapply closed_refused|by eapply closed_undefined].
  destruct (Hk txn (MkWorld (stores w) c1 (sparse_index w) (cleaner_config w) (enqueued w) (task_state w) (polls w)) eq_refl)
    as [(x & c' & u & u' & Er & Ec & Hn)|(x & c' & Er & Ec & Hn & Hu)].
  - eapply closed_rolled_back; [exact E|rewrite Er; by rewrite <- Ec|done].
  - eapply closed_committed; [exact E|rewrite Er; by rewrite <- Ec|done|done].
Qed.

Lemma write_stores_ends ws txn w c :
  coordinator (w : World) = c -> ends txn c (write_stores pick now_ms sparse_add p task ns ws txn w).
Proof.
  intros Hc. unfold write_stores.
  set (r0 := match doc_fts5_row ws with Some row => _ | None => _ end).
  assert (coordinator r0.2 = c) as Hr0 by (unfold r0; destruct (doc_fts5_row ws); [rewrite <- Hc; apply beside_coordinator, db_beside|done]).
  destruct r0 as [wf w0]. simpl in Hr0. destruct (negb _); [by apply roll_back_ends|].
  destruct (write_labels _ w0) as [u w1] eqn:E1. apply labels_beside, beside_coordinator in E1.
  destruct (add_points _ w1) as [av w2] eqn:E2. apply points_coordinator in E2.
  destruct (negb (status_ok av)); [apply roll_back_ends; congruence|].
  destruct (insert_parents _ w2) as [ok w3] eqn:E3. apply parents_beside, beside_coordinator in E3.
  destruct (negb ok); [apply roll_back_ends; congruence|].
  destruct (insert_blocks _ _ _ _ _ _ _ _ w3) as [ok' w4] eqn:E4. apply blocks_beside, beside_coordinator in E4.
  destruct (negb ok'); [apply roll_back_ends; congruence|].
  apply commit_ends; [congruence|]. intros. apply finish_written_coordinator.
Qed.

Lemma write_closed ws w c : coordinator (w : World) = c -> closed c (write ws w).1 (coordinator (write ws w).2).
Proof. intros Hc. apply begin_closed; [done|]. intros txn w' Hw. by apply write_stores_ends. Qed.

Definition ended (c : W) (r : Exit * World) : Prop := closed c r.1 (coordinator r.2).

Lemma ended_calm c r : coordinator r.2 = c -> ended c r.
Proof. intros <-. apply closed_untouched. Qed.

Lemma unless_cancelled_ended c w k :
  coordinator (w : World) = c -> (forall w' : World, coordinator w' = c -> ended c (k w')) ->
  ended c (unless_cancelled cancelled w k).
Proof.
  intros Hc Hk. unfold unless_cancelled, poll. destruct (cancelled (polls w)); [by apply ended_calm|]. by apply Hk.
Qed.

Lemma run_or_ended {A} c (r : Run A) w k :
  coordinator (w : World) = c -> (forall a (w' : World), coordinator w' = c -> ended c (k a w')) -> ended c (run_or r w k).
Proof. intros Hc Hk. unfold run_or. destruct r; [by apply Hk|by apply ended_calm..]. Qed.

Lemma mint_coordinator {A} (f : Ulid.Globals -> A * Ulid.Globals) (w : World) : coordinator (mint f w).2 = coordinator w.
Proof. destruct (mint f w) eqn:E. calm. by apply beside_coordinator in E. Qed.

Lemma clean_coordinator d em out e w : coordinator (clean Sha256Hex p task ns d em out e w).2 = coordinator (w : World).
Proof.
  unfold clean. destruct (DataCleaner.Dedup _ _ _) as [dd bs]. destruct (DataCleaner.DetectAnomaly _ _) as [an bs'].
  simpl. by destruct (cleaning_config_resolver_ p).
Qed.

Lemma generate_coordinator d out w : coordinator (generate_metadata draw now_ms task ns d out w).2 = coordinator (w : World).
Proof.
  unfold generate_metadata. destruct (MetadataGenerator.Generate "" _); [|done].
  destruct (mint _ w) as [i w1] eqn:E. calm. apply beside_coordinator in E. done.
Qed.

Lemma finish_ended c w : coordinator (w : World) = c -> ended c (finish now_ms task w).
Proof. intros <-. apply ended_calm, finish_coordinator. Qed.
Lemma finish_written_ended c n w : coordinator (w : World) = c -> ended c (finish_written now_ms p task n w).
Proof. intros <-. apply ended_calm, finish_written_coordinator. Qed.

#[local] Abbreviation assemble_and_write :=
  (assemble_and_write sha256 Sha256Hex HashChildIdToBlockId draw pick now_ms sparse_add p task ns cancelled buckets).
Lemma assemble_ended d out meta e em sp w c : coordinator (w : World) = c -> ended c (assemble_and_write d out meta e em sp w).
Proof.
  intros Hc. unfold assemble_and_write. apply unless_cancelled_ended; [done|]. clear w Hc. intros w Hc.
  pose proof (clean_coordinator d em out e (at_stage kAssembling w)) as Hcl.
  destruct (clean _ _ _ _ d em out e (at_stage kAssembling w)) as [[bs e'] w1]. simpl in Hcl.
  apply run_or_ended; [congruence|]. intros ch w2 Hw2. destruct (embed_hype p task buckets e') as [qs e2].
  destruct (mint _ w2) as [hype w3] eqn:Em. calm. apply beside_coordinator in Em.
  apply run_or_ended; [congruence|]. intros hy w4 Hw4.
  apply run_or_ended; [done|]. intros mb w5 Hw5. by apply write_closed.
Qed.

#[local] Abbreviation embed_and_write :=
  (embed_and_write sha256 Sha256Hex HashChildIdToBlockId draw pick now_ms sparse_add p task ns cancelled buckets).
Lemma embed_ended d out meta e w c : coordinator (w : World) = c -> ended c (embed_and_write d out meta e w).
Proof.
  intros Hc. unfold embed_and_write. destruct (_ && _); [|by apply assemble_ended].
  apply unless_cancelled_ended; [done|]. intros w' Hw'. destruct (embed_children p out) as [[em sp]|s];
    [by apply assemble_ended|by apply ended_calm].
Qed.

Lemma parsed_ended d w c :
  coordinator (w : World) = c ->
  ended c (ProcessParsed sha256 Sha256Hex HashChildIdToBlockId draw pick now_ms sparse_add p task ns cancelled buckets d w).
Proof.
  intros Hc. unfold ProcessParsed. apply unless_cancelled_ended; [done|]. clear w Hc. intros w Hc.
  destruct (mint _ (at_stage kChunking w)) as [chunked w1] eqn:E. calm. apply beside_coordinator in E. simpl in E.
  destruct chunked as [out|s].
  - assert (ended c (enrich_and_write sha256 Sha256Hex HashChildIdToBlockId draw pick now_ms sparse_add p task ns cancelled
      buckets d out w1)) as He.
    { unfold enrich_and_write. pose proof (generate_coordinator d out w1) as Hg.
      destruct (generate_metadata draw now_ms task ns d out w1) as [meta w2]. simpl in Hg.
      destruct (_ && _); [|apply embed_ended; congruence]. apply unless_cancelled_ended; [congruence|]. intros w3 Hw3.
      destruct (enrich _ _ _ _); [by apply embed_ended|by apply ended_calm]. }
    destruct (ParentChildChunker.parents out), (ParentChildChunker.children out); try done.
    apply finish_written_ended. congruence.
  - destruct (_ || _); [apply finish_written_ended; congruence|]. apply ended_calm. simpl. congruence.
Qed.

Lemma write_one_ended what block points failed w c :
  coordinator (w : World) = c -> ended c (write_one pick now_ms task what block points failed w).
Proof.
  intros Hc. apply begin_closed; [done|]. intros txn w' Hw'.
  destruct (add_points _ w') as [av w1] eqn:E1. apply points_coordinator in E1.
  destruct (negb (status_ok av)); [apply roll_back_ends; congruence|].
  destruct (insert_block _ _ w1) as [[rc b] w2] eqn:E2. apply insert_block_beside, beside_coordinator in E2.
  destruct (negb (rc =? 0)); [apply roll_back_ends; congruence|].
  apply commit_ends; [congruence|]. intros. apply finish_coordinator.
Qed.

(** No run of the pipeline leaves a transaction of its own open: whatever fails or is
    cancelled, in any stage, each transaction it begins is ended by exactly one Rollback
    or Commit, after which the coordinator is not called again, and a run reports success
    only when it began none or its Commit succeeded. *)
Lemma process_closed (w : World) : closed (coordinator w) (Process w).1 (coordinator (Process w).2).
Proof.
  unfold Process. change (ended (coordinator w) (Process w)). unfold Process. remember (coordinator w) as c eqn:Hc. symmetry in Hc.
  destruct (_ =? 0); [by apply finish_ended|]. case_bool_decide.
  - unfold ProcessMemory. apply unless_cancelled_ended; [done|]. clear w Hc. intros w Hc. case_bool_decide; [by apply finish_ended|].
    destruct (EmbedBatch p _) as [l|s]; [|by apply ended_calm].
    destruct (mint _ _) as [block w1] eqn:E. calm. apply beside_coordinator in E. apply run_or_ended; [by rewrite E|]. intros. by apply write_one_ended.
  - destruct (_ =? 1).
    + unfold ProcessMetadata. apply unless_cancelled_ended; [done|]. clear w Hc. intros w Hc.
      destruct (mint _ _) as [i w1] eqn:E. calm. apply beside_coordinator in E. apply run_or_ended; [by rewrite E|]. intros. by apply write_one_ended.
    + apply unless_cancelled_ended; [done|]. clear w Hc. intros w Hc. destruct (negb _); [by apply ended_calm|]. by apply parsed_ended.
Qed.

End Transactions.

(** ** With the write coordinator *)

Section Released.
Context `{Planner, Nlohmann, Zlib}.
Context (sha256 : bytes -> option bytes) (Sha256Hex : string -> string) (HashChildIdToBlockId : string -> Z).
Context (draw : nat -> Z) (pick : list Z -> Z) (now_ms : Z).
Context {I R : Type} `{VectorIndex I}.
Context (callback : WriteCoordinator.RollbackCallback (Stores (I := I))).
#[local] Instance coordinator_of : Coordinator WriteCoordinator.TxnHandle WriteCoordinator.WriteCoordinator (Stores (I := I)) :=
  store_coordinator callback now_ms.
Context (sparse_add : string -> string -> SparseCodec.SparseVector -> R -> R).
Context (p : SPCPipeline) (task : DocumentProcessor.SPCTask) (ns : string) (cancelled : nat -> bool).
Context (buckets : list (string * list EnricherChain.HypeQuestion) -> list (string * list EnricherChain.HypeQuestion)).
#[local] Abbreviation World := (World (I := I) (W := WriteCoordinator.WriteCoordinator) (R := R)).
#[local] Abbreviation doc := (ParentChildChunker.bytes_of (DocumentProcessor.st_doc_id task)).
#[local] Abbreviation Process :=
  (Process sha256 Sha256Hex HashChildIdToBlockId draw pick now_ms sparse_add p task ns cancelled buckets).
Import WriteCoordinator.

(** What a transaction needs of the tables to be ended. *)
Definition begun (txn : TxnHandle) (c c1 : WriteCoordinator) : Prop :=
  is_Some (wal_ c1) /\ active_docs_ c !! doc = None /\ active_docs_ c1 = <[doc := h_txn_id txn]> (active_docs_ c) /\
  exists ids sc, active_txns_ c1 !! h_txn_id txn = Some (MkTxnState PendingEntry.kPending doc ids sc).

Lemma begin_outcome ids c r c1 :
  WriteCoordinator.BeginWrite now_ms doc ids false PendingEntry.kDocument c = (r, c1) ->
  match r with
  | Ret txn => begun txn c c1
  | Fail _ => active_docs_ c1 = active_docs_ c
  | Undef => False
  end.
Proof.
  unfold WriteCoordinator.BeginWrite, BeginReserve. destruct (wal_ c) as [wal|]; [|by intros [= <- <-]].
  destruct (active_docs_ c !! doc) eqn:Hd; [by intros [= <- <-]|].
  destruct (PendingLogWriter.Append _ wal) as [s wal'].
  destruct (negb (status_ok s)); intros [= <- <-]; simpl.
  - by rewrite delete_insert_id.
  - split; [by eexists|]. split; [done|]. split; [done|]. eexists _, _. apply lookup_insert_eq.
Qed.

(** The log refuses the record of a rollback. *)
Definition rollback_not_logged (c : WriteCoordinator) : Prop :=
  exists txn wal wal' s,
    PendingLogWriter.Append (terminal_entry PendingEntry.kRollback (h_txn_id txn) now_ms) wal = (s, wal') /\
    status_ok s = false /\ wal_ c = Some wal'.

Hypothesis doc_named : DocumentProcessor.st_doc_id task <> ""%string.

Lemma doc_bytes : doc <> [].
Proof. destruct (DocumentProcessor.st_doc_id task) eqn:E; [done|]. by unfold ParentChildChunker.bytes_of. Qed.

Lemma released txn c c1 : begun txn c c1 -> delete doc (active_docs_ c1) = active_docs_ c.
Proof. intros (_ & Hd & -> & _). by rewrite delete_insert_id. Qed.

Lemma rollback_outcome txn c c1 u r c' u' :
  begun txn c c1 -> WriteCoordinator.Rollback callback now_ms txn c1 u = (r, c', u') ->
  active_docs_ c' = active_docs_ c \/ rollback_not_logged c'.
Proof.
  intros Hb. pose proof (released _ _ _ Hb) as Hr. destruct Hb as ([wal Hw] & _ & _ & ids & sc & Ht).
  unfold WriteCoordinator.Rollback, CheckAndMarkFinalizing, ReleaseDoc. rewrite Hw, Ht. simpl.
  destruct (PendingLogWriter.Append _ wal) as [s wal'] eqn:Ea. destruct (status_ok s) eqn:Es; simpl.
  - rewrite decide_False by apply doc_bytes. destruct callback as [f|]; [|intros [= _ <- _]; by left].
    destruct (f _ u) as [st u1]. destruct (negb (status_ok st)); intros [= _ <- _]; by left.
  - intros [= _ <- _]. right. by exists txn, wal, wal', s.
Qed.

Lemma AppendRetry_no_fail n delay e wal st wal' : AppendRetry n delay e wal <> (Fail st, wal').
Proof.
  revert delay wal. induction n as [|n IH]; intros delay wal; simpl; [done|].
  destruct (PendingLogWriter.Append e wal) as [s wal1]. destruct (status_ok s); [done|].
  destruct n; [done|]. destruct (_ || _); [done|]. apply IH.
Qed.

Lemma commit_outcome txn c c1 r c' :
  begun txn c c1 -> WriteCoordinator.Commit now_ms txn c1 = (r, c') -> active_docs_ c' = active_docs_ c \/ r = Undef.
Proof.
  intros Hb. pose proof (released _ _ _ Hb) as Hr. destruct Hb as ([wal Hw] & _ & _ & ids & sc & Ht).
  unfold WriteCoordinator.Commit, CheckAndMarkFinalizing, ReleaseDoc. rewrite Hw. simpl. rewrite Ht. simpl.
  destruct (AppendRetry _ _ _ wal) as [[s|st|] wal'] eqn:Ea; simpl;
    [|by eapply AppendRetry_no_fail in Ea|intros [= <- _]; by right].
  destruct (status_ok s); simpl; unfold ReleaseDoc; rewrite decide_False by apply doc_bytes; [|intros [= _ <-]; by left].
  destruct (_ && _); [|intros [= _ <-]; by left].
  destruct (PendingLogWriter.Compact wal') as [[[]|st|] wal'']; intros [= <- <-]; by left.
Qed.

(** C10: after every run that has a defined outcome, a document with an identifier is as locked as it was
    before, so the next write of it is not refused, whatever failed, was cancelled or
    threw; the one exception is a failed run whose Rollback could not be logged. *)
Theorem Ingest_releases_document (w : World) :
  (Process w).1 = Undefined \/
  active_docs_ (coordinator (Process w).2) = active_docs_ (coordinator w) \/
  (Process w).1 <> Returned 0 /\ rollback_not_logged (coordinator (Process w).2).
Proof.
  pose proof (process_closed sha256 Sha256Hex HashChildIdToBlockId draw pick now_ms sparse_add p task ns cancelled buckets w) as Hc.
  destruct Hc as [x|ids s c' Hb|ids x c' Hb|ids txn c1 u r c' u' x Hb Hr Hx|ids txn c1 r c' x Hb Hr _ Hu];
    [by right; left|apply begin_outcome in Hb; auto|by apply begin_outcome in Hb|..]; apply begin_outcome in Hb.
  - destruct (rollback_outcome _ _ _ _ _ _ _ Hb Hr); auto.
  - destruct (commit_outcome _ _ _ _ _ Hb Hr); auto.
Qed.

End Released.

(** ** What a successful write leaves in the store *)

Section Steady.
Import Sqlite Documents CortrixStoreSqlite.
#[local] Existing Instance CortrixStoreSqlite_eta.

(** A block's row without the columns of its enrichment. *)
Definition core (r : BlockRow) : BlockRow :=
  MkBlockRow (b_block_id r) (b_doc_id r) (b_chunk_index r) (b_block_type r) (b_processing_level r) (b_hnsw_node_id r)
    (b_content_hash r) (b_data r) (b_content_text r) (b_child_id r) (b_parent_id r) (b_token_count r) (b_parent_offset r)
    (b_metadata_json r) None None None None None None None None.

(** Rows that are there up to those columns, parents and labels. *)
Record stored (rows : list BlockRow) (ps : list CortrixParent) (ls : list Z) (d : Db) : Prop := {
  so_rows : forall r, r ∈ rows -> core r ∈ core <$> blocks d;
  so_parents : forall q, q ∈ ps -> q ∈ parents d;
  so_labels : forall l, l ∈ ls -> BlockColumns.sql_int l ∈ (labels d).*1
}.

Context (rows : list BlockRow) (ps : list CortrixParent) (ls : list Z).
#[local] Abbreviation kept := (stored rows ps ls).

(** A connection whose failures end no transaction: it has the rows, and [J] holds of
    what a ROLLBACK would bring back. *)
Record steady (J : Db -> Prop) (c : Conn Db) : Prop := {
  st_data : kept (data c); st_quiet : SqlAbort ∉ outcomes c; st_saved : forall d, saved c = Some d -> J d
}.
Definition harmless (f : Db -> option (Z * Db)) : Prop := forall d n d', kept d -> f d = Some (n, d') -> kept d'.

Lemma steady_next J o c c' : steady J c -> next_outcome c = (o, c') -> steady J c' /\ o <> SqlAbort.
Proof.
  intros [Hd Hq Hs] E. unfold next_outcome in E. destruct (outcomes c) as [|o1 os] eqn:Eo; injection E as <- <-.
  - split; [split; [done|by rewrite Eo|done]|done].
  - apply not_elem_of_cons in Hq as [Hn Hq]. split; [split; [done|exact Hq|done]|done].
Qed.

Lemma steady_change J f c r c' : harmless f -> steady J c -> change f c = (r, c') -> steady J c'.
Proof.
  intros Hf Hc. unfold change. destruct (next_outcome c) as [o c1] eqn:E. destruct (steady_next _ _ _ _ Hc E) as [H1 Ho].
  destruct o; [|by intros [= _ <-]..|done]. destruct (f (data c1)) as [[n d]|] eqn:Ef; intros [= _ <-]; [|done].
  destruct H1. split; [by eapply Hf|done|done].
Qed.

Lemma steady_select {A} J (f : Db -> list A) c r c' : steady J c -> select f c = (r, c') -> steady J c'.
Proof.
  intros Hc. unfold select. destruct (next_outcome c) as [o c1] eqn:E. destruct (steady_next _ _ _ _ Hc E) as [H1 Ho].
  destruct o; [by intros [= _ <-]..|done].
Qed.

Lemma steady_weaken (J J' : Db -> Prop) c : (forall d, J d -> J' d) -> steady J c -> steady J' c.
Proof. intros HJ []. split; auto. Qed.

Lemma steady_any J c : steady J c -> steady (fun _ => True) c.
Proof. by apply steady_weaken. Qed.

Lemma steady_BEGIN J c b c' : steady J c -> BEGIN c = (b, c') -> if b then steady kept c' else steady J c'.
Proof.
  intros Hc. unfold BEGIN. destruct (next_outcome c) as [o c1] eqn:E. destruct (steady_next _ _ _ _ Hc E) as [H1 Ho].
  destruct o; [|by intros [= <- <-]..|done]. destruct (in_transaction c1); intros [= <- <-]; [done|].
  destruct H1. by split; [| |intros d [= <-]].
Qed.

Lemma steady_COMMIT J c b c' : steady J c -> COMMIT c = (b, c') -> steady J c'.
Proof.
  intros Hc. unfold COMMIT. destruct (next_outcome c) as [o c1] eqn:E. destruct (steady_next _ _ _ _ Hc E) as [H1 Ho].
  destruct o; [|by intros [= _ <-]..|done]. intros [= _ <-]. by destruct H1.
Qed.

Lemma steady_ROLLBACK c : steady kept c -> steady kept (ROLLBACK c).
Proof.
  intros Hc. unfold ROLLBACK. destruct (next_outcome c) as [o c1] eqn:E. destruct (steady_next _ _ _ _ Hc E) as [H1 Ho].
  destruct o; [|done..]. destruct H1 as [Hd Hq Hs]. split; [|done|done]. simpl. unfold committed.
  destruct (saved c1) as [d|]; [by apply Hs|done].
Qed.

(** The statements of the pipeline. *)
Lemma harmless_same f :
  (forall d n d', f d = Some (n, d') -> blocks d' = blocks d /\ parents d' = parents d /\ labels d' = labels d) -> harmless f.
Proof. intros Hf d n d' [Hb Hp Hl] (Eb & Ep & El)%Hf. split; by rewrite ?Eb, ?Ep, ?El. Qed.

Lemma harmless_update id set : (forall b, core (set b) = core b) -> harmless (BlockColumns.update_block id set).
Proof.
  intros Hset d n d' [Hb Hp Hl] [= _ <-]. split; [|done..]. simpl. intros r Hr. specialize (Hb r Hr).
  rewrite <- list_fmap_compose. apply list_elem_of_fmap in Hb as (b & -> & Hb). apply list_elem_of_fmap. exists b.
  split; [|done]. simpl. by destruct (BlockColumns.has_id id b).
Qed.

Lemma harmless_insert fk r : harmless (insert_block fk r).
Proof.
  intros d n d' [Hb Hp Hl] E. unfold insert_block in E. destruct (bool_decide _); [done|]. destruct (_ && _); [done|].
  injection E as _ <-. split; [|done..]. simpl. intros q Hq. rewrite fmap_app. apply elem_of_app. left. by apply Hb.
Qed.

Lemma harmless_parent q : harmless (insert_parent q).
Proof.
  intros d n d' [Hb Hp Hl] E. unfold insert_parent in E. destruct (bool_decide _); [done|]. injection E as _ <-.
  split; [done| |done]. simpl. intros q' Hq. apply elem_of_app. left. by apply Hp.
Qed.

Lemma harmless_label lr : harmless (BlockColumns.upsert_label lr).
Proof.
  intros d n d' [Hb Hp Hl] [= _ <-]. split; [done..|]. simpl. intros l Hi. specialize (Hl l Hi).
  destruct (existsb _ _); [|rewrite fmap_app; apply elem_of_app; by left].
  apply list_elem_of_fmap in Hl as (e & -> & He). rewrite <- list_fmap_compose. apply list_elem_of_fmap. exists e.
  split; [|done]. simpl. by destruct (Z.eqb_spec e.1 (BlockColumns.sql_int (BlockColumns.label lr))).
Qed.

Lemma harmless_docs w set : harmless (update_docs w set).
Proof. apply harmless_same. by intros d n d' [= _ <-]. Qed.
Lemma harmless_elsewhere : harmless BlockColumns.insert_elsewhere.
Proof. apply harmless_same. by intros d n d' [= _ <-]. Qed.
Lemma harmless_delete_fts t : harmless (BlockColumns.delete_fts t).
Proof. apply harmless_same. by intros d n d' [= _ <-]. Qed.
Lemma harmless_ledger r set : harmless (EnrichState.upsert_ledger r set).
Proof. apply harmless_same. unfold EnrichState.upsert_ledger. intros d n d'. by destruct (existsb _ _); intros [= _ <-]. Qed.

(** Runs statements one after the other. *)
#[local] Ltac harmless_tac :=
  first [apply harmless_update; reflexivity | apply harmless_insert | apply harmless_parent | apply harmless_docs
        | apply harmless_elsewhere | apply harmless_label | apply harmless_delete_fts | apply harmless_ledger
        | apply harmless_same; by intros ? ? ? [= _ <-]].
#[local] Ltac steady_run :=
  repeat (simpl; match goal with
  | Hc : steady ?J ?c |- context [change ?f ?c] =>
      let E := fresh "E" in destruct (change f c) as [? ?] eqn:E; apply (steady_change J) in E; [|harmless_tac|exact Hc]
  | Hc : steady ?J ?c |- context [select ?f ?c] =>
      let E := fresh "E" in destruct (select f c) as [? ?] eqn:E; apply (steady_select J) in E; [|exact Hc]
  | Hc : steady ?J ?c |- context [COMMIT ?c] =>
      let E := fresh "E" in destruct (COMMIT c) as [? ?] eqn:E; apply (steady_COMMIT J) in E; [|exact Hc]
  | Hc : steady ?J ?c |- context [BEGIN ?c] =>
      let E := fresh "E" in destruct (BEGIN c) as [[] ?] eqn:E; apply (steady_BEGIN J) in E; [|exact Hc]; cbv iota in E
  | Hc : steady kept ?c |- context [ROLLBACK ?c] => apply steady_ROLLBACK in Hc
  | |- steady _ _ => case_match
  end); simpl; eauto using steady_any, steady_ROLLBACK.

Context `{Nlohmann}.

Lemma steady_fts J row c : steady J c -> steady J (BlockColumns.UpsertDocFts5Row row c).2.
Proof. intros Hc. unfold BlockColumns.UpsertDocFts5Row. steady_run. Qed.
Lemma steady_write_label J row c : steady J c -> steady J (BlockColumns.WriteContextualVecLabel row c).2.
Proof. intros Hc. unfold BlockColumns.WriteContextualVecLabel. steady_run. Qed.
Lemma steady_contextualized J id r c : steady J c -> steady J (BlockColumns.WriteContextualized id r c).2.
Proof. intros Hc. unfold BlockColumns.WriteContextualized. steady_run. Qed.
Lemma steady_score J id v c : steady J c -> steady J (BlockColumns.WriteScore id v c).2.
Proof. intros Hc. unfold BlockColumns.WriteScore. steady_run. Qed.
Lemma steady_sparse J id v c : steady J c -> steady J (BlockColumns.WriteSparseVec id v c).2.
Proof. intros Hc. unfold BlockColumns.WriteSparseVec. destruct (BlockColumns.sparse_blob v) as [blob []]; steady_run. Qed.
Lemma steady_coverage J row c : steady J c -> steady J (EnrichState.UpsertEnrichState row c).2.
Proof. intros Hc. unfold EnrichState.UpsertEnrichState. steady_run. Qed.

Lemma steady_entities J es c : steady J c -> steady J (BlockColumns.insert_entities es c).2.
Proof.
  revert c. induction es as [|e es IH]; intros c Hc; simpl; [done|].
  destruct (change _ c) as [r c1] eqn:E1. apply (steady_change J) in E1; [|harmless_tac|done].
  destruct r; [done..|]. destruct (change _ c1) as [r c2] eqn:E2. apply (steady_change J) in E2; [|harmless_tac|done].
  destruct r; [done..|]. by apply IH.
Qed.

Lemma steady_write_entities J es c : steady J c -> steady J (BlockColumns.WriteEntities es c).2.
Proof.
  intros Hc. unfold BlockColumns.WriteEntities, BlockColumns.prepare_only. destruct es as [|e es]; [done|].
  destruct (select _ c) as [q c1] eqn:E1. apply (steady_select J) in E1; [|done]. destruct (negb _); [done|].
  destruct (select _ c1) as [q2 c2] eqn:E2. apply (steady_select J) in E2; [|done]. destruct (negb _); [done|].
  by apply steady_entities.
Qed.

Lemma steady_enrichment id r c :
  steady (fun _ => True) c -> steady (fun _ => True) (BlockColumns.WriteEnrichment id r c).2.
Proof.
  intros Hc. unfold BlockColumns.WriteEnrichment. destruct (BEGIN c) as [b c1] eqn:E1. apply (steady_BEGIN (fun _ => True)) in E1; [|done].
  destruct b; [|done]. simpl.
  assert (steady kept (BlockColumns.WriteBlockEnrichment id r c1).2) as H2
    by (unfold BlockColumns.WriteBlockEnrichment; steady_run).
  destruct (BlockColumns.WriteBlockEnrichment id r c1) as [s c2]. simpl in H2.
  destruct (if status_ok s then _ else _) as [s3 c3] eqn:E3.
  assert (steady kept c3) as H3.
  { pose proof (steady_write_entities kept (EnricherChain.entities r) c2 H2) as He. destruct (status_ok s); [|by injection E3 as _ <-].
    by rewrite E3 in He. }
  simpl. apply (steady_any kept). destruct (status_ok s3); [|by apply steady_ROLLBACK].
  destruct (COMMIT c3) as [b c4] eqn:E4. by apply (steady_COMMIT kept) in E4.
Qed.

End Steady.

Section Stored.
Context `{Planner, Nlohmann, Zlib}.
Context (pick : list Z -> Z) (now_ms : Z).
Context {I T W R : Type} `{VectorIndex I} `{Coordinator T W (Stores (I := I))}.
Context (sparse_add : string -> string -> SparseCodec.SparseVector -> R -> R).
Context (p : SPCPipeline) (task : DocumentProcessor.SPCTask) (ns : string).
#[local] Abbreviation World := (World (I := I) (W := W) (R := R)).
#[local] Abbreviation write := (write pick now_ms sparse_add p task ns).
Import Sqlite Documents CortrixStoreSqlite.
#[local] Existing Instance CortrixStoreSqlite_eta.

(** The connection of the store. *)
Definition db (w : World) : Conn Db := conn (store (stores w)).
#[local] Abbreviation steady rows ps ls := (steady rows ps ls (fun _ => True)).

Section Kept.
Context (rows : list BlockRow) (ps : list CortrixParent) (ls : list Z).
#[local] Abbreviation holding := (steady rows ps ls).

Lemma on_db_steady {A} (f : Conn Db -> A * Conn Db) w a w' :
  (forall c, holding c -> holding (f c).2) -> holding (db w) -> on_db f w = (a, w') -> holding (db w').
Proof.
  intros Hf Hw. unfold on_db, on_store, on_conn, db. specialize (Hf (db w) Hw). unfold db in Hf.
  destruct (f (conn (store (stores w)))) as [r c]. by intros [= _ <-].
Qed.

Lemma enrichment_steady r id w o e w' : holding (db w) -> write_enrichment r id w = (o, e, w') -> holding (db w').
Proof.
  intros Hw. unfold write_enrichment. destruct r as [r|]; [|by intros [= _ _ <-]].
  destruct (if EnricherChain.result_ok r then _ else _) as [we w1] eqn:E1.
  assert (holding (db w1)) as Hw1.
  { destruct (EnricherChain.result_ok r); [|by injection E1 as _ <-].
    eapply (on_db_steady (BlockColumns.WriteEnrichment id r)); [apply steady_enrichment|exact Hw|exact E1]. }
  destruct (on_db _ w1) as [wc w2] eqn:E2.
  eapply (on_db_steady (BlockColumns.WriteContextualized id r)) in E2; [|intros c; apply steady_contextualized|done].
  by destruct (_ && _); intros [= _ _ <-].
Qed.

Lemma sparse_steady v cid id w : holding (db w) -> holding (db (write_sparse sparse_add p ns v cid id w)).
Proof.
  intros Hw. unfold write_sparse. destruct (negb _); [done|]. destruct (on_db _ w) as [s w1] eqn:E.
  apply on_db_steady in E; [|intros c; apply steady_sparse|done]. by destruct (SparseCodec.terms _).
Qed.

Lemma on_db_fst_steady {A} (f : Conn Db -> A * Conn Db) w :
  (forall c, holding c -> holding (f c).2) -> holding (db w) -> holding (db (on_db f w).2).
Proof. intros Hf Hw. destruct (on_db f w) as [a w'] eqn:E. by eapply on_db_steady in E. Qed.

Lemma aux_steady ws b w : holding (db w) -> holding (db (write_aux now_ms sparse_add p task ns ws b w)).
Proof.
  intros Hw. unfold write_aux.
  assert (forall (o : option float32) (w' : World), holding (db w') ->
    holding (db (match o with Some score => (on_db (BlockColumns.WriteScore (Documents.block_id b) score) w').2 | None => w' end)))
    as Hs.
  { intros [s|] w' Hw'; [|done]. apply on_db_fst_steady; [|done]. intros c. apply steady_score. }
  apply Hs. case_bool_decide; [done|]. destruct (write_enrichment _ _ w) as [[o e] w1] eqn:E1.
  apply enrichment_steady in E1; [|done]. destruct (enrich_stage_ran ws); [|by apply sparse_steady].
  apply on_db_fst_steady; [intros c; apply steady_coverage|by apply sparse_steady].
Qed.

(** The methods of the store. *)
Lemma fault_steady s b s' : TryConsumeOpFault s = (b, s') -> conn s' = conn s.
Proof. unfold TryConsumeOpFault. by destruct (0 <? _); intros [= _ <-]. Qed.

Lemma change_store (f : Db -> option (Z * Db)) J s r s' :
  harmless rows ps ls f -> PipelineTheory.steady rows ps ls J (conn s) -> on_conn (change f) s = (r, s') ->
  PipelineTheory.steady rows ps ls J (conn s').
Proof.
  intros Hf Hs. unfold on_conn. destruct (change f (conn s)) as [r1 c] eqn:E. intros [= _ <-]. by eapply steady_change in E.
Qed.

Lemma select_store {A} (f : Db -> list A) J s r s' :
  PipelineTheory.steady rows ps ls J (conn s) -> on_conn (select f) s = (r, s') -> PipelineTheory.steady rows ps ls J (conn s').
Proof.
  intros Hs. unfold on_conn. destruct (select f (conn s)) as [r1 c] eqn:E. intros [= _ <-]. by eapply steady_select in E.
Qed.

Lemma probe_steady J s q s' :
  PipelineTheory.steady rows ps ls J (conn s) -> DeletedFromStatusColumnLocked s = (q, s') ->
  PipelineTheory.steady rows ps ls J (conn s').
Proof.
  unfold DeletedFromStatusColumnLocked. intros Hs. destruct (has_deleted_from_status_ s); [by intros [= _ <-]|].
  destruct (on_conn (select documents_columns) s) as [r s1] eqn:E. eapply select_store in E; [|exact Hs].
  destruct r as [[names b]|]; [|by intros [= _ <-]]. by destruct (_ && _); intros [= _ <-].
Qed.

Lemma publish_steady now id s : holding (conn s) -> holding (conn (doc_publish_version now id now_ms s).2).
Proof.
  intros Hs. unfold doc_publish_version. destruct (TryConsumeOpFault s) as [b s1] eqn:E0. apply fault_steady in E0.
  rewrite <- E0 in Hs. destruct b; [done|]. unfold on_conn at 1. destruct (BEGIN (conn s1)) as [b c] eqn:E1.
  apply (steady_BEGIN rows ps ls (fun _ => True)) in E1; [|done]. destruct b; [|done]. simpl.
  set (s2 := s1 <| conn := c |>). assert (PipelineTheory.steady rows ps ls (stored rows ps ls) (conn s2)) as Hs2 by exact E1.
  assert (forall s, PipelineTheory.steady rows ps ls (stored rows ps ls) (conn s) -> holding (conn (rollback_if_open s))) as Hr.
  { intros s' Hs'. unfold rollback_if_open. destruct (in_transaction _); [|by eapply steady_any].
    apply (steady_any rows ps ls (stored rows ps ls)). simpl. by apply steady_ROLLBACK. }
  unfold UpdateStatusLocked. destruct (on_conn _ s2) as [r s3] eqn:E3. eapply change_store in E3; [|apply harmless_docs|exact Hs2].
  assert (forall urc, holding (conn (if negb (urc =? 0) then (urc, 0, rollback_if_open s3) else
    let '(rrc, n, s) := RetireOlderVersionsLocked now id now_ms s3 in
    if negb (rrc =? 0) then (-1, 0, rollback_if_open s) else
    let '(committed_, s) := on_conn COMMIT s in
    if negb committed_ then (-1, 0, rollback_if_open s) else (0, n, s)).2)) as Hgo.
  { intros urc. destruct (negb _); [by apply Hr|]. unfold RetireOlderVersionsLocked.
    destruct (DeletedFromStatusColumnLocked s3) as [q s4] eqn:E4. eapply probe_steady in E4; [|exact E3].
    destruct (on_conn _ s4) as [r5 s5] eqn:E5. eapply change_store in E5; [|apply harmless_docs|exact E4].
    destruct (finished r5); simpl; [|by apply Hr]. unfold on_conn. destruct (COMMIT (conn s5)) as [b c6] eqn:E6.
    apply (steady_COMMIT rows ps ls (stored rows ps ls)) in E6; [|done]. destruct b; simpl; [by eapply steady_any|by apply Hr]. }
  destruct (finished r); apply Hgo.
Qed.

Lemma withdraw_steady now id m s : holding (conn s) -> holding (conn (doc_withdraw_version now id now_ms m s).2).
Proof.
  intros Hs. unfold doc_withdraw_version. destruct (TryConsumeOpFault s) as [b s1] eqn:E0. apply fault_steady in E0.
  rewrite <- E0 in Hs. destruct b; [done|]. destruct (in_transaction _); [done|].
  destruct (DeletedFromStatusColumnLocked s1) as [q s2] eqn:E2. eapply probe_steady in E2; [|exact Hs].
  destruct (on_conn _ s2) as [r s3] eqn:E3. eapply change_store in E3; [|apply harmless_docs|exact E2]. by destruct (finished r).
Qed.

Lemma get_steady id s : holding (conn s) -> holding (conn (CortrixStoreSqlite.doc_get id s).2).
Proof.
  intros Hs. unfold CortrixStoreSqlite.doc_get. destruct (TryConsumeOpFault s) as [b s1] eqn:E0. apply fault_steady in E0.
  rewrite <- E0 in Hs. destruct b; [done|]. unfold lookup_row.
  destruct (on_conn _ s1) as [r s2] eqn:E2. eapply select_store in E2; [|exact Hs]. by destruct r as [[[|] ?]|].
Qed.

End Kept.

(** The new connection of a statement that succeeded. *)
Lemma steady_done f rows ps ls rows' ps' ls' s n s' :
  steady rows ps ls (conn s) -> on_conn (change f) s = (Changes n, s') ->
  (forall d d', stored rows ps ls d -> f d = Some (n, d') -> stored rows' ps' ls' d') -> steady rows' ps' ls' (conn s').
Proof.
  intros Hs E Hf. unfold on_conn, change in E. destruct (next_outcome (conn s)) as [o c1] eqn:En.
  destruct (steady_next _ _ _ _ _ _ _ Hs En) as [[Hd Hq _] Ho]. destruct o; [|done..].
  destruct (f (data c1)) as [[n' d]|] eqn:Ef; [|done]. injection E as <- <-. split; [by eapply Hf|done|done].
Qed.

Lemma label_grows lr rows ps ls w s w' :
  steady rows ps ls (db w) -> on_db (BlockColumns.WriteContextualVecLabel lr) w = (s, w') ->
  steady rows ps (if status_ok s then BlockColumns.label lr :: ls else ls) (db w').
Proof.
  intros Hw E. assert (steady rows ps ls (db w')) as Hw'.
  { eapply on_db_steady; [|exact Hw|exact E]. intros c. apply steady_write_label. }
  destruct (status_ok s) eqn:Es; [|done]. unfold on_db, on_store, BlockColumns.WriteContextualVecLabel in E.
  destruct (on_conn (fun c => let '(r, c) := change _ c in _) (store (stores w))) as [s1 st] eqn:E1.
  injection E as <- <-. unfold on_conn in E1.
  destruct (change (BlockColumns.upsert_label lr) (conn (store (stores w)))) as [r c] eqn:E2. injection E1 as <- <-.
  destruct r as [| |n]; [done..|].
  apply (steady_done (BlockColumns.upsert_label lr) rows ps ls rows ps (BlockColumns.label lr :: ls) (store (stores w)) n);
    [exact Hw|unfold on_conn; by rewrite E2|].
  intros d d' Hk Ed. destruct (harmless_label rows ps ls lr d n d' Hk Ed) as [Hb Hp Hl].
  split; [exact Hb|exact Hp|]. intros l [->|Hin]%elem_of_cons; [|by apply Hl]. injection Ed as _ <-. simpl.
  destruct (existsb _ (labels d)) eqn:Ee.
  - apply existsb_exists in Ee as (e & He & Hk'%Z.eqb_eq). rewrite <- list_fmap_compose. apply list_elem_of_fmap.
    exists e. split; [|by apply list_elem_of_In]. simpl. by rewrite Hk', Z.eqb_refl.
  - rewrite fmap_app. apply elem_of_app. right. by apply list_elem_of_singleton.
Qed.

Lemma labels_grow lrs rows ps ls w u w' :
  steady rows ps ls (db w) -> write_labels lrs w = (u, w') ->
  exists good, steady rows ps (good ++ ls)%list (db w') /\
    (forall lr, lr ∈ lrs -> BlockColumns.label lr ∈ good \/ BlockColumns.label lr ∈ u) /\
    (forall l, l ∈ u -> l ∈ BlockColumns.label <$> lrs).
Proof.
  revert ls w u. induction lrs as [|lr lrs IH]; intros ls w u Hw; simpl.
  - intros [= <- <-]. exists []. split; [done|]. split; intros ? []%elem_of_nil.
  - destruct (on_db _ w) as [s w1] eqn:E1. apply (label_grows _ rows ps ls) in E1; [|done].
    destruct (write_labels lrs w1) as [u' w2] eqn:E2. intros [= <- <-].
    destruct (IH _ _ _ E1 E2) as (good & Hg & Hin & Hu).
    destruct (status_ok s).
    + exists (good ++ [BlockColumns.label lr])%list. rewrite <- app_assoc. split; [done|]. split.
      * intros lr' [->|Hlr]%elem_of_cons; [left; apply elem_of_app; right; by apply list_elem_of_singleton|].
        destruct (Hin _ Hlr); [left; apply elem_of_app; by left|by right].
      * intros l Hl. apply elem_of_cons. right. by apply Hu.
    + exists good. split; [done|]. split.
      * intros lr' [->|Hlr]%elem_of_cons; [right; apply elem_of_cons; by left|].
        destruct (Hin _ Hlr); [by left|right; apply elem_of_cons; by right].
      * intros l [->|Hl]%elem_of_cons; apply elem_of_cons; [by left|right; by apply Hu].
Qed.

Lemma parents_grow l rows ps ls w w' :
  steady rows ps ls (db w) -> insert_parents l w = (true, w') -> steady rows (l ++ ps)%list ls (db w').
Proof.
  revert ps w. induction l as [|q l IH]; intros ps w Hw; simpl; [by intros [= <-]|].
  destruct (on_store _ w) as [rc w1] eqn:E1. destruct (Z.eqb_spec rc 0) as [->|]; [|done]. intros E2.
  assert (steady rows (q :: ps) ls (db w1)) as Hw1.
  { unfold on_store, CortrixStoreSqlite.parent_insert in E1.
    destruct (TryConsumeOpFault (store (stores w))) as [b s1] eqn:E0. apply fault_steady in E0.
    destruct b; [done|]. destruct (on_conn _ s1) as [r s2] eqn:E3. injection E1 as Er <-. destruct r as [|[]|n]; [done..|].
    eapply steady_done; [|exact E3|].
    { rewrite E0. exact Hw. }
    intros d d' Hk Ed. destruct (harmless_parent rows ps ls q d n d' Hk Ed) as [Hb Hp Hl]. split; [done| |done].
    intros q' [->|Hq]%elem_of_cons; [|by apply Hp]. unfold insert_parent in Ed. destruct (bool_decide _); [done|].
    injection Ed as _ <-. simpl. apply elem_of_app. right. by apply list_elem_of_singleton. }
  specialize (IH (q :: ps) w1 Hw1 E2).
  destruct IH as [[Hb Hp Hl] Hq Hs]. split; [split; [done| |done]|done|done]. intros q' Hin. apply Hp.
  apply elem_of_app. apply elem_of_cons in Hin as [->|Hin]; [right; apply elem_of_cons; by left|].
  apply elem_of_app in Hin as [Hin|Hin]; [by left|right; apply elem_of_cons; by right].
Qed.

(** The row that a block gets: under its identifier, or one of SQLite's choice when
    that is 0. *)
Definition row_of (b : CortrixBlock) (r : BlockRow) : Prop :=
  exists rowid, r = block_row rowid b /\ (Documents.block_id b <> 0 -> rowid = ToSqliteInt (Documents.block_id b)).

Lemma block_grows b rows ps ls w b' w' :
  steady rows ps ls (db w) -> SpcPipeline.insert_block pick b w = (0, b', w') -> exists r, row_of b r /\ steady (r :: rows) ps ls (db w').
Proof.
  intros Hw. unfold SpcPipeline.insert_block, on_store, block_insert.
  destruct (TryConsumeOpFault (store (stores w))) as [f s1] eqn:E0. apply fault_steady in E0. destruct f; [done|].
  set (rowid := if negb (Documents.block_id b =? 0) then _ else _).
  destruct (on_conn _ s1) as [c s2] eqn:E. destruct c as [| |n]; [done..|]. simpl. intros [= _ <-].
  exists (block_row rowid b). split.
  - exists rowid. split; [done|]. intros Hb. unfold rowid. by rewrite (proj2 (Z.eqb_neq _ _) Hb).
  - eapply steady_done; [|exact E|].
    { rewrite E0. exact Hw. }
    intros d d' Hk Ed. destruct (harmless_insert rows ps ls _ _ d n d' Hk Ed) as [Hb Hp Hl]. split; [|done..].
    intros r [->|Hr]%elem_of_cons; [|by apply Hb]. unfold CortrixStoreSqlite.insert_block in Ed.
    destruct (bool_decide _); [done|]. destruct (_ && _); [done|]. injection Ed as _ <-. simpl. rewrite fmap_app.
    apply elem_of_app. right. by apply list_elem_of_singleton.
Qed.

Lemma blocks_grow ws bs rows ps ls w w' :
  steady rows ps ls (db w) -> insert_blocks pick now_ms sparse_add p task ns ws bs w = (true, w') ->
  exists rs, Forall2 row_of bs rs /\ steady (rs ++ rows)%list ps ls (db w').
Proof.
  revert rows w. induction bs as [|b bs IH]; intros rows w Hw; simpl; [intros [= <-]; by exists []|].
  destruct (SpcPipeline.insert_block pick b w) as [[rc b'] w1] eqn:E1. destruct (Z.eqb_spec rc 0) as [->|]; [|done]. intros E2.
  destruct (block_grows _ _ _ _ _ _ _ Hw E1) as (r & Hr & Hw1).
  apply (aux_steady (r :: rows) ps ls ws b') in Hw1. destruct (IH _ _ Hw1 E2) as (rs & Hrs & Hw2).
  exists (r :: rs). split; [by constructor|]. destruct Hw2 as [[Hb Hp Hl] Hq Hs]. split; [split; [|done..]|done|done].
  intros r' Hin. apply Hb. apply elem_of_app. simpl in Hin.
  apply elem_of_cons in Hin as [->|Hin]; [right; apply elem_of_cons; by left|].
  apply elem_of_app in Hin as [Hin|Hin]; [by left|right; apply elem_of_cons; by right].
Qed.

Lemma on_store_steady {A} (f : CortrixStoreSqlite -> A * CortrixStoreSqlite) rows ps ls w a w' :
  (forall s, steady rows ps ls (conn s) -> steady rows ps ls (conn (f s).2)) ->
  steady rows ps ls (db w) -> on_store f w = (a, w') -> steady rows ps ls (db w').
Proof.
  intros Hf Hw. unfold on_store, db. specialize (Hf (store (stores w)) Hw). destruct (f (store (stores w))) as [r s].
  by intros [= _ <-].
Qed.

Lemma mark_steady rows ps ls w : steady rows ps ls (db w) -> steady rows ps ls (db (MarkDocumentReady now_ms task w).2).
Proof.
  intros Hw. unfold MarkDocumentReady. destruct (on_store _ w) as [rc w1] eqn:E1. eapply on_store_steady in E1; [|clear E1|exact Hw].
  2: { intros s Hs. pose proof (publish_steady rows ps ls (now_ms / 1000) (DocumentProcessor.st_doc_id task) s Hs) as Hp.
       by destruct (doc_publish_version _ _ _ s) as [[? ?] ?]. }
  assert (forall (w0 w' : World) got row, steady rows ps ls (db w0) -> SpcPipeline.doc_get task w0 = (got, row, w') -> steady rows ps ls (db w')) as Hget.
  { intros w0 w' got row H0'. unfold SpcPipeline.doc_get. destruct (on_store _ w0) as [r w2] eqn:E2. intros [= _ _ <-].
    eapply on_store_steady in E2; [exact E2|clear E2|exact H0']. intros s Hs.
    pose proof (get_steady rows ps ls (DocumentProcessor.st_doc_id task) s Hs) as Hp.
    by destruct (CortrixStoreSqlite.doc_get _ s) as [[? ?] ?]. }
  destruct (rc =? 0); [done|]. destruct (rc =? -2).
  - destruct (SpcPipeline.doc_get task w1) as [[got row] w2] eqn:E2. apply Hget in E2; [|done]. by destruct (read_as _ _ _).
  - destruct (_ || _); [|done]. destruct (on_store _ w1) as [wrc w2] eqn:E2. eapply on_store_steady in E2; [|clear E2|exact E1].
    2: { intros s Hs. by apply withdraw_steady. }
    destruct (wrc =? 0); [done|]. destruct (SpcPipeline.doc_get task w2) as [[got row] w3] eqn:E3. apply Hget in E3; [|done].
    by destruct (read_as Documents.kDeleted _ _); [|destruct (read_as Documents.kReady _ _)].
Qed.

Lemma written_steady rows ps ls n w : steady rows ps ls (db w) -> steady rows ps ls (db (finish_written now_ms p task n w).2).
Proof.
  intros Hw. apply mark_steady in Hw. unfold finish_written, finish.
  destruct (MarkDocumentReady now_ms task w) as [rc w1]. destruct (negb (rc =? 0)); [done|].
  unfold OnDocumentWritten. by destruct (doc_summary_enqueue_ p).
Qed.

(** What the index took: no points, or the points that it accepted. *)
Definition indexed (points : list (list float32 * Z)) (i i' : I) : Prop :=
  points = [] /\ i' = i \/ exists s, AddPoints points i = (s, i') /\ status_ok s = true.

Lemma points_indexed l w s w' :
  add_points l w = (s, w') -> status_ok s = true -> indexed l (vec_index (stores w)) (vec_index (stores w')) /\ db w' = db w.
Proof.
  unfold add_points, indexed, db. destruct l as [|q l]; [intros [= <- <-] _; split; [by left|done]|].
  destruct (AddPoints _ _) as [s' i] eqn:E. intros [= <- <-] Hs. split; [|done]. right. by exists s'.
Qed.

Lemma rolled_back (txn : T) m (w w' : World) : SpcPipeline.roll_back txn m w <> (Returned 0, w').
Proof. unfold SpcPipeline.roll_back. destruct (Rollback _ _ _) as [[[[]| |] c] u]; done. Qed.

Lemma beside_index (w w' : World) : beside w' = beside w -> vec_index (stores w') = vec_index (stores w).
Proof. by intros [= _ ?]. Qed.


End Stored.

End PipelineTheory.

(** ** Concrete runs *)

Module PipelineRuns.
Import SpcPipeline PipelineTheory Documents Sqlite.
#[local] Open Scope string_scope.
#[local] Open Scope Z_scope.
#[local] Existing Instance BlockHeader.zlib_ieee.

Definition plain_json : Nlohmann := {|
  json_parse _ := None; json_dump _ := "{}"; double_to_int _ := 0; double_to_float f := f
|}.
#[local] Existing Instance plain_json.

(** An index that keeps every point. *)
Definition points_index : Type := list (list float32 * Z).
#[local] Instance keep_points : VectorIndex points_index := fun points i => (Status_Ok, (i ++ points)%list).

(** No cleanup is registered; the log has what [sample_wc] has, and no transaction. *)
#[local] Instance runs_coordinator :
    Coordinator WriteCoordinator.TxnHandle WriteCoordinator.WriteCoordinator (Stores (I := points_index)) :=
  store_coordinator None 5000.

Definition no_sparse (_ _ : string) (_ : SparseCodec.SparseVector) (r : unit) : unit := r.
Definition no_enricher : EnricherChain.ISpcEnricher := EnricherChain.MkEnricher "" false (fun _ => Done []) None.
Definition pipeline : SPCPipeline :=
  MkPipeline (fun _ => Parser.MakeErrorDoc Parser.kFileNotFound "" (JObject []) "")
    ChunkerConfig.default_config (fun b => len b) (fun _ => Value []) (fun _ => Value []) no_enricher None false None true.

Definition task (source_type : string) (level : Z) : DocumentProcessor.SPCTask :=
  DocumentProcessor.MkSPCTask "A" "ns" "/a.txt" source_type "" "text/plain" level 1 "{}".

(** The document A, uploaded and not yet ready. *)
Definition uploaded : Db := StoreRuns.after 1000 (StoreVersions.CallCreate (StoreRuns.upload "A" "/a.txt")) StoreRuns.empty_db.
Definition world (os : list sql_outcome) (log_faults : Z) : World (I := points_index) (W := WriteCoordinator.WriteCoordinator) (R := unit) :=
  MkWorld (MkStores (StoreRuns.store_with os uploaded) []) (WriteCoordinatorCalls.sample_wc log_faults ∅ ∅) tt
    DataCleaner.default_config [] (MkTaskState kQueued "" "" DataCleaner.no_summary) 0.

Definition sha (_ : bytes) : option bytes := Some (replicate 32 0).
Definition key (s : string) : Z := Z.of_nat (String.length s) + 7.
Definition process := Process sha id key StoreRuns.draw0 (fun _ : list Z => 1) 5000 no_sparse pipeline (task "http_upload" 1) "ns" (fun _ => false) id.

Definition status_of (d : Db) : list string := r_status <$> documents d.

(** Two blocks of children; the first one enriched. *)
Definition child (i : Z) (c : string) : CortrixBlock := MkBlock i "A" i 1 3 (-1) "" [] c c "p" 1 0 "" None None.
Definition parent : CortrixParent := MkParent "p" "A" "ns" "text" 2 0 0 0 4 "{}" 5.
Definition enriched : EnricherChain.EnrichResult := EnricherChain.MkEnrichResult 0 [] "" (S754_zero false) "" "" "" 0 0 "LlmEnricher" 9 "" None None 0.
Definition two_blocks : WriteSet :=
  MkWriteSet [child 5 "one"; child 6 "two"] [([S754_zero false], 5); ([S754_zero false], 6); ([S754_zero false], 77)] ∅
    [BlockColumns.MkLabelRow 77 5 "one"] [parent] None {["one" := enriched]} ∅ ∅ ∅ false.
Definition put (source_type : string) := write (fun _ => 1) 5000 no_sparse pipeline (task source_type 3) "ns" two_blocks.

(** A task of level 1 stores its block and publishes the document; with a log that
    refuses every record it fails, and its document is not left locked. *)
Lemma Ingest_releases_document_witness :
  (process (world [] 0)).1 = Returned 0 /\ status_of (data (db (process (world [] 0)).2)) = ["ready"] /\
  let r := process (world [] 100) in
  r.1 = Returned (-1) /\
  (r.1 = Undefined \/ WriteCoordinator.active_docs_ (coordinator r.2) = ∅ \/
   r.1 <> Returned 0 /\ rollback_not_logged 5000 (coordinator r.2)).
Proof.
  split; [vm_compute; reflexivity|]. split; [vm_compute; reflexivity|]. cbv zeta. split; [vm_compute; reflexivity|].
  exact (Ingest_releases_document sha id key StoreRuns.draw0 (fun _ : list Z => 1) 5000 None no_sparse pipeline
    (task "http_upload" 1) "ns" (fun _ => false) id ltac:(discriminate) (world [] 100)).
Defined.


(** One COMMIT of the enrichment columns fails: the run reports success, the
    coordinator's log says COMMITTED, and the second block is only in a transaction
    that stays open, as does everything that the connection writes from then on. *)
Definition failed_commit : Exit * World (I := points_index) (W := WriteCoordinator.WriteCoordinator) (R := unit) :=
  put "batch" (world [SqlOk; SqlOk; SqlOk; SqlOk; SqlOk; SqlStepErr 0] 0).
Example Write_success_uncommitted :
  failed_commit.1 = Returned 0 /\ b_block_id <$> blocks (data (db failed_commit.2)) = [5; 6] /\
  b_block_id <$> blocks (committed (db failed_commit.2)) = [5] /\ stage (task_state failed_commit.2) = kDone /\
  status_of (data (db failed_commit.2)) = ["pending"].
Proof. vm_compute. repeat split. Qed.

End PipelineRuns.
