(* ===== verification/NamespacePool.v ===== *)
(** * The namespace pool (src/resource/namespace_pool.cpp)

    The pool keeps the resources of each namespace (index, coordinator, store)
    in a slot with a count of borrowers and a mark for a deferred deletion.
    Each operation is split where it takes a lock: [Release], [ReloadNamespace]
    and [StartupLoadAll] have two critical sections, the others one.  A bundle is
    known by the number of the load that built it; a bundle that is no longer in
    its slot is destroyed.  What a load meets on disk and in the catalog is an
    argument ([LoadEnv]); so is the memory that a bundle reports. *)
From stdpp Require Import gmap strings pretty.
From S2P Require Import Prelude Status.

Module NamespacePool.

(** ** Errors (pool_error.cpp) *)

Inductive PoolErrorCode := kNsQuotaExceeded | kNsResourceBudgetExceeded | kNsLoadFailed | kNsNotFound.

Definition PoolErrorCodeString (code : PoolErrorCode) : string :=
  match code with
  | kNsQuotaExceeded => "CX_ERR_NS_QUOTA_EXCEEDED"
  | kNsResourceBudgetExceeded => "CX_ERR_NS_RESOURCE_BUDGET_EXCEEDED"
  | kNsLoadFailed => "CX_ERR_NS_LOAD_FAILED"
  | kNsNotFound => "CX_ERR_NS_NOT_FOUND"
  end.

Definition PoolErrorToStatusCode (code : PoolErrorCode) : StatusCode :=
  match code with
  | kNsQuotaExceeded | kNsResourceBudgetExceeded => kPermissionDenied
  | kNsLoadFailed => kUnavailable
  | kNsNotFound => kNotFound
  end.

Definition PoolStatus (code : PoolErrorCode) (detail : string) : Status :=
  let cx := PoolErrorCodeString code in
  MkStatus (PoolErrorToStatusCode code)
    (if bool_decide (detail = ""%string) then cx else cx +:+ ": " +:+ detail).

(** ** State *)

Record F05Config := MkF05Config {
  max_namespaces_per_instance : Z;
  memory_budget_bytes : Z;
  load_timeout_ms_per_ns : Z;
  data_root : string
}.

(** The unit's handles are known by [b_load], the number of the load. *)
Record NamespaceResourceBundle := MkBundle {
  b_namespace_id : string;
  b_unit_id : string;
  b_data_dir : string;
  b_load : nat
}.

Record NamespaceSlot := MkSlot {
  bundle : NamespaceResourceBundle;
  refcount : Z;
  pending_delete : bool
}.

Record RejectionEvent := MkRejectionEvent {
  re_timestamp_ms : Z;
  re_namespace_id : string;
  re_reason : string;
  re_budget_used : Z;
  re_budget_limit : Z;
  re_estimated_size : Z
}.

Definition kMaxRejectionLog : nat := 50.

Record DefaultNamespacePool := MkPool {
  bundles : gmap string NamespaceSlot;
  rejected_ns_count : Z;
  rejected_memory_count : Z;
  startup_load_failures : Z;
  recent_rejections : list RejectionEvent;
  startup_failed_namespaces : list string;
  loads : nat
}.

#[export] Instance Pool_eta : Eta DefaultNamespacePool := fun p =>
  MkPool (bundles p) (rejected_ns_count p) (rejected_memory_count p) (startup_load_failures p)
    (recent_rejections p) (startup_failed_namespaces p) (loads p).

Definition empty_pool : DefaultNamespacePool := MkPool ∅ 0 0 0 [] [] 0.

(** ** Loading *)

Definition UnitDataDir (root unit_id : string) : string :=
  if bool_decide (root = ""%string) then unit_id
  else if bool_decide (String.get (String.length root - 1) root = Some (Ascii.ascii_of_nat 47))
  then root +:+ unit_id
  else root +:+ "/" +:+ unit_id.

Definition StoreDbPath (unit_data_dir : string) : string := unit_data_dir +:+ "/store.db".
Definition UnitBlobDir (unit_data_dir : string) : string := unit_data_dir +:+ "/blob".

(** The answers of the calls of a load: the router, the index factory (with
    whether the index is an [IVectorStore]), store.db, its migration, the
    coordinator factory (with whether there is a coordinator) and recovery. *)
Record LoadEnv := MkLoadEnv {
  GetActiveUnit : Result string;
  Open_index : string -> Result bool;
  Open_store_db : string -> Status;
  MigrateUnit : string -> Status;
  write_coord_factory : string -> Result bool;
  Recover : Status
}.

Definition load_failed (step : string) (s : Status) : Result NamespaceResourceBundle :=
  Error (PoolStatus kNsLoadFailed (step +:+ status_message s)).

(** Crash recovery of documents and the warm-up of memory.db are tolerated when
    they fail, and do not change the result. *)
Definition LoadOneNamespaceInner (config : F05Config) (env : LoadEnv) (ns_id : string) (load : nat)
    : Result NamespaceResourceBundle :=
  match GetActiveUnit env with
  | Error s => load_failed "get_active_unit: " s
  | Value unit_id =>
      let unit_dir := UnitDataDir (data_root config) unit_id in
      match Open_index env unit_dir with
      | Error s => load_failed "open_index: " s
      | Value is_vstore =>
          let opened := Open_store_db env (StoreDbPath unit_dir) in
          if negb (status_ok opened) then load_failed "open_store_db: " opened else
          let migrated := MigrateUnit env unit_id in
          if negb (status_ok migrated) then load_failed "migrate_unit: " migrated else
          if negb is_vstore then Error (PoolStatus kNsLoadFailed "index_not_ivector_store") else
          match write_coord_factory env unit_dir with
          | Error s => load_failed "open_pwl: " s
          | Value coord =>
              if coord && negb (status_ok (Recover env)) then load_failed "recover_pwl: " (Recover env)
              else Value (MkBundle ns_id unit_id unit_dir load)
          end
      end
  end.

(** ** Operations *)

Section Operations.
Context (config : F05Config) (TotalMemoryEstimateBytes : NamespaceResourceBundle -> Z).

Definition CurrentMemoryUsedLocked (p : DefaultNamespacePool) : Z :=
  u64 (map_fold (fun _ slot used => used + TotalMemoryEstimateBytes (bundle slot)) 0 (bundles p)).

(** [while (size > kMaxRejectionLog) pop_front()] after the [push_back]. *)
Definition log_rejection (ev : RejectionEvent) (log : list RejectionEvent) : list RejectionEvent :=
  let log := log ++ [ev] in drop (length log - kMaxRejectionLog) log.

Definition RecordRejection (now : Z) (ns reason : string) (used limit estimated : Z)
    (p : DefaultNamespacePool) : DefaultNamespacePool :=
  p <| recent_rejections :=
         log_rejection (MkRejectionEvent now ns reason used limit estimated) (recent_rejections p) |>.

Definition already_resident (ns : string) (p : DefaultNamespacePool) : bool :=
  match bundles p !! ns with Some slot => negb (pending_delete slot) | None => false end.

(** One call, under the exclusive lock from beginning to end. *)
Definition AdmitCreate (env : LoadEnv) (now : Z) (ns : string) (estimated_size_bytes : Z)
    (p : DefaultNamespacePool) : Status * DefaultNamespacePool :=
  let resident := already_resident ns p in
  if negb resident && (max_namespaces_per_instance config <? Z.of_nat (size (bundles p)) + 1) then
    (PoolStatus kNsQuotaExceeded
       ("namespace count " +:+ pretty (max_namespaces_per_instance config) +:+ " reached"),
     RecordRejection now ns "ns_count_exceeded" 0 0 estimated_size_bytes
       (p <| rejected_ns_count := rejected_ns_count p + 1 |>))
  else
  let used := CurrentMemoryUsedLocked p in
  if (0 <? memory_budget_bytes config) && negb resident
     && (memory_budget_bytes config <? u64 (used + estimated_size_bytes)) then
    (PoolStatus kNsResourceBudgetExceeded
       ("memory budget " +:+ pretty (memory_budget_bytes config) +:+ " bytes would be exceeded"),
     RecordRejection now ns "memory_exceeded" used (memory_budget_bytes config) estimated_size_bytes
       (p <| rejected_memory_count := rejected_memory_count p + 1 |>))
  else if resident then (Status_Ok, p)
  else
    let p := p <| loads := S (loads p) |> in
    match LoadOneNamespaceInner config env ns (loads p) with
    | Error s => (s, p)
    | Value b => (Status_Ok, p <| bundles := <[ns := MkSlot b 0 false]> (bundles p) |>)
    end.

Definition Acquire (ns : string) (p : DefaultNamespacePool)
    : Result NamespaceResourceBundle * DefaultNamespacePool :=
  match bundles p !! ns with
  | None => (Error (PoolStatus kNsNotFound ns), p)
  | Some slot =>
      if pending_delete slot then (Error (PoolStatus kNsNotFound ns), p)
      else (Value (bundle slot),
            p <| bundles := <[ns := MkSlot (bundle slot) (refcount slot + 1) false]> (bundles p) |>)
  end.

(** The first half of [Release], under the shared lock; the flag is
    [maybe_reap]. *)
Definition Release_drop (ns : string) (p : DefaultNamespacePool) : bool * DefaultNamespacePool :=
  match bundles p !! ns with
  | None => (false, p)
  | Some slot =>
      ((refcount slot =? 1) && pending_delete slot,
       p <| bundles :=
              <[ns := MkSlot (bundle slot) (refcount slot - 1) (pending_delete slot)]> (bundles p) |>)
  end.

(** The second half, under the exclusive lock. *)
Definition Release_reap (ns : string) (p : DefaultNamespacePool) : DefaultNamespacePool :=
  match bundles p !! ns with
  | Some slot =>
      if pending_delete slot && (refcount slot =? 0)
      then p <| bundles := delete ns (bundles p) |> else p
  | None => p
  end.

Definition Release (ns : string) (p : DefaultNamespacePool) : DefaultNamespacePool :=
  let '(maybe_reap, p) := Release_drop ns p in
  if maybe_reap then Release_reap ns p else p.

Definition EvictForDelete (ns : string) (p : DefaultNamespacePool) : Status * DefaultNamespacePool :=
  match bundles p !! ns with
  | None => (Status_Ok, p)
  | Some slot =>
      if 0 <? refcount slot
      then (Status_Ok,
            p <| bundles := <[ns := MkSlot (bundle slot) (refcount slot) true]> (bundles p) |>)
      else (Status_Ok, p <| bundles := delete ns (bundles p) |>)
  end.

(** [bundles_[ns].bundle = std::move(loaded)]: a new slot, or the old one with
    its count and its mark. *)
Definition put_bundle (ns : string) (b : NamespaceResourceBundle) (p : DefaultNamespacePool)
    : DefaultNamespacePool :=
  let slot :=
    match bundles p !! ns with
    | Some slot => MkSlot b (refcount slot) (pending_delete slot)
    | None => MkSlot b 0 false
    end in
  p <| bundles := <[ns := slot]> (bundles p) |>.

(** A load outside the lock. *)
Definition begin_load (env : LoadEnv) (ns : string) (p : DefaultNamespacePool)
    : Result NamespaceResourceBundle * DefaultNamespacePool :=
  let p := p <| loads := S (loads p) |> in
  (LoadOneNamespaceInner config env ns (loads p), p).

(** The second half of [ReloadNamespace]. *)
Definition Reload_insert (ns : string) (b : NamespaceResourceBundle) (p : DefaultNamespacePool)
    : DefaultNamespacePool :=
  put_bundle ns b p
    <| startup_failed_namespaces := filter (fun n => n <> ns) (startup_failed_namespaces p) |>.

Definition ReloadNamespace (env : LoadEnv) (ns : string) (p : DefaultNamespacePool)
    : Status * DefaultNamespacePool :=
  let '(loaded, p) := begin_load env ns p in
  match loaded with
  | Error s => (s, p)
  | Value b => (Status_Ok, Reload_insert ns b p)
  end.

(** ** Startup *)

Record StartupReport := MkStartupReport {
  total_namespaces : Z;
  loaded_successfully : Z;
  failed : Z;
  failed_namespaces : list string
}.

(** The loop that collects the results, in the order of the list; a load that
    timed out is an error. *)
Fixpoint startup_collect (results : list (string * Result NamespaceResourceBundle))
    (report : StartupReport) (p : DefaultNamespacePool) : StartupReport * DefaultNamespacePool :=
  match results with
  | [] => (report, p)
  | (ns, Value b) :: results =>
      startup_collect results
        (MkStartupReport (total_namespaces report) (loaded_successfully report + 1)
           (failed report) (failed_namespaces report))
        (put_bundle ns b p)
  | (ns, Error _) :: results =>
      startup_collect results
        (MkStartupReport (total_namespaces report) (loaded_successfully report)
           (failed report + 1) (failed_namespaces report ++ [ns]))
        (p <| startup_load_failures := startup_load_failures p + 1 |>
           <| startup_failed_namespaces := startup_failed_namespaces p ++ [ns] |>)
  end.

(** [LoadOneNamespace]; [slow] says that the load is not done when the timeout
    is over.  The load goes on in the background and its bundle is dropped. *)
Definition LoadOneNamespace (env : LoadEnv) (slow : bool) (ns : string) (p : DefaultNamespacePool)
    : Result NamespaceResourceBundle * DefaultNamespacePool :=
  let '(loaded, p) := begin_load env ns p in
  if (0 <? load_timeout_ms_per_ns config) && slow
  then (Error (PoolStatus kNsLoadFailed
          ("load timed out after " +:+ pretty (load_timeout_ms_per_ns config) +:+ "ms")), p)
  else (loaded, p).

(** The loads in the order of the list; [envs] has what each one meets. *)
Fixpoint startup_loads (envs : string -> LoadEnv * bool) (ns_list : list string)
    (p : DefaultNamespacePool)
    : list (string * Result NamespaceResourceBundle) * DefaultNamespacePool :=
  match ns_list with
  | [] => ([], p)
  | ns :: ns_list =>
      let '(r, p) := LoadOneNamespace (envs ns).1 (envs ns).2 ns p in
      let '(rs, p) := startup_loads envs ns_list p in
      ((ns, r) :: rs, p)
  end.

Definition StartupLoadAll (ListNamespaces : Result (list string))
    (envs : string -> LoadEnv * bool) (p : DefaultNamespacePool) : Result StartupReport * DefaultNamespacePool :=
  match ListNamespaces with
  | Error s => (Error s, p)
  | Value ns_list =>
      let ns_list := take (Z.to_nat (max_namespaces_per_instance config)) ns_list in
      let '(results, p) := startup_loads envs ns_list p in
      let '(report, p) := startup_collect results (MkStartupReport (len ns_list) 0 0 []) p in
      (Value report, p)
  end.

(** ** Queries *)

Record PoolStats := MkPoolStats {
  pool_size_current : Z;
  pool_size_max : Z;
  memory_budget_used_bytes : Z;
  memory_budget_limit_bytes : Z;
  ns_count_exceeded : Z;
  memory_exceeded : Z;
  stats_load_failures : Z
}.

Definition GetPoolStats (p : DefaultNamespacePool) : PoolStats :=
  MkPoolStats (Z.of_nat (size (bundles p))) (max_namespaces_per_instance config)
    (CurrentMemoryUsedLocked p) (memory_budget_bytes config) (rejected_ns_count p)
    (rejected_memory_count p) (startup_load_failures p).

Record ExplainState := MkExplainState {
  active_namespaces : list string;
  memory_estimate_bytes : Z;
  explain_failed_namespaces : list string;
  explain_rejections : list RejectionEvent
}.

Definition GetExplainState (p : DefaultNamespacePool) : ExplainState :=
  MkExplainState ((map_to_list (bundles p)).*1) (CurrentMemoryUsedLocked p)
    (startup_failed_namespaces p) (recent_rejections p).

End Operations.

End NamespacePool.
