(* ===== verification/NamespacePoolTheory.v ===== *)
(** * What a borrowed namespace is worth

    Threads borrow, release, evict, admit and load in any order of their
    critical sections.  As long as no load replaces a bundle that is borrowed, a
    borrower's bundle stays in its slot until the last release, the counts are
    those of the borrowers, and a slot that is marked for deletion is erased by
    its last borrower.  The runs at the end show what a reload of a resident
    namespace does. *)
From stdpp Require Import gmap strings pretty.
From S2P Require Import Prelude Status NamespacePool.
Import NamespacePool.

(** A thread that holds a namespace: the name and the load of the bundle it got. *)
Definition borrow : Type := string * nat.

(** The pool, the borrows that are out, and the releases between their two
    critical sections. *)
Record Shared := MkShared {
  pool : DefaultNamespacePool;
  borrows : list borrow;
  reaps : list string
}.

Definition idle (p : DefaultNamespacePool) : Shared := MkShared p [] [].

Section Steps.
Context (config : F05Config) (TotalMemoryEstimateBytes : NamespaceResourceBundle -> Z).
Notation admission := (AdmitCreate config TotalMemoryEstimateBytes).

(** One critical section.  [free] says when a load may put its bundle. *)
Inductive pool_step (free : string -> Shared -> Prop) : Shared -> Shared -> Prop :=
| StepAcquire ns b p p' bs rs :
    Acquire ns p = (Value b, p') ->
    pool_step free (MkShared p bs rs) (MkShared p' ((ns, b_load b) :: bs) rs)
| StepRelease ns g p bs1 bs2 rs reap p' :
    Release_drop ns p = (reap, p') ->
    pool_step free (MkShared p (bs1 ++ (ns, g) :: bs2) rs)
      (MkShared p' (bs1 ++ bs2) (if reap then ns :: rs else rs))
| StepReap ns p bs rs1 rs2 :
    pool_step free (MkShared p bs (rs1 ++ ns :: rs2)) (MkShared (Release_reap ns p) bs (rs1 ++ rs2))
| StepEvict ns p bs rs :
    pool_step free (MkShared p bs rs) (MkShared (EvictForDelete ns p).2 bs rs)
| StepAdmit env now ns estimated p bs rs :
    already_resident ns p = true \/ free ns (MkShared p bs rs) ->
    pool_step free (MkShared p bs rs) (MkShared (admission env now ns estimated p).2 bs rs)
| StepLoad env ns p bs rs :
    pool_step free (MkShared p bs rs) (MkShared (begin_load config env ns p).2 bs rs)
| StepInsert ns b p bs rs :
    free ns (MkShared p bs rs) ->
    pool_step free (MkShared p bs rs) (MkShared (Reload_insert ns b p) bs rs).

(** No thread holds the namespace. *)
Definition unborrowed (ns : string) (s : Shared) : Prop := Forall (fun b => b.1 <> ns) (borrows s).

Definition anytime (ns : string) (s : Shared) : Prop := True.

Definition holders (ns : string) (bs : list borrow) : list borrow := filter (fun b => b.1 = ns) bs.

Record pool_ok (s : Shared) : Prop := {
  ok_count ns slot : bundles (pool s) !! ns = Some slot -> refcount slot = len (holders ns (borrows s));
  ok_borrow ns g : (ns, g) ∈ borrows s ->
    exists slot, bundles (pool s) !! ns = Some slot /\ b_load (bundle slot) = g;
  ok_pending ns slot : bundles (pool s) !! ns = Some slot -> pending_delete slot = true ->
    refcount slot = 0 -> ns ∈ reaps s
}.

Lemma idle_ok p : bundles p = ∅ -> pool_ok (idle p).
Proof.
  intros Hp. split; simpl; rewrite ?Hp.
  - intros ns slot. by rewrite lookup_empty.
  - intros ns g []%not_elem_of_nil.
  - intros ns slot. by rewrite lookup_empty.
Qed.

Lemma holders_none ns bs : Forall (fun b : borrow => b.1 <> ns) bs -> holders ns bs = [].
Proof. apply filter_none. Qed.

Lemma holders_some ns bs : 0 < len (holders ns bs) <-> exists g, (ns, g) ∈ bs.
Proof.
  split.
  - destruct (holders ns bs) as [|[n g] l] eqn:E; [by unfold len|]. intros _. exists g.
    assert ((n, g) ∈ holders ns bs) as Hin by (rewrite E; by left).
    by apply list_elem_of_filter in Hin as [<- Hin].
  - intros [g Hg]. assert ((ns, g) ∈ holders ns bs) as Hin by (by apply list_elem_of_filter).
    destruct (holders ns bs) as [|b l]; [by apply not_elem_of_nil in Hin|].
    rewrite len_cons. pose proof (len_nonneg l). lia.
Qed.

Lemma holders_cons_ne ns n g bs : n <> ns -> holders ns ((n, g) :: bs) = holders ns bs.
Proof. intros H. unfold holders. by rewrite filter_cons_False. Qed.

Lemma holders_middle ns g bs1 bs2 :
  len (holders ns (bs1 ++ (ns, g) :: bs2)) = 1 + len (holders ns (bs1 ++ bs2)).
Proof. unfold holders. rewrite !filter_app, filter_cons_True by done. rewrite !len_app, len_cons. lia. Qed.

Lemma holders_cons ns g bs : len (holders ns ((ns, g) :: bs)) = 1 + len (holders ns bs).
Proof. apply (holders_middle ns g [] bs). Qed.

Lemma holders_middle_ne ns n g bs1 bs2 :
  n <> ns -> holders ns (bs1 ++ (n, g) :: bs2) = holders ns (bs1 ++ bs2).
Proof. intros H. unfold holders. by rewrite !filter_app, filter_cons_False. Qed.

(** A change of one slot that nobody else looks at. *)
Lemma pool_ok_slot ns s s' slot' :
  pool_ok s -> bundles (pool s') = <[ns := slot']> (bundles (pool s)) ->
  (forall n, n <> ns -> holders n (borrows s') = holders n (borrows s)) ->
  (forall n g, n <> ns -> (n, g) ∈ borrows s' -> (n, g) ∈ borrows s) ->
  (forall n, n <> ns -> n ∈ reaps s -> n ∈ reaps s') ->
  refcount slot' = len (holders ns (borrows s')) ->
  (forall g, (ns, g) ∈ borrows s' -> b_load (bundle slot') = g) ->
  (pending_delete slot' = true -> refcount slot' = 0 -> ns ∈ reaps s') ->
  pool_ok s'.
Proof.
  intros Hok Hb Hh Hin Hr Hc Hg Hp. split; rewrite Hb.
  - intros n slot. destruct (decide (ns = n)) as [<-|Hne].
    + rewrite lookup_insert_eq. by intros [= <-].
    + rewrite lookup_insert_ne by done. rewrite Hh by done. by apply ok_count.
  - intros n g Hng. destruct (decide (ns = n)) as [<-|Hne].
    + exists slot'. rewrite lookup_insert_eq. auto.
    + rewrite lookup_insert_ne by done. apply (ok_borrow _ Hok). auto.
  - intros n slot. destruct (decide (ns = n)) as [<-|Hne].
    + rewrite lookup_insert_eq. intros [= <-]. auto.
    + rewrite lookup_insert_ne by done. intros H1 H2 H3. apply Hr; [done|]. by eapply (ok_pending _ Hok).
Qed.

(** A slot that nobody holds is erased. *)
Lemma pool_ok_delete ns s s' :
  pool_ok s -> bundles (pool s') = delete ns (bundles (pool s)) -> borrows s' = borrows s ->
  unborrowed ns s -> (forall n, n <> ns -> n ∈ reaps s -> n ∈ reaps s') -> pool_ok s'.
Proof.
  intros Hok Hb Hbs Hu Hr. split; rewrite Hb, ?Hbs.
  - intros n slot [Hne Hl]%lookup_delete_Some. by apply (ok_count _ Hok).
  - intros n g Hin. destruct (decide (ns = n)) as [<-|Hne].
    + unfold unborrowed in Hu. rewrite Forall_forall in Hu. by destruct (Hu _ Hin).
    + rewrite lookup_delete_ne by done. by apply (ok_borrow _ Hok).
  - intros n slot [Hne Hl]%lookup_delete_Some Hp Hc. apply Hr; [done|]. by eapply (ok_pending _ Hok).
Qed.

(** The pool is as it was, as far as the slots go. *)
Lemma pool_ok_same s s' :
  pool_ok s -> bundles (pool s') = bundles (pool s) -> borrows s' = borrows s -> reaps s' = reaps s -> pool_ok s'.
Proof. intros [H1 H2 H3] Hb Hbs Hr. split; rewrite Hb, ?Hbs, ?Hr; auto. Qed.

Lemma unborrowed_count ns s : unborrowed ns s <-> len (holders ns (borrows s)) = 0.
Proof.
  split.
  - intros H. by rewrite (holders_none _ _ H).
  - intros H. apply Forall_forall. intros [n g] Hin <-.
    assert (0 < len (holders n (borrows s))) by (apply holders_some; eauto). simpl in H. lia.
Qed.

Lemma unborrowed_holder ns s g : unborrowed ns s -> (ns, g) ∈ borrows s -> False.
Proof. unfold unborrowed. rewrite Forall_forall. intros H Hin. by destruct (H _ Hin). Qed.

Lemma admit_bundles env now ns est p st p' :
  admission env now ns est p = (st, p') ->
  bundles p' = bundles p \/
  (already_resident ns p = false /\ exists b, bundles p' = <[ns := MkSlot b 0 false]> (bundles p)).
Proof.
  unfold AdmitCreate. destruct (already_resident ns p); simpl.
  { rewrite andb_false_r. simpl. intros [= _ <-]. by left. }
  destruct (_ <? _); [intros [= _ <-]; by left|].
  destruct (_ && _)%bool; [intros [= _ <-]; by left|].
  destruct (LoadOneNamespaceInner _ _ _ _) as [b|s]; intros [= _ <-]; [right; eauto|by left].
Qed.

(** A reap that has nothing to erase. *)
Lemma pool_ok_no_reap ns p bs rs1 rs2 :
  pool_ok (MkShared p bs (rs1 ++ ns :: rs2)) ->
  (forall slot, bundles p !! ns = Some slot -> pending_delete slot = true -> refcount slot <> 0) ->
  pool_ok (MkShared p bs (rs1 ++ rs2)).
Proof.
  intros Hok Hno. split; simpl; [apply (ok_count _ Hok)|apply (ok_borrow _ Hok)|].
  intros n slot Hl Hp Hc. pose proof (ok_pending _ Hok n slot Hl Hp Hc) as Hin. simpl in Hin.
  rewrite elem_of_app, elem_of_cons in Hin. rewrite elem_of_app.
  destruct Hin as [?|[->|?]]; [tauto| |tauto]. by destruct (Hno _ Hl Hp).
Qed.

Lemma step_ok s s' : pool_step unborrowed s s' -> pool_ok s -> pool_ok s'.
Proof.
  destruct 1 as [ns b p p' bs rs Ha|ns g p bs1 bs2 rs reap p' Hd|ns p bs rs1 rs2|ns p bs rs
    |env now ns est p bs rs Hfree|env ns p bs rs|ns b p bs rs Hfree]; intros Hok.
  - unfold Acquire in Ha. destruct (bundles p !! ns) as [slot|] eqn:E; [|done].
    destruct (pending_delete slot); [done|]. injection Ha as <- <-.
    pose proof (ok_count _ Hok ns slot E) as Hc. simpl in Hc.
    eapply (pool_ok_slot ns _ _ _ Hok); simpl; [done|..]; simpl; try done.
    + intros n Hn. by apply holders_cons_ne.
    + intros n g Hn. rewrite elem_of_cons. intros [[= -> _]|?]; done.
    + rewrite holders_cons. lia.
    + intros g. rewrite elem_of_cons. intros [[= ->]|Hin]; [done|].
      destruct (ok_borrow _ Hok ns g Hin) as (slot' & Hs & <-). simpl in Hs. congruence.
  - destruct (ok_borrow _ Hok ns g) as (slot & E & Hg); [simpl; apply elem_of_app; right; left|].
    simpl in E. unfold Release_drop in Hd. rewrite E in Hd. injection Hd as <- <-.
    pose proof (ok_count _ Hok ns slot E) as Hc. simpl in Hc. rewrite holders_middle in Hc.
    eapply (pool_ok_slot ns _ _ _ Hok); simpl; [done|..]; simpl; try done.
    + intros n Hn. by rewrite holders_middle_ne.
    + intros n g' Hn. rewrite !elem_of_app, elem_of_cons. tauto.
    + intros n Hn Hin. destruct (_ && _)%bool; [by right|done].
    + lia.
    + intros g' Hin. destruct (ok_borrow _ Hok ns g') as (slot' & Hs & <-); simpl in *; [|congruence].
      rewrite elem_of_app in *. rewrite elem_of_cons. tauto.
    + intros Hp Hz. rewrite Hp, (proj2 (Z.eqb_eq (refcount slot) 1)) by lia. by left.
  - unfold Release_reap. destruct (bundles p !! ns) as [slot|] eqn:E.
    + pose proof (ok_count _ Hok ns slot E) as Hc. simpl in Hc.
      destruct (pending_delete slot) eqn:Hp; simpl; [destruct (Z.eqb_spec (refcount slot) 0) as [Hz|Hz]|].
      * eapply (pool_ok_delete ns _ _ Hok); simpl; try done; [apply unborrowed_count; simpl; lia|].
        intros n Hn. rewrite !elem_of_app, elem_of_cons. tauto.
      * apply (pool_ok_no_reap _ _ _ _ _ Hok). congruence.
      * apply (pool_ok_no_reap _ _ _ _ _ Hok). congruence.
    + apply (pool_ok_no_reap _ _ _ _ _ Hok). congruence.
  - unfold EvictForDelete. destruct (bundles p !! ns) as [slot|] eqn:E; simpl; [|done].
    pose proof (ok_count _ Hok ns slot E) as Hc. simpl in Hc.
    destruct (Z.ltb_spec 0 (refcount slot)); simpl.
    + eapply (pool_ok_slot ns _ _ _ Hok); simpl; [done|..]; simpl; try done; [|intros _ Hz; lia].
      intros g Hin. destruct (ok_borrow _ Hok ns g Hin) as (slot' & Hs & <-). simpl in Hs. congruence.
    + eapply (pool_ok_delete ns _ _ Hok); simpl; try done. apply unborrowed_count. simpl.
      pose proof (len_nonneg (holders ns bs)). lia.
  - destruct (admission env now ns est p) as [st p'] eqn:E. simpl.
    apply admit_bundles in E as [Hb|(Hr & b & Hb)]; [by eapply pool_ok_same|].
    destruct Hfree as [Hres|Hfree]; [congruence|].
    eapply (pool_ok_slot ns _ _ _ Hok); simpl; [done|..]; simpl; try done.
    + symmetry. by apply unborrowed_count in Hfree.
    + intros g Hin. by destruct (unborrowed_holder _ _ _ Hfree Hin).
  - by eapply pool_ok_same.
  - unfold Reload_insert, put_bundle. destruct (bundles p !! ns) as [slot|] eqn:E;
      eapply (pool_ok_slot ns _ _ _ Hok); simpl; [done|..]; simpl; try done.
    + by apply (ok_count _ Hok).
    + intros g Hin. by destruct (unborrowed_holder _ _ _ Hfree Hin).
    + intros Hp Hz. by eapply (ok_pending _ Hok).
    + symmetry. by apply unborrowed_count in Hfree.
    + intros g Hin. by destruct (unborrowed_holder _ _ _ Hfree Hin).
Qed.

Lemma steps_ok s s' : rtc (pool_step unborrowed) s s' -> pool_ok s -> pool_ok s'.
Proof. induction 1; eauto using step_ok. Qed.

(** ** Admission *)

Lemma log_rejection_spec ev log :
  last (log_rejection ev log) = Some ev /\ (length (log_rejection ev log) <= kMaxRejectionLog)%nat.
Proof.
  unfold log_rejection, kMaxRejectionLog. split; [|rewrite length_drop; lia].
  rewrite length_app. simpl. rewrite drop_app_le by lia. apply last_snoc.
Qed.

Lemma load_result env ns load :
  match LoadOneNamespaceInner config env ns load with
  | Value b => b_namespace_id b = ns /\ b_load b = load
  | Error s => exists d, s = PoolStatus kNsLoadFailed d
  end.
Proof. unfold LoadOneNamespaceInner, load_failed. repeat case_match; simplify_eq; eauto. Qed.

Lemma size_insert_le (ns : string) (slot : NamespaceSlot) (m : gmap string NamespaceSlot) :
  (size (<[ns := slot]> m) <= S (size m))%nat.
Proof. rewrite map_size_insert. destruct (m !! ns); simpl; lia. Qed.

Definition fits (p : DefaultNamespacePool) (estimated : Z) : Prop :=
  memory_budget_bytes config <= 0 \/
  u64 (CurrentMemoryUsedLocked TotalMemoryEstimateBytes p + estimated) <= memory_budget_bytes config.

Definition room (p : DefaultNamespacePool) : Prop :=
  Z.of_nat (size (bundles p)) + 1 <= max_namespaces_per_instance config.

(** [AdmitCreate] does nothing for a namespace that is resident and not
    being deleted.  For any other it refuses with the quota error when the pool
    is full, with the budget error when the memory would not fit, and with the
    load error when the load fails; a refusal changes no slot, and the first
    two are counted and logged, the log keeping the last 50.  Otherwise the
    namespace gets a fresh slot that nobody holds, and the pool is within its
    limit. *)
Theorem AdmitCreate_outcomes env now ns estimated p :
  let '(st, p') := admission env now ns estimated p in
  (already_resident ns p = true -> st = Status_Ok /\ p' = p) /\
  (already_resident ns p = false -> ~ room p ->
     (exists d, st = PoolStatus kNsQuotaExceeded d) /\ bundles p' = bundles p /\
     rejected_ns_count p' = rejected_ns_count p + 1 /\
     last (recent_rejections p') = Some (MkRejectionEvent now ns "ns_count_exceeded" 0 0 estimated) /\
     (length (recent_rejections p') <= 50)%nat) /\
  (already_resident ns p = false -> room p -> ~ fits p estimated ->
     (exists d, st = PoolStatus kNsResourceBudgetExceeded d) /\ bundles p' = bundles p /\
     rejected_memory_count p' = rejected_memory_count p + 1 /\
     last (recent_rejections p') = Some (MkRejectionEvent now ns "memory_exceeded"
       (CurrentMemoryUsedLocked TotalMemoryEstimateBytes p) (memory_budget_bytes config) estimated) /\
     (length (recent_rejections p') <= 50)%nat) /\
  (already_resident ns p = false -> room p -> fits p estimated ->
     match LoadOneNamespaceInner config env ns (S (loads p)) with
     | Error s => st = s /\ bundles p' = bundles p /\ (exists d, s = PoolStatus kNsLoadFailed d)
     | Value b => st = Status_Ok /\ bundles p' = <[ns := MkSlot b 0 false]> (bundles p) /\
         b_load b = loads p' /\
         Z.of_nat (size (bundles p')) <= max_namespaces_per_instance config
     end).
Proof.
  unfold AdmitCreate, fits, room. destruct (already_resident ns p) eqn:Hr; simpl.
  { rewrite andb_false_r. simpl. split_and!; done. }
  rewrite andb_true_r.
  destruct (Z.ltb_spec (max_namespaces_per_instance config) (Z.of_nat (size (bundles p)) + 1)) as [Hfull|Hroom].
  { unfold RecordRejection. simpl. match goal with |- context [log_rejection ?e ?l] => pose proof (log_rejection_spec e l) as [Hl Hn] end.
    split_and!; [done| |lia..]. intros _ _. split_and!; eauto. }
  match goal with |- context [_ <? u64 ?x] => destruct (Z.ltb_spec (memory_budget_bytes config) (u64 x)) as [Hm|Hm] end;
    destruct (Z.ltb_spec 0 (memory_budget_bytes config)) as [Hb|Hb]; simpl;
    [unfold RecordRejection; simpl;
     match goal with |- context [log_rejection ?e ?l] => pose proof (log_rejection_spec e l) as [Hl Hn] end;
     split_and!; [done|lia| |lia]; intros _ _ _; split_and!; eauto|..];
    (destruct (LoadOneNamespaceInner config env ns (S (loads p))) as [b|s] eqn:E; simpl;
     (split_and!; [done|lia|intros _ _ []; lia|intros _ _ _]);
     pose proof (load_result env ns (S (loads p))) as Hl; rewrite E in Hl; [|by split_and!];
     pose proof (size_insert_le ns (MkSlot b 0 false) (bundles p));
     split_and!; [done|done|apply Hl|simpl; lia]).
Qed.

End Steps.

(** ** Borrowing *)

(** C25: in every state that the pool reaches from empty, with threads that
    borrow, release, evict, admit, load and reload in any order, as long as a
    load replaces a slot only while nobody holds it: each borrower's bundle is
    still the one in its slot; each count is the number of borrowers; and a slot
    that is marked for deletion is gone once its last borrower's release is
    through. *)
Theorem Pool_borrow_safe config mem s :
  rtc (pool_step config mem unborrowed) (idle empty_pool) s ->
  (forall ns g, (ns, g) ∈ borrows s ->
     exists slot, bundles (pool s) !! ns = Some slot /\ b_load (bundle slot) = g) /\
  (forall ns slot, bundles (pool s) !! ns = Some slot -> refcount slot = len (holders ns (borrows s))) /\
  (forall ns slot, bundles (pool s) !! ns = Some slot -> pending_delete slot = true ->
     unborrowed ns s -> ns ∈ reaps s).
Proof.
  intros Hr. assert (pool_ok s) as Hok.
  { eapply steps_ok; [exact Hr|]. by apply idle_ok. }
  split_and!; [apply (ok_borrow _ Hok)|apply (ok_count _ Hok)|].
  intros ns slot Hl Hp Hu. apply (ok_pending _ Hok ns slot Hl Hp).
  rewrite (ok_count _ Hok ns slot Hl). by apply unborrowed_count.
Qed.

Module PoolRuns.

(** An environment in which every load succeeds. *)
Definition good_env (unit_id : string) : LoadEnv :=
  MkLoadEnv (Value unit_id) (fun _ => Value true) (fun _ => Status_Ok) (fun _ => Status_Ok)
    (fun _ => Value true) Status_Ok.

Definition conf (n : Z) : F05Config := MkF05Config n 0 60000 "data".
Definition no_memory (b : NamespaceResourceBundle) : Z := 0.

Definition loaded (ns : string) (load : nat) : NamespaceResourceBundle :=
  MkBundle ns "u" "data/u" load.
Definition slot_of (load : nat) (count : Z) (mark : bool) : NamespaceSlot :=
  MkSlot (loaded "a" load) count mark.

Definition pool_of (slots : gmap string NamespaceSlot) (n : nat) : DefaultNamespacePool :=
  MkPool slots 0 0 0 [] [] n.

End PoolRuns.
Import PoolRuns.

(** A borrower, an eviction that has to wait, the release and the reap. *)
Lemma Pool_borrow_safe_witness :
  exists s, rtc (pool_step (conf 2) no_memory unborrowed) (idle empty_pool) s /\
    borrows s = [("a"%string, 1%nat)] /\
    (exists slot, bundles (pool s) !! "a"%string = Some slot /\ pending_delete slot = true /\ b_load (bundle slot) = 1%nat).
Proof.
  set (s := MkShared (pool_of {["a"%string := slot_of 1 1 true]} 1) [("a"%string, 1%nat)] []).
  assert (rtc (pool_step (conf 2) no_memory unborrowed) (idle empty_pool) s) as Hr.
  { eapply rtc_l. { apply (StepAdmit _ _ _ (good_env "u") 0 "a" 0). right. constructor. }
    eapply rtc_l. { eapply (StepAcquire _ _ _ "a"). vm_compute. reflexivity. }
    eapply rtc_l. { apply (StepEvict _ _ _ "a"). }
    vm_compute. constructor. }
  exists s. split; [exact Hr|]. split; [reflexivity|].
  destruct (proj1 (Pool_borrow_safe (conf 2) no_memory s Hr) "a"%string 1%nat) as (slot & Hl & Hg); [by left|].
  exists slot. split; [exact Hl|]. split; [|exact Hg]. vm_compute in Hl. by injection Hl as <-.
Defined.

Lemma AdmitCreate_outcomes_witness :
  let p := (AdmitCreate (conf 1) no_memory (good_env "u") 5 "a" 0 empty_pool).2 in
  bundles p = {["a"%string := slot_of 1 0 false]} /\
  exists d, (AdmitCreate (conf 1) no_memory (good_env "u") 6 "b" 0 p).1 = PoolStatus kNsQuotaExceeded d.
Proof.
  intros p. split; [vm_compute; reflexivity|].
  pose proof (AdmitCreate_outcomes (conf 1) no_memory (good_env "u") 6 "b" 0 p) as H.
  destruct (AdmitCreate (conf 1) no_memory (good_env "u") 6 "b" 0 p) as [st p'].
  destruct H as (_ & H & _). destruct H as ([d Hd] & _); [vm_compute; reflexivity|vm_compute; congruence|].
  exists d. exact Hd.
Defined.

Module PoolFaults.

(** The admin endpoint reloads any namespace: the bundle of a thread that holds
    it is destroyed, and its slot has another one. *)
Lemma Reload_destroys_borrowed_bundle :
  exists s slot, rtc (pool_step (conf 2) no_memory anytime) (idle empty_pool) s /\
    ("a"%string, 1%nat) ∈ borrows s /\
    bundles (pool s) !! "a"%string = Some slot /\ b_load (bundle slot) = 2%nat.
Proof.
  exists (MkShared (pool_of {["a"%string := slot_of 2 1 false]} 2) [("a"%string, 1%nat)] []), (slot_of 2 1 false).
  split; [|split; [by left|split; [vm_compute; reflexivity|done]]].
  eapply rtc_l. { apply (StepAdmit _ _ _ (good_env "u") 0 "a" 0). by right. }
  eapply rtc_l. { eapply (StepAcquire _ _ _ "a"). vm_compute. reflexivity. }
  eapply rtc_l. { apply (StepLoad _ _ _ (good_env "u") "a"). }
  eapply rtc_l. { apply (StepInsert _ _ _ "a" (loaded "a" 2)). done. }
  vm_compute. constructor.
Qed.

(** A namespace that is created again while its deletion waits for a borrower:
    the count starts from zero, and the next deletion erases the slot at once
    although the borrower is still there. *)
Lemma Admit_forgets_borrower :
  exists s, rtc (pool_step (conf 2) no_memory anytime) (idle empty_pool) s /\
    borrows s = [("a"%string, 1%nat)] /\ bundles (pool s) !! "a"%string = None.
Proof.
  exists (MkShared (pool_of ∅ 2) [("a"%string, 1%nat)] []).
  split; [|split; [done|vm_compute; reflexivity]].
  eapply rtc_l. { apply (StepAdmit _ _ _ (good_env "u") 0 "a" 0). by right. }
  eapply rtc_l. { eapply (StepAcquire _ _ _ "a"). vm_compute. reflexivity. }
  eapply rtc_l. { apply (StepEvict _ _ _ "a"). }
  eapply rtc_l. { apply (StepAdmit _ _ _ (good_env "u") 0 "a" 0). by right. }
  eapply rtc_l. { apply (StepEvict _ _ _ "a"). }
  vm_compute. constructor.
Qed.

(** A reload checks no limit. *)
Lemma Reload_exceeds_limit :
  let p := (AdmitCreate (conf 1) no_memory (good_env "u") 0 "a" 0 empty_pool).2 in
  let p := (ReloadNamespace (conf 1) (good_env "v") "b" p).2 in
  size (bundles p) = 2%nat /\ max_namespaces_per_instance (conf 1) = 1.
Proof. split; vm_compute; reflexivity. Qed.

End PoolFaults.
