(* ===== verification/TtlLruCache.v ===== *)
(** * The cache of the router (include/cortrix/catalog/ttl_lru_cache.h)

    A bounded cache with a time to live: the most recently used entry is first,
    and the last one goes when there are too many.  The code finds a node
    through a hash table of list iterators; here the list itself is searched,
    and [unique_keys] is what makes the two the same. *)
From stdpp Require Import list.
From S2P Require Import Prelude.

Module TtlLruCache.

Section Cache.
Context {K V : Type} `{EqDecision K}.

Record Node := MkNode { key : K; value : V; inserted_ms : Z }.

Record Cache := MkCache { capacity_ : nat; ttl_ms_ : Z; order_ : list Node }.

Definition empty (capacity : nat) (ttl_ms : Z) : Cache := MkCache capacity ttl_ms [].

Definition with_order (c : Cache) (l : list Node) : Cache := MkCache (capacity_ c) (ttl_ms_ c) l.

(** [index_.find(key)]. *)
Definition find (k : K) (l : list Node) : option Node := head (filter (fun n => key n = k) l).
Definition without (k : K) (l : list Node) : list Node := filter (fun n => key n <> k) l.

Definition Expired (c : Cache) (n : Node) (now_ms : Z) : bool := ttl_ms_ c <=? now_ms - inserted_ms n.

Definition Get (k : K) (now_ms : Z) (c : Cache) : option V * Cache :=
  match find k (order_ c) with
  | None => (None, c)
  | Some n =>
      if Expired c n now_ms then (None, with_order c (without k (order_ c)))
      else (Some (value n), with_order c (n :: without k (order_ c)))
  end.

(** [while (index_.size() > capacity_) EvictLru()]. *)
Definition evict (capacity : nat) (l : list Node) : list Node := take capacity l.

Definition Put (k : K) (v : V) (now_ms : Z) (c : Cache) : Cache :=
  match capacity_ c with
  | O => c
  | S _ =>
      match find k (order_ c) with
      | Some _ => with_order c (MkNode k v now_ms :: without k (order_ c))
      | None => with_order c (evict (capacity_ c) (MkNode k v now_ms :: order_ c))
      end
  end.

Definition Invalidate (k : K) (c : Cache) : Cache := with_order c (without k (order_ c)).
Definition Clear (c : Cache) : Cache := with_order c [].
Definition size (c : Cache) : nat := length (order_ c).

(** ** Histories *)

Inductive op := OpGet (k : K) (now_ms : Z) | OpPut (k : K) (v : V) (now_ms : Z) | OpInvalidate (k : K) | OpClear.

Definition apply (c : Cache) (o : op) : Cache :=
  match o with
  | OpGet k now => (Get k now c).2
  | OpPut k v now => Put k v now c
  | OpInvalidate k => Invalidate k c
  | OpClear => Clear c
  end.

Definition replay (capacity : nat) (ttl_ms : Z) (ops : list op) : Cache :=
  foldl apply (empty capacity ttl_ms) ops.

(** What a map without bound and age would hold: the last [Put] of a key, unless
    something dropped it. *)
Definition written (ops : list op) (k : K) : option (V * Z) :=
  foldl (fun m o =>
    match o with
    | OpPut k' v now => if decide (k' = k) then Some (v, now) else m
    | OpInvalidate k' => if decide (k' = k) then None else m
    | OpClear => None
    | OpGet _ _ => m
    end) None ops.

(** ** Lemmas *)

Definition unique_keys (l : list Node) : Prop := NoDup (key <$> l).

Lemma find_Some k l n : find k l = Some n -> n ∈ l /\ key n = k.
Proof.
  unfold find. intros H. assert (n ∈ filter (fun n => key n = k) l) as Hin.
  { destruct (filter _ l); [done|]. injection H as ->. by left. }
  by apply list_elem_of_filter in Hin as [? ?].
Qed.

Lemma find_None k l n : find k l = None -> n ∈ l -> key n <> k.
Proof.
  unfold find. intros H Hin Hk. assert (n ∈ filter (fun n => key n = k) l) as Hf by (by apply list_elem_of_filter).
  destruct (filter _ l); [by apply not_elem_of_nil in Hf|done].
Qed.

Lemma find_unique l n : unique_keys l -> n ∈ l -> find (key n) l = Some n.
Proof.
  intros Hu Hin. destruct (find (key n) l) as [m|] eqn:E; [|by destruct (find_None _ _ _ E Hin)].
  apply find_Some in E as [Hm Hk]. f_equal. apply (NoDup_fmap_inj key l m n Hu Hm Hin Hk).
Qed.

Lemma elem_without k l n : n ∈ without k l <-> key n <> k /\ n ∈ l.
Proof. unfold without. by rewrite list_elem_of_filter. Qed.

Lemma unique_without k l : unique_keys l -> unique_keys (without k l) /\ k ∉ key <$> without k l.
Proof.
  intros Hu. split.
  - eapply sublist_NoDup; [exact Hu|]. apply sublist_fmap, sublist_filter.
  - intros (n & -> & Hn%elem_without)%list_elem_of_fmap. by destruct Hn.
Qed.

Lemma unique_front k n l : unique_keys l -> key n = k -> unique_keys (n :: without k l).
Proof. intros [Hw Hk]%(unique_without k) <-. by apply NoDup_cons. Qed.

Lemma unique_take i l : unique_keys l -> unique_keys (take i l).
Proof. intros Hu. eapply sublist_NoDup; [exact Hu|]. apply sublist_fmap, sublist_take. Qed.

Lemma without_length k l n : n ∈ l -> key n = k -> (length (without k l) < length l)%nat.
Proof. intros Hin Hk. apply length_filter_lt with n; [done|]. by intros []. Qed.

(** What every history keeps. *)
Record cache_ok (ops : list op) (c : Cache) : Prop := {
  ok_unique : unique_keys (order_ c);
  ok_bound : (length (order_ c) <= capacity_ c)%nat;
  ok_written n : n ∈ order_ c -> written ops (key n) = Some (value n, inserted_ms n)
}.

Lemma written_snoc ops o k :
  written (ops ++ [o]) k =
  match o with
  | OpPut k' v now => if decide (k' = k) then Some (v, now) else written ops k
  | OpInvalidate k' => if decide (k' = k) then None else written ops k
  | OpClear => None
  | OpGet _ _ => written ops k
  end.
Proof. unfold written. rewrite foldl_app. by destruct o. Qed.

Lemma apply_params c o : capacity_ (apply c o) = capacity_ c /\ ttl_ms_ (apply c o) = ttl_ms_ c.
Proof.
  destruct o as [k now|k v now|k|]; simpl; try done.
  - unfold Get. destruct (find k (order_ c)); [|done]. by destruct (Expired _ _ _).
  - unfold Put. destruct (capacity_ c) eqn:E; [done|]. by destruct (find k (order_ c)).
Qed.

Lemma apply_ok ops o c : cache_ok ops c -> cache_ok (ops ++ [o]) (apply c o).
Proof.
  intros [Hu Hb Hw]. destruct o as [k now|k v now|k|]; simpl.
  - assert (cache_ok (ops ++ [OpGet k now]) c) as Hsame by (by split; [..|intros n Hn; rewrite written_snoc; auto]).
    unfold Get. destruct (find k (order_ c)) as [n|] eqn:E; [|done].
    apply find_Some in E as [Hin Hk]. pose proof (without_length k _ n Hin Hk). destruct (Expired c n now); simpl.
    + split; simpl; [by apply unique_without|lia|]. intros m [_ Hm]%elem_without. rewrite written_snoc. auto.
    + split; simpl; [by apply unique_front|lia|].
      intros m [->|[_ Hm]%elem_without]%elem_of_cons; rewrite written_snoc; auto.
  - unfold Put. destruct (capacity_ c) as [|cap] eqn:Ec.
    { destruct (order_ c) eqn:Eo; [|simpl in Hb; lia].
      split; rewrite ?Eo, ?Ec; [done|done|by intros n ?%not_elem_of_nil]. }
    destruct (find k (order_ c)) as [n|] eqn:E; simpl.
    + apply find_Some in E as [Hin Hk]. pose proof (without_length k _ n Hin Hk).
      split; simpl; [by apply unique_front|lia|].
      intros m [->|[Hm Hmin]%elem_without]%elem_of_cons; rewrite written_snoc; simpl;
        [by rewrite decide_True|rewrite decide_False by done; auto].
    + assert (k ∉ key <$> order_ c) as Hk.
      { intros (m & -> & Hm)%list_elem_of_fmap. by apply (find_None _ _ m E). }
      unfold evict. split; simpl; [|rewrite length_take; lia|].
      { apply (unique_take (S cap) (MkNode k v now :: order_ c)). by apply NoDup_cons. }
      intros m [->|Hm]%elem_of_cons; rewrite written_snoc; simpl; [by rewrite decide_True|].
      assert (m ∈ order_ c) as Hmc by (by apply (subseteq_take cap)).
      rewrite decide_False; [auto|]. intros ->. apply Hk. by apply list_elem_of_fmap_2.
  - split; simpl; [by apply unique_without| |].
    + pose proof (length_filter (fun n => key n <> k) (order_ c)). unfold without. lia.
    + intros m [Hm Hin]%elem_without. rewrite written_snoc, decide_False by done. auto.
  - split; simpl; [constructor|lia|by intros n ?%not_elem_of_nil].
Qed.

Lemma replay_ok capacity ttl ops :
  cache_ok ops (replay capacity ttl ops) /\ capacity_ (replay capacity ttl ops) = capacity
  /\ ttl_ms_ (replay capacity ttl ops) = ttl.
Proof.
  unfold replay. induction ops as [|o ops IH] using rev_ind.
  - split; [|done]. split; simpl; [constructor|lia|by intros n ?%not_elem_of_nil].
  - rewrite foldl_app. simpl. destruct IH as (Hok & Hc & Ht).
    destruct (apply_params (foldl apply (empty capacity ttl) ops) o) as [-> ->]. split; [by apply apply_ok|done].
Qed.

(** ** Properties *)

(** After any history of calls the cache holds at most [capacity] entries,
    one per key, and a lookup never answers with anything but the value of the
    key's last [Put], which no [Invalidate] or [Clear] has dropped since and
    which is younger than the time to live.  The entry just put is found, and an
    entry that is invalidated is not. *)
Theorem Cache_answers_last_write capacity ttl ops :
  let c := replay capacity ttl ops in
  (size c <= capacity)%nat /\
  (forall k now v, (Get k now c).1 = Some v ->
     exists t, written ops k = Some (v, t) /\ now - t < ttl) /\
  (forall k v t now, (0 < capacity)%nat -> now - t < ttl -> (Get k now (Put k v t c)).1 = Some v) /\
  (forall k now, (Get k now (Invalidate k c)).1 = None).
Proof.
  intros c. destruct (replay_ok capacity ttl ops) as (Hok & Hc & Ht). fold c in Hok, Hc, Ht.
  split; [unfold size; rewrite <- Hc; apply (ok_bound _ _ Hok)|]. split; [|split].
  - intros k now v. unfold Get. destruct (find k (order_ c)) as [n|] eqn:E; [|done].
    unfold Expired. rewrite Ht. destruct (Z.leb_spec ttl (now - inserted_ms n)); [done|]. intros [= <-].
    apply find_Some in E as [Hin <-]. exists (inserted_ms n). split; [|lia]. by apply (ok_written _ _ Hok).
  - intros k v t now Hcap Hage. unfold Put. rewrite Hc. destruct capacity as [|cap]; [lia|].
    assert (forall l, (Get k now (with_order c (MkNode k v t :: l))).1 = Some v) as Hfront.
    { intros l. unfold Get, find. simpl. rewrite filter_cons_True by done. simpl. unfold Expired. simpl.
      rewrite Ht. by rewrite (proj2 (Z.leb_gt _ _)) by lia. }
    destruct (find k (order_ c)); apply Hfront.
  - intros k now. unfold Get, Invalidate. simpl.
    destruct (find k (without k (order_ c))) as [n|] eqn:E; [|done].
    apply find_Some in E as [[Hn _]%elem_without Hk]. done.
Qed.

End Cache.
#[global] Arguments Node : clear implicits.
#[global] Arguments Cache : clear implicits.
#[global] Arguments op : clear implicits.

Lemma Cache_answers_last_write_witness :
  let ops := [OpPut 1 10 0; OpPut 2 20 1; OpGet 1 2; OpPut 3 30 3] in
  let c := replay (K := Z) (V := Z) 2 60 ops in
  (Get 1 4 c).1 = Some 10 /\ (Get 2 4 c).1 = None /\ (Get 1 60 c).1 = None /\
  exists t, written ops 1 = Some (10, t) /\ 4 - t < 60.
Proof.
  intros ops c. do 3 (split; [vm_compute; reflexivity|]).
  destruct (Cache_answers_last_write (K := Z) (V := Z) 2 60 ops) as (_ & H & _).
  apply (H 1 4 10). vm_compute. reflexivity.
Defined.

End TtlLruCache.
