(* ===== verification/NsRouter.v ===== *)
(** * The namespace catalog (src/catalog/default_ns_router.cpp)

    Namespaces, their units and the mapping between them are rows of catalog.db;
    [DefaultINSRouter] reads and writes them under one mutex, with two caches in
    front, and tells the pool of creations and deletions.  The connection is
    that of Sqlite.v, with [PRAGMA foreign_keys=ON] as CatalogDb sets it: a
    foreign key is checked at the end of each statement.  The columns of a row
    that no statement of the router sets have the default of the schema. *)
From Stdlib Require Import Ascii String.
From stdpp Require Import gmap strings pretty.
From S2P Require Import Prelude Status Sqlite TtlLruCache NamespacePool.

Module NsRouter.
Import Sqlite.

(** ** Errors (catalog_error.cpp), as far as the catalog's stores use them *)

Inductive CatalogErrorCode :=
  kNsNotFound | kNsAlreadyExists | kUnitNotFound | kTenantNotFound | kInvalidConfigJson
| kTransactionRetry | kRefCountNegative | kInternalError.

Definition CatalogErrorCodeString (c : CatalogErrorCode) : string :=
  match c with
  | kNsNotFound => "CX_ERR_NS_NOT_FOUND"
  | kNsAlreadyExists => "CX_ERR_NS_ALREADY_EXISTS"
  | kUnitNotFound => "CX_ERR_UNIT_NOT_FOUND"
  | kTenantNotFound => "CX_ERR_TENANT_NOT_FOUND"
  | kInvalidConfigJson => "CX_ERR_INVALID_CONFIG_JSON"
  | kTransactionRetry => "CX_ERR_TRANSACTION_RETRY"
  | kRefCountNegative => "CX_ERR_REF_COUNT_NEGATIVE"
  | kInternalError => "CX_ERR_INTERNAL_ERROR"
  end.

Definition CatalogErrorToStatusCode (c : CatalogErrorCode) : StatusCode :=
  match c with
  | kNsNotFound | kUnitNotFound | kTenantNotFound => kNotFound
  | kNsAlreadyExists => kAlreadyExists
  | kInvalidConfigJson | kRefCountNegative => kInvalidArgument
  | kTransactionRetry => kUnavailable
  | kInternalError => kInternal
  end.

Definition CatalogStatus (c : CatalogErrorCode) (detail : string) : Status :=
  let cx := CatalogErrorCodeString c in
  MkStatus (CatalogErrorToStatusCode c)
    (if bool_decide (detail = ""%string) then cx else cx +:+ ": " +:+ detail).

(** ** Rows *)

Record NSMetadata := MkNSMetadata {
  namespace_id : string;
  name : string;
  tenant_id : string;
  isolation_mode : string;
  visibility : string;
  owner_user_id : option string;
  cloned_from_ns_id : option string;
  clone_type : option string;
  cloned_at : option Z;
  status : string;
  created_at : Z;
  configs : list (option string)
}.

Record UnitDescriptor := MkUnitDescriptor {
  unit_id : string;
  u_tenant_id : string;
  state : string;
  index_type : string;
  sealed_at : option Z;
  archived_at : option Z;
  vector_count : Z;
  size_bytes : Z;
  last_write_at : Z;
  seal_threshold_vectors : Z;
  seal_threshold_bytes : Z;
  seal_idle_days : Z;
  owner_node_id : string;
  u_created_at : Z
}.

Record NsUnit := MkNsUnit { nu_ns_id : string; nu_unit_id : string; is_primary : Z; nu_created_at : Z }.

Record Db := MkDb {
  tenants : list string;
  namespaces : list NSMetadata;
  units : list UnitDescriptor;
  ns_units : list NsUnit
}.

Definition has_ns (ns : string) (d : Db) : bool := existsb (fun r => bool_decide (namespace_id r = ns)) (namespaces d).
Definition has_unit (id : string) (d : Db) : bool := existsb (fun r => bool_decide (unit_id r = id)) (units d).

(** ** Statements *)

(** INSERT INTO namespaces: the PRIMARY KEY, then the tenant. *)
Definition insert_ns (r : NSMetadata) (d : Db) : option (Z * Db) :=
  if has_ns (namespace_id r) d || negb (bool_decide (tenant_id r ∈ tenants d)) then None
  else Some (1, MkDb (tenants d) (namespaces d ++ [r]) (units d) (ns_units d)).

Definition insert_unit (r : UnitDescriptor) (d : Db) : option (Z * Db) :=
  if has_unit (unit_id r) d || negb (bool_decide (u_tenant_id r ∈ tenants d)) then None
  else Some (1, MkDb (tenants d) (namespaces d) (units d ++ [r]) (ns_units d)).

Definition insert_ns_unit (r : NsUnit) (d : Db) : option (Z * Db) :=
  if existsb (fun m => bool_decide (nu_ns_id m = nu_ns_id r /\ nu_unit_id m = nu_unit_id r)) (ns_units d)
     || negb (has_ns (nu_ns_id r) d) || negb (has_unit (nu_unit_id r) d) then None
  else Some (1, MkDb (tenants d) (namespaces d) (units d) (ns_units d ++ [r])).

(** The units that the mapping gives a namespace. *)
Definition mapped (ns : string) (d : Db) : list string := nu_unit_id <$> filter (fun m => nu_ns_id m = ns) (ns_units d).

(** DELETE FROM units: refused while a row of ns_units has the unit. *)
Definition delete_units (ns : string) (d : Db) : option (Z * Db) :=
  let gone := filter (fun u => unit_id u ∈ mapped ns d) (units d) in
  if existsb (fun u => existsb (fun m => bool_decide (nu_unit_id m = unit_id u)) (ns_units d)) gone then None
  else Some (len gone, MkDb (tenants d) (namespaces d) (filter (fun u => unit_id u ∉ mapped ns d) (units d)) (ns_units d)).

Definition delete_ns_units (ns : string) (d : Db) : option (Z * Db) :=
  Some (len (mapped ns d), MkDb (tenants d) (namespaces d) (units d) (filter (fun m => nu_ns_id m <> ns) (ns_units d))).

(** DELETE FROM namespaces: refused while a row of ns_units has it. *)
Definition delete_ns (ns : string) (d : Db) : option (Z * Db) :=
  if has_ns ns d && existsb (fun m => bool_decide (nu_ns_id m = ns)) (ns_units d) then None
  else Some (len (filter (fun r => namespace_id r = ns) (namespaces d)),
             MkDb (tenants d) (filter (fun r => namespace_id r <> ns) (namespaces d)) (units d) (ns_units d)).

Definition with_status (r : NSMetadata) (s : string) : NSMetadata :=
  MkNSMetadata (namespace_id r) (name r) (tenant_id r) (isolation_mode r) (visibility r) (owner_user_id r)
    (cloned_from_ns_id r) (clone_type r) (cloned_at r) s (created_at r) (configs r).

Definition deletable (ns : string) (r : NSMetadata) : Prop := namespace_id r = ns /\ status r <> "deleted"%string.
#[export] Instance deletable_dec ns r : Decision (deletable ns r).
Proof. unfold deletable. apply _. Defined.

(** UPDATE namespaces SET status = 'deleted'. *)
Definition mark_deleted (ns : string) (d : Db) : option (Z * Db) :=
  Some (len (filter (deletable ns) (namespaces d)),
        MkDb (tenants d)
          ((fun r => if decide (deletable ns r) then with_status r "deleted" else r) <$> namespaces d)
          (units d) (ns_units d)).

(** ** The router *)

Record Router := MkRouter {
  conn : Conn Db;
  ns_cache_ : TtlLruCache.Cache string NSMetadata;
  unit_cache_ : TtlLruCache.Cache string UnitDescriptor
}.

#[export] Instance Router_eta : Eta Router := fun r => MkRouter (conn r) (ns_cache_ r) (unit_cache_ r).

Definition kNsCacheCapacity : nat := Z.to_nat 10000.
Definition kUnitCacheCapacity : nat := Z.to_nat 1000.
Definition kCacheTtlMs : Z := 60000.

Definition new_router (c : Conn Db) : Router :=
  MkRouter c (TtlLruCache.empty kNsCacheCapacity kCacheTtlMs) (TtlLruCache.empty kUnitCacheCapacity kCacheTtlMs).

Definition on_conn {A} (f : Conn Db -> A * Conn Db) (r : Router) : A * Router :=
  let '(a, c) := f (conn r) in (a, r <| conn := c |>).
Definition roll_back (r : Router) : Router := r <| conn := ROLLBACK (conn r) |>.

Section Operations.
Context `{Planner} (errmsg : string).

Definition first_row {A} (rows : option (list A * bool)) : option (option A) := head ∘ fst <$> rows.

Definition ReadNamespaceLocked (ns_id : string) (r : Router) : Result NSMetadata * Router :=
  let '(rows, r) := on_conn (select (fun d => filter (fun n => namespace_id n = ns_id) (namespaces d))) r in
  (match first_row rows with
   | None => Error (CatalogStatus kInternalError ("prepare GetNamespace: " +:+ errmsg))
   | Some None => Error (CatalogStatus kNsNotFound ("namespace '" +:+ ns_id +:+ "'"))
   | Some (Some m) => Value m
   end, r).

Definition ReadUnitLocked (id : string) (r : Router) : Result UnitDescriptor * Router :=
  let '(rows, r) := on_conn (select (fun d => filter (fun u => unit_id u = id) (units d))) r in
  (match first_row rows with
   | None => Error (CatalogStatus kInternalError ("prepare GetUnit: " +:+ errmsg))
   | Some None => Error (CatalogStatus kUnitNotFound ("unit '" +:+ id +:+ "'"))
   | Some (Some u) => Value u
   end, r).

(** ORDER BY is_primary DESC, created_at ASC. *)
Definition primary_first (a b : NsUnit) : bool :=
  (is_primary b <? is_primary a) || ((is_primary a =? is_primary b) && (nu_created_at a <=? nu_created_at b)).

Definition ActiveUnitIdLocked (ns_id : string) (r : Router) : Result string * Router :=
  let '(rows, r) :=
    on_conn (select (fun d => take 1 (order_by primary_first (filter (fun m => nu_ns_id m = ns_id) (ns_units d))))) r in
  (match first_row rows with
   | None => Error (CatalogStatus kInternalError ("prepare LookupUnits: " +:+ errmsg))
   | Some None => Error (CatalogStatus kNsNotFound ("namespace '" +:+ ns_id +:+ "'"))
   | Some (Some m) => Value (nu_unit_id m)
   end, r).

Definition GetNamespace (now : Z) (ns_id : string) (r : Router) : Result NSMetadata * Router :=
  let '(hit, cache) := TtlLruCache.Get ns_id now (ns_cache_ r) in
  let r := r <| ns_cache_ := cache |> in
  match hit with
  | Some m => (Value m, r)
  | None =>
      let '(res, r) := ReadNamespaceLocked ns_id r in
      (res, match res with
            | Value m => r <| ns_cache_ := TtlLruCache.Put ns_id m now (ns_cache_ r) |>
            | Error _ => r
            end)
  end.

Definition GetActiveUnit (now : Z) (ns_id : string) (r : Router) : Result UnitDescriptor * Router :=
  let '(id, r) := ActiveUnitIdLocked ns_id r in
  match id with
  | Error s => (Error s, r)
  | Value id =>
      let '(hit, cache) := TtlLruCache.Get id now (unit_cache_ r) in
      let r := r <| unit_cache_ := cache |> in
      match hit with
      | Some u => (Value u, r)
      | None =>
          let '(res, r) := ReadUnitLocked id r in
          (res, match res with
                | Value u => r <| unit_cache_ := TtlLruCache.Put id u now (unit_cache_ r) |>
                | Error _ => r
                end)
      end
  end.

Definition LookupUnits (now : Z) (ns_id : string) (r : Router) : Result (list UnitDescriptor) * Router :=
  let '(u, r) := GetActiveUnit now ns_id r in
  (match u with Error s => Error s | Value u => Value [u] end, r).

Record ListNamespacesOptions := MkListNamespacesOptions {
  o_tenant_id : option string; include_deleted : bool; limit : Z; offset : Z
}.

Definition string_leb (a b : string) : bool := String.leb a b.

Definition listed (opts : ListNamespacesOptions) (r : NSMetadata) : bool :=
  from_option (fun t => bool_decide (tenant_id r = t)) true (o_tenant_id opts)
  && (include_deleted opts || negb (bool_decide (status r = "deleted"%string))).

(** An OFFSET without a LIMIT is no SQL: the statement does not prepare. *)
Definition ListNamespaces (opts : ListNamespacesOptions) (r : Router) : Result (list string) * Router :=
  let failed := Error (CatalogStatus kInternalError ("prepare ListNamespaces: " +:+ errmsg)) in
  if (limit opts <=? 0) && (0 <? offset opts) then (failed, r) else
  let '(rows, r) := on_conn (select (fun d =>
    let ids := order_by string_leb (namespace_id <$> filter (fun n => Is_true (listed opts n)) (namespaces d)) in
    let ids := if 0 <? offset opts then drop (Z.to_nat (offset opts)) ids else ids in
    if 0 <? limit opts then take (Z.to_nat (limit opts)) ids else ids)) r in
  (match rows with None => failed | Some (ids, _) => Value ids end, r).

(** ** Creation *)

(** The row of [metadata]. *)
Definition ns_row (now : Z) (m : NSMetadata) : NSMetadata :=
  let or_default (s d : string) := if bool_decide (s = ""%string) then d else s in
  MkNSMetadata (namespace_id m) (name m) (tenant_id m) (or_default (isolation_mode m) "shared")
    (or_default (visibility m) "tenant") (owner_user_id m) None None None
    (or_default (status m) "active") now (replicate 11 (Some "{}"%string)).

Definition unit_of (m : NSMetadata) : string := "unit-" +:+ namespace_id m.
Definition unit_row (now : Z) (m : NSMetadata) : UnitDescriptor :=
  MkUnitDescriptor (unit_of m) (tenant_id m) "active" "hnsw" None None 0 0 now
    (2 ^ 63 - 1) (2 ^ 63 - 1) (2 ^ 31 - 1) "local" now.

(** One INSERT of the transaction; any failure rolls back. *)
Definition insert_or_roll_back (f : Db -> option (Z * Db)) (prepare failed : string) (r : Router)
    : option Status * Router :=
  let '(c, r) := on_conn (change f) r in
  match c with
  | PrepareFailed => (Some (CatalogStatus kInternalError (prepare +:+ errmsg)), roll_back r)
  | StepFailed _ => (Some (CatalogStatus kInternalError failed), roll_back r)
  | Changes _ => (None, r)
  end.

Definition insert_namespace (now : Z) (m : NSMetadata) (r : Router) : option Status * Router :=
  let exists_already := has_ns (namespace_id m) (data (conn r)) in
  let '(c, r) := on_conn (change (insert_ns (ns_row now m))) r in
  match c with
  | PrepareFailed => (Some (CatalogStatus kInternalError ("prepare insert ns: " +:+ errmsg)), roll_back r)
  | StepFailed constraint =>
      (Some (if constraint then
               if exists_already then CatalogStatus kNsAlreadyExists ("namespace '" +:+ namespace_id m +:+ "'")
               else CatalogStatus kTenantNotFound
                      ("tenant '" +:+ tenant_id m +:+ "' does not exist; check the tenant_id of the "
                       +:+ "API key (single-tenant CE uses default_tenant)")
             else CatalogStatus kInternalError "insert ns failed"), roll_back r)
  | Changes _ => (None, r)
  end.

Definition InsertNamespaceCatalog (now : Z) (m : NSMetadata) (r : Router) : Status * Router :=
  let '(begun, r) := on_conn BEGIN r in
  if negb begun then (CatalogStatus kTransactionRetry errmsg, r) else
  let '(e, r) := insert_namespace now m r in
  match e with
  | Some s => (s, r)
  | None =>
      let '(e, r) := insert_or_roll_back (insert_unit (unit_row now m)) "prepare insert unit: " "insert unit failed" r in
      match e with
      | Some s => (s, r)
      | None =>
          let '(e, r) := insert_or_roll_back (insert_ns_unit (MkNsUnit (namespace_id m) (unit_of m) 1 now))
                           "prepare insert ns_units: " "insert ns_units failed" r in
          match e with
          | Some s => (s, r)
          | None =>
              let '(done, r) := on_conn COMMIT r in
              if done then (Status_Ok, r) else (CatalogStatus kTransactionRetry errmsg, roll_back r)
          end
      end
  end.

(** The statements in order, until one fails. *)
Fixpoint delete_all (stmts : list (Db -> option (Z * Db))) (r : Router) : bool * Router :=
  match stmts with
  | [] => (true, r)
  | f :: stmts =>
      let '(c, r) := on_conn (change f) r in
      match c with Changes _ => delete_all stmts r | _ => (false, r) end
  end.

Definition RemoveNamespaceCatalogRows (ns_id : string) (r : Router) : Router :=
  let '(begun, r) := on_conn BEGIN r in
  if negb begun then r else
  let '(ok, r) := delete_all [delete_units ns_id; delete_ns_units ns_id; delete_ns ns_id] r in
  let r := if ok then (on_conn COMMIT r).2 else roll_back r in
  r <| ns_cache_ := TtlLruCache.Invalidate ns_id (ns_cache_ r) |>.

(** The pool's part of a creation: nothing without a pool. *)
Definition CreateNamespace (now : Z) (admission : option (string -> NamespacePool.DefaultNamespacePool ->
      Status * NamespacePool.DefaultNamespacePool))
    (m : NSMetadata) (r : Router) (p : NamespacePool.DefaultNamespacePool)
    : Status * Router * NamespacePool.DefaultNamespacePool :=
  if bool_decide (namespace_id m = ""%string) then (CatalogStatus kInvalidConfigJson "ns_id is empty", r, p) else
  let '(catalog, r) := InsertNamespaceCatalog now m r in
  if negb (status_ok catalog) then (catalog, r, p) else
  match admission with
  | None => (Status_Ok, r, p)
  | Some admission =>
      let '(st, p) := admission (namespace_id m) p in
      if negb (status_ok st) then (st, RemoveNamespaceCatalogRows (namespace_id m) r, p)
      else (Status_Ok, r, p)
  end.

(** ** Deletion *)

Definition DeleteNamespace (ns_id : string) (with_pool : bool) (r : Router)
    (p : NamespacePool.DefaultNamespacePool) : Status * Router * NamespacePool.DefaultNamespacePool :=
  let '(c, r) := on_conn (change (mark_deleted ns_id)) r in
  match c with
  | PrepareFailed => (CatalogStatus kInternalError ("prepare DeleteNamespace: " +:+ errmsg), r, p)
  | StepFailed _ => (CatalogStatus kInternalError "soft-delete ns failed", r, p)
  | Changes n =>
      if n =? 0 then (CatalogStatus kNsNotFound ("namespace '" +:+ ns_id +:+ "'"), r, p)
      else
        let r := r <| ns_cache_ := TtlLruCache.Invalidate ns_id (ns_cache_ r) |> in
        (Status_Ok, r, if with_pool then (NamespacePool.EvictForDelete ns_id p).2 else p)
  end.

End Operations.

End NsRouter.
