(* ===== verification/NsRouterTheory.v ===== *)
(** * Creating and deleting namespaces

    A creation writes its three rows together or not at all.  When the pool then
    refuses the namespace, the rows are meant to be removed; the first DELETE of
    the removal violates a foreign key, so they stay, whatever SQLite does. *)
From Stdlib Require Import Ascii String.
From stdpp Require Import gmap strings pretty.
From S2P Require Import Prelude Status Sqlite TtlLruCache NamespacePool NsRouter.
Import Sqlite NsRouter.

(** The database with the rows of a creation. *)
Definition add_rows (now : Z) (m : NSMetadata) (d : Db) : Db :=
  MkDb (tenants d) (namespaces d ++ [ns_row now m]) (units d ++ [unit_row now m])
    (ns_units d ++ [MkNsUnit (namespace_id m) (unit_of m) 1 now]).

(** Inside a transaction that began with [d0]. *)
Definition in_txn (d0 d : Db) (r : Router) : Prop := saved (conn r) = Some d0 /\ data (conn r) = d.

Lemma on_conn_run {A} (f : Conn Db -> A * Conn Db) r a r' :
  on_conn f r = (a, r') -> f (conn r) = (a, conn r') /\ ns_cache_ r' = ns_cache_ r /\ unit_cache_ r' = unit_cache_ r.
Proof. unfold on_conn. destruct (f (conn r)) as [x c]. by intros [= <- <-]. Qed.

Lemma in_txn_committed d0 d r : in_txn d0 d r -> committed (conn r) = d0.
Proof. unfold committed. by intros [-> _]. Qed.

Lemma roll_back_committed r : committed (conn (roll_back r)) = committed (conn r).
Proof. apply committed_ROLLBACK. Qed.

(** A statement of a transaction: it makes its change, or what is committed is
    as it was. *)
Lemma txn_change d0 d f r c r' :
  in_txn d0 d r -> on_conn (change f) r = (c, r') ->
  match c with
  | Changes n => exists d', f d = Some (n, d') /\ in_txn d0 d' r'
  | _ => committed (conn r') = d0
  end.
Proof.
  intros [Hs Hd] [Hc _]%on_conn_run. pose proof (change_cases _ _ _ _ Hc) as H. destruct c as [| |n].
  1,2: (rewrite (committed_change _ _ _ _ Hc); [unfold committed; by rewrite Hs|by right]).
  destruct H as (d' & Hf & Hd' & Hs'). exists d'. rewrite Hd in Hf. split; [done|]. split; congruence.
Qed.

Section Insert.
Context (errmsg : string).

Lemma insert_or_roll_back_txn f a b d0 d r e r' :
  in_txn d0 d r -> insert_or_roll_back errmsg f a b r = (e, r') ->
  match e with
  | None => exists n d', f d = Some (n, d') /\ in_txn d0 d' r'
  | Some s => committed (conn r') = d0 /\ status_ok s = false
  end.
Proof.
  unfold insert_or_roll_back. destruct (on_conn (change f) r) as [c r1] eqn:E. intros Ht.
  pose proof (txn_change _ _ _ _ _ _ Ht E) as H. destruct c as [| |n]; intros [= <- <-].
  1,2: by rewrite roll_back_committed.
  destruct H as (d' & Hf & Ht'). eauto.
Qed.

Lemma insert_namespace_txn now m d0 r e r' :
  in_txn d0 d0 r -> insert_namespace errmsg now m r = (e, r') ->
  match e with
  | None => exists n d', insert_ns (ns_row now m) d0 = Some (n, d') /\ in_txn d0 d' r'
  | Some s => committed (conn r') = d0 /\ status_ok s = false
  end.
Proof.
  unfold insert_namespace. destruct (on_conn (change _) r) as [c r1] eqn:E. intros Ht.
  pose proof (txn_change _ _ _ _ _ _ Ht E) as H. destruct c as [|k|n]; intros [= <- <-].
  - by rewrite roll_back_committed.
  - rewrite roll_back_committed. split; [done|]. destruct k; [by case_match|done].
  - destruct H as (d' & Hf & Ht'). eauto.
Qed.

(** The three rows are committed, or nothing is. *)
Lemma InsertNamespaceCatalog_atomic now m r st r' :
  saved (conn r) = None -> InsertNamespaceCatalog errmsg now m r = (st, r') ->
  if status_ok st
  then saved (conn r') = None /\ data (conn r') = add_rows now m (data (conn r)) /\
    has_ns (namespace_id m) (data (conn r)) = false
  else committed (conn r') = data (conn r).
Proof.
  intros Hi. unfold InsertNamespaceCatalog.
  destruct (on_conn BEGIN r) as [b r1] eqn:E1. apply on_conn_run in E1 as [E1 _].
  apply BEGIN_cases in E1.
  assert (committed (conn r) = data (conn r)) as Hc0 by (unfold committed; by rewrite Hi).
  destruct b; simpl; [|intros [= <- <-]; simpl; congruence].
  destruct E1 as (_ & Hd1 & Hs1). rewrite <- Hd1 in Hs1.
  assert (in_txn (data (conn r)) (data (conn r)) r1) as Ht1 by (split; congruence).
  destruct (insert_namespace errmsg now m r1) as [e r2] eqn:E2. apply (insert_namespace_txn _ _ _ _ _ _ Ht1) in E2.
  destruct e as [s|]; [by destruct E2 as [Hc Hs]; intros [= <- <-]; rewrite Hs|].
  destruct E2 as (n1 & d1 & Hf1 & Ht2).
  destruct (insert_or_roll_back _ _ _ _ r2) as [e r3] eqn:E3. apply (insert_or_roll_back_txn _ _ _ _ _ _ _ _ Ht2) in E3.
  destruct e as [s|]; [by destruct E3 as [Hc Hs]; intros [= <- <-]; rewrite Hs|].
  destruct E3 as (n2 & d2 & Hf2 & Ht3).
  destruct (insert_or_roll_back _ _ _ _ r3) as [e r4] eqn:E4. apply (insert_or_roll_back_txn _ _ _ _ _ _ _ _ Ht3) in E4.
  destruct e as [s|]; [by destruct E4 as [Hc Hs]; intros [= <- <-]; rewrite Hs|].
  destruct E4 as (n3 & d3 & Hf3 & Ht4).
  destruct (on_conn COMMIT r4) as [done r5] eqn:E5. apply on_conn_run in E5 as [E5 _].
  apply COMMIT_cases in E5; [|unfold in_transaction; destruct Ht4 as [-> _]; by apply bool_decide_eq_true_2].
  destruct done; intros [= <- <-]; simpl.
  - destruct E5 as [Hd5 Hs5]. split; [done|]. rewrite Hd5. destruct Ht4 as [_ ->].
    unfold insert_ns in Hf1. destruct (has_ns (namespace_id (ns_row now m)) (data (conn r))) eqn:En; [done|].
    unfold insert_ns, insert_unit, insert_ns_unit in *. repeat (case_match; [done|]). simplify_eq. by split.
  - rewrite committed_ROLLBACK, E5. by eapply in_txn_committed.
Qed.

(** The removal of the rows removes nothing. *)
Lemma delete_units_refused ns d u m :
  u ∈ units d -> m ∈ ns_units d -> nu_ns_id m = ns -> nu_unit_id m = unit_id u -> delete_units ns d = None.
Proof.
  intros Hu Hm Hns Hid. unfold delete_units.
  assert (unit_id u ∈ mapped ns d) as Hmap.
  { unfold mapped. apply list_elem_of_fmap. exists m. split; [done|]. by apply list_elem_of_filter. }
  match goal with |- (if ?b then _ else _) = _ => assert (b = true) as ->; [|done] end.
  apply existsb_exists. exists u. split; [by apply list_elem_of_In, list_elem_of_filter|].
  apply existsb_exists. exists m. split; [by apply list_elem_of_In|]. by apply bool_decide_eq_true_2.
Qed.

Lemma RemoveNamespaceCatalogRows_nothing now m r d :
  saved (conn r) = None -> data (conn r) = add_rows now m d ->
  committed (conn (RemoveNamespaceCatalogRows (namespace_id m) r)) = add_rows now m d.
Proof.
  intros Hi Hd. unfold RemoveNamespaceCatalogRows.
  destruct (on_conn BEGIN r) as [b r1] eqn:E1. apply on_conn_run in E1 as [E1 _]. apply BEGIN_cases in E1.
  assert (committed (conn r) = add_rows now m d) as Hc0 by (unfold committed; by rewrite Hi).
  destruct b; simpl; [|congruence]. destruct E1 as (_ & Hd1 & Hs1).
  assert (in_txn (add_rows now m d) (add_rows now m d) r1) as Ht1 by (split; congruence).
  destruct (on_conn (change (delete_units (namespace_id m))) r1) as [c r2] eqn:E2.
  apply (txn_change _ _ _ _ _ _ Ht1) in E2. destruct c as [| |n]; simpl.
  1,2: by rewrite committed_ROLLBACK.
  destruct E2 as (d' & Hf & _). exfalso.
  rewrite (delete_units_refused _ _ (unit_row now m) (MkNsUnit (namespace_id m) (unit_of m) 1 now)) in Hf; try done;
    simpl; apply elem_of_app; right; by left.
Qed.

(** A taken name, on a connection on which nothing fails. *)
Lemma insert_taken now m r :
  saved (conn r) = None -> outcomes (conn r) = [] -> has_ns (namespace_id m) (data (conn r)) = true ->
  (InsertNamespaceCatalog errmsg now m r).1 =
    CatalogStatus kNsAlreadyExists ("namespace '" +:+ namespace_id m +:+ "'").
Proof.
  intros Hs Ho Hn. destruct r as [[d sv os] nc uc]. simpl in *. subst.
  unfold InsertNamespaceCatalog, on_conn, BEGIN, next_outcome, in_transaction. simpl.
  unfold insert_namespace, on_conn, change, next_outcome, insert_ns. simpl. by rewrite Hn.
Qed.

(** C27: creating a namespace on an idle connection, whatever its statements do.
    An empty name is refused.  If the catalog refuses, nothing is committed and
    the pool is not asked; a name that has a row, deleted or not, is always
    refused, with the error for taken names when no statement fails.  Otherwise
    the three rows are committed and the pool decides: the answer is its answer
    and its state is the state it leaves.  When the pool refuses, the rows stay:
    their removal commits nothing. *)
Theorem CreateNamespace_outcomes now admission m r p :
  saved (conn r) = None ->
  let d := data (conn r) in
  let catalog := (InsertNamespaceCatalog errmsg now m r).1 in
  let '(st, r', p') := CreateNamespace errmsg now (Some admission) m r p in
  (namespace_id m = ""%string ->
     st = CatalogStatus kInvalidConfigJson "ns_id is empty" /\ r' = r /\ p' = p) /\
  (namespace_id m <> ""%string -> status_ok catalog = false ->
     st = catalog /\ committed (conn r') = d /\ p' = p) /\
  (namespace_id m <> ""%string -> status_ok catalog = true ->
     committed (conn r') = add_rows now m d /\ (admission (namespace_id m) p).2 = p' /\
     (if status_ok (admission (namespace_id m) p).1 then st = Status_Ok else st = (admission (namespace_id m) p).1)) /\
  (has_ns (namespace_id m) d = true -> namespace_id m <> ""%string ->
     status_ok st = false /\
     (outcomes (conn r) = [] ->
        st = CatalogStatus kNsAlreadyExists ("namespace '" +:+ namespace_id m +:+ "'"))).
Proof.
  intros Hi. pose proof (insert_taken now m r Hi) as Htaken.
  destruct (InsertNamespaceCatalog errmsg now m r) as [cat r1] eqn:E. simpl in *.
  pose proof (InsertNamespaceCatalog_atomic now m r cat r1 Hi E) as H.
  unfold CreateNamespace. case_bool_decide as Hn; [by split_and!|]. rewrite E.
  destruct (status_ok cat) eqn:Hok; simpl.
  2: { split_and!; try done. intros Hh _. split; [done|]. intros Ho. by apply Htaken. }
  destruct H as (Hs1 & Hd1 & Hfree). destruct (admission (namespace_id m) p) as [adm pa]. simpl.
  destruct (status_ok adm) eqn:Ha; simpl; split_and!; try done; try (intros Hh; congruence);
    intros _ _; (split; [|split]); rewrite ?Ha; try done.
  - unfold committed. by rewrite Hs1.
  - by apply (RemoveNamespaceCatalogRows_nothing now m r1 (data (conn r))).
Qed.

End Insert.

Module RouterRuns.

Definition meta (ns : string) : NSMetadata :=
  MkNSMetadata ns ns "default_tenant" "" "" None None None None "" 0 [].
Definition empty_catalog : Router := new_router (MkConn (MkDb ["default_tenant"%string] [] [] []) None []).
Definition full (ns : string) (p : NamespacePool.DefaultNamespacePool) :=
  (NamespacePool.PoolStatus NamespacePool.kNsQuotaExceeded "namespace count 0 reached", p).

End RouterRuns.
Import RouterRuns.

Lemma CreateNamespace_outcomes_witness :
  let '(st, r', _) := CreateNamespace "e" 5 (Some full) (meta "a") empty_catalog NamespacePool.empty_pool in
  status_code st = kPermissionDenied /\
  committed (conn r') = add_rows 5 (meta "a") (data (conn empty_catalog)).
Proof.
  pose proof (CreateNamespace_outcomes "e" 5 full (meta "a") empty_catalog NamespacePool.empty_pool eq_refl) as H.
  destruct (CreateNamespace "e" 5 (Some full) (meta "a") empty_catalog NamespacePool.empty_pool) as [[st r'] p'].
  destruct H as (_ & _ & H & _). destruct H as (Hd & _ & Hst); [discriminate|vm_compute; reflexivity|].
  split; [by rewrite Hst|exact Hd].
Defined.

Module RouterFaults.

(** After a creation that the pool refused, the name is taken: a second attempt
    answers that the namespace exists, and the list has it. *)
Lemma Refused_creation_takes_name :
  let '(_, r, p) := CreateNamespace "e" 5 (Some full) (meta "a") empty_catalog NamespacePool.empty_pool in
  (CreateNamespace "e" 6 None (meta "a") r p).1.1 =
    CatalogStatus kNsAlreadyExists "namespace 'a'" /\
  (ListNamespaces "e" (MkListNamespacesOptions None false 0 0) r).1 = Value ["a"%string].
Proof. vm_compute. split; reflexivity. Qed.

(** A page without a size is an SQL error. *)
Lemma Offset_without_limit_fails :
  result_ok (ListNamespaces "e" (MkListNamespacesOptions None false 0 1) empty_catalog).1 = false.
Proof. vm_compute. reflexivity. Qed.

(** A deletion that comes between the rows of a creation and its admission: the
    pool then loads the deleted namespace and keeps it. *)
Lemma Deleted_namespace_admitted :
  let conf := NamespacePool.MkF05Config 2 0 60000 "data" in
  let env := NamespacePool.MkLoadEnv (Value "unit-a"%string) (fun _ => Value true) (fun _ => Status_Ok)
    (fun _ => Status_Ok) (fun _ => Value true) Status_Ok in
  let '(st1, r) := InsertNamespaceCatalog "e" 5 (meta "a") empty_catalog in
  let '(st2, r, p) := DeleteNamespace "e" "a" true r NamespacePool.empty_pool in
  let '(st3, p) := NamespacePool.AdmitCreate conf (fun _ => 0) env 6 "a" 0 p in
  (status_ok st1, status_ok st2, status_ok st3) = (true, true, true) /\
  status <$> namespaces (data (conn r)) = ["deleted"%string] /\
  result_ok (NamespacePool.Acquire "a" p).1 = true /\
  result_ok (GetActiveUnit "e" 7 "a" r).1 = true.
Proof. vm_compute. repeat split. Qed.

End RouterFaults.
