(* ===== verification/ContentRefs.v ===== *)
(** * Reference counts of stored files (src/catalog/default_content_ref_store.cpp)

    A content-addressed file is referenced by (file, namespace, document) triples,
    the rows of content_refs, of which the active ones count.  The row of the
    file in file_locations, when there is one, keeps the count as an aggregate.
    [DefaultContentRefStore] adds and removes references in one transaction each,
    under a mutex; the connection is that of Sqlite.v.  The tables have the
    columns that this store and the garbage collector (GcManager.v) use. *)
From Stdlib Require Import Ascii String.
From stdpp Require Import gmap strings.
From S2P Require Import Prelude Status Sqlite NsRouter.

Module ContentRefs.
Import Sqlite NsRouter.

(** ** Tables *)

Record FileLocation := MkFileLocation {
  file_hash : string;
  size_bytes : Z;
  blob_uri : option string;
  ref_count : Z;
  f_status : string;
  deleted_at : option Z
}.

Record ContentRef := MkContentRef {
  r_file_hash : string;
  r_ns_id : string;
  r_doc_id : string;
  r_status : string;
  r_created_at : Z
}.

Record BlobGcRow := MkBlobGcRow {
  q_blob_uri : string;
  q_file_hash : string;
  queued_at : Z;
  eligible_at : Z;
  last_ref_check : Z;
  q_status : string
}.

Record Db := MkDb {
  file_locations : list FileLocation;
  content_refs : list ContentRef;
  blob_gc_queue : list BlobGcRow
}.

#[export] Instance FileLocation_eta : Eta FileLocation := fun f =>
  MkFileLocation (file_hash f) (size_bytes f) (blob_uri f) (ref_count f) (f_status f) (deleted_at f).
#[export] Instance ContentRef_eta : Eta ContentRef := fun r =>
  MkContentRef (r_file_hash r) (r_ns_id r) (r_doc_id r) (r_status r) (r_created_at r).
#[export] Instance BlobGcRow_eta : Eta BlobGcRow := fun q =>
  MkBlobGcRow (q_blob_uri q) (q_file_hash q) (queued_at q) (eligible_at q) (last_ref_check q) (q_status q).
#[export] Instance Db_eta : Eta Db := fun d =>
  MkDb (file_locations d) (content_refs d) (blob_gc_queue d).

#[export] Instance FileLocation_eq_dec : EqDecision FileLocation.
Proof. solve_decision. Defined.
#[export] Instance ContentRef_eq_dec : EqDecision ContentRef.
Proof. solve_decision. Defined.
#[export] Instance BlobGcRow_eq_dec : EqDecision BlobGcRow.
Proof. solve_decision. Defined.

(** The primary key of content_refs. *)
Definition ref_key (r : ContentRef) : string * string * string := (r_file_hash r, r_ns_id r, r_doc_id r).

(** [status='active'] and [status='deleted']. *)
Definition active (r : ContentRef) : Prop := r_status r = "active"%string.
Definition deleted (r : ContentRef) : Prop := r_status r = "deleted"%string.
#[export] Instance active_dec r : Decision (active r).
Proof. unfold active. apply _. Defined.
#[export] Instance deleted_dec r : Decision (deleted r).
Proof. unfold deleted. apply _. Defined.

(** [SELECT COUNT( * ) FROM content_refs WHERE file_hash=? AND status='active']. *)
Definition active_refs (file : string) (d : Db) : Z :=
  len (filter (fun r => r_file_hash r = file /\ active r) (content_refs d)).

(** UPDATE of the rows with a property: the number of rows and the table. *)
Definition update_where {A} (P : A -> Prop) `{!forall x, Decision (P x)} (f : A -> A) (l : list A)
    : Z * list A :=
  (len (filter P l), (fun x => if decide (P x) then f x else x) <$> l).

(** ** Statements of the store *)

(** INSERT INTO content_refs ... ON CONFLICT DO UPDATE SET status='active'. *)
Definition upsert_ref (now : Z) (file ns doc : string) (d : Db) : option (Z * Db) :=
  let key := (file, ns, doc) in
  let '(n, refs) := update_where (fun r => ref_key r = key) (fun r => r <| r_status := "active"%string |>)
                      (content_refs d) in
  if n =? 0 then Some (1, d <| content_refs := content_refs d ++ [MkContentRef file ns doc "active" now] |>)
  else Some (n, d <| content_refs := refs |>).

(** UPDATE file_locations SET ref_count = ref_count + k WHERE file_hash=?. *)
Definition add_to_count (k : Z) (file : string) (d : Db) : option (Z * Db) :=
  let '(n, files) := update_where (fun f => file_hash f = file)
                       (fun f => f <| ref_count := ref_count f + k |>) (file_locations d) in
  Some (n, d <| file_locations := files |>).

(** UPDATE content_refs SET status='deleted' WHERE the key AND status='active'. *)
Definition soft_delete_ref (file ns doc : string) (d : Db) : option (Z * Db) :=
  let '(n, refs) := update_where (fun r => ref_key r = (file, ns, doc) /\ active r)
                      (fun r => r <| r_status := "deleted"%string |>) (content_refs d) in
  Some (n, d <| content_refs := refs |>).

(** ** The store *)

Section Store.
Context `{Planner} (errmsg : string).

(** A statement of a transaction: a failure rolls back. *)
Definition run (f : Db -> option (Z * Db)) (prepare failed : string) (c : Conn Db)
    : (Status + Z) * Conn Db :=
  let '(r, c) := change f c in
  match r with
  | PrepareFailed => (inl (CatalogStatus kInternalError (prepare +:+ errmsg)), ROLLBACK c)
  | StepFailed _ => (inl (CatalogStatus kInternalError failed), ROLLBACK c)
  | Changes n => (inr n, c)
  end.

Definition commit (c : Conn Db) : option Status * Conn Db :=
  let '(ok, c) := COMMIT c in
  if ok then (None, c) else (Some (CatalogStatus kTransactionRetry "commit failed"), ROLLBACK c).

(** [sqlite3_step] once: a row, or none when it fails. *)
Definition IncrementRef (now : Z) (file ns doc : string) (c : Conn Db) : Status * Conn Db :=
  let '(begun, c) := BEGIN c in
  if negb begun then (CatalogStatus kTransactionRetry "begin failed", c) else
  let '(rows, c) := select (fun d => take 1 (scan
                      (filter (fun r => ref_key r = (file, ns, doc) /\ active r) (content_refs d)))) c in
  match first_row rows with
  | None => (CatalogStatus kInternalError ("prepare IncrementRef probe: " +:+ errmsg), ROLLBACK c)
  | Some already_active =>
      let finish c :=
        let '(e, c) := commit c in
        (default Status_Ok e, c) in
      match already_active with
      | Some _ => finish c
      | None =>
          let '(r, c) := run (upsert_ref now file ns doc) "prepare IncrementRef: "
                           "IncrementRef upsert failed" c in
          match r with
          | inl e => (e, c)
          | inr _ =>
              let '(r, c) := run (add_to_count 1 file) "prepare ref_count++: " "ref_count++ failed" c in
              match r with
              | inl e => (e, c)
              | inr _ => finish c
              end
          end
      end
  end.

(** [sqlite3_column_int]: the low 32 bits. *)
Definition counts_of (file : string) (d : Db) : list Z :=
  (fun f => i32 (ref_count f)) <$> filter (fun f => file_hash f = file) (file_locations d).

Definition GetRefCountLocked (file : string) (c : Conn Db) : Result Z * Conn Db :=
  let '(rows, c) := select (counts_of file) c in
  (match first_row rows with
   | None => Error (CatalogStatus kInternalError ("prepare GetRefCount: " +:+ errmsg))
   | Some count => Value (default 0 count)
   end, c).

Definition GetRefCount := GetRefCountLocked.

(** The count read before it is decremented: -1 when the statement does not
    prepare or has no row. *)
Definition current_count (file : string) (c : Conn Db) : Z * Conn Db :=
  let '(rows, c) := select (counts_of file) c in
  (match first_row rows with Some (Some n) => n | _ => -1 end, c).

(** The aggregate, once a reference was removed. *)
Definition decrement_count (file : string) (c : Conn Db) : option Status * Conn Db :=
  let '(current, c) := current_count file c in
  if current =? 0
  then (Some (CatalogStatus kRefCountNegative ("file '" +:+ file +:+ "' ref_count already 0")), ROLLBACK c)
  else if 0 <? current then
    let '(r, c) := run (add_to_count (-1) file) "prepare ref_count--: " "ref_count-- failed" c in
    (match r with inl e => Some e | inr _ => None end, c)
  else (None, c).

Definition DecrementRef (file ns doc : string) (c : Conn Db) : Result Z * Conn Db :=
  let '(begun, c) := BEGIN c in
  if negb begun then (Error (CatalogStatus kTransactionRetry "begin failed"), c) else
  let '(r, c) := run (soft_delete_ref file ns doc) "prepare DecrementRef: " "DecrementRef update failed" c in
  match r with
  | inl e => (Error e, c)
  | inr n =>
      let '(e, c) := if 0 <? n then decrement_count file c else (None, c) in
      match e with
      | Some e => (Error e, c)
      | None =>
          let '(e, c) := commit c in
          match e with
          | Some e => (Error e, c)
          | None => GetRefCountLocked file c
          end
      end
  end.

(** [ref_count <= 0 AND status='deleted' AND deleted_at < ?]. *)
Definition gc_candidate (before : Z) (f : FileLocation) : Prop :=
  ref_count f <= 0 /\ f_status f = "deleted"%string /\ from_option (fun t => t < before) False (deleted_at f).
#[export] Instance gc_candidate_dec before f : Decision (gc_candidate before f).
Proof. unfold gc_candidate. destruct (deleted_at f); simpl; apply _. Defined.

Definition GetGCCandidates (before_timestamp_ms : Z) (c : Conn Db) : Result (list string) * Conn Db :=
  let '(rows, c) := select (fun d => file_hash <$>
                      scan (filter (gc_candidate before_timestamp_ms) (file_locations d))) c in
  (match rows with
   | None => Error (CatalogStatus kInternalError ("prepare GetGCCandidates: " +:+ errmsg))
   | Some (l, _) => Value l
   end, c).

End Store.
End ContentRefs.
