(* ===== verification/ContentRefsTheory.v ===== *)
(** * Reference counts: they never fall behind the references

    The aggregate of a file row is at least the number of its active references
    after any calls on any faults ([covered]), and without faults the store is
    a set of triples whose sizes it reports. *)
From Stdlib Require Import Ascii String.
From stdpp Require Import gmap strings.
From S2P Require Import Prelude Status Sqlite NsRouter ContentRefs.
Import Sqlite NsRouter ContentRefs.

(** ** Counting *)

(** Rows have unique keys, and each count stands in [R] to the active references. *)
Definition counted (R : Z -> Z -> Prop) (d : Db) : Prop :=
  NoDup (ref_key <$> content_refs d) /\
  Forall (fun f => R (active_refs (file_hash f) d) (ref_count f)) (file_locations d).

Definition covered : Db -> Prop := counted Z.le.

(** The triples that are referenced. *)
Definition keys_of (l : list ContentRef) : list (string * string * string) := ref_key <$> filter active l.
Definition active_keys (d : Db) : list (string * string * string) := keys_of (content_refs d).
Definition of_file (file : string) (k : string * string * string) : Prop := k.1.1 = file.
#[export] Instance of_file_dec file k : Decision (of_file file k).
Proof. unfold of_file. apply _. Defined.

Lemma active_refs_keys file d : active_refs file d = len (filter (of_file file) (active_keys d)).
Proof.
  unfold active_refs, active_keys, keys_of. induction (content_refs d) as [|r l IH]; [done|].
  rewrite !filter_cons. destruct (decide (active r)) as [Ha|Ha].
  - rewrite fmap_cons, filter_cons. unfold of_file at 1. simpl.
    repeat case_decide; rewrite ?len_cons, IH; try done; naive_solver.
  - rewrite decide_False by naive_solver. done.
Qed.

Lemma active_refs_nonneg file d : 0 <= active_refs file d.
Proof. apply len_nonneg. Qed.

Lemma active_keys_NoDup d : NoDup (ref_key <$> content_refs d) -> NoDup (active_keys d).
Proof. intros. eapply sublist_NoDup; [done|apply sublist_fmap, sublist_filter]. Qed.

Section Keys.
Context (file ns doc : string).
Let key := (file, ns, doc).

Lemma len_of_file_cons (l : list (string * string * string)) g :
  len (filter (of_file g) (key :: l)) = len (filter (of_file g) l) + if decide (g = file) then 1 else 0.
Proof.
  rewrite filter_cons. unfold of_file at 1. simpl.
  repeat case_decide; rewrite ?len_cons; try congruence; lia.
Qed.

(** A key is in one row at most. *)
Lemma row_of_key l :
  NoDup (ref_key <$> l) ->
  Forall (fun r => ref_key r <> key) l \/
  exists l1 r l2, l = l1 ++ r :: l2 /\ ref_key r = key /\
    Forall (fun r => ref_key r <> key) l1 /\ Forall (fun r => ref_key r <> key) l2.
Proof.
  intros Hn. destruct (decide (key ∈ ref_key <$> l)) as [Hk|Hk].
  - right. apply list_elem_of_fmap in Hk as (r & Hr & (l1 & l2 & ->)%list_elem_of_split).
    exists l1, r, l2. split; [done|]. split; [done|]. rewrite fmap_app, fmap_cons, <- Hr in Hn.
    apply NoDup_app in Hn as (_ & Hd & [Hn _]%NoDup_cons).
    split; apply Forall_forall; intros r' Hin E.
    + apply (Hd key); [|set_solver]. rewrite <- E. by apply list_elem_of_fmap_2.
    + apply Hn. rewrite <- E. by apply list_elem_of_fmap_2.
  - left. apply Forall_forall. intros r Hin E. apply Hk. rewrite <- E. by apply list_elem_of_fmap_2.
Qed.

Lemma update_none {A} (P : A -> Prop) `{!forall x, Decision (P x)} f l :
  Forall (fun x => ~ P x) l -> update_where P f l = (0, l).
Proof.
  intros Hl. unfold update_where. rewrite filter_none, len_nil by done. f_equal.
  induction Hl as [|x l Hx _ IH]; [done|]. rewrite fmap_cons, decide_False by done. by rewrite IH.
Qed.

Lemma update_one {A} (P : A -> Prop) `{!forall x, Decision (P x)} f l1 x l2 :
  Forall (fun x => ~ P x) l1 -> Forall (fun x => ~ P x) l2 ->
  update_where P f (l1 ++ x :: l2) = if decide (P x) then (1, l1 ++ f x :: l2) else (0, l1 ++ x :: l2).
Proof.
  intros H1 H2. pose proof (update_none P f _ H1) as E1. pose proof (update_none P f _ H2) as E2.
  unfold update_where in *. rewrite filter_app, filter_cons, fmap_app, fmap_cons.
  injection E1 as E1 ->. injection E2 as E2 ->.
  case_decide; rewrite !len_app, ?len_cons, E1, E2; done.
Qed.

Lemma not_key (P : ContentRef -> Prop) l :
  (forall r, P r -> ref_key r = key) -> Forall (fun r => ref_key r <> key) l -> Forall (fun r => ~ P r) l.
Proof. intros HP Hl. eapply Forall_impl; [exact Hl|]. naive_solver. Qed.

Lemma keys_of_app l1 l2 : keys_of (l1 ++ l2) = keys_of l1 ++ keys_of l2.
Proof. unfold keys_of. by rewrite filter_app, fmap_app. Qed.

Lemma keys_of_cons r l : keys_of (r :: l) = if decide (active r) then ref_key r :: keys_of l else keys_of l.
Proof. unfold keys_of. rewrite filter_cons. by case_decide. Qed.

Lemma keys_of_none l : Forall (fun r => ref_key r <> key) l -> key ∉ keys_of l.
Proof.
  intros Hl (r & E & Hr)%list_elem_of_fmap. apply list_elem_of_filter in Hr as [_ Hr].
  rewrite Forall_forall in Hl. by apply (Hl r).
Qed.

(** The references after the key was made active. *)
Lemma upsert_ref_spec now d n d' :
  NoDup (ref_key <$> content_refs d) -> upsert_ref now file ns doc d = Some (n, d') ->
  NoDup (ref_key <$> content_refs d') /\ file_locations d' = file_locations d /\
  active_keys d' ≡ₚ if decide (key ∈ active_keys d) then active_keys d else key :: active_keys d.
Proof.
  intros Hn. unfold upsert_ref, active_keys. fold key.
  set (P := fun r => ref_key r = key). destruct d as [fl l q]. cbn [content_refs file_locations blob_gc_queue] in *.
  destruct (row_of_key l Hn) as [Hl|(l1 & r & l2 & -> & Hr & H1 & H2)].
  - rewrite update_none by done. simpl. intros [= <- <-]. simpl. split; [|split; [done|]].
    + rewrite fmap_app. apply NoDup_app. split; [done|]. split; [|apply NoDup_singleton].
      intros k (r & -> & Hin)%list_elem_of_fmap Hs. apply list_elem_of_singleton in Hs.
      rewrite Forall_forall in Hl. by apply (Hl r).
    + rewrite decide_False by by apply keys_of_none. rewrite keys_of_app. simpl.
      by rewrite Permutation_app_comm.
  - rewrite update_one by done. rewrite decide_True by done. simpl. intros [= <- <-]. simpl.
    split; [by rewrite !fmap_app, !fmap_cons in *|]. split; [done|].
    rewrite !keys_of_app, !keys_of_cons. rewrite (decide_True (P := active _)) by done.
    change (ref_key (r <| r_status := "active"%string |>)) with (ref_key r). rewrite Hr.
    destruct (decide (active r)).
    + rewrite decide_True by set_solver. done.
    + rewrite decide_False; [by rewrite <- Permutation_middle|].
      rewrite elem_of_app. intros [Hk|Hk]; by eapply keys_of_none in Hk.
Qed.

(** The references after the key was retired. *)
Lemma soft_delete_ref_spec d n d' :
  NoDup (ref_key <$> content_refs d) -> soft_delete_ref file ns doc d = Some (n, d') ->
  NoDup (ref_key <$> content_refs d') /\ file_locations d' = file_locations d /\
  if decide (key ∈ active_keys d) then n = 1 /\ active_keys d ≡ₚ key :: active_keys d' else n = 0 /\ d' = d.
Proof.
  intros Hn. unfold soft_delete_ref, active_keys. fold key.
  set (P := fun r => ref_key r = key /\ active r). destruct d as [fl l q]. cbn [content_refs file_locations blob_gc_queue] in *.
  assert (forall r, P r -> ref_key r = key) as HP by by intros ? [].
  destruct (row_of_key l Hn) as [Hl|(l1 & r & l2 & -> & Hr & H1 & H2)].
  - rewrite update_none by (eapply not_key; eauto). intros [= <- <-].
    rewrite decide_False by by apply keys_of_none. done.
  - rewrite update_one by (eapply not_key; eauto).
    rewrite !keys_of_app, !keys_of_cons. destruct (decide (active r)) as [Ha|Ha].
    + rewrite decide_True by done. simpl. intros [= <- <-]. simpl.
      split; [by rewrite !fmap_app, !fmap_cons in *|]. split; [done|].
      rewrite decide_True by set_solver. split; [done|].
      rewrite keys_of_app, keys_of_cons, decide_False by done.
      rewrite Hr. by rewrite <- Permutation_middle.
    + rewrite decide_False by (intros [_ ?]; done). simpl. intros [= <- <-].
      rewrite decide_False; [done|].
      rewrite elem_of_app. intros [Hk|Hk]; by eapply keys_of_none in Hk.
Qed.
End Keys.

(** ** The two changes and the counts *)

(** The counts after the references changed from those of [d] to those of [d1] and
    [k] was added to the count of [file]. *)
Lemma counted_add (R : Z -> Z -> Prop) k file d d1 n d2 :
  counted R d -> NoDup (ref_key <$> content_refs d1) -> file_locations d1 = file_locations d ->
  (forall g c, R (active_refs g d) c -> R (active_refs g d1) (c + if decide (g = file) then k else 0)) ->
  add_to_count k file d1 = Some (n, d2) -> counted R d2.
Proof.
  intros [_ Hc] Hn Hf HR [= <- <-]. split; [done|]. simpl. rewrite Hf.
  apply Forall_fmap. eapply Forall_impl; [exact Hc|]. intros f Hr%HR. simpl.
  change (active_refs ?g (d1 <| file_locations := _ |>)) with (active_refs g d1).
  destruct (decide (file_hash f = file)); simpl; [done|by rewrite Z.add_0_r in Hr].
Qed.

Lemma active_refs_perm d d' g :
  active_keys d' ≡ₚ active_keys d -> active_refs g d' = active_refs g d.
Proof. intros Hp. rewrite !active_refs_keys. unfold len. by rewrite Hp. Qed.

Lemma active_refs_cons file ns doc d d' g :
  active_keys d' ≡ₚ (file, ns, doc) :: active_keys d ->
  active_refs g d' = active_refs g d + if decide (g = file) then 1 else 0.
Proof. intros Hp. rewrite !active_refs_keys, <- (len_of_file_cons file ns doc). unfold len. by rewrite Hp. Qed.

Lemma counted_increment (R : Z -> Z -> Prop) now file ns doc d n d1 m d2 :
  (forall a c, R a c -> R (a + 1) (c + 1)) ->
  (file, ns, doc) ∉ active_keys d \/ (forall a c, R a c -> R a (c + 1)) ->
  counted R d -> upsert_ref now file ns doc d = Some (n, d1) -> add_to_count 1 file d1 = Some (m, d2) ->
  counted R d2.
Proof.
  intros H1 Hor Hc (Hn & Hf & Hk)%upsert_ref_spec; [|apply Hc].
  eapply counted_add; [exact Hc|done..|]. intros g c Hr.
  destruct (decide _) in Hk.
  - rewrite (active_refs_perm _ _ _ Hk). destruct Hor as [?|H2]; [done|].
    case_decide; [by apply H2|by rewrite Z.add_0_r].
  - rewrite (active_refs_cons _ _ _ _ _ _ Hk). case_decide; [by apply H1|by rewrite !Z.add_0_r].
Qed.

Lemma counted_unchanged (R : Z -> Z -> Prop) d d' :
  counted R d -> NoDup (ref_key <$> content_refs d') -> file_locations d' = file_locations d ->
  (forall g c, R (active_refs g d) c -> R (active_refs g d') c) -> counted R d'.
Proof.
  intros [_ Hc] Hn Hf HR. split; [done|]. rewrite Hf. eapply Forall_impl; [exact Hc|]. intros f. apply HR.
Qed.

(** One reference less, the count as it was. *)
Lemma covered_soft_delete file ns doc d n d1 :
  covered d -> soft_delete_ref file ns doc d = Some (n, d1) -> covered d1.
Proof.
  intros Hc (Hn & Hf & Hk)%soft_delete_ref_spec; [|apply Hc].
  eapply counted_unchanged; [exact Hc|done..|]. intros g c Hr. case_decide.
  - destruct Hk as [_ Hk]. rewrite (active_refs_cons _ _ _ _ _ _ Hk) in Hr. case_decide; lia.
  - by destruct Hk as [_ ->].
Qed.

Lemma counted_decrement (R : Z -> Z -> Prop) file ns doc d n d1 m d2 :
  (forall a c, R (a + 1) c -> R a (c - 1)) -> 0 < n ->
  counted R d -> soft_delete_ref file ns doc d = Some (n, d1) -> add_to_count (-1) file d1 = Some (m, d2) ->
  counted R d2.
Proof.
  intros H1 Hpos Hc (Hn & Hf & Hk)%soft_delete_ref_spec; [|apply Hc].
  eapply counted_add; [exact Hc|done..|]. intros g c Hr.
  case_decide; [|destruct Hk; lia]. destruct Hk as [_ Hk].
  rewrite (active_refs_cons _ _ _ _ _ _ Hk) in Hr.
  case_decide; [by apply H1|by rewrite Z.add_0_r in *].
Qed.

(** ** Transactions on a calm connection *)

(** What is committed satisfies [I], and SQLite ends no transaction by itself. *)
Definition keeps (I : Db -> Prop) (c : Conn Db) : Prop := calm c /\ I (committed c).

Section Transactions.
Context (errmsg : string) (d0 : Db).

(** In the transaction that began with [d0]. *)
Definition inside (d : Db) (c : Conn Db) : Prop := calm c /\ saved c = Some d0 /\ data c = d.

(** The transaction is gone or stuck: [d0] is still what is committed. *)
Definition outside (c : Conn Db) : Prop := calm c /\ committed c = d0.

Lemma inside_outside d c : inside d c -> outside c.
Proof. intros (? & Hs & _). split; [done|]. unfold committed. by rewrite Hs. Qed.

Lemma roll_back_outside c : outside c -> outside (ROLLBACK c).
Proof. intros [Hm Hd]. split; [by apply calm_ROLLBACK|by rewrite committed_ROLLBACK]. Qed.

Lemma run_inside f p q c r c' d :
  run errmsg f p q c = (r, c') -> inside d c ->
  match r with inl _ => outside c' | inr n => exists d', f d = Some (n, d') /\ inside d' c' end.
Proof.
  unfold run. destruct (change f c) as [ch c1] eqn:Hc. intros Hr (Hm & Hs & Hd).
  apply calm_change_cases in Hc as (Hm1 & Hs1 & Hch); [|done]. rewrite Hs in Hs1. subst d.
  assert (outside c1) as Ho by (split; [done|]; unfold committed; by rewrite Hs1).
  destruct ch; simplify_eq; try by apply roll_back_outside. by eexists.
Qed.

Lemma select_inside {A} (f : Db -> list A) c r c' d :
  select f c = (r, c') -> inside d c -> inside d c'.
Proof.
  intros Hs (Hm & ? & ?). apply calm_select in Hs as (? & Hd & Hs'); [|done].
  split; [done|]. by rewrite Hd, Hs'.
Qed.

Lemma commit_inside c e c' d :
  commit c = (e, c') -> inside d c ->
  match e with None => calm c' /\ saved c' = None /\ data c' = d | Some _ => outside c' end.
Proof.
  unfold commit. destruct (COMMIT c) as [b c1] eqn:Hc. intros Hr (Hm & Hs & Hd).
  apply calm_COMMIT in Hc as (Hm1 & Hd1 & Hs1); [|done|].
  2: { unfold in_transaction. rewrite Hs. by apply bool_decide_eq_true. }
  destruct b; simplify_eq; [done|]. apply roll_back_outside. split; [done|].
  unfold committed. by rewrite Hs1, Hs.
Qed.
End Transactions.

Lemma begin_inside c b c' :
  BEGIN c = (b, c') -> calm c -> if b then inside (committed c) (committed c) c' else outside (committed c) c'.
Proof.
  intros Hb Hm. apply calm_BEGIN_cases in Hb as (Hm' & Hd & Hs); [|done].
  destruct b.
  - destruct Hs as [Hn Hs]. unfold committed. rewrite Hn. done.
  - split; [done|]. unfold committed. by rewrite Hs, Hd.
Qed.

Lemma outside_keeps I d c : outside d c -> I d -> keeps I c.
Proof. intros [? <-] ?. done. Qed.

Lemma idle_keeps (I : Db -> Prop) d c : calm c /\ saved c = None /\ data c = d -> I d -> keeps I c.
Proof. intros (? & Hs & <-) ?. split; [done|]. unfold committed. by rewrite Hs. Qed.

(** ** The calls keep the counts above the references *)

Section Calls.
Context `{Planner} (errmsg : string).

Lemma IncrementRef_keeps now file ns doc c :
  keeps covered c -> keeps covered (IncrementRef errmsg now file ns doc c).2.
Proof.
  intros [Hm Hd]. unfold IncrementRef. destruct (BEGIN c) as [b c1] eqn:Hb.
  apply begin_inside in Hb; [|done]. destruct b; simpl; [|by eapply outside_keeps].
  destruct (select _ c1) as [rows c2] eqn:Hs. eapply select_inside in Hs; [|exact Hb].
  destruct (first_row rows) as [[r|]|]; simpl.
  - destruct (commit c2) as [e c3] eqn:Hc. eapply commit_inside in Hc; [|exact Hs].
    destruct e; simpl; [by eapply outside_keeps|by eapply idle_keeps].
  - destruct (run _ _ _ _ c2) as [r c3] eqn:Hr. eapply run_inside in Hr; [|exact Hs].
    destruct r as [e|n]; simpl; [by eapply outside_keeps|]. destruct Hr as (d1 & Hu & Hi).
    destruct (run _ _ _ _ c3) as [r c4] eqn:Hr. eapply run_inside in Hr; [|exact Hi].
    destruct r as [e|m]; simpl; [by eapply outside_keeps|]. destruct Hr as (d2 & Ha & Hi2).
    destruct (commit c4) as [e c5] eqn:Hc. eapply commit_inside in Hc; [|exact Hi2].
    destruct e; simpl; [by eapply outside_keeps|]. eapply idle_keeps; [exact Hc|].
    eapply counted_increment; [| |exact Hd|exact Hu|exact Ha]; [intros; lia|right; intros; lia].
  - eapply outside_keeps; [|exact Hd]. by eapply roll_back_outside, inside_outside.
Qed.

Lemma decrement_count_inside d0 file d c e c' :
  decrement_count errmsg file c = (e, c') -> inside d0 d c ->
  match e with
  | Some _ => outside d0 c'
  | None => inside d0 d c' \/ exists n d', add_to_count (-1) file d = Some (n, d') /\ inside d0 d' c'
  end.
Proof.
  unfold decrement_count, current_count. destruct (select _ c) as [rows c1] eqn:Hs.
  intros He Hi. eapply select_inside in Hs; [|exact Hi]. revert He.
  generalize (match first_row rows with Some (Some n) => n | _ => -1 end). intros current.
  case_match; [intros [= <- <-]; by eapply roll_back_outside, inside_outside|].
  case_match; [|intros [= <- <-]; by left].
  destruct (run _ _ _ _ c1) as [r c2] eqn:Hr. eapply run_inside in Hr; [|exact Hs].
  intros [= <- <-]. destruct r as [|n]; [done|]. right. destruct Hr as (d' & ? & ?). eauto.
Qed.

Lemma DecrementRef_keeps file ns doc c :
  keeps covered c -> keeps covered (DecrementRef errmsg file ns doc c).2.
Proof.
  intros [Hm Hd]. unfold DecrementRef. destruct (BEGIN c) as [b c1] eqn:Hb.
  apply begin_inside in Hb; [|done]. destruct b; simpl; [|by eapply outside_keeps].
  destruct (run _ _ _ _ c1) as [r c2] eqn:Hr. eapply run_inside in Hr; [|exact Hb].
  destruct r as [e|n]; simpl; [by eapply outside_keeps|]. destruct Hr as (d1 & Hu & Hi).
  assert (covered d1) as Hd1 by by eapply covered_soft_delete.
  destruct (if 0 <? n then _ else _) as [e c3] eqn:He.
  assert (match e with Some _ => outside (committed c) c3
          | None => exists d2, covered d2 /\ inside (committed c) d2 c3 end) as H3.
  { destruct (Z.ltb_spec 0 n); [|simplify_eq; eauto].
    eapply decrement_count_inside in He; [|exact Hi]. destruct e; [done|].
    destruct He as [?|(m & d2 & Ha & ?)]; [eauto|]. exists d2. split; [|done].
    eapply counted_decrement; [| |exact Hd|exact Hu|exact Ha]; [intros; lia|done]. }
  destruct e; simpl; [by eapply outside_keeps|]. destruct H3 as (d2 & Hd2 & Hi2).
  destruct (commit c3) as [e c4] eqn:Hc. eapply commit_inside in Hc; [|exact Hi2].
  destruct e; simpl; [by eapply outside_keeps|].
  unfold GetRefCountLocked. destruct (select _ c4) as [rows c5] eqn:Hs.
  destruct Hc as (Hm4 & Hs4 & Hd4).
  apply calm_select in Hs as (? & Hd5 & Hs5); [|done]. eapply idle_keeps; [|exact Hd2].
  split; [done|]. simpl. by rewrite Hd5, Hs5.
Qed.

Lemma select_keeps {A} (f : Db -> list A) I c r c' : select f c = (r, c') -> keeps I c -> keeps I c'.
Proof.
  intros Hs [Hm Hi]. pose proof (committed_select _ _ _ _ Hs) as He.
  apply calm_select in Hs as [? _]; [|done]. split; [done|by rewrite He].
Qed.

(** On an idle connection no candidate has a reference left. *)
Lemma candidates_unreferenced before c l c' :
  keeps covered c -> saved c = None -> GetGCCandidates errmsg before c = (Value l, c') ->
  Forall (fun file => active_refs file (data c) = 0) l.
Proof.
  intros [_ Hd] Hs. unfold GetGCCandidates. destruct (select _ c) as [rows c1] eqn:Hsel.
  apply select_cases in Hsel as [_ Hrows]. unfold committed in Hd. rewrite Hs in Hd. simpl in Hd.
  assert (Forall (fun file => active_refs file (data c) = 0)
            (file_hash <$> scan (filter (gc_candidate before) (file_locations (data c))))) as Hall.
  { apply Forall_fmap. rewrite scan_perm. apply Forall_forall. intros f [(Hz & _) Hin]%list_elem_of_filter.
    destruct Hd as [_ Hc]. rewrite Forall_forall in Hc. specialize (Hc f Hin). simpl in *.
    pose proof (active_refs_nonneg (file_hash f) (data c)). lia. }
  destruct rows as [[l' b]|]; intros [= <- <-]. destruct b.
  - by destruct Hrows as [-> _].
  - destruct Hrows as [k ->]. by apply Forall_take.
Qed.

End Calls.

(** ** Without faults the store is a set of triples *)

Section Exact.
Context `{Planner} (errmsg : string).

Definition exact : Db -> Prop := counted eq.
Definition triples (d : Db) : gset (string * string * string) := list_to_set (active_keys d).
Definition tracked (file : string) (d : Db) : bool := bool_decide (file ∈ file_hash <$> file_locations d).

Lemma triples_size file d :
  NoDup (ref_key <$> content_refs d) -> Z.of_nat (size (filter (of_file file) (triples d))) = active_refs file d.
Proof.
  intros Hn%active_keys_NoDup. rewrite active_refs_keys. unfold triples, len. f_equal.
  rewrite <- (size_list_to_set (C := gset _)) by by apply NoDup_filter.
  f_equal. apply set_eq. intros k. by rewrite elem_of_filter, !elem_of_list_to_set, list_elem_of_filter.
Qed.

(** The probe of [IncrementRef]. *)
Lemma probe_none file ns doc d :
  head (take 1 (scan (filter (fun r => ref_key r = (file, ns, doc) /\ active r) (content_refs d)))) = None <->
  (file, ns, doc) ∉ active_keys d.
Proof.
  set (l := filter _ _). assert (head (take 1 (scan l)) = None <-> l = []) as ->.
  { pose proof (scan_perm l) as Hp. destruct (scan l) as [|x k]; simpl.
    - apply Permutation_nil_l in Hp. by rewrite Hp.
    - split; [done|]. intros ->. by apply Permutation_nil_r in Hp. }
  unfold active_keys, keys_of. split.
  - intros Hl (r & Hr & [Ha Hin]%list_elem_of_filter)%list_elem_of_fmap.
    by eapply (filter_nil_not_elem_of _ _ _ Hl); [split; [symmetry; exact Hr|exact Ha]|exact Hin].
  - intros Hk. apply filter_none, Forall_forall. intros r Hin [Hr Ha]. apply Hk.
    rewrite <- Hr. by apply list_elem_of_fmap_2, list_elem_of_filter.
Qed.

Lemma hashes_add k file d n d' :
  add_to_count k file d = Some (n, d') ->
  file_hash <$> file_locations d' = file_hash <$> file_locations d /\ content_refs d' = content_refs d.
Proof.
  intros [= <- <-]. simpl. split; [|done]. rewrite <- list_fmap_compose. apply list_fmap_ext.
  intros i f _. simpl. by case_decide.
Qed.

Lemma soft_delete_len file ns doc d n d' :
  soft_delete_ref file ns doc d = Some (n, d') -> len (content_refs d') = len (content_refs d).
Proof. intros [= _ <-]. simpl. apply len_fmap. Qed.

Lemma upsert_len now file ns doc d n d' :
  upsert_ref now file ns doc d = Some (n, d') -> len (content_refs d') <= len (content_refs d) + 1.
Proof. unfold upsert_ref. simpl. case_match; intros [= <- <-]; simpl; slen. Qed.

Lemma run_ok f p q d s n d' :
  f d = Some (n, d') -> run errmsg f p q (MkConn d s []) = (inr n, MkConn d' s []).
Proof. intros Hf. unfold run, change. simpl. by rewrite Hf. Qed.

Lemma IncrementRef_exact now file ns doc d :
  exact d ->
  exists d', IncrementRef errmsg now file ns doc (MkConn d None []) = (Status_Ok, MkConn d' None []) /\
    exact d' /\ triples d' = {[(file, ns, doc)]} ∪ triples d /\
    len (content_refs d') <= len (content_refs d) + 1 /\
    file_hash <$> file_locations d' = file_hash <$> file_locations d.
Proof.
  intros Hd. unfold IncrementRef. simpl. unfold first_row. simpl.
  destruct (head _) as [r|] eqn:Hh.
  - exists d. split; [done|]. split; [done|]. split; [|split; [lia|done]].
    assert ((file, ns, doc) ∈ active_keys d) as Hk.
    { apply dec_stable. intros Hk%probe_none. congruence. }
    unfold triples. set_solver.
  - apply probe_none in Hh. destruct (upsert_ref now file ns doc d) as [[n d1]|] eqn:Hu.
    2: { unfold upsert_ref in Hu. simpl in Hu. by case_match. }
    destruct (add_to_count 1 file d1) as [[m d2]|] eqn:Ha; [|done].
    exists d2. split.
    { change (MkConn d None [] <| saved := Some d |>) with (MkConn d (Some d) []).
      rewrite (run_ok _ _ _ _ _ _ _ Hu). cbv iota beta. by rewrite (run_ok _ _ _ _ _ _ _ Ha). }
    split; [eapply counted_increment; [| |exact Hd|exact Hu|exact Ha]; [intros; lia|by left]|].
    pose proof (upsert_len _ _ _ _ _ _ _ Hu) as Hlen.
    apply upsert_ref_spec in Hu as (Hn & Hf & Hk); [|apply Hd]. rewrite decide_False in Hk by done.
    apply hashes_add in Ha as [Hh2 Hr2]. split; [|split; [by rewrite Hr2|by rewrite Hh2, Hf]].
    unfold triples, active_keys in *. rewrite Hr2. apply set_eq. intros k.
    rewrite elem_of_list_to_set, Hk. set_solver.
Qed.

(** The count that is read for a file. *)
Lemma counts_of_head file d :
  exact d -> active_refs file d < 2 ^ 31 ->
  head (counts_of file d) = if tracked file d then Some (active_refs file d) else None.
Proof.
  intros [_ Hc] Hb. unfold counts_of, tracked. case_bool_decide as Ht.
  - destruct (filter _ _) as [|f l] eqn:Hf.
    { apply list_elem_of_fmap in Ht as (f & -> & Hin). by destruct (filter_nil_not_elem_of _ _ f Hf). }
    assert (f ∈ filter (fun f => file_hash f = file) (file_locations d)) as [Hh Hin]%list_elem_of_filter
      by (rewrite Hf; set_solver).
    simpl. f_equal. rewrite Forall_forall in Hc. rewrite <- (Hc f Hin), Hh.
    pose proof (active_refs_nonneg file d). unfold i32. rewrite Z.mod_small; lia.
  - rewrite filter_none; [done|]. apply Forall_forall. intros f Hin E. apply Ht.
    rewrite <- E. by apply list_elem_of_fmap_2.
Qed.

Lemma active_refs_len file d : active_refs file d <= len (content_refs d).
Proof. unfold active_refs, len. pose proof (length_filter (fun r => r_file_hash r = file /\ active r) (content_refs d)). lia. Qed.

Lemma tracked_hashes file d d' :
  file_hash <$> file_locations d' = file_hash <$> file_locations d -> tracked file d' = tracked file d.
Proof. unfold tracked. by intros ->. Qed.

(** The count that a call ends with. *)
Lemma GetRefCount_exact file d s :
  exact d -> len (content_refs d) < 2 ^ 31 ->
  GetRefCountLocked errmsg file (MkConn d s [])
  = (Value (if tracked file d then Z.of_nat (size (filter (of_file file) (triples d))) else 0), MkConn d s []).
Proof.
  intros Hd Hb. unfold GetRefCountLocked, select. simpl.
  pose proof (active_refs_len file d). rewrite counts_of_head, triples_size; [|apply Hd|done|lia].
  by destruct (tracked file d).
Qed.

Lemma BEGIN_ok (d : Db) : BEGIN (MkConn d None []) = (true, MkConn d (Some d) []).
Proof. done. Qed.

Lemma commit_ok (d s : Db) : commit (MkConn d (Some s) []) = (None, MkConn d None []).
Proof. done. Qed.

Lemma current_count_ok file d s :
  current_count file (MkConn d s []) = (default (-1) (head (counts_of file d)), MkConn d s []).
Proof. done. Qed.

(** The aggregate of a file after one of its references was retired. *)
Lemma decrement_count_exact file ns doc d d1 :
  exact d -> len (content_refs d) < 2 ^ 31 -> soft_delete_ref file ns doc d = Some (1, d1) ->
  exists d', decrement_count errmsg file (MkConn d1 (Some d) []) = (None, MkConn d' (Some d) []) /\
    exact d' /\ content_refs d' = content_refs d1 /\
    file_hash <$> file_locations d' = file_hash <$> file_locations d.
Proof.
  intros Hd Hb Hu. pose proof Hu as (Hn & Hf & Hk)%soft_delete_ref_spec; [|apply Hd].
  destruct (decide _) in Hk; [|by destruct Hk]. destruct Hk as [_ Hk].
  pose proof (active_refs_cons _ _ _ _ _ file Hk) as Hone. rewrite decide_True in Hone by done.
  pose proof (active_refs_nonneg file d1) as Hpos. pose proof (active_refs_len file d).
  pose proof (counts_of_head file d Hd ltac:(lia)) as Hh.
  unfold decrement_count. rewrite current_count_ok.
  replace (counts_of file d1) with (counts_of file d) by (unfold counts_of; by rewrite Hf).
  rewrite Hh. unfold tracked. case_bool_decide as Ht; cbv beta iota delta [from_option id].
  - rewrite (proj2 (Z.eqb_neq _ _)), (proj2 (Z.ltb_lt _ _)) by lia.
    destruct (add_to_count (-1) file d1) as [[m d2]|] eqn:Ha; [|done].
    exists d2. pose proof (hashes_add _ _ _ _ _ Ha) as [Hh2 Hr2].
    split; [by rewrite (run_ok _ _ _ _ _ _ _ Ha)|]. split; [|by rewrite Hr2, Hh2, Hf].
    eapply counted_decrement; [| |exact Hd|exact Hu|exact Ha]; [intros; lia|lia].
  - exists d1. split; [done|]. split; [|by rewrite Hf]. split; [done|]. rewrite Hf. destruct Hd as [_ Hc].
    rewrite Forall_forall in *. intros f Hin. rewrite <- (Hc f Hin).
    rewrite (active_refs_cons _ _ _ _ _ _ Hk), decide_False; [lia|]. intros E. apply Ht.
    rewrite <- E. by apply list_elem_of_fmap_2.
Qed.

Lemma DecrementRef_exact file ns doc d :
  exact d -> len (content_refs d) < 2 ^ 31 ->
  exists d', DecrementRef errmsg file ns doc (MkConn d None [])
      = (Value (if tracked file d then Z.of_nat (size (filter (of_file file) (triples d'))) else 0),
         MkConn d' None []) /\
    exact d' /\ triples d' = triples d ∖ {[(file, ns, doc)]} /\
    len (content_refs d') = len (content_refs d) /\
    file_hash <$> file_locations d' = file_hash <$> file_locations d.
Proof.
  intros Hd Hb. unfold DecrementRef. rewrite BEGIN_ok. cbn [negb].
  destruct (soft_delete_ref file ns doc d) as [[n d1]|] eqn:Hu; [|done].
  rewrite (run_ok _ _ _ _ _ _ _ Hu). cbv iota beta.
  pose proof (soft_delete_len _ _ _ _ _ _ Hu) as Hlen.
  pose proof Hu as (Hn & Hf & Hk)%soft_delete_ref_spec; [|apply Hd].
  destruct (decide _) as [Hin|Hin] in Hk; destruct Hk as [-> Hk].
  - destruct (decrement_count_exact _ _ _ _ _ Hd Hb Hu) as (d2 & He & Hd2 & Hr2 & Hh2).
    change (0 <? 1) with true. cbv iota beta. rewrite He.
    exists d2. cbv iota beta. rewrite commit_ok. cbv iota beta.
    rewrite GetRefCount_exact, (tracked_hashes _ _ _ Hh2) by (first [done | rewrite Hr2; lia]).
    split; [done|]. split; [done|]. split; [|by rewrite Hr2].
    unfold triples, active_keys in *. rewrite Hr2.
    assert ((file, ns, doc) ∉ keys_of (content_refs d1)) as Hnew.
    { pose proof (active_keys_NoDup d (proj1 Hd)) as Hnd. unfold active_keys in Hnd.
      rewrite Hk in Hnd. by apply NoDup_cons in Hnd as [? _]. }
    apply set_eq. intros k. rewrite elem_of_difference, !elem_of_list_to_set, Hk. set_solver.
  - subst d1. exists d. change (0 <? 0) with false. cbv iota beta. rewrite commit_ok. cbv iota beta.
    rewrite GetRefCount_exact by done. split; [done|]. split; [done|]. split; [|done].
    unfold triples, active_keys in *. set_solver.
Qed.

(** A call of the store, and what it does to a set of triples. *)
Inductive call :=
| Increment (now : Z) (file ns doc : string)
| Decrement (file ns doc : string).

Definition perform (k : call) (c : Conn Db) : (Status + Result Z) * Conn Db :=
  match k with
  | Increment now file ns doc => let '(s, c) := IncrementRef errmsg now file ns doc c in (inl s, c)
  | Decrement file ns doc => let '(r, c) := DecrementRef errmsg file ns doc c in (inr r, c)
  end.

Definition specified (tracks : string -> bool) (k : call) (S : gset (string * string * string))
    : (Status + Result Z) * gset (string * string * string) :=
  match k with
  | Increment _ file ns doc => (inl Status_Ok, {[(file, ns, doc)]} ∪ S)
  | Decrement file ns doc =>
      let S := S ∖ {[(file, ns, doc)]} in
      (inr (Value (if tracks file then Z.of_nat (size (filter (of_file file) S)) else 0)), S)
  end.

Fixpoint run_calls {S} (f : call -> S -> (Status + Result Z) * S) (ks : list call) (s : S)
    : list (Status + Result Z) * S :=
  match ks with
  | [] => ([], s)
  | k :: ks => let '(r, s) := f k s in let '(rs, s) := run_calls f ks s in (r :: rs, s)
  end.

Lemma perform_exact k d :
  exact d -> len (content_refs d) < 2 ^ 31 ->
  exists d', perform k (MkConn d None []) = ((specified (fun g => tracked g d) k (triples d)).1, MkConn d' None []) /\
    exact d' /\ triples d' = (specified (fun g => tracked g d) k (triples d)).2 /\
    len (content_refs d') <= len (content_refs d) + 1 /\
    file_hash <$> file_locations d' = file_hash <$> file_locations d.
Proof.
  intros Hd Hb. destruct k as [now file ns doc|file ns doc]; simpl.
  - destruct (IncrementRef_exact now file ns doc d Hd) as (d' & -> & He & Ht & Hl & Hh).
    exists d'. done.
  - destruct (DecrementRef_exact file ns doc d Hd Hb) as (d' & -> & He & Ht & Hl & Hh).
    exists d'. rewrite <- Ht. split; [done|]. split; [done|]. split; [done|]. split; [lia|done].
Qed.

(** C30: Without faults the store of references is a set of (file, namespace,
    document) triples.  For any sequence of [IncrementRef] and [DecrementRef] from
    tables whose aggregates agree with their active references, every call
    answers what the set says - [IncrementRef] succeeds, [DecrementRef] answers how
    many triples of the file are left when the file has a row and 0 otherwise,
    never CX_ERR_REF_COUNT_NEGATIVE - and afterwards the active rows are the
    triples of the set, no transaction is open and the aggregates agree again. *)
Theorem Refs_refine_set ks d :
  exact d -> len (content_refs d) + len ks <= 2 ^ 31 ->
  exists d', run_calls perform ks (MkConn d None [])
      = ((run_calls (specified (fun g => tracked g d)) ks (triples d)).1, MkConn d' None []) /\
    triples d' = (run_calls (specified (fun g => tracked g d)) ks (triples d)).2 /\ exact d'.
Proof.
  revert d. induction ks as [|k ks IH]; intros d Hd Hb; [by exists d|].
  rewrite len_cons in Hb. pose proof (len_nonneg ks).
  destruct (perform_exact k d Hd ltac:(lia)) as (d1 & Hp & Hd1 & Ht & Hl & Hh).
  destruct (IH d1 Hd1 ltac:(lia)) as (d' & Hr & Ht' & Hd'). exists d'. cbn [run_calls].
  rewrite Hp, Hr. destruct (specified _ k (triples d)) as [r S]. simpl in *. subst S.
  assert (forall S ks, run_calls (specified (fun g => tracked g d1)) ks S
                  = run_calls (specified (fun g => tracked g d)) ks S) as Hs.
  { intros S l. revert S. induction l as [|k' l IHl]; intros S; [done|]. cbn [run_calls].
    destruct k' as [|g ? ?]; cbn [specified]; rewrite ?(tracked_hashes g _ _ Hh), IHl; done. }
  rewrite Hs in *. by destruct (run_calls _ ks (triples d1)).
Qed.

End Exact.

(** One file with one reference: a second one, and both removed again. *)
Lemma Refs_refine_set_witness :
  exists d', run_calls (perform "msg") [Increment 5 "f" "ns" "d2"; Decrement "f" "ns" "d1"; Decrement "f" "ns" "d2"]
      (MkConn (MkDb [MkFileLocation "f" 10 (Some "f") 1 "active" None] [MkContentRef "f" "ns" "d1" "active" 1] [])
         None [])
    = ([inl Status_Ok; inr (Value 1); inr (Value 0)], MkConn d' None []).
Proof.
  edestruct (Refs_refine_set "msg" [Increment 5 "f" "ns" "d2"; Decrement "f" "ns" "d1"; Decrement "f" "ns" "d2"]
    (MkDb [MkFileLocation "f" 10 (Some "f") 1 "active" None] [MkContentRef "f" "ns" "d1" "active" 1] []))
    as (d' & Hr & _).
  - split; [apply NoDup_singleton|]. repeat constructor.
  - vm_compute. discriminate.
  - exists d'. rewrite Hr. by vm_compute.
Defined.
