(* ===== verification/GcManager.v ===== *)
(** * Garbage collection of stored files (src/catalog/gc/gc_manager.cpp)

    [GcManager] deletes for good the file rows that were soft-deleted long ago and
    that nothing references any more (stage 2), which puts their blobs in a
    queue, and has the blobs of the queue unlinked when their time has come
    (stage 3).  It works on the tables of ContentRefs.v over the same connection
    as the store of references, under a mutex of its own.  The blob store is
    reached through [IBlobGcSink]; the clock is a sequence of readings. *)
From Stdlib Require Import Ascii String.
From stdpp Require Import gmap strings.
From S2P Require Import Prelude Status Sqlite NsRouter ContentRefs.

(** Deletion of one blob; an absent one is no error. *)
Class IBlobGcSink (B : Type) := Unlink : string -> B -> Status * B.

Module GcManager.
Import Sqlite NsRouter ContentRefs.

Record GcConfig := MkGcConfig {
  soft_delete_retention_days : Z;
  blob_gc_retention_days : Z;
  max_purge_per_run : Z;
  max_run_duration_minutes : Z;
  dry_run : bool
}.

Record GcStatusSnapshot := MkGcStatusSnapshot {
  s_running : bool;
  soft_deleted_count : Z;
  reclaimable_bytes : Z;
  s_last_gc_at_ms : option Z
}.

Record GcRunReport := MkGcRunReport {
  hard_deleted : Z;
  blobs_unlinked : Z;
  hit_run_cap : bool
}.

Record RestoreOutcome := MkRestoreOutcome {
  succeeded : list string;
  failed : list (string * string)
}.

(** The manager, with what it borrows: the connection and the sink ([None] for a
    null pointer).  [ticks] counts the readings of the clock so far. *)
Record GcManager (B : Type) := MkGcManager {
  conn : Conn Db;
  sink_ : option B;
  running_ : bool;
  last_gc_at_ms_ : option Z;
  ticks : nat
}.
#[global] Arguments MkGcManager {B}.
#[global] Arguments conn {B}.
#[global] Arguments sink_ {B}.
#[global] Arguments running_ {B}.
#[global] Arguments last_gc_at_ms_ {B}.
#[global] Arguments ticks {B}.

#[export] Instance GcManager_eta {B} : Eta (GcManager B) := fun g =>
  MkGcManager (conn g) (sink_ g) (running_ g) (last_gc_at_ms_ g) (ticks g).

Definition DaysToMs (days : Z) : Z := days * 24 * 3600 * 1000.

(** ** Statements *)

(** The row is soft-deleted since [cutoff] or longer, and no active reference of
    the file is left. *)
Definition stage2_row (cutoff : Z) (d : Db) (f : FileLocation) : Prop :=
  f_status f = "deleted"%string /\ from_option (fun t => t <= cutoff) False (deleted_at f) /\
  active_refs (file_hash f) d = 0.
#[export] Instance stage2_row_dec cutoff d f : Decision (stage2_row cutoff d f).
Proof. unfold stage2_row. destruct (deleted_at f); simpl; apply _. Defined.

(** INSERT INTO blob_gc_queue ... ON CONFLICT(blob_uri) DO NOTHING. *)
Definition enqueue (q : BlobGcRow) (d : Db) : option (Z * Db) :=
  if existsb (fun r => bool_decide (q_blob_uri r = q_blob_uri q)) (blob_gc_queue d) then Some (0, d)
  else Some (1, d <| blob_gc_queue := blob_gc_queue d ++ [q] |>).

(** DELETE FROM content_refs WHERE file_hash=? AND status='deleted'. *)
Definition delete_refs (file : string) (d : Db) : option (Z * Db) :=
  let gone r := r_file_hash r = file /\ deleted r in
  Some (len (filter gone (content_refs d)),
        d <| content_refs := filter (fun r => ~ (r_file_hash r = file /\ deleted r)) (content_refs d) |>).

(** DELETE FROM file_locations WHERE file_hash=?. *)
Definition delete_file (file : string) (d : Db) : option (Z * Db) :=
  Some (len (filter (fun f => file_hash f = file) (file_locations d)),
        d <| file_locations := filter (fun f => file_hash f <> file) (file_locations d) |>).

(** UPDATE blob_gc_queue SET status='unlinked' WHERE blob_uri=?. *)
Definition mark_unlinked (uri : string) (d : Db) : option (Z * Db) :=
  let '(n, q) := update_where (fun q => q_blob_uri q = uri) (fun q => q <| q_status := "unlinked"%string |>)
                   (blob_gc_queue d) in
  Some (n, d <| blob_gc_queue := q |>).

(** UPDATE content_refs SET status='active' WHERE file_hash=? AND doc_id=? AND
    status='deleted'. *)
Definition reactivate_refs (file doc : string) (d : Db) : option (Z * Db) :=
  let '(n, refs) := update_where (fun r => r_file_hash r = file /\ r_doc_id r = doc /\ deleted r)
                      (fun r => r <| r_status := "active"%string |>) (content_refs d) in
  Some (n, d <| content_refs := refs |>).

(** UPDATE file_locations SET status='active', deleted_at=NULL, ref_count=the
    number of active references. *)
Definition reactivate_file (file : string) (d : Db) : option (Z * Db) :=
  let '(n, files) := update_where (fun f => file_hash f = file)
                       (fun f => MkFileLocation (file_hash f) (size_bytes f) (blob_uri f)
                                   (active_refs file d) "active" None) (file_locations d) in
  Some (n, d <| file_locations := files |>).

Section Manager.
Context `{Planner} {B : Type} `{IBlobGcSink B} (errmsg : string) (clock : nat -> Z) (config : GcConfig).
Implicit Types g : GcManager B.

Definition NowMs g : Z * GcManager B := (clock (ticks g), g <| ticks := S (ticks g) |>).

Definition on_conn {A} (f : Conn Db -> A * Conn Db) g : A * GcManager B :=
  let '(a, c) := f (conn g) in (a, g <| conn := c |>).
Definition roll_back g : GcManager B := g <| conn := ROLLBACK (conn g) |>.

Definition internal (msg : string) : Status := Status_Internal ("CX_ERR_GC_INTERNAL: " +:+ msg).

(** A statement of a transaction: [Some] error after rolling back. *)
Definition statement (f : Db -> option (Z * Db)) (prepare failed : string) g : option Status * GcManager B :=
  let '(r, g) := on_conn (change f) g in
  match r with
  | PrepareFailed => (Some (internal (prepare +:+ errmsg)), roll_back g)
  | StepFailed _ => (Some (internal failed), roll_back g)
  | Changes _ => (None, g)
  end.

(** [done >= cap || NowMs() >= deadline_ms]: the clock is read when the cap is not
    reached. *)
Definition run_over (done deadline : Z) g : bool * GcManager B :=
  if max_purge_per_run config <=? done then (true, g)
  else let '(t, g) := NowMs g in (deadline <=? t, g).

(** ** Stage 2 *)

(** [INSERT INTO blob_gc_queue] of a candidate that has a blob. *)
Definition enqueue_candidate (bypass_windows : bool) (file uri : string) g : option Status * GcManager B :=
  if bool_decide (uri = ""%string) then (None, g) else
  let '(t, g) := NowMs g in
  let eligible_at := if bypass_windows then t else t + DaysToMs (blob_gc_retention_days config) in
  let '(n, g) := NowMs g in
  statement (enqueue (MkBlobGcRow uri file n eligible_at n "pending")) "enqueue prepare: " "enqueue failed" g.

(** The transaction of one candidate. *)
Definition purge_file (bypass_windows : bool) (file uri : string) g : option Status * GcManager B :=
  let '(begun, g) := on_conn BEGIN g in
  if negb begun then (Some (internal "stage2 begin failed"), g) else
  let '(e, g) := enqueue_candidate bypass_windows file uri g in
  match e with
  | Some e => (Some e, g)
  | None =>
      let '(e, g) := statement (delete_refs file) "cr delete: " "cr delete failed" g in
      match e with
      | Some e => (Some e, g)
      | None =>
          let '(e, g) := statement (delete_file file) "fl delete: " "fl delete failed" g in
          match e with
          | Some e => (Some e, g)
          | None =>
              let '(ok, g) := on_conn COMMIT g in
              if ok then (None, g) else (Some (internal "stage2 commit failed"), roll_back g)
          end
      end
  end.

Fixpoint purge_files (bypass_windows : bool) (deadline done : Z) (cands : list (string * string)) g
    : (Status + Z * bool) * GcManager B :=
  match cands with
  | [] => (inr (done, false), g)
  | (file, uri) :: cands =>
      let '(over, g) := run_over done deadline g in
      if over then (inr (done, true), g) else
      if dry_run config then purge_files bypass_windows deadline (done + 1) cands g else
      let '(e, g) := purge_file bypass_windows file uri g in
      match e with
      | Some e => (inl e, g)
      | None => purge_files bypass_windows deadline (done + 1) cands g
      end
  end.

Definition stage2_candidates (cutoff : Z) (d : Db) : list (string * string) :=
  (fun f => (file_hash f, default ""%string (blob_uri f))) <$>
    scan (filter (stage2_row cutoff d) (file_locations d)).

(** The number of deleted rows, and whether the run was cut short. *)
Definition Stage2HardDelete (now_ms : Z) (bypass_windows : bool) (deadline : Z) g
    : (Status + Z * bool) * GcManager B :=
  let cutoff := if bypass_windows then now_ms else now_ms - DaysToMs (soft_delete_retention_days config) in
  let '(rows, g) := on_conn (select (stage2_candidates cutoff)) g in
  match rows with
  | None => (inl (internal ("stage2 select: " +:+ errmsg)), g)
  | Some (cands, _) => purge_files bypass_windows deadline 0 cands g
  end.

(** ** Stage 3 *)

Definition unlink (uri : string) g : Status * GcManager B :=
  match sink_ g with
  | None => (Status_Ok, g)
  | Some b => let '(s, b) := Unlink uri b in (s, g <| sink_ := Some b |>)
  end.

(** No transaction is open here: the statement has nothing to roll back. *)
Fixpoint unlink_blobs (deadline done : Z) (uris : list string) g : (Status + Z * bool) * GcManager B :=
  match uris with
  | [] => (inr (done, false), g)
  | uri :: uris =>
      let '(over, g) := run_over done deadline g in
      if over then (inr (done, true), g) else
      if dry_run config then unlink_blobs deadline (done + 1) uris g else
      let '(us, g) := unlink uri g in
      if negb (status_ok us) then unlink_blobs deadline done uris g else
      let '(r, g) := on_conn (change (mark_unlinked uri)) g in
      match r with
      | PrepareFailed => (inl (internal ("stage3 update: " +:+ errmsg)), g)
      | StepFailed _ => (inl (internal "stage3 update failed"), g)
      | Changes _ => unlink_blobs deadline (done + 1) uris g
      end
  end.

Definition stage3_row (now_ms : Z) (bypass_windows : bool) (q : BlobGcRow) : Prop :=
  q_status q = "pending"%string /\ (bypass_windows = true \/ eligible_at q <= now_ms).
#[export] Instance stage3_row_dec now_ms bypass q : Decision (stage3_row now_ms bypass q).
Proof. unfold stage3_row. apply _. Defined.

Definition Stage3BlobGc (now_ms : Z) (bypass_windows : bool) (deadline : Z) g
    : (Status + Z * bool) * GcManager B :=
  let '(rows, g) := on_conn (select (fun d => q_blob_uri <$>
                      scan (filter (stage3_row now_ms bypass_windows) (blob_gc_queue d)))) g in
  match rows with
  | None => (inl (internal ("stage3 select: " +:+ errmsg)), g)
  | Some (uris, _) => unlink_blobs deadline 0 uris g
  end.

(** ** A run *)

Definition RunLocked (bypass_windows : bool) g : (Status + GcRunReport) * GcManager B :=
  let g := g <| running_ := true |> in
  let '(now, g) := NowMs g in
  let deadline := now + max_run_duration_minutes config * 60 * 1000 in
  let '(s2, g) := Stage2HardDelete now bypass_windows deadline g in
  match s2 with
  | inl e => (inl e, g <| running_ := false |>)
  | inr (hard, cap2) =>
      let '(s3, g) := Stage3BlobGc now bypass_windows deadline g in
      let g := g <| running_ := false |> in
      match s3 with
      | inl e => (inl e, g)
      | inr (blobs, cap3) =>
          let '(t, g) := NowMs g in
          (inr (MkGcRunReport hard blobs (cap2 || cap3)), g <| last_gc_at_ms_ := Some t |>)
      end
  end.

Definition RunOnce := RunLocked false.
Definition Purge := RunLocked true.

(** ** Status, restoration and maintenance *)

Definition GetStatus g : (Status + GcStatusSnapshot) * GcManager B :=
  let '(rows, g) := on_conn (select (fun d =>
      [len (filter (fun f => f_status f = "deleted"%string) (file_locations d))])) g in
  match first_row rows with
  | None => (inl (internal ("status count: " +:+ errmsg)), g)
  | Some n =>
      let '(rows, g) := on_conn (select (fun d =>
          [foldr Z.add 0 (size_bytes <$> filter (fun f => f_status f = "deleted"%string /\ ref_count f <= 0)
                            (file_locations d))])) g in
      match first_row rows with
      | None => (inl (internal ("status bytes: " +:+ errmsg)), g)
      | Some b => (inr (MkGcStatusSnapshot (running_ g) (default 0 n) (default 0 b) (last_gc_at_ms_ g)), g)
      end
  end.

(** An UPDATE of a restoration: any failure is remembered, nothing is rolled
    back yet. *)
Definition update_ok (f : Db -> option (Z * Db)) g : bool * GcManager B :=
  let '(r, g) := on_conn (change f) g in
  (match r with Changes _ => true | _ => false end, g).

(** [SELECT file_hash FROM content_refs WHERE doc_id=? LIMIT 1]: [None] when it does
    not prepare, the empty string without a row. *)
Definition file_of_doc (doc : string) g : option string * GcManager B :=
  let '(rows, g) := on_conn (select (fun d => take 1 (r_file_hash <$>
                      scan (filter (fun r => r_doc_id r = doc) (content_refs d))))) g in
  (default ""%string <$> first_row rows, g).

(** One document: [None] when it is restored. *)
Definition restore_doc (doc : string) g : option string * GcManager B :=
  let '(file, g) := file_of_doc doc g in
  match file with
  | None => (Some "CX_ERR_GC_INTERNAL"%string, g)
  | Some file =>
      if bool_decide (file = ""%string) then (Some "CX_ERR_GC_DOC_NOT_FOUND"%string, g) else
      let '(begun, g) := on_conn BEGIN g in
      if negb begun then (Some "CX_ERR_GC_INTERNAL"%string, g) else
      let '(ok, g) := update_ok (reactivate_refs file doc) g in
      let '(ok, g) := if ok then update_ok (reactivate_file file) g else (false, g) in
      let '(ok, g) := if ok then on_conn COMMIT g else (false, g) in
      if ok then (None, g) else (Some "CX_ERR_GC_INTERNAL"%string, roll_back g)
  end.

Fixpoint Restore (doc_ids : list string) g : RestoreOutcome * GcManager B :=
  match doc_ids with
  | [] => (MkRestoreOutcome [] [], g)
  | doc :: doc_ids =>
      let '(e, g) := restore_doc doc g in
      let '(out, g) := Restore doc_ids g in
      (match e with
       | None => MkRestoreOutcome (doc :: succeeded out) (failed out)
       | Some code => MkRestoreOutcome (succeeded out) ((doc, code) :: failed out)
       end, g)
  end.

Definition EnqueueBlob (uri file : string) g : Status * GcManager B :=
  let '(now, g) := NowMs g in
  let '(r, g) := on_conn (change (enqueue (MkBlobGcRow uri file now
                   (now + DaysToMs (blob_gc_retention_days config)) now "pending"))) g in
  (match r with
   | PrepareFailed => internal ("enqueue prepare: " +:+ errmsg)
   | StepFailed _ => internal "enqueue failed"
   | Changes _ => Status_Ok
   end, g).

End Manager.
End GcManager.
