(* ===== verification/MemoryQueue.v ===== *)
(** * The extraction queue of the memory subsystem (src/memory/memory_queue.cpp)

    Interactions wait in a bounded queue for a pool of workers; a failed item is
    queued again until its retries are used up and then goes to the dead-letter
    sink.  The threads interleave at the mutex: [Push], a worker's [Pop], the end
    of a worker's handler call with the requeueing, the two halves of [Stop]
    (before and after it joins the threads) and the starts are the atomic steps.
    The handler runs between two steps of its worker; its answer is open. *)
From S2P Require Import Prelude.

Module MemoryQueue.

Record Config := MkConfig {
  c_worker_count : Z;
  queue_max_size : Z;
  retry_max : Z
}.

Section Queue.
Context {InteractionLog TraceContext : Type}.

(** An item, with the number of the [Push] that accepted it. *)
Record MemoryQueueItem := MkItem {
  ticket : nat;
  interaction : InteractionLog;
  ctx : option TraceContext;
  attempt : Z
}.

#[export] Instance MemoryQueueItem_eta : Eta MemoryQueueItem := fun i =>
  MkItem (ticket i) (interaction i) (ctx i) (attempt i).

(** Where a worker is: in [Pop], in the handler with an item, or returned. *)
Inductive Worker := Waiting | Handling (item : MemoryQueueItem) | Returned.

(** [accepted_] counts the pushes that were accepted, [processed_] and [dead_]
    are the tickets that the two counters counted. *)
Record MemoryQueue := MkQueue {
  config_ : Config;
  queue_ : list MemoryQueueItem;
  stop_ : bool;
  workers_ : list Worker;
  workers_started_ : bool;
  periodic_started_ : bool;
  processed_count_ : Z;
  dead_letter_count_ : Z;
  accepted_ : nat;
  processed_ : list nat;
  dead_ : list MemoryQueueItem
}.

#[export] Instance MemoryQueue_eta : Eta MemoryQueue := fun q =>
  MkQueue (config_ q) (queue_ q) (stop_ q) (workers_ q) (workers_started_ q) (periodic_started_ q)
    (processed_count_ q) (dead_letter_count_ q) (accepted_ q) (processed_ q) (dead_ q).

(** The constructor clamps the configuration. *)
Definition Make (config : Config) : MemoryQueue :=
  MkQueue
    (MkConfig (if c_worker_count config <? 1 then 1 else c_worker_count config)
       (if queue_max_size config =? 0 then 1 else queue_max_size config)
       (if retry_max config <? 0 then 0 else retry_max config))
    [] false [] false false 0 0 0 [] [].

Definition Push (i : InteractionLog) (c : option TraceContext) (q : MemoryQueue) : bool * MemoryQueue :=
  if queue_max_size (config_ q) <=? len (queue_ q) then (false, q)
  else (true, q <| queue_ := queue_ q ++ [MkItem (accepted_ q) i c 0] |>
                <| accepted_ := S (accepted_ q) |>).

Definition Depth (q : MemoryQueue) : Z := len (queue_ q).

(** The number of interactions that were queued; the others are dropped. *)
Fixpoint RunPeriodicScanOnce (pending : list InteractionLog) (q : MemoryQueue) : Z * MemoryQueue :=
  match pending with
  | [] => (0, q)
  | i :: pending =>
      let '(ok, q) := Push i None q in
      let '(enqueued, q) := RunPeriodicScanOnce pending q in
      ((if ok then 1 else 0) + enqueued, q)
  end.

Definition StartWorkers (q : MemoryQueue) : MemoryQueue :=
  if workers_started_ q then q
  else q <| workers_started_ := true |> <| stop_ := false |>
         <| workers_ := workers_ q ++ replicate (Z.to_nat (c_worker_count (config_ q))) Waiting |>.

Definition StartPeriodicScan (q : MemoryQueue) : MemoryQueue :=
  if periodic_started_ q then q
  else q <| periodic_started_ := true |> <| stop_ := false |>.

(** [Pop] of one worker, once its wait ends: an item, or the end of the worker. *)
Definition Pop (q : MemoryQueue) : option (Worker * MemoryQueue) :=
  match queue_ q with
  | item :: rest => Some (Handling item, q <| queue_ := rest |>)
  | [] => if stop_ q then Some (Returned, q) else None
  end.

(** The rest of a turn of [WorkerLoop], once the handler answered [ok]. *)
Definition Finish (item : MemoryQueueItem) (ok : bool) (q : MemoryQueue) : MemoryQueue :=
  let dead item :=
    q <| dead_letter_count_ := u64 (dead_letter_count_ q + 1) |> <| dead_ := dead_ q ++ [item] |> in
  if ok then q <| processed_count_ := u64 (processed_count_ q + 1) |>
               <| processed_ := processed_ q ++ [ticket item] |>
  else if attempt item <? retry_max (config_ q) then
    let item := item <| attempt := attempt item + 1 |> in
    if negb (stop_ q) && (len (queue_ q) <? queue_max_size (config_ q))
    then q <| queue_ := queue_ q ++ [item] |>
    else dead item
  else dead item.

(** [Stop] up to the joins, and after them. *)
Definition StopSignal (q : MemoryQueue) : MemoryQueue := q <| stop_ := true |>.
Definition StopJoined (q : MemoryQueue) : MemoryQueue :=
  q <| workers_ := [] |> <| workers_started_ := false |> <| periodic_started_ := false |>.

Definition worker_count (q : MemoryQueue) : Z := len (workers_ q).

(** One step of the worker [n]. *)
Inductive worker_step (n : nat) : MemoryQueue -> MemoryQueue -> Prop :=
| step_pop q w q' :
    workers_ q !! n = Some Waiting -> Pop q = Some (w, q') ->
    worker_step n q (q' <| workers_ := <[n := w]> (workers_ q) |>)
| step_finish q item ok :
    workers_ q !! n = Some (Handling item) ->
    worker_step n q (Finish item ok q <| workers_ := <[n := Waiting]> (workers_ q) |>).

(** The join of [Stop] returns when every worker has. *)
Inductive step : MemoryQueue -> MemoryQueue -> Prop :=
| step_push q i c : step q (Push i c q).2
| step_scan q pending : step q (RunPeriodicScanOnce pending q).2
| step_start q : step q (StartWorkers q)
| step_start_periodic q : step q (StartPeriodicScan q)
| step_worker q n q' : worker_step n q q' -> step q q'
| step_stop q : step q (StopSignal q)
| step_joined q : stop_ q = true -> Forall (eq Returned) (workers_ q) -> step q (StopJoined q).

Inductive reachable (config : Config) : MemoryQueue -> Prop :=
| reach_make : reachable config (Make config)
| reach_step q q' : reachable config q -> step q q' -> reachable config q'.

(** ** Every accepted item has one fate *)

(** The items in the hands of workers. *)
Definition in_hand (w : Worker) : list MemoryQueueItem := match w with Handling i => [i] | _ => [] end.
Definition handled (q : MemoryQueue) : list MemoryQueueItem := mjoin (in_hand <$> workers_ q).

(** Waiting, in work, processed, dead. *)
Definition fates (q : MemoryQueue) : list nat :=
  (ticket <$> queue_ q) ++ (ticket <$> handled q) ++ processed_ q ++ (ticket <$> dead_ q).

Record wf (q : MemoryQueue) : Prop := {
  wf_config : 1 <= c_worker_count (config_ q) /\ queue_max_size (config_ q) <> 0 /\ 0 <= retry_max (config_ q);
  wf_fates : fates q ≡ₚ seq 0 (accepted_ q);
  wf_depth : len (queue_ q) <= Z.max 0 (queue_max_size (config_ q));
  wf_attempts : Forall (fun i => 0 <= attempt i <= retry_max (config_ q)) (queue_ q ++ handled q ++ dead_ q);
  wf_counts : processed_count_ q = u64 (len (processed_ q)) /\ dead_letter_count_ q = u64 (len (dead_ q))
}.

Lemma handled_insert ws n w w' :
  ws !! n = Some w ->
  mjoin (in_hand <$> <[n := w']> ws) ++ in_hand w ≡ₚ mjoin (in_hand <$> ws) ++ in_hand w'.
Proof.
  intros Hn. rewrite list_fmap_insert. rewrite <- (take_drop_middle _ _ _ Hn) at 2.
  assert (n < length ws)%nat as Hlt by by eapply lookup_lt_Some.
  rewrite insert_take_drop by by rewrite length_fmap.
  rewrite <- fmap_take, <- fmap_drop. rewrite fmap_app, fmap_cons, !join_app. simpl. solve_Permutation.
Qed.

Lemma Forall_perm {A} (P : A -> Prop) l k : l ≡ₚ k -> Forall P l -> Forall P k.
Proof. by intros ->. Qed.

Lemma wf_new_queue config : wf (Make config).
Proof.
  split; simpl.
  - destruct (Z.ltb_spec (c_worker_count config) 1), (Z.eqb_spec (queue_max_size config) 0),
      (Z.ltb_spec (retry_max config) 0); lia.
  - done.
  - unfold len. simpl. lia.
  - constructor.
  - done.
Qed.

Lemma wf_Push q i c : wf q -> wf (Push i c q).2.
Proof.
  intros [Hc Hf Hd Ha Hn]. unfold Push. destruct (Z.leb_spec (queue_max_size (config_ q)) (len (queue_ q))); [done|].
  split; simpl; [done| | | |done].
  - unfold fates in *. simpl.
    change (0%nat :: seq 1 (accepted_ q)) with (seq 0 (S (accepted_ q))). rewrite seq_S, <- Hf, fmap_app. simpl. unfold handled. simpl. solve_Permutation.
  - rewrite len_app. unfold len at 2. simpl. lia.
  - rewrite <- app_assoc. apply Forall_app in Ha as [Hq Hr]. apply Forall_app. split; [done|].
    apply Forall_cons. split; [simpl; lia|done].
Qed.

Lemma wf_scan q pending : wf q -> wf (RunPeriodicScanOnce pending q).2.
Proof.
  revert q. induction pending as [|i pending IH]; intros q Hq; simpl; [done|].
  pose proof (wf_Push q i None Hq) as Hp. destruct (Push i None q) as [ok q1]. simpl in Hp.
  apply IH in Hp. by destruct (RunPeriodicScanOnce pending q1).
Qed.

Lemma handled_waiting ws n : mjoin (in_hand <$> (ws ++ replicate n Waiting)) = mjoin (in_hand <$> ws).
Proof.
  rewrite fmap_app, join_app. induction n; simpl; [by rewrite app_nil_r|done].
Qed.

(** A state with the same items in the same places. *)
Lemma wf_same q q' :
  config_ q' = config_ q -> queue_ q' = queue_ q -> handled q' = handled q ->
  processed_count_ q' = processed_count_ q -> dead_letter_count_ q' = dead_letter_count_ q ->
  accepted_ q' = accepted_ q -> processed_ q' = processed_ q -> dead_ q' = dead_ q -> wf q -> wf q'.
Proof.
  intros Ec Eq Eh E1 E2 Ea Ep Ed [Hc Hf Hd Ha Hn].
  split; unfold fates in *; rewrite ?Ec, ?Eq, ?Eh, ?E1, ?E2, ?Ea, ?Ep, ?Ed; done.
Qed.

(** One item of a worker's hands is put elsewhere. *)
Lemma wf_pop q n w q' :
  wf q -> workers_ q !! n = Some Waiting -> Pop q = Some (w, q') ->
  wf (q' <| workers_ := <[n := w]> (workers_ q) |>).
Proof.
  intros [Hc Hf Hd Ha Hn] Hw. pose proof (handled_insert _ n _ w Hw) as Hh. simpl in Hh.
  rewrite app_nil_r in Hh. unfold Pop. destruct (queue_ q) as [|item rest] eqn:Hq.
  - destruct (stop_ q); [|done]. intros [= <- <-]. split; simpl in *; unfold fates, handled in *; simpl in *;
      rewrite ?Hq in *; try done; by rewrite Hh, ?app_nil_r.
  - intros [= <- <-]. split; simpl in *; unfold fates, handled in *; simpl in *; rewrite ?Hq in *; try done.
    + rewrite Hh, <- Hf, fmap_app. simpl. solve_Permutation.
    + rewrite len_cons in Hd. lia.
    + rewrite Hh. eapply Forall_perm; [|exact Ha]. solve_Permutation.
Qed.

Lemma u64_succ n : u64 (u64 n + 1) = u64 (n + 1).
Proof. unfold u64. by rewrite Zplus_mod_idemp_l. Qed.

Lemma wf_finish q n item ok :
  wf q -> workers_ q !! n = Some (Handling item) ->
  wf (Finish item ok q <| workers_ := <[n := Waiting]> (workers_ q) |>).
Proof.
  intros [Hc Hf Hd Ha [Hp Hl]] Hw. pose proof (handled_insert _ n _ Waiting Hw) as Hh. simpl in Hh.
  rewrite app_nil_r in Hh. set (hs := mjoin _) in Hh. unfold fates, handled in Hf, Ha.
  rewrite <- Hh in Hf, Ha.
  assert (0 <= attempt item <= retry_max (config_ q)) as Hatt.
  { rewrite Forall_forall in Ha. apply Ha. set_solver. }
  assert (forall item', ticket item' = ticket item -> 0 <= attempt item' <= retry_max (config_ q) ->
    wf (q <| dead_letter_count_ := u64 (dead_letter_count_ q + 1) |> <| dead_ := dead_ q ++ [item'] |>
          <| workers_ := <[n := Waiting]> (workers_ q) |>)) as Hdead.
  { intros item' Ht Hi. split; simpl; unfold fates, handled; simpl; fold hs; try done.
    - rewrite <- Hf, !fmap_app. simpl. rewrite Ht. solve_Permutation.
    - rewrite !app_assoc. apply Forall_app. split; [|by apply Forall_singleton].
      rewrite <- app_assoc. eapply (Forall_perm _ _ ((queue_ q ++ hs ++ dead_ q) ++ [item])) in Ha;
        [|solve_Permutation]. by apply Forall_app in Ha as [? _].
    - split; [done|]. rewrite Hl, u64_succ, len_app. done. }
  unfold Finish. destruct ok; [|destruct (Z.ltb_spec (attempt item) (retry_max (config_ q)))].
  - split; simpl; unfold fates, handled; simpl; fold hs; try done.
    + rewrite <- Hf, fmap_app. simpl. solve_Permutation.
    + eapply (Forall_perm _ _ ((queue_ q ++ hs ++ dead_ q) ++ [item])) in Ha;
        [|solve_Permutation]. by apply Forall_app in Ha as [? _].
    + split; [|done]. rewrite Hp, u64_succ, len_app. done.
  - destruct (negb (stop_ q) && _) eqn:Hroom; [|apply Hdead; [done|simpl; lia]].
    apply andb_true_iff in Hroom as [_ Hroom%Z.ltb_lt].
    split; simpl; unfold fates, handled; simpl; fold hs; try done.
    + rewrite <- Hf, !fmap_app. simpl. solve_Permutation.
    + rewrite len_app. unfold len at 2. simpl. lia.
    + eapply (Forall_perm _ _ ((queue_ q ++ hs ++ dead_ q) ++ [item])) in Ha;
        [|solve_Permutation]. apply Forall_app in Ha as [Ha _].
      apply (Forall_perm _ ((queue_ q ++ hs ++ dead_ q) ++ [item <| attempt := attempt item + 1 |>]));
        [solve_Permutation|]. apply Forall_app. split; [done|]. apply Forall_singleton. simpl. lia.
  - apply Hdead; done.
Qed.

Lemma returned_handled ws : Forall (eq Returned) ws -> mjoin (in_hand <$> ws) = [].
Proof. induction 1 as [|w ws <- _ IH]; [done|]. simpl. exact IH. Qed.

Lemma wf_step q q' : step q q' -> wf q -> wf q'.
Proof.
  destruct 1 as [q i c|q pending|q|q|q n q' Hw|q|q Hs Hr]; intros Hq.
  - by apply wf_Push.
  - by apply wf_scan.
  - unfold StartWorkers. case_match; [done|]. eapply wf_same; [..|exact Hq]; try done.
    unfold handled. simpl. by rewrite handled_waiting.
  - unfold StartPeriodicScan. case_match; [done|]. by eapply wf_same; [..|exact Hq].
  - destruct Hw; [by eapply wf_pop|by apply wf_finish].
  - by eapply wf_same; [..|exact Hq].
  - eapply wf_same; [..|exact Hq]; try done. unfold handled. simpl. by rewrite returned_handled.
Qed.

Lemma reachable_wf config q : reachable config q -> wf q.
Proof. induction 1; [apply wf_new_queue|by eapply wf_step]. Qed.

(** ** Stopping *)

Definition turn (q q' : MemoryQueue) : Prop := exists n, worker_step n q q'.

(** What the workers still have to do once they are told to stop. *)
Definition load (w : Worker) : nat := match w with Waiting => 1 | Handling _ => 2 | Returned => 0 end.
Definition work (q : MemoryQueue) : nat := 2 * length (queue_ q) + sum_list (load <$> workers_ q).

(** Someone is left to empty the queue. *)
Definition manned (q : MemoryQueue) : Prop :=
  stop_ q = true /\ (queue_ q = [] \/ ~ Forall (eq Returned) (workers_ q)).

Lemma load_insert ws n w w' :
  ws !! n = Some w ->
  (sum_list (load <$> <[n := w']> ws) + load w = sum_list (load <$> ws) + load w')%nat.
Proof.
  intros Hn. rewrite list_fmap_insert. rewrite <- (take_drop_middle _ _ _ Hn) at 2.
  rewrite insert_take_drop by (rewrite length_fmap; by eapply lookup_lt_Some).
  rewrite <- fmap_take, <- fmap_drop, fmap_app, fmap_cons, !sum_list_with_app. simpl. lia.
Qed.

Lemma not_returned ws n w : ws !! n = Some w -> w <> Returned -> ~ Forall (eq Returned) ws.
Proof. intros Hn Hw Hr. rewrite Forall_lookup in Hr. by specialize (Hr n w Hn). Qed.

Lemma all_returned ws : Forall (eq Returned) ws \/ ~ Forall (eq Returned) ws.
Proof.
  induction ws as [|w ws [IH|IH]]; [by left| |right; by intros [_ ?]%Forall_cons].
  destruct w; [right; by intros [? _]%Forall_cons..|left; by constructor].
Qed.

(** Each turn of a stopping worker is one of finitely many. *)
Lemma turn_work q q' : turn q q' -> manned q -> manned q' /\ (work q' < work q)%nat.
Proof.
  intros [n Hw] [Hs Hm]. unfold manned, work. destruct Hw as [q w q' Hw Hp|q item ok Hw].
  - assert (n < length (workers_ q))%nat as Hlt by by eapply lookup_lt_Some.
    pose proof (load_insert _ n _ w Hw) as Hl. unfold Pop in Hp.
    destruct (queue_ q) as [|item rest] eqn:Hq.
    + rewrite Hs in Hp. simplify_eq. simpl in *. rewrite Hq. simpl. split; [auto|lia].
    + simplify_eq. simpl in *. split; [|lia]. split; [done|]. right.
      eapply (not_returned _ n (Handling item)); [by apply list_lookup_insert_eq|done].
  - assert (n < length (workers_ q))%nat as Hlt by by eapply lookup_lt_Some.
    pose proof (load_insert _ n _ Waiting Hw) as Hl. simpl in Hl.
    assert (~ Forall (eq Returned) (<[n := Waiting]> (workers_ q))) as Hnot
      by (eapply (not_returned _ n Waiting); [by apply list_lookup_insert_eq|done]).
    assert (stop_ (Finish item ok q) = stop_ q /\ queue_ (Finish item ok q) = queue_ q) as [E1 E2].
    { unfold Finish. rewrite Hs. simpl. by destruct ok, (attempt item <? retry_max (config_ q)). }
    simpl. rewrite E1, E2. split; [auto|lia].
Qed.

(** No stopping worker is stuck. *)
Lemma turn_possible q : stop_ q = true -> ~ Forall (eq Returned) (workers_ q) -> exists q', turn q q'.
Proof.
  intros Hs Hn. assert (exists n w, workers_ q !! n = Some w /\ w <> Returned) as (n & w & Hw & Hne).
  { apply not_Forall_Exists in Hn; [|intros []; (by left) || (by right)].
    apply Exists_exists in Hn as (w & [n Hw]%list_elem_of_lookup & Hne). exists n, w. split; [done|].
    intros ->. by apply Hne. }
  destruct w as [|item|]; [| |done].
  - destruct (Pop q) as [[w q']|] eqn:Hp; [by eexists; exists n; eapply step_pop|].
    unfold Pop in Hp. rewrite Hs in Hp. by destruct (queue_ q).
  - eexists. exists n. by apply (step_finish n q item true).
Qed.

Lemma turn_step q q' : turn q q' -> step q q'.
Proof. intros [n Hn]. by eapply step_worker. Qed.


(** [Stop] returns, and with everything handled.  Once the stop flag is set
    and a worker has not returned yet, the workers take at most [work q] further
    steps whatever the handler answers (a failed item is not queued again), as
    long as a worker has not returned there is a step to take, and when all have
    returned the queue is empty and every accepted interaction was processed or
    given to the dead-letter sink. *)
Theorem Stop_drains config q :
  reachable config q -> stop_ q = true -> ~ Forall (eq Returned) (workers_ q) ->
  (forall n q', nsteps turn n q q' -> (n <= work q)%nat) /\
  (forall q', rtc turn q q' ->
     (exists q2, turn q' q2) \/
     Forall (eq Returned) (workers_ q') /\ queue_ q' = [] /\
     processed_ q' ++ (ticket <$> dead_ q') ≡ₚ seq 0 (accepted_ q')).
Proof.
  intros Hr Hs Hn. assert (manned q) as Hm by (split; [done|by right]). split.
  - intros n q' Hsteps. clear Hr Hs Hn.
    induction Hsteps as [q|n q q1 q' Ht _ IH]; [lia|].
    apply turn_work in Ht as [Hm1 Hlt]; [|done]. specialize (IH Hm1). lia.
  - intros q' Hrt. assert (manned q' /\ reachable config q') as [[Hs' Hm'] Hr'].
    { clear Hs Hn. induction Hrt as [q|q q1 q' Ht _ IH]; [done|].
      apply IH; [by eapply reach_step, turn_step|by eapply turn_work]. }
    destruct (all_returned (workers_ q')) as [Hret|Hret]; [|left; by apply turn_possible].
    right. destruct Hm' as [Hq|?]; [|done]. split; [done|]. split; [done|].
    apply reachable_wf in Hr' as [_ Hf _ _ _]. rewrite <- Hf. unfold fates, handled.
    by rewrite Hq, returned_handled.
Qed.

End Queue.

(** ** Runs *)

Module QueueRuns.

Definition config : Config := MkConfig 1 2 1.
Definition Queue : Type := MemoryQueue (InteractionLog := nat) (TraceContext := unit).

Definition pushed (i : nat) (q : Queue) : Queue := (Push i None q).2.
Definition popped (n : nat) (q : Queue) : Queue :=
  match Pop q with Some (w, q') => q' <| workers_ := <[n := w]> (workers_ q) |> | None => q end.
Definition finished (n : nat) (ok : bool) (q : Queue) : Queue :=
  match workers_ q !! n with
  | Some (Handling item) => Finish item ok q <| workers_ := <[n := Waiting]> (workers_ q) |>
  | _ => q
  end.

(** Started, two interactions pushed, one in work, and told to stop. *)
Definition stopping : Queue := StopSignal (popped 0 (pushed 8 (pushed 7 (StartWorkers (Make config))))).

Lemma popped_reachable n q :
  reachable config q -> workers_ q !! n = Some Waiting -> is_Some (Pop q) -> reachable config (popped n q).
Proof.
  intros Hr Hw [[w q'] Hp]. unfold popped. rewrite Hp.
  by eapply reach_step, step_worker, step_pop.
Qed.

Lemma started_reachable : reachable config (StartWorkers (Make config) : Queue).
Proof. eapply reach_step; [apply reach_make|apply step_start]. Qed.

Lemma stopping_reachable : reachable config stopping.
Proof.
  unfold stopping. eapply reach_step; [|apply step_stop]. apply popped_reachable; [|done|by eexists].
  unfold pushed. eapply reach_step; [|apply step_push]. eapply reach_step; [|apply step_push].
  apply started_reachable.
Qed.


Lemma Stop_drains_witness :
  (forall n q', nsteps turn n stopping q' -> (n <= 4)%nat) /\
  queue_ (popped 0 (finished 0 false (popped 0 (finished 0 true stopping)))) = [].
Proof.
  split; [|reflexivity].
  apply (Stop_drains config stopping stopping_reachable eq_refl). intros H. by inversion H.
Defined.

(** After [Stop] the queue still accepts: nobody will handle what it accepts. *)
Lemma Push_after_stop_accepted :
  let q := StopJoined (popped 0 (StopSignal (StartWorkers (Make config)) : Queue)) in
  reachable config q /\ workers_ q = [] /\ (Push 7%nat None q).1 = true.
Proof.
  split; [|done]. eapply reach_step; [|apply step_joined; [done|by repeat constructor]].
  apply popped_reachable; [|done|by eexists].
  eapply reach_step; [apply started_reachable|apply step_stop].
Qed.

(** A first [StartPeriodicScan] while [Stop] joins the workers clears the stop
    flag: the workers wait again, and [Stop] with them. *)
Lemma Stop_blocks_after_periodic_start :
  let q : Queue := StartPeriodicScan (StopSignal (StartWorkers (Make config))) in
  reachable config q /\ ~ Forall (eq Returned) (workers_ q) /\ forall q', ~ turn q q'.
Proof.
  split; [|split].
  - eapply reach_step; [|apply step_start_periodic]. eapply reach_step; [|apply step_stop].
    apply started_reachable.
  - intros H. by inversion H.
  - intros q' [n Hn]. inversion Hn as [q w q2 Hw Hp|q item ok Hw]; subst; [done|].
    simpl in Hw. by destruct n as [|[]].
Qed.

(** An item that failed while the queue was full is dead after one try. *)
Lemma Full_queue_spends_retries :
  let q := finished 0 false (pushed 9 (popped 0 (pushed 8 (pushed 7 (StartWorkers (Make config)))))) in
  len (queue_ q) = 2 /\ ticket <$> dead_ q = [0%nat] /\ attempt <$> dead_ q = [1].
Proof. done. Qed.

End QueueRuns.
End MemoryQueue.
