(* ===== verification/SqlProgram.v ===== *)
(** * Programs of SQL statements

    Reading one row ([SqliteRows]); a service call as a tree of the statements it
    runs on a connection, alone or interleaved with others ([SqlProgram]); and the
    postconditions of statements in and outside transactions
    ([SqlTransactions]). *)
From stdpp Require Import list.
From S2P Require Import Prelude Sqlite.
Import Sqlite.

(** ** Reading one row

    The services over catalog.db and platform.db step a SELECT once and take the
    row they get, if any; a statement that does not prepare or does not step reads
    as no row at all. *)
Module SqliteRows.

Section Rows.
Context {D : Type} `{Planner}.
Implicit Types c : Conn D.

(** [sqlite3_step] once: the first row, or none when there is none, the statement
    does not prepare or the step fails. *)
Definition one_row {A} (f : D -> list A) c : option A * Conn D :=
  let '(rows, c) := select (fun d => take 1 (scan (f d))) c in
  (match rows with Some (l, _) => head l | None => None end, c).

Lemma elem_of_take_all {A} (x : A) k l : x ∈ take k l -> x ∈ l.
Proof. intros Hx. rewrite <- (take_drop k l). apply elem_of_app. by left. Qed.

(** A read leaves an idle connection idle and its data as they are. *)
Definition unchanged (c c' : Conn D) : Prop := saved c' = None /\ data c' = data c.

Lemma unchanged_trans c c1 c2 : unchanged c c1 -> unchanged c1 c2 -> unchanged c c2.
Proof. unfold unchanged. intros [? <-] [? <-]. done. Qed.

Lemma select_idle {A} (f : D -> list A) c r c' :
  select f c = (r, c') -> saved c = None -> unchanged c c'.
Proof.
  intros [Hc _]%select_cases Hn. unfold unchanged, committed in *. rewrite Hn in *.
  destruct Hc as [[-> ->]|[-> ->]]; done.
Qed.

(** The row that a read may give is one of the query's. *)
Lemma select_head {A} (f : D -> list A) c rows c' :
  select (fun d => take 1 (scan (f d))) c = (rows, c') ->
  forall x, (match rows with Some (l, _) => head l | None => None end) = Some x -> x ∈ f (data c).
Proof.
  intros [_ Hr]%select_cases.
  assert (forall x k, head (take k (take 1 (scan (f (data c))))) = Some x -> x ∈ f (data c)) as Hin.
  { intros x k Hh. rewrite <- (scan_perm (f (data c))). apply head_Some_elem_of in Hh.
    by apply elem_of_take_all, elem_of_take_all in Hh. }
  intros x. destruct rows as [[l []]|]; simpl; [| |done].
  - destruct Hr as [-> _]. specialize (Hin x 1%nat). rewrite take_take in Hin. exact Hin.
  - destruct Hr as [k ->]. apply Hin.
Qed.

Lemma one_row_spec {A} (f : D -> list A) c r c' :
  one_row f c = (r, c') -> saved c = None ->
  unchanged c c' /\ forall x, r = Some x -> x ∈ f (data c).
Proof.
  unfold one_row. destruct (select _ c) as [rows c1] eqn:Hs. intros [= <- <-] Hn.
  split; [by eapply select_idle|by eapply select_head].
Qed.

(** Without a fault there is a row exactly when the query has one. *)
Lemma one_row_ok {A} (f : D -> list A) d :
  exists r, one_row f (MkConn d None []) = (r, MkConn d None []) /\
    match r with Some x => x ∈ f d | None => f d = [] end.
Proof.
  exists (head (take 1 (scan (f d)))). unfold one_row, select. simpl. split; [done|].
  pose proof (scan_perm (f d)) as Hp. destruct (scan (f d)) as [|x l]; simpl.
  - by apply Permutation_nil_l in Hp.
  - rewrite <- Hp. apply list_elem_of_here.
Qed.

(** A change on an idle connection: all of it or nothing. *)
Lemma change_alone f c r c' :
  change f c = (r, c') -> saved c = None ->
  saved c' = None /\
  match r with
  | Changes n => f (data c) = Some (n, data c')
  | _ => data c' = data c
  end.
Proof.
  intros Hc%change_cases Hn. unfold committed in Hc. rewrite Hn in Hc. destruct r.
  1, 2: destruct Hc as [[-> ->]|[-> ->]]; done.
  destruct Hc as (d & Hf & <- & ->). done.
Qed.

(** ** Where SQLite ends no transaction by itself *)

(** A read leaves the connection as it is but for the outcomes it has used. *)
Definition same (c c' : Conn D) : Prop := calm c' /\ data c' = data c /\ saved c' = saved c.

Lemma same_trans c c1 c2 : same c c1 -> same c1 c2 -> same c c2.
Proof. unfold same. intros (_ & <- & <-) (? & <- & <-). done. Qed.

Lemma same_committed c c' : same c c' -> committed c' = committed c.
Proof. unfold same, committed. by intros (_ & -> & ->). Qed.

Lemma calm_one_row {A} (f : D -> list A) c r c' :
  one_row f c = (r, c') -> calm c -> same c c' /\ forall x, r = Some x -> x ∈ f (data c).
Proof.
  unfold one_row. destruct (select _ c) as [rows c1] eqn:Hs. intros [= <- <-] Hm.
  split; [by eapply calm_select in Hs|by eapply select_head].
Qed.

End Rows.
End SqliteRows.

(** ** Programs of SQL statements

    A service call as a tree of the statements it runs on a connection: run alone
    it is a function of the connection, and calls that share the connection and
    take no lock interleave at the statements. *)
Declare Scope prog_scope.
Delimit Scope prog_scope with prog.

Module SqlProgram.

Section Programs.
Context {D : Type}.

Inductive prog (A : Type) : Type :=
| Ret (a : A)
| Do {B : Type} (op : Conn D -> B * Conn D) (k : B -> prog A).
#[global] Arguments Ret {A}.
#[global] Arguments Do {A B}.

Fixpoint bind {A B} (p : prog A) (f : A -> prog B) : prog B :=
  match p with
  | Ret a => f a
  | Do op k => Do op (fun b => bind (k b) f)
  end.

(** One statement. *)
Definition sql {B} (op : Conn D -> B * Conn D) : prog B := Do op Ret.

Fixpoint run {A} (p : prog A) (c : Conn D) : A * Conn D :=
  match p with
  | Ret a => (a, c)
  | Do op k => let '(b, c) := op c in run (k b) c
  end.

(** [SQLITE_DONE]. *)
Definition stepped (r : changed) : bool := match r with Changes _ => true | _ => false end.

(** ROLLBACK before the answer. *)
Definition rolled_back {A} (a : A) : prog A := bind (sql (fun c => (tt, ROLLBACK c))) (fun _ => Ret a).

(** The next statement of a program. *)
Definition turn {A} (p : prog A) (c : Conn D) : prog A * Conn D :=
  match p with
  | Ret a => (Ret a, c)
  | Do op k => let '(b, c) := op c in (k b, c)
  end.

(** Threads that take turns in the order of [sched]. *)
Fixpoint interleave {A} (sched : list nat) (ts : list (prog A)) (c : Conn D) : list (prog A) * Conn D :=
  match sched with
  | [] => (ts, c)
  | i :: sched =>
      match ts !! i with
      | None => interleave sched ts c
      | Some p => let '(p, c) := turn p c in interleave sched (<[i := p]> ts) c
      end
  end.

Definition answer {A} (p : prog A) : option A := match p with Ret a => Some a | Do _ _ => None end.

(** ** Postconditions *)

Definition wp {A} (p : prog A) (Q : A -> Conn D -> Prop) (c : Conn D) : Prop :=
  let '(a, c') := run p c in Q a c'.

Lemma run_bind {A B} (p : prog A) (f : A -> prog B) c :
  run (bind p f) c = let '(a, c) := run p c in run (f a) c.
Proof. revert c. induction p as [a|C op k IH]; intros c; simpl; [done|]. destruct (op c). apply IH. Qed.

Lemma wp_bind {A B} (p : prog A) (f : A -> prog B) Q c :
  wp p (fun a => wp (f a) Q) c -> wp (bind p f) Q c.
Proof. unfold wp. rewrite run_bind. by destruct (run p c). Qed.

Lemma wp_ret {A} (a : A) Q c : Q a c -> wp (Ret a) Q c.
Proof. done. Qed.

Lemma wp_sql {B} (op : Conn D -> B * Conn D) Q c :
  (forall b c', op c = (b, c') -> Q b c') -> wp (sql op) Q c.
Proof. unfold wp. simpl. destruct (op c) as [b c']. intros H. by apply H. Qed.

Lemma wp_mono {A} (p : prog A) (Q R : A -> Conn D -> Prop) c :
  wp p Q c -> (forall a c', Q a c' -> R a c') -> wp p R c.
Proof. unfold wp. destruct (run p c). auto. Qed.

(** A thread that has all the turns it needs runs its call. *)
Lemma turns_run {A} (p : prog A) c :
  exists n, interleave (replicate n 0%nat) [p] c = ([Ret (run p c).1], (run p c).2).
Proof.
  revert c. induction p as [a|B op k IH]; intros c; [by exists O|].
  simpl. destruct (op c) as [b c1] eqn:Ho. destruct (IH b c1) as [n Hn].
  exists (S n). simpl. by rewrite Ho.
Qed.

End Programs.

Arguments prog : clear implicits.
End SqlProgram.

Notation "x <- p ;; q" := (SqlProgram.bind p (fun x => q))
  (at level 100, p at next level, right associativity) : prog_scope.

(** ** Postconditions of statements in and outside transactions *)
Import SqliteRows SqlProgram.

Module SqlTransactions.

Section Transactions.
Context {D : Type}.
Implicit Types c : Conn D.

Lemma same_calm c c' : same c c' -> calm c'.
Proof. by intros []. Qed.

Lemma same_data c c' : same c c' -> data c' = data c.
Proof. by intros (_ & ? & _). Qed.

Lemma wp_rolled_back {A} (a : A) Q c :
  calm c -> (forall c', calm c' -> committed c' = committed c -> Q a c') -> wp (rolled_back a) Q c.
Proof.
  intros Hm HQ. apply wp_bind, wp_sql. intros [] c' [= <-]. apply wp_ret, HQ.
  - by apply calm_ROLLBACK.
  - apply committed_ROLLBACK.
Qed.

(** A change inside a transaction that began with the rows [d]. *)
Lemma wp_change_in (op : D -> option (Z * D)) d Q c :
  calm c -> saved c = Some d ->
  (forall r c', calm c' -> saved c' = Some d ->
     (stepped r = true -> snd <$> op (data c) = Some (data c')) -> Q r c') ->
  wp (sql (change op)) Q c.
Proof.
  intros Hm Hs HQ. apply wp_sql. intros r c' Hr. apply calm_change_cases in Hr as (Hm' & Hs' & Hr); [|done].
  apply HQ; [done|congruence|]. intros Hst. destruct r; try done. by rewrite Hr.
Qed.

Lemma wp_begin {A} (k : bool -> prog D A) Q c :
  calm c ->
  (forall c', calm c' -> saved c = None -> data c' = data c -> saved c' = Some (data c) -> wp (k true) Q c') ->
  (forall c', same c c' -> wp (k false) Q c') ->
  wp (bind (sql BEGIN) k) Q c.
Proof.
  intros Hm Hk Hno. apply wp_bind, wp_sql. intros b c' Hb.
  apply calm_BEGIN_cases in Hb as (Hm' & Hd & Hs); [|done]. destruct b.
  - destruct Hs. auto.
  - by apply Hno.
Qed.

Lemma in_transaction_saved c d : saved c = Some d -> in_transaction c = true.
Proof. unfold in_transaction. intros ->. by apply bool_decide_eq_true. Qed.

Lemma wp_change_alone (f : D -> option (Z * D)) Q c :
  saved c = None ->
  (forall r c', saved c' = None ->
     match r with Changes n => f (data c) = Some (n, data c') | _ => data c' = data c end -> Q r c') ->
  wp (sql (change f)) Q c.
Proof. intros Hn HQ. apply wp_sql. intros r c' Hr. apply change_alone in Hr as [? ?]; [|done]. auto. Qed.

Lemma wp_select_alone {A} (f : D -> list A) Q c :
  saved c = None ->
  (forall rows c', unchanged c c' -> (forall l b, rows = Some (l, b) -> forall x, x ∈ l -> x ∈ f (data c)) ->
     Q rows c') ->
  wp (sql (select f)) Q c.
Proof.
  intros Hn HQ. apply wp_sql. intros rows c' Hr. apply HQ; [by eapply select_idle|].
  intros l b -> x Hx. apply select_cases in Hr as [_ Hr]. destruct b; [by destruct Hr as [<- _]|].
  destruct Hr as [k ->]. rewrite <- (take_drop k (f (data c))). apply elem_of_app. by left.
Qed.

End Transactions.
End SqlTransactions.
