(* ===== verification/SecurityErrors.v ===== *)
(** * Errors of the tenant and authentication services

    The identities, the token of each and the status it is carried as; the
    attributes of the agent-friendly body are left out. *)
From Stdlib Require Import String.
From S2P Require Import Prelude Status.

(** ** Errors of the tenant services (src/tenant/tenant_error.cpp)

    The 24 identities, the token of each and the status it is carried as; the
    attributes of the agent-friendly body are left out. *)
Module TenantError.

Inductive TenantErrorCode :=
| kTenantNotFound | kTenantAlreadyExists | kTenantEmailDuplicate | kTenantNameDuplicate
| kTenantDeleteHasNamespaces | kTenantDeleteHasMembers | kTenantTransferTargetNotMember
| kTenantLastOwnerRemoval
| kMemberAlreadyExists | kMemberNotFound | kMemberRoleInvalid
| kNsUnauthorized | kNsNotFound
| kAclGrantToOwnerTenant | kAclDuplicateGrant | kAclGrantInvalidRole | kAclNotFound | kPermissionOwnerOnly
| kTenantQuotaExceeded | kTenantQuotaNotFound
| kTenantTransactionFailed | kAdminKeyRequired | kCallerNotMember | kCallerRoleInsufficient.

Definition TenantErrorCodeString (c : TenantErrorCode) : string :=
  match c with
  | kTenantNotFound => "CX_ERR_TENANT_NOT_FOUND"
  | kTenantAlreadyExists => "CX_ERR_TENANT_ALREADY_EXISTS"
  | kTenantEmailDuplicate => "CX_ERR_TENANT_EMAIL_DUPLICATE"
  | kTenantNameDuplicate => "CX_ERR_TENANT_NAME_DUPLICATE"
  | kTenantDeleteHasNamespaces => "CX_ERR_TENANT_DELETE_HAS_NAMESPACES"
  | kTenantDeleteHasMembers => "CX_ERR_TENANT_DELETE_HAS_MEMBERS"
  | kTenantTransferTargetNotMember => "CX_ERR_TENANT_TRANSFER_TARGET_NOT_MEMBER"
  | kTenantLastOwnerRemoval => "CX_ERR_TENANT_LAST_OWNER_REMOVAL"
  | kMemberAlreadyExists => "CX_ERR_MEMBER_ALREADY_EXISTS"
  | kMemberNotFound => "CX_ERR_MEMBER_NOT_FOUND"
  | kMemberRoleInvalid => "CX_ERR_MEMBER_ROLE_INVALID"
  | kNsUnauthorized => "CX_ERR_NS_UNAUTHORIZED"
  | kNsNotFound => "CX_ERR_NS_NOT_FOUND"
  | kAclGrantToOwnerTenant => "CX_ERR_ACL_GRANT_TO_OWNER_TENANT"
  | kAclDuplicateGrant => "CX_ERR_ACL_DUPLICATE_GRANT"
  | kAclGrantInvalidRole => "CX_ERR_ACL_GRANT_INVALID_ROLE"
  | kAclNotFound => "CX_ERR_ACL_NOT_FOUND"
  | kPermissionOwnerOnly => "CX_ERR_PERMISSION_OWNER_ONLY"
  | kTenantQuotaExceeded => "CX_ERR_TENANT_QUOTA_EXCEEDED"
  | kTenantQuotaNotFound => "CX_ERR_TENANT_QUOTA_NOT_FOUND"
  | kTenantTransactionFailed => "CX_ERR_TENANT_TRANSACTION_FAILED"
  | kAdminKeyRequired => "CX_ERR_ADMIN_KEY_REQUIRED"
  | kCallerNotMember => "CX_ERR_CALLER_NOT_MEMBER"
  | kCallerRoleInsufficient => "CX_ERR_CALLER_ROLE_INSUFFICIENT"
  end.

Definition TenantErrorToStatusCode (c : TenantErrorCode) : StatusCode :=
  match c with
  | kTenantNotFound | kTenantQuotaNotFound | kMemberNotFound | kNsNotFound | kAclNotFound => kNotFound
  | kTenantAlreadyExists | kTenantEmailDuplicate | kTenantNameDuplicate | kMemberAlreadyExists
  | kAclDuplicateGrant => kAlreadyExists
  | kNsUnauthorized | kPermissionOwnerOnly | kCallerNotMember | kCallerRoleInsufficient => kPermissionDenied
  | kAdminKeyRequired => kUnauthenticated
  | kTenantDeleteHasNamespaces | kTenantDeleteHasMembers | kTenantTransferTargetNotMember
  | kTenantLastOwnerRemoval | kMemberRoleInvalid | kAclGrantToOwnerTenant | kAclGrantInvalidRole
  | kTenantQuotaExceeded => kInvalidArgument
  | kTenantTransactionFailed => kUnavailable
  end.

Definition TenantStatus (c : TenantErrorCode) (detail : string) : Status :=
  let msg := TenantErrorCodeString c in
  MkStatus (TenantErrorToStatusCode c)
    (if bool_decide (detail = ""%string) then msg else msg +:+ ": " +:+ detail).

Lemma TenantStatus_not_ok c detail : status_ok (TenantStatus c detail) = false.
Proof. by destruct c. Qed.

End TenantError.

(** ** Errors of the authentication services (src/auth/auth_error.cpp)

    The identities, the token of each and the status it is carried as; the
    attributes of the agent-friendly body are left out. *)
Module AuthError.

Inductive AuthErrorCode :=
| kEmailAlreadyExists | kInvalidCredentials | kAccountLocked | kAccountDisabled | kTokenExpired
| kTokenRevoked | kInvalidRefreshToken | kTokenVerificationFailed | kInvalidResetCode
| kBootstrapTokenInvalid | kInvalidApiKey | kAdminRequired | kEmailSendFailed | kBcryptTimeout
| kJwtInitFailed | kUserNotFound | kUserEmailExists | kUserValidation | kInvalidRequest
| kUnauthorized | kNotFound | kRateLimited | kInternalError | kServiceUnavailable.

Definition AuthErrorCodeString (c : AuthErrorCode) : string :=
  match c with
  | kEmailAlreadyExists => "CX_ERR_AUTH_EMAIL_ALREADY_EXISTS"
  | kInvalidCredentials => "CX_ERR_AUTH_INVALID_CREDENTIALS"
  | kAccountLocked => "CX_ERR_ACCOUNT_LOCKED"
  | kAccountDisabled => "CX_ERR_AUTH_ACCOUNT_DISABLED"
  | kTokenExpired => "CX_ERR_AUTH_TOKEN_EXPIRED"
  | kTokenRevoked => "CX_ERR_AUTH_TOKEN_REVOKED"
  | kInvalidRefreshToken => "CX_ERR_AUTH_INVALID_REFRESH_TOKEN"
  | kTokenVerificationFailed => "CX_ERR_AUTH_TOKEN_VERIFICATION_FAILED"
  | kInvalidResetCode => "CX_ERR_AUTH_INVALID_RESET_CODE"
  | kBootstrapTokenInvalid => "CX_ERR_AUTH_BOOTSTRAP_TOKEN_INVALID"
  | kInvalidApiKey => "CX_ERR_AUTH_INVALID_API_KEY"
  | kAdminRequired => "CX_ERR_AUTH_ADMIN_REQUIRED"
  | kEmailSendFailed => "CX_ERR_AUTH_EMAIL_SEND_FAILED"
  | kBcryptTimeout => "CX_ERR_AUTH_BCRYPT_TIMEOUT"
  | kJwtInitFailed => "CX_ERR_AUTH_JWT_INIT_FAILED"
  | kUserNotFound => "CX_ERR_USER_NOT_FOUND"
  | kUserEmailExists => "CX_ERR_USER_EMAIL_EXISTS"
  | kUserValidation => "CX_ERR_USER_VALIDATION"
  | kInvalidRequest => "CX_ERR_INVALID_REQUEST"
  | kUnauthorized => "CX_ERR_UNAUTHORIZED"
  | kNotFound => "CX_ERR_NOT_FOUND"
  | kRateLimited => "CX_ERR_RATE_LIMITED"
  | kInternalError => "CX_ERR_INTERNAL_ERROR"
  | kServiceUnavailable => "CX_ERR_SERVICE_UNAVAILABLE"
  end.

Definition AuthErrorToStatusCode (c : AuthErrorCode) : StatusCode :=
  match c with
  | kNotFound | kUserNotFound => Status.kNotFound
  | kEmailAlreadyExists | kUserEmailExists => kAlreadyExists
  | kInvalidCredentials | kTokenExpired | kTokenRevoked | kInvalidRefreshToken
  | kTokenVerificationFailed | kBootstrapTokenInvalid | kInvalidApiKey | kUnauthorized => kUnauthenticated
  | kAccountLocked | kAccountDisabled | kAdminRequired | kRateLimited => kPermissionDenied
  | kInvalidResetCode | kInvalidRequest | kUserValidation | kBcryptTimeout => kInvalidArgument
  | kEmailSendFailed | kServiceUnavailable => kUnavailable
  | kJwtInitFailed | kInternalError => kInternal
  end.

Definition AuthStatus (c : AuthErrorCode) (detail : string) : Status :=
  let cx := AuthErrorCodeString c in
  MkStatus (AuthErrorToStatusCode c) (if bool_decide (detail = ""%string) then cx else cx +:+ ": " +:+ detail).

Lemma AuthStatus_not_ok c detail : status_ok (AuthStatus c detail) = false.
Proof. by destruct c. Qed.

End AuthError.
