(* ===== verification/Permissions.v ===== *)
(** * Namespace permissions (src/tenant/permission_service.cpp, src/query/authorize_namespaces.cpp)

    [PermissionService] decides what a caller may do with a namespace from the
    owner in the namespaces table (NsRouter.v), the grants in ns_acl and the
    visibility, and lets owners and administrators change the grants.  It takes
    no lock; each statement runs on the connection of Sqlite.v.
    [AuthorizeNamespaces] checks the namespaces of a query against it, through
    the interface [QueryPermissions].  The borrowed handle is set. *)
From Stdlib Require Import Ascii String.
From stdpp Require Import gmap strings.
From S2P Require Import Prelude Status Sqlite SqlProgram NsRouter SecurityErrors.

(** The bits of [AuthContext::permissions]. *)
Definition kPermRead : Z := 1.
Definition kPermWrite : Z := 2.
Definition kPermAdmin : Z := 4.

Record AuthContext := MkAuthContext {
  auth_tenant_id : string;
  auth_user_id : string;
  auth_agent_id : string;
  auth_permissions : Z
}.

Module PermissionService.
Import Sqlite SqliteRows NsRouter TenantError.

Inductive NsAclRole := VIEWER | EDITOR | ADMIN.
#[export] Instance NsAclRole_eq_dec : EqDecision NsAclRole.
Proof. solve_decision. Defined.

Definition ToString (r : NsAclRole) : string :=
  match r with VIEWER => "viewer" | EDITOR => "editor" | ADMIN => "admin" end.

Definition ParseNsAclRole (token : string) : option NsAclRole :=
  if bool_decide (token = "viewer"%string) then Some VIEWER
  else if bool_decide (token = "editor"%string) then Some EDITOR
  else if bool_decide (token = "admin"%string) then Some ADMIN
  else None.

(** ** Rows *)

(** A grant; [a_user] is NULL ([None]) for a whole tenant. *)
Record AclRow := MkAclRow {
  a_ns : string;
  a_tenant : string;
  a_user : option string;
  a_role : string;
  a_granted_at : Z;
  a_granted_by : string
}.

Record Db := MkDb { catalog : NsRouter.Db; ns_acl : list AclRow }.

Record AclEntry := MkAclEntry {
  grantee_tenant_id : string;
  grantee_user_id : string;
  role : NsAclRole;
  granted_at : Z;
  granted_by_user_id : string
}.

#[export] Instance AclRow_eq_dec : EqDecision AclRow.
Proof. solve_decision. Defined.

(** The namespace's rows, and a grant at the grain of [user] ([""]: the tenant). *)
Definition ns_rows (ns : string) (d : Db) : list NSMetadata :=
  filter (fun n => namespace_id n = ns) (namespaces (catalog d)).
Definition user_column (user : string) : option string := if bool_decide (user = ""%string) then None else Some user.
Definition at_grain (ns tenant : string) (user : option string) (r : AclRow) : Prop :=
  a_ns r = ns /\ a_tenant r = tenant /\ a_user r = user.
#[export] Instance at_grain_dec ns tenant user r : Decision (at_grain ns tenant user r).
Proof. unfold at_grain. apply _. Defined.

(** INSERT INTO ns_acl: NULLs are distinct in the PRIMARY KEY. *)
Definition insert_acl (r : AclRow) (d : Db) : option (Z * Db) :=
  if bool_decide (is_Some (a_user r)) &&
     existsb (fun x => bool_decide (at_grain (a_ns r) (a_tenant r) (a_user r) x)) (ns_acl d)
  then None
  else Some (1, MkDb (catalog d) (ns_acl d ++ [r])).

Definition delete_acl (ns tenant : string) (user : option string) (d : Db) : option (Z * Db) :=
  Some (len (filter (at_grain ns tenant user) (ns_acl d)),
        MkDb (catalog d) (filter (fun r => ~ at_grain ns tenant user r) (ns_acl d))).

Section Service.
Context `{Planner} (errmsg : string).
Implicit Types c : Conn Db.

(** ** The structural layer *)

Definition NsExists (ns_id : string) c : bool * Conn Db :=
  let '(r, c) := one_row (ns_rows ns_id) c in (bool_decide (is_Some r), c).

Definition Visibility (ns_id : string) c : string * Conn Db :=
  let '(r, c) := one_row (ns_rows ns_id) c in
  (match r with Some n => visibility n | None => "" end, c).

Definition CheckOwnerTenant (ns_id tenant : string) c : bool * Conn Db :=
  let '(r, c) := one_row (ns_rows ns_id) c in
  (match r with Some n => bool_decide (tenant_id n = tenant) | None => false end, c).

(** The role of one grant, at one grain. *)
Definition role_at (ns_id tenant : string) (user : option string) c : option NsAclRole * Conn Db :=
  let '(r, c) := one_row (fun d => filter (at_grain ns_id tenant user) (ns_acl d)) c in
  (r ← r; ParseNsAclRole (a_role r), c).

Definition GetAclRole (ns_id tenant user : string) c : option NsAclRole * Conn Db :=
  let '(r, c) := if bool_decide (user = ""%string) then (None, c) else role_at ns_id tenant (Some user) c in
  match r with
  | Some _ => (r, c)
  | None => role_at ns_id tenant None c
  end.

(** ** The business layer *)

Definition CanRead (ctx : AuthContext) (ns_id : string) c : bool * Conn Db :=
  let '(owner, c) := CheckOwnerTenant ns_id (auth_tenant_id ctx) c in
  if owner then (true, c) else
  let '(r, c) := GetAclRole ns_id (auth_tenant_id ctx) (auth_user_id ctx) c in
  match r with
  | Some _ => (true, c)
  | None => let '(v, c) := Visibility ns_id c in (bool_decide (v = "public"%string), c)
  end.

Definition CanWrite (ctx : AuthContext) (ns_id : string) c : bool * Conn Db :=
  let '(owner, c) := CheckOwnerTenant ns_id (auth_tenant_id ctx) c in
  if owner then (true, c) else
  let '(r, c) := GetAclRole ns_id (auth_tenant_id ctx) (auth_user_id ctx) c in
  (match r with Some EDITOR | Some ADMIN => true | _ => false end, c).

Definition CanAdminAcl (ctx : AuthContext) (ns_id : string) c : bool * Conn Db :=
  let '(owner, c) := CheckOwnerTenant ns_id (auth_tenant_id ctx) c in
  if owner then (true, c) else
  let '(r, c) := GetAclRole ns_id (auth_tenant_id ctx) (auth_user_id ctx) c in
  (match r with Some ADMIN => true | _ => false end, c).

Definition CanDelete (ctx : AuthContext) (ns_id : string) c : bool * Conn Db :=
  CheckOwnerTenant ns_id (auth_tenant_id ctx) c.
Definition CanTransferOwnership (ctx : AuthContext) (ns_id : string) c : bool * Conn Db :=
  CheckOwnerTenant ns_id (auth_tenant_id ctx) c.
Definition CanChangeVisibility (ctx : AuthContext) (ns_id : string) c : bool * Conn Db :=
  CheckOwnerTenant ns_id (auth_tenant_id ctx) c.

Record BatchPermissionCheck := MkCheck { b_ns_id : string; can_read : bool; can_write : bool }.

Fixpoint BatchCheck (ctx : AuthContext) (ns_ids : list string) c : list BatchPermissionCheck * Conn Db :=
  match ns_ids with
  | [] => ([], c)
  | ns_id :: ns_ids =>
      let '(r, c) := CanRead ctx ns_id c in
      let '(w, c) := CanWrite ctx ns_id c in
      let '(out, c) := BatchCheck ctx ns_ids c in
      (MkCheck ns_id r w :: out, c)
  end.

(** ** Changing the grants *)

(** The namespace exists and the caller may administer its grants: [Some] error
    otherwise. *)
Definition administered (caller : AuthContext) (ns_id : string) c : option Status * Conn Db :=
  let '(e, c) := NsExists ns_id c in
  if negb e then (Some (TenantStatus kNsNotFound ns_id), c) else
  let '(a, c) := CanAdminAcl caller ns_id c in
  if negb a then (Some (TenantStatus kNsUnauthorized ("caller cannot administer ACL on " +:+ ns_id)), c)
  else (None, c).

Definition GrantAcl (now : Z) (ns_id tenant user : string) (role : NsAclRole) (caller : AuthContext) c
    : Status * Conn Db :=
  let '(e, c) := administered caller ns_id c in
  match e with
  | Some s => (s, c)
  | None =>
      let '(owner, c) := CheckOwnerTenant ns_id tenant c in
      if owner then (TenantStatus kAclGrantToOwnerTenant (tenant +:+ " already owns " +:+ ns_id), c) else
      let duplicate := TenantStatus kAclDuplicateGrant ("ACL already exists on " +:+ ns_id +:+ " for " +:+ tenant) in
      let '(dup, c) := one_row (fun d => filter (at_grain ns_id tenant (user_column user)) (ns_acl d)) c in
      if bool_decide (is_Some dup) then (duplicate, c) else
      let '(r, c) := change (insert_acl (MkAclRow ns_id tenant (user_column user) (ToString role) now
                                           (auth_user_id caller))) c in
      (match r with
       | PrepareFailed => TenantStatus kTenantTransactionFailed "grant acl prepare"
       | StepFailed true => duplicate
       | StepFailed false => TenantStatus kTenantTransactionFailed ("grant acl: " +:+ errmsg)
       | Changes _ => Status_Ok
       end, c)
  end.

Definition RevokeAcl (ns_id tenant user : string) (caller : AuthContext) c : Status * Conn Db :=
  let '(e, c) := administered caller ns_id c in
  match e with
  | Some s => (s, c)
  | None =>
      let '(r, c) := change (delete_acl ns_id tenant (user_column user)) c in
      (match r with
       | PrepareFailed => TenantStatus kTenantTransactionFailed "revoke acl prepare"
       | StepFailed _ => TenantStatus kTenantTransactionFailed ("revoke acl: " +:+ errmsg)
       | Changes n => if n =? 0 then TenantStatus kAclNotFound ("no ACL on " +:+ ns_id +:+ " for " +:+ tenant)
                      else Status_Ok
       end, c)
  end.

(** A role that does not parse stays the default of the struct. *)
Definition entry (r : AclRow) : AclEntry :=
  MkAclEntry (a_tenant r) (default ""%string (a_user r)) (default VIEWER (ParseNsAclRole (a_role r)))
    (a_granted_at r) (a_granted_by r).

Definition ListAcl (ns_id : string) (caller : AuthContext) c : Result (list AclEntry) * Conn Db :=
  let '(e, c) := administered caller ns_id c in
  match e with
  | Some s => (Error s, c)
  | None =>
      let '(rows, c) := select (fun d => order_by (fun a b => a_granted_at a <=? a_granted_at b)
                                           (filter (fun r => a_ns r = ns_id) (ns_acl d))) c in
      (match rows with
       | None => Error (TenantStatus kTenantTransactionFailed "list acl prepare")
       | Some (l, _) => Value (entry <$> l)
       end, c)
  end.

End Service.
End PermissionService.

(** ** The namespaces of a query *)

(** [cortrix::query::PermissionService], what a query asks of the permissions: the
    namespaces of a list that the caller may not query, and all that it may. *)
Class QueryPermissions (S : Type) := {
  unauthorized : string -> string -> list string -> S -> list string * S;
  ListAuthorizedNamespaces : string -> string -> S -> list string * S
}.

Module QueryAuthorization.

Inductive CrossNsException :=
| AuthInvalidCredentials
| TooManyNamespaces (requested_count max_namespaces : Z)
| NsUnauthorized (unauthorized_namespaces : list string).

Fixpoint dedup_from (seen : gset string) (l : list string) : list string :=
  match l with
  | [] => []
  | s :: l => if bool_decide (s ∈ seen) then dedup_from seen l else s :: dedup_from ({[s]} ∪ seen) l
  end.
Definition DedupPreserveOrder : list string -> list string := dedup_from ∅.

Definition IsWildcard (requested : list string) : bool := bool_decide (requested = ["*"%string]).

Section Query.
Context {St : Type} `{QueryPermissions St}.

Definition ExpandNamespaces (requested : list string) (auth : AuthContext) (max_namespaces : Z) (s : St)
    : (CrossNsException + list string) * St :=
  let '(expanded, s) :=
    if IsWildcard requested
    then let '(l, s) := ListAuthorizedNamespaces (auth_user_id auth) (auth_tenant_id auth) s in
         (DedupPreserveOrder l, s)
    else (DedupPreserveOrder requested, s) in
  let cap := if max_namespaces <? 1 then 1 else max_namespaces in
  if cap <? i32 (len expanded) then (inl (TooManyNamespaces (i32 (len expanded)) cap), s)
  else (inr expanded, s).

Definition AuthorizeNamespaces (requested : list string) (auth : AuthContext) (max_namespaces : Z) (s : St)
    : (CrossNsException + list string) * St :=
  if bool_decide (auth_user_id auth = ""%string) then (inl AuthInvalidCredentials, s) else
  let '(r, s) := ExpandNamespaces requested auth max_namespaces s in
  match r with
  | inl e => (inl e, s)
  | inr expanded =>
      let '(refused, s) := unauthorized (auth_user_id auth) (auth_tenant_id auth) expanded s in
      if bool_decide (refused = []) then (inr expanded, s) else (inl (NsUnauthorized refused), s)
  end.

End Query.

(** [TenantPermissionAdapter]: the permission service behind the interface, with
    the namespaces that the pool has resident. *)
Record TenantPermissionAdapter := MkAdapter {
  auth_enabled_ : bool;
  svc_ : Sqlite.Conn PermissionService.Db;
  active_namespaces : list string
}.

Section Adapter.
Context `{Sqlite.Planner}.

Definition adapted (user tenant : string) : AuthContext := MkAuthContext tenant user "" kPermRead.

Definition BatchCheck_adapter (user tenant : string) (namespaces : list string) (a : TenantPermissionAdapter)
    : list string * TenantPermissionAdapter :=
  if negb (auth_enabled_ a) then ([], a) else
  let '(checks, c) := PermissionService.BatchCheck (adapted user tenant) namespaces (svc_ a) in
  (PermissionService.b_ns_id <$> filter (fun k => PermissionService.can_read k = false) checks,
   MkAdapter (auth_enabled_ a) c (active_namespaces a)).

Definition List_adapter (user tenant : string) (a : TenantPermissionAdapter)
    : list string * TenantPermissionAdapter :=
  if bool_decide (active_namespaces a = []) || negb (auth_enabled_ a) then (active_namespaces a, a) else
  let '(checks, c) := PermissionService.BatchCheck (adapted user tenant) (active_namespaces a) (svc_ a) in
  (PermissionService.b_ns_id <$> filter (fun k => PermissionService.can_read k = true) checks,
   MkAdapter (auth_enabled_ a) c (active_namespaces a)).

#[export] Instance adapter_permissions : QueryPermissions TenantPermissionAdapter := {|
  unauthorized := BatchCheck_adapter;
  ListAuthorizedNamespaces := List_adapter
|}.

End Adapter.
End QueryAuthorization.
