(* ===== verification/PermissionsTheory.v ===== *)
(** * Who may do what with a namespace

    The decisions against the policy on the rows ([Permission_policy]), the
    grants as a history of authorised changes ([Acl_calls_authorized]), and the
    namespaces that a query gets to see ([Query_namespaces_readable]); what the
    reads do when a statement fails is in [PermissionRuns]. *)
From Stdlib Require Import Ascii String.
From stdpp Require Import gmap strings.
From S2P Require Import Prelude Status Sqlite SqlProgram NsRouter SecurityErrors Permissions.
Import Sqlite SqliteRows NsRouter TenantError PermissionService QueryAuthorization.

(** ** The policy on the rows *)

Section Policy.
Context (d : Db) (ns : string).

Definition owns (tenant : string) : Prop := exists n, n ∈ ns_rows ns d /\ tenant_id n = tenant.
Definition public : Prop := exists n, n ∈ ns_rows ns d /\ visibility n = "public"%string.

(** A grant of [role] at the grain of [user]. *)
Definition granted_at (tenant : string) (user : option string) (role : NsAclRole) : Prop :=
  exists r, r ∈ ns_acl d /\ at_grain ns tenant user r /\ ParseNsAclRole (a_role r) = Some role.

(** A grant to the user or to the whole tenant. *)
Definition granted (tenant user : string) (role : NsAclRole) : Prop :=
  user <> ""%string /\ granted_at tenant (Some user) role \/ granted_at tenant None role.

(** The user's own grant comes before the tenant's. *)
Definition prevails (tenant user : string) (role : NsAclRole) : Prop :=
  user <> ""%string /\ granted_at tenant (Some user) role \/
  (user = ""%string \/ forall r, ~ granted_at tenant (Some user) r) /\ granted_at tenant None role.

Definition readable (ctx : AuthContext) : Prop :=
  owns (auth_tenant_id ctx) \/ (exists role, granted (auth_tenant_id ctx) (auth_user_id ctx) role) \/ public.
Definition administers (ctx : AuthContext) : Prop :=
  owns (auth_tenant_id ctx) \/ granted (auth_tenant_id ctx) (auth_user_id ctx) ADMIN.
End Policy.

Section Reads.
Context `{Planner} (errmsg : string).
Implicit Types c : Conn Db.

Lemma CheckOwnerTenant_sound ns t c b c' :
  CheckOwnerTenant ns t c = (b, c') -> saved c = None ->
  unchanged c c' /\ (b = true -> owns (data c) ns t).
Proof.
  unfold CheckOwnerTenant. destruct (one_row _ c) as [r c1] eqn:Hr. intros [= <- <-] Hn.
  apply one_row_spec in Hr as [Hu Hin]; [|done]. split; [done|].
  destruct r as [n|]; [|done]. intros Hb%bool_decide_eq_true. exists n. auto.
Qed.

Lemma role_at_sound ns t u c r c' :
  role_at ns t u c = (r, c') -> saved c = None ->
  unchanged c c' /\ forall role, r = Some role -> granted_at (data c) ns t u role.
Proof.
  unfold role_at. destruct (one_row _ c) as [row c1] eqn:Hr. intros [= <- <-] Hn.
  apply one_row_spec in Hr as [Hu Hin]; [|done]. split; [done|].
  intros role. destruct row as [row|]; simpl; [|done]. intros Hp.
  specialize (Hin row eq_refl). apply list_elem_of_filter in Hin as [? ?]. by exists row.
Qed.

Lemma GetAclRole_sound ns t u c r c' :
  GetAclRole ns t u c = (r, c') -> saved c = None ->
  unchanged c c' /\ forall role, r = Some role -> granted (data c) ns t u role.
Proof.
  unfold GetAclRole. case_bool_decide as Hu.
  - intros Hr Hn. apply role_at_sound in Hr as [? Hs]; [|done]. split; [done|].
    intros role Hrole. right. by apply Hs.
  - destruct (role_at _ _ _ c) as [r1 c1] eqn:H1. intros Hr Hn.
    apply role_at_sound in H1 as [Hu1 H1]; [|done]. pose proof Hu1 as [Hs1 Hd1]. destruct r1 as [role|]; simplify_eq.
    + split; [done|]. intros role' [= <-]. left. auto.
    + apply role_at_sound in Hr as [Hu2 Hr]; [|done]. split; [by eapply unchanged_trans|].
      intros role Hrole. right. rewrite <- Hd1. by apply Hr.
Qed.

(** Owner, else a role: the shape of the decisions. *)
Lemma decided_sound ns t u c b c1 r c2 :
  CheckOwnerTenant ns t c = (b, c1) -> saved c = None ->
  unchanged c c1 /\ (b = true -> owns (data c) ns t) /\
  (GetAclRole ns t u c1 = (r, c2) ->
   unchanged c c2 /\ forall role, r = Some role -> granted (data c) ns t u role).
Proof.
  intros Ho Hn. apply CheckOwnerTenant_sound in Ho as [Hu Ho]; [|done]. split; [done|]. split; [done|].
  pose proof Hu as [Hs1 Hd1]. intros Hg. apply GetAclRole_sound in Hg as [Hu2 Hg]; [|done].
  split; [by eapply unchanged_trans|]. rewrite Hd1 in Hg. done.
Qed.

Lemma CanRead_sound ctx ns c b c' :
  CanRead ctx ns c = (b, c') -> saved c = None ->
  unchanged c c' /\ (b = true -> readable (data c) ns ctx).
Proof.
  unfold CanRead. destruct (CheckOwnerTenant _ _ c) as [o c1] eqn:Ho.
  destruct (GetAclRole _ _ _ c1) as [r c2] eqn:Hg. intros Hb Hn.
  eapply decided_sound in Ho as (Hu1 & Ho & Hr); [|done]. apply Hr in Hg as [Hu2 Hg].
  destruct o; simplify_eq; [split; [done|]; intros _; left; auto|].
  destruct r as [role|]; simplify_eq; [split; [done|]; intros _; right; left; eauto|].
  unfold Visibility in Hb. destruct (one_row _ c2) as [row c3] eqn:Hv. simplify_eq.
  pose proof Hu2 as [Hs2 Hd2]. apply one_row_spec in Hv as [Hu3 Hin]; [|done].
  split; [exact (unchanged_trans _ _ _ Hu2 Hu3)|]. intros Hv%bool_decide_eq_true. right. right.
  destruct row as [n|]; [|done]. exists n. rewrite <- Hd2. auto.
Qed.

Lemma CanWrite_sound ctx ns c b c' :
  CanWrite ctx ns c = (b, c') -> saved c = None -> unchanged c c'.
Proof.
  unfold CanWrite. destruct (CheckOwnerTenant _ _ c) as [o c1] eqn:Ho.
  destruct (GetAclRole _ _ _ c1) as [r c2] eqn:Hg. intros Hb Hn.
  eapply decided_sound in Ho as (Hu1 & _ & Hr); [|done]. apply Hr in Hg as [Hu2 _].
  by destruct o; simplify_eq.
Qed.

Lemma CanAdminAcl_sound ctx ns c b c' :
  CanAdminAcl ctx ns c = (b, c') -> saved c = None ->
  unchanged c c' /\ (b = true -> administers (data c) ns ctx).
Proof.
  unfold CanAdminAcl. destruct (CheckOwnerTenant _ _ c) as [o c1] eqn:Ho.
  destruct (GetAclRole _ _ _ c1) as [r c2] eqn:Hg. intros Hb Hn.
  eapply decided_sound in Ho as (Hu1 & Ho & Hr); [|done]. apply Hr in Hg as [Hu2 Hg].
  destruct o; simplify_eq; [split; [done|]; intros _; left; auto|].
  split; [done|]. destruct r as [[]|]; try done. intros _. right. auto.
Qed.

Lemma BatchCheck_sound ctx l c out c' :
  BatchCheck ctx l c = (out, c') -> saved c = None ->
  unchanged c c' /\ b_ns_id <$> out = l /\
  Forall (fun k => can_read k = true -> readable (data c) (b_ns_id k) ctx) out.
Proof.
  revert c out c'. induction l as [|ns l IH]; intros c out c'; simpl; [by intros [= <- <-]|].
  destruct (CanRead ctx ns c) as [r c1] eqn:Hr. destruct (CanWrite ctx ns c1) as [w c2] eqn:Hw.
  destruct (BatchCheck ctx l c2) as [out2 c3] eqn:Hb. intros [= <- <-] Hn.
  apply CanRead_sound in Hr as [[Hs1 Hd1] Hr]; [|done]. apply CanWrite_sound in Hw as [Hs2 Hd2]; [|done].
  apply IH in Hb as ([Hs3 Hd3] & Hl & Hall); [|done]. split; [split; [done|congruence]|].
  split; [by rewrite fmap_cons, Hl|]. constructor; [done|]. by rewrite <- Hd1, <- Hd2.
Qed.

(** ** Without faults *)

(** Namespaces and grants are unique, and roles are those of the schema. *)
Record acl_ok (d : Db) : Prop := {
  ok_ns : forall ns n n', n ∈ ns_rows ns d -> n' ∈ ns_rows ns d -> n = n';
  ok_grain : forall ns t u r r', r ∈ ns_acl d -> r' ∈ ns_acl d ->
    at_grain ns t u r -> at_grain ns t u r' -> r = r';
  ok_role : forall r, r ∈ ns_acl d -> is_Some (ParseNsAclRole (a_role r))
}.

Lemma CheckOwnerTenant_exact d ns t :
  acl_ok d -> exists b, CheckOwnerTenant ns t (MkConn d None []) = (b, MkConn d None []) /\
    (b = true <-> owns d ns t).
Proof.
  intros Hd. unfold CheckOwnerTenant. destruct (one_row_ok (ns_rows ns) d) as (r & -> & Hr).
  destruct r as [n|]; eexists; (split; [done|]).
  - rewrite bool_decide_eq_true. split; [intros E; by exists n|]. intros (n' & Hn' & <-).
    by rewrite (ok_ns d Hd ns n n').
  - split; [done|]. intros (n & Hn & _). rewrite Hr in Hn. by apply not_elem_of_nil in Hn.
Qed.

Lemma role_at_exact d ns t u :
  acl_ok d -> exists r, role_at ns t u (MkConn d None []) = (r, MkConn d None []) /\
    (forall role, r = Some role <-> granted_at d ns t u role).
Proof.
  intros Hd. unfold role_at.
  destruct (one_row_ok (fun d => filter (at_grain ns t u) (ns_acl d)) d) as (r & -> & Hr).
  eexists. split; [done|]. intros role. destruct r as [row|]; simpl.
  - apply list_elem_of_filter in Hr as [Hg Hin]. split; [intros Hp; by exists row|].
    intros (row' & Hin' & Hg' & Hp). by rewrite (ok_grain d Hd ns t u row row').
  - split; [done|]. intros (row & Hin & Hg & _). by destruct (filter_nil_not_elem_of _ _ row Hr).
Qed.

Lemma granted_at_unique d ns t u r r' : acl_ok d -> granted_at d ns t u r -> granted_at d ns t u r' -> r = r'.
Proof.
  intros Hd (x & Hx & Hg & Hp) (y & Hy & Hg' & Hp').
  rewrite (ok_grain d Hd ns t u x y) in Hp by done. congruence.
Qed.

Lemma GetAclRole_exact d ns t u :
  acl_ok d -> exists r, GetAclRole ns t u (MkConn d None []) = (r, MkConn d None []) /\
    (forall role, r = Some role <-> prevails d ns t u role).
Proof.
  intros Hd. unfold GetAclRole, prevails. case_bool_decide as Hu.
  - destruct (role_at_exact d ns t None Hd) as (r & Hr & Hs). exists r. split; [done|].
    intros role. rewrite Hs. naive_solver.
  - destruct (role_at_exact d ns t (Some u) Hd) as (r1 & -> & Hs1).
    destruct r1 as [role1|].
    + exists (Some role1). split; [done|]. intros role.
      rewrite Hs1. split; [intros; left; done|]. intros [[_ ?]|[[?|Hno] _]]; [done|done|].
      exfalso. apply (Hno role1). by apply Hs1.
    + destruct (role_at_exact d ns t None Hd) as (r & Hr & Hs). exists r. split; [done|].
      intros role. rewrite Hs. split.
      * intros Hg. right. split; [|done]. right. intros r' Hr'%Hs1. done.
      * intros [[_ Hg%Hs1]|[_ Hg]]; [done|done].
Qed.

Lemma prevails_granted d ns t u role : prevails d ns t u role -> granted d ns t u role.
Proof. unfold prevails, granted. naive_solver. Qed.

Lemma granted_prevails d ns t u role : acl_ok d -> granted d ns t u role -> exists role', prevails d ns t u role'.
Proof.
  intros Hd [[Hu Hg]|Hg]; [exists role; by left|].
  destruct (decide (u = ""%string)) as [E|Hu]; [exists role; right; auto|].
  destruct (role_at_exact d ns t (Some u) Hd) as (r & _ & Hr). destruct r as [role'|].
  - exists role'. left. split; [done|]. by apply Hr.
  - exists role. right. split; [|done]. right. by intros role' Hr'%Hr.
Qed.

Lemma prevails_unique d ns t u r r' : acl_ok d -> prevails d ns t u r -> prevails d ns t u r' -> r = r'.
Proof.
  intros Hd [[Hu Hg]|[Hno Hg]] [[Hu' Hg']|[Hno' Hg']];
    solve [by eapply granted_at_unique | naive_solver].
Qed.

Lemma Visibility_exact d ns :
  acl_ok d -> exists v, Visibility ns (MkConn d None []) = (v, MkConn d None []) /\
    (v = "public"%string <-> public d ns).
Proof.
  intros Hd. unfold Visibility. destruct (one_row_ok (ns_rows ns) d) as (r & -> & Hr).
  destruct r as [n|]; eexists; (split; [done|]).
  - split; [intros E; by exists n|]. intros (n' & Hn' & <-). by rewrite (ok_ns d Hd ns n n').
  - split; [done|]. intros (n & Hn & _). rewrite Hr in Hn. by apply not_elem_of_nil in Hn.
Qed.

Lemma CanRead_exact d ctx ns :
  acl_ok d -> exists b, CanRead ctx ns (MkConn d None []) = (b, MkConn d None []) /\
    (b = true <-> readable d ns ctx).
Proof.
  intros Hd. unfold CanRead, readable.
  destruct (CheckOwnerTenant_exact d ns (auth_tenant_id ctx) Hd) as (o & -> & Ho).
  destruct o; [exists true; naive_solver|].
  destruct (GetAclRole_exact d ns (auth_tenant_id ctx) (auth_user_id ctx) Hd) as (r & -> & Hr).
  destruct r as [role|].
  { exists true. split; [done|]. split; [|done]. intros _. right. left. exists role.
    apply prevails_granted. by apply Hr. }
  destruct (Visibility_exact d ns Hd) as (v & -> & Hv). eexists. split; [done|].
  rewrite bool_decide_eq_true, Hv. split; [auto|]. intros [Hown|[[role Hg]|?]]; [|exfalso|done].
  - by apply Ho in Hown.
  - apply granted_prevails in Hg as [role' Hg]; [|done]. by apply Hr in Hg.
Qed.

(** The decision of [CanWrite] and [CanAdminAcl] on the prevailing role. *)
Lemma role_decision d ctx ns (P : NsAclRole -> Prop) (f : option NsAclRole -> bool) :
  acl_ok d -> (forall r, f r = true <-> exists role, r = Some role /\ P role) ->
  exists b, (let '(owner, c) := CheckOwnerTenant ns (auth_tenant_id ctx) (MkConn d None []) in
     if owner then (true, c) else
     let '(r, c) := GetAclRole ns (auth_tenant_id ctx) (auth_user_id ctx) c in (f r, c))
    = (b, MkConn d None []) /\
    (b = true <-> owns d ns (auth_tenant_id ctx) \/
       exists role, prevails d ns (auth_tenant_id ctx) (auth_user_id ctx) role /\ P role).
Proof.
  intros Hd Hf. destruct (CheckOwnerTenant_exact d ns (auth_tenant_id ctx) Hd) as (o & -> & Ho).
  destruct o; [exists true; naive_solver|].
  destruct (GetAclRole_exact d ns (auth_tenant_id ctx) (auth_user_id ctx) Hd) as (r & -> & Hr).
  exists (f r). split; [done|]. rewrite Hf. split.
  - intros (role & -> & HP). right. exists role. split; [by apply Hr|done].
  - intros [Hown%Ho|(role & Hp%Hr & HP)]; [done|eauto].
Qed.

Lemma BatchCheck_exact d ctx l :
  acl_ok d -> exists out, BatchCheck ctx l (MkConn d None []) = (out, MkConn d None []) /\
    b_ns_id <$> out = l /\ Forall (fun k => can_read k = true <-> readable d (b_ns_id k) ctx) out.
Proof.
  intros Hd. induction l as [|ns l (out & Hout & Hl & Hall)]; [by exists []|]. simpl.
  destruct (CanRead_exact d ctx ns Hd) as (r & -> & Hr).
  destruct (role_decision d ctx ns (fun r => r <> VIEWER) (fun r => match r with Some EDITOR | Some ADMIN => true | _ => false end) Hd)
    as (w & Hw & _); [intros [[]|]; naive_solver|].
  unfold CanWrite. rewrite Hw. rewrite Hout. eexists. split; [done|].
  split; [by rewrite fmap_cons, Hl|]. by constructor.
Qed.

(** C20: The permission decisions are the policy on the rows.  When the
    statements succeed, and namespaces and grants are unique, a caller may read a
    namespace exactly if its tenant owns it, some grant names the user or the
    tenant, or it is public; write exactly if the tenant owns it or the
    prevailing grant - the user's own before the tenant's - is editor or admin;
    administer the grants exactly if it owns it or that grant is admin; delete it,
    transfer it and change its visibility exactly if it owns it.  So each right
    includes the ones before it, a public namespace is read-only, and no grant
    gives the owner's rights. *)
Theorem Permission_policy d ctx ns :
  acl_ok d ->
  let c := MkConn d None [] in let t := auth_tenant_id ctx in let u := auth_user_id ctx in
  exists r w a o,
    CanRead ctx ns c = (r, c) /\ CanWrite ctx ns c = (w, c) /\ CanAdminAcl ctx ns c = (a, c) /\
    CanDelete ctx ns c = (o, c) /\ CanTransferOwnership ctx ns c = (o, c) /\ CanChangeVisibility ctx ns c = (o, c) /\
    (r = true <-> owns d ns t \/ (exists role, granted d ns t u role) \/ public d ns) /\
    (w = true <-> owns d ns t \/ exists role, prevails d ns t u role /\ role <> VIEWER) /\
    (a = true <-> owns d ns t \/ prevails d ns t u ADMIN) /\
    (o = true <-> owns d ns t) /\
    (o = true -> a = true) /\ (a = true -> w = true) /\ (w = true -> r = true).
Proof.
  intros Hd c t u. subst c t u.
  destruct (CanRead_exact d ctx ns Hd) as (r & Hr & Hr').
  destruct (role_decision d ctx ns (fun r => r <> VIEWER)
    (fun r => match r with Some EDITOR | Some ADMIN => true | _ => false end) Hd) as (w & Hw & Hw');
    [intros [[]|]; naive_solver|].
  destruct (role_decision d ctx ns (fun r => r = ADMIN)
    (fun r => match r with Some ADMIN => true | _ => false end) Hd) as (a & Ha & Ha');
    [intros [[]|]; naive_solver|].
  destruct (CheckOwnerTenant_exact d ns (auth_tenant_id ctx) Hd) as (o & Ho & Ho').
  exists r, w, a, o. do 6 (split; [done|]). split; [done|]. split; [done|].
  assert (a = true <-> owns d ns (auth_tenant_id ctx) \/ prevails d ns (auth_tenant_id ctx) (auth_user_id ctx) ADMIN)
    as Ha2 by (rewrite Ha'; naive_solver).
  split; [done|]. split; [done|]. split; [|split].
  - rewrite Ha2, Ho'. auto.
  - rewrite Ha2, Hw'. intros [?|?]; [by left|]. right. by exists ADMIN.
  - rewrite Hw', Hr'. intros [?|(role & Hp & _)]; [by left|]. right. left. exists role. by apply prevails_granted.
Qed.

(** ** The history of the grants *)

(** A call that changes the grants of one namespace. *)
Inductive acl_call :=
| Grant (now : Z) (ns tenant user : string) (role : NsAclRole) (caller : AuthContext)
| Revoke (ns tenant user : string) (caller : AuthContext).

Definition call_ns (k : acl_call) : string := match k with Grant _ ns _ _ _ _ | Revoke ns _ _ _ => ns end.
Definition call_by (k : acl_call) : AuthContext := match k with Grant _ _ _ _ _ c | Revoke _ _ _ c => c end.

Definition perform (k : acl_call) c : Status * Conn Db :=
  match k with
  | Grant now ns t u role caller => GrantAcl errmsg now ns t u role caller c
  | Revoke ns t u caller => RevokeAcl errmsg ns t u caller c
  end.

(** What an acknowledged call does to the grants. *)
Definition applied (k : acl_call) (d : Db) : Db :=
  match k with
  | Grant now ns t u role caller =>
      MkDb (catalog d) (ns_acl d ++ [MkAclRow ns t (user_column u) (ToString role) now (auth_user_id caller)])
  | Revoke ns t u _ => MkDb (catalog d) (filter (fun r => ~ at_grain ns t (user_column u) r) (ns_acl d))
  end.

Fixpoint performs (ks : list acl_call) c : list Status * Conn Db :=
  match ks with
  | [] => ([], c)
  | k :: ks => let '(s, c) := perform k c in let '(l, c) := performs ks c in (s :: l, c)
  end.

(** From [d] to [d'] by acknowledged calls alone, each by a caller who then
    administered an existing namespace. *)
Inductive history : list acl_call -> list Status -> Db -> Db -> Prop :=
| history_nil d : history [] [] d d
| history_refused k ks s l d d' :
    status_ok s = false -> history ks l d d' -> history (k :: ks) (s :: l) d d'
| history_done k ks s l d d' :
    status_ok s = true -> ns_rows (call_ns k) d <> [] -> administers d (call_ns k) (call_by k) ->
    history ks l (applied k d) d' -> history (k :: ks) (s :: l) d d'.

Lemma administered_sound caller ns c e c' :
  administered caller ns c = (e, c') -> saved c = None ->
  unchanged c c' /\
  match e with
  | Some s => status_ok s = false
  | None => ns_rows ns (data c) <> [] /\ administers (data c) ns caller
  end.
Proof.
  unfold administered, NsExists. destruct (one_row _ c) as [r c1] eqn:Hr. intros He Hn.
  apply one_row_spec in Hr as [Hu1 Hin]; [|done]. pose proof Hu1 as [Hs1 Hd1]. revert He.
  case_bool_decide as Hex; simpl.
  - destruct (CanAdminAcl caller ns c1) as [a c2] eqn:Ha. apply CanAdminAcl_sound in Ha as [Hu2 Ha]; [|done].
    rewrite Hd1 in Ha. pose proof (unchanged_trans _ _ _ Hu1 Hu2) as Hu.
    destruct a; simpl; intros [= <- <-]; (split; [exact Hu|]).
    + split; [|by apply Ha]. destruct Hex as [n ->]. specialize (Hin n eq_refl). intros E.
      rewrite E in Hin. by apply not_elem_of_nil in Hin.
    + apply TenantStatus_not_ok.
  - intros [= <- <-]. split; [done|apply TenantStatus_not_ok].
Qed.

(** A call is refused and changes nothing, or is acknowledged and authorised. *)
Lemma perform_sound k c s c' :
  perform k c = (s, c') -> saved c = None ->
  saved c' = None /\
  (status_ok s = false /\ data c' = data c \/
   status_ok s = true /\ ns_rows (call_ns k) (data c) <> [] /\
   administers (data c) (call_ns k) (call_by k) /\ data c' = applied k (data c)).
Proof.
  intros Hk Hn. destruct k as [now ns t u role caller|ns t u caller]; simpl in *.
  - unfold GrantAcl in Hk. destruct (administered caller ns c) as [e c1] eqn:He.
    apply administered_sound in He as [[Hs1 Hd1] He]; [|done].
    destruct e as [e|]; simplify_eq; [auto|]. destruct He as [Hex Hadm].
    destruct (CheckOwnerTenant ns t c1) as [o c2] eqn:Ho.
    apply CheckOwnerTenant_sound in Ho as [[Hs2 Hd2] _]; [|done].
    destruct o; simplify_eq; [split; [done|]; left; split; [done|congruence]|].
    destruct (one_row _ c2) as [dup c3] eqn:Hp. apply one_row_spec in Hp as [[Hs3 Hd3] _]; [|done].
    assert (data c3 = data c) as Hd by congruence.
    case_bool_decide; simplify_eq; [split; [done|]; left; split; [done|congruence]|].
    destruct (change _ c3) as [r c4] eqn:Hc. simplify_eq. apply change_alone in Hc as [Hs4 Hc]; [|done].
    split; [done|]. destruct r as [|[]|n]; try (left; split; [done|congruence]).
    right. split; [done|]. split; [done|]. split; [done|]. unfold insert_acl in Hc.
    destruct (_ && _) in Hc; [done|]. rewrite <- Hd. by injection Hc.
  - unfold RevokeAcl in Hk. destruct (administered caller ns c) as [e c1] eqn:He.
    apply administered_sound in He as [[Hs1 Hd1] He]; [|done].
    destruct e as [e|]; simplify_eq; [auto|]. destruct He as [Hex Hadm].
    destruct (change _ c1) as [r c2] eqn:Hc. simplify_eq. apply change_alone in Hc as [Hs2 Hc]; [|done].
    split; [done|]. destruct r as [|b|n]; try (left; split; [done|congruence]).
    injection Hc as Hlen Hd. rewrite Hd1 in *. case_match eqn:Hz; [left|right; auto].
    split; [done|]. apply Z.eqb_eq in Hz. rewrite Hz in Hlen. apply len_0_nil in Hlen.
    rewrite <- Hd. destruct (data c) as [cat l]. simpl in *. f_equal. apply filter_id, Forall_forall.
    intros r Hin Hg. by eapply (filter_nil_not_elem_of _ _ r Hlen).
Qed.

(** The grants change by authorised calls alone.  For any sequence of
    [GrantAcl] and [RevokeAcl] calls by any callers, with any statements failing
    and even with SQLite ending transactions, the rows afterwards are those of the
    history of the acknowledged calls - each adds or removes exactly the rows of
    its grain - and whoever made an acknowledged call owned the namespace or had
    an admin grant (of its own or of its tenant) at that moment.  Every call that
    answers an error changed nothing. *)
Theorem Acl_calls_authorized ks c l c' :
  performs ks c = (l, c') -> saved c = None ->
  saved c' = None /\ history ks l (data c) (data c').
Proof.
  revert c l c'. induction ks as [|k ks IH]; intros c l c'; simpl.
  { intros [= <- <-] Hn. split; [done|constructor]. }
  destruct (perform k c) as [s c1] eqn:Hk. destruct (performs ks c1) as [l2 c2] eqn:Hp.
  intros [= <- <-] Hn. apply perform_sound in Hk as [Hs1 Hk]; [|done].
  apply IH in Hp as [Hs2 Hh]; [|done]. split; [done|].
  destruct Hk as [[Hbad Hd]|(Hok & Hex & Hadm & Hd)]; rewrite Hd in Hh.
  - by apply history_refused.
  - by apply history_done.
Qed.

(** ** The namespaces of a query *)

Lemma dedup_spec seen l :
  NoDup (dedup_from seen l) /\ forall x, x ∈ dedup_from seen l <-> x ∈ l /\ x ∉ seen.
Proof.
  revert seen. induction l as [|y l IH]; intros seen; simpl; [split; [constructor|set_solver]|].
  case_bool_decide as Hy.
  - destruct (IH seen) as [Hn Hin]. split; [done|]. intros x. rewrite Hin. set_solver.
  - destruct (IH ({[y]} ∪ seen)) as [Hn Hin]. split.
    + constructor; [|done]. rewrite Hin. set_solver.
    + intros x. rewrite elem_of_cons, Hin. destruct (decide (x = y)) as [->|]; set_solver.
Qed.

Lemma unauthorized_sound user tenant l a refused a' :
  BatchCheck_adapter user tenant l a = (refused, a') -> saved (svc_ a) = None -> auth_enabled_ a = true ->
  (forall ns, ns ∈ l -> ns ∉ refused -> readable (data (svc_ a)) ns (adapted user tenant)).
Proof.
  unfold BatchCheck_adapter. intros Hb Hn Ha. rewrite Ha in Hb. simpl in Hb.
  destruct (BatchCheck _ l (svc_ a)) as [out c] eqn:Hc. simplify_eq.
  apply BatchCheck_sound in Hc as (_ & Hl & Hall); [|done]. intros ns Hin Hno. rewrite <- Hl in Hin.
  apply list_elem_of_fmap in Hin as (k & -> & Hk). rewrite Forall_forall in Hall.
  destruct (can_read k) eqn:Hr; [by apply Hall|]. exfalso. apply Hno.
  by apply list_elem_of_fmap_2, list_elem_of_filter.
Qed.

Lemma List_adapter_keeps user tenant a l a' :
  List_adapter user tenant a = (l, a') -> saved (svc_ a) = None ->
  saved (svc_ a') = None /\ data (svc_ a') = data (svc_ a) /\ auth_enabled_ a' = auth_enabled_ a.
Proof.
  unfold List_adapter. case_match; [by intros [= <- <-]|].
  destruct (BatchCheck _ _ (svc_ a)) as [out c] eqn:Hc. intros [= <- <-] Hn.
  by apply BatchCheck_sound in Hc as ([? ?] & _); [|done].
Qed.

Lemma ExpandNamespaces_spec requested auth max a r a' :
  ExpandNamespaces requested auth max a = (r, a') -> saved (svc_ a) = None ->
  saved (svc_ a') = None /\ data (svc_ a') = data (svc_ a) /\ auth_enabled_ a' = auth_enabled_ a /\
  forall l, r = inr l ->
    NoDup l /\ i32 (len l) <= Z.max 1 max /\
    (requested <> ["*"%string] -> forall ns, ns ∈ l <-> ns ∈ requested).
Proof.
  unfold ExpandNamespaces, IsWildcard. intros Hr Hn.
  destruct (if bool_decide _ then _ else _) as [expanded a1] eqn:He.
  assert (saved (svc_ a1) = None /\ data (svc_ a1) = data (svc_ a) /\ auth_enabled_ a1 = auth_enabled_ a /\
    exists l, expanded = DedupPreserveOrder l /\ (requested <> ["*"%string] -> l = requested))
    as (Hs & Hd & Ha & l & -> & Hl).
  { case_bool_decide; [|simplify_eq; eauto 6]. simpl in He.
    destruct (List_adapter _ _ a) as [l a2] eqn:Hlist. simplify_eq.
    apply List_adapter_keeps in Hlist as (? & ? & ?); [|done]. repeat split; try done. by exists l. }
  assert (a' = a1) as -> by (by destruct (_ <? _) in Hr; simplify_eq).
  split; [done|]. split; [done|]. split; [done|]. intros k ->.
  destruct (Z.ltb_spec (if max <? 1 then 1 else max) (i32 (len (DedupPreserveOrder l)))); [done|].
  injection Hr as <-. destruct (dedup_spec ∅ l) as [Hnd Hin]. split; [done|].
  split; [destruct (Z.ltb_spec max 1); lia|]. intros Hw ns. rewrite <- (Hl Hw), Hin. set_solver.
Qed.

(** C19: A query sees only what its caller may read.  With authentication on, when
    [AuthorizeNamespaces] lets a request through, the caller is authenticated, no
    namespace occurs twice, they are at most max_namespaces (at least 1), they are
    exactly the requested ones unless the request is the wildcard, and the caller
    may read each of them by the rows of the moment: its tenant owns it, a grant
    names the user or the tenant, or it is public.  This holds whatever statements
    fail on the way: a failed read never opens a namespace. *)
Theorem Query_namespaces_readable requested auth max a l a' :
  saved (svc_ a) = None -> auth_enabled_ a = true ->
  AuthorizeNamespaces requested auth max a = (inr l, a') ->
  auth_user_id auth <> ""%string /\ NoDup l /\ i32 (len l) <= Z.max 1 max /\
  (requested <> ["*"%string] -> forall ns, ns ∈ l <-> ns ∈ requested) /\
  Forall (fun ns => readable (data (svc_ a)) ns (adapted (auth_user_id auth) (auth_tenant_id auth))) l.
Proof.
  intros Hn Ha. unfold AuthorizeNamespaces. case_bool_decide as Hu; [done|].
  destruct (ExpandNamespaces requested auth max a) as [r a1] eqn:He.
  apply ExpandNamespaces_spec in He as (Hs1 & Hd1 & Ha1 & Hspec); [|done].
  destruct r as [e|expanded]; [done|]. destruct (Hspec expanded eq_refl) as (Hnd & Hmax & Hreq).
  destruct (unauthorized _ _ expanded a1) as [refused a2] eqn:Hc. simpl in Hc.
  case_bool_decide as Hr; [|done]. intros [= <- <-]. split; [done|]. split; [done|]. split; [done|].
  split; [done|]. apply Forall_forall. intros ns Hin.
  eapply unauthorized_sound in Hc; [by rewrite Hd1 in Hc|done|congruence|done|].
  rewrite Hr. apply not_elem_of_nil.
Qed.

End Reads.

(** ** Runs *)

Module PermissionRuns.

Definition ns1 : NSMetadata :=
  MkNSMetadata "ns" "ns" "owner" "shared" "tenant" None None None None "active" 0 [].
Definition cat : NsRouter.Db := NsRouter.MkDb ["owner"; "guest"]%string [ns1] [] [].
Definition acl (t : string) (u : option string) (r : string) : AclRow := MkAclRow "ns" t u r 0 "root".

Definition owner : AuthContext := MkAuthContext "owner" "root" "" 7.
Definition guest : AuthContext := MkAuthContext "guest" "ann" "" 7.

(** Ann's tenant is an admin of the namespace, Ann herself may only look. *)
Definition db : Db := MkDb cat [acl "guest" None "admin"; acl "guest" (Some "ann"%string) "viewer"].

Lemma db_ok : acl_ok db.
Proof.
  split.
  - intros ns n n' [_ Hn]%list_elem_of_filter [_ Hn']%list_elem_of_filter. simpl in *. set_solver.
  - intros ns t u r r' Hr Hr' (_ & _ & Hu) (_ & _ & Hu'). simpl in *.
    rewrite !elem_of_cons, elem_of_nil in *. destruct Hr as [->|[->|[]]], Hr' as [->|[->|[]]]; simpl in *; congruence.
  - intros r Hr. simpl in *. rewrite !elem_of_cons, elem_of_nil in Hr.
    destruct Hr as [->|[->|[]]]; by eexists.
Qed.

Lemma Permission_policy_witness :
  exists r w a o, CanRead guest "ns" (MkConn db None []) = (r, MkConn db None []) /\
    CanWrite guest "ns" (MkConn db None []) = (w, MkConn db None []) /\ (o = true -> a = true) /\
    CanAdminAcl guest "ns" (MkConn db None []) = (a, MkConn db None []) /\ (r, w, a, o) = (true, false, false, false).
Proof.
  destruct (Permission_policy db guest "ns" db_ok) as (r & w & a & o & Hr & Hw & Ha & Ho & _ & _ & _ & _ & _ & _ & Hoa & _).
  exists r, w, a, o. split; [exact Hr|]. split; [exact Hw|]. split; [exact Hoa|]. split; [exact Ha|].
  vm_compute in Hr, Hw, Ha, Ho. congruence.
Defined.

Lemma Acl_calls_authorized_witness :
  let ks := [Grant 5 "ns" "other" "" EDITOR owner; Revoke "ns" "other" "" guest] in
  let '(l, c) := performs "msg" ks (MkConn db None []) in
  status_ok <$> l = [true; false] /\ history ks l db (data c).
Proof.
  intros ks. pose proof (Acl_calls_authorized "msg" ks (MkConn db None [])
    (performs "msg" ks (MkConn db None [])).1 (performs "msg" ks (MkConn db None [])).2
    (surjective_pairing _) eq_refl) as [_ H].
  destruct (performs "msg" ks (MkConn db None [])) as [l c] eqn:E. simpl in H. split; [|exact H].
  vm_compute in E. by injection E as <- _.
Defined.

Lemma Query_namespaces_readable_witness :
  let a := MkAdapter true (MkConn db None []) ["ns"%string] in
  exists a', AuthorizeNamespaces ["ns"; "ns"]%string guest 10 a = (inr ["ns"%string], a') /\
    Forall (fun ns => readable db ns (adapted "ann" "guest")) ["ns"%string].
Proof.
  intros a. eexists. split; [vm_compute; reflexivity|].
  eapply (Query_namespaces_readable ["ns"; "ns"]%string guest 10 a ["ns"%string]); vm_compute; reflexivity.
Defined.

(** When the probe of Ann's own grant fails, her tenant's admin grant decides:
    she may write and administer what she may only look at. *)
Lemma Failed_probe_widens_role :
  (CanWrite guest "ns" (MkConn db None [SqlOk; SqlStepErr 0])).1 = true /\
  (CanAdminAcl guest "ns" (MkConn db None [SqlOk; SqlStepErr 0])).1 = true /\
  (CanAdminAcl guest "ns" (MkConn db None [])).1 = false.
Proof. by vm_compute. Qed.

(** The primary key does not keep a tenant's grants apart: when the check before
    the insertion fails, a second one is stored beside the first. *)
Lemma Tenant_grant_stored_twice :
  let '(s, c) := GrantAcl "msg" 5 "ns" "guest" "" VIEWER owner
      (MkConn db None [SqlOk; SqlOk; SqlOk; SqlStepErr 0]) in
  s = Status_Ok /\ a_role <$> filter (at_grain "ns" "guest" None) (ns_acl (data c)) = ["admin"; "viewer"]%string.
Proof. by vm_compute. Qed.

End PermissionRuns.
