(* ===== verification/Tenants.v ===== *)
(** * Tenants and their members (src/tenant/tenant_service.cpp, quota_service.cpp)

    [TenantService] keeps the tenants and the memberships of catalog.db.  It takes
    no lock, and all requests share one connection: a call is a program of
    statements (SqlProgram.v), run alone or interleaved with others.  Foreign keys
    are on: a tenant that a namespace or a unit names is not deleted.  The borrowed
    handle is set. *)
From Stdlib Require Import Ascii String.
From stdpp Require Import gmap strings pretty.
From S2P Require Import Prelude Status Sqlite SqlProgram NsRouter SecurityErrors Permissions.

Module TenantService.
Import Sqlite SqliteRows SqlProgram TenantError.
#[local] Open Scope prog_scope.

Inductive TenantRole := OWNER | ADMIN | MEMBER | VIEWER.
#[export] Instance TenantRole_eq_dec : EqDecision TenantRole.
Proof. solve_decision. Defined.

Definition ToString (r : TenantRole) : string :=
  match r with OWNER => "owner" | ADMIN => "admin" | MEMBER => "member" | VIEWER => "viewer" end.

Definition ParseTenantRole (token : string) : option TenantRole :=
  if bool_decide (token = "owner"%string) then Some OWNER
  else if bool_decide (token = "admin"%string) then Some ADMIN
  else if bool_decide (token = "member"%string) then Some MEMBER
  else if bool_decide (token = "viewer"%string) then Some VIEWER
  else None.

Definition IsManager (role : TenantRole) : bool := match role with OWNER | ADMIN => true | _ => false end.

Inductive TenantType := PERSONAL | ORGANIZATION | SYSTEM.

Definition ParseTenantType (token : string) : option TenantType :=
  if bool_decide (token = "personal"%string) then Some PERSONAL
  else if bool_decide (token = "organization"%string) then Some ORGANIZATION
  else if bool_decide (token = "system"%string) then Some SYSTEM
  else None.

Record Tenant := MkTenant {
  tenant_id : string;
  name : string;
  type : TenantType;
  dedup_scope : string;
  created_at : Z
}.

Record Member := MkMember { user_id : string; email : string; role : TenantRole; joined_at : Z }.

(** ** Rows of catalog.db *)

Record TenantRow := MkTenantRow {
  t_id : string;
  t_name : option string;
  t_type : option string;
  t_dedup : string;
  t_created : Z
}.

Record MemberRow := MkMemberRow { m_user : string; m_tenant : string; m_role : string; m_created : Z }.
Record UserRow := MkUserRow { u_id : string; u_email : option string }.

Record Db := MkDb {
  tenants : list TenantRow;
  user_tenants : list MemberRow;
  users : list UserRow;
  namespaces : list NsRouter.NSMetadata;
  units : list NsRouter.UnitDescriptor
}.
#[export] Instance Db_eta : Eta Db := fun d =>
  MkDb (tenants d) (user_tenants d) (users d) (namespaces d) (units d).

Definition is_member (tenant user : string) (m : MemberRow) : Prop := m_tenant m = tenant /\ m_user m = user.
#[export] Instance is_member_dec tenant user m : Decision (is_member tenant user m).
Proof. unfold is_member. apply _. Defined.
Definition has_role (tenant role : string) (m : MemberRow) : Prop := m_tenant m = tenant /\ m_role m = role.
#[export] Instance has_role_dec tenant role m : Decision (has_role tenant role m).
Proof. unfold has_role. apply _. Defined.
Definition not_owner_of (tenant : string) (m : MemberRow) : Prop := m_tenant m = tenant /\ m_role m <> "owner"%string.
#[export] Instance not_owner_of_dec tenant m : Decision (not_owner_of tenant m).
Proof. unfold not_owner_of. apply _. Defined.

Definition insert_tenant (r : TenantRow) (d : Db) : option (Z * Db) :=
  if existsb (fun t => bool_decide (t_id t = t_id r)) (tenants d) then None
  else Some (1, d <| tenants := tenants d ++ [r] |>).

Definition insert_member (r : MemberRow) (d : Db) : option (Z * Db) :=
  if existsb (fun m => bool_decide (is_member (m_tenant r) (m_user r) m)) (user_tenants d) then None
  else Some (1, d <| user_tenants := user_tenants d ++ [r] |>).

Definition delete_member (tenant user : string) (d : Db) : option (Z * Db) :=
  Some (len (filter (is_member tenant user) (user_tenants d)),
        d <| user_tenants := filter (fun m => ~ is_member tenant user m) (user_tenants d) |>).

Definition delete_members (tenant : string) (d : Db) : option (Z * Db) :=
  Some (len (filter (fun m => m_tenant m = tenant) (user_tenants d)),
        d <| user_tenants := filter (fun m => m_tenant m <> tenant) (user_tenants d) |>).

(** UPDATE user_tenants SET role. *)
Definition with_role (t u role : string) (m : MemberRow) : MemberRow :=
  if decide (is_member t u m) then MkMemberRow (m_user m) (m_tenant m) role (m_created m) else m.
Definition set_role (tenant user role : string) (d : Db) : option (Z * Db) :=
  Some (len (filter (is_member tenant user) (user_tenants d)),
        d <| user_tenants := with_role tenant user role <$> user_tenants d |>).

Definition set_name (tenant name : string) (d : Db) : option (Z * Db) :=
  Some (len (filter (fun t => t_id t = tenant) (tenants d)),
        d <| tenants := (fun t => if decide (t_id t = tenant)
                                  then MkTenantRow (t_id t) (Some name) (t_type t) (t_dedup t) (t_created t) else t)
                        <$> tenants d |>).

(** A tenant that a namespace or a unit references stays. *)
Definition delete_tenant (tenant : string) (d : Db) : option (Z * Db) :=
  let rows := filter (fun t => t_id t = tenant) (tenants d) in
  if negb (bool_decide (rows = []))
     && (existsb (fun n => bool_decide (NsRouter.tenant_id n = tenant)) (namespaces d)
         || existsb (fun u => bool_decide (NsRouter.u_tenant_id u = tenant)) (units d))
  then None
  else Some (len rows, d <| tenants := filter (fun t => t_id t <> tenant) (tenants d) |>).

(** ** Identifiers *)

Definition kHex : list ascii := String.list_ascii_of_string "0123456789abcdef".
Definition hex_digit (n : Z) : ascii := nth (Z.to_nat n) kHex "0"%char.

(** The digits of the bytes from index [i] on, dashes after the bytes 3, 5, 7 and 9. *)
Fixpoint uuid_from (i : nat) (b : list Z) : list ascii :=
  match b with
  | [] => []
  | x :: b =>
      hex_digit (Z.shiftr x 4) :: hex_digit (Z.land x 15) ::
      (if bool_decide (i = 3%nat \/ i = 5%nat \/ i = 7%nat \/ i = 9%nat) then ["-"%char] else [])
      ++ uuid_from (S i) b
  end.

(** [b]: the sixteen bytes of RAND_bytes. *)
Definition UuidV4 (b : list Z) : string :=
  let b := alter (fun x => Z.lor (Z.land x 15) 64) 6%nat b in
  let b := alter (fun x => Z.lor (Z.land x 63) 128) 8%nat b in
  String.string_of_list_ascii (uuid_from 0 b).

Section Service.
Context `{Planner} (errmsg : string).

Notation M := (prog Db).

Definition failed (detail : string) : Status := TenantStatus kTenantTransactionFailed detail.

(** ** Lookups *)

Definition CallerRole (tenant user : string) : M (option TenantRole) :=
  r <- sql (one_row (fun d => filter (is_member tenant user) (user_tenants d))) ;;
  Ret (match r with Some m => ParseTenantRole (m_role m) | None => None end).

Definition TenantExists (tenant : string) : M bool :=
  r <- sql (one_row (fun d => filter (fun t => t_id t = tenant) (tenants d))) ;;
  Ret (bool_decide (is_Some r)).

(** [sqlite3_column_int] of a COUNT; 0 when the statement fails. *)
Definition OwnerCount (tenant : string) : M Z :=
  r <- sql (one_row (fun d => [i32 (len (filter (has_role tenant "owner") (user_tenants d)))])) ;;
  Ret (default 0 r).

(** A COUNT whose failing preparation is an answer of its own ([None]). *)
Definition count (f : Db -> Z) : M (option Z) :=
  r <- sql (select (fun d => [i32 (f d)])) ;;
  Ret (match r with None => None | Some (l, _) => Some (default 0 (head l)) end).

(** ** Creation *)

Definition CreatePersonal (uuid : string) (now : Z) (user mail : string) : M (Result Tenant) :=
  let id := "tenant-" +:+ uuid in
  t <- sql (change (insert_tenant (MkTenantRow id (Some mail) (Some "personal"%string) "tenant" now))) ;;
  match t with
  | PrepareFailed => Ret (Error (failed "tenants insert prepare"))
  | StepFailed true => Ret (Error (TenantStatus kTenantEmailDuplicate mail))
  | StepFailed false => Ret (Error (failed ("tenants insert: " +:+ errmsg)))
  | Changes _ =>
      ut <- sql (change (insert_member (MkMemberRow user id "owner" now))) ;;
      match ut with
      | PrepareFailed => Ret (Error (failed "user_tenants insert prepare"))
      | StepFailed _ => Ret (Error (failed ("user_tenants insert: " +:+ errmsg)))
      | Changes _ => Ret (Value (MkTenant id mail PERSONAL "tenant" now))
      end
  end.

(** COMMIT, or ROLLBACK and an error. *)
Definition commit {A} (ok : A) (error : Status -> A) : M A :=
  b <- sql COMMIT ;; if b then Ret ok else rolled_back (error (failed "commit tx")).

Definition CreateOrganization (uuid : string) (now : Z) (org : string) (owner : AuthContext) : M (Result Tenant) :=
  let id := "tenant-" +:+ uuid in
  b <- sql BEGIN ;;
  if negb b then Ret (Error (failed "begin tx")) else
  t <- sql (change (insert_tenant (MkTenantRow id (Some org) (Some "organization"%string) "tenant" now))) ;;
  match t with
  | PrepareFailed => rolled_back (Error (failed "tenants insert prepare"))
  | StepFailed true => rolled_back (Error (TenantStatus kTenantAlreadyExists id))
  | StepFailed false => rolled_back (Error (failed ("tenants insert: " +:+ errmsg)))
  | Changes _ =>
      ut <- sql (change (insert_member (MkMemberRow (auth_user_id owner) id "owner" now))) ;;
      match ut with
      | PrepareFailed => rolled_back (Error (failed "user_tenants insert prepare"))
      | StepFailed _ => rolled_back (Error (failed ("user_tenants insert: " +:+ errmsg)))
      | Changes _ => commit (Value (MkTenant id org ORGANIZATION "tenant" now)) Error
      end
  end.

(** ** Members *)

Definition managers_only (tenant : string) (caller : AuthContext) (k : M Status) : M Status :=
  r <- CallerRole tenant (auth_user_id caller) ;;
  if from_option IsManager false r then k
  else Ret (TenantStatus kCallerRoleInsufficient ("caller is not OWNER/ADMIN of " +:+ tenant)).

(** The one statement of a change that needs no transaction. *)
Definition changed_or_failed (op : Db -> option (Z * Db)) (what : string) (constraint_error : option Status)
    : M Status :=
  r <- sql (change op) ;;
  Ret (match r with
       | PrepareFailed => failed (what +:+ " prepare")
       | StepFailed b => match constraint_error with
                         | Some e => if b then e else failed (what +:+ ": " +:+ errmsg)
                         | None => failed (what +:+ ": " +:+ errmsg)
                         end
       | Changes _ => Status_Ok
       end).

Definition AddMember (now : Z) (tenant user : string) (role : TenantRole) (caller : AuthContext) : M Status :=
  e <- TenantExists tenant ;;
  if negb e then Ret (TenantStatus kTenantNotFound tenant) else
  managers_only tenant caller (
    r <- CallerRole tenant user ;;
    match r with
    | Some _ => Ret (TenantStatus kMemberAlreadyExists (user +:+ " already in " +:+ tenant))
    | None => changed_or_failed (insert_member (MkMemberRow user tenant (ToString role) now)) "add member"
                (Some (TenantStatus kMemberAlreadyExists user))
    end).

Definition RemoveMember (tenant user : string) (caller : AuthContext) : M Status :=
  managers_only tenant caller (
    r <- CallerRole tenant user ;;
    match r with
    | None => Ret (TenantStatus kMemberNotFound (user +:+ " not in " +:+ tenant))
    | Some target =>
        last <- (if bool_decide (target = OWNER) then n <- OwnerCount tenant ;; Ret (n <=? 1) else Ret false) ;;
        if last : bool then Ret (TenantStatus kTenantLastOwnerRemoval ("cannot remove the last owner of " +:+ tenant))
        else changed_or_failed (delete_member tenant user) "remove member" None
    end).

Definition by_created (a b : UserRow * MemberRow) : bool := m_created a.2 <=? m_created b.2.

(** A role that does not parse stays the default of the struct. *)
Definition member (r : UserRow * MemberRow) : Member :=
  MkMember (u_id r.1) (default ""%string (u_email r.1)) (default MEMBER (ParseTenantRole (m_role r.2)))
    (m_created r.2).

Definition ListMembers (tenant : string) (caller : AuthContext) : M (Result (list Member)) :=
  r <- CallerRole tenant (auth_user_id caller) ;;
  match r with
  | None => Ret (Error (TenantStatus kCallerNotMember (auth_user_id caller +:+ " not in " +:+ tenant)))
  | Some _ =>
      rows <- sql (select (fun d => order_by by_created
                (ut ← filter (fun m => m_tenant m = tenant) (user_tenants d);
                 u ← filter (fun u => u_id u = m_user ut) (users d); [(u, ut)]))) ;;
      Ret (match rows with
           | None => Error (failed "list members prepare")
           | Some (l, _) => Value (member <$> l)
           end)
  end.

Definition UpdateMemberRole (tenant user : string) (new_role : TenantRole) (caller : AuthContext) : M Status :=
  managers_only tenant caller (
    r <- CallerRole tenant user ;;
    match r with
    | None => Ret (TenantStatus kMemberNotFound (user +:+ " not in " +:+ tenant))
    | Some target =>
        last <- (if bool_decide (target = OWNER /\ new_role <> OWNER)
                 then n <- OwnerCount tenant ;; Ret (n <=? 1) else Ret false) ;;
        if last : bool then Ret (TenantStatus kTenantLastOwnerRemoval ("cannot demote the last owner of " +:+ tenant))
        else changed_or_failed (set_role tenant user (ToString new_role)) "update role" None
    end).

(** ** The tenant itself *)

Definition tenant_of (r : TenantRow) : Tenant :=
  MkTenant (t_id r) (default ""%string (t_name r))
    (default PERSONAL (t ← t_type r; ParseTenantType t)) (t_dedup r) (t_created r).

Definition Get (tenant : string) (caller : AuthContext) : M (Result Tenant) :=
  e <- TenantExists tenant ;;
  if negb e then Ret (Error (TenantStatus kTenantNotFound tenant)) else
  stranger <- (if Z.land (auth_permissions caller) kPermAdmin =? 0
               then r <- CallerRole tenant (auth_user_id caller) ;; Ret (bool_decide (r = None))
               else Ret false) ;;
  if stranger : bool
  then Ret (Error (TenantStatus kCallerNotMember (auth_user_id caller +:+ " not in " +:+ tenant))) else
  rows <- sql (select (fun d => filter (fun t => t_id t = tenant) (tenants d))) ;;
  Ret (match rows with
       | None => Error (failed "get tenant prepare")
       | Some ([], _) => Error (TenantStatus kTenantNotFound tenant)
       | Some (t :: _, _) => Value (tenant_of t)
       end).

Definition UpdateName (tenant new_name : string) (caller : AuthContext) : M Status :=
  e <- TenantExists tenant ;;
  if negb e then Ret (TenantStatus kTenantNotFound tenant) else
  managers_only tenant caller (changed_or_failed (set_name tenant new_name) "update name" None).

(** Two statements in a transaction, both of them run whatever the first answers. *)
Definition both_or_roll_back (op1 op2 : Db -> option (Z * Db)) (what : string) : M Status :=
  b <- sql BEGIN ;;
  if negb b then Ret (failed "begin tx") else
  r1 <- sql (change op1) ;;
  r2 <- sql (change op2) ;;
  if stepped r1 && stepped r2 then commit Status_Ok id
  else rolled_back (failed (what +:+ ": " +:+ errmsg)).

Definition owners_only (tenant : string) (caller : AuthContext) (refusal : string) (k : M Status) : M Status :=
  r <- CallerRole tenant (auth_user_id caller) ;;
  if bool_decide (r = Some OWNER) then k else Ret (TenantStatus kCallerRoleInsufficient refusal).

Definition Delete (tenant : string) (caller : AuthContext) : M Status :=
  e <- TenantExists tenant ;;
  if negb e then Ret (TenantStatus kTenantNotFound tenant) else
  owners_only tenant caller ("only the OWNER may delete " +:+ tenant) (
    n <- count (fun d => len (filter (fun x => NsRouter.tenant_id x = tenant) (namespaces d))) ;;
    match n with
    | None => Ret (failed "ns count prepare")
    | Some n =>
        if 0 <? n then Ret (TenantStatus kTenantDeleteHasNamespaces
                              (tenant +:+ " owns " +:+ pretty n +:+ " namespace(s)")) else
        k <- count (fun d => len (filter (not_owner_of tenant) (user_tenants d))) ;;
        match k with
        | None => Ret (failed "member count prepare")
        | Some k =>
            if 0 <? k then Ret (TenantStatus kTenantDeleteHasMembers
                                  (tenant +:+ " still has " +:+ pretty k +:+ " non-owner member(s)")) else
            both_or_roll_back (delete_members tenant) (delete_tenant tenant) "delete tenant"
        end
    end).

Definition TransferOwnership (tenant new_owner : string) (caller : AuthContext) : M Status :=
  e <- TenantExists tenant ;;
  if negb e then Ret (TenantStatus kTenantNotFound tenant) else
  owners_only tenant caller ("only the current OWNER may transfer ownership of " +:+ tenant) (
    t <- CallerRole tenant new_owner ;;
    match t with
    | None => Ret (TenantStatus kTenantTransferTargetNotMember
                     (new_owner +:+ " is not a member of " +:+ tenant))
    | Some _ =>
        both_or_roll_back (set_role tenant new_owner "owner") (set_role tenant (auth_user_id caller) "admin")
          "transfer ownership"
    end).

End Service.
End TenantService.

(** ** Quotas: ceilings of a plan provider, without usage *)

Module QuotaService.
Import Sqlite SqlProgram TenantError TenantService.

Inductive QuotaType := MAX_NAMESPACES | MAX_DOCUMENTS_PER_NS | MAX_STORAGE_BYTES | MAX_QPS | MAX_MEMBERS_PER_TENANT.

Definition kAllQuotaTypes : list QuotaType :=
  [MAX_NAMESPACES; MAX_DOCUMENTS_PER_NS; MAX_STORAGE_BYTES; MAX_QPS; MAX_MEMBERS_PER_TENANT].

(** A [QuotaLimit], by its one field. *)
Definition IsUnlimited (limit : Z) : bool := limit <? 0.

Record QuotaInfo := MkQuotaInfo {
  q_tenant_id : string;
  usage : list (QuotaType * Z);
  limits : list (QuotaType * Z)
}.

Section Quota.
Context `{Planner} (GetLimit : string -> QuotaType -> Z).

Definition CheckQuota (tenant : string) (type : QuotaType) (amount : Z) : bool :=
  let limit := GetLimit tenant type in
  IsUnlimited limit || (amount <=? limit).

Definition GetQuota (tenant : string) : prog Db (Result QuotaInfo) :=
  (e <- TenantExists tenant ;;
   if negb e then Ret (Error (TenantStatus kTenantNotFound tenant)) else
   Ret (Value (MkQuotaInfo tenant ((fun t => (t, 0)) <$> kAllQuotaTypes)
                 ((fun t => (t, GetLimit tenant t)) <$> kAllQuotaTypes))))%prog.

(** The override is not stored anywhere. *)
Definition UpdateQuotaOverride (tenant : string) (type : QuotaType) (new_limit : Z) : prog Db Status :=
  (e <- TenantExists tenant ;;
   Ret (if negb e then TenantStatus kTenantNotFound tenant else Status_Ok))%prog.

End Quota.
End QuotaService.
