(* ===== verification/TenantsTheory.v ===== *)
(** * Who changes a tenant, and that it keeps an owner

    What each call of the tenant service does to the rows, on every branch and
    whatever statements fail ([Tenant_calls_authorized]), and the owner that every
    tenant keeps ([Tenant_keeps_owner]); where that breaks - transfers to oneself,
    transactions that SQLite ends, calls that interleave - is in [TenantRuns]. *)
From Stdlib Require Import Ascii String.
From stdpp Require Import gmap strings.
From S2P Require Import Prelude Status Sqlite SqlProgram NsRouter SecurityErrors Permissions Tenants.
Import Sqlite SqliteRows SqlProgram SqlTransactions TenantError TenantService.

(** ** The calls of the routes *)

Inductive call :=
| Organization (uuid : string) (now : Z) (org : string) (by_ : AuthContext)
| Add (now : Z) (tenant user : string) (role : TenantRole) (by_ : AuthContext)
| Remove (tenant user : string) (by_ : AuthContext)
| SetRole (tenant user : string) (role : TenantRole) (by_ : AuthContext)
| Rename (tenant new_name : string) (by_ : AuthContext)
| DeleteTenant (tenant : string) (by_ : AuthContext)
| Transfer (tenant new_owner : string) (by_ : AuthContext).

Definition status_of {A} (r : Result A) : Status := match r with Value _ => Status_Ok | Error s => s end.

Section Calls.
Context `{Planner} (errmsg : string).
Implicit Types c : Conn Db.

Definition perform (k : call) : prog Db Status :=
  match k with
  | Organization uuid now org by_ => bind (CreateOrganization errmsg uuid now org by_) (fun r => Ret (status_of r))
  | Add now t u role by_ => AddMember errmsg now t u role by_
  | Remove t u by_ => RemoveMember errmsg t u by_
  | SetRole t u role by_ => UpdateMemberRole errmsg t u role by_
  | Rename t new_name by_ => UpdateName errmsg t new_name by_
  | DeleteTenant t by_ => Delete errmsg t by_
  | Transfer t new_owner by_ => TransferOwnership errmsg t new_owner by_
  end.

Fixpoint performs (ks : list call) c : list Status * Conn Db :=
  match ks with
  | [] => ([], c)
  | k :: ks => let '(s, c) := run (perform k) c in let '(l, c) := performs ks c in (s :: l, c)
  end.

(** ** What a call needs, and what it does *)

Definition role_in (d : Db) (tenant user : string) (role : TenantRole) : Prop :=
  exists m, m ∈ user_tenants d /\ is_member tenant user m /\ ParseTenantRole (m_role m) = Some role.
Definition exists_tenant (d : Db) (tenant : string) : Prop := exists t, t ∈ tenants d /\ t_id t = tenant.
Definition owners (d : Db) (tenant : string) : list MemberRow := filter (has_role tenant "owner") (user_tenants d).

Definition manages (d : Db) (tenant : string) (by_ : AuthContext) : Prop :=
  exists role, role_in d tenant (auth_user_id by_) role /\ IsManager role = true.

Definition authorised (k : call) (d : Db) : Prop :=
  match k with
  | Organization _ _ _ _ => True
  | Add _ t _ _ by_ => exists_tenant d t /\ manages d t by_
  | Remove t u by_ => manages d t by_ /\ exists role, role_in d t u role /\
      (role = OWNER -> 1 < i32 (len (owners d t)))
  | SetRole t u new_role by_ => manages d t by_ /\ exists role, role_in d t u role /\
      (role = OWNER /\ new_role <> OWNER -> 1 < i32 (len (owners d t)))
  | Rename t _ by_ => exists_tenant d t /\ manages d t by_
  | DeleteTenant t by_ => exists_tenant d t /\ role_in d t (auth_user_id by_) OWNER
  | Transfer t new_owner by_ => exists_tenant d t /\ role_in d t (auth_user_id by_) OWNER /\
      exists role, role_in d t new_owner role
  end.

(** The rows afterwards; [None] where a constraint refuses. *)
Definition then_ (f g : Db -> option (Z * Db)) (d : Db) : option Db := '(_, d) ← f d; snd <$> g d.

Definition applied (k : call) (d : Db) : option Db :=
  match k with
  | Organization uuid now org by_ =>
      then_ (insert_tenant (MkTenantRow ("tenant-" +:+ uuid) (Some org) (Some "organization"%string) "tenant" now))
            (insert_member (MkMemberRow (auth_user_id by_) ("tenant-" +:+ uuid) "owner" now)) d
  | Add now t u role _ => snd <$> insert_member (MkMemberRow u t (ToString role) now) d
  | Remove t u _ => snd <$> delete_member t u d
  | SetRole t u role _ => snd <$> set_role t u (ToString role) d
  | Rename t new_name _ => snd <$> set_name t new_name d
  | DeleteTenant t _ => then_ (delete_members t) (delete_tenant t) d
  | Transfer t new_owner by_ => then_ (set_role t new_owner "owner") (set_role t (auth_user_id by_) "admin") d
  end.

(** A call that answers an error leaves what is committed; one that answers OK was
    authorised by the rows as the connection saw them and changed them as it should. *)
Definition outcome (auth : Prop) (applied : option Db) (c : Conn Db) (s : Status) (c' : Conn Db) : Prop :=
  calm c' /\
  (status_ok s = false /\ committed c' = committed c \/
   status_ok s = true /\ auth /\ applied = Some (data c') /\ saved c' = saved c).

Lemma outcome_refused auth a c c' s : same c c' -> status_ok s = false -> outcome auth a c s c'.
Proof. intros Hs Hok. split; [apply Hs|]. left. split; [done|]. by apply same_committed. Qed.

Lemma outcome_same auth a c c1 s c' :
  same c c1 -> outcome auth a c1 s c' -> outcome auth a c s c'.
Proof.
  intros Hs [Hm [[Hok Hc]|(Hok & Ha & Hap & Hsv)]]; (split; [done|]).
  - left. split; [done|]. rewrite Hc. by apply same_committed.
  - right. destruct Hs as (_ & _ & <-). done.
Qed.

Lemma outcome_imp (auth auth' : Prop) a c s c' :
  (auth -> auth') -> outcome auth a c s c' -> outcome auth' a c s c'.
Proof. unfold outcome. naive_solver. Qed.

(** ** The pieces of a call *)

Lemma wp_CallerRole tenant user Q c :
  calm c ->
  (forall r c', same c c' -> (forall role, r = Some role -> role_in (data c) tenant user role) -> Q r c') ->
  wp (CallerRole tenant user) Q c.
Proof.
  intros Hm HQ. apply wp_bind, wp_sql. intros r c' Hr. apply calm_one_row in Hr as [Hs Hin]; [|done].
  apply wp_ret, HQ; [done|]. intros role Hrole. destruct r as [m|]; [|done].
  specialize (Hin m eq_refl). apply list_elem_of_filter in Hin as [? ?]. by exists m.
Qed.

Lemma wp_TenantExists tenant Q c :
  calm c ->
  (forall b c', same c c' -> (b = true -> exists_tenant (data c) tenant) -> Q b c') ->
  wp (TenantExists tenant) Q c.
Proof.
  intros Hm HQ. apply wp_bind, wp_sql. intros r c' Hr. apply calm_one_row in Hr as [Hs Hin]; [|done].
  apply wp_ret, HQ; [done|]. intros [t Ht]%bool_decide_eq_true. subst.
  specialize (Hin t eq_refl). apply list_elem_of_filter in Hin as [? ?]. by exists t.
Qed.

Lemma wp_OwnerCount tenant Q c :
  calm c ->
  (forall n c', same c c' -> (1 < n -> n = i32 (len (owners (data c) tenant))) -> Q n c') ->
  wp (OwnerCount tenant) Q c.
Proof.
  intros Hm HQ. apply wp_bind, wp_sql. intros r c' Hr. apply calm_one_row in Hr as [Hs Hin]; [|done].
  apply wp_ret, HQ; [done|]. destruct r as [n|]; simpl; [|lia].
  intros _. specialize (Hin n eq_refl). by apply list_elem_of_singleton in Hin.
Qed.

Lemma wp_managers_only tenant by_ k Q c :
  calm c ->
  (forall c', same c c' -> manages (data c) tenant by_ -> wp k Q c') ->
  (forall s c', same c c' -> status_ok s = false -> Q s c') ->
  wp (managers_only tenant by_ k) Q c.
Proof.
  intros Hm Hk Hno. apply wp_bind, wp_CallerRole; [done|]. intros r c' Hs Hr.
  destruct (from_option IsManager false r) eqn:Hb; [|by apply wp_ret, Hno].
  apply Hk; [done|]. destruct r as [role|]; [|done]. exists role. auto.
Qed.

Lemma wp_owners_only tenant by_ refusal k Q c :
  calm c ->
  (forall c', same c c' -> role_in (data c) tenant (auth_user_id by_) OWNER -> wp k Q c') ->
  (forall s c', same c c' -> status_ok s = false -> Q s c') ->
  wp (owners_only tenant by_ refusal k) Q c.
Proof.
  intros Hm Hk Hno. apply wp_bind, wp_CallerRole; [done|]. intros r c' Hs Hr.
  case_bool_decide as Hb; [|by apply wp_ret, Hno]. apply Hk; auto.
Qed.

Lemma wp_changed op what e c :
  calm c -> (forall s, e = Some s -> status_ok s = false) ->
  wp (changed_or_failed errmsg op what e) (outcome True (snd <$> op (data c)) c) c.
Proof.
  intros Hm He. apply wp_bind, wp_sql. intros r c' Hr. apply wp_ret.
  apply calm_change_cases in Hr as (Hm' & Hs & Hr); [|done]. split; [done|].
  assert (data c' = data c -> committed c' = committed c) as Hsame.
  { intros Hd. unfold committed. by rewrite Hs, Hd. }
  destruct r as [|b|n]; [left; auto|left|right].
  - split; [|auto]. destruct e as [s|], b; [by apply He|done..].
  - by rewrite Hr.
Qed.

Lemma wp_commit {A} (ok : A) error Q c :
  calm c -> in_transaction c = true ->
  (forall c', calm c' -> data c' = data c -> saved c' = None -> Q ok c') ->
  (forall s c', status_ok s = false -> calm c' -> committed c' = committed c -> Q (error s) c') ->
  wp (commit ok error) Q c.
Proof.
  intros Hm Ht Hok Hno. apply wp_bind, wp_sql. intros b c' Hc.
  apply calm_COMMIT in Hc as (Hm' & Hd & Hs); [|done..]. destruct b.
  - apply wp_ret. auto.
  - apply wp_rolled_back; [done|]. intros c2 Hm2 Hc2. apply Hno; [done..|].
    rewrite Hc2. unfold committed. by rewrite Hd, Hs.
Qed.

Lemma wp_both op1 op2 what c :
  calm c -> wp (both_or_roll_back errmsg op1 op2 what) (outcome True (then_ op1 op2 (data c)) c) c.
Proof.
  intros Hm. apply wp_begin; [done| |].
  2: { intros c' Hs. by apply wp_ret, outcome_refused. }
  intros c1 Hm1 Hi Hd1 Hs1. cbn [negb]. apply wp_bind. eapply wp_change_in; [done..|].
  intros r1 c2 Hm2 Hs2 Hr1. apply wp_bind. eapply wp_change_in; [done..|]. intros r2 c3 Hm3 Hs3 Hr2.
  assert (committed c3 = committed c) as Hc3 by (unfold committed; by rewrite Hs3, Hi).
  destruct (stepped r1 && stepped r2) eqn:Hst.
  - apply andb_true_iff in Hst as [Hst1 Hst2].
    apply wp_commit; [done|by eapply in_transaction_saved|..].
    + intros c4 Hm4 Hd4 Hs4. split; [done|]. right. split; [done|]. split; [done|].
      rewrite <- Hd1. unfold then_. specialize (Hr1 Hst1). destruct (op1 (data c1)) as [[n d1]|]; simplify_eq/=.
      rewrite Hr2 by done. rewrite Hi, Hd4. done.
    + intros s c4 Hno Hm4 Hc4. split; [done|]. left. split; [done|]. congruence.
  - apply wp_rolled_back; [done|]. intros c4 Hm4 Hc4. split; [done|]. left. split; [done|]. congruence.
Qed.

(** ** The calls *)

Lemma wp_changed_after c c1 (auth : Prop) op what e :
  same c c1 -> auth -> (forall s, e = Some s -> status_ok s = false) ->
  wp (changed_or_failed errmsg op what e) (outcome auth (snd <$> op (data c)) c) c1.
Proof.
  intros Hs Ha He. eapply wp_mono; [apply wp_changed; [apply Hs|done]|].
  intros s c' Ho. eapply outcome_same; [done|]. destruct Hs as (_ & <- & _).
  by eapply outcome_imp.
Qed.

Lemma wp_both_after c c1 (auth : Prop) op1 op2 what :
  same c c1 -> auth ->
  wp (both_or_roll_back errmsg op1 op2 what) (outcome auth (then_ op1 op2 (data c)) c) c1.
Proof.
  intros Hs Ha. eapply wp_mono; [apply wp_both; apply Hs|].
  intros s c' Ho. eapply outcome_same; [done|]. destruct Hs as (_ & <- & _).
  by eapply outcome_imp.
Qed.

Lemma wp_count (f : Db -> Z) Q c :
  calm c -> (forall n c', same c c' -> Q n c') -> wp (count f) Q c.
Proof.
  intros Hm HQ. apply wp_bind, wp_sql. intros r c' Hr. apply calm_select in Hr; [|done].
  by apply wp_ret, HQ.
Qed.

Lemma wp_AddMember now t u role by_ c :
  calm c -> let k := Add now t u role by_ in
  wp (perform k) (outcome (authorised k (data c)) (applied k (data c)) c) c.
Proof.
  intros Hm k. apply wp_bind, wp_TenantExists; [done|]. intros e c1 Hs1 He. destruct e; cbn [negb].
  2: by apply wp_ret, outcome_refused; [|apply TenantStatus_not_ok].
  apply wp_managers_only; [by eapply same_calm| |].
  2: { intros s c2 Hs2 Hno. apply outcome_refused; [by eapply same_trans|done]. }
  intros c2 Hs2 Hman. rewrite (same_data _ _ Hs1) in Hman. pose proof (same_trans _ _ _ Hs1 Hs2) as Hs.
  apply wp_bind, wp_CallerRole; [by eapply same_calm|]. intros r c3 Hs3 _.
  pose proof (same_trans _ _ _ Hs Hs3) as Hs'. destruct r.
  - apply wp_ret, outcome_refused; [done|apply TenantStatus_not_ok].
  - apply wp_changed_after; [done|split; [by apply He|done]|]. intros s [= <-]. apply TenantStatus_not_ok.
Qed.

(** The shape of [RemoveMember] and [UpdateMemberRole]. *)
Lemma wp_member_change t u by_ (guarded : TenantRole -> bool) refusal missing op what c :
  calm c -> status_ok refusal = false -> status_ok missing = false ->
  wp (managers_only t by_ (
        bind (CallerRole t u) (fun r =>
          match r with
          | None => Ret missing
          | Some target =>
              bind (if guarded target then bind (OwnerCount t) (fun n => Ret (n <=? 1)) else Ret false)
                (fun last : bool => if last then Ret refusal else changed_or_failed errmsg op what None)
          end)))
     (outcome (manages (data c) t by_ /\
               exists role, role_in (data c) t u role /\ (guarded role = true -> 1 < i32 (len (owners (data c) t))))
              (snd <$> op (data c)) c) c.
Proof.
  intros Hm Href Hmis. apply wp_managers_only; [done| |].
  2: { intros s c2 Hs2 Hno. by apply outcome_refused. }
  intros c1 Hs1 Hman. apply wp_bind, wp_CallerRole; [by eapply same_calm|]. intros r c2 Hs2 Hr.
  rewrite (same_data _ _ Hs1) in Hr. pose proof (same_trans _ _ _ Hs1 Hs2) as Hs.
  destruct r as [role|]; [|by apply wp_ret, outcome_refused]. specialize (Hr role eq_refl). apply wp_bind.
  destruct (guarded role) eqn:Hg.
  - apply wp_bind, wp_OwnerCount; [by eapply same_calm|]. intros n c3 Hs3 Hn.
    rewrite (same_data _ _ Hs) in Hn. pose proof (same_trans _ _ _ Hs Hs3) as Hs'. apply wp_ret.
    destruct (Z.leb_spec n 1) as [Hle|Hle]; [by apply wp_ret, outcome_refused|].
    apply wp_changed_after; [done| |done]. split; [done|]. exists role. split; [done|]. intros _.
    rewrite <- Hn; lia.
  - apply wp_ret, wp_changed_after; [done| |done]. split; [done|]. exists role. by rewrite Hg.
Qed.

Lemma wp_RemoveMember t u by_ c :
  calm c -> let k := Remove t u by_ in
  wp (perform k) (outcome (authorised k (data c)) (applied k (data c)) c) c.
Proof.
  intros Hm k. eapply wp_mono.
  - apply (wp_member_change t u by_ (fun role => bool_decide (role = OWNER))
             (TenantStatus kTenantLastOwnerRemoval ("cannot remove the last owner of " +:+ t))
             (TenantStatus kMemberNotFound (u +:+ " not in " +:+ t)) (delete_member t u) "remove member" c Hm);
      apply TenantStatus_not_ok.
  - intros s c'. apply outcome_imp. intros [? (role & Hr & Hg)]. split; [done|]. exists role.
    split; [done|]. by rewrite bool_decide_eq_true in Hg.
Qed.

Lemma wp_UpdateMemberRole t u new_role by_ c :
  calm c -> let k := SetRole t u new_role by_ in
  wp (perform k) (outcome (authorised k (data c)) (applied k (data c)) c) c.
Proof.
  intros Hm k. eapply wp_mono.
  - apply (wp_member_change t u by_ (fun role => bool_decide (role = OWNER /\ new_role <> OWNER))
             (TenantStatus kTenantLastOwnerRemoval ("cannot demote the last owner of " +:+ t))
             (TenantStatus kMemberNotFound (u +:+ " not in " +:+ t)) (set_role t u (ToString new_role))
             "update role" c Hm);
      apply TenantStatus_not_ok.
  - intros s c'. apply outcome_imp. intros [? (role & Hr & Hg)]. split; [done|]. exists role.
    split; [done|]. by rewrite bool_decide_eq_true in Hg.
Qed.

Lemma wp_UpdateName t new_name by_ c :
  calm c -> let k := Rename t new_name by_ in
  wp (perform k) (outcome (authorised k (data c)) (applied k (data c)) c) c.
Proof.
  intros Hm k. apply wp_bind, wp_TenantExists; [done|]. intros e c1 Hs1 He. destruct e; cbn [negb].
  2: by apply wp_ret, outcome_refused; [|apply TenantStatus_not_ok].
  apply wp_managers_only; [by eapply same_calm| |].
  2: { intros s c2 Hs2 Hno. apply outcome_refused; [by eapply same_trans|done]. }
  intros c2 Hs2 Hman. rewrite (same_data _ _ Hs1) in Hman.
  apply wp_changed_after; [by eapply same_trans|split; [by apply He|done]|done].
Qed.

(** The tenant exists and the caller owns it, for the calls of an owner. *)
Lemma wp_by_owner t by_ refusal k Q c :
  calm c ->
  (forall c', same c c' -> exists_tenant (data c) t /\ role_in (data c) t (auth_user_id by_) OWNER -> wp k Q c') ->
  (forall s c', same c c' -> status_ok s = false -> Q s c') ->
  wp (bind (TenantExists t) (fun e =>
        if negb e then Ret (TenantStatus kTenantNotFound t) else owners_only t by_ refusal k)) Q c.
Proof.
  intros Hm Hk Hno. apply wp_bind, wp_TenantExists; [done|]. intros e c1 Hs1 He. destruct e; cbn [negb].
  2: by apply wp_ret, Hno; [|apply TenantStatus_not_ok].
  apply wp_owners_only; [by eapply same_calm| |].
  - intros c2 Hs2 Hr. rewrite (same_data _ _ Hs1) in Hr. apply Hk; [by eapply same_trans|auto].
  - intros s c2 Hs2. apply Hno. by eapply same_trans.
Qed.

Lemma wp_Delete t by_ c :
  calm c -> let k := DeleteTenant t by_ in
  wp (perform k) (outcome (authorised k (data c)) (applied k (data c)) c) c.
Proof.
  intros Hm k. apply wp_by_owner; [done| |intros; by apply outcome_refused].
  intros c1 Hs1 Hauth. apply wp_bind, wp_count; [by eapply same_calm|]. intros n c2 Hs2.
  pose proof (same_trans _ _ _ Hs1 Hs2) as Hs.
  destruct n as [n|]; [|by apply wp_ret, outcome_refused; [|apply TenantStatus_not_ok]].
  destruct (0 <? n); [by apply wp_ret, outcome_refused; [|apply TenantStatus_not_ok]|].
  apply wp_bind, wp_count; [by eapply same_calm|]. intros l c3 Hs3. pose proof (same_trans _ _ _ Hs Hs3) as Hs'.
  destruct l as [l|]; [|by apply wp_ret, outcome_refused; [|apply TenantStatus_not_ok]].
  destruct (0 <? l); [by apply wp_ret, outcome_refused; [|apply TenantStatus_not_ok]|].
  by apply wp_both_after.
Qed.

Lemma wp_TransferOwnership t new_owner by_ c :
  calm c -> let k := Transfer t new_owner by_ in
  wp (perform k) (outcome (authorised k (data c)) (applied k (data c)) c) c.
Proof.
  intros Hm k. apply wp_by_owner; [done| |intros; by apply outcome_refused].
  intros c1 Hs1 [Hex Hown]. apply wp_bind, wp_CallerRole; [by eapply same_calm|]. intros r c2 Hs2 Hr.
  rewrite (same_data _ _ Hs1) in Hr. pose proof (same_trans _ _ _ Hs1 Hs2) as Hs.
  destruct r as [role|]; [|by apply wp_ret, outcome_refused; [|apply TenantStatus_not_ok]].
  apply wp_both_after; [done|]. split; [done|]. split; [done|]. exists role. by apply Hr.
Qed.

(** After a change of a transaction: all is as it was but for the rows. *)
Lemma wp_Organization uuid now org by_ c :
  calm c -> let k := Organization uuid now org by_ in
  wp (perform k) (outcome (authorised k (data c)) (applied k (data c)) c) c.
Proof.
  intros Hm k. apply wp_bind. unfold CreateOrganization. apply wp_bind, wp_sql. intros b c1 Hb.
  apply calm_BEGIN_cases in Hb as (Hm1 & Hd1 & Hs1); [|done]. destruct b; cbn [negb].
  2: apply wp_ret, wp_ret, outcome_refused; [done|apply TenantStatus_not_ok].
  destruct Hs1 as [Hi Hs1]. apply wp_bind. eapply wp_change_in; [done..|]. intros r1 c2 Hm2 Hs2 Hr1.
  assert (forall s : Status, status_ok s = false -> forall c0, calm c0 -> saved c0 = Some (data c) ->
     wp (rolled_back (Error s : Result Tenant))
        (fun a => wp (Ret (status_of a)) (outcome (authorised k (data c)) (applied k (data c)) c)) c0) as Hback.
  { intros s Hno c0 Hm0 Hs0. apply wp_rolled_back; [done|]. intros c' Hm' Hc'. apply wp_ret. split; [done|].
    left. split; [done|]. rewrite Hc'. unfold committed. by rewrite Hs0, Hi. }
  destruct r1 as [|[]|n]; try by apply Hback; [apply TenantStatus_not_ok|..].
  specialize (Hr1 eq_refl). apply wp_bind. eapply wp_change_in; [done..|]. intros r2 c3 Hm3 Hs3 Hr2.
  destruct r2 as [|b|m]; try by apply Hback; [apply TenantStatus_not_ok|..].
  specialize (Hr2 eq_refl). apply wp_commit; [done|by eapply in_transaction_saved|..].
  - intros c4 Hm4 Hd4 Hs4. apply wp_ret. split; [done|]. right. split; [done|]. split; [done|].
    split; [|by rewrite Hi]. unfold applied, then_, k. rewrite <- Hd1.
    destruct (insert_tenant _ (data c1)) as [[n1 d1]|]; simplify_eq/=. by rewrite Hr2, Hd4.
  - intros s c4 Hno Hm4 Hc4. apply wp_ret. split; [done|]. left. split; [done|].
    rewrite Hc4. unfold committed. by rewrite Hs3, Hi.
Qed.

Lemma perform_outcome k c :
  calm c -> wp (perform k) (outcome (authorised k (data c)) (applied k (data c)) c) c.
Proof.
  destruct k; intros Hm; [by apply wp_Organization|by apply wp_AddMember|by apply wp_RemoveMember|
    by apply wp_UpdateMemberRole|by apply wp_UpdateName|by apply wp_Delete|by apply wp_TransferOwnership].
Qed.

(** The tenants and their members change by authorised calls alone.  For every
    call of the routes and whatever statements fail on the way (as long as SQLite
    ends no transaction by itself): a call that answers an error leaves everything
    committed as it was; a call that answers OK was made by someone the rows allow -
    a manager (owner or admin) for members and names, an owner for deletions and
    transfers, never removing or demoting the last owner - and the rows afterwards
    are exactly those of its statements, inside the transaction that the call found
    open or committed when it found none. *)
Theorem Tenant_calls_authorized k c s c' :
  calm c -> run (perform k) c = (s, c') ->
  calm c' /\
  (status_ok s = false /\ committed c' = committed c \/
   status_ok s = true /\ authorised k (data c) /\ applied k (data c) = Some (data c') /\ saved c' = saved c).
Proof. intros Hm Hr. pose proof (perform_outcome k c Hm) as Ho. unfold wp in Ho. by rewrite Hr in Ho. Qed.

(** ** The owner *)

Record ok (d : Db) : Prop := {
  ok_key : NoDup ((fun m => (m_tenant m, m_user m)) <$> user_tenants d);
  ok_owner : forall t, t ∈ tenants d -> exists m, m ∈ user_tenants d /\ has_role (t_id t) "owner" m
}.

(** The call is no transfer to the caller itself. *)
Definition safe (k : call) : Prop :=
  match k with Transfer _ new_owner by_ => new_owner <> auth_user_id by_ | _ => True end.

Lemma ok_unique d t u m m' :
  ok d -> m ∈ user_tenants d -> m' ∈ user_tenants d -> is_member t u m -> is_member t u m' -> m = m'.
Proof.
  intros Hd Hm Hm' [? ?] [? ?]. eapply (NoDup_fmap_inj (fun m => (m_tenant m, m_user m))); [apply Hd|done|done|].
  simpl. congruence.
Qed.

Lemma keys_filter (P : MemberRow -> Prop) `{forall m, Decision (P m)} l :
  NoDup ((fun m => (m_tenant m, m_user m)) <$> l) ->
  NoDup ((fun m => (m_tenant m, m_user m)) <$> filter P l).
Proof.
  intros Hl. eapply sublist_NoDup; [exact Hl|]. apply sublist_fmap, sublist_filter.
Qed.

(** Two owners: besides any member there is another one. *)
Lemma another_owner d t u :
  ok d -> 1 < i32 (len (owners d t)) ->
  exists m, m ∈ user_tenants d /\ has_role t "owner" m /\ m_user m <> u.
Proof.
  intros Hd Hn. pose proof (keys_filter (has_role t "owner") _ (ok_key d Hd)) as Hnd. fold (owners d t) in Hnd.
  assert (forall m, m ∈ owners d t -> m ∈ user_tenants d /\ has_role t "owner" m) as Hin.
  { intros m Hm. apply list_elem_of_filter in Hm. by destruct Hm. }
  destruct (owners d t) as [|m [|m' l]]; [done|done|].
  destruct (decide (m_user m = u)) as [E|E]; [exists m'|exists m].
  - destruct (Hin m' ltac:(set_solver)) as [? Hr']. destruct (Hin m ltac:(set_solver)) as [_ Hr].
    split; [done|]. split; [done|]. intros E'. simpl in Hnd. apply NoDup_cons in Hnd as [Hno _].
    apply Hno. destruct Hr as [-> _], Hr' as [-> _]. rewrite E, E'. set_solver.
  - destruct (Hin m ltac:(set_solver)). done.
Qed.

Lemma role_owner m : ParseTenantRole (m_role m) = Some OWNER <-> m_role m = "owner"%string.
Proof. unfold ParseTenantRole. repeat case_bool_decide; naive_solver congruence. Qed.

(** The one membership of [u] in [t], by its role. *)
Lemma role_in_owner d t u role m :
  ok d -> role_in d t u role -> m ∈ user_tenants d -> is_member t u m -> has_role t "owner" m -> role = OWNER.
Proof.
  intros Hd (m' & Hm' & Hi' & Hp) Hm Hi [_ Hr]. rewrite (ok_unique d t u m' m) in Hp by done.
  apply role_owner in Hr. congruence.
Qed.

Lemma delete_member_ok d t u role n d' :
  ok d -> role_in d t u role -> (role = OWNER -> 1 < i32 (len (owners d t))) ->
  delete_member t u d = Some (n, d') -> ok d'.
Proof.
  intros Hd Hr Hlast [= <- <-]. split; [by apply keys_filter, Hd|]. simpl. intros x Hx.
  destruct (ok_owner d Hd x Hx) as (m & Hm & Ho). destruct (decide (is_member t u m)) as [Hi|Hi].
  - assert (t_id x = t) as Et by (destruct Ho as [Ho _], Hi as [Hi _]; congruence). rewrite Et in Ho.
    assert (role = OWNER) as -> by (by eapply role_in_owner).
    destruct (another_owner d t u Hd (Hlast eq_refl)) as (m2 & Hm2 & Ho2 & Hne). exists m2. rewrite Et.
    split; [|done]. apply list_elem_of_filter. split; [|done]. by intros [_ ?].
  - exists m. split; [|done]. by apply list_elem_of_filter.
Qed.

Lemma set_role_keys t u role (l : list MemberRow) :
  (fun m => (m_tenant m, m_user m)) <$> (with_role t u role <$> l) = (fun m => (m_tenant m, m_user m)) <$> l.
Proof. rewrite <- list_fmap_compose. apply list_fmap_ext. intros _ m _. unfold with_role. simpl. by case_decide. Qed.

(** A new role keeps the owners when somebody else owns the tenant afterwards. *)
Lemma set_role_ok d t u role n d' :
  ok d -> set_role t u role d = Some (n, d') ->
  (role = "owner"%string \/ exists m, m ∈ user_tenants d /\ has_role t "owner" m /\ m_user m <> u) \/
  (forall m, m ∈ user_tenants d -> is_member t u m -> ~ has_role t "owner" m) ->
  ok d'.
Proof.
  intros Hd [= <- <-] Hother. split; simpl; [rewrite set_role_keys; apply Hd|]. intros x Hx.
  destruct (ok_owner d Hd x Hx) as (m & Hm & Ho).
  assert (forall m, m ∈ user_tenants d -> with_role t u role m ∈ with_role t u role <$> user_tenants d) as Hmap.
  { intros. by apply list_elem_of_fmap_2. }
  destruct (decide (is_member t u m)) as [Hi|Hi].
  2: { exists m. split; [|done]. specialize (Hmap m Hm). unfold with_role at 1 in Hmap. by rewrite decide_False in Hmap. }
  assert (t_id x = t) as Et by (destruct Ho as [Ho _], Hi as [Hi _]; congruence). rewrite Et in *.
  destruct Hother as [[->|(m2 & Hm2 & Ho2 & Hne)]|Hno]; [| |by destruct (Hno m Hm Hi)].
  - eexists. split; [apply Hmap, Hm|]. unfold with_role. rewrite decide_True by done. split; [apply Hi|done].
  - exists m2. split; [|done]. specialize (Hmap m2 Hm2). unfold with_role at 1 in Hmap.
    rewrite decide_False in Hmap; [done|]. by intros [_ ?].
Qed.

Lemma insert_member_ok d r n d' : ok d -> insert_member r d = Some (n, d') -> ok d'.
Proof.
  intros Hd. unfold insert_member. destruct (existsb _ _) eqn:He; [done|]. intros [= <- <-]. split; simpl.
  - rewrite fmap_app. apply NoDup_app. split; [apply Hd|]. split; [|apply NoDup_singleton].
    intros k Hk Hk'. apply list_elem_of_singleton in Hk' as ->.
    apply list_elem_of_fmap in Hk as (m & Hk & Hm). apply not_true_iff_false in He. apply He.
    apply existsb_exists. exists m. rewrite <- list_elem_of_In. split; [done|]. apply bool_decide_eq_true.
    injection Hk as Ht Hu. by split.
  - intros t Ht. destruct (ok_owner d Hd t Ht) as (m & Hm & Ho). exists m. split; [set_solver|done].
Qed.

Lemma insert_tenant_members r d n d' :
  insert_tenant r d = Some (n, d') -> user_tenants d' = user_tenants d /\ tenants d' = tenants d ++ [r].
Proof. unfold insert_tenant. destruct (existsb _ _); [done|]. by intros [= <- <-]. Qed.

Lemma then_Some (f g : Db -> option (Z * Db)) d d' :
  then_ f g d = Some d' -> exists n d1 m, f d = Some (n, d1) /\ g d1 = Some (m, d').
Proof.
  unfold then_. destruct (f d) as [[n d1]|]; simpl; [|done].
  destruct (g d1) as [[m d2]|] eqn:Hg; simpl; [|done]. intros [= ->]. eauto 6.
Qed.

Lemma fst_Some (o : option (Z * Db)) d' : snd <$> o = Some d' -> exists n, o = Some (n, d').
Proof. destruct o as [[n d]|]; simpl; [|done]. intros [= ->]. by exists n. Qed.

Lemma organization_ok uuid now org by_ d d' :
  ok d -> applied (Organization uuid now org by_) d = Some d' -> ok d'.
Proof.
  intros Hd (n & d1 & m & H1 & H2)%then_Some. apply insert_tenant_members in H1 as [Hu Ht].
  unfold insert_member in H2. rewrite Hu in H2. destruct (existsb _ _) eqn:He; [done|]. injection H2 as <- <-.
  assert (insert_member (MkMemberRow (auth_user_id by_) ("tenant-" +:+ uuid) "owner" now) d =
    Some (1, d <| user_tenants := user_tenants d ++ [MkMemberRow (auth_user_id by_) ("tenant-" +:+ uuid) "owner" now] |>))
    as Hi by (unfold insert_member; by rewrite He).
  apply insert_member_ok in Hi as [Hk Ho]; [|done]. split; [exact Hk|]. simpl in *. rewrite Ht.
  intros x [Hx| ->%list_elem_of_singleton]%elem_of_app; [by apply Ho|].
  eexists. split; [apply elem_of_app; right; by apply list_elem_of_singleton|]. done.
Qed.

Lemma delete_tenant_ok t d d' : ok d -> applied (DeleteTenant t (MkAuthContext "" "" "" 0)) d = Some d' -> ok d'.
Proof.
  intros Hd (n & d1 & m & [= <- <-] & H2)%then_Some. unfold delete_tenant in H2. simpl in H2.
  destruct (_ && _) in H2; [done|]. injection H2 as <- <-. split; [by apply keys_filter, Hd|]. simpl.
  intros x [Hne Hx]%list_elem_of_filter. destruct (ok_owner d Hd x Hx) as (r & Hr & Ho). exists r.
  split; [|done]. apply list_elem_of_filter. split; [|done]. by destruct Ho as [-> _].
Qed.

Lemma applied_ok k d d' : ok d -> authorised k d -> safe k -> applied k d = Some d' -> ok d'.
Proof.
  intros Hd Ha Hsafe. destruct k as [uuid now org by_|now t u role by_|t u by_|t u role by_|t new_name by_|t by_|t new_owner by_].
  - by apply organization_ok.
  - intros [n Hi]%fst_Some. by eapply insert_member_ok.
  - intros [n Hi]%fst_Some. destruct Ha as (_ & role & Hr & Hlast). by eapply delete_member_ok.
  - intros [n Hi]%fst_Some. destruct Ha as (_ & old & Hr & Hlast). eapply set_role_ok; [done..|].
    destruct (decide (role = OWNER)) as [->|Hne]; [left; by left|].
    destruct (decide (old = OWNER)) as [->|Hold].
    + left. right. apply another_owner; [done|]. by apply Hlast.
    + right. intros m Hm Hi' Ho. apply Hold. by eapply role_in_owner.
  - intros [n Hi]%fst_Some. injection Hi as <- <-. split; [apply Hd|]. simpl.
    intros x (y & -> & Hy)%list_elem_of_fmap. destruct (ok_owner d Hd y Hy) as (m & ? & ?). exists m.
    split; [done|]. by case_decide.
  - by apply delete_tenant_ok.
  - intros (n & d1 & m & H1 & H2)%then_Some. destruct Ha as (_ & _ & role & (r & Hr & Hi & _)).
    assert (ok d1) as Hd1 by (eapply set_role_ok; [exact Hd|exact H1|left; by left]).
    eapply set_role_ok; [exact Hd1|exact H2|]. left. right. exists (with_role t new_owner "owner" r).
    injection H1 as _ <-. simpl. split; [by apply (list_elem_of_fmap_2 (with_role t new_owner "owner"))|].
    unfold with_role. rewrite decide_True by done. destruct Hi as [Ht Hu]. split; [by split|]. simpl. by rewrite Hu.
Qed.

(** C11: A tenant never loses its last owner.  Start from rows in which every tenant
    has an owner and no membership is stored twice.  After any calls of the routes,
    by anybody, one after the other, with any statements failing (as long as SQLite
    ends no transaction by itself, and nobody transfers a tenant to himself), that
    is so for what is committed: creating, adding, removing, demoting, renaming,
    deleting and transferring keep it, and so does every failed call, even one
    whose rollback fails and leaves the transaction open. *)
Theorem Tenant_keeps_owner ks c l c' :
  calm c -> ok (committed c) -> Forall safe ks -> performs ks c = (l, c') -> ok (committed c').
Proof.
  revert c l c'. induction ks as [|k ks IH]; intros c l c' Hm Hd Hs; simpl; [by intros [= _ <-]|].
  apply Forall_cons in Hs as [Hk Hks]. pose proof (perform_outcome k c Hm) as Ho. unfold wp in Ho.
  destruct (run (perform k) c) as [s c1]. destruct (performs ks c1) as [l2 c2] eqn:Hp. intros [= _ <-].
  destruct Ho as [Hm1 Ho]. eapply IH; [exact Hm1| |done|exact Hp].
  destruct Ho as [[_ ->]|(_ & Ha & Hap & Hsv)]; [done|]. unfold committed in *. rewrite Hsv.
  destruct (saved c); simpl in *; [done|]. by eapply applied_ok.
Qed.

End Calls.

(** ** Runs *)

Module TenantRuns.

Definition ann : AuthContext := MkAuthContext "t" "ann" "" 7.
Definition bob : AuthContext := MkAuthContext "t" "bob" "" 7.
Definition member_row (u role : string) : MemberRow := MkMemberRow u "t" role 0.
Definition db (ms : list MemberRow) : Db := MkDb [MkTenantRow "t" None None "tenant" 0] ms [] [] [].
Definition ann_and_bob (r : string) : Db := db [member_row "ann" "owner"; member_row "bob" r].

Lemma ann_and_bob_ok r : ok (ann_and_bob r).
Proof.
  split; simpl.
  - apply NoDup_cons. split; [set_solver|apply NoDup_singleton].
  - intros t ->%list_elem_of_singleton. exists (member_row "ann" "owner"). split; [apply list_elem_of_here|done].
Qed.

Definition owners_of (c : Conn Db) : list string := m_user <$> owners (committed c) "t".

Lemma Tenant_calls_authorized_witness :
  let c := MkConn (ann_and_bob "member") None [SqlOk; SqlOk; SqlOk; SqlOk; SqlStepErr 0] in
  let '(s, c') := run (perform "msg" (Transfer "t" "bob" ann)) c in
  status_ok s = false /\ committed c' = ann_and_bob "member".
Proof.
  intros c. assert (calm c) as Hm by (by repeat constructor).
  destruct (Tenant_calls_authorized "msg" (Transfer "t" "bob" ann) c
    (run (perform "msg" (Transfer "t" "bob" ann)) c).1 (run (perform "msg" (Transfer "t" "bob" ann)) c).2
    Hm (surjective_pairing _)) as [_ [[Hs Hc]|[Hs _]]].
  - destruct (run _ c) as [s c']. split; [exact Hs|exact Hc].
  - vm_compute in Hs. discriminate.
Defined.

Lemma Tenant_keeps_owner_witness :
  let ks := [Transfer "t" "bob" ann; Remove "t" "ann" bob; Remove "t" "bob" bob] in
  let '(l, c) := performs "msg" ks (MkConn (ann_and_bob "member") None []) in
  status_ok <$> l = [true; true; false] /\ ok (committed c).
Proof.
  intros ks. pose proof (Tenant_keeps_owner "msg" ks (MkConn (ann_and_bob "member") None [])
    (performs "msg" ks (MkConn (ann_and_bob "member") None [])).1
    (performs "msg" ks (MkConn (ann_and_bob "member") None [])).2
    ltac:(constructor) (ann_and_bob_ok "member") ltac:(repeat constructor; discriminate)
    (surjective_pairing _)) as Hok.
  destruct (performs "msg" ks _) as [l c] eqn:E. split; [|exact Hok].
  vm_compute in E. by injection E as <- _.
Defined.

(** A transfer to oneself promotes and then demotes the one owner. *)
Lemma Self_transfer_leaves_no_owner :
  let '(s, c) := run (perform "msg" (Transfer "t" "ann" ann)) (MkConn (ann_and_bob "member") None []) in
  s = Status_Ok /\ owners_of c = [].
Proof. by vm_compute. Qed.

(** When SQLite ends the transaction with the promotion, the demotion runs and
    commits by itself. *)
Lemma Aborted_promotion_leaves_no_owner :
  let '(s, c) := run (perform "msg" (Transfer "t" "bob" ann))
    (MkConn (ann_and_bob "member") None [SqlOk; SqlOk; SqlOk; SqlOk; SqlAbort]) in
  status_ok s = false /\ saved c = None /\ owners_of c = [].
Proof. by vm_compute. Qed.

(** An admin makes himself an owner, and may then do what only owners may. *)
Lemma Admin_becomes_owner :
  let '(l, c) := performs "msg" [SetRole "t" "bob" OWNER bob; Remove "t" "ann" bob; DeleteTenant "t" bob]
    (MkConn (ann_and_bob "admin") None []) in
  l = [Status_Ok; Status_Ok; Status_Ok] /\ tenants (data c) = [].
Proof. by vm_compute. Qed.

(** Two owners leave at the same time: each call counts two owners before the
    other one deletes. *)
Lemma Racing_removals_leave_no_owner :
  let '(ts, c) := interleave [0; 1; 0; 1; 0; 1; 0; 1]%nat
    [perform "msg" (Remove "t" "ann" ann); perform "msg" (Remove "t" "bob" bob)]
    (MkConn (ann_and_bob "owner") None []) in
  answer <$> ts = [Some Status_Ok; Some Status_Ok] /\ user_tenants (data c) = [].
Proof. by vm_compute. Qed.

(** A member is added, and acknowledged, inside the transaction of a transfer that
    then fails: the rollback takes the member away again. *)
Lemma Acknowledged_member_rolled_back :
  let '(ts, c) := interleave ([0; 0; 0; 0] ++ [1; 1; 1; 1] ++ [0; 0; 0])%nat
    [perform "msg" (Transfer "t" "bob" ann); perform "msg" (Add 0 "t" "eve" MEMBER bob)]
    (MkConn (ann_and_bob "admin") None
       [SqlOk; SqlOk; SqlOk; SqlOk; SqlOk; SqlOk; SqlOk; SqlOk; SqlStepErr 0]) in
  answer <$> ts = [Some (failed "transfer ownership: msg"); Some Status_Ok] /\
  user_tenants (data c) = user_tenants (ann_and_bob "admin").
Proof. by vm_compute. Qed.

(** On its own connection [CreatePersonal] has no transaction: when the second
    insertion fails, the tenant stays without an owner. *)
Lemma Personal_tenant_without_owner :
  let '(r, c) := run (CreatePersonal "msg" "u" 0 "eve" "eve@x") (MkConn (db []) None [SqlOk; SqlStepErr 0]) in
  r = Error (failed "user_tenants insert: msg") /\ t_id <$> tenants (data c) = ["t"; "tenant-u"]%string.
Proof. by vm_compute. Qed.

Lemma UuidV4_form :
  UuidV4 (replicate 16 255) = "ffffffff-ffff-4fff-bfff-ffffffffffff"%string /\
  UuidV4 (seqZ 0 16) = "00010203-0405-4607-8809-0a0b0c0d0e0f"%string.
Proof. by vm_compute. Qed.

End TenantRuns.
