(* ===== verification/ApiKeys.v ===== *)
(** * API keys and the gate of the routes (src/auth/)

    [ApiKeyService] keeps the keys of platform.db, [BootstrapHandler] mints the
    first one, [ApiKeyAuth] authenticates a credential by the configured keys or
    those of platform.db and authorizes a namespace, and [WithAuth] runs a
    route's handler after both.  SHA-256 is a parameter, and so are the random
    bytes.  The borrowed handles are set. *)
From Stdlib Require Import Ascii String.
From stdpp Require Import gmap strings pretty.
From S2P Require Import Prelude Status Sqlite SqlProgram SecurityErrors Permissions Tenants.

Module ApiKeys.
Import Sqlite SqliteRows SqlProgram AuthError.
#[local] Open Scope prog_scope.

(** ** platform.db, as far as the keys use it *)

Record UserRow := MkUserRow { u_id : string; u_email : string; u_role : string; u_status : string }.

Record KeyRow := MkKeyRow {
  k_id : string;
  k_user : string;
  k_name : string;
  k_hash : string;
  k_prefix : string;
  k_created : Z;
  k_expires : option Z;
  k_last_used : option Z;
  k_revoked_at : option Z;
  k_status : string
}.

Record Db := MkDb { users : list UserRow; api_keys : list KeyRow }.
#[export] Instance Db_eta : Eta Db := fun d => MkDb (users d) (api_keys d).

Definition has_user (P : UserRow -> bool) (d : Db) : bool := existsb P (users d).
Definition same_user (r u : UserRow) : bool := bool_decide (u_id u = u_id r) || bool_decide (u_email u = u_email r).

(** INSERT INTO users: the key and the unique address; [OR IGNORE] leaves a
    conflicting row out. *)
Definition insert_user (r : UserRow) (d : Db) : option (Z * Db) :=
  if has_user (same_user r) d then None else Some (1, d <| users := users d ++ [r] |>).
Definition insert_or_ignore_user (r : UserRow) (d : Db) : option (Z * Db) :=
  Some (default (0, d) (insert_user r d)).

(** INSERT INTO api_keys: the key, then the user it belongs to. *)
Definition insert_key (r : KeyRow) (d : Db) : option (Z * Db) :=
  if existsb (fun k => bool_decide (k_id k = k_id r)) (api_keys d)
     || negb (has_user (fun u => bool_decide (u_id u = k_user r)) d)
  then None
  else Some (1, d <| api_keys := api_keys d ++ [r] |>).

Definition with_last_used (h : string) (now : Z) (k : KeyRow) : KeyRow :=
  if decide (k_hash k = h)
  then MkKeyRow (k_id k) (k_user k) (k_name k) (k_hash k) (k_prefix k) (k_created k) (k_expires k) (Some now)
         (k_revoked_at k) (k_status k)
  else k.
Definition touch_key (h : string) (now : Z) (d : Db) : option (Z * Db) :=
  Some (len (filter (fun k => k_hash k = h) (api_keys d)), d <| api_keys := with_last_used h now <$> api_keys d |>).

Definition revocable (id : string) (k : KeyRow) : Prop := k_id k = id /\ k_status k <> "revoked"%string.
#[export] Instance revocable_dec id k : Decision (revocable id k).
Proof. unfold revocable. apply _. Defined.

Definition with_revocation (id : string) (now : Z) (k : KeyRow) : KeyRow :=
  if decide (revocable id k)
  then MkKeyRow (k_id k) (k_user k) (k_name k) (k_hash k) (k_prefix k) (k_created k) (k_expires k) (k_last_used k)
         (Some now) "revoked"
  else k.
Definition revoke_key (id : string) (now : Z) (d : Db) : option (Z * Db) :=
  Some (len (filter (revocable id) (api_keys d)), d <| api_keys := with_revocation id now <$> api_keys d |>).

(** ** Keys *)

Record ApiKeyInfo := MkApiKeyInfo {
  id : string;
  user_id : string;
  name : string;
  key_prefix : string;
  created_at : Z;
  expires_at : Z;
  last_used_at : Z;
  status : string
}.

Record CreatedApiKey := MkCreatedApiKey { info : ApiKeyInfo; plaintext : string }.

(** Two lower-case digits per byte. *)
Definition hex (b : list Z) : string :=
  String.string_of_list_ascii
    (flat_map (fun x => [TenantService.hex_digit (Z.shiftr x 4); TenantService.hex_digit (Z.land x 15)]) b).

(** [b]: the 32 bytes of RAND_bytes. *)
Definition GenerateApiKeyPlaintext (b : list Z) : string := "cortrix_sk_" +:+ hex b.

Section Keys.
Context `{Planner} (SHA256 : string -> list Z).

Notation M := (prog Db).

(** [ApiKeyService::HashApiKey] and [ApiKeyAuth::HashKey]. *)
Definition HashApiKey (plaintext : string) : string := hex (SHA256 plaintext).

(** [unow] and [now]: the clock at the two insertions; [key_bytes] and [id_bytes]
    are random. *)
Definition CreateApiKey (unow now : Z) (key_bytes id_bytes : list Z) (user nm : string) (expires : Z)
    : M (Result CreatedApiKey) :=
  _ <- sql (change (insert_or_ignore_user (MkUserRow user (user +:+ "@local") "user" "active"))) ;;
  let plain := GenerateApiKeyPlaintext key_bytes in
  let prefix := String.substring 0 16 plain in
  let key_id := hex id_bytes in
  r <- sql (change (insert_key (MkKeyRow key_id user nm (HashApiKey plain) prefix now
                                  (if 0 <? expires then Some expires else None) None None "active"))) ;;
  Ret (match r with
       | PrepareFailed => Error (AuthStatus kServiceUnavailable "api_key insert prepare failed")
       | StepFailed _ => Error (AuthStatus kServiceUnavailable "api_key insert failed")
       | Changes _ =>
           Value (MkCreatedApiKey (MkApiKeyInfo key_id user nm prefix now expires 0 "active") plain)
       end).

(** [now] at the check, [used] at the bump of last_used_at. *)
Definition ValidateApiKey (now used : Z) (plain : string) : M (Result string) :=
  let h := HashApiKey plain in
  rows <- sql (select (fun d => take 1 (scan (filter (fun k => k_hash k = h) (api_keys d))))) ;;
  match rows with
  | None => Ret (Error (AuthStatus kServiceUnavailable "api_key lookup prepare failed"))
  | Some ([], _) => Ret (Error (AuthStatus kInvalidApiKey "reason=not_found"))
  | Some (k :: _, _) =>
      if bool_decide (k_status k = "revoked"%string)
      then Ret (Error (AuthStatus kInvalidApiKey "reason=revoked"))
      else if from_option (fun e => e <=? now) false (k_expires k)
      then Ret (Error (AuthStatus kInvalidApiKey "reason=expired"))
      else _ <- sql (change (touch_key h used)) ;; Ret (Value (k_user k))
  end.

Definition newest_first (a b : KeyRow) : bool := k_created b <=? k_created a.

Definition info_of (user : string) (k : KeyRow) : ApiKeyInfo :=
  MkApiKeyInfo (k_id k) user (k_name k) (k_prefix k) (k_created k) (default 0 (k_expires k))
    (default 0 (k_last_used k)) (k_status k).

Definition ListApiKeys (user : string) : M (Result (list ApiKeyInfo)) :=
  rows <- sql (select (fun d => order_by newest_first (filter (fun k => k_user k = user) (api_keys d)))) ;;
  Ret (match rows with
       | None => Error (AuthStatus kServiceUnavailable "api_key list prepare failed")
       | Some (l, _) => Value (info_of user <$> l)
       end).

Definition RevokeApiKey (now : Z) (key_id : string) : M Status :=
  r <- sql (change (revoke_key key_id now)) ;;
  match r with
  | PrepareFailed => Ret (AuthStatus kServiceUnavailable "api_key revoke prepare failed")
  | StepFailed _ => Ret (AuthStatus kServiceUnavailable "api_key revoke failed")
  | Changes n =>
      if n =? 0 then
        q <- sql (one_row (fun d => filter (fun k => k_id k = key_id) (api_keys d))) ;;
        Ret (if bool_decide (is_Some q) then Status_Ok else AuthStatus kNotFound "key_id not found")
      else Ret Status_Ok
  end.

(** ** The first key (bootstrap_handler.cpp) *)

Record BootstrapHandler := MkBootstrap { token_ : string; token_expires_ms_ : Z; token_used_ : bool }.

Definition kTokenTtlMs : Z := 60 * 1000.

(** A probe that does not step reads as an empty table. *)
Definition IsFirstStart : M (Result bool) :=
  rows <- sql (select (fun d => take 1 (scan (users d)))) ;;
  Ret (match rows with
       | None => Error (AuthStatus kServiceUnavailable "users probe prepare failed")
       | Some (l, _) => Value (bool_decide (l = []))
       end).

Definition GenerateToken (now : Z) (bytes : list Z) (b : BootstrapHandler)
    : M (Result string * BootstrapHandler) :=
  first <- IsFirstStart ;;
  Ret (match first with
       | Error s => (Error s, b)
       | Value false => (Value ""%string, b)
       | Value true =>
           let t := "ctx_bootstrap_" +:+ hex bytes in (Value t, MkBootstrap t (now + kTokenTtlMs) false)
       end).

(** The check and the mark, under the mutex. *)
Definition take_token (now : Z) (token : string) (b : BootstrapHandler) : option Status * BootstrapHandler :=
  if bool_decide (token_ b = ""%string) || negb (bool_decide (token = token_ b))
  then (Some (AuthStatus kBootstrapTokenInvalid "reason=not_found"), b)
  else if token_used_ b then (Some (AuthStatus kBootstrapTokenInvalid "reason=used"), b)
  else if token_expires_ms_ b <=? now then (Some (AuthStatus kBootstrapTokenInvalid "reason=expired"), b)
  else (None, MkBootstrap (token_ b) (token_expires_ms_ b) true).

Record BootstrapResult := MkBootstrapResult { admin_api_key : string; admin_user_id : string; admin_key_id : string }.

(** After the token is taken: the user, then the key. *)
Definition mint_admin (unow now : Z) (user_bytes key_bytes id_bytes : list Z) : M (Result BootstrapResult) :=
  let user := "usr_" +:+ hex user_bytes in
  r <- sql (change (insert_user (MkUserRow user "admin@localhost" "admin" "active"))) ;;
  match r with
  | PrepareFailed => Ret (Error (AuthStatus kServiceUnavailable "admin user insert prepare failed"))
  | StepFailed _ => Ret (Error (AuthStatus kServiceUnavailable "admin user insert failed"))
  | Changes _ =>
      k <- CreateApiKey unow now key_bytes id_bytes user "bootstrap-admin" 0 ;;
      Ret (match k with
           | Error s => Error s
           | Value k => Value (MkBootstrapResult (plaintext k) user (id (info k)))
           end)
  end.

Definition Consume (taken_at unow now : Z) (user_bytes key_bytes id_bytes : list Z) (token : string)
    (b : BootstrapHandler) : M (Result BootstrapResult * BootstrapHandler) :=
  let '(e, b) := take_token taken_at token b in
  match e with
  | Some s => Ret (Error s, b)
  | None => r <- mint_admin unow now user_bytes key_bytes id_bytes ;; Ret (r, b)
  end.

End Keys.
End ApiKeys.

(** ** The gate *)

Module ApiKeyAuth.
Import Sqlite SqlProgram.

Record ApiKeyConfig := MkApiKeyConfig { key_hash : string; tenant_id : string; permissions : Z; expires_at : Z }.

Definition LoadKeys (keys : list ApiKeyConfig) : gmap string ApiKeyConfig :=
  foldl (fun m k => <[key_hash k := k]> m) ∅ keys.

(** What a request reads and writes: the two databases. *)
Record World := MkWorld { platform : Conn ApiKeys.Db; catalog : Conn PermissionService.Db }.
#[export] Instance World_eta : Eta World := fun w => MkWorld (platform w) (catalog w).

Record Auth := MkAuth {
  enabled_ : bool;
  keys_ : gmap string ApiKeyConfig;
  db_keys_ : bool;
  ns_authz_ : option (AuthContext -> string -> Conn PermissionService.Db -> bool * Conn PermissionService.Db)
}.

Definition Unauthenticated (msg : string) : Status := MkStatus kUnauthenticated msg.
Definition PermissionDenied (msg : string) : Status := MkStatus kPermissionDenied msg.

Definition admin_bits : Z := Z.lor (Z.lor kPermRead kPermWrite) kPermAdmin.

Section Gate.
Context `{Planner} (SHA256 : string -> list Z).

(** [now_ms] is the clock of [ValidateApiKey], [now] the seconds of the check of a
    configured key. *)
Definition Authenticate (now_ms used now : Z) (a : Auth) (bearer : string) (w : World)
    : Result AuthContext * World :=
  if bool_decide (bearer = ""%string) then (Error (Unauthenticated "API key is empty"), w) else
  match keys_ a !! ApiKeys.HashApiKey SHA256 bearer with
  | None =>
      let invalid := Error (Unauthenticated "Invalid API key") in
      if negb (db_keys_ a) then (invalid, w) else
      let '(v, c) := run (ApiKeys.ValidateApiKey SHA256 now_ms used bearer) (platform w) in
      (match v with
       | Value user => Value (MkAuthContext "default_tenant" user "" admin_bits)
       | Error _ => invalid
       end, w <| platform := c |>)
  | Some kc =>
      if (0 <? expires_at kc) && (expires_at kc <? now) then (Error (Unauthenticated "API key expired"), w)
      else (Value (MkAuthContext (tenant_id kc) (tenant_id kc) "" (permissions kc)), w)
  end.

Definition Authorize (a : Auth) (ctx : AuthContext) (ns : string) (required : Z) (w : World) : Status * World :=
  if negb (Z.land (auth_permissions ctx) required =? required) then
    let perm :=
      if negb (Z.land required kPermAdmin =? 0) then "ADMIN"
      else if negb (Z.land required kPermWrite =? 0) then "WRITE" else "READ" in
    (PermissionDenied (perm +:+ " permission required"), w)
  else
    match ns_authz_ a with
    | Some authz =>
        if bool_decide (ns = ""%string) then (Status_Ok, w) else
        let '(b, c) := authz ctx ns (catalog w) in
        (if b then Status_Ok else PermissionDenied "CX_ERR_NS_UNAUTHORIZED", w <| catalog := c |>)
    | None => (Status_Ok, w)
    end.

(** A request, as far as the gate reads it: two headers and the parameter
    [:name] of the path; an absent header reads as empty. *)
Record Request := MkRequest { authorization : string; x_api_key : string; path_name : option string }.

Definition RequestCredential (r : Request) : string :=
  if (String.length "Bearer " <? String.length (authorization r))%nat
     && bool_decide (String.substring 0 7 (authorization r) = "Bearer "%string)
  then String.substring 7 (String.length (authorization r) - 7) (authorization r)
  else x_api_key r.

Inductive answer := Handled (ctx : AuthContext) | Refused (s : Status).

Definition anonymous : AuthContext := MkAuthContext "default_tenant" "anonymous" "" admin_bits.

(** The refusal of a permission bit gets the hint of the route. *)
Definition with_hint (hint : string) (s : Status) : Status :=
  if negb (bool_decide (hint = ""%string)) && bool_decide (status_code s = kPermissionDenied)
     && negb (String.prefix "CX_ERR_" (status_message s))
  then PermissionDenied (status_message s +:+ "; " +:+ hint) else s.

Definition WithAuth (now_ms used now : Z) (a : Auth) (required : Z) (hint : string) (req : Request) (w : World)
    : answer * World :=
  if negb (enabled_ a) then (Handled anonymous, w) else
  let token := RequestCredential req in
  if bool_decide (token = ""%string)
  then (Refused (Unauthenticated "Missing Authorization header or X-API-Key"), w) else
  let '(ctx, w) := Authenticate now_ms used now a token w in
  match ctx with
  | Error s => (Refused s, w)
  | Value ctx =>
      let '(s, w) := Authorize a ctx (default ""%string (path_name req)) required w in
      if status_ok s then (Handled ctx, w) else (Refused (with_hint hint s), w)
  end.

(** [NoAuth]: endpoints that ask for nothing. *)
Definition NoAuth : answer := Handled anonymous.

(** The authorizer that bootstrap.cpp installs. *)
Definition namespace_authorizer (ctx : AuthContext) (ns : string) (c : Conn PermissionService.Db)
    : bool * Conn PermissionService.Db :=
  let '(checks, c) := PermissionService.BatchCheck ctx [ns] c in
  (match checks with [] => false | k :: _ => PermissionService.can_read k end, c).

End Gate.
End ApiKeyAuth.
