(* ===== verification/ApiKeysTheory.v ===== *)
(** * What the gate lets through

    The one way past [WithAuth] ([Access_authorized]), and revoked keys that stay
    revoked ([Revoked_key_refused]); keys of disabled users, writes to what one may
    only read and the lost first key are in [AccessRuns]. *)
From Stdlib Require Import Ascii String.
From stdpp Require Import gmap strings.
From S2P Require Import Prelude Status Sqlite SqlProgram SecurityErrors NsRouter Permissions PermissionsTheory ApiKeys.
Import Sqlite SqliteRows SqlProgram SqlTransactions AuthError ApiKeys ApiKeyAuth.

Section Keys.
Context `{Planner} (SHA256 : string -> list Z).
Implicit Types c : Conn Db.

(** ** Authentication *)

(** The key opens the door at [now]. *)
Definition valid (now : Z) (k : KeyRow) : Prop :=
  k_status k <> "revoked"%string /\ forall e, k_expires k = Some e -> now < e.

Lemma wp_ValidateApiKey now used plain Q c :
  saved c = None ->
  (forall s c', unchanged c c' -> Q (Error s) c') ->
  (forall k c', saved c' = None -> k ∈ api_keys (data c) -> k_hash k = HashApiKey SHA256 plain -> valid now k ->
     Q (Value (k_user k)) c') ->
  wp (ValidateApiKey SHA256 now used plain) Q c.
Proof.
  intros Hn Hno Hyes. apply wp_bind, wp_select_alone; [done|]. intros rows c1 Hu Hrows.
  destruct rows as [[[|k l] b]|]; [by apply wp_ret, Hno| |by apply wp_ret, Hno].
  specialize (Hrows _ _ eq_refl k (list_elem_of_here _ _)).
  apply elem_of_take_all in Hrows. rewrite scan_perm in Hrows. apply list_elem_of_filter in Hrows as [Hh Hk].
  case_bool_decide as Hs; [by apply wp_ret, Hno|].
  destruct (from_option _ false (k_expires k)) eqn:He; [by apply wp_ret, Hno|].
  apply wp_bind, wp_change_alone; [apply Hu|]. intros r c2 Hs2 _. apply wp_ret, Hyes; try done.
  split; [done|]. intros e Hke. rewrite Hke in He. simpl in He. by apply Z.leb_gt in He.
Qed.

Lemma Authenticate_sound now_ms used now a bearer w ctx w' :
  Authenticate SHA256 now_ms used now a bearer w = (Value ctx, w') -> saved (platform w) = None ->
  catalog w' = catalog w /\
  match keys_ a !! HashApiKey SHA256 bearer with
  | Some kc => (0 < expires_at kc -> now <= expires_at kc) /\
      ctx = MkAuthContext (tenant_id kc) (tenant_id kc) "" (permissions kc)
  | None => exists k, k ∈ api_keys (data (platform w)) /\ k_hash k = HashApiKey SHA256 bearer /\
      valid now_ms k /\ ctx = MkAuthContext "default_tenant" (k_user k) "" admin_bits
  end.
Proof.
  unfold Authenticate. case_bool_decide; [done|]. destruct (keys_ a !! _) as [kc|] eqn:Hk.
  - destruct (_ && _) eqn:He; [done|]. intros [= <- <-] _. split; [done|]. split; [|done].
    apply andb_false_iff in He. rewrite !Z.ltb_ge in He. lia.
  - destruct (negb _); [done|]. intros Hv Hn.
    assert (wp (ValidateApiKey SHA256 now_ms used bearer) (fun r _ => forall u, r = Value u ->
      exists k, k ∈ api_keys (data (platform w)) /\ k_hash k = HashApiKey SHA256 bearer /\
        valid now_ms k /\ k_user k = u) (platform w)) as Hw.
    { apply wp_ValidateApiKey; [done|done|]. intros k c' _ Hin Hh Hval u [= <-]. by exists k. }
    unfold wp in Hw. destruct (run _ (platform w)) as [v c]. destruct v as [u|]; [|done].
    injection Hv as <- <-. split; [done|]. destruct (Hw u eq_refl) as (k & ? & ? & ? & <-). by exists k.
Qed.

Lemma Authorize_sound a ctx ns required w s w' :
  Authorize a ctx ns required w = (s, w') -> status_ok s = true -> saved (catalog w) = None ->
  ns_authz_ a = Some namespace_authorizer ->
  Z.land (auth_permissions ctx) required = required /\
  (ns <> ""%string -> readable (data (catalog w)) ns ctx).
Proof.
  unfold Authorize. intros Ha Hok Hn Hz. rewrite Hz in Ha.
  destruct (Z.eqb_spec (Z.land (auth_permissions ctx) required) required) as [E|E]; simpl in Ha.
  2: by injection Ha as <- _. split; [done|]. intros Hns. rewrite bool_decide_false in Ha by done.
  unfold namespace_authorizer in Ha. destruct (PermissionService.BatchCheck ctx [ns] (catalog w)) as [l c] eqn:Hb.
  apply BatchCheck_sound in Hb as (_ & Hl & Hall); [|done].
  destruct l as [|k l]; [done|]. simpl in *. destruct (PermissionService.can_read k) eqn:Hr; injection Ha as <- _; [|done].
  injection Hl as <- _. apply Forall_cons in Hall as [Hall _]. auto.
Qed.

(** C17: There is one way past the gate.  With authentication on and the authorizer
    that bootstrap installs, [WithAuth] runs a route's handler only if the request
    has a credential; the hash of the credential is a configured key that has not
    expired, and the caller is the tenant of that key with its permissions, or else
    it is a stored key that is neither revoked nor expired, and the caller is its
    user as an administrator of the default tenant; the caller has every
    permission bit that the route asks for; and when the path names a namespace,
    the caller may read it by the rows of the moment.  This holds whatever
    statements fail on either database. *)
Theorem Access_authorized now_ms used now a required hint req w ctx w' :
  enabled_ a = true -> ns_authz_ a = Some namespace_authorizer ->
  saved (platform w) = None -> saved (catalog w) = None ->
  WithAuth SHA256 now_ms used now a required hint req w = (Handled ctx, w') ->
  let h := HashApiKey SHA256 (RequestCredential req) in
  RequestCredential req <> ""%string /\
  match keys_ a !! h with
  | Some kc => (0 < expires_at kc -> now <= expires_at kc) /\
      ctx = MkAuthContext (tenant_id kc) (tenant_id kc) "" (permissions kc)
  | None => exists k, k ∈ api_keys (data (platform w)) /\ k_hash k = h /\ valid now_ms k /\
      ctx = MkAuthContext "default_tenant" (k_user k) "" admin_bits
  end /\
  Z.land (auth_permissions ctx) required = required /\
  (forall ns, path_name req = Some ns -> ns <> ""%string -> readable (data (catalog w)) ns ctx).
Proof.
  intros He Hz Hp Hc. unfold WithAuth. rewrite He. simpl. case_bool_decide as Ht; [done|].
  destruct (Authenticate _ _ _ _ _ _ w) as [r w1] eqn:Ha. destruct r as [ctx1|]; [|done].
  destruct (Authorize a ctx1 _ required w1) as [s w2] eqn:Hs. destruct (status_ok s) eqn:Hok; [|done].
  intros [= -> ->]. split; [done|]. apply Authenticate_sound in Ha as [Hcat Ha]; [|done].
  split; [exact Ha|]. rewrite <- Hcat in Hc. eapply Authorize_sound in Hs as [Hb Hr]; [|done..].
  split; [done|]. intros ns Hns Hne. rewrite Hns in Hr. rewrite <- Hcat. by apply Hr.
Qed.

(** ** Revocation *)

Inductive key_op :=
| KCreate (unow now : Z) (key_bytes id_bytes : list Z) (user nm : string) (expires : Z)
| KValidate (now used : Z) (plain : string)
| KList (user : string)
| KRevoke (now : Z) (key_id : string)
| KMint (unow now : Z) (user_bytes key_bytes id_bytes : list Z).

Definition key_call (o : key_op) : prog Db unit :=
  match o with
  | KCreate unow now kb ib user nm e => bind (CreateApiKey SHA256 unow now kb ib user nm e) (fun _ => Ret tt)
  | KValidate now used plain => bind (ValidateApiKey SHA256 now used plain) (fun _ => Ret tt)
  | KList user => bind (ListApiKeys user) (fun _ => Ret tt)
  | KRevoke now key_id => bind (RevokeApiKey now key_id) (fun _ => Ret tt)
  | KMint unow now ub kb ib => bind (mint_admin SHA256 unow now ub kb ib) (fun _ => Ret tt)
  end.

Fixpoint key_calls (os : list key_op) c : Conn Db :=
  match os with [] => c | o :: os => key_calls os (run (key_call o) c).2 end.

(** The call mints no key with the hash [h]. *)
Definition other_key (h : string) (o : key_op) : Prop :=
  match o with
  | KCreate _ _ kb _ _ _ _ | KMint _ _ _ kb _ => HashApiKey SHA256 (GenerateApiKeyPlaintext kb) <> h
  | _ => True
  end.

(** Every row with the hash [h] is revoked. *)
Definition shut (h : string) (d : Db) : Prop :=
  forall k, k ∈ api_keys d -> k_hash k = h -> k_status k = "revoked"%string.

Definition shut_conn (h : string) c : Prop := saved c = None /\ shut h (data c).

Lemma shut_map h f d :
  (forall k, k_hash (f k) = k_hash k) -> (forall k, k_status k = "revoked"%string -> k_status (f k) = "revoked"%string) ->
  shut h d -> shut h (d <| api_keys := f <$> api_keys d |>).
Proof.
  intros Hh Hs Hd k (k' & -> & Hk)%list_elem_of_fmap. rewrite Hh. intros E. by apply Hs, Hd.
Qed.

Lemma shut_touch h h' now d n d' : shut h d -> touch_key h' now d = Some (n, d') -> shut h d'.
Proof.
  intros Hd [= <- <-]. apply shut_map; [| |done]; intros k; unfold with_last_used; by case_decide.
Qed.

Lemma shut_revoke h key_id now d n d' : shut h d -> revoke_key key_id now d = Some (n, d') -> shut h d'.
Proof.
  intros Hd [= <- <-]. apply shut_map; [| |done]; intros k; unfold with_revocation; by case_decide.
Qed.

Lemma shut_insert h r d n d' : k_hash r <> h -> shut h d -> insert_key r d = Some (n, d') -> shut h d'.
Proof.
  intros Hr Hd. unfold insert_key. destruct (_ || _); [done|]. intros [= <- <-] k Hk E. simpl in Hk.
  apply elem_of_app in Hk as [Hk| ->%list_elem_of_singleton]; [by apply Hd|done].
Qed.

Lemma insert_user_keys r d n d' : insert_user r d = Some (n, d') -> api_keys d' = api_keys d.
Proof. unfold insert_user. destruct (has_user _ d); [done|]. by intros [= <- <-]. Qed.

Lemma insert_or_ignore_keys r d n d' : insert_or_ignore_user r d = Some (n, d') -> api_keys d' = api_keys d.
Proof.
  unfold insert_or_ignore_user. destruct (insert_user r d) as [[m d1]|] eqn:E; intros [= <- <-]; [|done].
  by eapply insert_user_keys.
Qed.

(** A change that keeps the revoked rows, on a connection of its own. *)
Lemma wp_change_shut h (f : Db -> option (Z * Db)) Q c :
  shut_conn h c -> (forall n d', f (data c) = Some (n, d') -> shut h d') ->
  (forall r c', shut_conn h c' -> Q r c') -> wp (sql (change f)) Q c.
Proof.
  intros [Hn Hs] Hf HQ. apply wp_change_alone; [done|]. intros r c' Hn' Hr. apply HQ. split; [done|].
  destruct r; [by rewrite Hr..|by eapply Hf].
Qed.

Lemma wp_CreateApiKey h unow now kb ib user nm e Q c :
  shut_conn h c -> HashApiKey SHA256 (GenerateApiKeyPlaintext kb) <> h ->
  (forall r c', shut_conn h c' -> Q r c') ->
  wp (CreateApiKey SHA256 unow now kb ib user nm e) Q c.
Proof.
  intros Hc Hh HQ. apply wp_bind. eapply wp_change_shut; [done| |].
  - intros n d' Hi k. rewrite (insert_or_ignore_keys _ _ _ _ Hi). apply Hc.
  - intros _ c1 Hc1. apply wp_bind. eapply wp_change_shut; [done| |].
    + intros n d' Hi. eapply shut_insert; [|apply Hc1|exact Hi]. done.
    + intros r c2 Hc2. by apply wp_ret, HQ.
Qed.

Lemma key_call_shut h o c : shut_conn h c -> other_key h o -> shut_conn h (run (key_call o) c).2.
Proof.
  intros Hc Ho. enough (wp (key_call o) (fun _ => shut_conn h) c) as Hw.
  { unfold wp in Hw. by destruct (run (key_call o) c). }
  destruct o as [unow now kb ib user nm e|now used plain|user|now key_id|unow now ub kb ib]; apply wp_bind.
  - eapply wp_CreateApiKey; [done..|]. by intros.
  - apply wp_bind, wp_select_alone; [apply Hc|]. intros rows c1 [Hn1 Hd1] _.
    assert (shut_conn h c1) as Hc1 by (split; [done|rewrite Hd1; apply Hc]).
    destruct rows as [[[|k l] b]|]; [done| |done]. repeat (case_match; [done|]).
    apply wp_bind. eapply wp_change_shut; [done| |by intros]. intros n d' Ht. eapply shut_touch; [apply Hc1|exact Ht].
  - apply wp_bind, wp_select_alone; [apply Hc|]. intros rows c1 [Hn1 Hd1] _. split; [done|]. rewrite Hd1. apply Hc.
  - apply wp_bind. eapply wp_change_shut; [done| |].
    + intros n d' Hr. eapply shut_revoke; [apply Hc|exact Hr].
    + intros r c1 Hc1. destruct r as [| |n]; [done..|]. destruct (n =? 0); [|done].
      apply wp_bind, wp_sql. intros q c2 Hq. apply one_row_spec in Hq as [[Hn2 Hd2] _]; [|apply Hc1].
      split; [done|]. rewrite Hd2. apply Hc1.
  - apply wp_bind. eapply wp_change_shut; [done| |].
    + intros n d' Hi k. rewrite (insert_user_keys _ _ _ _ Hi). apply Hc.
    + intros r c1 Hc1. destruct r; [done..|]. apply wp_bind. eapply wp_CreateApiKey; [done..|]. by intros.
Qed.

(** C18: A revoked key stays out.  Once [RevokeApiKey] has answered OK for a stored
    key whose hash no other key has, then after any calls of the key service and of
    the bootstrap, in any order and with any statements failing, as long as they
    mint no key of the same hash, [ValidateApiKey] refuses the plaintext. *)
Theorem Revoked_key_refused now key_id c s c1 k os now' used plain :
  saved c = None -> run (RevokeApiKey now key_id) c = (s, c1) -> status_ok s = true ->
  k ∈ api_keys (data c) -> k_id k = key_id ->
  (forall k', k' ∈ api_keys (data c) -> k_hash k' = k_hash k -> k_id k' = key_id) ->
  Forall (other_key (k_hash k)) os -> HashApiKey SHA256 plain = k_hash k ->
  exists e, (run (ValidateApiKey SHA256 now' used plain) (key_calls os c1)).1 = Error e.
Proof.
  intros Hn Hr Hok Hk Hid Huniq Hos Hp.
  assert (shut_conn (k_hash k) c1) as Hshut.
  { enough (wp (RevokeApiKey now key_id) (fun s c' => status_ok s = true -> shut_conn (k_hash k) c') c) as Hw.
    { unfold wp in Hw. rewrite Hr in Hw. auto. }
    apply wp_bind, wp_change_alone; [done|]. intros r c2 Hn2 Hc2. destruct r as [| |n]; [done..|].
    assert (shut_conn (k_hash k) c2) as Hs2.
    { split; [done|]. injection Hc2 as _ <-. intros x (y & -> & Hy)%list_elem_of_fmap.
      unfold with_revocation. case_decide as Hrev; [done|]. simpl. intros E. specialize (Huniq y Hy E).
      apply dec_stable. intros Hne. apply Hrev. by split. }
    destruct (n =? 0); [|by apply wp_ret].
    apply wp_bind, wp_sql. intros q c3 Hq. apply one_row_spec in Hq as [[Hn3 Hd3] _]; [|done].
    intros _. split; [done|]. rewrite Hd3. apply Hs2. }
  assert (forall os c, Forall (other_key (k_hash k)) os -> shut_conn (k_hash k) c ->
    shut_conn (k_hash k) (key_calls os c)) as Hcalls.
  { intros l. induction l as [|o l IH]; intros c0 Hl Hc0; [done|]. apply Forall_cons in Hl as [Ho Hl].
    apply IH; [done|]. by apply key_call_shut. }
  specialize (Hcalls os c1 Hos Hshut).
  enough (wp (ValidateApiKey SHA256 now' used plain) (fun r _ => exists e, r = Error e) (key_calls os c1)) as Hw.
  { unfold wp in Hw. destruct (run (ValidateApiKey SHA256 now' used plain) (key_calls os c1)). exact Hw. }
  apply wp_ValidateApiKey; [apply Hcalls|eauto|]. intros x c' _ Hx Hh [Hst _]. exfalso. apply Hst.
  apply Hcalls; [done|]. by rewrite Hh.
Qed.

End Keys.

(** ** Runs *)

Module AccessRuns.

(** A stand-in for SHA-256: the characters themselves. *)
Definition sha (s : string) : list Z := Z.of_nat ∘ nat_of_ascii <$> String.list_ascii_of_string s.

Definition key (user s : string) : KeyRow :=
  MkKeyRow "k1" user "bot" (HashApiKey sha s) "cortrix_sk_0000" 0 None None None "active".
Definition platform_db (status : string) : Db :=
  MkDb [MkUserRow "ann" "ann@x" "user" status] [key "ann" "secret"].

Definition ns (vis : string) : NsRouter.NSMetadata :=
  NsRouter.MkNSMetadata "ns" "ns" "owner" "shared" vis None None None None "active" 0 [].
Definition catalog_db (vis : string) : PermissionService.Db :=
  PermissionService.MkDb (NsRouter.MkDb ["owner"; "default_tenant"]%string [ns vis] [] []) [].

Definition world (status vis : string) : World :=
  MkWorld (MkConn (platform_db status) None []) (MkConn (catalog_db vis) None []).
Definition gate : Auth := MkAuth true ∅ true (Some namespace_authorizer).
Definition request : Request := MkRequest "Bearer secret" "" (Some "ns"%string).

Lemma Access_authorized_witness :
  exists w', WithAuth sha 0 0 0 gate kPermRead "" request (world "active" "public") =
    (Handled (MkAuthContext "default_tenant" "ann" "" 7), w') /\
    readable (catalog_db "public") "ns" (MkAuthContext "default_tenant" "ann" "" 7).
Proof.
  eexists. split; [vm_compute; reflexivity|].
  destruct (Access_authorized sha 0 0 0 gate kPermRead "" request (world "active" "public")
    (MkAuthContext "default_tenant" "ann" "" 7)
    (WithAuth sha 0 0 0 gate kPermRead "" request (world "active" "public")).2
    eq_refl eq_refl eq_refl eq_refl) as (_ & _ & _ & Hr); [vm_compute; reflexivity|].
  exact (Hr "ns"%string eq_refl ltac:(discriminate)).
Defined.

Lemma Revoked_key_refused_witness :
  exists c1, run (RevokeApiKey 5 "k1") (MkConn (platform_db "active") None []) = (Status_Ok, c1) /\
    exists e, (run (ValidateApiKey sha 9 9 "secret")
      (key_calls sha [KCreate 6 6 [1] [2] "ann" "new" 0; KValidate 7 7 "secret"] c1)).1 = Error e.
Proof.
  exists (run (RevokeApiKey 5 "k1") (MkConn (platform_db "active") None [])).2.
  split; [vm_compute; reflexivity|].
  refine (Revoked_key_refused sha 5 "k1" (MkConn (platform_db "active") None []) Status_Ok _ (key "ann" "secret")
    [KCreate 6 6 [1] [2] "ann" "new" 0; KValidate 7 7 "secret"] 9 9 "secret"
    eq_refl _ eq_refl _ eq_refl _ _ eq_refl).
  - vm_compute. reflexivity.
  - apply list_elem_of_here.
  - intros k' Hk' _. simpl in Hk'. apply list_elem_of_singleton in Hk'. by rewrite Hk'.
  - constructor; [|constructor; [done|constructor]]. vm_compute. discriminate.
Defined.

(** A key of a disabled user opens every route that no namespace guards, as an
    administrator. *)
Lemma Disabled_user_is_admitted :
  (WithAuth sha 0 0 0 gate kPermAdmin "" (MkRequest "" "secret" None) (world "disabled" "tenant")).1 =
    Handled (MkAuthContext "default_tenant" "ann" "" 7).
Proof. by vm_compute. Qed.

(** On a public namespace of another tenant, a route that writes is open to a
    caller who may not write. *)
Lemma Reader_passes_write_gate :
  (WithAuth sha 0 0 0 gate kPermWrite "" request (world "active" "public")).1 =
    Handled (MkAuthContext "default_tenant" "ann" "" 7) /\
  (PermissionService.CanWrite (MkAuthContext "default_tenant" "ann" "" 7) "ns"
     (catalog (world "active" "public"))).1 = false.
Proof. by vm_compute. Qed.

(** ** The first start *)

Definition started : BootstrapHandler := MkBootstrap "ctx_bootstrap_00" 60000 false.
Definition consume (os : list sql_outcome) :=
  run (Consume sha 5 5 5 [1] [2] [3] "ctx_bootstrap_00" started) (MkConn (MkDb [] []) None os).

Lemma Bootstrap_mints_a_key :
  let '((r, b), c) := consume [] in
  match r with
  | Value r => (run (ValidateApiKey sha 9 9 (admin_api_key r)) c).1 = Value (admin_user_id r)
  | Error _ => False
  end /\
  (run (Consume sha 6 6 6 [4] [5] [6] "ctx_bootstrap_00" b) c).1.1 =
    Error (AuthStatus kBootstrapTokenInvalid "reason=used").
Proof. by vm_compute. Qed.

(** When the key is not stored after the user is, the token is used up, and the
    next start is no first start: no token is printed any more, and nobody has a
    key. *)
Lemma Failed_mint_locks_everybody_out :
  let '((r, b), c) := consume [SqlOk; SqlOk; SqlStepErr 0] in
  r = Error (AuthStatus kServiceUnavailable "api_key insert failed") /\ token_used_ b = true /\
  api_keys (data c) = [] /\ (run (GenerateToken 9 [7] (MkBootstrap "" 0 false)) c).1.1 = Value ""%string.
Proof. by vm_compute. Qed.

(** A probe of the users that fails reads as a first start: a token is printed for
    an installation that has its administrators. *)
Lemma Failed_probe_is_a_first_start :
  (run (GenerateToken 0 [7] (MkBootstrap "" 0 false)) (MkConn (platform_db "active") None [SqlStepErr 0])).1.1 =
    Value "ctx_bootstrap_07"%string.
Proof. by vm_compute. Qed.

Lemma Credential_readings :
  RequestCredential (MkRequest "Bearer abc" "k" None) = "abc"%string /\
  RequestCredential (MkRequest "Bearer " "k" None) = "k"%string /\
  RequestCredential (MkRequest "Basic abc" "k" None) = "k"%string.
Proof. by vm_compute. Qed.

End AccessRuns.
