(* ===== verification/JwtSecrets.v ===== *)
(** * The signing secret of the access tokens (src/auth/jwt_secret_service.cpp)

    One secret signs; the one before it is accepted for a day after a rotation.
    Both are rows of auth_secrets, and the signing one is kept in memory too.  The
    random bytes are parameters; the borrowed handle is set. *)
From Stdlib Require Import Ascii String.
From stdpp Require Import gmap strings.
From S2P Require Import Prelude Status Sqlite SqlProgram SecurityErrors ApiKeys.

Module JwtSecretService.
Import Sqlite SqliteRows SqlProgram AuthError.
#[local] Open Scope prog_scope.

Record SecretRow := MkSecretRow {
  s_id : string;
  s_type : string;
  s_value : string;
  s_status : string;
  s_created : Z;
  s_expires : option Z
}.

(** The table. *)
Notation Db := (list SecretRow).

Definition is_jwt (st : string) (r : SecretRow) : Prop := s_type r = "jwt_secret"%string /\ s_status r = st.
#[export] Instance is_jwt_dec st r : Decision (is_jwt st r).
Proof. unfold is_jwt. apply _. Defined.
Notation current := (is_jwt "current").
Notation prev := (is_jwt "prev").

Definition with_status (st : string) (r : SecretRow) : SecretRow :=
  MkSecretRow (s_id r) (s_type r) (s_value r) st (s_created r) (s_expires r).
Definition demoted (e : Z) (r : SecretRow) : SecretRow :=
  MkSecretRow (s_id r) (s_type r) (s_value r) "prev" (s_created r) (Some e).

(** UPDATE of the rows that satisfy [P]. *)
Definition update_where (P : SecretRow -> Prop) `{forall r, Decision (P r)} (f : SecretRow -> SecretRow) (d : Db)
    : option (Z * Db) :=
  Some (len (filter P d), (fun r => if decide (P r) then f r else r) <$> d).

Definition insert_secret (r : SecretRow) (d : Db) : option (Z * Db) :=
  if existsb (fun x => bool_decide (s_id x = s_id r)) d then None else Some (1, d ++ [r]).

Definition expired_prev (now : Z) (r : SecretRow) : Prop := prev r /\ exists e, s_expires r = Some e /\ e <= now.
#[export] Instance expired_prev_dec now r : Decision (expired_prev now r).
Proof.
  unfold expired_prev. destruct (s_expires r) as [e|].
  - destruct (decide (prev r /\ e <= now)) as [[]|Hn]; [left; eauto|]. right. naive_solver.
  - right. naive_solver.
Defined.

Definition kPrevWindowMs : Z := 24 * 60 * 60 * 1000.

Record RotationResult := MkRotationResult { new_key_id : string; prev_key_id : string; prev_expires_at_ms : Z }.

Section Service.
Context `{Planner} (errmsg : string).
Notation M := (prog Db).

Definition jwt_failed (detail : string) : Status := AuthStatus kJwtInitFailed detail.

Definition InsertCurrentSecret (now : Z) (id secret : string) : M Status :=
  r <- sql (change (insert_secret (MkSecretRow id "jwt_secret" secret "current" now None))) ;;
  Ret (match r with
       | PrepareFailed => jwt_failed ("prepare insert failed: " +:+ errmsg)
       | StepFailed _ => jwt_failed ("insert step failed: " +:+ errmsg)
       | Changes _ => Status_Ok
       end).

(** [None]: RAND_bytes failed. *)
Definition GenerateSecret (rand : option string) : Result string :=
  match rand with Some s => Value s | None => Error (jwt_failed "RAND_bytes failed") end.

Definition id_of (bytes : list Z) : string := ApiKeys.hex bytes.

(** The answer and the secret in memory; [env] is CORTRIX_JWT_SECRET. *)
Definition LoadOrInit (env : option string) (now : Z) (id_bytes : list Z) (rand : option string) (current_secret_ : string)
    : M (Status * string) :=
  match env with
  | Some (String _ _ as secret) =>
      r <- sql (change (update_where current (with_status "retired"))) ;;
      match r with
      | Changes _ =>
          st <- InsertCurrentSecret now (id_of id_bytes) secret ;;
          Ret (st, if status_ok st then secret else current_secret_)
      | _ => Ret (jwt_failed ("env-override demote failed: " +:+ errmsg), current_secret_)
      end
  | _ =>
      rows <- sql (select (fun d => take 1 (scan (filter current d)))) ;;
      match rows with
      | None => Ret (jwt_failed ("prepare select failed: " +:+ errmsg), current_secret_)
      | Some (l, _) =>
          match (r ← head l; if bool_decide (s_value r = ""%string) then None else Some (s_value r)) with
          | Some v => Ret (Status_Ok, v)
          | None =>
              match GenerateSecret rand with
              | Error s => Ret (s, current_secret_)
              | Value secret =>
                  st <- InsertCurrentSecret now (id_of id_bytes) secret ;;
                  Ret (st, if status_ok st then secret else current_secret_)
              end
          end
      end
  end.

Definition RotateJwtSecret (now now' : Z) (id_bytes : list Z) (rand : option string) (current_secret_ : string)
    : M (Result RotationResult * string) :=
  let prev_expires := now + kPrevWindowMs in
  let fail s := rolled_back (Error s, current_secret_) in
  b <- sql BEGIN ;;
  if negb b then Ret (Error (jwt_failed "rotate begin failed"), current_secret_) else
  q <- sql (one_row (fun d => filter current d)) ;;
  let prev_id := match q with Some r => s_id r | None => ""%string end in
  r1 <- sql (change (update_where prev (with_status "retired"))) ;;
  match r1 with
  | Changes _ =>
      r2 <- sql (change (update_where current (demoted prev_expires))) ;;
      match r2 with
      | PrepareFailed => fail (jwt_failed "demote current prepare failed")
      | StepFailed _ => fail (jwt_failed "demote current failed")
      | Changes _ =>
          match GenerateSecret rand with
          | Error s => fail s
          | Value secret =>
              let new_id := id_of id_bytes in
              ins <- InsertCurrentSecret now' new_id secret ;;
              if negb (status_ok ins) then fail ins else
              c <- sql COMMIT ;;
              if negb c then fail (jwt_failed "rotate commit failed")
              else Ret (Value (MkRotationResult new_id prev_id prev_expires), secret)
          end
      end
  | _ => fail (jwt_failed "retire old prev failed")
  end.

Definition current_first (a b : SecretRow) : bool :=
  bool_decide (s_status a = "current"%string) || negb (bool_decide (s_status b = "current"%string)).

Definition accepted (now : Z) (r : SecretRow) : bool :=
  negb (bool_decide (s_value r = ""%string))
  && negb (bool_decide (s_status r = "prev"%string) && from_option (fun e => e <=? now) false (s_expires r)).

Definition current_or_prev (r : SecretRow) : Prop := current r \/ prev r.
#[export] Instance current_or_prev_dec r : Decision (current_or_prev r).
Proof. unfold current_or_prev. apply _. Defined.

Definition GetAcceptSecrets (now : Z) : M (Result (list string)) :=
  rows <- sql (select (fun d => order_by current_first (filter current_or_prev d))) ;;
  Ret (match rows with
       | None => Error (jwt_failed "accept-secrets prepare failed")
       | Some (l, _) => Value (s_value <$> filter (fun r => Is_true (accepted now r)) l)
       end).

Definition CleanupExpiredPrev (now : Z) : M (Result Z) :=
  r <- sql (change (update_where (expired_prev now) (with_status "retired"))) ;;
  Ret (match r with
       | PrepareFailed => Error (jwt_failed "cleanup prev prepare failed")
       | StepFailed _ => Error (jwt_failed "cleanup prev failed")
       | Changes n => Value (i32 n)
       end).

End Service.
End JwtSecretService.

(** ** A rotation and its window

    After a rotation one secret signs and the one before it is accepted for a day
    ([Rotation_keeps_window]); what failing statements of the other operations do
    is in [SecretRuns]. *)
Import Sqlite SqliteRows SqlProgram SqlTransactions AuthError JwtSecretService.

(** ** Updates and filters *)

Section Updates.
Context (P Q : SecretRow -> Prop) `{forall r, Decision (P r)} `{forall r, Decision (Q r)} (f : SecretRow -> SecretRow).
Implicit Types d : Db.

Definition updated d : Db := (fun r => if decide (P r) then f r else r) <$> d.

Lemma filter_updated_out d :
  (forall r, P r -> ~ Q (f r)) -> filter Q (updated d) = filter (fun r => Q r /\ ~ P r) d.
Proof.
  intros Hf. induction d as [|r d IH]; [done|]. unfold updated in *. rewrite fmap_cons, !filter_cons, IH.
  destruct (decide (P r)) as [Hp|Hp].
  - rewrite decide_False by auto. by rewrite decide_False by naive_solver.
  - destruct (decide (Q r)); [by rewrite decide_True|by rewrite decide_False by naive_solver].
Qed.

Lemma filter_updated_in d :
  (forall r, P r -> Q (f r)) -> (forall r, r ∈ d -> ~ P r -> ~ Q r) -> filter Q (updated d) = f <$> filter P d.
Proof.
  intros Hf Hd. induction d as [|r d IH]; [done|]. unfold updated in *. rewrite fmap_cons, !filter_cons.
  rewrite IH by (intros; apply Hd; [by apply list_elem_of_further|done]).
  destruct (decide (P r)) as [Hp|Hp].
  - by rewrite decide_True by auto.
  - by rewrite decide_False by (apply Hd; [apply list_elem_of_here|done]).
Qed.

End Updates.

Lemma filter_or_perm {A} (P Q : A -> Prop) `{forall x, Decision (P x)} `{forall x, Decision (Q x)}
    `{forall x, Decision (P x \/ Q x)} l :
  (forall x, P x -> ~ Q x) -> filter (fun x => P x \/ Q x) l ≡ₚ filter P l ++ filter Q l.
Proof.
  intros Hd. induction l as [|x l IH]; [done|]. rewrite !filter_cons. destruct (decide (P x)) as [Hp|Hp].
  - rewrite decide_True by auto. rewrite decide_False by auto. simpl. by rewrite IH.
  - destruct (decide (Q x)) as [Hq|Hq].
    + rewrite decide_True by auto. rewrite IH. apply Permutation_middle.
    + by rewrite decide_False by naive_solver.
Qed.

Lemma no_rows {A} (P : A -> Prop) `{forall x, Decision (P x)} l : (forall x, ~ P x) -> filter P l = [].
Proof. intros Hn. induction l as [|x l IH]; [done|]. by rewrite filter_cons, decide_False. Qed.

Lemma current_not_prev r : is_jwt "current" r -> ~ is_jwt "prev" r.
Proof. unfold is_jwt. intros [_ ->] [_ ?]. done. Qed.

Section Rotation.
Context `{Planner} (errmsg : string).

(** The rows of a rotation. *)
Definition rotated (e : Z) (new_row : SecretRow) (d : Db) : Db :=
  updated (is_jwt "current") (demoted e) (updated (is_jwt "prev") (with_status "retired") d) ++ [new_row].

Lemma rotated_window e new_row d cur :
  filter (is_jwt "current") d = [cur] -> is_jwt "current" new_row ->
  filter (is_jwt "current") (rotated e new_row d) = [new_row] /\
  filter (is_jwt "prev") (rotated e new_row d) = [demoted e cur].
Proof.
  intros Hcur Hnew. unfold rotated. set (d1 := updated (is_jwt "prev") _ d).
  assert (filter (is_jwt "current") d1 = [cur]) as H1.
  { unfold d1. rewrite filter_updated_out by (intros r _ [_ ?]; done). rewrite <- Hcur.
    apply list_filter_iff. intros r. split; [by intros [? _]|]. intros Hc. split; [done|]. by apply current_not_prev. }
  assert (filter (is_jwt "prev") d1 = []) as H2.
  { unfold d1. rewrite filter_updated_out by (intros r _ [_ ?]; done). apply no_rows. naive_solver. }
  rewrite !filter_app. split.
  - rewrite filter_updated_out by (intros r _ [_ ?]; done). rewrite filter_cons, decide_True by done.
    rewrite no_rows; [done|]. naive_solver.
  - rewrite filter_updated_in.
    + rewrite H1. rewrite filter_cons, decide_False by (by apply current_not_prev). done.
    + intros r [Ht _]. by split.
    + intros r Hr _ Hp. by eapply (filter_nil_not_elem_of _ _ r H2).
Qed.

Lemma current_first_total x y : current_first x y = true \/ current_first y x = true.
Proof. unfold current_first. repeat case_bool_decide; auto. Qed.

Lemma current_first_trans x y z :
  current_first x y = true -> current_first y z = true -> current_first x z = true.
Proof. unfold current_first. repeat case_bool_decide; auto. Qed.

(** The secrets accepted at [t]: the current one and, inside its window, the one
    before. *)
Lemma accept_window d new_row old e t :
  filter (is_jwt "current") d = [new_row] -> filter (is_jwt "prev") d = [demoted e old] ->
  s_value new_row <> ""%string -> s_value old <> ""%string -> is_jwt "current" new_row ->
  (run (GetAcceptSecrets t) (MkConn d None [])).1 =
    Value (s_value new_row :: if t <? e then [s_value old] else []).
Proof.
  intros Hc Hp Hn Ho Hnew. simpl. set (l := order_by current_first (filter current_or_prev d)).
  assert (l = [new_row; demoted e old]) as ->.
  { assert (l ≡ₚ [new_row; demoted e old]) as Hl.
    { unfold l. rewrite order_by_perm. unfold current_or_prev.
      rewrite (filter_or_perm (is_jwt "current") (is_jwt "prev")) by (apply current_not_prev).
      by rewrite Hc, Hp. }
    pose proof (order_by_sorted current_first (filter current_or_prev d) current_first_total current_first_trans) as Hs.
    fold l in Hs. symmetry in Hl. apply Permutation_length_2_inv in Hl as [->| ->]; [done|].
    exfalso. apply StronglySorted_inv in Hs as [_ Hs]. apply Forall_cons in Hs as [Hs _].
    unfold current_first in Hs. destruct Hnew as [_ Hnew]. simpl in Hs. by rewrite Hnew in Hs. }
  f_equal. destruct Hnew as [_ Hnew]. rewrite filter_cons, decide_True.
  2: { unfold accepted. by rewrite Hnew, bool_decide_false. }
  rewrite fmap_cons. f_equal. rewrite filter_cons. unfold accepted. simpl. rewrite bool_decide_false by done. simpl.
  destruct (Z.ltb_spec t e), (Z.leb_spec e t); try lia; by case_decide.
Qed.

(** What a rotation answers: an error with everything as it was, or the new secret
    with its rows. *)
Definition rotation_outcome now now' id_bytes (rand : option string) mem (c : Conn Db)
    (r : Result RotationResult * string) (c' : Conn Db) : Prop :=
  match r.1 with
  | Error s => committed c' = committed c /\ r.2 = mem
  | Value res =>
      rand = Some r.2 /\ saved c' = None /\ new_key_id res = id_of id_bytes /\
      prev_expires_at_ms res = now + kPrevWindowMs /\
      data c' = rotated (now + kPrevWindowMs)
                  (MkSecretRow (id_of id_bytes) "jwt_secret" r.2 "current" now' None) (data c)
  end.

Lemma wp_fail now now' ib rand mem c (s : Status) c1 :
  calm c1 -> committed c1 = committed c ->
  wp (rolled_back (Error s, mem)) (rotation_outcome now now' ib rand mem c) c1.
Proof.
  intros Hm Hc. apply wp_rolled_back; [done|]. intros c2 _ Hc2. split; [congruence|done].
Qed.

Lemma wp_RotateJwtSecret now now' ib rand mem c :
  calm c -> wp (RotateJwtSecret errmsg now now' ib rand mem) (rotation_outcome now now' ib rand mem c) c.
Proof.
  intros Hm. apply wp_begin; [done| |].
  2: { intros c1 Hs. apply wp_ret. split; [by apply same_committed|done]. }
  intros c1 Hm1 Hi Hd1 Hs1. cbn [negb]. apply wp_bind, wp_sql. intros q c2 Hq.
  apply calm_one_row in Hq as [(Hm2 & Hd2 & Hs2) _]; [|done]. rewrite Hs1 in Hs2. rewrite Hd1 in Hd2.
  assert (forall c', saved c' = Some (data c) -> committed c' = committed c) as Hc.
  { intros c' Hs'. unfold committed. by rewrite Hs', Hi. }
  apply wp_bind. eapply wp_change_in; [done..|]. intros r1 c3 Hm3 Hs3 Hr1.
  destruct r1 as [| |n1]; [by apply wp_fail; auto..|]. specialize (Hr1 eq_refl).
  apply wp_bind. eapply wp_change_in; [done..|]. intros r2 c4 Hm4 Hs4 Hr2.
  destruct r2 as [| |n2]; [by apply wp_fail; auto..|]. specialize (Hr2 eq_refl).
  destruct rand as [secret|]; cbn [GenerateSecret]; [|by apply wp_fail; auto].
  apply wp_bind, wp_bind. eapply wp_change_in; [done..|]. intros r3 c5 Hm5 Hs5 Hr3. apply wp_ret.
  destruct r3 as [| |n3]; [by apply wp_fail; auto..|]. specialize (Hr3 eq_refl). change (negb (status_ok Status_Ok)) with false. cbv iota.
  apply wp_bind, wp_sql. intros b c6 Hb. apply calm_COMMIT in Hb as (Hm6 & Hd6 & Hs6);
    [|done|by eapply in_transaction_saved].
  destruct b; cbn [negb].
  - apply wp_ret. split; [done|]. split; [done|]. split; [done|]. split; [done|]. simpl. rewrite Hd6.
    injection Hr1 as Hr1. injection Hr2 as Hr2. unfold insert_secret in Hr3.
    destruct (existsb _ (data c4)); [done|]. injection Hr3 as <-. rewrite <- Hr2, <- Hr1, Hd2. done.
  - apply wp_fail; [done|]. apply Hc. by rewrite Hs6.
Qed.

(** A rotation replaces the signing secret and keeps the old one for a day.
    Start, outside a transaction, from one current secret.  Whatever statements
    fail (as long as SQLite ends no transaction by itself): if [RotateJwtSecret]
    answers an error, the committed rows and the secret in memory are as they were;
    if it answers OK, the secret in memory is the fresh random one, the committed
    rows hold it as their only current secret and the old one as their only
    previous secret, any older one being retired, and [GetAcceptSecrets] answers
    the new secret and, exactly until the 24 hours are over, the old one after
    it. *)
Theorem Rotation_keeps_window now now' ib rand mem c cur r mem' c' t :
  calm c -> saved c = None -> filter (is_jwt "current") (data c) = [cur] -> s_value cur <> ""%string ->
  rand <> Some ""%string -> run (RotateJwtSecret errmsg now now' ib rand mem) c = ((r, mem'), c') ->
  match r with
  | Error _ => committed c' = data c /\ mem' = mem
  | Value res =>
      saved c' = None /\ rand = Some mem' /\ prev_expires_at_ms res = now + kPrevWindowMs /\
      filter (is_jwt "current") (data c') = [MkSecretRow (new_key_id res) "jwt_secret" mem' "current" now' None] /\
      filter (is_jwt "prev") (data c') = [demoted (now + kPrevWindowMs) cur] /\
      (run (GetAcceptSecrets t) (MkConn (data c') None [])).1 =
        Value (mem' :: if t <? now + kPrevWindowMs then [s_value cur] else [])
  end.
Proof.
  intros Hm Hi Hcur Hv Hr Hrun. pose proof (wp_RotateJwtSecret now now' ib rand mem c Hm) as Hw.
  unfold wp in Hw. rewrite Hrun in Hw. unfold rotation_outcome in Hw. simpl in Hw.
  destruct r as [res|s].
  - destruct Hw as (Hrand & Hs & Hid & He & Hd).
    destruct (rotated_window (now + kPrevWindowMs)
      (MkSecretRow (id_of ib) "jwt_secret" mem' "current" now' None) (data c) cur Hcur) as [H1 H2]; [done|].
    rewrite <- Hd in H1, H2. split; [done|]. split; [done|]. split; [done|]. rewrite Hid.
    split; [exact H1|]. split; [exact H2|]. apply (accept_window _ _ _ _ t H1 H2); [|done|done].
    simpl. congruence.
  - destruct Hw as [Hc ->]. split; [|done]. rewrite Hc. unfold committed. by rewrite Hi.
Qed.

End Rotation.

(** ** Runs *)

Module SecretRuns.

Definition secret (id v : string) : SecretRow := MkSecretRow id "jwt_secret" v "current" 0 None.
Definition table : Db := [secret "a" "old"].

Lemma Rotation_keeps_window_witness :
  let '((r, mem), c) := run (RotateJwtSecret "msg" 100 101 [1] (Some "new"%string) "old") (MkConn table None []) in
  mem = "new"%string /\ s_value <$> filter (is_jwt "current") (data c) = ["new"%string] /\
  s_value <$> filter (is_jwt "prev") (data c) = ["old"%string].
Proof.
  pose proof (Rotation_keeps_window "msg" 100 101 [1] (Some "new"%string) "old" (MkConn table None [])
    (secret "a" "old")
    (run (RotateJwtSecret "msg" 100 101 [1] (Some "new"%string) "old") (MkConn table None [])).1.1
    (run (RotateJwtSecret "msg" 100 101 [1] (Some "new"%string) "old") (MkConn table None [])).1.2
    (run (RotateJwtSecret "msg" 100 101 [1] (Some "new"%string) "old") (MkConn table None [])).2 5
    ltac:(constructor) eq_refl eq_refl ltac:(discriminate) ltac:(discriminate)) as Hw.
  destruct (run _ (MkConn table None [])) as [[r mem] c] eqn:E. specialize (Hw eq_refl). simpl in Hw.
  destruct r as [res|s].
  - destruct Hw as (_ & [= <-] & _ & H1 & H2 & _). split; [reflexivity|]. by rewrite H1, H2.
  - exfalso. vm_compute in E. discriminate.
Defined.

(** When the lookup of the current secret does not step, a second current secret is
    stored beside it. *)
Lemma Failed_lookup_adds_a_secret :
  let '((s, mem), c) := run (LoadOrInit "msg" None 5 [2] (Some "fresh"%string) "") (MkConn table None [SqlStepErr 0]) in
  s = Status_Ok /\ mem = "fresh"%string /\ s_value <$> filter (is_jwt "current") (data c) = ["old"; "fresh"]%string.
Proof. by vm_compute. Qed.

(** The override demotes and inserts without a transaction: when the insertion
    fails there is no current secret. *)
Lemma Failed_override_leaves_no_secret :
  let '((s, mem), c) := run (LoadOrInit "msg" (Some "env"%string) 5 [2] None "") (MkConn table None [SqlOk; SqlStepErr 0]) in
  status_ok s = false /\ mem = ""%string /\ filter (is_jwt "current") (data c) = [].
Proof. by vm_compute. Qed.

(** When SQLite ends the transaction with the lookup of the old key's id, whose
    failure the code ignores, the demotion commits by itself. *)
Lemma Aborted_rotation_leaves_no_secret :
  let '((r, mem), c) := run (RotateJwtSecret "msg" 100 101 [1] (Some "new"%string) "old")
      (MkConn table None [SqlOk; SqlAbort; SqlOk; SqlOk; SqlStepErr 0]) in
  r = Error (jwt_failed "insert step failed: msg") /\ saved c = None /\
  filter (is_jwt "current") (data c) = [].
Proof. by vm_compute. Qed.

End SecretRuns.
