(* ===== verification/NsLocks.v ===== *)
(** * The locks of the catalog and the pool

    The router's mutex [mu_] and the pool's [pool_mutex_] are taken by the same
    requests: a creation loads the namespace inside the pool's exclusive lock and
    asks the router for its unit; a deletion evicts from the pool inside the
    router's mutex.  A thread is the sequence of lock operations of its calls;
    threads interleave freely and never time out. *)
From stdpp Require Import list.
From S2P Require Import Prelude.

Module NsLocks.

Inductive lock := mu_ | pool_mutex_.
(** [std::shared_lock] and the exclusive ones. *)
Inductive mode := Shared | Exclusive.
Inductive action := Take (l : lock) (md : mode) | Drop (l : lock).

#[export] Instance lock_eq_dec : EqDecision lock.
Proof. solve_decision. Defined.
#[export] Instance mode_eq_dec : EqDecision mode.
Proof. solve_decision. Defined.

(** What a thread holds, and what it still has to do. *)
Record Thread := MkThread { held : list (lock * mode); todo : list action }.

(** ** The calls *)

Definition locked (l : lock) (md : mode) (body : list action) : list action := Take l md :: body ++ [Drop l].

(** [GetActiveUnit], [GetNamespace], [ListNamespaces]. *)
Definition lookup : list action := locked mu_ Exclusive [].
(** [CreateNamespace]: the rows, then [AdmitCreate] with its load inside the
    lock, and the removal when the pool refuses. *)
Definition create (loads refused : bool) : list action :=
  locked mu_ Exclusive [] ++ locked pool_mutex_ Exclusive (if loads then lookup else [])
  ++ (if refused then locked mu_ Exclusive [] else []).
(** [DeleteNamespace]: the eviction is inside the mutex. *)
Definition delete_namespace : list action := locked mu_ Exclusive (locked pool_mutex_ Exclusive []).
(** [Acquire], and the two halves of [Release]. *)
Definition acquire : list action := locked pool_mutex_ Shared [].
Definition release (reap : bool) : list action :=
  locked pool_mutex_ Shared [] ++ (if reap then locked pool_mutex_ Exclusive [] else []).
(** [ReloadNamespace]: the load is outside the lock. *)
Definition reload (loads : bool) : list action :=
  lookup ++ (if loads then locked pool_mutex_ Exclusive [] else []).
(** [GetPoolStats], [GetExplainState]. *)
Definition stats : list action := locked pool_mutex_ Shared [].

Inductive call :=
| Lookup | Create (loads refused : bool) | Delete | AcquireNs | ReleaseNs (reap : bool)
| Reload (loads : bool) | Stats.

Definition actions (c : call) : list action :=
  match c with
  | Lookup => lookup
  | Create loads refused => create loads refused
  | Delete => delete_namespace
  | AcquireNs => acquire
  | ReleaseNs reap => release reap
  | Reload loads => reload loads
  | Stats => stats
  end.

(** A thread that makes these calls one after the other. *)
Definition thread (calls : list call) : Thread := MkThread [] (mjoin (actions <$> calls)).

(** ** Steps *)

(** The lock can be taken beside what the other threads hold. *)
Definition free_for (l : lock) (md : mode) (others : list Thread) : Prop :=
  match md with
  | Exclusive => Forall (fun t => l ∉ (held t).*1) others
  | Shared => Forall (fun t => (l, Exclusive) ∉ held t) others
  end.

#[export] Instance free_for_dec l md others : Decision (free_for l md others).
Proof. unfold free_for. destruct md; apply _. Defined.

Inductive step : list Thread -> list Thread -> Prop :=
| StepTake l md ts1 h acts ts2 :
    free_for l md (ts1 ++ ts2) ->
    step (ts1 ++ MkThread h (Take l md :: acts) :: ts2) (ts1 ++ MkThread ((l, md) :: h) acts :: ts2)
| StepDrop l ts1 h acts ts2 :
    step (ts1 ++ MkThread h (Drop l :: acts) :: ts2)
         (ts1 ++ MkThread (filter (fun x => x.1 <> l) h) acts :: ts2).

Definition finished (ts : list Thread) : Prop := Forall (fun t => todo t = []) ts.
Definition stuck (ts : list Thread) : Prop := ~ finished ts /\ forall ts', ~ step ts ts'.

(** ** The order pool before router *)

(** A thread takes [pool_mutex_] only with empty hands, [mu_] only without it,
    drops what it holds, and ends with empty hands. *)
Fixpoint ordered (h : list lock) (acts : list action) : bool :=
  match acts with
  | [] => bool_decide (h = [])
  | Take pool_mutex_ _ :: acts => bool_decide (h = []) && ordered [pool_mutex_] acts
  | Take mu_ _ :: acts => negb (bool_decide (mu_ ∈ h)) && ordered (mu_ :: h) acts
  | Drop l :: acts => bool_decide (l ∈ h) && ordered (filter (fun x => x <> l) h) acts
  end.

Definition thread_ordered (t : Thread) : Prop := ordered (held t).*1 (todo t) = true.

Definition is_delete (c : call) : bool := match c with Delete => true | _ => false end.

Lemma fst_filter (l : lock) (h : list (lock * mode)) :
  (filter (fun x => x.1 <> l) h).*1 = filter (fun x => x <> l) h.*1.
Proof.
  induction h as [|[k md] h IH]; [done|]. rewrite fmap_cons, !filter_cons. simpl.
  destruct (decide (k <> l)); [by rewrite fmap_cons, IH|exact IH].
Qed.

Lemma ordered_app a b : ordered [] a = true -> ordered [] b = true -> ordered [] (a ++ b) = true.
Proof.
  enough (forall h, ordered h a = true -> ordered [] b = true -> ordered h (a ++ b) = true) as H by apply H.
  induction a as [|[[] md|l] a IH]; intros h Ha Hb; simpl in *.
  - apply bool_decide_eq_true in Ha as ->. done.
  - apply andb_true_iff in Ha as [-> Ha]. simpl. by apply IH.
  - apply andb_true_iff in Ha as [-> Ha]. simpl. by apply IH.
  - apply andb_true_iff in Ha as [-> Ha]. simpl. by apply IH.
Qed.

Lemma call_ordered c : is_delete c = false -> ordered [] (actions c) = true.
Proof. destruct c as [|[] []| | |[]|[]|]; intros; try done; vm_compute; reflexivity. Qed.

Lemma thread_calls_ordered calls :
  Forall (fun c => is_delete c = false) calls -> thread_ordered (thread calls).
Proof.
  unfold thread, thread_ordered. simpl. induction 1 as [|c calls Hc _ IH]; [done|].
  apply ordered_app; [by apply call_ordered|done].
Qed.

Lemma step_ordered ts ts' : step ts ts' -> Forall thread_ordered ts -> Forall thread_ordered ts'.
Proof.
  destruct 1 as [l md ts1 h acts ts2 _|l ts1 h acts ts2];
    rewrite !Forall_app, !Forall_cons; intros (H1 & Ht & H2); split_and!; try done.
  - unfold thread_ordered in *. cbn [held todo ordered fmap list_fmap] in *.
    destruct l; apply andb_true_iff in Ht as [Hh Ht]; [done|].
    apply bool_decide_eq_true in Hh. cbn. by rewrite Hh.
  - unfold thread_ordered in *. cbn [held todo ordered] in *. apply andb_true_iff in Ht as [_ Ht]. by rewrite fst_filter.
Qed.

(** The holder of [mu_] drops something next, and so does a holder of the pool,
    unless it takes [mu_]. *)
Lemma mu_holder_drops t : thread_ordered t -> mu_ ∈ (held t).*1 -> exists l rest, todo t = Drop l :: rest.
Proof.
  unfold thread_ordered. destruct t as [h [|[[] md|l] rest]]; cbn [held todo ordered]; intros Ho Hmu.
  - apply bool_decide_eq_true in Ho. rewrite Ho in Hmu. by apply not_elem_of_nil in Hmu.
  - apply andb_true_iff in Ho as [Ho _]. by rewrite bool_decide_eq_true_2 in Ho.
  - apply andb_true_iff in Ho as [Ho _]. apply bool_decide_eq_true in Ho. rewrite Ho in Hmu.
    by apply not_elem_of_nil in Hmu.
  - eauto.
Qed.

Lemma holder_next t l : thread_ordered t -> l ∈ (held t).*1 ->
  (exists k rest, todo t = Drop k :: rest) \/ (exists md rest, todo t = Take mu_ md :: rest).
Proof.
  unfold thread_ordered. destruct t as [h [|[[] md|k] rest]]; cbn [held todo ordered]; intros Ho Hl; eauto.
  - apply bool_decide_eq_true in Ho. rewrite Ho in Hl. by apply not_elem_of_nil in Hl.
  - apply andb_true_iff in Ho as [Ho _]. apply bool_decide_eq_true in Ho. rewrite Ho in Hl.
    by apply not_elem_of_nil in Hl.
Qed.

Lemma can_drop ts t l rest : t ∈ ts -> todo t = Drop l :: rest -> exists ts', step ts ts'.
Proof.
  intros (ts1 & ts2 & ->)%list_elem_of_split Ht. destruct t as [h acts]. simpl in Ht. subst.
  eexists. apply StepDrop.
Qed.

Lemma can_take ts t l md rest :
  t ∈ ts -> todo t = Take l md :: rest -> (forall t', t' ∈ ts -> l ∉ (held t').*1) -> exists ts', step ts ts'.
Proof.
  intros (ts1 & ts2 & ->)%list_elem_of_split Ht Hfree. destruct t as [h acts]. simpl in Ht. subst.
  eexists. apply StepTake.
  assert (Forall (fun t => l ∉ (held t).*1) (ts1 ++ ts2)) as Hf.
  { apply Forall_forall. intros t' Ht'. apply Hfree. rewrite elem_of_app in *. rewrite elem_of_cons. tauto. }
  destruct md; [|done]. eapply Forall_impl; [exact Hf|]. cbn. intros t' Hn Hin. apply Hn.
  apply list_elem_of_fmap. by exists (l, Exclusive).
Qed.

Lemma ordered_progress ts : Forall thread_ordered ts -> ~ finished ts -> exists ts', step ts ts'.
Proof.
  rewrite Forall_forall. intros Ho Hf.
  destruct (decide (Exists (fun t => mu_ ∈ (held t).*1) ts)) as [Hmu|Hmu].
  { apply Exists_exists in Hmu as (t & Ht & Hmu).
    destruct (mu_holder_drops t (Ho _ Ht) Hmu) as (l & rest & Hn). by eapply can_drop. }
  assert (forall t, t ∈ ts -> mu_ ∉ (held t).*1) as Hnomu.
  { intros t Ht Hin. apply Hmu, Exists_exists. eauto. }
  destruct (decide (Exists (fun t => pool_mutex_ ∈ (held t).*1) ts)) as [Hp|Hp].
  { apply Exists_exists in Hp as (t & Ht & Hp).
    destruct (holder_next t _ (Ho _ Ht) Hp) as [(l & rest & Hn)|(md & rest & Hn)];
      [by eapply can_drop|by eapply can_take]. }
  assert (forall l t, t ∈ ts -> l ∉ (held t).*1) as Hnone.
  { intros [] t Ht Hin; [by apply (Hnomu t)|]. apply Hp, Exists_exists. eauto. }
  unfold finished in Hf. apply not_Forall_Exists in Hf; [|intros t; apply _].
  apply Exists_exists in Hf as (t & Ht & Hn).
  destruct (todo t) as [|[l md|l] rest] eqn:E; [by destruct Hn|eapply can_take; eauto|by eapply can_drop].
Qed.

(** ** Properties *)

(** C26: any number of threads that create, look up, acquire, release, reload and
    ask for statistics, each any number of times and interleaved in any way,
    never block each other for good: in every state they reach, all are finished
    or one of them can go on. *)
Theorem Ns_locks_progress threads ts :
  Forall (Forall (fun c => is_delete c = false)) threads ->
  rtc step (thread <$> threads) ts -> finished ts \/ exists ts', step ts ts'.
Proof.
  intros Hc Hr. assert (Forall thread_ordered ts) as Ho.
  { assert (Forall thread_ordered (thread <$> threads)) as Ho.
    { apply Forall_fmap. eapply Forall_impl; [exact Hc|]. apply thread_calls_ordered. }
    revert Ho. induction Hr; eauto using step_ordered. }
  destruct (decide (finished ts)) as [Hf|Hf]; [by left|right; by apply ordered_progress].
Qed.

Lemma Ns_locks_progress_witness :
  let ts := [MkThread [(pool_mutex_, Exclusive)] (lookup ++ [Drop pool_mutex_]); thread [Lookup]] in
  rtc step (thread <$> [[Create true false]; [Lookup]]) ts /\ exists ts', step ts ts'.
Proof.
  intros ts.
  assert (rtc step (thread <$> [[Create true false]; [Lookup]]) ts) as Hr.
  { eapply rtc_l; [apply (StepTake mu_ Exclusive []); vm_compute; repeat constructor; by intros ?%not_elem_of_nil|].
    eapply rtc_l; [apply (StepDrop mu_ [])|].
    eapply rtc_l; [apply (StepTake pool_mutex_ Exclusive []); vm_compute; repeat constructor; by intros ?%not_elem_of_nil|].
    vm_compute. constructor. }
  split; [exact Hr|].
  destruct (Ns_locks_progress [[Create true false]; [Lookup]] ts) as [Hf|Hs]; [repeat constructor|exact Hr| |exact Hs].
  inversion Hf as [|? ? Ht]. discriminate.
Defined.

(** With a deletion among the calls this fails.  The creation holds the pool and
    wants the router's mutex for the unit of the namespace, the deletion holds
    the mutex and wants the pool. *)
Lemma Create_delete_deadlock :
  exists ts, rtc step (thread <$> [[Create true false]; [Delete]]) ts /\ stuck ts.
Proof.
  set (creator := MkThread [(pool_mutex_, Exclusive)] (lookup ++ [Drop pool_mutex_])).
  set (deleter := MkThread [(mu_, Exclusive)] (locked pool_mutex_ Exclusive [] ++ [Drop mu_])).
  exists [creator; deleter]. split.
  - eapply rtc_l; [apply (StepTake mu_ Exclusive []); vm_compute; repeat constructor; by intros ?%not_elem_of_nil|].
    eapply rtc_l; [apply (StepDrop mu_ [])|].
    eapply rtc_l; [apply (StepTake pool_mutex_ Exclusive []); vm_compute; repeat constructor; by intros ?%not_elem_of_nil|].
    eapply rtc_l.
    { apply (StepTake mu_ Exclusive [creator] []). by apply (bool_decide_eq_true_1 _). }
    vm_compute. constructor.
  - split; [intros Hf; by inversion Hf|]. intros ts' Hs.
    inversion Hs as [l md ts1 h acts ts2 Hfree Heq|l ts1 h acts ts2 Heq]; subst.
    + destruct ts1 as [|t ts1]; simplify_eq/=.
      * rewrite Forall_singleton in Hfree. apply Hfree. by left.
      * destruct ts1 as [|t' ts1]; simplify_eq/=; [|by destruct ts1].
        rewrite Forall_singleton in Hfree. apply Hfree. by left.
    + destruct ts1 as [|t ts1]; simplify_eq/=. destruct ts1 as [|t' ts1]; simplify_eq/=. by destruct ts1.
Qed.

End NsLocks.
